(* ===== verification/_CoqProject ===== *)
-Q . S2P
Prelude.v
Text.v
Clock.v
ProtoTypes.v
ProtoInstances.v
ProtoTranscript.v
ProtoAuth.v
ProtoNode.v
ProtoNodeFacts.v
ProtoTelemetry.v
ProtoSigned.v
ProtoRelay.v
ProtoSignedFacts.v
RelayError.v
RelayConfig.v
RelayRegistry.v
RelayFrame.v
RelayFlow.v
RelayTunnel.v
RelayLink.v
RelayLinkFacts.v
RelayLinkLogs.v
RelayStreams.v
NodeConnector.v
NodeTunnel.v
NodeFacts.v
RelayPair.v
RelayQuota.v
RelayQuotaFacts.v
RelayQuotaDurable.v
RelayMetrics.v
RelayRoutes.v
RelayRoutesFacts.v
RelayAdmission.v
NodeHostDb.v
NodeHostRuntime.v
NodeHostSync.v
NodeHostFacts.v
NodeHostLogic.v
NodeHostSafety.v
NodeHostSupervisor.v
NodeHostEntry.v
NodeHostSyncFacts.v
NodeHostRuns.v
NodeHostSamples.v
NodeHostTheorems.v
NodeHostTermination.v
NodeHostDeploy.v
NodeHostRecovery.v
Transaction.v
NodePolicy.v
NodeHostStuck.v
NodeTelemetry.v
ControlTelemetry.v
NodeTelemetryFacts.v
TelemetryUpload.v
NodePolicyFacts.v
PolicyTheorems.v
ControlTelemetryFacts.v
TelemetryPipeline.v
TelemetryExchange.v
TelemetryTheorems.v
RouterProtocol.v
RouterMapping.v
RouterMappingFacts.v
RouterProtocolFacts.v
RouterTheorems.v
NodeHeartbeat.v
HeartbeatTheorems.v
ControlNodes.v
ControlProbes.v
ControlNodeFacts.v
ControlNodeInvariant.v
ControlNodeTheorems.v
