(* ===== verification/Prelude.v ===== *)
(** * Private Network: verification library

    The repository is a private proxy network. A _controller_
    ([src/control-server]) knows the members and signs what everyone else
    acts on; _node hosts_ ([src/node-host]) run Xray for the members on a
    provider's machine; a _relay_ ([src/relay-server]) carries member traffic
    to nodes that cannot be reached directly, over one TLS tunnel that each
    node keeps open; _clients_ ([src/client]) connect members. All of them
    exchange the documents of [src/crates/control-protocol].

    The library models the protocol documents, the relay with its node
    connector, the node host's handling of desired state, Xray, the
    provider's policy, the router, telemetry and heartbeats, and what the
    controller does with the requests of nodes: their authentication,
    heartbeats, results, telemetry and the probes of their endpoints. Code is
    translated function by function. A fallible function returns [result]. Asynchronous code of the
    relay is cut at its [await] points into steps that a run interleaves,
    with shared objects in a heap under numbers of their own. The node host
    is sequential: an operation is a function on a world or on tables, and
    everything outside it (SQLite, the file system, processes, the clocks,
    the router, the controller) is an environment, a function from the
    number of the call to its answer, over which the theorems quantify.
    Machine integers are [Z] with their range and overflow written out.
    Third-party crates are parameters: classes with laws where the theorems
    need laws, plain arguments otherwise. [ProtoInstances] and the sample
    sections have computable instances, so that hypotheses are seen to hold
    on examples.

    ** Files

    - [Prelude]: the error monad, loops over lists, shared lemmas, tactics and
      the hint databases [pn] and [exact_ok]. [Transaction]: statements of a
      SQLite transaction as a state and error monad, with a postcondition
      logic ([after], the tactic [tx_step]) and the inversion of its runs
      ([tx_inv]).
    - [Text]: [str] searches, hexadecimal, [std::net] addresses. [Clock]: the
      [time] crate's instants and calendar.
    - [ProtoTypes], [ProtoInstances]: [id.rs], [crypto.rs], [validation.rs] and
      [idempotency.rs] of the protocol crate. [ProtoTranscript]: the labelled,
      length-prefixed byte strings that every signature of the system covers.
    - [ProtoAuth]: signed node requests ([request_auth.rs]). [ProtoNode],
      [ProtoNodeFacts]: node documents ([node.rs], [error.rs]).
      [ProtoTelemetry]: [telemetry.rs] and [probe.rs]. [ProtoSigned],
      [ProtoSignedFacts]: desired state, heartbeat answers and enrollment
      ([desired.rs], [node_status.rs], [enrollment.rs]). [ProtoRelay]: relay
      grants ([relay.rs]).
    - [RelayError], [RelayConfig], [RelayFrame], [RelayFlow], [RelayMetrics]:
      the files of the same name in [src/relay-server/src].
      [RelayRegistry]: the signed routes the controller publishes
      ([registry.rs]). [RelayQuota], [RelayQuotaFacts], [RelayQuotaDurable]:
      the durable monthly quota ([quota.rs]).
    - [RelayTunnel], [RelayLink], [RelayLinkFacts], [RelayLinkLogs],
      [RelayStreams]: a tunnel and its member streams on the relay
      ([relay.rs]). [RelayRoutes], [RelayRoutesFacts], [RelayAdmission]: route
      updates and the admission of nodes (the rest of [relay.rs]).
    - [NodeConnector], [NodeTunnel], [NodeFacts]: the node's end
      ([node.rs] of the relay crate). [RelayPair]: both ends joined by the
      connection between them.
    - [NodeHostDb], [NodeHostRuntime], [NodeHostSync], [NodeHostEntry]: the
      tables, the Xray supervisor ([activation.rs], [xray.rs], the process
      calls of [src/crates/xray-runtime]) and the synchronisation of desired
      state ([sync.rs]) of [src/node-host/src]. The other [NodeHost] files
      prove the tables consistent, the supervisor safe and terminating, and
      what it does over runs with crashes; [NodeHostStuck] has the service's
      cycle ([service.rs]) up to where it synchronises with the controller.
    - [NodePolicy], [NodePolicyFacts], [PolicyTheorems]: the provider's policy
      ([policy.rs]). [NodeTelemetry], [NodeTelemetryFacts],
      [TelemetryUpload]: the telemetry spool ([telemetry.rs]).
      [ControlTelemetry], [ControlTelemetryFacts]: the controller's telemetry
      ([db.rs] of [src/control-server/src]). [TelemetryPipeline],
      [TelemetryExchange], [TelemetryTheorems]: both, joined by a network that
      loses requests and answers.
    - [RouterProtocol], [RouterProtocolFacts]: PCP, NAT-PMP and UPnP
      ([router_protocol.rs]). [RouterMapping], [RouterMappingFacts],
      [RouterTheorems]: the supervisor of the router's lease ([mapping.rs]),
      which relies on the protocols through the interface [BackendLaws].
    - [NodeHeartbeat], [HeartbeatTheorems]: heartbeats and the controller's
      signed answers ([sync.rs], [controller_status.rs]), which bring the
      node's components together.
    - [ControlNodes], [ControlProbes]: the controller's tables of nodes,
      revisions, endpoints and probes with the handlers of node requests, the
      TCP probe and the protocol canary ([db.rs], [probe.rs] and
      [protocol_canary.rs] of [src/control-server/src]). [ControlNodeFacts]:
      what each handler does to the tables. [ControlNodeInvariant]: the
      invariant [fleet_ok] over runs [fleet_reaches] of the handlers.
      [ControlNodeTheorems]: the theorems.

    ** What the theorems show

    - _Documents._ Validation accepts exactly the documents of a declarative
      specification ([desired_state_exact], [telemetry_batch_exact],
      [config_validate_exact], [headers_parse_exact]); encodings round-trip
      ([setup_code_roundtrip], [relay_material_roundtrip],
      [frame_codec_exact]); request targets have one meaning
      ([request_target_unambiguous]).
    - _Signatures._ A transcript determines the document it was made from, and
      transcripts of different kinds never coincide, so a signature covers
      every field and cannot be replayed as another kind
      ([desired_signature_binds], [request_signature_binds],
      [enrollment_proof_binds], [route_signature_binds],
      [assignment_signature_binds], [signatures_not_interchangeable]).
    - _Streams._ For every interleaving of the tasks of both ends, member and
      target see prefixes of each other's bytes, within the announced windows
      and the configured limits ([end_to_end_bytes], [flow_control_holds],
      [stream_bytes_faithful], [stream_limits_hold]).
    - _Routes._ At most one live tunnel per route, revoked routes have none,
      updates take effect, a node is admitted exactly on the documented
      condition ([one_live_tunnel_per_route], [updates_take_effect],
      [node_admission_exact], [effective_routes_authorised]).
    - _Quota._ No month exceeds its limit over any run with failing writes,
      crashes and restarts ([monthly_limit_holds], [quota_write_atomic],
      [quota_restart_exact], [quota_fails_closed]).
    - _Desired state on a node._ Only signed revisions whose configuration the
      pinned Xray binary accepted are run, one process at a time, and a
      revision becomes active only after its process proved
      itself; what the tables say of a revision never changes once it is
      decided, and the tables refine an abstract deployment
      ([started_only_signed], [one_process_at_a_time],
      [active_only_when_proven], [tables_consistent], [decisions_are_final],
      [tables_refine_deployment]). Every operation ends, and a restart brings
      an applied revision back ([operations_terminate],
      [recovery_restores_service]).
    - _Provider's policy._ Schedules are the intervals they describe, also
      over midnight; used transfer stays used when the clock goes back; what
      is advertised is what is enforced ([schedule_exact],
      [consumed_quota_stays_consumed], [advertised_status_is_evaluated],
      [manual_endpoint_respects_limits]).
    - _Telemetry._ Every byte Xray counted is in the controller's aggregates at
      most once, and an event that was stored is kept until it is
      acknowledged, over any loss of requests and answers; a full spool
      refuses new events; a synchronisation over a working network
      delivers ([bytes_counted_once], [untaken_events_kept],
      [operations_are_steps], [telemetry_arrives],
      [stored_telemetry_well_formed]).
    - _Router._ A lease has one life, only this node's mappings are touched,
      only public addresses are published, and a paused node withdraws
      ([lease_lifecycle], [only_owned_mappings_touched],
      [router_endpoint_publishable], [withdrawn_when_paused],
      [release_failure_stops_mapping]).
    - _Heartbeats._ Endpoints are offered only by a serving node whose
      provider's policy is open; a generation names one heartbeat; stored
      answers of the controller are verified and always readable
      ([heartbeat_endpoints_safe], [generations_never_reused],
      [controller_status_verified], [heartbeat_always_possible]).
    - _Nodes at the controller._ A signed request is accepted once over any
      run; the candidates of a node are those of its latest heartbeat; the
      progress the controller keeps is what the journal of results says; an
      endpoint is called verified only on a probe of the same candidate that
      passed and has not expired; the answer verifies at the node and names
      the endpoints it reported, also when a heartbeat is repeated; the credentials of members follow the
      revision a node applies ([requests_accepted_once],
      [candidates_follow_heartbeat], [progress_is_journal],
      [verified_means_probed], [heartbeat_round_trip],
      [members_follow_revision]).
    - _Where the code falls short_, as theorems about the same definitions:
      [rate_limiter_livelock], [late_frame_ends_tunnel],
      [late_window_update_ends_node], [orderly_close_loses_bytes],
      [failed_update_keeps_old_token], [recovery_required_blocks_cycles],
      [full_spool_stops_accounting], [clock_behind_stops_exchange],
      [cleanup_failure_unreported], [same_endpoint_stops_heartbeat],
      [foreign_port_refused], [canary_awaits_preflight].

    ** Bounds

    Runs of a tunnel are shorter than 2^62 events, so that the 64-bit stream
    counter does not wrap; a tunnel that opened a stream every nanosecond would
    take a century to get there. Telemetry sequences are assumed to stay below
    2^63 for the same reason. Loops of the relay that wait take the list of
    events that reach them instead of fuel, and what they return when the list
    ends says that they still wait. Loops of the node host that the code
    bounds by a count (batches of one synchronisation, entries of a router's
    table) recurse on that count; those it bounds by a deadline take fuel, and
    [operations_terminate] shows that it is never used up once every sleep
    advances the clock.

    ** Idealisations

    A crash stops an operation between two calls of the outside and keeps the
    tables, which SQLite commits atomically; a failing statement leaves them
    as they were. Columns that nothing reads back (times of audit, some
    digests) are left out, as are the names of errors that only a log shows.
    Xray's test of a configuration answers for the binary with the pinned
    checksum and the bytes it is given: theorems about runs of the node host
    take the pairs it accepts as a parameter ([accepted]) and an outside that
    accepts no others ([truthful]).

    The controller's tables hold one network, as a deployment has one, and
    identities and enumerations as values instead of their text. Where a
    query leaves the order of equal rows open, the model takes the order of
    the keys. What the rest of the controller may do to these tables between
    two requests of nodes is the relation [elsewhere]: new nodes appear without
    progress, revisions, credentials and the other columns of a node change
    freely, and verifications become pending; nonces, results, candidates and
    probes are written by the modelled handlers alone. Signing with the controller's key and
    the text of published artifacts are the classes [ControllerKey] and
    [ArtifactJson].

    ** Not modelled

    The operating system, TLS, HTTP, SQLite, JSON and TOML codecs beyond the
    parameters above; the derived [serde] code; signing (a call of
    [ed25519_dalek]); rendering the Xray configuration; enrollment, relay
    assignments, the admission proxy, and the service loop of the node host
    but for a cycle's way to its synchronisation.
    Of the controller: its HTTP routes, administration, member accounts and
    publication of revisions, whose effects on the tables above are the
    relation [elsewhere], and the network and process calls of the probes,
    whose outcome is an argument of the handlers that record it. The client,
    the desktop shells, the scripts and the member account documents. They
    mostly call libraries, screens and services the sources do not contain;
    the manifest lists them part by part. *)
From Stdlib Require Export ZArith Lia Strings.Byte Strings.String.
From stdpp Require Export gmap strings list fin_maps.

Open Scope Z_scope.

(** ** The error monad: [Result<A, E>] with the [?] operator *)

Inductive result (E A : Type) : Type :=
| Ok (a : A)
| Err (e : E).
Arguments Ok {E A} a.
Arguments Err {E A} e.

#[export] Instance result_ret E : MRet (result E) := fun A a => Ok a.
#[export] Instance result_bind E : MBind (result E) :=
  fun A B f r => match r with Ok a => f a | Err e => Err e end.
#[export] Instance result_fmap E : FMap (result E) :=
  fun A B f r => match r with Ok a => Ok (f a) | Err e => Err e end.

(** [if !cond { return Err(e) }] *)
Definition ensure {E} (cond : bool) (e : E) : result E unit :=
  if cond then Ok tt else Err e.

(** [Option::ok_or_else] *)
Definition ok_or {E A} (o : option A) (e : E) : result E A :=
  match o with Some a => Ok a | None => Err e end.

(** [Result::map_err] *)
Definition map_err {E F A} (f : E -> F) (r : result E A) : result F A :=
  match r with Ok a => Ok a | Err e => Err (f e) end.

Definition is_ok {E A} (r : result E A) : bool :=
  match r with Ok _ => true | Err _ => false end.

(** [for x in l { f(x)?; }] *)
Fixpoint try_for_each {E A} (f : A -> result E unit) (l : list A) : result E unit :=
  match l with
  | [] => Ok tt
  | x :: l' => _ ← f x; try_for_each f l'
  end.

(** [for x in l { acc = f(acc, x)?; }] *)
Fixpoint try_fold {E A B} (f : B -> A -> result E B) (acc : B) (l : list A) : result E B :=
  match l with
  | [] => Ok acc
  | x :: l' => acc' ← f acc x; try_fold f acc' l'
  end.

(** ** Fixed-width unsigned integers, as ranges of [Z] *)

Definition u8_max : Z := 255.
Definition u16_max : Z := 65535.
Definition u32_max : Z := 4294967295.
Definition u64_max : Z := 18446744073709551615.
Definition u128_max : Z := 340282366920938463463374607431768211455.
(** The relay, the node host and the control service are 64-bit targets. *)
Definition usize_max : Z := u64_max.

Definition in_range (max z : Z) : Prop := 0 <= z <= max.
Abbreviation is_u8 := (in_range u8_max).
Abbreviation is_u16 := (in_range u16_max).
Abbreviation is_u32 := (in_range u32_max).
Abbreviation is_u64 := (in_range u64_max).
Abbreviation is_usize := (in_range usize_max).

(** [uN::try_from], [checked_add], [checked_sub], [saturating_*] and the
    wrapping [fetch_add] of the atomics *)
Definition try_from (max z : Z) : option Z :=
  if (0 <=? z) && (z <=? max) then Some z else None.
Definition checked_add (max a b : Z) : option Z :=
  if a + b <=? max then Some (a + b) else None.
Definition checked_sub (a b : Z) : option Z :=
  if b <=? a then Some (a - b) else None.
Definition checked_mul (max a b : Z) : option Z :=
  if a * b <=? max then Some (a * b) else None.
Definition saturating_add (max a b : Z) : Z := Z.min max (a + b).
Definition saturating_sub (a b : Z) : Z := Z.max 0 (a - b).
Definition saturating_mul (max a b : Z) : Z := Z.min max (a * b).
Definition wrapping_add (max a b : Z) : Z := (a + b) mod (max + 1).
Definition wrapping_sub (max a b : Z) : Z := (a - b) mod (max + 1).
Definition div_ceil (a b : Z) : Z := (a + b - 1) / b.

(** Unfolds the machine-integer vocabulary before [lia]. *)
Ltac unfold_ints :=
  unfold saturating_add, saturating_sub, saturating_mul, in_range,
    usize_max, u8_max, u16_max, u32_max, u64_max, u128_max in *.
Ltac ulia := unfold_ints; lia.

(** ** Bytes *)

Definition byte_to_Z (b : byte) : Z := Z.of_N (Byte.to_N b).
Definition byte_of_Z (z : Z) : byte :=
  match Byte.of_N (Z.to_N (z mod 256)) with Some b => b | None => x00 end.

#[export] Instance byte_eq_dec : EqDecision byte := Byte.byte_eq_dec.

(** [to_be_bytes] of an [n]-byte integer, and [from_be_bytes] *)
Fixpoint be_bytes (n : nat) (z : Z) : list byte :=
  match n with
  | O => []
  | S n' => byte_of_Z (z / 256 ^ Z.of_nat n') :: be_bytes n' z
  end.
Definition be_value (l : list byte) : Z :=
  foldl (fun acc b => acc * 256 + byte_to_Z b) 0 l.

Definition zlen {A} (l : list A) : Z := Z.of_nat (length l).

(** Strings are UTF-8 byte sequences: [str::as_bytes], [str::len]. *)
Definition as_bytes (s : string) : list byte := String.list_byte_of_string s.
Definition str_of_bytes (l : list byte) : string := String.string_of_list_byte l.
Definition str_len (s : string) : Z := zlen (as_bytes s).

(** [str::from_utf8]: the well-formed byte sequences of Unicode, table 3-7. *)
Definition utf8_in (lo hi : Z) (b : byte) : bool :=
  (lo <=? byte_to_Z b) && (byte_to_Z b <=? hi).
Definition utf8_tail (b : byte) : bool := utf8_in 0x80 0xBF b.
Definition utf8_second3 (b0 b1 : byte) : bool :=
  if byte_to_Z b0 =? 0xE0 then utf8_in 0xA0 0xBF b1
  else if byte_to_Z b0 =? 0xED then utf8_in 0x80 0x9F b1
  else utf8_tail b1.
Definition utf8_second4 (b0 b1 : byte) : bool :=
  if byte_to_Z b0 =? 0xF0 then utf8_in 0x90 0xBF b1
  else if byte_to_Z b0 =? 0xF4 then utf8_in 0x80 0x8F b1
  else utf8_tail b1.
Fixpoint utf8_valid (l : list byte) : bool :=
  match l with
  | [] => true
  | b0 :: l1 =>
      if byte_to_Z b0 <=? 0x7F then utf8_valid l1
      else if utf8_in 0xC2 0xDF b0 then
        match l1 with b1 :: l2 => utf8_tail b1 && utf8_valid l2 | _ => false end
      else if utf8_in 0xE0 0xEF b0 then
        match l1 with
        | b1 :: b2 :: l3 => utf8_second3 b0 b1 && utf8_tail b2 && utf8_valid l3
        | _ => false
        end
      else if utf8_in 0xF0 0xF4 b0 then
        match l1 with
        | b1 :: b2 :: b3 :: l4 =>
            utf8_second4 b0 b1 && utf8_tail b2 && utf8_tail b3 && utf8_valid l4
        | _ => false
        end
      else false
  end.
Definition from_utf8 (l : list byte) : option string :=
  if utf8_valid l then Some (str_of_bytes l) else None.

(** ** Character classes of [u8] and [char] *)

Definition in_bounds (lo hi : Z) (b : byte) : bool :=
  (lo <=? byte_to_Z b) && (byte_to_Z b <=? hi).
Definition is_ascii_digit (b : byte) : bool := in_bounds 48 57 b.
Definition is_ascii_lowercase (b : byte) : bool := in_bounds 97 122 b.
Definition is_ascii_uppercase (b : byte) : bool := in_bounds 65 90 b.
Definition is_ascii_alphabetic (b : byte) : bool :=
  is_ascii_lowercase b || is_ascii_uppercase b.
Definition is_ascii_alphanumeric (b : byte) : bool :=
  is_ascii_alphabetic b || is_ascii_digit b.
Definition is_ascii_hexdigit (b : byte) : bool :=
  is_ascii_digit b || in_bounds 97 102 b || in_bounds 65 70 b.

Create HintDb pn.

(** ** Case analysis on the code's control flow *)

(** Destructs the scrutinee of a [match] or [if] met in a hypothesis or in
    the goal, keeping its equation, and discharges impossible branches. *)
Ltac case_split :=
  match goal with
  | H : context [match ?x with _ => _ end] |- _ =>
      lazymatch x with context [match _ with _ => _ end] => fail | _ => destruct x eqn:?; simpl in H end
  | |- context [match ?x with _ => _ end] =>
      lazymatch x with context [match _ with _ => _ end] => fail | _ => destruct x eqn:?; simpl end
  end.
Ltac case_splits := repeat (case_split; simplify_eq/=; try done).

(** Turns the boolean tests of the code into propositions. *)
Ltac bool_props :=
  repeat match goal with
  | H : andb _ _ = true |- _ => apply andb_true_iff in H as [? ?]
  | H : andb _ _ = false |- _ => apply andb_false_iff in H
  | H : orb _ _ = false |- _ => apply orb_false_iff in H as [? ?]
  | H : orb _ _ = true |- _ => apply orb_true_iff in H
  | H : negb _ = true |- _ => apply negb_true_iff in H
  | H : negb _ = false |- _ => apply negb_false_iff in H
  | H : (_ =? _) = true |- _ => apply Z.eqb_eq in H
  | H : (_ =? _) = false |- _ => apply Z.eqb_neq in H
  | H : (_ <=? _) = true |- _ => apply Z.leb_le in H
  | H : (_ <=? _) = false |- _ => apply Z.leb_gt in H
  | H : (_ <? _) = true |- _ => apply Z.ltb_lt in H
  | H : (_ <? _) = false |- _ => apply Z.ltb_ge in H
  | H : bool_decide _ = true |- _ => apply bool_decide_eq_true in H
  | H : bool_decide _ = false |- _ => apply bool_decide_eq_false in H
  end.

(** ** Lemmas on the error monad *)

Lemma bind_Ok {E A B} (r : result E A) (f : A -> result E B) b :
  r ≫= f = Ok b <-> exists a, r = Ok a /\ f a = Ok b.
Proof. destruct r; simpl; naive_solver. Qed.
(** A list of fallible steps succeeds exactly when each of them does. *)
Lemma mapM_Ok {E A B} (f : A -> result E B) l k :
  mapM (M := result E) f l = Ok k <-> Forall2 (fun x y => f x = Ok y) l k.
Proof.
  revert k. induction l as [|x l IH]; intros k; cbn.
  - split; [intros [= <-]; constructor | by inversion 1].
  - rewrite bind_Ok. split.
    + intros (y & Ey & H). apply bind_Ok in H as (k' & Ek & [= <-]). constructor; [done|]. by apply IH.
    + inversion 1; subst. eexists; split; [done|]. rewrite (proj2 (IH _)) by done. done.
Qed.

Lemma bind_Err {E A B} (r : result E A) (f : A -> result E B) e :
  r ≫= f = Err e <-> r = Err e \/ exists a, r = Ok a /\ f a = Err e.
Proof. destruct r; simpl; naive_solver. Qed.

Lemma ensure_Ok {E} (c : bool) (e : E) u : ensure c e = Ok u <-> c = true.
Proof. destruct c, u; simpl; naive_solver. Qed.

Lemma ok_or_Ok {E A} (o : option A) (e : E) a : ok_or o e = Ok a <-> o = Some a.
Proof. destruct o; simpl; naive_solver. Qed.

Lemma map_err_Ok {E F A} (f : E -> F) (r : result E A) a : map_err f r = Ok a <-> r = Ok a.
Proof. destruct r; simpl; naive_solver. Qed.

Lemma try_for_each_Ok {E A} (f : A -> result E unit) l u :
  try_for_each f l = Ok u <-> Forall (fun x => f x = Ok tt) l.
Proof.
  induction l as [|x l IH]; simpl; [destruct u; naive_solver|].
  rewrite bind_Ok, Forall_cons, <- IH. split.
  - intros ([] & ? & ?); eauto.
  - intros [? ?]; eauto.
Qed.

Lemma bind_unit_Ok {E A} (r : result E unit) (k : result E A) a :
  (r ≫= fun _ => k) = Ok a <-> r = Ok tt /\ k = Ok a.
Proof. destruct r as [[]|]; simpl; naive_solver. Qed.

Lemma ensure_then_Ok {E A} (c : bool) (e : E) (k : result E A) a :
  (ensure c e ≫= fun _ => k) = Ok a <-> c = true /\ k = Ok a.
Proof. by rewrite bind_unit_Ok, ensure_Ok. Qed.

(** [validates] turns "this chain of checks returned [Ok]" into the
    conjunction of what the checks test, for exactness statements. *)
Create Rewrite HintDb exact_ok.
#[export] Hint Rewrite @ensure_then_Ok @bind_unit_Ok @ensure_Ok @ok_or_Ok @map_err_Ok @try_for_each_Ok
  negb_true_iff negb_false_iff andb_true_iff orb_false_iff bool_decide_eq_true bool_decide_eq_false
  Z.leb_le Z.leb_gt Z.ltb_lt Z.ltb_ge Z.eqb_eq Z.eqb_neq Bool.eqb_true_iff : exact_ok.
Tactic Notation "validates" := autorewrite with exact_ok.
Tactic Notation "validates" "in" hyp(H) := autorewrite with exact_ok in H.

(** Destructs a chain of [?]-bound calls that returned [Ok]. *)
Ltac inv_ok :=
  repeat match goal with
  | H : mbind _ _ = Ok _ |- _ => apply bind_Ok in H as (? & ? & ?)
  | H : ensure _ _ = Ok _ |- _ => apply ensure_Ok in H
  | H : ok_or _ _ = Ok _ |- _ => apply ok_or_Ok in H
  | H : map_err _ _ = Ok _ |- _ => apply map_err_Ok in H
  | H : Ok _ = Ok _ |- _ => injection H as H; subst
  | H : Err _ = Ok _ |- _ => discriminate H
  | u : unit |- _ => destruct u
  end.

(** Reduces the error monad, and nothing else. *)
Tactic Notation "rsimpl" := cbn [mbind result_bind ensure ok_or].
Tactic Notation "rsimpl" "in" hyp(H) := cbn [mbind result_bind ensure ok_or] in H.

(** Evaluates the sizes of the fixed-width integers. *)
Ltac pow256 :=
  change (256 ^ Z.of_nat 1) with 256 in *;
  change (256 ^ Z.of_nat 2) with 65536 in *;
  change (256 ^ Z.of_nat 4) with 4294967296 in *;
  change (256 ^ Z.of_nat 8) with 18446744073709551616 in *;
  change (256 ^ 1) with 256 in *;
  change (256 ^ 2) with 65536 in *;
  change (256 ^ 4) with 4294967296 in *;
  change (256 ^ 8) with 18446744073709551616 in *.

(** ** Lemmas on bytes and big-endian integers *)

Lemma byte_to_Z_range b : 0 <= byte_to_Z b < 256.
Proof.
  unfold byte_to_Z. pose proof (Byte.to_N_bounded b). lia.
Qed.

Lemma byte_of_to_Z b : byte_of_Z (byte_to_Z b) = b.
Proof.
  unfold byte_of_Z. pose proof (byte_to_Z_range b).
  rewrite Z.mod_small by lia. unfold byte_to_Z.
  by rewrite N2Z.id, Byte.of_to_N.
Qed.

Lemma byte_to_of_Z z : byte_to_Z (byte_of_Z z) = z mod 256.
Proof.
  unfold byte_of_Z. pose proof (Z.mod_pos_bound z 256 ltac:(lia)) as Hb.
  destruct (Byte.of_N (Z.to_N (z mod 256))) as [b|] eqn:E.
  - apply Byte.to_of_N in E. unfold byte_to_Z. rewrite E. lia.
  - apply Byte.of_N_None_iff in E. lia.
Qed.

Lemma byte_to_Z_inj b1 b2 : byte_to_Z b1 = byte_to_Z b2 -> b1 = b2.
Proof. intros H. by rewrite <- (byte_of_to_Z b1), <- (byte_of_to_Z b2), H. Qed.

Lemma length_be_bytes n z : length (be_bytes n z) = n.
Proof. induction n; simpl; congruence. Qed.

Lemma zlen_nonneg {A} (l : list A) : 0 <= zlen l.
Proof. unfold zlen; lia. Qed.

Lemma zlen_app {A} (l k : list A) : zlen (l ++ k) = zlen l + zlen k.
Proof. unfold zlen. rewrite length_app. lia. Qed.

Lemma zlen_be_bytes n z : zlen (be_bytes n z) = Z.of_nat n.
Proof. unfold zlen. by rewrite length_be_bytes. Qed.

Lemma foldl_be acc l :
  foldl (fun acc b => acc * 256 + byte_to_Z b) acc l
  = acc * 256 ^ zlen l + be_value l.
Proof.
  unfold be_value. revert acc. induction l as [|b l IH]; intros acc; cbn [foldl].
  - unfold zlen; simpl; lia.
  - rewrite IH, (IH (0 * 256 + _)). unfold zlen; simpl length.
    rewrite Nat2Z.inj_succ, Z.pow_succ_r by lia. ring.
Qed.

Lemma be_value_cons b l : be_value (b :: l) = byte_to_Z b * 256 ^ zlen l + be_value l.
Proof. unfold be_value at 1; cbn [foldl]. rewrite foldl_be. lia. Qed.

Lemma be_value_range l : 0 <= be_value l < 256 ^ zlen l.
Proof.
  induction l as [|b l IH]; [done|]. rewrite be_value_cons.
  pose proof (byte_to_Z_range b). unfold zlen in *; simpl length.
  rewrite Nat2Z.inj_succ, Z.pow_succ_r by lia. nia.
Qed.

Lemma be_value_be_bytes n z : be_value (be_bytes n z) = z mod 256 ^ Z.of_nat n.
Proof.
  induction n as [|n IH]; [by rewrite Z.mod_1_r|].
  cbn [be_bytes]. rewrite be_value_cons, zlen_be_bytes, IH, byte_to_of_Z.
  rewrite Nat2Z.inj_succ, Z.pow_succ_r, (Z.mul_comm 256) by lia.
  rewrite Z.rem_mul_r by lia. ring.
Qed.

Lemma be_bytes_add_mul n a z :
  be_bytes n (a * 256 ^ Z.of_nat n + z) = be_bytes n z.
Proof.
  assert (forall m : nat, (m <= n)%nat ->
    be_bytes m (a * 256 ^ Z.of_nat n + z) = be_bytes m z) as Hgen; [|by apply Hgen].
  induction m as [|m IH]; intros Hm; [done|]. cbn [be_bytes].
  f_equal; [|apply IH; lia].
  apply byte_to_Z_inj. rewrite !byte_to_of_Z.
  replace (Z.of_nat n) with (Z.of_nat (n - S m) + 1 + Z.of_nat m) by lia.
  rewrite !Z.pow_add_r, Z.mul_assoc, Z.div_add_l by lia.
  rewrite Z.pow_1_r, Z.mul_assoc, Z.add_comm, Z.mod_add by lia. done.
Qed.

Lemma be_bytes_be_value l : be_bytes (length l) (be_value l) = l.
Proof.
  induction l as [|b l IH]; [done|]. cbn [length be_bytes].
  rewrite be_value_cons. unfold zlen. f_equal; [|by rewrite be_bytes_add_mul].
  pose proof (be_value_range l) as Hr. unfold zlen in Hr.
  rewrite Z.div_add_l, (Z.div_small (be_value l)), Z.add_0_r by lia.
  apply byte_of_to_Z.
Qed.

Lemma be_value_inj l k : length l = length k -> be_value l = be_value k -> l = k.
Proof.
  intros Hl Hv. by rewrite <- (be_bytes_be_value l), <- (be_bytes_be_value k), Hl, Hv.
Qed.

Lemma str_of_as_bytes s : str_of_bytes (as_bytes s) = s.
Proof. apply String.string_of_list_byte_of_string. Qed.

Lemma as_bytes_of_str l : as_bytes (str_of_bytes l) = l.
Proof. apply String.list_byte_of_string_of_list_byte. Qed.

#[global] Arguments be_bytes : simpl never.
#[global] Arguments be_value : simpl never.
#[global] Arguments byte_to_Z : simpl never.
#[global] Arguments byte_of_Z : simpl never.
#[global] Arguments as_bytes : simpl never.
#[global] Arguments str_of_bytes : simpl never.
#[global] Arguments zlen : simpl never.
