(* ===== verification/Text.v ===== *)
(** * Strings and addresses of the Rust standard library

    The [str] searches the protocol code uses, over the UTF-8 bytes of a
    string (every pattern searched for is ASCII, so byte and character
    positions agree), hexadecimal digits, and [std::net::IpAddr] with the
    parser behind [str::parse::<IpAddr>]. *)
From S2P Require Import Prelude.

(** ** Searching *)

(** [str::split] by one ASCII character *)
Fixpoint split_on (sep : byte) (l : list byte) : list (list byte) :=
  match l with
  | [] => [[]]
  | b :: l' =>
      if bool_decide (b = sep) then [] :: split_on sep l'
      else match split_on sep l' with
           | s :: ss => (b :: s) :: ss
           | [] => [[b]]
           end
  end.

(** [str::split_once] *)
Fixpoint split_once (sep : byte) (l : list byte) : option (list byte * list byte) :=
  match l with
  | [] => None
  | b :: l' =>
      if bool_decide (b = sep) then Some ([], l')
      else match split_once sep l' with
           | Some (p, q) => Some (b :: p, q)
           | None => None
           end
  end.

(** [str::strip_prefix] *)
Fixpoint strip_prefix (p l : list byte) : option (list byte) :=
  match p, l with
  | [], _ => Some l
  | a :: p', b :: l' => if bool_decide (a = b) then strip_prefix p' l' else None
  | _ :: _, [] => None
  end.
Definition starts_with (p l : list byte) : bool :=
  match strip_prefix p l with Some _ => true | None => false end.
Definition ends_with (s l : list byte) : bool := starts_with (rev s) (rev l).
Definition contains_byte (b : byte) (l : list byte) : bool := bool_decide (b ∈ l).
Fixpoint contains (p l : list byte) : bool :=
  starts_with p l || match l with [] => false | _ :: l' => contains p l' end.

(** ** Characters *)

(** [str::chars] of well-formed UTF-8, as code points *)
Definition continuation (acc : Z) (b : byte) : Z := acc * 64 + byte_to_Z b mod 64.
Fixpoint chars (l : list byte) : list Z :=
  match l with
  | [] => []
  | b0 :: l1 =>
      if byte_to_Z b0 <=? 0x7F then byte_to_Z b0 :: chars l1
      else if byte_to_Z b0 <=? 0xDF then
        match l1 with
        | b1 :: l2 => continuation (byte_to_Z b0 mod 32) b1 :: chars l2
        | _ => []
        end
      else if byte_to_Z b0 <=? 0xEF then
        match l1 with
        | b1 :: b2 :: l3 => continuation (continuation (byte_to_Z b0 mod 16) b1) b2 :: chars l3
        | _ => []
        end
      else
        match l1 with
        | b1 :: b2 :: b3 :: l4 =>
            continuation (continuation (continuation (byte_to_Z b0 mod 8) b1) b2) b3 :: chars l4
        | _ => []
        end
  end.

(** [char::is_control] (category Cc) and [char::is_whitespace] (White_Space) *)
Definition is_control (c : Z) : bool := (c <=? 0x1F) || ((0x7F <=? c) && (c <=? 0x9F)).
Definition is_whitespace (c : Z) : bool :=
  ((9 <=? c) && (c <=? 13)) || ((0x2000 <=? c) && (c <=? 0x200A))
  || bool_decide (c ∈ [0x20; 0x85; 0xA0; 0x1680; 0x2028; 0x2029; 0x202F; 0x205F; 0x3000]).

(** ** Hexadecimal *)

(** [char::to_digit] *)
Definition to_digit (radix : Z) (b : byte) : option Z :=
  let z := byte_to_Z b in
  let d := if is_ascii_digit b then Some (z - 48)
           else if in_bounds 97 122 b then Some (z - 87)
           else if in_bounds 65 90 b then Some (z - 55) else None in
  match d with
  | Some d => if d <? radix then Some d else None
  | None => None
  end.

(** The table [b"0123456789abcdef"]. *)
Definition hex_digit (d : Z) : byte := byte_of_Z (if d <? 10 then 48 + d else 87 + d).
Definition is_lower_hex (b : byte) : bool := is_ascii_digit b || in_bounds 97 102 b.

(** ** Network addresses *)

Inductive IpAddr : Type :=
| V4 (octets : list Z)
| V6 (segments : list Z).
#[export] Instance IpAddr_eq_dec : EqDecision IpAddr.
Proof. solve_decision. Defined.

(** [Ipv4Addr::is_loopback] and [Ipv6Addr::is_loopback] *)
Definition is_loopback (a : IpAddr) : bool :=
  match a with
  | V4 octets => match octets with o :: _ => o =? 127 | [] => false end
  | V6 segments => bool_decide (segments = [0; 0; 0; 0; 0; 0; 0; 1])
  end.

(** [Parser::read_number] with a digit bound: the value and what follows.
    Reading stops at the first character that is not a digit. *)
Fixpoint read_digits (radix : Z) (room : nat) (value : Z) (l : list byte)
    : option (Z * list byte) :=
  match l with
  | [] => Some (value, [])
  | b :: l' =>
      match to_digit radix b with
      | None => Some (value, l)
      | Some d =>
          match room with
          | O => None
          | S room' => read_digits radix room' (value * radix + d) l'
          end
      end
  end.
Definition read_number (radix : Z) (max_digits : nat) (max : Z) (allow_zero_prefix : bool)
    (l : list byte) : option (Z * list byte) :=
  match read_digits radix max_digits 0 l with
  | None => None
  | Some (value, rest) =>
      let digit_count := zlen l - zlen rest in
      let has_leading_zero := match l with b :: _ => bool_decide (b = "0"%byte) | [] => false end in
      if digit_count =? 0 then None
      else if negb allow_zero_prefix && has_leading_zero && (1 <? digit_count) then None
      else if value <=? max then Some (value, rest) else None
  end.

(** [Parser::read_given_char] and [Parser::read_separator] *)
Definition read_char (c : byte) (l : list byte) : option (list byte) :=
  match l with
  | b :: l' => if bool_decide (b = c) then Some l' else None
  | [] => None
  end.
Definition read_separator {A} (sep : byte) (index : nat)
    (inner : list byte -> option (A * list byte)) (l : list byte) : option (A * list byte) :=
  match index with
  | O => inner l
  | S _ => match read_char sep l with Some l' => inner l' | None => None end
  end.

(** [Parser::read_ipv4_addr] *)
Definition read_octet (i : nat) (l : list byte) : option (Z * list byte) :=
  read_separator "."%byte i (read_number 10 3 u8_max false) l.
Definition read_ipv4_addr (l : list byte) : option (list Z * list byte) :=
  '(a, l) ← read_octet 0 l;
  '(b, l) ← read_octet 1 l;
  '(c, l) ← read_octet 2 l;
  '(d, l) ← read_octet 3 l;
  Some ([a; b; c; d], l).

(** [read_groups] of [Parser::read_ipv6_addr]: at most [room] groups from
    position [i], the second component telling whether they end with an
    embedded IPv4 address. *)
Fixpoint read_groups (i room : nat) (l : list byte) : list Z * bool * list byte :=
  match room with
  | O => ([], false, l)
  | S room' =>
      let ipv4 := match room' with
                  | O => None
                  | S _ => read_separator ":"%byte i read_ipv4_addr l
                  end in
      match ipv4 with
      | Some ([a; b; c; d], l') => ([a * 256 + b; c * 256 + d], true, l')
      | _ =>
          match read_separator ":"%byte i (read_number 16 4 u16_max true) l with
          | Some (g, l') =>
              let '(gs, v4, rest) := read_groups (S i) room' l' in (g :: gs, v4, rest)
          | None => ([], false, l)
          end
      end
  end.

(** [Parser::read_ipv6_addr] *)
Definition read_ipv6_addr (l : list byte) : option (list Z * list byte) :=
  let '(head, head_ipv4, l1) := read_groups 0 8 l in
  if bool_decide (length head = 8%nat) then Some (head, l1)
  else if head_ipv4 then None
  else
    l2 ← read_char ":"%byte l1;
    l3 ← read_char ":"%byte l2;
    let '(tail, _, l4) := read_groups 0 (8 - (length head + 1)) l3 in
    Some (head ++ replicate (8 - length head - length tail) 0 ++ tail, l4).

(** [str::parse::<IpAddr>] *)
Definition parse_ip (l : list byte) : option IpAddr :=
  let read := match read_ipv4_addr l with
              | Some (o, rest) => Some (V4 o, rest)
              | None => match read_ipv6_addr l with
                        | Some (s, rest) => Some (V6 s, rest)
                        | None => None
                        end
              end in
  match read with
  | Some (a, []) => Some a
  | _ => None
  end.

(** ** Lemmas on the searches *)

Lemma strip_prefix_Some p l r : strip_prefix p l = Some r <-> l = p ++ r.
Proof.
  revert l. induction p as [|a p IH]; intros [|b l]; simpl; try naive_solver.
  case_bool_decide; [rewrite IH|]; naive_solver.
Qed.

Lemma starts_with_spec p l : starts_with p l = true <-> exists r, l = p ++ r.
Proof.
  unfold starts_with. destruct (strip_prefix p l) as [r|] eqn:E.
  - apply strip_prefix_Some in E. naive_solver.
  - split; [done|]. intros [r Hr]. apply strip_prefix_Some in Hr. congruence.
Qed.

Lemma contains_byte_spec b l : contains_byte b l = true <-> b ∈ l.
Proof. apply bool_decide_eq_true. Qed.

Lemma split_on_forall (P : byte -> Prop) sep l :
  (Forall (Forall P) (split_on sep l) /\ P sep) -> Forall P l.
Proof.
  intros [H Hs]. induction l as [|b l IH]; [done|]. simpl in H.
  case_bool_decide; subst.
  - apply Forall_cons in H as [_ H]. by constructor; [|apply IH].
  - destruct (split_on sep l) as [|s ss] eqn:E.
    + destruct l; simpl in E; [done|]. repeat case_match; done.
    + apply Forall_cons in H as [H1 H2]. apply Forall_cons in H1 as [? ?].
      constructor; [done|]. apply IH. by constructor.
Qed.

(** [split_on] of a byte in front *)
Lemma split_on_sep sep l : split_on sep (sep :: l) = [] :: split_on sep l.
Proof. cbn. by rewrite bool_decide_eq_true_2. Qed.
Lemma split_on_byte sep b l :
  b <> sep -> exists s ss, split_on sep l = s :: ss /\ split_on sep (b :: l) = (b :: s) :: ss.
Proof.
  intros Hb. destruct (split_on sep l) as [|s ss] eqn:E.
  - destruct l as [|c l]; cbn in E; [done|]. repeat case_match; done.
  - exists s, ss. split; [done|]. cbn. rewrite bool_decide_eq_false_2 by done. by rewrite E.
Qed.

(** Real addresses, with the forms the parser takes and refuses. *)
Example parse_ip_examples :
  parse_ip (as_bytes "127.0.0.1") = Some (V4 [127; 0; 0; 1]) /\
  parse_ip (as_bytes "::1") = Some (V6 [0; 0; 0; 0; 0; 0; 0; 1]) /\
  parse_ip (as_bytes "2001:DB8::0001") = Some (V6 [8193; 3512; 0; 0; 0; 0; 0; 1]) /\
  parse_ip (as_bytes "::ffff:10.0.0.1") = Some (V6 [0; 0; 0; 0; 0; 65535; 2560; 1]) /\
  parse_ip (as_bytes "1:2:3:4:5:6:7:8") = Some (V6 [1; 2; 3; 4; 5; 6; 7; 8]) /\
  parse_ip (as_bytes "010.0.0.1") = None /\
  parse_ip (as_bytes "256.0.0.1") = None /\
  parse_ip (as_bytes "1:2:3:4:5:6:7:8::") = None.
Proof. repeat split; vm_compute; reflexivity. Qed.
