(* ===== verification/Clock.v ===== *)
(** Wall-clock time as the [time] crate presents it. An [OffsetDateTime] is the
    instant it denotes, in nanoseconds since the Unix epoch, with the UTC
    offset it is displayed at; two of them compare by instant. The calendar
    fields are the crate's: they are a parameter, the class [Calendar], with
    what the code relies on as [CalendarLaws]. [gregorian] is an instance, by
    the usual days-to-civil computation. *)
From S2P Require Import Prelude.
Open Scope Z_scope.

Record OffsetDateTime : Type := mkTime {
  instant : Z;
  offset : Z;
}.

#[export] Instance OffsetDateTime_eq_dec : EqDecision OffsetDateTime.
Proof. solve_decision. Defined.

Definition NANOS_PER_DAY : Z := 86400 * 1000000000.

(** [value.to_offset(UtcOffset::UTC)] *)
Definition utc (t : OffsetDateTime) : OffsetDateTime := mkTime (instant t) 0.
(** [t - Duration::days(n)] and [t + Duration::seconds(n)] *)
Definition sub_days (t : OffsetDateTime) (n : Z) : OffsetDateTime :=
  mkTime (instant t - n * NANOS_PER_DAY) (offset t).
Definition add_seconds (t : OffsetDateTime) (n : Z) : OffsetDateTime :=
  mkTime (instant t + n * 1000000000) (offset t).
(** [Ord] for [OffsetDateTime]; [Ord::max] returns its second argument on
    equal instants. *)
Definition time_le (t u : OffsetDateTime) : bool := instant t <=? instant u.
Definition time_lt (t u : OffsetDateTime) : bool := instant t <? instant u.
Definition time_max (t u : OffsetDateTime) : OffsetDateTime :=
  if time_lt u t then t else u.

Class Calendar : Type := {
  year : OffsetDateTime -> Z;
  month : OffsetDateTime -> Z;
}.

(** [(i32, u8)] keys compare lexicographically. *)
Definition key_lt (a b : Z * Z) : bool :=
  (a.1 <? b.1) || ((a.1 =? b.1) && (a.2 <? b.2)).
Definition key_le (a b : Z * Z) : bool := negb (key_lt b a).

Class CalendarLaws (C : Calendar) : Prop := {
  month_range t : 1 <= month t <= 12;
  (** Calendar months follow one another in time. *)
  month_mono t u :
    offset t = 0 -> offset u = 0 -> instant t <= instant u ->
    key_le (year t, month t) (year u, month u) = true;
  (** No month is longer than 31 days, so 62 days always end in a later one. *)
  month_short t u :
    offset t = 0 -> offset u = 0 -> instant t + 62 * NANOS_PER_DAY <= instant u ->
    key_lt (year t, month t) (year u, month u) = true;
}.

(** ** The Gregorian calendar *)

(** Days since 1970-01-01, to the year and month of the proleptic Gregorian
    calendar: years start in March, and a 400-year era has 146097 days. *)
Definition era_day (days : Z) : Z := (days + 719468) mod 146097.
Definition year_of_era (doe : Z) : Z :=
  (doe - doe / 1460 + doe / 36524 - doe / 146096) / 365.
Definition day_of_year (doe : Z) : Z :=
  doe - (365 * year_of_era doe + year_of_era doe / 4 - year_of_era doe / 100).
Definition march_month (doe : Z) : Z := (5 * day_of_year doe + 2) / 153.
(** Months since March of the era's year 0 *)
Definition month_index (days : Z) : Z :=
  ((days + 719468) / 146097) * 4800 + 12 * year_of_era (era_day days)
  + march_month (era_day days).
Definition local_days (t : OffsetDateTime) : Z :=
  (instant t + offset t * 1000000000) / NANOS_PER_DAY.

#[export] Instance gregorian : Calendar := {
  year t := (month_index (local_days t) + 2) / 12;
  month t := (month_index (local_days t) + 2) mod 12 + 1;
}.

(** The first day of the month with a given index *)
Definition first_doy (mp : Z) : Z := (153 * mp + 2) / 5.
Definition year_start (y : Z) : Z :=
  (y / 400) * 146097 + 365 * (y mod 400) + (y mod 400) / 4 - (y mod 400) / 100 - 719468.
Definition first_day (i : Z) : Z := year_start (i / 12) + first_doy (i mod 12).

Lemma key_lt_index a b : 
  key_lt ((a + 2) / 12, (a + 2) mod 12 + 1) ((b + 2) / 12, (b + 2) mod 12 + 1) = (a <? b).
Proof.
  unfold key_lt; cbn [fst snd].
  pose proof (Z.div_mod (a + 2) 12). pose proof (Z.mod_pos_bound (a + 2) 12).
  pose proof (Z.div_mod (b + 2) 12). pose proof (Z.mod_pos_bound (b + 2) 12).
  destruct (Z.ltb_spec a b).
  - destruct (Z.ltb_spec ((a + 2) / 12) ((b + 2) / 12)); [done|].
    destruct (Z.eqb_spec ((a + 2) / 12) ((b + 2) / 12)); [|lia]. simpl.
    apply Z.ltb_lt. lia.
  - destruct (Z.ltb_spec ((a + 2) / 12) ((b + 2) / 12)); [lia|].
    destruct (Z.eqb_spec ((a + 2) / 12) ((b + 2) / 12)); [|done]. simpl.
    apply Z.ltb_ge. lia.
Qed.

Lemma march_month_bounds doy :
  0 <= doy <= 365 ->
  0 <= (5 * doy + 2) / 153 <= 11 /\
  first_doy ((5 * doy + 2) / 153) <= doy < first_doy ((5 * doy + 2) / 153 + 1).
Proof. unfold first_doy. intros. split; Z.div_mod_to_equations; lia. Qed.

Lemma year_of_era_bounds doe :
  0 <= doe < 146097 ->
  let y := year_of_era doe in
  0 <= y <= 399 /\
  365 * y + y / 4 - y / 100 <= doe
    < 365 * (y + 1) + (y + 1) / 4 - (y + 1) / 100 + (y + 1) / 400.
Proof. unfold year_of_era. intros. split; Z.div_mod_to_equations; lia. Qed.

Lemma year_start_step y : year_start y + 365 <= year_start (y + 1) <= year_start y + 366.
Proof. unfold year_start. Z.div_mod_to_equations; lia. Qed.

Lemma first_day_step i : first_day i < first_day (i + 1) <= first_day i + 31.
Proof.
  unfold first_day. pose proof (Z.mod_pos_bound i 12 ltac:(lia)).
  pose proof (year_start_step (i / 12)).
  destruct (decide (i mod 12 = 11)) as [Hm|Hm].
  - replace ((i + 1) / 12) with (i / 12 + 1) by (Z.div_mod_to_equations; lia).
    replace ((i + 1) mod 12) with 0 by (Z.div_mod_to_equations; lia).
    rewrite Hm. change (first_doy 11) with 337. change (first_doy 0) with 0. lia.
  - replace ((i + 1) / 12) with (i / 12) by (Z.div_mod_to_equations; lia).
    replace ((i + 1) mod 12) with (i mod 12 + 1) by (Z.div_mod_to_equations; lia).
    unfold first_doy. Z.div_mod_to_equations; lia.
Qed.

Lemma first_day_mono i j : i <= j -> first_day i <= first_day j.
Proof.
  intros. replace j with (i + Z.of_nat (Z.to_nat (j - i))) by lia.
  induction (Z.to_nat (j - i)) as [|n IH]; [by rewrite Z.add_0_r|].
  pose proof (first_day_step (i + Z.of_nat n)). rewrite Nat2Z.inj_succ.
  replace (i + Z.succ (Z.of_nat n)) with (i + Z.of_nat n + 1) by lia. lia.
Qed.

Lemma month_index_bounds d : first_day (month_index d) <= d < first_day (month_index d + 1).
Proof.
  set (era := (d + 719468) / 146097). set (doe := era_day d).
  assert (0 <= doe < 146097) as Hdoe by (apply Z.mod_pos_bound; lia).
  assert (d + 719468 = 146097 * era + doe) as Hd by (apply Z.div_mod; lia).
  pose proof (year_of_era_bounds doe Hdoe) as Hy. simpl in Hy.
  set (y := year_of_era doe) in *. destruct Hy as [Hy0 Hy].
  set (doy := day_of_year doe).
  assert (doy = doe - (365 * y + y / 4 - y / 100)) as Hdoy by done.
  assert (0 <= doy <= 365) as Hdoyr by (Z.div_mod_to_equations; lia).
  pose proof (march_month_bounds doy Hdoyr) as [Hm0 Hm].
  set (mp := (5 * doy + 2) / 153) in *.
  assert (month_index d = 12 * (400 * era + y) + mp) as Hi
    by (unfold month_index; fold era doe; unfold march_month; fold doy mp y; lia).
  assert (year_start (400 * era + y) + 719468 + doy = d + 719468) as Hys.
  { unfold year_start. replace ((400 * era + y) / 400) with era by (Z.div_mod_to_equations; lia).
    replace ((400 * era + y) mod 400) with y by (Z.div_mod_to_equations; lia). lia. }
  unfold first_day. rewrite Hi.
  replace ((12 * (400 * era + y) + mp) / 12) with (400 * era + y)
    by (Z.div_mod_to_equations; lia).
  replace ((12 * (400 * era + y) + mp) mod 12) with mp by (Z.div_mod_to_equations; lia).
  split; [lia|].
  destruct (decide (mp = 11)) as [Hmp|Hmp].
  - replace ((12 * (400 * era + y) + mp + 1) / 12) with (400 * era + y + 1)
      by (Z.div_mod_to_equations; lia).
    replace ((12 * (400 * era + y) + mp + 1) mod 12) with 0 by (Z.div_mod_to_equations; lia).
    change (first_doy 0) with 0. unfold year_start.
    clear - Hd Hy Hy0 Hdoe. Z.div_mod_to_equations; lia.
  - replace ((12 * (400 * era + y) + mp + 1) / 12) with (400 * era + y)
      by (Z.div_mod_to_equations; lia).
    replace ((12 * (400 * era + y) + mp + 1) mod 12) with (mp + 1)
      by (Z.div_mod_to_equations; lia). lia.
Qed.

Lemma month_index_mono d e : d <= e -> month_index d <= month_index e.
Proof.
  intros. pose proof (month_index_bounds d). pose proof (month_index_bounds e).
  destruct (Z.le_gt_cases (month_index d) (month_index e)); [done|].
  pose proof (first_day_mono (month_index e + 1) (month_index d) ltac:(lia)). lia.
Qed.

Lemma month_index_31 d e : d + 31 <= e -> month_index d < month_index e.
Proof.
  intros. pose proof (month_index_bounds d). pose proof (month_index_bounds e).
  pose proof (first_day_step (month_index d)).
  destruct (Z.lt_ge_cases (month_index d) (month_index e)); [done|].
  pose proof (first_day_mono (month_index e + 1) (month_index d + 1) ltac:(lia)). lia.
Qed.

#[export] Instance gregorian_laws : CalendarLaws gregorian.
Proof.
  split; unfold key_le; simpl; intros.
  - pose proof (Z.mod_pos_bound (month_index (local_days t) + 2) 12 ltac:(lia)). lia.
  - rewrite key_lt_index. apply negb_true_iff, Z.ltb_ge, month_index_mono.
    unfold local_days. apply Z.div_le_mono; [done|]. lia.
  - rewrite key_lt_index. apply Z.ltb_lt, month_index_31. unfold local_days.
    replace (offset t) with 0 by done. replace (offset u) with 0 by done.
    unfold NANOS_PER_DAY in *. Z.div_mod_to_equations; lia.
Qed.

(** ** Ordering lemmas *)

Lemma key_lt_spec a b : key_lt a b = true <-> a.1 < b.1 \/ (a.1 = b.1 /\ a.2 < b.2).
Proof.
  unfold key_lt. rewrite orb_true_iff, andb_true_iff, !Z.ltb_lt, Z.eqb_eq. done.
Qed.

Lemma key_lt_false a b : key_lt a b = false <-> b.1 < a.1 \/ (a.1 = b.1 /\ b.2 <= a.2).
Proof. rewrite <- not_true_iff_false, key_lt_spec. lia. Qed.

Lemma key_le_spec a b : key_le a b = true <-> a.1 < b.1 \/ (a.1 = b.1 /\ a.2 <= b.2).
Proof. unfold key_le. rewrite negb_true_iff, key_lt_false. lia. Qed.

Lemma key_le_false a b : key_le a b = false <-> b.1 < a.1 \/ (a.1 = b.1 /\ b.2 < a.2).
Proof. rewrite <- not_true_iff_false, key_le_spec. lia. Qed.

(** Decides goals about the order of calendar months. *)
Ltac keys :=
  rewrite ?key_lt_spec, ?key_le_spec, ?key_lt_false, ?key_le_false in *; simpl in *; lia.

Lemma key_eq (a b : Z * Z) : a.1 = b.1 -> a.2 = b.2 -> a = b.
Proof. destruct a, b; simpl; congruence. Qed.

Lemma time_max_ge_l t u : instant t <= instant (time_max t u).
Proof. unfold time_max, time_lt. destruct (Z.ltb_spec (instant u) (instant t)); lia. Qed.

Lemma time_max_ge_r t u : instant u <= instant (time_max t u).
Proof. unfold time_max, time_lt. destruct (Z.ltb_spec (instant u) (instant t)); lia. Qed.

Lemma time_max_offset t u : offset t = 0 -> offset u = 0 -> offset (time_max t u) = 0.
Proof. unfold time_max. by case_match. Qed.
