(* ===== verification/ProtoTypes.v ===== *)
(** * Values shared by every message of the control protocol

    [src/crates/control-protocol/src/validation.rs], [id.rs], [crypto.rs] and
    [idempotency.rs]: validation errors, typed identifiers, monotonic numbers,
    timestamps, digests, keys and nonces, with the conversions from text that
    reject anything but the canonical form.

    The crates they rest on are parameters, one class each with the laws the
    code relies on: [uuid] ([UuidText]), [time]'s RFC 3339 format ([Rfc3339]),
    [base64]'s unpadded URL-safe engine ([Base64]), [sha2] ([Sha256]) and
    [ed25519_dalek] ([Ed25519]). *)
From S2P Require Import Prelude Text Clock.

(** ** Validation errors *)

Inductive ValidationCode : Type :=
| MissingField | OutOfRange | InvalidFormat | UnsupportedSchema | IdentityMismatch
| StaleState | InconsistentState | DuplicateIdentity | SequenceGap | InvalidTransition.
#[export] Instance ValidationCode_eq_dec : EqDecision ValidationCode.
Proof. solve_decision. Defined.

Record ProtocolValidationError : Type := mkValidation {
  validation_code : ValidationCode;
  validation_field : string;
  validation_message : string;
}.
Abbreviation valid_result := (result ProtocolValidationError).

(** [return Err(ProtocolValidationError::new(..))] *)
Definition invalid {A} (c : ValidationCode) (field message : string) : valid_result A :=
  Err (mkValidation c field message).

(** ** The crates *)

(** A UUID is its sixteen bytes. *)
Record Uuid : Type := mkUuid { uuid_bytes : list byte }.
#[export] Instance Uuid_eq_dec : EqDecision Uuid.
Proof. solve_decision. Defined.
#[export] Instance byte_countable : Countable byte.
Proof.
  apply (inj_countable' (fun b => Byte.to_N b)
    (fun n => match Byte.of_N n with Some b => b | None => x00 end)).
  intros b. by rewrite Byte.of_to_N.
Defined.
#[export] Instance Uuid_countable : Countable Uuid :=
  inj_countable' uuid_bytes mkUuid ltac:(by intros []).
Definition is_uuid (u : Uuid) : Prop := zlen (uuid_bytes u) = 16.

(** [Uuid]'s [Display] (the lowercase hyphenated form) and [Uuid::parse_str] *)
Class UuidText : Type := {
  uuid_to_string : Uuid -> string;
  uuid_parse_str : string -> option Uuid;
}.
Class UuidTextLaws (U : UuidText) : Prop := {
  uuid_parse_display u : is_uuid u -> uuid_parse_str (uuid_to_string u) = Some u;
  uuid_parse_16 s u : uuid_parse_str s = Some u -> is_uuid u;
  uuid_text_length u : is_uuid u -> str_len (uuid_to_string u) = 36;
}.

(** [OffsetDateTime::format] and [parse] with the RFC 3339 description, which
    covers the years 0 to 9999 *)
Class Rfc3339 : Type := {
  rfc3339_format : OffsetDateTime -> string;
  rfc3339_parse : string -> option OffsetDateTime;
}.
Definition FIRST_RFC3339 : Z := -62167219200 * 1000000000.
Definition LAST_RFC3339 : Z := 253402300800 * 1000000000.
Definition is_timestamp (t : OffsetDateTime) : Prop :=
  offset t = 0 /\ FIRST_RFC3339 <= instant t < LAST_RFC3339.
Class Rfc3339Laws (R : Rfc3339) : Prop := {
  rfc3339_parse_format t : is_timestamp t -> rfc3339_parse (rfc3339_format t) = Some t;
  rfc3339_utc_suffix t : is_timestamp t -> ends_with (as_bytes "Z") (as_bytes (rfc3339_format t)) = true;
  rfc3339_length t : is_timestamp t -> str_len (rfc3339_format t) <= 64;
  rfc3339_parse_range s t : rfc3339_parse s = Some t -> offset t = 0 -> is_timestamp t;
}.

(** [URL_SAFE_NO_PAD], with the alphabet of RFC 4648 section 5 *)
Definition base64url_byte (b : byte) : bool :=
  is_ascii_alphanumeric b || bool_decide (b ∈ ["-"; "_"]%byte).
Class Base64 : Type := {
  base64_encode : list byte -> string;
  base64_decode : string -> option (list byte);
}.
Class Base64Laws (B : Base64) : Prop := {
  base64_decode_encode l : base64_decode (base64_encode l) = Some l;
  base64_alphabet l : forallb base64url_byte (as_bytes (base64_encode l)) = true;
  base64_length l : str_len (base64_encode l) = (4 * zlen l + 2) / 3;
}.

(** [Sha256::digest] *)
Class Sha256 : Type := { sha256 : list byte -> list byte }.
Class Sha256Laws (S : Sha256) : Prop := { sha256_length l : zlen (sha256 l) = 32 }.

(** [VerifyingKey::from_bytes], whether it accepts the key, and [verify] *)
Class Ed25519 : Type := {
  verifying_key : list byte -> bool;
  ed25519_verify : list byte -> list byte -> list byte -> bool;
}.

(** ** Typed identifiers *)

(** The identifiers of [typed_id!] differ only in their type name. *)
Abbreviation NetworkId := Uuid (only parsing).
Abbreviation NodeId := Uuid (only parsing).
Abbreviation UserId := Uuid (only parsing).
Abbreviation CredentialId := Uuid (only parsing).
Abbreviation NodeKeyId := Uuid (only parsing).
Abbreviation ControllerInstanceId := Uuid (only parsing).
Abbreviation SigningKeyId := Uuid (only parsing).
Abbreviation EndpointId := Uuid (only parsing).
Abbreviation RelayId := Uuid (only parsing).
Abbreviation RelayRouteId := Uuid (only parsing).
Abbreviation RelayGrantId := Uuid (only parsing).

Inductive InvalidId : Type := invalid_id.

(** [FromStr for $name] *)
Definition id_from_str `{UuidText} (value : string) : result InvalidId Uuid :=
  parsed ← ok_or (uuid_parse_str value) invalid_id;
  _ ← ensure (bool_decide (uuid_to_string parsed = value)) invalid_id;
  Ok parsed.

(** ** Monotonic numbers *)

Definition i64_max : Z := 9223372036854775807.
Definition i64_min : Z := -9223372036854775808.
Definition is_i64 (z : Z) : Prop := i64_min <= z <= i64_max.

Inductive InvalidNumber : Type := InvalidPositiveNumber | InvalidNonNegativeNumber.

(** [Revision::new], [BundleGeneration::new], [RelayGeneration::new] *)
Definition positive_new (value : Z) : result InvalidNumber Z :=
  if 0 <? value then Ok value else Err InvalidPositiveNumber.
(** [SequenceNumber::new], [Count::new] *)
Definition non_negative_new (value : Z) : result InvalidNumber Z :=
  if 0 <=? value then Ok value else Err InvalidNonNegativeNumber.
(** [SequenceNumber::checked_next] *)
Definition checked_next (value : Z) : option Z := checked_add i64_max value 1.

(** ** Timestamps *)

Inductive InvalidTimestamp : Type := invalid_timestamp.

(** [Timestamp::from_datetime] *)
Definition timestamp_from_datetime (t : OffsetDateTime) : OffsetDateTime := utc t.

(** [FromStr for Timestamp] *)
Definition timestamp_from_str `{Rfc3339} (value : string) : result InvalidTimestamp OffsetDateTime :=
  parsed ← ok_or (rfc3339_parse value) invalid_timestamp;
  _ ← ensure ((offset parsed =? 0) && ends_with (as_bytes "Z") (as_bytes value)) invalid_timestamp;
  Ok parsed.

(** ** Encoded cryptographic values *)

Inductive InvalidEncodedValue : Type := invalid_encoded (message : string).

(** [decode_exact] of crypto.rs *)
Definition decode_exact_value `{Base64} (value : string) (expected_length : Z)
    : result InvalidEncodedValue unit :=
  _ ← ensure (negb (contains_byte "="%byte (as_bytes value)))
        (invalid_encoded "expected unpadded base64url without whitespace");
  decoded ← ok_or (base64_decode value)
              (invalid_encoded "expected unpadded base64url without whitespace");
  ensure (zlen decoded =? expected_length) (invalid_encoded "encoded value has an invalid length").

(** [FromStr] of [Ed25519PublicKey], [X25519PublicKey] (32) and
    [Ed25519Signature] (64): the newtype keeps the text. *)
Definition fixed_base64url `{Base64} (length : Z) (value : string)
    : result InvalidEncodedValue string :=
  _ ← decode_exact_value value length; Ok value.

(** [FromStr for Nonce] *)
Definition nonce_from_str `{Base64} (value : string) : result InvalidEncodedValue string :=
  _ ← ensure (negb (contains_byte "="%byte (as_bytes value)))
        (invalid_encoded "expected unpadded base64url without whitespace");
  decoded ← ok_or (base64_decode value)
              (invalid_encoded "expected unpadded base64url without whitespace");
  _ ← ensure ((16 <=? zlen decoded) && (zlen decoded <=? 64))
        (invalid_encoded "nonce must contain between 16 and 64 bytes");
  Ok value.

(** [bytes[i] = (bytes[i] & mask) | bits] *)
Definition set_bits (i : nat) (mask bits : Z) (l : list byte) : list byte :=
  alter (fun b => byte_of_Z (Z.lor (Z.land (byte_to_Z b) mask) bits)) i l.

(** [ed25519_signing_key_id] *)
Definition ed25519_signing_key_id `{Base64} `{Sha256} (public_key : string)
    : result InvalidEncodedValue SigningKeyId :=
  public_bytes ← ok_or (base64_decode public_key)
                   (invalid_encoded "stored Ed25519 public key is invalid");
  _ ← ensure (zlen public_bytes =? 32)
        (invalid_encoded "stored Ed25519 public key has an invalid length");
  let bytes := take 16 (sha256 public_bytes) in
  Ok (mkUuid (set_bits 8 0x3f 0x80 (set_bits 6 0x0f 0x50 bytes))).

(** [Sha256Digest::from_bytes] *)
Definition hex_pair (b : byte) : list byte :=
  [hex_digit (Z.shiftr (byte_to_Z b) 4); hex_digit (Z.land (byte_to_Z b) 0x0f)].
Definition digest_from_bytes (value : list byte) : string :=
  str_of_bytes (as_bytes "sha256:" ++ concat (hex_pair <$> value)).

(** [FromStr for Sha256Digest] *)
Definition digest_from_str (value : string) : result InvalidEncodedValue string :=
  hex ← ok_or (strip_prefix (as_bytes "sha256:") (as_bytes value))
          (invalid_encoded "expected a sha256: digest");
  _ ← ensure ((zlen hex =? 64) && forallb is_lower_hex hex)
        (invalid_encoded "SHA-256 digest must use 64 lowercase hexadecimal characters");
  Ok value.

(** ** Idempotency keys *)

Definition MAX_IDEMPOTENCY_KEY_BYTES : Z := 128.
Definition is_ascii_graphic (b : byte) : bool := in_bounds 33 126 b.

(** [FromStr for IdempotencyKey] *)
Definition idempotency_key_from_str (value : string) : valid_result string :=
  if bool_decide (value = EmptyString) then
    invalid MissingField "Idempotency-Key" "idempotency key is required"
  else if (MAX_IDEMPOTENCY_KEY_BYTES <? str_len value)
          || negb (forallb is_ascii_graphic (as_bytes value)) then
    invalid InvalidFormat "Idempotency-Key"
      "idempotency key must contain 1 to 128 visible ASCII bytes"
  else Ok value.

(** ** Lemmas *)

Lemma invalid_not_Ok {A} c f m (a : A) : invalid c f m = Ok a -> False.
Proof. done. Qed.

Lemma uuid_to_string_inj `{UuidTextLaws} u v :
  is_uuid u -> is_uuid v -> uuid_to_string u = uuid_to_string v -> u = v.
Proof.
  intros Hu Hv E. apply (f_equal uuid_parse_str) in E.
  rewrite !uuid_parse_display in E by done. congruence.
Qed.

Lemma rfc3339_format_inj `{Rfc3339Laws} t u :
  is_timestamp t -> is_timestamp u -> rfc3339_format t = rfc3339_format u -> t = u.
Proof.
  intros Ht Hu E. apply (f_equal rfc3339_parse) in E.
  rewrite !rfc3339_parse_format in E by done. congruence.
Qed.

Lemma base64_not_in `{Base64Laws} (P : byte -> bool) l :
  (forall b, base64url_byte b = true -> P b = false) -> existsb P (as_bytes (base64_encode l)) = false.
Proof.
  intros HP. apply not_true_is_false. intros (b & Hb & Hp)%existsb_exists.
  pose proof (base64_alphabet l) as Ha. rewrite forallb_forall in Ha. rewrite HP in Hp by auto. done.
Qed.
Lemma base64_no_padding `{Base64Laws} l : contains_byte "="%byte (as_bytes (base64_encode l)) = false.
Proof.
  apply bool_decide_eq_false_2. intros Hin. pose proof (base64_alphabet l) as Ha.
  rewrite forallb_forall in Ha. by apply list_elem_of_In, Ha in Hin.
Qed.

Lemma as_bytes_inj s t : as_bytes s = as_bytes t -> s = t.
Proof. intros H. by rewrite <- (str_of_as_bytes s), <- (str_of_as_bytes t), H. Qed.

Lemma zlen_set_bits i mask bits l : zlen (set_bits i mask bits l) = zlen l.
Proof. unfold zlen, set_bits. by rewrite length_alter. Qed.

Lemma signing_key_id_is_uuid `{Base64} `{Sha256Laws} k u :
  ed25519_signing_key_id k = Ok u -> is_uuid u.
Proof.
  unfold ed25519_signing_key_id. intros Hk. inv_ok.
  unfold is_uuid; simpl. rewrite !zlen_set_bits. unfold zlen. rewrite length_take.
  pose proof (sha256_length x) as Hl. unfold zlen in Hl. lia.
Qed.

(** The sixteen nibbles: [hex_digit] writes what [to_digit] reads. *)
Lemma nibble_cases d (P : Z -> Prop) :
  Forall P [0; 1; 2; 3; 4; 5; 6; 7; 8; 9; 10; 11; 12; 13; 14; 15] -> 0 <= d < 16 -> P d.
Proof.
  intros HP Hd. rewrite !Forall_cons in HP. destruct HP as (?&?&?&?&?&?&?&?&?&?&?&?&?&?&?&?&_).
  assert (d = 0 \/ d = 1 \/ d = 2 \/ d = 3 \/ d = 4 \/ d = 5 \/ d = 6 \/ d = 7 \/ d = 8
    \/ d = 9 \/ d = 10 \/ d = 11 \/ d = 12 \/ d = 13 \/ d = 14 \/ d = 15) as Hc by lia.
  repeat (destruct Hc as [->|Hc]; [done|]). by subst.
Qed.

Lemma to_digit_hex_digit d : 0 <= d < 16 -> to_digit 16 (hex_digit d) = Some d.
Proof. apply (nibble_cases d (fun d => to_digit 16 (hex_digit d) = Some d)). repeat constructor. Qed.

Lemma is_lower_hex_digit d : 0 <= d < 16 -> is_lower_hex (hex_digit d) = true.
Proof. apply (nibble_cases d (fun d => is_lower_hex (hex_digit d) = true)). repeat constructor. Qed.

Lemma byte_nibbles b :
  0 <= Z.shiftr (byte_to_Z b) 4 < 16 /\ 0 <= Z.land (byte_to_Z b) 0x0f < 16 /\
  byte_to_Z b = Z.shiftr (byte_to_Z b) 4 * 16 + Z.land (byte_to_Z b) 0x0f.
Proof.
  pose proof (byte_to_Z_range b). rewrite Z.shiftr_div_pow2 by lia.
  change 0x0f with (Z.ones 4). rewrite Z.land_ones by lia. change (2 ^ 4) with 16.
  Z.div_mod_to_equations. lia.
Qed.

Lemma hex_pair_inj a b : hex_pair a = hex_pair b -> a = b.
Proof.
  unfold hex_pair. intros [= H1 H2].
  destruct (byte_nibbles a) as (Ha1 & Ha2 & Ea), (byte_nibbles b) as (Hb1 & Hb2 & Eb).
  apply (f_equal (to_digit 16)) in H1, H2. rewrite !to_digit_hex_digit in H1, H2 by done.
  injection H1 as H1. injection H2 as H2. apply byte_to_Z_inj. lia.
Qed.

Lemma digest_from_bytes_inj l k : digest_from_bytes l = digest_from_bytes k -> l = k.
Proof.
  unfold digest_from_bytes. intros H. apply (f_equal as_bytes) in H.
  rewrite !as_bytes_of_str in H. apply (inj (app _)) in H. revert k H.
  induction l as [|b l IH]; intros [|c k]; [done|done|done|]. rewrite !fmap_cons.
  cbn [concat]. intros H. apply app_inj_1 in H as [H1 H2]; [|done].
  apply hex_pair_inj in H1. f_equal; eauto.
Qed.

Lemma length_hex_pairs l : zlen (concat (hex_pair <$> l)) = 2 * zlen l.
Proof.
  unfold zlen. induction l as [|b l IH]; [done|].
  rewrite fmap_cons. cbn [concat]. rewrite length_app. cbn [hex_pair length]. lia.
Qed.

Lemma hex_pairs_lower l : forallb is_lower_hex (concat (hex_pair <$> l)) = true.
Proof.
  induction l as [|b l IH]; [done|]. destruct (byte_nibbles b) as (H1 & H2 & _).
  rewrite fmap_cons. cbn [concat hex_pair app forallb].
  by rewrite IH, !is_lower_hex_digit.
Qed.
