(* ===== verification/ProtoInstances.v ===== *)
(** * Concrete instances of the crates' classes

    Computable functions that satisfy the laws the protocol code assumes of
    [uuid], [time], [base64] and [sha2]. The theorems are proved for every
    instance of the classes; these show that the laws can hold and let the
    examples evaluate. The hyphenated UUID form and unpadded base64url are the
    real formats; timestamps, digests and signatures are stand-ins. *)
From S2P Require Import Prelude Text Clock ProtoTypes.

(** ** Hexadecimal *)

Definition hex_encode (l : list byte) : list byte := concat (hex_pair <$> l).
Fixpoint hex_decode (l : list byte) : option (list byte) :=
  match l with
  | [] => Some []
  | a :: b :: l' =>
      x ← to_digit 16 a; y ← to_digit 16 b; r ← hex_decode l';
      Some (byte_of_Z (x * 16 + y) :: r)
  | [_] => None
  end.

(** ** UUIDs: the lowercase hyphenated form *)

Definition hyphenated (l : list byte) : list byte :=
  hex_encode (take 4 l) ++ "-"%byte :: hex_encode (take 2 (drop 4 l)) ++
  "-"%byte :: hex_encode (take 2 (drop 6 l)) ++ "-"%byte :: hex_encode (take 2 (drop 8 l)) ++
  "-"%byte :: hex_encode (drop 10 l).
Definition hyphenated_parse (s : string) : option Uuid :=
  bytes ← hex_decode (filter (fun b => b <> "-"%byte) (as_bytes s));
  if zlen bytes =? 16 then Some (mkUuid bytes) else None.
#[export] Instance hyphenated_uuid : UuidText := {
  uuid_to_string u := str_of_bytes (hyphenated (uuid_bytes u));
  uuid_parse_str := hyphenated_parse;
}.

(** ** Timestamps: nanoseconds from the first representable instant *)

Definition counter_format (t : OffsetDateTime) : string :=
  str_of_bytes (hex_encode (be_bytes 16 (instant t - FIRST_RFC3339)) ++ ["Z"%byte]).
Definition counter_parse (s : string) : option OffsetDateTime :=
  bytes ← hex_decode (take 32 (as_bytes s));
  if be_value bytes <? LAST_RFC3339 - FIRST_RFC3339
  then Some (mkTime (be_value bytes + FIRST_RFC3339) 0) else None.
#[export] Instance counter_rfc3339 : Rfc3339 := {
  rfc3339_format := counter_format;
  rfc3339_parse := counter_parse;
}.

(** ** Binary values *)

(** The alphabet of base64url, RFC 4648 section 5 *)
Definition sextet_char (d : Z) : byte :=
  byte_of_Z (if d <? 26 then 65 + d else if d <? 52 then 71 + d else if d <? 62 then d - 4
             else if d =? 62 then 45 else 95).
Definition sextet_value (b : byte) : option Z :=
  let z := byte_to_Z b in
  if in_bounds 65 90 b then Some (z - 65) else if in_bounds 97 122 b then Some (z - 71)
  else if in_bounds 48 57 b then Some (z + 4) else if z =? 45 then Some 62
  else if z =? 95 then Some 63 else None.
Fixpoint encode_sextets (l : list Z) : list Z :=
  match l with
  | a :: b :: c :: l' =>
      a / 4 :: a mod 4 * 16 + b / 16 :: b mod 16 * 4 + c / 64 :: c mod 64 :: encode_sextets l'
  | [a; b] => [a / 4; a mod 4 * 16 + b / 16; b mod 16 * 4]
  | [a] => [a / 4; a mod 4 * 16]
  | [] => []
  end.
(** Bits left over at the end must be zero, as in the crate's default. *)
Fixpoint decode_sextets (l : list Z) : option (list Z) :=
  match l with
  | w :: x :: y :: z :: l' =>
      r ← decode_sextets l';
      Some (w * 4 + x / 16 :: x mod 16 * 16 + y / 4 :: y mod 4 * 64 + z :: r)
  | [w; x; y] => if y mod 4 =? 0 then Some [w * 4 + x / 16; x mod 16 * 16 + y / 4] else None
  | [w; x] => if x mod 16 =? 0 then Some [w * 4 + x / 16] else None
  | [_] => None
  | [] => Some []
  end.
Definition base64url_decode (s : string) : option (list byte) :=
  ds ← mapM (M := option) sextet_value (as_bytes s);
  zs ← decode_sextets ds;
  Some (map byte_of_Z zs).
#[export] Instance base64url : Base64 := {
  base64_encode l := str_of_bytes (sextet_char <$> encode_sextets (byte_to_Z <$> l));
  base64_decode := base64url_decode;
}.
Definition byte_sum (l : list byte) : Z := foldr (fun b acc => byte_to_Z b + acc) 0 l.
#[export] Instance sum_sha256 : Sha256 := { sha256 l := be_bytes 32 (byte_sum l) }.
#[export] Instance sum_ed25519 : Ed25519 := {
  verifying_key _ := true;
  ed25519_verify _ message signature := bool_decide (signature = be_bytes 64 (byte_sum message));
}.

(** ** Laws *)

Lemma hex_decode_encode l : hex_decode (hex_encode l) = Some l.
Proof.
  induction l as [|b l IH]; [done|]. unfold hex_encode in *. rewrite fmap_cons.
  cbn [concat hex_pair app hex_decode]. destruct (byte_nibbles b) as (H1 & H2 & E).
  rewrite !to_digit_hex_digit by done. cbn [mbind option_bind]. rewrite IH.
  cbn [mbind option_bind]. by rewrite <- E, byte_of_to_Z.
Qed.

Lemma hex_encode_Forall (P : byte -> Prop) l :
  (forall b, is_lower_hex b = true -> P b) -> Forall P (hex_encode l).
Proof.
  intros HP. apply Forall_forall. intros b Hb. apply HP.
  pose proof (hex_pairs_lower l) as Hl. rewrite forallb_forall in Hl.
  apply Hl. by apply list_elem_of_In.
Qed.

Lemma hex_not_byte c l : is_lower_hex c = false -> Forall (fun b => b <> c) (hex_encode l).
Proof. intros Hc. apply hex_encode_Forall. intros b Hb ->. congruence. Qed.

Lemma zlen_hex_encode l : zlen (hex_encode l) = 2 * zlen l.
Proof. apply length_hex_pairs. Qed.

Lemma filter_hex l : filter (fun b => b <> "-"%byte) (hex_encode l) = hex_encode l.
Proof.
  pose proof (hex_not_byte "-"%byte l eq_refl) as H.
  induction H as [|b k Hb _ IH]; [done|]. by rewrite filter_cons_True, IH.
Qed.

Lemma filter_hyphenated l :
  filter (fun b => b <> "-"%byte) (hyphenated l) = hex_encode l.
Proof.
  assert (forall l k, filter (fun b => b <> "-"%byte) ("-"%byte :: hex_encode l ++ k)
    = hex_encode l ++ filter (fun b => b <> "-"%byte) k) as Hstep.
  { intros l' k. rewrite filter_cons_False by (intros Hc; by apply Hc).
    by rewrite filter_app, filter_hex. }
  unfold hyphenated. rewrite filter_app, filter_hex, !Hstep.
  rewrite filter_cons_False by (intros Hc; by apply Hc). rewrite filter_hex.
  unfold hex_encode. rewrite <- !concat_app, <- !fmap_app. do 2 f_equal.
  rewrite !app_assoc, (take_take_drop l 4 2). cbn [Nat.add].
  rewrite (take_take_drop l 6 2). cbn [Nat.add].
  rewrite (take_take_drop l 8 2). cbn [Nat.add]. apply (take_drop 10).
Qed.

#[export] Instance hyphenated_laws : UuidTextLaws hyphenated_uuid.
Proof.
  split.
  - intros [l] Hl. cbn [uuid_to_string uuid_parse_str hyphenated_uuid uuid_bytes].
    unfold hyphenated_parse. rewrite as_bytes_of_str, filter_hyphenated, hex_decode_encode. cbn.
    unfold is_uuid in Hl. cbn in Hl. by rewrite Hl.
  - intros s u. cbn. unfold hyphenated_parse. destruct (hex_decode _); [|done]. cbn.
    case_match; [|done]. intros. simplify_eq. unfold is_uuid. cbn. lia.
  - intros [l] Hl. unfold is_uuid in Hl. cbn [uuid_bytes] in Hl.
    cbn [uuid_to_string hyphenated_uuid uuid_bytes]. unfold str_len, hyphenated.
    rewrite as_bytes_of_str. unfold zlen in *.
    repeat rewrite ?length_app, ?length_cons.
    pose proof (zlen_hex_encode (take 4 l)). pose proof (zlen_hex_encode (take 2 (drop 4 l))).
    pose proof (zlen_hex_encode (take 2 (drop 6 l))). pose proof (zlen_hex_encode (take 2 (drop 8 l))).
    pose proof (zlen_hex_encode (drop 10 l)). unfold zlen in *.
    rewrite ?length_take, ?length_drop in *. lia.
Qed.

#[export] Instance counter_laws : Rfc3339Laws counter_rfc3339.
Proof.
  assert (forall z, zlen (hex_encode (be_bytes 16 z)) = 32) as Hz
    by (intros z; by rewrite zlen_hex_encode, zlen_be_bytes).
  split; [intros [i o] [Ho Hi]; cbn in *; unfold counter_format, counter_parse..|].
  - rewrite as_bytes_of_str, take_app_length'
      by (specialize (Hz (i - FIRST_RFC3339)); unfold zlen in Hz; simpl; lia).
    rewrite hex_decode_encode. cbn. rewrite be_value_be_bytes, Z.mod_small.
    + rewrite (proj2 (Z.ltb_lt _ _)) by lia. do 2 f_equal; lia.
    + change (256 ^ Z.of_nat 16) with 340282366920938463463374607431768211456.
      unfold FIRST_RFC3339, LAST_RFC3339 in *. lia.
  - rewrite as_bytes_of_str. unfold ends_with. rewrite rev_app_distr. done.
  - unfold str_len. rewrite as_bytes_of_str, zlen_app, Hz. done.
  - intros s t. cbn. unfold counter_parse. destruct (hex_decode _) as [l|]; [|done]. cbn.
    destruct (Z.ltb_spec (be_value l) (LAST_RFC3339 - FIRST_RFC3339)); [|done].
    intros [= <-] _. pose proof (be_value_range l). split; cbn; lia.
Qed.

(** *** base64url *)

(** Three bytes at a time, with the remainders of one and two *)
Lemma triples_ind (P : list Z -> Prop) :
  P [] -> (forall a, P [a]) -> (forall a b, P [a; b]) ->
  (forall a b c l, P l -> P (a :: b :: c :: l)) -> forall l, P l.
Proof.
  intros H0 H1 H2 H3. fix IH 1. intros [|a [|b [|c l]]]; [done|apply H1|apply H2|apply H3, IH].
Qed.

Definition is_octet (z : Z) : Prop := 0 <= z < 256.
Definition is_sextet (z : Z) : Prop := 0 <= z < 64.

Lemma encode_sextets_range l : Forall is_octet l -> Forall is_sextet (encode_sextets l).
Proof.
  induction l using triples_ind; intros Hl; repeat (apply Forall_cons in Hl as [? Hl]); cbn;
    repeat constructor; unfold is_octet, is_sextet in *; auto;
    Z.div_mod_to_equations; lia.
Qed.

Lemma decode_encode_sextets l : Forall is_octet l -> decode_sextets (encode_sextets l) = Some l.
Proof.
  induction l as [|a|a b|a b c l IH] using triples_ind; intros Hl;
    repeat (apply Forall_cons in Hl as [? Hl]); unfold is_octet in *; [done| | |].
  - cbn [encode_sextets decode_sextets]. rewrite (proj2 (Z.eqb_eq _ _)); [|Z.div_mod_to_equations; lia].
    do 2 f_equal. Z.div_mod_to_equations; lia.
  - cbn [encode_sextets decode_sextets]. rewrite (proj2 (Z.eqb_eq _ _)); [|Z.div_mod_to_equations; lia].
    do 2 f_equal; [|f_equal]; Z.div_mod_to_equations; lia.
  - cbn [encode_sextets decode_sextets]. rewrite IH by done. cbn.
    repeat f_equal; Z.div_mod_to_equations; lia.
Qed.

Lemma sextet_cases (P : Z -> Prop) `{forall d, Decision (P d)} d :
  forallb (fun n => bool_decide (P (Z.of_nat n))) (seq 0 64) = true -> is_sextet d -> P d.
Proof.
  unfold is_sextet. rewrite forallb_forall. intros Hf Hd. rewrite <- (Z2Nat.id d) by lia.
  eapply bool_decide_eq_true, Hf, in_seq. lia.
Qed.

Lemma sextet_value_char d : is_sextet d -> sextet_value (sextet_char d) = Some d.
Proof. by apply (sextet_cases (fun d => sextet_value (sextet_char d) = Some d)). Qed.

Lemma sextet_char_alphabet d : is_sextet d -> base64url_byte (sextet_char d) = true.
Proof. by apply (sextet_cases (fun d => base64url_byte (sextet_char d) = true)). Qed.

Lemma length_encode_sextets l : zlen (encode_sextets l) = (4 * zlen l + 2) / 3.
Proof.
  induction l as [|a|a b|a b c l IH] using triples_ind; [done..|].
  cbn [encode_sextets]. unfold zlen in *. rewrite !length_cons. Z.div_mod_to_equations; lia.
Qed.

Lemma octets l : Forall is_octet (byte_to_Z <$> l).
Proof. apply Forall_fmap, Forall_true. intros b. apply byte_to_Z_range. Qed.

Lemma mapM_sextets l : Forall is_sextet l -> mapM sextet_value (sextet_char <$> l) = Some l.
Proof.
  intros Hl. apply mapM_Some. induction Hl; [constructor|].
  constructor; [by apply sextet_value_char|done].
Qed.

#[export] Instance base64url_laws : Base64Laws base64url.
Proof.
  split; intros l; cbn; unfold base64url_decode, str_len; rewrite as_bytes_of_str.
  - rewrite mapM_sextets by apply encode_sextets_range, octets. cbn.
    rewrite decode_encode_sextets by apply octets. cbn. f_equal.
    change (map byte_of_Z) with (fmap (M := list) byte_of_Z). rewrite <- list_fmap_compose. rewrite <- (list_fmap_id l) at 2.
    apply list_fmap_ext. intros _ b _. apply byte_of_to_Z.
  - apply forallb_forall. intros b (d & -> & Hd)%list_elem_of_In%list_elem_of_fmap.
    pose proof (encode_sextets_range _ (octets l)) as Hr. rewrite Forall_forall in Hr.
    by apply sextet_char_alphabet, Hr.
  - unfold zlen. rewrite length_fmap. pose proof (length_encode_sextets (byte_to_Z <$> l)) as E.
    unfold zlen in E. by rewrite length_fmap in E.
Qed.

#[export] Instance sum_sha256_laws : Sha256Laws sum_sha256.
Proof. split. intros l. cbn. by rewrite zlen_be_bytes. Qed.
