(* ===== verification/ProtoTranscript.v ===== *)
(** * Signed transcripts

    The [Transcript] builder that relay.rs, request_auth.rs, desired.rs and
    account_crypto.rs of [src/crates/control-protocol/src] each carry: a byte
    string of labelled fields, the label behind a two-byte and the value
    behind a four-byte length. The modules differ only in the error they
    return for a field that does not fit, the parameter [too_large] here.

    The lemmas show that such a byte string determines its fields, so that a
    signature over it covers every one of them. *)
From S2P Require Import Prelude Text Clock ProtoTypes.

Section Builder.
Context {E : Type} (too_large : E).

(** [Transcript::bytes] *)
Definition tr_bytes (t : list byte) (label : string) (value : list byte)
    : result E (list byte) :=
  label_length ← ok_or (try_from u16_max (str_len label)) too_large;
  value_length ← ok_or (try_from u32_max (zlen value)) too_large;
  Ok (t ++ be_bytes 2 label_length ++ as_bytes label ++ be_bytes 4 value_length ++ value).

(** [Transcript::text], [Transcript::number], [Transcript::count] *)
Definition tr_text (t : list byte) (label value : string) : result E (list byte) :=
  tr_bytes t label (as_bytes value).
Definition tr_number (t : list byte) (label : string) (value : Z) : result E (list byte) :=
  tr_bytes t label (be_bytes 8 value).
Definition tr_count (t : list byte) (label : string) (value : Z) : result E (list byte) :=
  value ← ok_or (try_from u32_max value) too_large;
  tr_bytes t label (be_bytes 4 value).

(** [Transcript::new] *)
Definition tr_new (domain : list byte) : result E (list byte) := tr_bytes [] "domain" domain.
End Builder.

(** ** What a transcript is: the sequence of its fields *)

Abbreviation Field := (string * list byte)%type.

Definition field_ok (f : Field) : bool :=
  (str_len f.1 <=? u16_max) && (zlen f.2 <=? u32_max).
Definition field_bytes (f : Field) : list byte :=
  be_bytes 2 (str_len f.1) ++ as_bytes f.1 ++ be_bytes 4 (zlen f.2) ++ f.2.
Definition fields_bytes (fs : list Field) : list byte := concat (field_bytes <$> fs).

(** [t] is the transcript of the fields [fs]. *)
Definition transcribes (fs : list Field) (t : list byte) : Prop :=
  Forall (fun f => field_ok f = true) fs /\ t = fields_bytes fs.

Lemma try_from_Some max z v : try_from max z = Some v <-> v = z /\ 0 <= z <= max.
Proof.
  unfold try_from. destruct (Z.leb_spec 0 z), (Z.leb_spec z max); simpl; naive_solver lia.
Qed.

Lemma field_ok_range f :
  field_ok f = true <-> 0 <= str_len f.1 <= u16_max /\ 0 <= zlen f.2 <= u32_max.
Proof.
  unfold field_ok, str_len.
  pose proof (zlen_nonneg (as_bytes f.1)). pose proof (zlen_nonneg f.2).
  rewrite andb_true_iff, !Z.leb_le. lia.
Qed.

(** Appending a field of a transcript *)
Lemma tr_bytes_Ok {E} (e : E) fs t label value t' :
  transcribes fs t -> tr_bytes e t label value = Ok t' ->
  transcribes (fs ++ [(label, value)]) t'.
Proof.
  intros [Hok ->]. unfold tr_bytes. intros H. inv_ok.
  repeat match goal with H : try_from _ _ = Some _ |- _ => apply try_from_Some in H as [-> ?] end.
  split.
  - apply Forall_app; split; [done|]. constructor; [|done]. by apply field_ok_range.
  - unfold fields_bytes. rewrite fmap_app, concat_app. simpl. by rewrite app_nil_r.
Qed.

Lemma transcribes_nil : transcribes [] [].
Proof. by split; [constructor|]. Qed.

Lemma tr_new_Ok {E} (e : E) domain t :
  tr_new e domain = Ok t -> transcribes [("domain"%string, domain)] t.
Proof. apply (tr_bytes_Ok e []), transcribes_nil. Qed.

Lemma tr_count_Ok {E} (e : E) fs t label value t' :
  transcribes fs t -> tr_count e t label value = Ok t' ->
  0 <= value <= u32_max /\ transcribes (fs ++ [(label, be_bytes 4 value)]) t'.
Proof.
  unfold tr_count. intros Ht H. inv_ok.
  match goal with H : try_from _ _ = Some _ |- _ => apply try_from_Some in H as [-> ?] end.
  split; [done|]. by eapply tr_bytes_Ok.
Qed.

(** A builder chain, turned into the fields it appends. *)
Ltac transcript :=
  unfold tr_text, tr_number in *; inv_ok;
  repeat match goal with
  | H : tr_new _ _ = Ok ?t |- _ => apply tr_new_Ok in H
  | T : transcribes ?fs ?t, H : tr_bytes _ ?t _ _ = Ok ?t' |- _ =>
      apply (tr_bytes_Ok _ _ _ _ _ _ T) in H; clear T
  | T : transcribes ?fs ?t, H : tr_count _ ?t _ _ = Ok ?t' |- _ =>
      apply (tr_count_Ok _ _ _ _ _ _ T) in H as [? H]; clear T
  end.

(** ** Unambiguity *)

#[local] Opaque be_bytes.

(** A fixed-width number in front determines itself and what follows. *)
Lemma be_prefix_inj n a b (r s : list byte) :
  0 <= a < 256 ^ Z.of_nat n -> 0 <= b < 256 ^ Z.of_nat n ->
  be_bytes n a ++ r = be_bytes n b ++ s -> a = b /\ r = s.
Proof.
  intros Ha Hb H. apply app_inj_1 in H as [H ->]; [|by rewrite !length_be_bytes].
  apply (f_equal be_value) in H. by rewrite !be_value_be_bytes, !Z.mod_small in H.
Qed.

Lemma field_bytes_inj f g r s :
  field_ok f = true -> field_ok g = true ->
  field_bytes f ++ r = field_bytes g ++ s -> f = g /\ r = s.
Proof.
  rewrite !field_ok_range. destruct f as [l v], g as [l' v']; simpl.
  intros [Hl Hv] [Hl' Hv']. unfold field_bytes; cbn [fst snd].
  rewrite <- !app_assoc. intros H.
  apply be_prefix_inj in H as [Hll H]; [|pow256; ulia|pow256; ulia].
  unfold str_len, zlen in Hll. apply Nat2Z.inj in Hll.
  apply app_inj_1 in H as [Hlab H]; [|done].
  apply be_prefix_inj in H as [Hvl H]; [|pow256; ulia|pow256; ulia].
  unfold zlen in Hvl. apply Nat2Z.inj in Hvl. apply app_inj_1 in H as [-> ->]; [|done].
  split; [|done]. f_equal. by rewrite <- (str_of_as_bytes l), <- (str_of_as_bytes l'), Hlab.
Qed.

Lemma field_bytes_not_nil f : field_bytes f <> [].
Proof.
  unfold field_bytes. intros H. apply (f_equal length) in H.
  rewrite length_app, length_be_bytes in H. simpl in H. lia.
Qed.

(** A transcript determines its fields. *)
Lemma transcribes_inj fs gs t : transcribes fs t -> transcribes gs t -> fs = gs.
Proof.
  intros [Hf ->] [Hg H]. unfold fields_bytes in H. revert gs Hg H.
  induction Hf as [|f fs Hf Hfs IH]; intros gs Hg H; destruct Hg as [|g gs Hg Hgs].
  - done.
  - rewrite fmap_cons in H. simpl in H. symmetry in H.
    apply app_eq_nil in H as [H _]. by apply field_bytes_not_nil in H.
  - rewrite fmap_cons in H. simpl in H.
    apply app_eq_nil in H as [H _]. by apply field_bytes_not_nil in H.
  - rewrite !fmap_cons in H. cbn [concat] in H.
    apply field_bytes_inj in H as [-> H]; [|done..]. f_equal. by apply IH.
Qed.

(** Fixed-width numbers inside a field *)
Lemma be_bytes_inj n a b :
  0 <= a < 256 ^ Z.of_nat n -> 0 <= b < 256 ^ Z.of_nat n -> be_bytes n a = be_bytes n b -> a = b.
Proof.
  intros Ha Hb H. apply (be_prefix_inj n a b [] []); [done|done|by rewrite H].
Qed.

(** A builder call whose field fits succeeds. *)
Lemma tr_bytes_fits {E} (e : E) t label value :
  field_ok (label, value) = true -> exists t', tr_bytes e t label value = Ok t'.
Proof.
  rewrite field_ok_range. simpl. intros [Hl Hv]. unfold tr_bytes, try_from.
  eexists. rewrite !(proj2 (Z.leb_le _ _)) by lia. reflexivity.
Qed.

(** ** Repeated groups of fields *)

(** A loop that appends the fields [g x] for each [x] *)
Lemma try_fold_fields {E A} (f : list byte -> A -> result E (list byte)) (g : A -> list Field) l fs t t' :
  (forall fs t x t', transcribes fs t -> f t x = Ok t' -> transcribes (fs ++ g x) t') ->
  transcribes fs t -> try_fold f t l = Ok t' -> transcribes (fs ++ concat (g <$> l)) t'.
Proof.
  intros Hf. revert fs t. induction l as [|x l IH]; intros fs t Ht He.
  { injection He as <-. by rewrite app_nil_r. }
  cbn [try_fold] in He. apply bind_Ok in He as (t1 & E1 & E2).
  rewrite fmap_cons. cbn [concat]. rewrite app_assoc. by eapply IH; [eapply Hf|].
Qed.

(** Groups that can be told apart from what follows them determine their list. *)
Lemma groups_inj {A} (P : A -> Prop) (g : A -> list Field) l k r s :
  (forall x y r s, P x -> P y -> g x ++ r = g y ++ s -> x = y /\ r = s) ->
  Forall P l -> Forall P k -> length l = length k ->
  concat (g <$> l) ++ r = concat (g <$> k) ++ s -> l = k /\ r = s.
Proof.
  intros Hg Hl. revert k. induction Hl as [|x l Hx Hl IH]; intros k Hk Hlen E;
    destruct Hk as [|y k Hy Hk]; [done|done|done|].
  rewrite !fmap_cons in E. cbn [concat] in E. rewrite <- !app_assoc in E.
  apply Hg in E as [-> E]; [|done..]. injection Hlen as Hlen.
  apply IH in E as [-> ->]; done.
Qed.

(** A counted list: its length is a field in front of its groups. *)
Lemma counted_length {A} (l k : list A) :
  zlen l <= u32_max -> zlen k <= u32_max -> be_bytes 4 (zlen l) = be_bytes 4 (zlen k) -> length l = length k.
Proof.
  intros Hl Hk E. pose proof (zlen_nonneg l). pose proof (zlen_nonneg k).
  apply be_bytes_inj in E; [unfold zlen in E; lia|pow256; ulia..].
Qed.

(** ** Comparing field lists *)

Lemma field_value (l : string) (a b : list byte) : (l, a) = (l, b) -> a = b.
Proof. congruence. Qed.

(** Splits an equation of field lists into equations of values. *)
Ltac split_fields E := repeat (apply (inj2 cons) in E as [?%field_value E]).

(** Two fields with one value hold the same identifier, time, number or text. *)
Ltac same_field :=
  first
    [ apply uuid_to_string_inj; [done|done|by apply as_bytes_inj]
    | apply rfc3339_format_inj; [done|done|by apply as_bytes_inj]
    | apply (be_bytes_inj 2); [pow256; ulia|pow256; ulia|done]
    | apply (be_bytes_inj 8); [pow256; unfold i64_max in *; ulia|pow256; unfold i64_max in *; ulia|done]
    | by apply counted_length
    | by apply as_bytes_inj ].
