(* ===== verification/ProtoAuth.v ===== *)
(** * Signed node requests

    [src/crates/control-protocol/src/request_auth.rs]: the five headers of a
    signed request, canonical request targets, the transcript a node signs and
    its verification. *)
From S2P Require Import Prelude Text Clock ProtoTypes ProtoTranscript ProtoInstances.

Definition REQUEST_DOMAIN : list byte := as_bytes "control/node-request/v1".
Definition MAX_REQUEST_TARGET_BYTES : Z := 8 * 1024.
Definition MIN_NONCE_ENCODED_BYTES : Z := 22.
Definition MAX_NONCE_ENCODED_BYTES : Z := 86.
Definition SIGNATURE_ENCODED_BYTES : Z := 86.

Inductive NodeRequestAuthError : Type :=
| UnsupportedMethod
| InvalidRequestTarget (reason : string)
| InvalidBodyDigest
| InvalidHeader (name : string)
| RequestFieldTooLarge
| RequestSignatureInvalid.
Abbreviation auth_result := (result NodeRequestAuthError).

(** ** Methods *)

Inductive NodeRequestMethod : Type := Get | Post | Put | Patch | Delete.

(** [NodeRequestMethod::as_str] and [from_str] *)
Definition method_as_str (m : NodeRequestMethod) : string :=
  match m with Get => "GET" | Post => "POST" | Put => "PUT" | Patch => "PATCH" | Delete => "DELETE" end.
Definition method_from_str (value : string) : auth_result NodeRequestMethod :=
  if bool_decide (value = "GET"%string) then Ok Get
  else if bool_decide (value = "POST"%string) then Ok Post
  else if bool_decide (value = "PUT"%string) then Ok Put
  else if bool_decide (value = "PATCH"%string) then Ok Patch
  else if bool_decide (value = "DELETE"%string) then Ok Delete
  else Err UnsupportedMethod.

(** ** Request targets *)

(** [is_unreserved], [is_uri_character], [decode_hex_upper] *)
Definition is_unreserved (b : byte) : bool :=
  is_ascii_alphanumeric b || bool_decide (b ∈ ["-"; "."; "_"; "~"]%byte).
Definition is_uri_character (b : byte) (query : bool) : bool :=
  is_unreserved b
  || bool_decide (b ∈ ["!"; "$"; "&"; "'"; "("; ")"; "*"; "+"; ","; ";"; "="; ":"; "@"; "/"]%byte)
  || (query && bool_decide (b = "?"%byte)).
Definition decode_hex_upper (b : byte) : Z :=
  if in_bounds 48 57 b then byte_to_Z b - 48
  else if in_bounds 65 70 b then byte_to_Z b - 65 + 10 else 0.
Definition percent_byte (a b : byte) : byte :=
  byte_of_Z (Z.lor (Z.shiftl (decode_hex_upper a) 4) (decode_hex_upper b)).
Definition is_path_separator (b : byte) : bool := bool_decide (b ∈ [x2f; x5c; x3f; x23]).

Definition target_error {A} (reason : string) : auth_result A := Err (InvalidRequestTarget reason).

(** [validate_uri_component] *)
Fixpoint validate_uri_component (query : bool) (bytes : list byte) : auth_result unit :=
  match bytes with
  | [] => Ok tt
  | x25 :: rest =>
      match rest with
      | a :: b :: rest' =>
          if negb (is_ascii_hexdigit a && is_ascii_hexdigit b) || in_bounds 97 102 a || in_bounds 97 102 b then
            target_error "percent encoding must use uppercase hexadecimal"
          else if is_unreserved (percent_byte a b) then
            target_error "unreserved characters must not be percent encoded"
          else if negb query && is_path_separator (percent_byte a b) then
            target_error "encoded path separators are not canonical"
          else validate_uri_component query rest'
      | _ => target_error "percent encoding is incomplete"
      end
  | b :: rest =>
      if negb (byte_to_Z b <=? 127) || negb (is_uri_character b query) then
        target_error "request target contains a non-canonical character"
      else validate_uri_component query rest
  end.

(** [validate_path_and_query] *)
Definition validate_path_and_query (value : string) : auth_result unit :=
  let v := as_bytes value in
  _ ← ensure (zlen v <=? MAX_REQUEST_TARGET_BYTES)
        (InvalidRequestTarget "request target exceeds the protocol bound");
  _ ← ensure (negb (contains_byte "#"%byte v)) (InvalidRequestTarget "fragments are not allowed");
  _ ← ensure (negb (negb (starts_with ["/"%byte] v) || starts_with ["/"%byte; "/"%byte] v))
        (InvalidRequestTarget "expected an origin-form path");
  let '(path, query) := match split_once "?"%byte v with
                        | Some (path, query) => (path, Some query)
                        | None => (v, None)
                        end in
  _ ← validate_uri_component false path;
  _ ← ensure (negb (negb (bool_decide (path = ["/"%byte])) && contains ["/"%byte; "/"%byte] path))
        (InvalidRequestTarget "repeated path separators are not canonical");
  _ ← ensure (negb (existsb (fun segment => bool_decide (segment = ["."%byte])
                                            || bool_decide (segment = ["."%byte; "."%byte]))
                      (split_on "/"%byte path)))
        (InvalidRequestTarget "dot path segments are not canonical");
  match query with
  | None => Ok tt
  | Some query =>
      _ ← ensure (negb (bool_decide (query = [])))
            (InvalidRequestTarget "an empty query marker is not canonical");
      _ ← validate_uri_component true query;
      _ ← ensure (negb (starts_with ["&"%byte] query || ends_with ["&"%byte] query
                        || contains ["&"%byte; "&"%byte] query))
            (InvalidRequestTarget "empty query components are not canonical");
      ensure (negb (contains_byte "+"%byte query))
        (InvalidRequestTarget "query spaces must use percent encoding")
  end.

(** [FromStr for NormalizedPathAndQuery] *)
Definition path_and_query_from_str (value : string) : auth_result string :=
  _ ← validate_path_and_query value; Ok value.

(** ** Headers and signing input *)

Record NodeRequestAuthHeaders : Type := mkAuthHeaders {
  ah_node_id : NodeId;
  ah_key_id : NodeKeyId;
  ah_timestamp : OffsetDateTime;
  ah_nonce : string;
  ah_signature : string;
}.
Record NodeRequestSigningInput : Type := mkSigningInput {
  si_method : NodeRequestMethod;
  si_path_and_query : string;
  si_body_digest : string;
}.

Section Auth.
Context `{UuidText} `{Rfc3339} `{Base64} `{Sha256} `{Ed25519}.

(** [parse_canonical_base64url] *)
Definition parse_canonical_base64url {E A} (parse : string -> result E A) (value header : string)
    : auth_result A :=
  decoded ← ok_or (base64_decode value) (InvalidHeader header);
  _ ← ensure (bool_decide (base64_encode decoded = value)) (InvalidHeader header);
  map_err (fun _ => InvalidHeader header) (parse value).

(** [NodeRequestAuthHeaders::parse] *)
Definition headers_parse (node_id key_id timestamp nonce signature : string)
    : auth_result NodeRequestAuthHeaders :=
  node ← map_err (fun _ => InvalidHeader "X-Node-Id") (id_from_str node_id);
  key ← map_err (fun _ => InvalidHeader "X-Node-Key-Id") (id_from_str key_id);
  time ← map_err (fun _ => InvalidHeader "X-Node-Timestamp") (timestamp_from_str timestamp);
  _ ← ensure (bool_decide (rfc3339_format time = timestamp)) (InvalidHeader "X-Node-Timestamp");
  _ ← ensure ((MIN_NONCE_ENCODED_BYTES <=? str_len nonce) && (str_len nonce <=? MAX_NONCE_ENCODED_BYTES))
        (InvalidHeader "X-Node-Nonce");
  _ ← ensure (str_len signature =? SIGNATURE_ENCODED_BYTES) (InvalidHeader "X-Node-Signature");
  nonce ← parse_canonical_base64url nonce_from_str nonce "X-Node-Nonce";
  signature ← parse_canonical_base64url (fixed_base64url 64) signature "X-Node-Signature";
  Ok (mkAuthHeaders node key time nonce signature).

(** [sha256_digest] *)
Definition sha256_digest (body : list byte) : string := digest_from_bytes (sha256 body).

(** [NodeRequestSigningInput::parse] and [from_body] *)
Definition signing_input_parse (method path_and_query body_digest : string)
    : auth_result NodeRequestSigningInput :=
  m ← method_from_str method;
  p ← path_and_query_from_str path_and_query;
  d ← map_err (fun _ => InvalidBodyDigest) (digest_from_str body_digest);
  Ok (mkSigningInput m p d).
Definition signing_input_from_body (method path_and_query : string) (body : list byte)
    : auth_result NodeRequestSigningInput :=
  m ← method_from_str method;
  p ← path_and_query_from_str path_and_query;
  Ok (mkSigningInput m p (sha256_digest body)).

(** [decode_hex] and [decode_digest] *)
Definition decode_hex (b : byte) : option Z :=
  if in_bounds 48 57 b then Some (byte_to_Z b - 48)
  else if in_bounds 97 102 b then Some (byte_to_Z b - 97 + 10) else None.
Fixpoint decode_pairs (hex : list byte) : option (list byte) :=
  match hex with
  | a :: b :: rest =>
      x ← decode_hex a; y ← decode_hex b; bytes ← decode_pairs rest;
      Some (byte_of_Z (Z.lor (Z.shiftl x 4) y) :: bytes)
  | _ => Some []
  end.
(** The array starts as 32 zeros. A [Sha256Digest] has exactly 32 pairs, which
    [decode_digest_from_str] shows, so the indexing never panics. *)
Definition decode_digest (value : string) : auth_result (list byte) :=
  hex ← ok_or (strip_prefix (as_bytes "sha256:") (as_bytes value)) InvalidBodyDigest;
  bytes ← ok_or (decode_pairs hex) InvalidBodyDigest;
  Ok (bytes ++ replicate (32 - length bytes) x00).

(** [NodeRequestSigningInput::transcript] *)
Definition request_transcript (input : NodeRequestSigningInput) (timestamp : OffsetDateTime)
    (nonce : string) (controller_instance_id : ControllerInstanceId) : auth_result (list byte) :=
  let text := tr_text RequestFieldTooLarge in
  t ← tr_new RequestFieldTooLarge REQUEST_DOMAIN;
  t ← text t "method"%string (method_as_str (si_method input));
  t ← text t "path-and-query"%string (si_path_and_query input);
  t ← text t "timestamp"%string (rfc3339_format timestamp);
  t ← text t "nonce"%string nonce;
  digest ← decode_digest (si_body_digest input);
  t ← tr_bytes RequestFieldTooLarge t "body-sha256" digest;
  text t "controller-instance-id"%string (uuid_to_string controller_instance_id).

(** [decode_exact] of request_auth.rs *)
Definition auth_decode_exact (value : string) (length : Z) : auth_result (list byte) :=
  decoded ← ok_or (base64_decode value) RequestSignatureInvalid;
  _ ← ensure (zlen decoded =? length) RequestSignatureInvalid;
  Ok decoded.

(** [verify_node_request_signature]; [ed25519_verify_strict] is the strict
    verification of the crate. *)
Definition verify_node_request_signature (ed25519_verify_strict : list byte -> list byte -> list byte -> bool)
    (public_key : string) (headers : NodeRequestAuthHeaders) (input : NodeRequestSigningInput)
    (controller_instance_id : ControllerInstanceId) : auth_result unit :=
  public_bytes ← auth_decode_exact public_key 32;
  signature_bytes ← auth_decode_exact (ah_signature headers) 64;
  _ ← ensure (verifying_key public_bytes) RequestSignatureInvalid;
  transcript ← request_transcript input (ah_timestamp headers) (ah_nonce headers) controller_instance_id;
  ensure (ed25519_verify_strict public_bytes transcript signature_bytes) RequestSignatureInvalid.
End Auth.

(** ** Specification of the target: percent decoding *)

Fixpoint percent_decode (l : list byte) : list byte :=
  match l with
  | x25 :: a :: b :: l' => percent_byte a b :: percent_decode l'
  | b :: l' => b :: percent_decode l'
  | [] => []
  end.
(** The path of a request target, up to the query *)
Definition target_path (v : list byte) : list byte :=
  match split_once "?"%byte v with Some (path, _) => path | None => v end.

(** The components [validate_uri_component] accepts *)
Inductive uri_component (query : bool) : list byte -> Prop :=
| uri_nil : uri_component query []
| uri_char b l :
    b <> x25 -> is_uri_character b query = true -> uri_component query l -> uri_component query (b :: l)
| uri_percent a b l :
    is_ascii_hexdigit a = true -> is_ascii_hexdigit b = true ->
    is_unreserved (percent_byte a b) = false ->
    (query = false -> is_path_separator (percent_byte a b) = false) ->
    uri_component query l -> uri_component query (x25 :: a :: b :: l).
#[export] Hint Constructors uri_component : pn.

Lemma validate_percent query rest u :
  validate_uri_component query (x25 :: rest) = Ok u ->
  exists a b l, rest = a :: b :: l /\ is_ascii_hexdigit a = true /\ is_ascii_hexdigit b = true /\
    is_unreserved (percent_byte a b) = false /\
    (query = false -> is_path_separator (percent_byte a b) = false) /\
    validate_uri_component query l = Ok u.
Proof.
  cbn [validate_uri_component]. destruct rest as [|a [|b l]]; [done..|]. intros E.
  exists a, b, l. revert E.
  destruct (is_ascii_hexdigit a), (is_ascii_hexdigit b); cbn; try done.
  destruct (in_bounds 97 102 a), (in_bounds 97 102 b); cbn; try done.
  destruct (is_unreserved _); [done|].
  destruct query, (is_path_separator _); cbn; naive_solver.
Qed.

Lemma validate_char query b rest u :
  b <> x25 -> validate_uri_component query (b :: rest) = Ok u ->
  is_uri_character b query = true /\ validate_uri_component query rest = Ok u.
Proof.
  intros Hb E.
  assert ((if negb (byte_to_Z b <=? 127) || negb (is_uri_character b query)
           then target_error "request target contains a non-canonical character"
           else validate_uri_component query rest) = Ok u) as F by (destruct b; done).
  destruct (byte_to_Z b <=? 127), (is_uri_character b query); cbn in F; done.
Qed.

Lemma validate_uri_component_Ok query l u :
  validate_uri_component query l = Ok u -> uri_component query l.
Proof.
  remember (length l) as n eqn:Hn. revert l Hn.
  induction (lt_wf n) as [n _ IH]. intros [|b l] -> E; [constructor|].
  destruct (decide (b = x25)) as [->|Hb].
  - apply validate_percent in E as (a & c & l' & -> & ? & ? & ? & ? & E).
    apply uri_percent; try done. eapply IH; [|reflexivity|done]. cbn. lia.
  - apply validate_char in E as [? E]; [|done].
    apply uri_char; try done. eapply IH; [|reflexivity|done]. cbn. lia.
Qed.

Lemma percent_decode_char b l : b <> x25 -> percent_decode (b :: l) = b :: percent_decode l.
Proof. intros Hb. by destruct b. Qed.

Lemma hexdigit_not_slash b : is_ascii_hexdigit b = true -> b <> "/"%byte.
Proof. by intros Hb ->. Qed.

(** Decoding does not create, remove or move a separator. *)
Lemma decode_split l :
  uri_component false l ->
  split_on "/"%byte (percent_decode l) = percent_decode <$> split_on "/"%byte l.
Proof.
  induction 1 as [|b l Hb Hc Hl IH|a b l Ha Hb Hu Hs Hl IH]; [done| |].
  - rewrite percent_decode_char by done. destruct (decide (b = "/"%byte)) as [->|Hn].
    + rewrite !split_on_sep, fmap_cons. by rewrite IH.
    + destruct (split_on_byte "/"%byte b l Hn) as (s & ss & E & ->).
      destruct (split_on_byte "/"%byte b (percent_decode l) Hn) as (s' & ss' & E' & ->).
      rewrite fmap_cons, percent_decode_char by done. rewrite IH, E, fmap_cons in E'. by simplify_eq.
  - specialize (Hs eq_refl).
    destruct (split_on_byte "/"%byte b l (hexdigit_not_slash _ Hb)) as (s & ss & E & E1).
    destruct (split_on_byte "/"%byte a (b :: l) (hexdigit_not_slash _ Ha)) as (? & ? & E2 & E3).
    destruct (split_on_byte "/"%byte x25 (a :: b :: l)) as (? & ? & E4 & ->); [done|].
    rewrite E1 in E2. simplify_eq. rewrite E3 in E4. simplify_eq. cbn [percent_decode].
    destruct (split_on_byte "/"%byte (percent_byte a b) (percent_decode l)) as (? & ? & E5 & ->).
    { intros Hx. rewrite Hx in Hs. done. }
    rewrite IH, E, fmap_cons in E5. simplify_eq. done.
Qed.

(** Every segment of a component is one. *)
Lemma segments_components query l :
  uri_component query l -> Forall (uri_component query) (split_on "/"%byte l).
Proof.
  induction 1 as [|b l Hb Hc Hl IH|a b l Ha Hb Hu Hs Hl IH]; [by repeat constructor| |].
  - destruct (decide (b = "/"%byte)) as [->|Hn].
    + rewrite split_on_sep. constructor; [constructor|done].
    + destruct (split_on_byte "/"%byte b l Hn) as (s & ss & E & ->). rewrite E in IH.
      apply Forall_cons in IH as [? ?]. constructor; auto with pn.
  - destruct (split_on_byte "/"%byte b l (hexdigit_not_slash _ Hb)) as (s & ss & E & E1).
    destruct (split_on_byte "/"%byte a (b :: l) (hexdigit_not_slash _ Ha)) as (? & ? & E2 & E3).
    destruct (split_on_byte "/"%byte x25 (a :: b :: l)) as (? & ? & E4 & ->); [done|].
    rewrite E1 in E2. simplify_eq. rewrite E3 in E4. simplify_eq.
    rewrite E in IH. apply Forall_cons in IH as [? ?]. constructor; auto with pn.
Qed.

(** A component that decodes to unreserved characters is written plainly. *)
Lemma decode_unreserved query l :
  uri_component query l -> Forall (fun b => is_unreserved b = true) (percent_decode l) ->
  percent_decode l = l.
Proof.
  induction 1 as [|b l Hb Hc Hl IH|a b l Ha Hb Hu Hs Hl IH]; [done| |].
  - rewrite percent_decode_char by done. intros [_ F]%Forall_cons. by rewrite IH.
  - cbn [percent_decode]. intros [F _]%Forall_cons. congruence.
Qed.

(** No decoded byte of a path is a backslash, a query or a fragment mark. *)
Lemma decode_no_separators l :
  uri_component false l ->
  Forall (fun b => b <> "\"%byte /\ b <> "?"%byte /\ b <> "#"%byte) (percent_decode l).
Proof.
  induction 1 as [|b l Hb Hc Hl IH|a b l Ha Hb Hu Hs Hl IH]; [done| |].
  - rewrite percent_decode_char by done. constructor; [|done].
    split_and!; intros ->; done.
  - cbn [percent_decode]. specialize (Hs eq_refl). constructor; [|done].
    split_and!; intros Hx; rewrite Hx in Hs; done.
Qed.

(** A plain segment of the decoded path is a segment of the path. *)
Lemma decoded_segment l d :
  uri_component false l -> Forall (fun b => is_unreserved b = true) d ->
  d ∈ split_on "/"%byte (percent_decode l) -> d ∈ split_on "/"%byte l.
Proof.
  intros Hl Hd. rewrite decode_split by done. intros (s & -> & Hs)%list_elem_of_fmap.
  pose proof (segments_components _ _ Hl) as F. rewrite Forall_forall in F.
  by rewrite (decode_unreserved false s) by eauto.
Qed.

(** A request target that is accepted means one path: decoding its percent
    escapes neither creates nor removes a path separator, no decoded segment
    is a dot segment, and the decoded path holds no backslash, query or
    fragment mark. What is signed is the text itself. *)
Theorem request_target_unambiguous (value target : string) :
  path_and_query_from_str value = Ok target ->
  let path := target_path (as_bytes value) in
  target = value /\
  split_on "/"%byte (percent_decode path) = percent_decode <$> split_on "/"%byte path /\
  (["."%byte] ∉ split_on "/"%byte (percent_decode path)) /\
  (["."%byte; "."%byte] ∉ split_on "/"%byte (percent_decode path)) /\
  Forall (fun b => b <> "\"%byte /\ b <> "?"%byte /\ b <> "#"%byte) (percent_decode path).
Proof.
  unfold path_and_query_from_str, validate_path_and_query, target_path. intros E.
  destruct (match split_once _ _ with Some (p, q) => (p, Some q) | None => _ end) as [path query] eqn:Ep.
  assert (match split_once "?"%byte (as_bytes value) with Some (p, _) => p | None => as_bytes value end
    = path) as -> by (repeat case_match; naive_solver).
  inv_ok.
  match goal with H : validate_uri_component false _ = _ |- _ =>
    apply validate_uri_component_Ok in H as Hc end.
  match goal with H : negb (existsb _ _) = true |- _ => apply negb_true_iff in H; rename H into Hdot end.
  assert (forall d, d ∈ split_on "/"%byte path ->
    bool_decide (d = ["."%byte]) || bool_decide (d = ["."%byte; "."%byte]) = false) as Hd.
  { intros d Hin. apply not_true_is_false. intros Hx. apply not_true_iff_false in Hdot.
    apply Hdot, existsb_exists. exists d. by rewrite <- list_elem_of_In. }
  split_and!; [done|by apply decode_split| | |by apply decode_no_separators];
    intros Hin; apply decoded_segment in Hin; try done; try (by repeat constructor);
    by specialize (Hd _ Hin).
Qed.

Lemma request_target_unambiguous_witness :
  ["."%byte] ∉ split_on "/"%byte (percent_decode (as_bytes "/api/v1/node/a%20b")).
Proof.
  exact (proj1 (proj2 (proj2 (request_target_unambiguous "/api/v1/node/a%20b?x=%2F" _ eq_refl)))).
Defined.

(** The forms the parser takes and refuses *)
Example request_target_examples :
  is_ok (path_and_query_from_str "/") = true /\
  is_ok (path_and_query_from_str "/api/v1?a=b&c=%2F") = true /\
  path_and_query_from_str "/a/%2E%2E/b"
    = target_error "unreserved characters must not be percent encoded" /\
  path_and_query_from_str "/a%2Fb" = target_error "encoded path separators are not canonical" /\
  path_and_query_from_str "/a/../b" = target_error "dot path segments are not canonical" /\
  path_and_query_from_str "/a//b" = target_error "repeated path separators are not canonical" /\
  path_and_query_from_str "/a%2" = target_error "percent encoding is incomplete" /\
  path_and_query_from_str "/a?" = target_error "an empty query marker is not canonical".
Proof. repeat split; vm_compute; reflexivity. Qed.

(** ** Digests *)

Lemma decode_hex_lower b :
  is_lower_hex b = true -> exists d, decode_hex b = Some d /\ 0 <= d < 16 /\ hex_digit d = b.
Proof. destruct b; try done; intros _; eexists; (split; [reflexivity|]); done. Qed.

Lemma hex_pair_of_nibbles x y :
  0 <= x < 16 -> 0 <= y < 16 ->
  hex_pair (byte_of_Z (Z.lor (Z.shiftl x 4) y)) = [hex_digit x; hex_digit y].
Proof.
  intros Hx. revert y. revert x Hx.
  refine (fun x => nibble_cases x (fun x => forall y, 0 <= y < 16 -> _) _).
  repeat constructor; intros y;
    (refine (nibble_cases y (fun y => hex_pair _ = [_; hex_digit y]) _); repeat constructor).
Qed.

Lemma decode_pairs_lower n hex :
  length hex = (2 * n)%nat -> forallb is_lower_hex hex = true ->
  exists bytes, decode_pairs hex = Some bytes /\ length bytes = n /\ concat (hex_pair <$> bytes) = hex.
Proof.
  revert hex. induction n as [|n IH]; intros [|a [|b hex]] Hn Hl; try (cbn in Hn; lia).
  { by exists []. }
  cbn [forallb] in Hl. apply andb_prop in Hl as [Ha [Hb Hl]%andb_prop].
  destruct (IH hex) as (bytes & E & Hlen & Hc); [cbn in Hn; lia|done|].
  destruct (decode_hex_lower _ Ha) as (x & Ex & Hx & <-).
  destruct (decode_hex_lower _ Hb) as (y & Ey & Hy & <-).
  eexists. cbn [decode_pairs]. rewrite Ex, Ey, E. split_and!; [done|cbn; lia|].
  rewrite fmap_cons. cbn [concat]. by rewrite hex_pair_of_nibbles, Hc.
Qed.

(** [decode_digest] reads back what [Sha256Digest::from_bytes] wrote. *)
Lemma decode_digest_from_str d d' :
  digest_from_str d = Ok d' ->
  exists bytes, decode_digest d = Ok bytes /\ length bytes = 32%nat /\ digest_from_bytes bytes = d.
Proof.
  unfold digest_from_str. intros E. inv_ok.
  match goal with H : strip_prefix _ _ = Some ?h |- _ => rename H into Hp, h into hex end.
  match goal with H : _ && _ = true |- _ => apply andb_prop in H as [Hlen Hhex] end.
  destruct (decode_pairs_lower 32 hex) as (bytes & Eb & Hn & Hc);
    [unfold zlen in Hlen; lia|done|].
  exists bytes. unfold decode_digest. rewrite Hp. cbn [ok_or]. rsimpl. rewrite Eb. cbn [ok_or]. rsimpl.
  rewrite Hn. cbn [replicate Nat.sub]. rewrite app_nil_r. split_and!; [done..|].
  unfold digest_from_bytes. rewrite Hc. apply strip_prefix_Some in Hp.
  by rewrite <- Hp, str_of_as_bytes.
Qed.

(** ** Binding *)

Definition request_fields `{UuidText} `{Rfc3339} (input : NodeRequestSigningInput)
    (timestamp : OffsetDateTime) (nonce : string) (digest : list byte) (controller : Uuid) : list Field :=
  [("domain", REQUEST_DOMAIN);
   ("method", as_bytes (method_as_str (si_method input)));
   ("path-and-query", as_bytes (si_path_and_query input));
   ("timestamp", as_bytes (rfc3339_format timestamp));
   ("nonce", as_bytes nonce);
   ("body-sha256", digest);
   ("controller-instance-id", as_bytes (uuid_to_string controller))]%string.

Lemma request_transcript_fields `{UuidText} `{Rfc3339} input timestamp nonce controller t :
  request_transcript input timestamp nonce controller = Ok t ->
  exists digest, decode_digest (si_body_digest input) = Ok digest /\
    transcribes (request_fields input timestamp nonce digest controller) t.
Proof.
  unfold request_transcript. intros E. transcript. eexists. split; [done|].
  match goal with H : transcribes _ t |- _ => exact H end.
Qed.

Lemma method_as_str_inj m1 m2 : method_as_str m1 = method_as_str m2 -> m1 = m2.
Proof. by destruct m1, m2. Qed.

(** A node's signature covers the whole request: two requests with one
    transcript have the same method, target, body digest, timestamp, nonce
    and controller. *)
Theorem request_signature_binds `{UL : UuidTextLaws} `{RL : Rfc3339Laws}
    (i1 i2 : NodeRequestSigningInput) (t1 t2 : OffsetDateTime) (n1 n2 : string) (c1 c2 : Uuid)
    (t : list byte) :
  digest_from_str (si_body_digest i1) = Ok (si_body_digest i1) ->
  digest_from_str (si_body_digest i2) = Ok (si_body_digest i2) ->
  is_timestamp t1 -> is_timestamp t2 -> is_uuid c1 -> is_uuid c2 ->
  request_transcript i1 t1 n1 c1 = Ok t -> request_transcript i2 t2 n2 c2 = Ok t ->
  i1 = i2 /\ t1 = t2 /\ n1 = n2 /\ c1 = c2.
Proof.
  intros D1 D2 T1 T2 C1 C2 E1 E2.
  apply request_transcript_fields in E1 as (d1 & F1 & E1), E2 as (d2 & F2 & E2).
  apply decode_digest_from_str in D1 as (b1 & G1 & _ & D1), D2 as (b2 & G2 & _ & D2).
  pose proof (transcribes_inj _ _ _ E1 E2) as E. unfold request_fields in E.
  assert (method_as_str (si_method i1) = method_as_str (si_method i2)) as Hm
    by (apply as_bytes_inj; congruence).
  apply method_as_str_inj in Hm.
  assert (d1 = d2 /\ as_bytes (si_path_and_query i1) = as_bytes (si_path_and_query i2) /\
    as_bytes n1 = as_bytes n2 /\ as_bytes (rfc3339_format t1) = as_bytes (rfc3339_format t2) /\
    as_bytes (uuid_to_string c1) = as_bytes (uuid_to_string c2)) as (-> & Hp & Hn & Ht & Hc)
    by (split_and!; congruence).
  apply as_bytes_inj in Hp, Hn, Ht, Hc.
  apply rfc3339_format_inj in Ht; [|done..]. apply uuid_to_string_inj in Hc; [|done..].
  split_and!; try done. destruct i1, i2; cbn in *. congruence.
Qed.

Definition sample_request : NodeRequestSigningInput :=
  mkSigningInput Post "/api/v1/nodes/sync?full=1" (digest_from_bytes (replicate 32 x02)).

Lemma request_signature_binds_witness :
  exists t, request_transcript sample_request (mkTime 0 0) "nonce" (mkUuid (replicate 16 x01)) = Ok t /\
    sample_request = sample_request.
Proof.
  assert (is_ok (request_transcript sample_request (mkTime 0 0) "nonce" (mkUuid (replicate 16 x01)))
    = true) as Hok by (vm_compute; reflexivity).
  destruct (request_transcript sample_request (mkTime 0 0) "nonce" (mkUuid (replicate 16 x01)))
    as [t|] eqn:E; [|discriminate Hok].
  exists t. split; [done|].
  refine (proj1 (request_signature_binds sample_request sample_request (mkTime 0 0) (mkTime 0 0)
    "nonce" "nonce" (mkUuid (replicate 16 x01)) (mkUuid (replicate 16 x01)) t _ _ _ _ _ _ E E)).
  all: repeat split; vm_compute; done.
Defined.

(** ** Headers *)

Section Headers.
Context `{UL : UuidTextLaws} `{RL : Rfc3339Laws} `{BL : Base64Laws}.

Definition encodes (value : string) (lo hi : Z) : Prop :=
  exists bytes, value = base64_encode bytes /\ lo <= zlen bytes <= hi.

Lemma id_from_str_exact s u : id_from_str s = Ok u <-> is_uuid u /\ s = uuid_to_string u.
Proof.
  unfold id_from_str. split.
  - intros E. inv_ok. bool_props. eauto using uuid_parse_16.
  - intros [Hu ->]. rewrite uuid_parse_display by done. cbn. rsimpl.
    by rewrite bool_decide_eq_true_2.
Qed.

Lemma timestamp_exact s t :
  (timestamp_from_str s = Ok t /\ rfc3339_format t = s) <-> is_timestamp t /\ s = rfc3339_format t.
Proof.
  unfold timestamp_from_str. split.
  - intros [E <-]. inv_ok. bool_props. split; [|done]. eapply rfc3339_parse_range; [done|lia].
  - intros [Ht ->]. split; [|done]. rewrite rfc3339_parse_format by done. cbn. rsimpl.
    rewrite rfc3339_utc_suffix by done. by rewrite (proj1 Ht).
Qed.

Lemma nonce_exact s v header :
  parse_canonical_base64url nonce_from_str s header = Ok v <-> v = s /\ encodes s 16 64.
Proof.
  unfold parse_canonical_base64url, nonce_from_str, encodes. split.
  - intros E. inv_ok. bool_props. simplify_eq. split; [done|]. eexists. split; [done|]. lia.
  - intros [-> (l & -> & Hl)]. rewrite base64_decode_encode, base64_no_padding. cbn. rsimpl.
    rewrite bool_decide_eq_true_2 by done. cbn. rsimpl.
    rewrite !(proj2 (Z.leb_le _ _)) by lia. done.
Qed.

Lemma signature_exact s v header :
  parse_canonical_base64url (fixed_base64url 64) s header = Ok v <-> v = s /\ encodes s 64 64.
Proof.
  unfold parse_canonical_base64url, fixed_base64url, decode_exact_value, encodes. split.
  - intros E. inv_ok. bool_props. simplify_eq. split; [done|]. eexists. split; [done|]. lia.
  - intros [-> (l & -> & Hl)]. rewrite base64_decode_encode, ?base64_no_padding. cbn. rsimpl.
    rewrite bool_decide_eq_true_2 by done. cbn. rsimpl.
    rewrite (proj2 (Z.eqb_eq _ _)) by lia. done.
Qed.
End Headers.

(** The five authentication headers are canonical: they are accepted exactly
    when each is the text of a value in its range, and the parsed headers then
    hold those values. No request has two header spellings. *)
Theorem headers_parse_exact `{UL : UuidTextLaws} `{RL : Rfc3339Laws} `{BL : Base64Laws}
    (node_id key_id timestamp nonce signature : string) (h : NodeRequestAuthHeaders) :
  headers_parse node_id key_id timestamp nonce signature = Ok h <->
  (is_uuid (ah_node_id h) /\ node_id = uuid_to_string (ah_node_id h)) /\
  (is_uuid (ah_key_id h) /\ key_id = uuid_to_string (ah_key_id h)) /\
  (is_timestamp (ah_timestamp h) /\ timestamp = rfc3339_format (ah_timestamp h)) /\
  (ah_nonce h = nonce /\ encodes nonce 16 64) /\
  (ah_signature h = signature /\ encodes signature 64 64).
Proof.
  rewrite <- !id_from_str_exact, <- timestamp_exact.
  rewrite <- (nonce_exact nonce _ "X-Node-Nonce"), <- (signature_exact signature _ "X-Node-Signature").
  unfold headers_parse. split.
  - intros E. inv_ok. bool_props. done.
  - intros (-> & -> & (-> & Ht) & Hn & Hs).
    pose proof (proj1 (nonce_exact _ _ _) Hn) as [_ (n & -> & Ln)].
    pose proof (proj1 (signature_exact _ _ _) Hs) as [_ (s & -> & Ls)].
    cbn. rsimpl. rewrite bool_decide_eq_true_2 by done. cbn. rsimpl. rewrite !base64_length.
    unfold MIN_NONCE_ENCODED_BYTES, MAX_NONCE_ENCODED_BYTES, SIGNATURE_ENCODED_BYTES.
    rewrite !(proj2 (Z.leb_le _ _)) by (Z.div_mod_to_equations; lia).
    rewrite (proj2 (Z.eqb_eq _ _)) by (Z.div_mod_to_equations; lia). cbn. rsimpl.
    rewrite Hn. cbn. rsimpl. rewrite Hs. cbn. by destruct h.
Qed.

Definition sample_headers : NodeRequestAuthHeaders :=
  mkAuthHeaders (mkUuid (replicate 16 x01)) (mkUuid (replicate 16 x02)) (mkTime 0 0)
    (base64_encode (replicate 16 x03)) (base64_encode (replicate 64 x04)).

Lemma headers_parse_exact_witness :
  headers_parse (uuid_to_string (ah_node_id sample_headers)) (uuid_to_string (ah_key_id sample_headers))
    (rfc3339_format (ah_timestamp sample_headers)) (ah_nonce sample_headers) (ah_signature sample_headers)
  = Ok sample_headers.
Proof.
  refine (proj2 (headers_parse_exact _ _ _ _ _ sample_headers) _).
  split_and!; try (repeat split; vm_compute; done).
  - by exists (replicate 16 x03).
  - by exists (replicate 64 x04).
Defined.
