(* ===== verification/ProtoNode.v ===== *)
(** * Node documents

    [src/crates/control-protocol/src/node.rs] and [error.rs]: invitations and
    setup codes, enrollment, heartbeats and their signed answers, desired
    state, revision results and operator rollbacks, each with its validation.
    [serde_json] is a parameter of the setup-code functions. *)
From S2P Require Import Prelude Text Clock ProtoTypes.

(** ** Text fields *)

Definition violation (c : ValidationCode) (field message : string) : ProtocolValidationError :=
  mkValidation c field message.

(** [validate_short_text] and [validate_display_name] *)
Definition validate_short_text (value : string) (maximum_length : Z) (field : string) : valid_result unit :=
  _ ← ensure (negb (bool_decide (value = EmptyString))) (violation MissingField field "value is required");
  ensure (negb ((maximum_length <? str_len value) || existsb is_control (chars (as_bytes value))))
    (violation OutOfRange field "value exceeds its length or character bound").
Definition validate_display_name (value field : string) : valid_result unit :=
  validate_short_text value 128 field.

(** [byte.is_ascii_lowercase() || byte.is_ascii_digit() || byte == b'_'] *)
Definition snake_byte (b : byte) : bool := is_ascii_lowercase b || is_ascii_digit b || bool_decide (b = "_"%byte).

(** [collect::<HashSet<_>>().len() == len()] *)
Definition unique {A} `{EqDecision A} (l : list A) : bool := bool_decide (NoDup l).

(** ** Stable API error codes *)

Inductive ApiErrorCode : Type :=
| AuthenticationFailed | Forbidden | InvitationInvalid | InvitationExpired | InvitationConsumed
| InvitationCancelled | ActivationInvalid | ActivationExpired | ActivationConsumed | AccountDisabled
| DeviceRevoked | NodeRevoked | RefreshCredentialReuse | ApiSignatureInvalid | NonceReplayed | ClockSkew
| SchemaUnsupported | StateStale | StateConflict | InvalidStateTransition | ValidationFailed
| XrayStartFailed | XrayUnhealthy | AdmissionBindFailed | AdmissionUnhealthy | RollbackFailed
| TelemetrySequenceGap | IdempotencyKeyConflict | ApiConflict | RateLimited | NotFound
| MethodNotAllowed | RequestTooLarge | ServiceUnavailable | ApiInternal
| Unknown (code : string).
#[export] Instance ApiErrorCode_eq_dec : EqDecision ApiErrorCode.
Proof. solve_decision. Defined.

(** [ErrorCode::as_str] *)
Definition api_as_str (c : ApiErrorCode) : string :=
  match c with
  | AuthenticationFailed => "authentication_failed" | Forbidden => "forbidden"
  | InvitationInvalid => "invitation_invalid" | InvitationExpired => "invitation_expired"
  | InvitationConsumed => "invitation_consumed" | InvitationCancelled => "invitation_cancelled"
  | ActivationInvalid => "activation_invalid" | ActivationExpired => "activation_expired"
  | ActivationConsumed => "activation_consumed" | AccountDisabled => "account_disabled"
  | DeviceRevoked => "device_revoked" | NodeRevoked => "node_revoked"
  | RefreshCredentialReuse => "refresh_credential_reuse" | ApiSignatureInvalid => "signature_invalid"
  | NonceReplayed => "nonce_replayed" | ClockSkew => "clock_skew"
  | SchemaUnsupported => "schema_unsupported" | StateStale => "state_stale"
  | StateConflict => "state_conflict" | InvalidStateTransition => "invalid_state_transition"
  | ValidationFailed => "validation_failed" | XrayStartFailed => "xray_start_failed"
  | XrayUnhealthy => "xray_unhealthy" | AdmissionBindFailed => "admission_bind_failed"
  | AdmissionUnhealthy => "admission_unhealthy" | RollbackFailed => "rollback_failed"
  | TelemetrySequenceGap => "telemetry_sequence_gap" | IdempotencyKeyConflict => "idempotency_key_conflict"
  | ApiConflict => "conflict" | RateLimited => "rate_limited" | NotFound => "not_found"
  | MethodNotAllowed => "method_not_allowed" | RequestTooLarge => "request_too_large"
  | ServiceUnavailable => "service_unavailable" | ApiInternal => "internal"
  | Unknown code => code
  end.
(** The arms of [ErrorCode::from_wire], in order *)
Definition wire_arms : list (string * ApiErrorCode) :=
  [("authentication_failed", AuthenticationFailed); ("forbidden", Forbidden);
   ("invitation_invalid", InvitationInvalid); ("invitation_expired", InvitationExpired);
   ("invitation_consumed", InvitationConsumed); ("invitation_cancelled", InvitationCancelled);
   ("activation_invalid", ActivationInvalid); ("activation_expired", ActivationExpired);
   ("activation_consumed", ActivationConsumed); ("account_disabled", AccountDisabled);
   ("device_revoked", DeviceRevoked); ("node_revoked", NodeRevoked);
   ("refresh_credential_reuse", RefreshCredentialReuse); ("signature_invalid", ApiSignatureInvalid);
   ("nonce_replayed", NonceReplayed); ("clock_skew", ClockSkew);
   ("schema_unsupported", SchemaUnsupported); ("state_stale", StateStale);
   ("state_conflict", StateConflict); ("invalid_state_transition", InvalidStateTransition);
   ("validation_failed", ValidationFailed); ("xray_start_failed", XrayStartFailed);
   ("xray_unhealthy", XrayUnhealthy); ("admission_bind_failed", AdmissionBindFailed);
   ("admission_unhealthy", AdmissionUnhealthy); ("rollback_failed", RollbackFailed);
   ("telemetry_sequence_gap", TelemetrySequenceGap);
   ("idempotency_key_conflict", IdempotencyKeyConflict); ("conflict", ApiConflict);
   ("rate_limited", RateLimited); ("not_found", NotFound); ("method_not_allowed", MethodNotAllowed);
   ("request_too_large", RequestTooLarge); ("service_unavailable", ServiceUnavailable);
   ("internal", ApiInternal)]%string.
Definition api_from_wire (code : string) : ApiErrorCode :=
  match List.find (fun arm => bool_decide (arm.1 = code)) wire_arms with
  | Some arm => arm.2
  | None => Unknown code
  end.

(** ** Xray configuration of desired state *)

Record DesiredXrayState : Type := mkXray {
  listen_port : Z;
  xray_public_port : option Z;
  server_names : list string;
  target : string;
}.

(** [DesiredXrayState::validate] *)
Definition xray_ports_validate (x : DesiredXrayState) (schema_version : Z) : valid_result unit :=
  if schema_version =? 1 then
    ensure (negb (bool_decide (is_Some (xray_public_port x))))
      (violation InconsistentState "xray.publicPort"
         "desired-state schema version 1 cannot carry a public admission port")
  else if schema_version =? 2 then
    public_port ← ok_or (xray_public_port x)
      (violation MissingField "xray.publicPort"
         "desired-state schema version 2 requires a public admission port");
    _ ← ensure (negb (public_port =? 0))
          (violation OutOfRange "xray.publicPort" "public admission port must be non-zero");
    _ ← ensure (negb (listen_port x <? 1024))
          (violation OutOfRange "xray.listenPort" "schema version 2 loopback port must be unprivileged");
    ensure (negb (public_port =? listen_port x))
      (violation InconsistentState "xray.publicPort"
         "public admission and Xray loopback ports must differ")
  else
    Err (violation UnsupportedSchema "schemaVersion" "desired-state Xray schema version is not supported").
Definition xray_validate (x : DesiredXrayState) (schema_version : Z) : valid_result unit :=
  _ ← ensure (negb (listen_port x =? 0))
        (violation OutOfRange "xray.listenPort" "Xray listen port must be non-zero");
  _ ← xray_ports_validate x schema_version;
  _ ← ensure (negb (bool_decide (server_names x = []) || (16 <? zlen (server_names x))))
        (violation OutOfRange "xray.serverNames" "one to sixteen REALITY server names are required");
  _ ← try_for_each (fun name => validate_short_text name 253 "xray.serverNames") (server_names x);
  _ ← validate_short_text (target x) 259 "xray.target";
  ensure (negb (negb (contains_byte ":"%byte (as_bytes (target x)))
                || contains ["/"%byte; "/"%byte] (as_bytes (target x))))
    (violation InvalidFormat "xray.target" "Xray target must use host:port form").

(** ** Invitations *)

Definition MAX_NODE_INVITATION_LIFETIME_SECONDS : Z := 3600.
Definition NODE_SETUP_CODE_PREFIX : string := "pn-node-v1.".
Definition NODE_SETUP_CODE_SCHEMA_VERSION : Z := 1.
Definition MAX_NODE_SETUP_CODE_LENGTH : Z := 4096.
Definition INVITATION_SECRET_BYTES : Z := 32.

Inductive PairingPurpose : Type := NodeEnrollment | DeviceActivation | AdminDeviceEnrollment.
#[export] Instance PairingPurpose_eq_dec : EqDecision PairingPurpose.
Proof. solve_decision. Defined.

Record NodeInitialConfiguration : Type := mkInitial {
  ini_min_agent_version : string;
  ini_xray : DesiredXrayState;
}.
Record CreateNodeInvitationRequest : Type := mkInvitationRequest {
  ir_display_name : string;
  ir_expires_in_seconds : Z;
  ir_initial_configuration : option NodeInitialConfiguration;
}.

(** [NodeInitialConfiguration::validate], [CreateNodeInvitationRequest::validate] *)
Definition initial_validate (c : NodeInitialConfiguration) : valid_result unit :=
  _ ← validate_short_text (ini_min_agent_version c) 64 "initialConfiguration.minAgentVersion";
  xray_validate (ini_xray c) 2.
Definition invitation_request_validate (r : CreateNodeInvitationRequest) : valid_result unit :=
  _ ← validate_display_name (ir_display_name r) "displayName";
  _ ← ensure ((1 <=? ir_expires_in_seconds r)
              && (ir_expires_in_seconds r <=? MAX_NODE_INVITATION_LIFETIME_SECONDS))
        (violation OutOfRange "expiresInSeconds" "invitation lifetime must be between 1 and 3600 seconds");
  match ir_initial_configuration r with
  | Some configuration => initial_validate configuration
  | None => Ok tt
  end.

Record CreateNodeInvitationResponse : Type := mkInvitation {
  inv_id : Uuid;
  inv_purpose : PairingPurpose;
  inv_expires_at : OffsetDateTime;
  inv_secret : string;
  inv_controller_origin : string;
  inv_controller_fingerprint : string;
}.
Record NodeSetupInvitation : Type := mkSetup {
  su_display_name : string;
  su_invitation : CreateNodeInvitationResponse;
}.
Record NodeSetupCodePayload : Type := mkSetupPayload {
  sp_schema_version : Z;
  sp_display_name : string;
  sp_invitation : CreateNodeInvitationResponse;
}.

(** [validate_node_setup_invitation] *)
Definition validate_node_setup_invitation `{Base64} (i : CreateNodeInvitationResponse) : valid_result unit :=
  _ ← ensure (bool_decide (inv_purpose i = NodeEnrollment))
        (violation InconsistentState "setupCode.invitation.purpose"
           "setup code is not intended for node enrollment");
  secret ← ok_or (base64_decode (inv_secret i))
             (violation InvalidFormat "setupCode.invitation.invitationSecret" "invitation secret is malformed");
  ensure (zlen secret =? INVITATION_SECRET_BYTES)
    (violation InvalidFormat "setupCode.invitation.invitationSecret" "invitation secret is malformed").

Section SetupCode.
Context `{Base64}.
Variable to_vec : NodeSetupCodePayload -> option (list byte).
Variable from_slice : list byte -> option NodeSetupCodePayload.

Definition setup_too_long : ProtocolValidationError :=
  violation OutOfRange "setupCode" "node setup code exceeds the protocol bound".
Definition setup_malformed : ProtocolValidationError :=
  violation InvalidFormat "setupCode" "node setup code is malformed".
(** [u8::is_ascii_whitespace] *)
Definition is_ascii_whitespace (b : byte) : bool := bool_decide (b ∈ [x20; x09; x0a; x0c; x0d]).

(** [encode_node_setup_code] *)
Definition encode_node_setup_code (display_name : string) (i : CreateNodeInvitationResponse)
    : valid_result string :=
  _ ← validate_display_name display_name "displayName";
  _ ← validate_node_setup_invitation i;
  json ← ok_or (to_vec (mkSetupPayload NODE_SETUP_CODE_SCHEMA_VERSION display_name i))
           (violation InvalidFormat "setupCode" "node setup code could not be encoded");
  let value := String.append NODE_SETUP_CODE_PREFIX (base64_encode json) in
  _ ← ensure (str_len value <=? MAX_NODE_SETUP_CODE_LENGTH) setup_too_long;
  Ok value.

(** [decode_node_setup_code] *)
Definition decode_node_setup_code (value : string) : valid_result NodeSetupInvitation :=
  _ ← ensure (str_len value <=? MAX_NODE_SETUP_CODE_LENGTH) setup_too_long;
  encoded ← ok_or (strip_prefix (as_bytes NODE_SETUP_CODE_PREFIX) (as_bytes value))
              (violation InvalidFormat "setupCode" "node setup code has an unsupported prefix");
  _ ← ensure (negb (bool_decide (encoded = []) || existsb is_ascii_whitespace encoded)) setup_malformed;
  json ← ok_or (base64_decode (str_of_bytes encoded)) setup_malformed;
  _ ← ensure (bool_decide (base64_encode json = str_of_bytes encoded))
        (violation InvalidFormat "setupCode" "node setup code is not canonical");
  payload ← ok_or (from_slice json)
              (violation InvalidFormat "setupCode" "node setup code payload is invalid");
  _ ← ensure (sp_schema_version payload =? NODE_SETUP_CODE_SCHEMA_VERSION)
        (violation UnsupportedSchema "setupCode.schemaVersion" "node setup code schema is not supported");
  _ ← validate_display_name (sp_display_name payload) "setupCode.displayName";
  _ ← validate_node_setup_invitation (sp_invitation payload);
  Ok (mkSetup (sp_display_name payload) (sp_invitation payload)).
End SetupCode.

(** ** Enrollment *)

Inductive NodeCapability : Type := Xray | DirectTcp | Upnp | NatPmp | Pcp | RelayTcp.
#[export] Instance NodeCapability_eq_dec : EqDecision NodeCapability.
Proof. solve_decision. Defined.

Record NodePublicMaterial : Type := mkPublicMaterial {
  reality_public_key : string;
  reality_short_id : string;
}.
Record ProviderConsent : Type := mkConsent {
  policy_version : string;
  host_owner_consented : bool;
  exit_ip_disclosure_accepted : bool;
  router_mapping_accepted : bool;
  accepted_at : OffsetDateTime;
}.
Record EnrollNodeRequest : Type := mkEnroll {
  en_invitation_secret : string;
  en_agent_version : string;
  en_platform : string;
  en_display_name : string;
  en_capabilities : list NodeCapability;
  en_identity_public_key : string;
  en_encryption_public_key : string;
  en_public_material : option NodePublicMaterial;
  en_nonce : string;
  en_proof : string;
  en_provider_consent : ProviderConsent;
}.

(** [NodePublicMaterial::validate], [ProviderConsent::validate] *)
Definition public_material_validate (m : NodePublicMaterial) : valid_result unit :=
  ensure ((str_len (reality_short_id m) =? 16) && forallb is_lower_hex (as_bytes (reality_short_id m)))
    (violation InvalidFormat "publicMaterial.realityShortId"
       "REALITY short ID must be 16 lowercase hexadecimal characters").
Definition consent_validate (c : ProviderConsent) : valid_result unit :=
  _ ← validate_short_text (policy_version c) 64 "providerConsent.policyVersion";
  ensure (negb (negb (host_owner_consented c) || negb (exit_ip_disclosure_accepted c)))
    (violation InconsistentState "providerConsent" "host-owner consent and exit-IP disclosure are required").

Definition is_mapping_capability (c : NodeCapability) : bool :=
  match c with Upnp | NatPmp | Pcp => true | _ => false end.

(** [EnrollNodeRequest::validate] *)
Definition enroll_validate (r : EnrollNodeRequest) : valid_result unit :=
  _ ← ensure (negb (bool_decide (en_invitation_secret r = EmptyString)))
        (violation MissingField "invitationSecret" "invitation secret is required");
  _ ← validate_short_text (en_agent_version r) 64 "agentVersion";
  _ ← validate_short_text (en_platform r) 64 "platform";
  _ ← validate_display_name (en_display_name r) "displayName";
  _ ← ensure (negb (bool_decide (en_capabilities r = [])))
        (violation MissingField "capabilities" "at least one capability is required");
  _ ← ensure (negb ((16 <? zlen (en_capabilities r)) || negb (unique (en_capabilities r))))
        (violation InconsistentState "capabilities" "capabilities must be unique and bounded");
  let has_mapping_capability := existsb is_mapping_capability (en_capabilities r) in
  _ ← ensure (negb (negb (Bool.eqb has_mapping_capability (router_mapping_accepted (en_provider_consent r)))
                    || (has_mapping_capability
                        && negb (bool_decide (DirectTcp ∈ en_capabilities r)))))
        (violation InconsistentState "capabilities"
           "router mapping capabilities require matching consent and direct TCP support");
  _ ← match en_public_material r with
      | Some material => public_material_validate material
      | None => Ok tt
      end;
  consent_validate (en_provider_consent r).

Inductive NodeAuthenticationMode : Type := MutualTls | SignedRequest.
Record NodeCredential : Type := mkCredential {
  cr_key_id : NodeKeyId;
  cr_mode : NodeAuthenticationMode;
  cr_expires_at : OffsetDateTime;
  cr_client_certificate_pem : option string;
}.
Record EnrollNodeResponse : Type := mkEnrollResponse {
  er_network_id : NetworkId;
  er_node_id : NodeId;
  er_controller_instance_id : ControllerInstanceId;
  er_credential : NodeCredential;
  er_desired_state_signing_public_key : string;
  er_controller_nonce : string;
  er_proof : string;
}.

(** ** Heartbeats *)

Inductive NodeRuntimeState : Type :=
| RunPending | RunIdle | RunServing | RunProviderPaused | RunDegraded | RunQuarantined | RunStopped.
Inductive EndpointMode : Type := EmDirect | EmRelay.
Inductive EndpointSource : Type := EsManual | EsPcp | EsNatPmp | EsUpnp | EsRelay.
#[export] Instance NodeRuntimeState_eq_dec : EqDecision NodeRuntimeState.
Proof. solve_decision. Defined.
#[export] Instance EndpointMode_eq_dec : EqDecision EndpointMode.
Proof. solve_decision. Defined.
#[export] Instance EndpointSource_eq_dec : EqDecision EndpointSource.
Proof. solve_decision. Defined.

Record EndpointCandidate : Type := mkCandidate {
  ec_endpoint_id : EndpointId;
  ec_mode : EndpointMode;
  ec_source : EndpointSource;
  ec_address : string;
  ec_port : Z;
  ec_applied_revision : Z;
  ec_observed_at : OffsetDateTime;
  ec_expires_at : option OffsetDateTime;
}.

(** [EndpointCandidate::validate] *)
Definition source_matches_mode (m : EndpointMode) (s : EndpointSource) : bool :=
  match m, s with
  | EmDirect, (EsManual | EsPcp | EsNatPmp | EsUpnp) => true
  | EmRelay, EsRelay => true
  | _, _ => false
  end.
Definition candidate_validate (c : EndpointCandidate) : valid_result unit :=
  _ ← validate_short_text (ec_address c) 253 "endpoints.address";
  _ ← ensure (negb (contains_byte "/"%byte (as_bytes (ec_address c))
                    || existsb is_whitespace (chars (as_bytes (ec_address c)))))
        (violation InvalidFormat "endpoints.address"
           "endpoint address must be a hostname or IP address, not a URL");
  _ ← ensure (negb (ec_port c =? 0)) (violation OutOfRange "endpoints.port" "endpoint port must be non-zero");
  _ ← ensure (source_matches_mode (ec_mode c) (ec_source c))
        (violation InconsistentState "endpoints.source" "endpoint source must agree with direct or relay mode");
  _ ← ensure (negb match ec_expires_at c with
                   | Some expiry => time_le expiry (ec_observed_at c)
                   | None => false
                   end)
        (violation OutOfRange "endpoints.expiresAt" "endpoint expiry must be later than its observation time");
  ensure (negb (negb (bool_decide (ec_source c = EsManual)) && bool_decide (ec_expires_at c = None)))
    (violation MissingField "endpoints.expiresAt"
       "mapped and relayed endpoint candidates require a finite expiry").

Record RevisionProgress : Type := mkProgress {
  desired_revision : option Z;
  received_revision : option Z;
  validated_revision : option Z;
  applied_revision : option Z;
}.
(** [validate_revision_pair] and [RevisionProgress::validate] *)
Definition validate_revision_pair (upper lower : option Z) (lower_field : string) : valid_result unit :=
  match upper, lower with
  | None, Some _ =>
      Err (violation InconsistentState lower_field
             "revision progress cannot skip a preceding lifecycle state")
  | Some u, Some l =>
      if u <? l then
        Err (violation InconsistentState lower_field
               "revision progress cannot exceed its preceding lifecycle state")
      else Ok tt
  | _, _ => Ok tt
  end.
Definition progress_validate (p : RevisionProgress) : valid_result unit :=
  _ ← validate_revision_pair (desired_revision p) (received_revision p) "receivedRevision";
  _ ← validate_revision_pair (received_revision p) (validated_revision p) "validatedRevision";
  validate_revision_pair (validated_revision p) (applied_revision p) "appliedRevision".

Record NodeHeartbeat : Type := mkHeartbeat {
  hb_generation : Z;
  hb_agent_version : string;
  hb_xray_version : option string;
  hb_state : NodeRuntimeState;
  hb_revisions : RevisionProgress;
  hb_provider_paused : bool;
  hb_endpoints : list EndpointCandidate;
  hb_telemetry_cursor : Z;
}.
Definition candidate_key (c : EndpointCandidate) : EndpointMode * string * Z * Z :=
  (ec_mode c, ec_address c, ec_port c, ec_applied_revision c).

(** [NodeHeartbeat::validate] *)
Definition heartbeat_validate (h : NodeHeartbeat) : valid_result unit :=
  _ ← ensure (negb (hb_generation h =? 0))
        (violation OutOfRange "heartbeatGeneration" "heartbeat generation must be positive");
  _ ← validate_short_text (hb_agent_version h) 64 "agentVersion";
  _ ← match hb_xray_version h with
      | Some version => validate_short_text version 64 "xrayVersion"
      | None => Ok tt
      end;
  _ ← progress_validate (hb_revisions h);
  _ ← ensure (Bool.eqb (hb_provider_paused h) (bool_decide (hb_state h = RunProviderPaused)))
        (violation InconsistentState "providerPaused" "providerPaused must agree with the runtime state");
  _ ← ensure (zlen (hb_endpoints h) <=? 16)
        (violation OutOfRange "endpoints" "heartbeat endpoint count exceeds the protocol bound");
  _ ← ensure (unique (ec_endpoint_id <$> hb_endpoints h))
        (violation InconsistentState "endpoints" "endpoint candidate identities must be unique");
  _ ← ensure (unique (candidate_key <$> hb_endpoints h))
        (violation InconsistentState "endpoints"
           "endpoint candidates must not repeat an address for one revision");
  _ ← ensure (negb (negb (bool_decide (hb_endpoints h = []))
                    && negb (bool_decide (hb_state h = RunServing))))
        (violation InconsistentState "endpoints" "only a serving node may report endpoint candidates");
  try_for_each (fun endpoint =>
      _ ← candidate_validate endpoint;
      ensure (bool_decide (Some (ec_applied_revision endpoint) = applied_revision (hb_revisions h)))
        (violation InconsistentState "endpoints.appliedRevision"
           "endpoint candidate must match the heartbeat applied revision"))
    (hb_endpoints h).

(** ** The controller's answer to a heartbeat *)

Inductive NodeLifecycleState : Type := LcPending | LcActive.
Inductive EndpointReadiness : Type := RdPending | RdChecking | RdTcpReachable | RdTcpUnreachable | RdVerified.
(** [NodeLifecycleState::as_str], [EndpointReadiness::as_str] *)
Definition lifecycle_as_str (l : NodeLifecycleState) : string :=
  match l with LcPending => "pending" | LcActive => "active" end.
Definition readiness_as_str (r : EndpointReadiness) : string :=
  match r with
  | RdPending => "pending" | RdChecking => "checking" | RdTcpReachable => "tcpReachable"
  | RdTcpUnreachable => "tcpUnreachable" | RdVerified => "verified"
  end.

Record NodeEndpointStatus : Type := mkEndpointStatus {
  es_endpoint_id : EndpointId;
  es_readiness : EndpointReadiness;
  es_last_checked_at : option OffsetDateTime;
  es_error_code : option string;
}.
Record NodeHeartbeatStatus : Type := mkStatus {
  hs_schema_version : Z;
  hs_node_id : NodeId;
  hs_heartbeat_generation : Z;
  hs_observed_at : OffsetDateTime;
  hs_lifecycle : NodeLifecycleState;
  hs_endpoints : list NodeEndpointStatus;
  hs_signing_key_id : SigningKeyId;
  hs_controller_instance_id : ControllerInstanceId;
}.

Definition present {A} (o : option A) : bool := match o with Some _ => true | None => false end.

(** [NodeEndpointStatus::validate] *)
Definition endpoint_status_validate (e : NodeEndpointStatus) : valid_result unit :=
  let consistent :=
    match es_readiness e with
    | RdPending | RdChecking => negb (present (es_last_checked_at e)) && negb (present (es_error_code e))
    | RdTcpReachable | RdVerified => present (es_last_checked_at e) && negb (present (es_error_code e))
    | RdTcpUnreachable => present (es_last_checked_at e) && present (es_error_code e)
    end in
  _ ← ensure consistent
        (violation InconsistentState "endpoints.readiness"
           "endpoint readiness must agree with its check time and error code");
  match es_error_code e with
  | Some error_code =>
      _ ← validate_short_text error_code 128 "endpoints.errorCode";
      ensure (forallb snake_byte (as_bytes error_code))
        (violation InvalidFormat "endpoints.errorCode" "endpoint error code must use lowercase snake case")
  | None => Ok tt
  end.

(** The order of [Uuid]: its bytes, compared from the first *)
Definition uuid_lt (u v : Uuid) : bool := be_value (uuid_bytes u) <? be_value (uuid_bytes v).
(** [windows(2).all(|pair| pair[0].endpoint_id < pair[1].endpoint_id)] *)
Fixpoint sorted_by_id (l : list NodeEndpointStatus) : bool :=
  match l with
  | a :: (b :: _) as l' => uuid_lt (es_endpoint_id a) (es_endpoint_id b) && sorted_by_id l'
  | _ => true
  end.

(** [NodeHeartbeatStatus::validate_for] *)
Definition status_validate_for (s : NodeHeartbeatStatus) (node_id : NodeId) (heartbeat_generation : Z)
    (controller_instance_id : ControllerInstanceId) : valid_result unit :=
  _ ← ensure (hs_schema_version s =? 1)
        (violation UnsupportedSchema "schemaVersion" "node heartbeat status schema is unsupported");
  _ ← ensure (bool_decide (hs_node_id s = node_id) && (hs_heartbeat_generation s =? heartbeat_generation)
              && bool_decide (hs_controller_instance_id s = controller_instance_id))
        (violation IdentityMismatch "nodeId" "node heartbeat status identity binding is invalid");
  _ ← ensure (negb (hs_heartbeat_generation s =? 0))
        (violation OutOfRange "heartbeatGeneration" "node heartbeat status generation must be positive");
  _ ← ensure (zlen (hs_endpoints s) <=? 16)
        (violation OutOfRange "endpoints" "node heartbeat status has too many endpoints");
  _ ← ensure (sorted_by_id (hs_endpoints s))
        (violation InconsistentState "endpoints" "node heartbeat status endpoints must be uniquely sorted");
  try_for_each endpoint_status_validate (hs_endpoints s).

(** ** Desired state *)

Record DesiredUser : Type := mkUser {
  du_user_id : UserId;
  du_credential_id : CredentialId;
  du_vless_uuid : string;
  du_enabled : bool;
}.
Record DesiredStateDocument : Type := mkDesired {
  ds_schema_version : Z;
  ds_network_id : NetworkId;
  ds_node_id : NodeId;
  ds_revision : Z;
  ds_created_at : OffsetDateTime;
  ds_min_agent_version : string;
  ds_users : list DesiredUser;
  ds_xray : DesiredXrayState;
  ds_signing_key_id : SigningKeyId;
  ds_controller_instance_id : ControllerInstanceId;
}.
Record SignedDesiredState : Type := mkSignedDesired {
  sd_document : DesiredStateDocument;
  sd_signature : string;
}.

(** The body of the loop over [users]; the sets of the identities met *)
Definition validate_user `{UuidText} (seen : gset Uuid * gset Uuid) (u : DesiredUser)
    : valid_result (gset Uuid * gset Uuid) :=
  let '(user_ids, credential_ids) := seen in
  _ ← ensure (negb (bool_decide (du_user_id u ∈ user_ids)
                    || bool_decide (du_credential_id u ∈ credential_ids)))
        (violation DuplicateIdentity "users" "user and credential IDs must be unique within desired state");
  let canonical_uuid := match uuid_parse_str (du_vless_uuid u) with
                        | Some value => bool_decide (uuid_to_string value = du_vless_uuid u)
                        | None => false
                        end in
  _ ← ensure canonical_uuid
        (violation InvalidFormat "users.vlessUuid" "VLESS credential must be a canonical lowercase UUID");
  Ok ({[du_user_id u]} ∪ user_ids, {[du_credential_id u]} ∪ credential_ids).

(** [DesiredStateDocument::validate_for] and [SignedDesiredState::validate_for] *)
Definition desired_validate_for `{UuidText} (d : DesiredStateDocument) (expected_network_id : NetworkId)
    (expected_node_id : NodeId) (expected_controller_instance_id : ControllerInstanceId)
    (last_seen_revision : option Z) (supported_schema_versions : list Z) : valid_result unit :=
  _ ← ensure (bool_decide (ds_schema_version d ∈ supported_schema_versions))
        (violation UnsupportedSchema "schemaVersion" "desired-state schema version is not supported");
  _ ← ensure (bool_decide (ds_network_id d = expected_network_id))
        (violation IdentityMismatch "networkId" "desired state is addressed to another network");
  _ ← ensure (bool_decide (ds_node_id d = expected_node_id))
        (violation IdentityMismatch "nodeId" "desired state is addressed to another node");
  _ ← ensure (bool_decide (ds_controller_instance_id d = expected_controller_instance_id))
        (violation IdentityMismatch "controllerInstanceId"
           "desired state belongs to another controller epoch");
  _ ← ensure (negb match last_seen_revision with
                   | Some last => ds_revision d <=? last
                   | None => false
                   end)
        (violation StaleState "revision" "desired-state revision is not newer than local state");
  _ ← validate_short_text (ds_min_agent_version d) 64 "minAgentVersion";
  _ ← ensure (zlen (ds_users d) <=? 10000)
        (violation OutOfRange "users" "desired-state user count exceeds the protocol bound");
  _ ← try_fold validate_user (∅, ∅) (ds_users d);
  xray_validate (ds_xray d) (ds_schema_version d).
Definition signed_validate_for `{UuidText} (s : SignedDesiredState) (network_id : NetworkId)
    (node_id : NodeId) (controller : ControllerInstanceId) (last_seen : option Z) (supported : list Z)
    : valid_result unit :=
  desired_validate_for (sd_document s) network_id node_id controller last_seen supported.

(** ** Revision results *)

Inductive RevisionResultState : Type := RsReceived | RsValidated | RsApplied | RsRejected | RsRolledBack.
#[export] Instance RevisionResultState_eq_dec : EqDecision RevisionResultState.
Proof. solve_decision. Defined.
(** [RevisionResultState::rank], [is_terminal] *)
Definition rank (s : RevisionResultState) : Z :=
  match s with RsReceived => 10 | RsValidated => 20 | RsApplied | RsRejected | RsRolledBack => 30 end.
Definition is_terminal (s : RevisionResultState) : bool :=
  match s with RsApplied | RsRejected | RsRolledBack => true | _ => false end.

Record RevisionResult : Type := mkResult {
  rr_state : RevisionResultState;
  rr_config_digest : option string;
  rr_started_at : OffsetDateTime;
  rr_completed_at : OffsetDateTime;
  rr_error_code : option ApiErrorCode;
  rr_rollback_revision : option Z;
}.
#[export] Instance RevisionResult_eq_dec : EqDecision RevisionResult.
Proof. solve_decision. Defined.

(** [require_present], [require_absent] *)
Definition require_present {A} (value : option A) (field : string) : valid_result unit :=
  ensure (present value) (violation MissingField field "field is required for this revision result state").
Definition require_absent {A} (value : option A) (field : string) : valid_result unit :=
  ensure (negb (present value))
    (violation InconsistentState field "field is not permitted for this revision result state").

(** [RevisionResult::validate] *)
Definition result_validate (r : RevisionResult) (revision : Z) : valid_result unit :=
  _ ← ensure (negb (time_lt (rr_completed_at r) (rr_started_at r)))
        (violation InconsistentState "completedAt" "completion cannot precede start");
  match rr_state r with
  | RsReceived =>
      _ ← require_absent (rr_config_digest r) "configDigest";
      _ ← require_absent (rr_error_code r) "errorCode";
      require_absent (rr_rollback_revision r) "rollbackRevision"
  | RsValidated | RsApplied =>
      _ ← require_present (rr_config_digest r) "configDigest";
      _ ← require_absent (rr_error_code r) "errorCode";
      require_absent (rr_rollback_revision r) "rollbackRevision"
  | RsRejected =>
      _ ← require_present (rr_error_code r) "errorCode";
      require_absent (rr_rollback_revision r) "rollbackRevision"
  | RsRolledBack =>
      _ ← require_present (rr_config_digest r) "configDigest";
      _ ← require_present (rr_error_code r) "errorCode";
      rollback ← ok_or (rr_rollback_revision r)
        (violation MissingField "rollbackRevision" "rolled-back state requires the restored revision");
      ensure (negb (revision <=? rollback))
        (violation InconsistentState "rollbackRevision" "rollback revision must precede the failed revision")
  end.

(** [RevisionResult::validate_transition_from] *)
Definition validate_transition_from (r : RevisionResult) (previous : option RevisionResult)
    : valid_result unit :=
  match previous with
  | None => Ok tt
  | Some previous =>
      if bool_decide (r = previous) then Ok tt
      else if bool_decide (rr_state r = rr_state previous) || is_terminal (rr_state previous)
              || (rank (rr_state r) <=? rank (rr_state previous))
      then Err (violation InvalidTransition "state"
                  "revision result transition must move monotonically to a new state")
      else Ok tt
  end.

(** ** Operator rollbacks *)

Inductive OperatorRollbackReason : Type :=
| ConfigurationFailure | CompatibilityFailure | FleetRecovery | OtherReason.
Record OperatorRollbackTarget : Type := mkTarget {
  ot_node_id : NodeId;
  ot_source_revision : Z;
  ot_failed_revision : Z;
}.
Record OperatorNodeRollbackRequest : Type := mkNodeRollback {
  on_source_revision : Z;
  on_failed_revision : Z;
  on_reason : OperatorRollbackReason;
}.
Record OperatorCohortRollbackRequest : Type := mkCohort {
  oc_targets : list OperatorRollbackTarget;
  oc_reason : OperatorRollbackReason;
}.

(** [OperatorRollbackTarget::validate], [OperatorNodeRollbackRequest::validate],
    [OperatorCohortRollbackRequest::validate] *)
Definition precedes (source failed : Z) (field : string) : valid_result unit :=
  ensure (negb (failed <=? source))
    (violation InconsistentState field "rollback source revision must precede the failed revision").
Definition target_validate (t : OperatorRollbackTarget) (field : string) : valid_result unit :=
  precedes (ot_source_revision t) (ot_failed_revision t) field.
Definition node_rollback_validate (r : OperatorNodeRollbackRequest) : valid_result unit :=
  precedes (on_source_revision r) (on_failed_revision r) "sourceRevision".
Definition cohort_target (nodes : gset Uuid) (t : OperatorRollbackTarget) : valid_result (gset Uuid) :=
  _ ← target_validate t "targets.sourceRevision";
  _ ← ensure (negb (bool_decide (ot_node_id t ∈ nodes)))
        (violation DuplicateIdentity "targets.nodeId" "rollback cohort node IDs must be unique");
  Ok ({[ot_node_id t]} ∪ nodes).
Definition cohort_validate (r : OperatorCohortRollbackRequest) : valid_result unit :=
  _ ← ensure (negb (bool_decide (oc_targets r = []) || (100 <? zlen (oc_targets r))))
        (violation OutOfRange "targets" "rollback cohort must contain between 1 and 100 nodes");
  _ ← try_fold cohort_target ∅ (oc_targets r);
  Ok tt.
