(* ===== verification/ProtoNodeFacts.v ===== *)
(** * Node documents: what their validation guarantees

    Theorems about [ProtoNode]: setup codes round-trip, accepted desired state
    is exactly the state its specification describes, a revision's reported
    results move forward once, and error codes survive the wire. *)
From S2P Require Import Prelude Text Clock ProtoTypes ProtoInstances ProtoNode.

(** ** Error codes *)

Lemma find_arm_Some code arm :
  List.find (fun arm => bool_decide (arm.1 = code)) wire_arms = Some arm -> arm.1 = code /\ arm ∈ wire_arms.
Proof.
  intros H. apply find_some in H as [Hin H%bool_decide_eq_true].
  split; [done|]. by apply list_elem_of_In.
Qed.

Lemma arms_agree : Forall (fun arm => api_as_str arm.2 = arm.1) wire_arms.
Proof. repeat constructor. Qed.

(** Error codes survive the wire: every code a newer peer sends is kept as
    it was written, and every code this version knows is read back as itself. *)
Theorem error_codes_survive (text : string) (c : ApiErrorCode) :
  api_as_str (api_from_wire text) = text /\
  (api_from_wire (api_as_str c) = c \/
   exists code, c = Unknown code /\ api_from_wire code <> Unknown code).
Proof.
  split.
  - unfold api_from_wire. destruct (List.find _ _) as [arm|] eqn:E; [|done].
    apply find_arm_Some in E as [<- Hin]. pose proof arms_agree as Ha. rewrite Forall_forall in Ha.
    by apply Ha.
  - destruct c as [| | | | | | | | | | | | | | | | | | | | | | | | | | | | | | | | | | |code];
      try (left; reflexivity).
    cbn [api_as_str]. destruct (decide (api_from_wire code = Unknown code)); [by left|].
    right. by exists code.
Qed.

(** ** Setup codes *)

Lemma validate_display_field name f g :
  validate_display_name name f = Ok tt -> validate_display_name name g = Ok tt.
Proof. unfold validate_display_name, validate_short_text. by validates. Qed.

Section SetupCodes.
Context `{BL : Base64Laws}.
Variable to_vec : NodeSetupCodePayload -> option (list byte).
Variable from_slice : list byte -> option NodeSetupCodePayload.
(** [serde_json] writes a JSON object and reads it back. *)
Hypothesis to_vec_from_slice : forall p json, to_vec p = Some json -> json <> [] /\ from_slice json = Some p.

(** A setup code is decoded to the name and the invitation it was made from,
    for every invitation the controller can encode. *)
Theorem setup_code_roundtrip (name : string) (i : CreateNodeInvitationResponse) (code : string) :
  encode_node_setup_code to_vec name i = Ok code ->
  decode_node_setup_code from_slice code = Ok (mkSetup name i).
Proof.
  unfold encode_node_setup_code, decode_node_setup_code. intros E. inv_ok.
  match goal with H : to_vec _ = Some ?j |- _ => apply to_vec_from_slice in H as [Hne Hf]; rename j into json end.
  match goal with H : (_ <=? _) = true |- _ => rewrite H; rsimpl end.
  assert (as_bytes (String.append NODE_SETUP_CODE_PREFIX (base64_encode json))
    = as_bytes NODE_SETUP_CODE_PREFIX ++ as_bytes (base64_encode json)) as -> by done.
  rewrite (proj2 (strip_prefix_Some _ _ _) eq_refl). rsimpl.
  rewrite str_of_as_bytes, base64_decode_encode.
  assert (as_bytes (base64_encode json) <> []) as Henc.
  { intros Hz. apply (f_equal zlen) in Hz. change (str_len (base64_encode json) = 0) in Hz.
    rewrite base64_length in Hz. destruct json; [done|]. unfold zlen in Hz. simpl in Hz.
    Z.div_mod_to_equations; lia. }
  rewrite bool_decide_eq_false_2 by done.
  rewrite base64_not_in by (intros b; by destruct b). cbn [orb negb]. rsimpl.
  rewrite bool_decide_eq_true_2 by done. rsimpl. rewrite Hf. rsimpl. cbn [sp_schema_version].
  rewrite Z.eqb_refl. rsimpl. cbn [sp_display_name sp_invitation].
  match goal with H : validate_display_name _ _ = _ |- _ =>
    rewrite (validate_display_field _ _ "setupCode.displayName" H); rsimpl end.
  match goal with H : validate_node_setup_invitation _ = _ |- _ => rewrite H; rsimpl end. done.
Qed.
End SetupCodes.

Definition sample_invitation : CreateNodeInvitationResponse :=
  mkInvitation (mkUuid (replicate 16 x01)) NodeEnrollment (mkTime 0 0) (base64_encode (replicate 32 x05))
    "https://controller.example" (digest_from_bytes (replicate 32 x02)).
Definition sample_payload : NodeSetupCodePayload := mkSetupPayload 1 "kitchen" sample_invitation.
#[local] Instance CreateNodeInvitationResponse_eq_dec : EqDecision CreateNodeInvitationResponse.
Proof. solve_decision. Defined.
#[local] Instance NodeSetupCodePayload_eq_dec : EqDecision NodeSetupCodePayload.
Proof. solve_decision. Defined.

Lemma setup_code_roundtrip_witness :
  exists code, decode_node_setup_code (fun _ => Some sample_payload) code
    = Ok (mkSetup "kitchen" sample_invitation).
Proof.
  eexists. refine (setup_code_roundtrip
    (fun p => if decide (p = sample_payload) then Some [x7b; x7d] else None)
    (fun _ => Some sample_payload) _ "kitchen" sample_invitation _ eq_refl).
  intros p json Hp. destruct (decide (p = sample_payload)) as [->|]; [|done]. by injection Hp as <-.
Defined.

(** ** Revision results *)

(** The controller keeps the last accepted result of a revision. *)
Fixpoint accept_results (previous : option RevisionResult) (reports : list RevisionResult)
    : valid_result (option RevisionResult) :=
  match reports with
  | [] => Ok previous
  | r :: reports' => _ ← validate_transition_from r previous; accept_results (Some r) reports'
  end.

(** [later] may follow [earlier], whatever lies between them. *)
Definition follows (earlier later : RevisionResult) : Prop :=
  later = earlier \/
  (rank (rr_state earlier) < rank (rr_state later) /\ is_terminal (rr_state earlier) = false).

Lemma transition_follows r p : validate_transition_from r (Some p) = Ok tt -> follows p r.
Proof.
  unfold validate_transition_from, follows. case_bool_decide; [by left|].
  destruct (_ || _ || _) eqn:E; [done|]. intros _. right. bool_props. done.
Qed.

#[export] Instance follows_trans : Transitive follows.
Proof.
  intros a b c Hab Hbc. destruct Hab as [->|[Hab Ta]]; [done|].
  destruct Hbc as [->|[Hbc Tb]]; right; [done|]. split; [lia|done].
Qed.

Lemma accepted_follow p reports last :
  accept_results (Some p) reports = Ok last ->
  Forall (follows p) reports /\ exists l, last = Some l /\ follows p l.
Proof.
  revert p. induction reports as [|r reports IH]; intros p E.
  { injection E as <-. split; [done|]. exists p. split; [done|by left]. }
  cbn [accept_results] in E. apply bind_unit_Ok in E as [Hr E]. apply transition_follows in Hr.
  apply IH in E as [F (l & -> & Hl)]. split; [|exists l; split; [done|by etrans]].
  constructor; [done|]. eapply Forall_impl; [exact F|]. intros x Hx. by etrans.
Qed.

(** The results reported for a revision only move forward: of any two accepted
    reports the later one is a repetition of the earlier or has a strictly
    higher rank, and after a terminal result nothing but that result is
    accepted. *)
Theorem revision_results_monotone (reports : list RevisionResult) (last : option RevisionResult) :
  accept_results None reports = Ok last ->
  (forall i j earlier later, (i < j)%nat -> reports !! i = Some earlier -> reports !! j = Some later ->
     follows earlier later) /\
  (forall i r, reports !! i = Some r -> is_terminal (rr_state r) = true -> last = Some r).
Proof.
  assert (forall reports p, accept_results p reports = Ok last ->
    forall i r, reports !! i = Some r -> Forall (follows r) (drop (S i) reports) /\
      exists l, last = Some l /\ follows r l) as Hgen.
  { clear reports. induction reports as [|x reports IH]; intros p E i r Hi; [done|].
    cbn [accept_results] in E. apply bind_unit_Ok in E as [_ E].
    destruct i as [|i]; [injection Hi as ->; by apply accepted_follow in E|]. by eapply IH. }
  intros E. split.
  - intros i j a b Hij Ha Hb. destruct (Hgen _ _ E _ _ Ha) as [F _].
    rewrite Forall_forall in F. apply F. apply (list_elem_of_lookup_2 _ (j - S i)).
    rewrite lookup_drop. by replace (S i + (j - S i))%nat with j by lia.
  - intros i r Hr Ht. destruct (Hgen _ _ E _ _ Hr) as (_ & l & -> & [->|[_ Hf]]); [done|congruence].
Qed.

Lemma revision_results_monotone_witness :
  let r s d := mkResult s d (mkTime 0 0) (mkTime 1 0) None None in
  exists reports last, reports = [r RsReceived None; r RsReceived None; r RsApplied (Some EmptyString)] /\
    last = Some (r RsApplied (Some EmptyString)).
Proof.
  intros r. exists [r RsReceived None; r RsReceived None; r RsApplied (Some EmptyString)].
  eexists. split; [done|].
  refine (proj2 (revision_results_monotone [r RsReceived None; r RsReceived None; r RsApplied (Some EmptyString)]
    (Some (r RsApplied (Some EmptyString))) _) 2%nat (r RsApplied (Some EmptyString)) _ _); reflexivity.
Defined.

(** ** Desired state *)

(** A non-empty text of at most [n] bytes without control characters *)
Definition text_ok (s : string) (n : Z) : Prop :=
  s <> EmptyString /\ str_len s <= n /\ existsb is_control (chars (as_bytes s)) = false.

Lemma short_text_exact s n f : validate_short_text s n f = Ok tt <-> text_ok s n.
Proof. unfold validate_short_text, text_ok. by validates. Qed.

Definition ports_ok (x : DesiredXrayState) (schema_version : Z) : Prop :=
  (schema_version = 1 /\ xray_public_port x = None) \/
  (schema_version = 2 /\ exists p, xray_public_port x = Some p /\ p <> 0 /\
     1024 <= listen_port x /\ p <> listen_port x).
Definition xray_ok (x : DesiredXrayState) (schema_version : Z) : Prop :=
  listen_port x <> 0 /\ ports_ok x schema_version /\
  server_names x <> [] /\ zlen (server_names x) <= 16 /\ Forall (fun s => text_ok s 253) (server_names x) /\
  text_ok (target x) 259 /\ ":"%byte ∈ as_bytes (target x) /\
  contains ["/"%byte; "/"%byte] (as_bytes (target x)) = false.

Lemma ports_exact x v : xray_ports_validate x v = Ok tt <-> ports_ok x v.
Proof.
  unfold xray_ports_validate, ports_ok.
  destruct (Z.eqb_spec v 1) as [->|H1]; [|destruct (Z.eqb_spec v 2) as [->|H2]].
  - validates. rewrite eq_None_not_Some. naive_solver lia.
  - destruct (xray_public_port x) as [p|]; cbn [ok_or]; rsimpl; [validates|]; naive_solver lia.
  - naive_solver lia.
Qed.

Lemma xray_exact x v : xray_validate x v = Ok tt <-> xray_ok x v.
Proof.
  unfold xray_validate, xray_ok, contains_byte. validates. rewrite ports_exact, short_text_exact.
  rewrite (Forall_iff _ _ _ (fun s => short_text_exact s 253 _)).
  naive_solver.
Qed.

Section Desired.
Context `{UL : UuidTextLaws}.

Definition canonical_credential (u : DesiredUser) : Prop :=
  exists v, is_uuid v /\ du_vless_uuid u = uuid_to_string v.
Definition users_ok (users : list DesiredUser) : Prop :=
  NoDup (du_user_id <$> users) /\ NoDup (du_credential_id <$> users) /\
  Forall canonical_credential users.

Lemma user_exact ids creds u s :
  validate_user (ids, creds) u = Ok s <->
  (du_user_id u ∉ ids) /\ (du_credential_id u ∉ creds) /\ canonical_credential u /\
  s = ({[du_user_id u]} ∪ ids, {[du_credential_id u]} ∪ creds).
Proof.
  unfold validate_user, canonical_credential. validates.
  assert (match uuid_parse_str (du_vless_uuid u) with
          | Some value => bool_decide (uuid_to_string value = du_vless_uuid u)
          | None => false end = true <->
    exists v, is_uuid v /\ du_vless_uuid u = uuid_to_string v) as ->; [|naive_solver].
  split.
  - destruct (uuid_parse_str _) as [v|] eqn:E; [|done]. intros Hv%bool_decide_eq_true.
    eauto using uuid_parse_16.
  - intros (v & Hv & ->). rewrite uuid_parse_display by done. by apply bool_decide_eq_true.
Qed.

Lemma users_fold ids creds users s :
  try_fold validate_user (ids, creds) users = Ok s ->
  users_ok users /\ Forall (fun u => (du_user_id u ∉ ids) /\ (du_credential_id u ∉ creds)) users.
Proof.
  revert ids creds. induction users as [|u users IH]; intros ids creds E.
  { split; [|done]. split_and!; constructor. }
  cbn [try_fold] in E. apply bind_Ok in E as (s' & Hu & E).
  apply user_exact in Hu as (Hi & Hc & Hv & ->). apply IH in E as [(N1 & N2 & F) D].
  rewrite Forall_forall in D. unfold users_ok. rewrite !fmap_cons, !NoDup_cons, !Forall_cons.
  split_and!; try done.
  - intros (v & Ev & Hin)%list_elem_of_fmap. apply D in Hin as [Hn _]. rewrite Ev in Hn. set_solver.
  - intros (v & Ev & Hin)%list_elem_of_fmap. apply D in Hin as [_ Hn]. rewrite Ev in Hn. set_solver.
  - apply Forall_forall. intros v Hin. apply D in Hin. set_solver.
Qed.

Lemma users_accepted ids creds users :
  users_ok users -> Forall (fun u => (du_user_id u ∉ ids) /\ (du_credential_id u ∉ creds)) users ->
  exists s, try_fold validate_user (ids, creds) users = Ok s.
Proof.
  revert ids creds. induction users as [|u users IH]; intros ids creds (N1 & N2 & F) D; [by eexists|].
  rewrite fmap_cons, NoDup_cons in N1, N2. destruct N1 as [I1 N1], N2 as [I2 N2].
  apply Forall_cons in F as [F1 F], D as [[D1 D2] D]. cbn [try_fold].
  rewrite (proj2 (user_exact ids creds u _)) by eauto. rsimpl. apply IH; [done|].
  rewrite Forall_forall in D |- *. intros v Hv. destruct (D v Hv) as [Ha Hb].
  split; intros [Hx%elem_of_singleton|Hx]%elem_of_union; try done.
  - apply I1. rewrite <- Hx. by apply list_elem_of_fmap_2.
  - apply I2. rewrite <- Hx. by apply list_elem_of_fmap_2.
Qed.
End Desired.

(** The documents a node accepts *)
Definition desired_ok `{UuidText} (d : DesiredStateDocument) (network_id : NetworkId) (node_id : NodeId)
    (controller : ControllerInstanceId) (last_seen : option Z) (supported : list Z) : Prop :=
  ds_schema_version d ∈ supported /\
  ds_network_id d = network_id /\ ds_node_id d = node_id /\ ds_controller_instance_id d = controller /\
  (forall last, last_seen = Some last -> last < ds_revision d) /\
  text_ok (ds_min_agent_version d) 64 /\
  zlen (ds_users d) <= 10000 /\ users_ok (ds_users d) /\
  xray_ok (ds_xray d) (ds_schema_version d).

(** Validation of desired state is exact: a document is accepted if and only
    if it names this network, node and controller epoch, is newer than what
    the node has, has unique users with canonical credentials, and has ports,
    names and a target in range for its schema. *)
Theorem desired_state_exact `{UL : UuidTextLaws} (d : DesiredStateDocument) (network_id : NetworkId)
    (node_id : NodeId) (controller : ControllerInstanceId) (last_seen : option Z) (supported : list Z) :
  desired_validate_for d network_id node_id controller last_seen supported = Ok tt <->
  desired_ok d network_id node_id controller last_seen supported.
Proof.
  unfold desired_validate_for, desired_ok. validates.
  rewrite short_text_exact, bind_Ok.
  assert (match last_seen with Some last => ds_revision d <=? last | None => false end = false <->
    forall last, last_seen = Some last -> last < ds_revision d) as ->.
  { destruct last_seen; [validates|]; naive_solver. }
  assert ((exists s, try_fold validate_user (∅, ∅) (ds_users d) = Ok s /\
    xray_validate (ds_xray d) (ds_schema_version d) = Ok tt) <->
    users_ok (ds_users d) /\ xray_ok (ds_xray d) (ds_schema_version d)) as ->; [|tauto].
  rewrite <- xray_exact. split.
  - intros (s & E & Hx). by apply users_fold in E as [? _].
  - intros [Hu Hx]. destruct (users_accepted ∅ ∅ _ Hu) as [s E]; [|by exists s].
    apply Forall_true. intros u. split; apply not_elem_of_empty.
Qed.

Definition sample_uuid (n : Z) : Uuid := mkUuid (be_bytes 16 n).
Definition sample_desired : DesiredStateDocument :=
  mkDesired 2 (sample_uuid 1) (sample_uuid 2) 7 (mkTime 0 0) "0.1.0"
    [mkUser (sample_uuid 3) (sample_uuid 4) (uuid_to_string (sample_uuid 5)) true]
    (mkXray 10443 (Some 443) ["www.example.com"%string] "www.example.com:443") (sample_uuid 6) (sample_uuid 8).

Lemma desired_state_exact_witness :
  desired_ok sample_desired (sample_uuid 1) (sample_uuid 2) (sample_uuid 8) (Some 6) [1; 2].
Proof.
  refine (proj1 (desired_state_exact sample_desired (sample_uuid 1) (sample_uuid 2) (sample_uuid 8)
    (Some 6) [1; 2]) _).
  vm_compute. reflexivity.
Defined.
