(* ===== verification/ProtoTelemetry.v ===== *)
(** * Telemetry batches and external probes

    [src/crates/control-protocol/src/telemetry.rs] and [probe.rs]: ordered
    telemetry uploads with their acknowledgements and aggregates, and the
    request and response of the external TCP preflight. *)
From S2P Require Import Prelude Text Clock ProtoTypes ProtoInstances ProtoNode.

(** ** Telemetry *)

Definition MAX_TELEMETRY_BATCH_EVENTS : Z := 1000.

Inductive NetworkProtocol : Type := Tcp | Udp.
Inductive QuotaStatus : Type := QsNormal | QsNearingLimit | QsExceeded.
Inductive TelemetryEventKind : Type :=
| TrafficDelta (user_id : UserId) (bytes_up bytes_down connection_count : Z)
| Connection (user_id : UserId) (protocol : NetworkProtocol) (destination_host : string)
    (destination_port : Z) (client_identifier : option string)
| CollectionStatus (code : string) (recovered : bool)
| QuotaState (user_id : UserId) (status : QuotaStatus) (remaining_bytes : option Z).

(** [validate_text] of telemetry.rs, the same as [validate_short_text] *)
Definition telemetry_text (value : string) (maximum_length : Z) (field : string) : valid_result unit :=
  _ ← ensure (negb (bool_decide (value = EmptyString))) (violation MissingField field "value is required");
  ensure (negb ((maximum_length <? str_len value) || existsb is_control (chars (as_bytes value))))
    (violation OutOfRange field "value exceeds its length or character bound").

(** [TelemetryEventKind::validate] *)
Definition event_kind_validate (k : TelemetryEventKind) : valid_result unit :=
  match k with
  | Connection _ _ destination_host destination_port client_identifier =>
      let host := as_bytes destination_host in
      _ ← telemetry_text destination_host 253 "events.destinationHost";
      _ ← ensure (negb (contains_byte "/"%byte host || contains_byte "?"%byte host
                        || contains_byte "#"%byte host || existsb is_whitespace (chars host)))
            (violation InvalidFormat "events.destinationHost"
               "connection telemetry may contain a host only, never a full URL");
      _ ← ensure (negb (destination_port =? 0))
            (violation OutOfRange "events.destinationPort" "destination port must be non-zero");
      match client_identifier with
      | Some identifier => telemetry_text identifier 128 "events.clientIdentifier"
      | None => Ok tt
      end
  | CollectionStatus code _ =>
      _ ← telemetry_text code 64 "events.code";
      ensure (forallb snake_byte (as_bytes code))
        (violation InvalidFormat "events.code" "collection status code must use lowercase snake case")
  | TrafficDelta _ _ _ _ | QuotaState _ _ _ => Ok tt
  end.

Record TelemetryEvent : Type := mkEvent {
  ev_sequence : Z;
  ev_occurred_at : OffsetDateTime;
  ev_kind : TelemetryEventKind;
}.
Record TelemetryBatch : Type := mkBatch {
  tb_schema_version : Z;
  tb_node_id : NodeId;
  tb_first_sequence : Z;
  tb_last_sequence : Z;
  tb_events : list TelemetryEvent;
}.

(** The loop over the events: [expected] advances after all but the last *)
Fixpoint validate_events (expected : Z) (events : list TelemetryEvent) : valid_result unit :=
  match events with
  | [] => Ok tt
  | event :: rest =>
      _ ← ensure (ev_sequence event =? expected)
            (violation SequenceGap "events.sequence" "telemetry events must be ordered and contiguous");
      _ ← event_kind_validate (ev_kind event);
      match rest with
      | [] => Ok tt
      | _ =>
          expected' ← ok_or (checked_next expected)
            (violation OutOfRange "events.sequence" "telemetry sequence overflowed the protocol range");
          validate_events expected' rest
      end
  end.

(** [TelemetryBatch::validate] *)
Definition batch_validate (b : TelemetryBatch) (supported_schema_versions : list Z) : valid_result unit :=
  _ ← ensure (bool_decide (tb_schema_version b ∈ supported_schema_versions))
        (violation UnsupportedSchema "schemaVersion" "telemetry schema version is not supported");
  _ ← ensure (negb (bool_decide (tb_events b = []) || (MAX_TELEMETRY_BATCH_EVENTS <? zlen (tb_events b))))
        (violation OutOfRange "events" "telemetry batch must contain between 1 and 1000 events");
  _ ← ensure (negb (tb_first_sequence b =? 0))
        (violation OutOfRange "firstSequence" "telemetry event sequences begin at one");
  _ ← ensure (bool_decide (ev_sequence <$> head (tb_events b) = Some (tb_first_sequence b))
              && bool_decide (ev_sequence <$> last (tb_events b) = Some (tb_last_sequence b)))
        (violation SequenceGap "firstSequence" "batch sequence bounds must match the first and last events");
  validate_events (tb_first_sequence b) (tb_events b).

Record TelemetryBatchAcknowledgement : Type := mkAck {
  ack_acknowledged_sequence : Z;
  ack_expected_sequence : Z;
}.
(** [TelemetryBatchAcknowledgement::validate] and [TelemetryCursor::validate] *)
Definition ack_validate (a : TelemetryBatchAcknowledgement) : valid_result unit :=
  ensure (bool_decide (checked_next (ack_acknowledged_sequence a) = Some (ack_expected_sequence a)))
    (violation SequenceGap "expectedSequence"
       "expected sequence must immediately follow the durable acknowledgement").
Record TelemetryCursor : Type := mkCursor {
  cu_acknowledged_sequence : Z;
  cu_expected_sequence : Z;
}.
Definition cursor_validate (c : TelemetryCursor) : valid_result unit :=
  ack_validate (mkAck (cu_acknowledged_sequence c) (cu_expected_sequence c)).

Record TrafficAggregate : Type := mkAggregate {
  ta_user_id : UserId;
  ta_node_id : NodeId;
  ta_bucket_start : Z;
  ta_bucket_seconds : Z;
  ta_bytes_up : Z;
  ta_bytes_down : Z;
  ta_connection_count : Z;
}.
(** [TrafficAggregate::validate]; Rust's [%] truncates, which [Z.rem] does *)
Definition aggregate_validate (a : TrafficAggregate) : valid_result unit :=
  ensure (negb (negb ((ta_bucket_seconds a =? 3600) || (ta_bucket_seconds a =? 86400))
                || (ta_bucket_start a <? 0)
                || negb (Z.rem (ta_bucket_start a) (ta_bucket_seconds a) =? 0)))
    (violation OutOfRange "bucketStart" "traffic aggregate bucket is invalid").

(** ** External TCP preflight *)

Definition TCP_PROBE_EXECUTOR_SCHEMA_VERSION : Z := 1.
Definition MAX_TCP_PROBE_TARGETS : Z := 6.
Definition MIN_TCP_PROBE_TIMEOUT_MILLIS : Z := 100.
Definition MAX_TCP_PROBE_TIMEOUT_MILLIS : Z := 10000.
Definition MAX_REPORTED_LATENCY_SLOP_MILLIS : Z := 1000.

Record Ipv4Addr : Type := mkIpv4 { oct0 : Z; oct1 : Z; oct2 : Z; oct3 : Z }.
#[export] Instance Ipv4Addr_eq_dec : EqDecision Ipv4Addr.
Proof. solve_decision. Defined.

(** The predicates of [std::net::Ipv4Addr] *)
Definition v4_between (lo x hi : Z) : bool := (lo <=? x) && (x <=? hi).
Definition v4_is_private (a : Ipv4Addr) : bool :=
  (oct0 a =? 10) || ((oct0 a =? 172) && v4_between 16 (oct1 a) 31) || ((oct0 a =? 192) && (oct1 a =? 168)).
Definition v4_is_loopback (a : Ipv4Addr) : bool := oct0 a =? 127.
Definition v4_is_link_local (a : Ipv4Addr) : bool := (oct0 a =? 169) && (oct1 a =? 254).
Definition v4_is_unspecified (a : Ipv4Addr) : bool :=
  (oct0 a =? 0) && (oct1 a =? 0) && (oct2 a =? 0) && (oct3 a =? 0).
Definition v4_is_multicast (a : Ipv4Addr) : bool := v4_between 224 (oct0 a) 239.
Definition v4_is_broadcast (a : Ipv4Addr) : bool :=
  (oct0 a =? 255) && (oct1 a =? 255) && (oct2 a =? 255) && (oct3 a =? 255).
Definition v4_is_documentation (a : Ipv4Addr) : bool :=
  ((oct0 a =? 192) && (oct1 a =? 0) && (oct2 a =? 2))
  || ((oct0 a =? 198) && (oct1 a =? 51) && (oct2 a =? 100))
  || ((oct0 a =? 203) && (oct1 a =? 0) && (oct2 a =? 113)).

(** [is_public_probe_ipv4] *)
Definition is_public_probe_ipv4 (a : Ipv4Addr) : bool :=
  negb (v4_is_private a) && negb (v4_is_loopback a) && negb (v4_is_link_local a)
  && negb (v4_is_unspecified a) && negb (v4_is_multicast a) && negb (v4_is_broadcast a)
  && negb (v4_is_documentation a)
  && negb ((oct0 a =? 100) && v4_between 64 (oct1 a) 127)
  && negb ((oct0 a =? 192) && (oct1 a =? 0) && (oct2 a =? 0))
  && negb ((oct0 a =? 198) && ((oct1 a =? 18) || (oct1 a =? 19)))
  && negb (oct0 a =? 0) && (oct0 a <? 240).

Record TcpProbeExecutorRequest : Type := mkProbeRequest {
  pq_schema_version : Z;
  pq_request_id : Uuid;
  pq_targets : list Ipv4Addr;
  pq_port : Z;
  pq_timeout_millis : Z;
}.
(** [TcpProbeExecutorRequest::validate] *)
Definition probe_request_validate (r : TcpProbeExecutorRequest) : valid_result unit :=
  _ ← ensure (pq_schema_version r =? TCP_PROBE_EXECUTOR_SCHEMA_VERSION)
        (violation UnsupportedSchema "schemaVersion" "TCP probe executor schema is not supported");
  _ ← ensure (negb (bool_decide (pq_targets r = []) || (MAX_TCP_PROBE_TARGETS <? zlen (pq_targets r))))
        (violation OutOfRange "targets" "TCP probe targets must contain between one and six addresses");
  _ ← ensure (negb (existsb (fun target => negb (is_public_probe_ipv4 target)) (pq_targets r)))
        (violation InvalidFormat "targets" "TCP probe targets must be globally publishable IPv4 addresses");
  _ ← ensure (unique (pq_targets r))
        (violation DuplicateIdentity "targets" "TCP probe targets must be unique");
  _ ← ensure (negb ((pq_port r =? 0) || (pq_port r =? 25)))
        (violation OutOfRange "port" "TCP probe port must be non-zero and supported by the executor");
  ensure ((MIN_TCP_PROBE_TIMEOUT_MILLIS <=? pq_timeout_millis r)
          && (pq_timeout_millis r <=? MAX_TCP_PROBE_TIMEOUT_MILLIS))
    (violation OutOfRange "timeoutMillis" "TCP probe timeout is outside the supported range").

Inductive TcpProbeExecutorResult : Type :=
| PrConnected (resolved_address : Ipv4Addr) (latency_millis : Z)
| PrUnreachable (latency_millis : Z)
| PrTimedOut (latency_millis : Z)
| PrExecutorFailed.
Record TcpProbeExecutorResponse : Type := mkProbeResponse {
  ps_schema_version : Z;
  ps_request_id : Uuid;
  ps_result : TcpProbeExecutorResult;
}.
Definition result_latency (r : TcpProbeExecutorResult) : option Z :=
  match r with
  | PrConnected _ latency | PrUnreachable latency | PrTimedOut latency => Some latency
  | PrExecutorFailed => None
  end.
(** [TcpProbeExecutorResponse::validate_for] *)
Definition probe_response_validate_for (s : TcpProbeExecutorResponse) (request : TcpProbeExecutorRequest)
    : valid_result unit :=
  _ ← probe_request_validate request;
  _ ← ensure (ps_schema_version s =? TCP_PROBE_EXECUTOR_SCHEMA_VERSION)
        (violation UnsupportedSchema "schemaVersion" "TCP probe executor response schema is not supported");
  _ ← ensure (bool_decide (ps_request_id s = pq_request_id request))
        (violation IdentityMismatch "requestId" "TCP probe executor response belongs to another request");
  _ ← match ps_result s with
      | PrConnected resolved_address _ =>
          ensure (bool_decide (resolved_address ∈ pq_targets request))
            (violation IdentityMismatch "result.resolvedAddress"
               "TCP probe executor connected to an unrequested address")
      | _ => Ok tt
      end;
  ensure (negb match result_latency (ps_result s) with
               | Some latency =>
                   saturating_add u32_max (pq_timeout_millis request) MAX_REPORTED_LATENCY_SLOP_MILLIS
                     <? latency
               | None => false
               end)
    (violation OutOfRange "result.latencyMillis"
       "TCP probe executor latency exceeds the request deadline allowance").

(** ** What an accepted batch is *)

Lemma checked_next_Some n m : checked_next n = Some m <-> m = n + 1 /\ n + 1 <= i64_max.
Proof. unfold checked_next, checked_add. destruct (Z.leb_spec (n + 1) i64_max); naive_solver lia. Qed.

(** The events are numbered [first], [first + 1], ... *)
Definition numbered (first : Z) (events : list TelemetryEvent) : Prop :=
  forall i e, events !! i = Some e ->
    ev_sequence e = first + Z.of_nat i /\ event_kind_validate (ev_kind e) = Ok tt.

Lemma numbered_cons first e events :
  numbered first (e :: events) <->
  ev_sequence e = first /\ event_kind_validate (ev_kind e) = Ok tt /\ numbered (first + 1) events.
Proof.
  unfold numbered. split.
  - intros Hn. destruct (Hn 0%nat e eq_refl) as [He Hk]. split_and!; [lia|done|].
    intros i e' Hi. destruct (Hn (S i) e' Hi) as [He' Hk']. split; [lia|done].
  - intros (He & Hk & Hn) [|i] e' Hi; [injection Hi as <-; split; [lia|done]|].
    destruct (Hn i e' Hi) as [He' Hk']. split; [lia|done].
Qed.

Lemma validate_events_exact first events :
  events <> [] ->
  validate_events first events = Ok tt <->
  numbered first events /\ (length events = 1%nat \/ first + zlen events - 1 <= i64_max).
Proof.
  revert first. induction events as [|e events IH]; intros first Hne; [done|]. clear Hne.
  cbn [validate_events]. rewrite numbered_cons. validates.
  destruct events as [|e' events].
  - unfold numbered. split; [intros (? & ? & _)|]; [split_and!; try done; by left|naive_solver].
  - rewrite bind_Ok. setoid_rewrite ok_or_Ok. setoid_rewrite checked_next_Some.
    assert (zlen (e :: e' :: events) = zlen (e' :: events) + 1) as -> by (unfold zlen; cbn; lia).
    assert (0 < zlen (e' :: events)) by (unfold zlen; cbn; lia).
    split.
    + intros (He & Hk & x & (-> & Hx) & Hr). apply IH in Hr as [Hn Hb]; [|done].
      split_and!; try done. right. destruct Hb as [Hb|Hb]; [|lia].
      assert (zlen (e' :: events) = 1) by (unfold zlen; lia). lia.
    + intros [(He & Hk & Hn) Hb]. destruct Hb as [Hb|Hb]; [cbn in Hb; lia|].
      split_and!; try done. exists (first + 1). split; [split; [done|lia]|].
      apply IH; [done|]. split; [done|]. right. lia.
Qed.

(** The batches the controller accepts *)
Definition batch_ok (b : TelemetryBatch) (supported : list Z) : Prop :=
  tb_schema_version b ∈ supported /\ 1 <= zlen (tb_events b) <= MAX_TELEMETRY_BATCH_EVENTS /\
  tb_first_sequence b <> 0 /\ numbered (tb_first_sequence b) (tb_events b) /\
  tb_last_sequence b = tb_first_sequence b + zlen (tb_events b) - 1.

Lemma numbered_last first events e :
  numbered first events -> last events = Some e -> ev_sequence e = first + zlen events - 1.
Proof.
  intros Hn Hl. rewrite last_lookup in Hl. destruct (Hn _ _ Hl) as [-> _].
  apply lookup_lt_Some in Hl. unfold zlen. lia.
Qed.

Lemma batch_validate_exact (b : TelemetryBatch) (supported : list Z) :
  tb_last_sequence b <= i64_max ->
  batch_validate b supported = Ok tt <-> batch_ok b supported.
Proof.
  intros Hmax. unfold batch_validate, batch_ok. validates.
  destruct (tb_events b) as [|e events] eqn:Ev; [unfold zlen; naive_solver lia|].
  rewrite validate_events_exact by done.
  assert (0 < zlen (e :: events)) by (unfold zlen; cbn; lia).
  destruct (last (e :: events)) as [z|] eqn:El; [|by apply last_None in El].
  split.
  - intros (Hs & (_ & Hl) & Hf & (Hh & Hz) & Hn & Hb). split_and!; try done; try lia.
    cbn in Hz. injection Hz as <-. by apply (numbered_last _ _ z).
  - intros (Hs & Hl & Hf & Hn & Hlast). split_and!; try done; try lia.
    + cbn. f_equal. destruct (Hn 0%nat e eq_refl) as [-> _]. lia.
    + cbn. f_equal. rewrite (numbered_last _ _ z Hn El). lia.
Qed.

(** Validation of a telemetry batch is exact: it is accepted if and only if
    it has 1 to 1000 valid events numbered without gap or repetition from its
    first to its last sequence, which stays in the range of the counter. *)
Theorem telemetry_batch_exact (b : TelemetryBatch) (supported : list Z) :
  tb_last_sequence b <= i64_max ->
  batch_validate b supported = Ok tt <-> batch_ok b supported.
Proof. apply batch_validate_exact. Qed.

Definition sample_batch : TelemetryBatch :=
  let event n k := mkEvent n (mkTime 0 0) k in
  let user := mkUuid (be_bytes 16 3) in
  mkBatch 1 (mkUuid (be_bytes 16 2)) 7 9
    [event 7 (TrafficDelta user 10 20 1); event 8 (CollectionStatus "counter_reset" false);
     event 9 (Connection user Tcp "example.com" 443 None)].

Lemma telemetry_batch_exact_witness : batch_ok sample_batch [1].
Proof.
  refine (proj1 (telemetry_batch_exact sample_batch [1] _) _); [vm_compute; discriminate|].
  vm_compute. reflexivity.
Defined.

(** ** Probe targets *)

(** The special-purpose ranges [is_public_probe_ipv4] excludes *)
Lemma public_ranges a :
  is_public_probe_ipv4 a = true ->
  oct0 a <> 0 /\ oct0 a < 224 /\ oct0 a <> 10 /\ oct0 a <> 127 /\
  (oct0 a = 100 -> oct1 a < 64 \/ 127 < oct1 a) /\
  (oct0 a = 169 -> oct1 a <> 254) /\
  (oct0 a = 172 -> oct1 a < 16 \/ 31 < oct1 a) /\
  (oct0 a = 192 -> oct1 a <> 168 /\ (oct1 a = 0 -> oct2 a <> 0 /\ oct2 a <> 2)) /\
  (oct0 a = 198 -> oct1 a <> 18 /\ oct1 a <> 19 /\ (oct1 a = 51 -> oct2 a <> 100)) /\
  (oct0 a = 203 -> oct1 a = 0 -> oct2 a <> 113).
Proof.
  destruct a as [x y z w]. unfold is_public_probe_ipv4, v4_is_private, v4_is_loopback, v4_is_link_local,
    v4_is_unspecified, v4_is_multicast, v4_is_broadcast, v4_is_documentation, v4_between.
  cbn [oct0 oct1 oct2 oct3]. rewrite !andb_true_iff, !negb_true_iff. intros E. destruct_and!.
  assert (x < 224).
  { match goal with H : (224 <=? x) && _ = false, H' : (x <? 240) = true |- _ => clear - H H'; lia end. }
  split_and!; try done; intros;
    repeat match goal with |- _ /\ _ => split; intros end;
    subst; match goal with H : _ = false |- _ => clear - H; lia end.
Qed.

(** A probe never leaves the public address space: a validated request has
    one to six distinct targets, none of them private, shared, loopback,
    link-local, multicast, reserved, benchmarking or documentation space, and
    an accepted answer that reports a connection names one of them. *)
Theorem probe_targets_public (s : TcpProbeExecutorResponse) (r : TcpProbeExecutorRequest) :
  probe_response_validate_for s r = Ok tt ->
  (1 <= zlen (pq_targets r) <= 6 /\ NoDup (pq_targets r)) /\
  (forall a, a ∈ pq_targets r ->
     oct0 a <> 0 /\ oct0 a < 224 /\ oct0 a <> 10 /\ oct0 a <> 127 /\
     (oct0 a = 100 -> oct1 a < 64 \/ 127 < oct1 a) /\
     (oct0 a = 169 -> oct1 a <> 254) /\
     (oct0 a = 172 -> oct1 a < 16 \/ 31 < oct1 a) /\
     (oct0 a = 192 -> oct1 a <> 168 /\ (oct1 a = 0 -> oct2 a <> 0 /\ oct2 a <> 2)) /\
     (oct0 a = 198 -> oct1 a <> 18 /\ oct1 a <> 19 /\ (oct1 a = 51 -> oct2 a <> 100)) /\
     (oct0 a = 203 -> oct1 a = 0 -> oct2 a <> 113)) /\
  (forall a latency, ps_result s = PrConnected a latency -> a ∈ pq_targets r).
Proof.
  unfold probe_response_validate_for, probe_request_validate. intros E. validates in E.
  destruct E as ((_ & (Hne & Hlen) & Hpub & Hu & _) & _ & _ & Hres & _). split_and!.
  - destruct (pq_targets r); [done|]. unfold zlen. cbn. lia.
  - unfold MAX_TCP_PROBE_TARGETS in Hlen. done.
  - by apply bool_decide_eq_true in Hu.
  - intros a Ha. assert (is_public_probe_ipv4 a = true) as Hp.
    { apply negb_false_iff, not_true_is_false. intros Hb. apply not_true_iff_false in Hpub. apply Hpub.
      apply existsb_exists. exists a. by rewrite <- list_elem_of_In. }
    by apply public_ranges.
  - intros a latency Hc. rewrite Hc in Hres. by validates in Hres.
Qed.

Definition sample_probe : TcpProbeExecutorRequest :=
  mkProbeRequest 1 (mkUuid (be_bytes 16 1)) [mkIpv4 8 8 8 8; mkIpv4 1 1 1 1] 443 5000.

Lemma probe_targets_public_witness : mkIpv4 1 1 1 1 ∈ pq_targets sample_probe.
Proof.
  refine (proj2 (proj2 (probe_targets_public
    (mkProbeResponse 1 (mkUuid (be_bytes 16 1)) (PrConnected (mkIpv4 1 1 1 1) 20)) sample_probe _)) _ _ _);
    vm_compute; reflexivity.
Defined.
