(* ===== verification/ProtoSigned.v ===== *)
(** * Signed node documents

    [src/crates/control-protocol/src/desired.rs], [node_status.rs] and
    [enrollment.rs]: the transcripts of desired state, heartbeat answers and
    enrollment, and the verification of their signatures. Each file has its
    own copy of the transcript builder of [ProtoTranscript]. *)
From S2P Require Import Prelude Text Clock ProtoTypes ProtoTranscript ProtoInstances ProtoNode.

(** [u8::from(bool)] *)
Definition bool_byte (b : bool) : byte := if b then x01 else x00.

Section Documents.
Context `{UuidText} `{Rfc3339} `{Base64} `{Sha256} `{Ed25519}.

(** ** Desired state *)

Definition DESIRED_STATE_V1_DOMAIN : list byte := as_bytes "control/desired-state/v1".
Definition DESIRED_STATE_V2_DOMAIN : list byte := as_bytes "control/desired-state/v2".

Inductive DesiredStateCryptoError : Type :=
| DsInvalidSignature | DsFieldTooLarge | DsUnsupportedSchema | DsInvalidDocument.
Abbreviation ds_result := (result DesiredStateCryptoError).

(** The body of the loop over the users *)
Definition user_transcript (t : list byte) (u : DesiredUser) : ds_result (list byte) :=
  t ← tr_text DsFieldTooLarge t "user-id" (uuid_to_string (du_user_id u));
  t ← tr_text DsFieldTooLarge t "credential-id" (uuid_to_string (du_credential_id u));
  t ← tr_text DsFieldTooLarge t "vless-uuid" (du_vless_uuid u);
  tr_bytes DsFieldTooLarge t "enabled" [bool_byte (du_enabled u)].
Definition desired_domain (d : DesiredStateDocument) : ds_result (list byte) :=
  if (ds_schema_version d =? 1) && negb (present (xray_public_port (ds_xray d)))
  then Ok DESIRED_STATE_V1_DOMAIN
  else if (ds_schema_version d =? 2) && present (xray_public_port (ds_xray d))
  then Ok DESIRED_STATE_V2_DOMAIN
  else if (ds_schema_version d =? 1) || (ds_schema_version d =? 2) then Err DsInvalidDocument
  else Err DsUnsupportedSchema.
Definition ports_transcript (t : list byte) (d : DesiredStateDocument) : ds_result (list byte) :=
  if ds_schema_version d =? 1
  then tr_bytes DsFieldTooLarge t "listen-port" (be_bytes 2 (listen_port (ds_xray d)))
  else
    t ← tr_bytes DsFieldTooLarge t "loopback-port" (be_bytes 2 (listen_port (ds_xray d)));
    public_port ← ok_or (xray_public_port (ds_xray d)) DsInvalidDocument;
    tr_bytes DsFieldTooLarge t "public-port" (be_bytes 2 public_port).

(** [desired_state_transcript] *)
Definition desired_state_transcript (d : DesiredStateDocument) : ds_result (list byte) :=
  let text := tr_text DsFieldTooLarge in
  let bytes := tr_bytes DsFieldTooLarge in
  domain ← desired_domain d;
  t ← tr_new DsFieldTooLarge domain;
  t ← bytes t "schema-version"%string (be_bytes 2 (ds_schema_version d));
  t ← text t "network-id"%string (uuid_to_string (ds_network_id d));
  t ← text t "node-id"%string (uuid_to_string (ds_node_id d));
  t ← bytes t "revision"%string (be_bytes 8 (ds_revision d));
  t ← text t "created-at"%string (rfc3339_format (ds_created_at d));
  t ← text t "min-agent-version"%string (ds_min_agent_version d);
  t ← text t "signing-key-id"%string (uuid_to_string (ds_signing_key_id d));
  t ← text t "controller-instance-id"%string (uuid_to_string (ds_controller_instance_id d));
  t ← tr_count DsFieldTooLarge t "user-count" (zlen (ds_users d));
  t ← try_fold user_transcript t (ds_users d);
  t ← ports_transcript t d;
  t ← tr_count DsFieldTooLarge t "server-name-count" (zlen (server_names (ds_xray d)));
  t ← try_fold (fun t name => text t "server-name"%string name) t (server_names (ds_xray d));
  text t "target"%string (target (ds_xray d)).

(** [decode_exact] of the three files, with their error *)
Definition signed_decode_exact {E} (e : E) (value : string) (length : Z) : result E (list byte) :=
  decoded ← ok_or (base64_decode value) e;
  _ ← ensure (zlen decoded =? length) e;
  Ok decoded.

(** [verify_desired_state_signature] *)
Definition verify_desired_state_signature (d : DesiredStateDocument) (signature public_key : string)
    : ds_result unit :=
  public_bytes ← signed_decode_exact DsInvalidSignature public_key 32;
  signature_bytes ← signed_decode_exact DsInvalidSignature signature 64;
  _ ← ensure (verifying_key public_bytes) DsInvalidSignature;
  transcript ← desired_state_transcript d;
  ensure (ed25519_verify public_bytes transcript signature_bytes) DsInvalidSignature.

(** ** Heartbeat answers *)

Definition NODE_STATUS_V1_DOMAIN : list byte := as_bytes "control/node-heartbeat-status/v1".
Inductive NodeStatusCryptoError : Type := NsInvalidSignature | NsFieldTooLarge | NsInvalidDocument.
Abbreviation ns_result := (result NodeStatusCryptoError).

(** [Transcript::optional_text] *)
Definition optional_text (t : list byte) (label : string) (value : option string) : ns_result (list byte) :=
  t ← tr_bytes NsFieldTooLarge t (String.append label "-present") [bool_byte (present value)];
  match value with
  | Some value => tr_text NsFieldTooLarge t label value
  | None => Ok t
  end.
Definition endpoint_transcript (t : list byte) (e : NodeEndpointStatus) : ns_result (list byte) :=
  t ← tr_text NsFieldTooLarge t "endpoint-id" (uuid_to_string (es_endpoint_id e));
  t ← tr_text NsFieldTooLarge t "readiness" (readiness_as_str (es_readiness e));
  t ← optional_text t "last-checked-at" (rfc3339_format <$> es_last_checked_at e);
  optional_text t "error-code" (es_error_code e).

(** [node_heartbeat_status_transcript] *)
Definition node_heartbeat_status_transcript (s : NodeHeartbeatStatus) : ns_result (list byte) :=
  let text := tr_text NsFieldTooLarge in
  _ ← map_err (fun _ => NsInvalidDocument)
        (status_validate_for s (hs_node_id s) (hs_heartbeat_generation s) (hs_controller_instance_id s));
  t ← tr_new NsFieldTooLarge NODE_STATUS_V1_DOMAIN;
  t ← tr_bytes NsFieldTooLarge t "schema-version" (be_bytes 2 (hs_schema_version s));
  t ← text t "node-id"%string (uuid_to_string (hs_node_id s));
  t ← tr_bytes NsFieldTooLarge t "heartbeat-generation" (be_bytes 8 (hs_heartbeat_generation s));
  t ← text t "observed-at"%string (rfc3339_format (hs_observed_at s));
  t ← text t "lifecycle"%string (lifecycle_as_str (hs_lifecycle s));
  t ← text t "signing-key-id"%string (uuid_to_string (hs_signing_key_id s));
  t ← text t "controller-instance-id"%string (uuid_to_string (hs_controller_instance_id s));
  t ← tr_count NsFieldTooLarge t "endpoint-count" (zlen (hs_endpoints s));
  try_fold endpoint_transcript t (hs_endpoints s).

(** [verify_node_heartbeat_status_signature] *)
Definition verify_node_heartbeat_status_signature (s : NodeHeartbeatStatus) (signature public_key : string)
    : ns_result unit :=
  public_bytes ← signed_decode_exact NsInvalidSignature public_key 32;
  signature_bytes ← signed_decode_exact NsInvalidSignature signature 64;
  _ ← ensure (verifying_key public_bytes) NsInvalidSignature;
  transcript ← node_heartbeat_status_transcript s;
  ensure (ed25519_verify public_bytes transcript signature_bytes) NsInvalidSignature.

(** ** Enrollment *)

Definition REQUEST_V1_DOMAIN : list byte := as_bytes "control/node-enrollment/request/v1".
Definition REQUEST_V2_DOMAIN : list byte := as_bytes "control/node-enrollment/request/v2".
Definition RESPONSE_DOMAIN : list byte := as_bytes "control/node-enrollment/response/v1".
Inductive EnrollmentCryptoError : Type := EnInvalidProof | EnFieldTooLarge.
Abbreviation en_result := (result EnrollmentCryptoError).

Record EnrollmentInvitation : Type := mkEnrollmentInvitation {
  ei_invitation_id : Uuid;
  ei_purpose : PairingPurpose;
  ei_expires_at : OffsetDateTime;
  ei_controller_origin : string;
  ei_controller_fingerprint : string;
}.

(** [purpose_name], [capability_name], [authentication_mode_name] *)
Definition purpose_name (p : PairingPurpose) : string :=
  match p with
  | NodeEnrollment => "node-enrollment"
  | DeviceActivation => "device-activation"
  | AdminDeviceEnrollment => "admin-device-enrollment"
  end.
Definition capability_name (c : NodeCapability) : string :=
  match c with
  | Xray => "xray" | DirectTcp => "direct-tcp" | Upnp => "upnp"
  | NatPmp => "nat-pmp" | Pcp => "pcp" | RelayTcp => "relay-tcp"
  end.
Definition authentication_mode_name (m : NodeAuthenticationMode) : string :=
  match m with MutualTls => "mutualTls" | SignedRequest => "signedRequest" end.

(** [Ord for str]: the bytes, compared from the first; [sort_unstable] of
    texts, whose result does not depend on stability *)
Fixpoint bytes_le (l k : list byte) : bool :=
  match l, k with
  | [], _ => true
  | _ :: _, [] => false
  | a :: l', b :: k' =>
      (byte_to_Z a <? byte_to_Z b) || ((byte_to_Z a =? byte_to_Z b) && bytes_le l' k')
  end.
Fixpoint insert_text (s : string) (l : list string) : list string :=
  match l with
  | [] => [s]
  | x :: l' => if bytes_le (as_bytes s) (as_bytes x) then s :: l else x :: insert_text s l'
  end.
Definition sort_texts (l : list string) : list string := foldr insert_text [] l.

(** [enrollment_request_transcript] *)
Definition material_transcript (t : list byte) (m : option NodePublicMaterial) : en_result (list byte) :=
  match m with
  | Some material =>
      t ← tr_text EnFieldTooLarge t "reality-public-key" (reality_public_key material);
      tr_text EnFieldTooLarge t "reality-short-id" (reality_short_id material)
  | None => Ok t
  end.
Definition consent_transcript (t : list byte) (c : ProviderConsent) : en_result (list byte) :=
  t ← tr_text EnFieldTooLarge t "consent-policy-version" (policy_version c);
  t ← tr_bytes EnFieldTooLarge t "consent-host-owner" [bool_byte (host_owner_consented c)];
  t ← tr_bytes EnFieldTooLarge t "consent-exit-ip-disclosure" [bool_byte (exit_ip_disclosure_accepted c)];
  t ← tr_bytes EnFieldTooLarge t "consent-router-mapping" [bool_byte (router_mapping_accepted c)];
  tr_text EnFieldTooLarge t "consent-accepted-at" (rfc3339_format (accepted_at c)).
Definition enrollment_request_transcript (i : EnrollmentInvitation) (r : EnrollNodeRequest)
    : en_result (list byte) :=
  let text := tr_text EnFieldTooLarge in
  let domain := if present (en_public_material r) then REQUEST_V2_DOMAIN else REQUEST_V1_DOMAIN in
  t ← tr_new EnFieldTooLarge domain;
  t ← text t "purpose"%string (purpose_name (ei_purpose i));
  t ← text t "controller-origin"%string (ei_controller_origin i);
  t ← text t "controller-fingerprint"%string (ei_controller_fingerprint i);
  t ← text t "invitation-id"%string (uuid_to_string (ei_invitation_id i));
  t ← text t "invitation-expires-at"%string (rfc3339_format (ei_expires_at i));
  t ← text t "identity-public-key"%string (en_identity_public_key r);
  t ← text t "encryption-public-key"%string (en_encryption_public_key r);
  t ← text t "nonce"%string (en_nonce r);
  t ← text t "agent-version"%string (en_agent_version r);
  t ← text t "platform"%string (en_platform r);
  t ← text t "display-name"%string (en_display_name r);
  let capabilities := sort_texts (capability_name <$> en_capabilities r) in
  t ← tr_count EnFieldTooLarge t "capability-count" (zlen capabilities);
  t ← try_fold (fun t c => text t "capability"%string c) t capabilities;
  t ← material_transcript t (en_public_material r);
  consent_transcript t (en_provider_consent r).

(** [enrollment_response_transcript] *)
Definition enrollment_response_transcript (request_transcript : list byte) (r : EnrollNodeResponse)
    : en_result (list byte) :=
  let text := tr_text EnFieldTooLarge in
  t ← tr_new EnFieldTooLarge RESPONSE_DOMAIN;
  t ← tr_bytes EnFieldTooLarge t "request-transcript-sha256" (sha256 request_transcript);
  t ← text t "network-id"%string (uuid_to_string (er_network_id r));
  t ← text t "node-id"%string (uuid_to_string (er_node_id r));
  t ← text t "controller-instance-id"%string (uuid_to_string (er_controller_instance_id r));
  t ← text t "credential-key-id"%string (uuid_to_string (cr_key_id (er_credential r)));
  t ← text t "credential-mode"%string (authentication_mode_name (cr_mode (er_credential r)));
  t ← text t "credential-expires-at"%string (rfc3339_format (cr_expires_at (er_credential r)));
  t ← text t "controller-signing-public-key"%string (er_desired_state_signing_public_key r);
  text t "controller-nonce"%string (er_controller_nonce r).

(** [verify_enrollment_proof] *)
Definition verify_enrollment_proof (r : EnrollNodeRequest) (transcript : list byte) : en_result unit :=
  public_bytes ← signed_decode_exact EnInvalidProof (en_identity_public_key r) 32;
  signature_bytes ← signed_decode_exact EnInvalidProof (en_proof r) 64;
  _ ← ensure (verifying_key public_bytes) EnInvalidProof;
  ensure (ed25519_verify public_bytes transcript signature_bytes) EnInvalidProof.
End Documents.
