(* ===== verification/ProtoRelay.v ===== *)
(** * Relay grants: the messages of [src/crates/control-protocol/src/relay.rs]

    Route limits, assignment headers, signed assignments and signed route
    documents with their validation, the transcripts their signatures cover,
    signature verification, and the sealing of credential material to one
    node. HPKE ([Hpke]) and the JSON form of the material are parameters. *)
From S2P Require Import Prelude Text Clock ProtoTypes ProtoInstances ProtoTranscript.

Definition RELAY_SCHEMA_VERSION : Z := 1.
Definition MAX_RELAY_GRANT_LIFETIME_SECONDS : Z := 86400.
Definition RELAY_HPKE_INFO : list byte := as_bytes "control/relay/assignment-hpke/v1".
Definition RELAY_ASSIGNMENT_DOMAIN : list byte := as_bytes "control/relay/signed-assignment/v1".
Definition RELAY_ROUTE_DOMAIN : list byte := as_bytes "control/relay/signed-route/v1".
Definition RELAY_AAD_DOMAIN : list byte := as_bytes "control/relay/assignment-aad/v1".
Definition MAX_HOST_LENGTH : Z := 253.
Definition MAX_PEM_LENGTH : Z := 65536.
Definition MAX_CIPHERTEXT_BYTES : Z := 196608.
Definition MIN_BYTES_PER_SECOND : Z := 1024.
Definition MAX_BYTES_PER_SECOND : Z := 10000000000.
Definition MIN_BYTE_LIMIT : Z := 1048576.
Definition MAX_BYTE_LIMIT : Z := 10 * 1024 * 1024 * 1024 * 1024 * 1024.

(** ** Messages *)

Record RelayLimits : Type := mkLimits {
  max_concurrent_streams : Z;
  max_bytes_per_second : Z;
  max_bytes_per_connection : Z;
  monthly_byte_limit : Z;
}.

Record RelayAssignmentHeader : Type := mkHeader {
  schema_version : Z;
  network_id : NetworkId;
  node_id : NodeId;
  relay_id : RelayId;
  route_id : RelayRouteId;
  grant_id : RelayGrantId;
  generation : Z;
  endpoint_id : EndpointId;
  public_host : string;
  public_port : Z;
  tunnel_host : string;
  tunnel_port : Z;
  tls_server_name : string;
  issued_at : OffsetDateTime;
  not_before : OffsetDateTime;
  expires_at : OffsetDateTime;
  limits : RelayLimits;
}.

Inductive RelayEncryptionAlgorithm : Type := HpkeBaseX25519HkdfSha256ChaCha20Poly1305.

Record EncryptedRelayMaterial : Type := mkEncrypted {
  algorithm : RelayEncryptionAlgorithm;
  ephemeral_public_key : string;
  nonce : string;
  ciphertext : string;
}.

Record RelayAssignmentMaterial : Type := mkMaterial {
  route_token : string;
  client_certificate_pem : string;
  client_private_key_pem : string;
  relay_ca_certificate_pem : string;
}.

Record SignedRelayAssignment : Type := mkAssignment {
  assignment_header : RelayAssignmentHeader;
  encrypted_material : EncryptedRelayMaterial;
  assignment_signing_key_id : SigningKeyId;
  assignment_signature : string;
}.

Record SignedRelayRoute : Type := mkRoute {
  route_header : RelayAssignmentHeader;
  route_token_sha256 : string;
  client_certificate_sha256 : string;
  route_signing_key_id : SigningKeyId;
  route_signature : string;
}.

Inductive RelayCryptoError : Type :=
| Validation (e : ProtocolValidationError)
| Serialization
| InvalidEncoding
| Encryption
| UnsupportedAlgorithm
| FieldTooLarge
| SignatureInvalid
| SigningKeyMismatch.
Abbreviation crypto_result := (result RelayCryptoError).

(** ** Validation *)

Definition contains_range (lo hi z : Z) : bool := (lo <=? z) && (z <=? hi).

(** [RelayLimits::validate] *)
Definition limits_validate (l : RelayLimits) : valid_result unit :=
  if negb (contains_range 1 4096 (max_concurrent_streams l)) then
    invalid OutOfRange "limits.maxConcurrentStreams"
      "relay concurrent streams must be between 1 and 4096"
  else if negb (contains_range MIN_BYTES_PER_SECOND MAX_BYTES_PER_SECOND (max_bytes_per_second l)) then
    invalid OutOfRange "limits.maxBytesPerSecond"
      "relay byte rate is outside the supported finite range"
  else
    try_for_each
      (fun '(field, value) =>
         if negb (contains_range MIN_BYTE_LIMIT MAX_BYTE_LIMIT value) then
           invalid OutOfRange field "relay byte limit is outside the supported finite range"
         else Ok tt)
      [("limits.maxBytesPerConnection"%string, max_bytes_per_connection l);
       ("limits.monthlyByteLimit"%string, monthly_byte_limit l)].

(** One label of [validate_host]'s DNS names *)
Definition dns_label (label : list byte) : bool :=
  negb (bool_decide (label = [])) && (zlen label <=? 63)
  && negb (starts_with ["-"%byte] label) && negb (ends_with ["-"%byte] label)
  && forallb (fun b => is_ascii_lowercase b || is_ascii_digit b || bool_decide (b = "-"%byte)) label.

(** [validate_host] *)
Definition validate_host (value field : string) : valid_result unit :=
  let bytes := as_bytes value in
  let valid_ip := match parse_ip bytes with Some _ => true | None => false end in
  let valid_dns := negb (bool_decide (bytes = [])) && (zlen bytes <=? MAX_HOST_LENGTH)
                   && forallb dns_label (split_on "."%byte bytes) in
  if negb valid_ip && negb valid_dns then
    invalid InvalidFormat field
      "relay host must be a canonical IP literal or bounded DNS name without a port"
  else Ok tt.

(** [RelayAssignmentHeader::validate] *)
Definition header_validate (h : RelayAssignmentHeader) : valid_result unit :=
  if negb (schema_version h =? RELAY_SCHEMA_VERSION) then
    invalid UnsupportedSchema "schemaVersion" "unsupported relay assignment schema"
  else
  _ ← validate_host (public_host h) "publicHost";
  _ ← validate_host (tunnel_host h) "tunnelHost";
  _ ← validate_host (tls_server_name h) "tlsServerName";
  if (public_port h =? 0) || (tunnel_port h =? 0) then
    invalid OutOfRange "port" "relay ports must be non-zero"
  else if time_lt (not_before h) (issued_at h) || time_le (expires_at h) (not_before h) then
    invalid InconsistentState "expiresAt" "relay grant time ordering is invalid"
  else
  let lifetime := instant (expires_at h) - instant (issued_at h) in
  if MAX_RELAY_GRANT_LIFETIME_SECONDS * 1000000000 <? lifetime then
    invalid OutOfRange "expiresAt" "relay grant lifetime exceeds 24 hours"
  else limits_validate (limits h).

(** [validate_pem] *)
Definition validate_pem (value field label : string) : valid_result unit :=
  let bytes := as_bytes value in
  let newline := [x0a] in
  if bool_decide (bytes = []) || (MAX_PEM_LENGTH <? zlen bytes) || contains_byte x00 bytes then
    invalid OutOfRange field "PEM material is empty or exceeds its size limit"
  else if negb (starts_with (as_bytes "-----BEGIN " ++ as_bytes label ++ as_bytes "-----" ++ newline) bytes)
          || negb (ends_with (as_bytes "-----END " ++ as_bytes label ++ as_bytes "-----" ++ newline) bytes) then
    invalid InvalidFormat field "PEM material has an invalid envelope"
  else Ok tt.

Section Base64.
Context `{Base64}.

(** [RelayAssignmentMaterial::validate] *)
Definition material_validate (m : RelayAssignmentMaterial) : valid_result unit :=
  token ← ok_or (base64_decode (route_token m))
            (mkValidation InvalidFormat "routeToken" "route token must be unpadded base64url");
  _ ← ensure (zlen token =? 32)
        (mkValidation InvalidFormat "routeToken" "route token must contain exactly 32 bytes");
  _ ← validate_pem (client_certificate_pem m) "clientCertificatePem" "CERTIFICATE";
  _ ← validate_pem (client_private_key_pem m) "clientPrivateKeyPem" "PRIVATE KEY";
  validate_pem (relay_ca_certificate_pem m) "relayCaCertificatePem" "CERTIFICATE".

(** [SignedRelayAssignment::validate] *)
Definition assignment_validate (a : SignedRelayAssignment) : valid_result unit :=
  _ ← header_validate (assignment_header a);
  bytes ← ok_or (base64_decode (ciphertext (encrypted_material a)))
            (mkValidation InvalidFormat "encryptedMaterial.ciphertext"
               "relay ciphertext must be unpadded base64url");
  ensure (negb (bool_decide (bytes = [])) && (zlen bytes <=? MAX_CIPHERTEXT_BYTES))
    (mkValidation OutOfRange "encryptedMaterial.ciphertext"
       "relay ciphertext is empty or exceeds its size limit").

(** [decode_exact] of relay.rs *)
Definition decode_exact (value : string) (length : Z) : crypto_result (list byte) :=
  decoded ← ok_or (base64_decode value) InvalidEncoding;
  _ ← ensure (zlen decoded =? length) InvalidEncoding;
  Ok decoded.
End Base64.

(** [SignedRelayRoute::validate] *)
Definition route_validate (r : SignedRelayRoute) : valid_result unit :=
  header_validate (route_header r).

(** ** Transcripts *)

Section Transcripts.
Context `{UuidText} `{Rfc3339}.

Abbreviation text := (tr_text FieldTooLarge).
Abbreviation number := (tr_number FieldTooLarge).

(** [encode_header] *)
Definition encode_header (t : list byte) (h : RelayAssignmentHeader) : crypto_result (list byte) :=
  t ← number t "schemaVersion" (schema_version h);
  t ← text t "networkId" (uuid_to_string (network_id h));
  t ← text t "nodeId" (uuid_to_string (node_id h));
  t ← text t "relayId" (uuid_to_string (relay_id h));
  t ← text t "routeId" (uuid_to_string (route_id h));
  t ← text t "grantId" (uuid_to_string (grant_id h));
  gen ← ok_or (try_from u64_max (generation h)) InvalidEncoding;
  t ← number t "generation" gen;
  t ← text t "endpointId" (uuid_to_string (endpoint_id h));
  t ← text t "publicHost" (public_host h);
  t ← number t "publicPort" (public_port h);
  t ← text t "tunnelHost" (tunnel_host h);
  t ← number t "tunnelPort" (tunnel_port h);
  t ← text t "tlsServerName" (tls_server_name h);
  t ← text t "issuedAt" (rfc3339_format (issued_at h));
  t ← text t "notBefore" (rfc3339_format (not_before h));
  t ← text t "expiresAt" (rfc3339_format (expires_at h));
  t ← number t "maxConcurrentStreams" (max_concurrent_streams (limits h));
  t ← number t "maxBytesPerSecond" (max_bytes_per_second (limits h));
  t ← number t "maxBytesPerConnection" (max_bytes_per_connection (limits h));
  number t "monthlyByteLimit" (monthly_byte_limit (limits h)).

(** [assignment_aad] *)
Definition assignment_aad (h : RelayAssignmentHeader) (n : string) : crypto_result (list byte) :=
  t ← tr_new FieldTooLarge RELAY_AAD_DOMAIN;
  t ← encode_header t h;
  text t "nonce" n.

(** [relay_assignment_transcript] *)
Definition relay_assignment_transcript `{Base64} (a : SignedRelayAssignment)
    : crypto_result (list byte) :=
  _ ← map_err Validation (assignment_validate a);
  t ← tr_new FieldTooLarge RELAY_ASSIGNMENT_DOMAIN;
  t ← encode_header t (assignment_header a);
  t ← text t "algorithm" "hpkeBaseX25519HkdfSha256ChaCha20Poly1305";
  t ← text t "ephemeralPublicKey" (ephemeral_public_key (encrypted_material a));
  t ← text t "nonce" (nonce (encrypted_material a));
  t ← text t "ciphertext" (ciphertext (encrypted_material a));
  text t "signingKeyId" (uuid_to_string (assignment_signing_key_id a)).

(** [relay_route_transcript] *)
Definition relay_route_transcript (r : SignedRelayRoute) : crypto_result (list byte) :=
  _ ← map_err Validation (route_validate r);
  t ← tr_new FieldTooLarge RELAY_ROUTE_DOMAIN;
  t ← encode_header t (route_header r);
  t ← text t "routeTokenSha256" (route_token_sha256 r);
  t ← text t "clientCertificateSha256" (client_certificate_sha256 r);
  text t "signingKeyId" (uuid_to_string (route_signing_key_id r)).

(** ** Signatures *)

(** [verify_signature] *)
Definition verify_signature `{Base64} `{Ed25519} (public_key signature : string)
    (transcript : list byte) : crypto_result unit :=
  key_bytes ← decode_exact public_key 32;
  signature_bytes ← decode_exact signature 64;
  _ ← ensure (verifying_key key_bytes) InvalidEncoding;
  ensure (ed25519_verify key_bytes transcript signature_bytes) SignatureInvalid.

(** [verify_relay_assignment_signature] *)
Definition verify_relay_assignment_signature `{Base64} `{Sha256} `{Ed25519}
    (a : SignedRelayAssignment) (controller_public_key : string) : crypto_result unit :=
  key_id ← map_err (fun _ => InvalidEncoding) (ed25519_signing_key_id controller_public_key);
  _ ← ensure (bool_decide (key_id = assignment_signing_key_id a)) SigningKeyMismatch;
  transcript ← relay_assignment_transcript a;
  verify_signature controller_public_key (assignment_signature a) transcript.

(** [verify_relay_route_signature] *)
Definition verify_relay_route_signature `{Base64} `{Sha256} `{Ed25519}
    (r : SignedRelayRoute) (controller_public_key : string) : crypto_result unit :=
  key_id ← map_err (fun _ => InvalidEncoding) (ed25519_signing_key_id controller_public_key);
  _ ← ensure (bool_decide (key_id = route_signing_key_id r)) SigningKeyMismatch;
  transcript ← relay_route_transcript r;
  verify_signature controller_public_key (route_signature r) transcript.
End Transcripts.

(** [relay_token_digest] *)
Definition relay_token_digest `{Sha256} (token : list byte) : string :=
  digest_from_bytes (sha256 token).

(** [RelayAssignmentHeader::registration_route_id] *)
Definition registration_route_id `{UuidText} (h : RelayAssignmentHeader) : string :=
  uuid_to_string (grant_id h).

(** ** Sealing *)

(** The HPKE suite (X25519, HKDF-SHA256, ChaCha20-Poly1305) in base mode: which
    byte strings are keys, the sender and receiver contexts, [seal], [open] *)
Class Hpke : Type := {
  SealContext : Type;
  OpenContext : Type;
  hpke_public_key : list byte -> bool;
  hpke_private_key : list byte -> bool;
  hpke_encapped_key : list byte -> bool;
  setup_sender : list byte -> list byte -> list byte -> option (list byte * SealContext);
  setup_receiver : list byte -> list byte -> list byte -> option OpenContext;
  hpke_seal : SealContext -> list byte -> list byte -> option (list byte);
  hpke_open : OpenContext -> list byte -> list byte -> option (list byte);
}.

(** RFC 9180: what the sender seals to a public key, the holder of its private
    key opens under the same associated data; an encapsulated X25519 key has 32
    bytes and a ciphertext carries a tag. *)
Class HpkeLaws (K : Hpke) (private public : list byte) : Prop := {
  hpke_private_accepted : hpke_private_key private = true;
  hpke_encapsulates rng info encapped ctx :
    setup_sender public info rng = Some (encapped, ctx) ->
    zlen encapped = 32 /\ hpke_encapped_key encapped = true /\
    exists ctx', setup_receiver private encapped info = Some ctx' /\
      forall plaintext aad sealed, hpke_seal ctx plaintext aad = Some sealed ->
        sealed <> [] /\ hpke_open ctx' sealed aad = Some plaintext;
}.

Section Sealing.
Context `{UuidText} `{Rfc3339} `{Base64} `{Hpke}.
(** [serde_json] on the material *)
Context (to_json : RelayAssignmentMaterial -> option (list byte)).
Context (from_json : list byte -> option RelayAssignmentMaterial).

(** [encrypt_relay_material]; [nonce_rng] is what the system generator gives
    for the nonce, [None] when it fails, [hpke_rng] what it gives to HPKE. *)
Definition encrypt_relay_material (nonce_rng : option (list byte)) (hpke_rng : list byte)
    (recipient : string) (h : RelayAssignmentHeader) (m : RelayAssignmentMaterial)
    : crypto_result EncryptedRelayMaterial :=
  _ ← map_err Validation (header_validate h);
  _ ← map_err Validation (material_validate m);
  plaintext ← ok_or (to_json m) Serialization;
  nonce_bytes ← ok_or nonce_rng Encryption;
  n ← map_err (fun _ => InvalidEncoding) (nonce_from_str (base64_encode nonce_bytes));
  aad ← assignment_aad h n;
  recipient_bytes ← decode_exact recipient 32;
  _ ← ensure (hpke_public_key recipient_bytes) InvalidEncoding;
  '(encapped, context) ← ok_or (setup_sender recipient_bytes RELAY_HPKE_INFO hpke_rng) Encryption;
  sealed ← ok_or (hpke_seal context plaintext aad) Encryption;
  _ ← ensure (zlen sealed <=? MAX_CIPHERTEXT_BYTES) FieldTooLarge;
  ephemeral ← map_err (fun _ => InvalidEncoding) (fixed_base64url 32 (base64_encode encapped));
  Ok (mkEncrypted HpkeBaseX25519HkdfSha256ChaCha20Poly1305 ephemeral n (base64_encode sealed)).

(** [decrypt_relay_material]; the algorithm type has one value, so its check
    never fails. *)
Definition decrypt_relay_material (recipient_private_key : list byte)
    (h : RelayAssignmentHeader) (e : EncryptedRelayMaterial)
    : crypto_result RelayAssignmentMaterial :=
  _ ← map_err Validation (header_validate h);
  _ ← ensure (hpke_private_key recipient_private_key) InvalidEncoding;
  encapped ← decode_exact (ephemeral_public_key e) 32;
  _ ← ensure (hpke_encapped_key encapped) InvalidEncoding;
  context ← ok_or (setup_receiver recipient_private_key encapped RELAY_HPKE_INFO) Encryption;
  sealed ← ok_or (base64_decode (ciphertext e)) InvalidEncoding;
  _ ← ensure (negb (bool_decide (sealed = [])) && (zlen sealed <=? MAX_CIPHERTEXT_BYTES))
        FieldTooLarge;
  aad ← assignment_aad h (nonce e);
  plaintext ← ok_or (hpke_open context sealed aad) Encryption;
  m ← ok_or (from_json plaintext) Serialization;
  _ ← map_err Validation (material_validate m);
  Ok m.
End Sealing.

(** ** What the fields of a transcript are *)

Definition header_fields `{UuidText} `{Rfc3339} (h : RelayAssignmentHeader) : list Field :=
  [("schemaVersion", be_bytes 8 (schema_version h));
   ("networkId", as_bytes (uuid_to_string (network_id h)));
   ("nodeId", as_bytes (uuid_to_string (node_id h)));
   ("relayId", as_bytes (uuid_to_string (relay_id h)));
   ("routeId", as_bytes (uuid_to_string (route_id h)));
   ("grantId", as_bytes (uuid_to_string (grant_id h)));
   ("generation", be_bytes 8 (generation h));
   ("endpointId", as_bytes (uuid_to_string (endpoint_id h)));
   ("publicHost", as_bytes (public_host h));
   ("publicPort", be_bytes 8 (public_port h));
   ("tunnelHost", as_bytes (tunnel_host h));
   ("tunnelPort", be_bytes 8 (tunnel_port h));
   ("tlsServerName", as_bytes (tls_server_name h));
   ("issuedAt", as_bytes (rfc3339_format (issued_at h)));
   ("notBefore", as_bytes (rfc3339_format (not_before h)));
   ("expiresAt", as_bytes (rfc3339_format (expires_at h)));
   ("maxConcurrentStreams", be_bytes 8 (max_concurrent_streams (limits h)));
   ("maxBytesPerSecond", be_bytes 8 (max_bytes_per_second (limits h)));
   ("maxBytesPerConnection", be_bytes 8 (max_bytes_per_connection (limits h)));
   ("monthlyByteLimit", be_bytes 8 (monthly_byte_limit (limits h)))]%string.

Definition route_tail `{UuidText} (r : SignedRelayRoute) : list Field :=
  [("routeTokenSha256", as_bytes (route_token_sha256 r));
   ("clientCertificateSha256", as_bytes (client_certificate_sha256 r));
   ("signingKeyId", as_bytes (uuid_to_string (route_signing_key_id r)))]%string.
Definition assignment_tail `{UuidText} (a : SignedRelayAssignment) : list Field :=
  [("algorithm", as_bytes "hpkeBaseX25519HkdfSha256ChaCha20Poly1305");
   ("ephemeralPublicKey", as_bytes (ephemeral_public_key (encrypted_material a)));
   ("nonce", as_bytes (nonce (encrypted_material a)));
   ("ciphertext", as_bytes (ciphertext (encrypted_material a)));
   ("signingKeyId", as_bytes (uuid_to_string (assignment_signing_key_id a)))]%string.
Definition domain_field (domain : list byte) : list Field := [("domain"%string, domain)].

(** The widths of the Rust fields *)
Definition limits_typed (l : RelayLimits) : Prop :=
  is_u16 (max_concurrent_streams l) /\ is_u64 (max_bytes_per_second l) /\
  is_u64 (max_bytes_per_connection l) /\ is_u64 (monthly_byte_limit l).
Definition header_typed (h : RelayAssignmentHeader) : Prop :=
  is_u16 (schema_version h) /\ is_uuid (network_id h) /\ is_uuid (node_id h) /\
  is_uuid (relay_id h) /\ is_uuid (route_id h) /\ is_uuid (grant_id h) /\
  is_i64 (generation h) /\ is_uuid (endpoint_id h) /\
  is_u16 (public_port h) /\ is_u16 (tunnel_port h) /\
  is_timestamp (issued_at h) /\ is_timestamp (not_before h) /\ is_timestamp (expires_at h) /\
  limits_typed (limits h).

(** The route and the assignment with another signature *)
Definition with_route_signature (r : SignedRelayRoute) (sig : string) : SignedRelayRoute :=
  mkRoute (route_header r) (route_token_sha256 r) (client_certificate_sha256 r)
    (route_signing_key_id r) sig.
Definition with_assignment_signature (a : SignedRelayAssignment) (sig : string)
    : SignedRelayAssignment :=
  mkAssignment (assignment_header a) (encrypted_material a) (assignment_signing_key_id a) sig.

(** ** A grant for the examples *)

Definition sample_id (n : Z) : Uuid := mkUuid (be_bytes 16 n).
Definition sample_instant : OffsetDateTime := mkTime 1768000000000000000 0.
Definition sample_header : RelayAssignmentHeader :=
  mkHeader 1 (sample_id 1) (sample_id 2) (sample_id 3) (sample_id 4) (sample_id 5) 7 (sample_id 6)
    "relay.example.net" 443 "203.0.113.7" 8443 "relay.example.net"
    sample_instant sample_instant (mkTime (instant sample_instant + 3600000000000) 0)
    (mkLimits 64 1048576 1073741824 1099511627776).
Definition sample_key : list byte := replicate 32 x01.
Definition sample_signed_route : SignedRelayRoute :=
  mkRoute sample_header (digest_from_bytes (replicate 32 x02)) (digest_from_bytes (replicate 32 x03))
    (sample_id 9) EmptyString.
Definition sample_assignment : SignedRelayAssignment :=
  mkAssignment sample_header
    (mkEncrypted HpkeBaseX25519HkdfSha256ChaCha20Poly1305 (base64_encode sample_key)
       (base64_encode (replicate 16 x04)) (base64_encode (replicate 48 x05)))
    (sample_id 9) EmptyString.

(** An HPKE that copies, for the examples *)
Definition copy_prefix (aad : list byte) : list byte := be_bytes 8 (zlen aad) ++ aad.
Definition copy_seal (plaintext aad : list byte) : option (list byte) :=
  if zlen aad <=? u64_max then Some (x00 :: copy_prefix aad ++ plaintext) else None.
Definition copy_open (sealed aad : list byte) : option (list byte) :=
  match sealed with
  | _ :: l => if zlen aad <=? u64_max then strip_prefix (copy_prefix aad) l else None
  | [] => None
  end.
Definition copy_hpke : Hpke := {|
  SealContext := unit;
  OpenContext := unit;
  hpke_public_key _ := true;
  hpke_private_key _ := true;
  hpke_encapped_key _ := true;
  setup_sender _ _ _ := Some (replicate 32 x07, tt);
  setup_receiver _ _ _ := Some tt;
  hpke_seal _ := copy_seal;
  hpke_open _ := copy_open;
|}.
Definition sample_pem (label : string) : string :=
  str_of_bytes (as_bytes "-----BEGIN " ++ as_bytes label ++ as_bytes "-----" ++ [x0a]
    ++ as_bytes "-----END " ++ as_bytes label ++ as_bytes "-----" ++ [x0a]).
Definition sample_material : RelayAssignmentMaterial :=
  mkMaterial (base64_encode (replicate 32 x06)) (sample_pem "CERTIFICATE") (sample_pem "PRIVATE KEY")
    (sample_pem "CERTIFICATE").
(** A JSON codec that knows the sample *)
Definition sample_to_json (m : RelayAssignmentMaterial) : option (list byte) :=
  if bool_decide (route_token m = route_token sample_material)
     && bool_decide (client_certificate_pem m = client_certificate_pem sample_material)
     && bool_decide (client_private_key_pem m = client_private_key_pem sample_material)
     && bool_decide (relay_ca_certificate_pem m = relay_ca_certificate_pem sample_material)
  then Some [x7b; x7d] else None.
Definition sample_from_json (l : list byte) : option RelayAssignmentMaterial :=
  Some sample_material.

(** ** Binding *)

Section Binding.
Context `{UL : UuidTextLaws} `{RL : Rfc3339Laws}.

Lemma encode_header_Ok fs t h t' :
  transcribes fs t -> encode_header t h = Ok t' ->
  is_u64 (generation h) /\ transcribes (fs ++ header_fields h) t'.
Proof.
  intros Ht. unfold encode_header. intros E. transcript.
  match goal with H : try_from _ _ = Some _ |- _ => apply try_from_Some in H as [-> Hg] end.
  transcript. split; [done|].
  match goal with H : transcribes _ t' |- _ => by rewrite <- !app_assoc in H end.
Qed.

(** Numbers of the header, from their fields *)
Lemma u64_bytes_inj a b : is_u64 a -> is_u64 b -> be_bytes 8 a = be_bytes 8 b -> a = b.
Proof. intros Ha Hb. apply be_bytes_inj; pow256; ulia. Qed.

Lemma limits_fields_inj l m :
  limits_typed l -> limits_typed m ->
  be_bytes 8 (max_concurrent_streams l) = be_bytes 8 (max_concurrent_streams m) ->
  be_bytes 8 (max_bytes_per_second l) = be_bytes 8 (max_bytes_per_second m) ->
  be_bytes 8 (max_bytes_per_connection l) = be_bytes 8 (max_bytes_per_connection m) ->
  be_bytes 8 (monthly_byte_limit l) = be_bytes 8 (monthly_byte_limit m) -> l = m.
Proof.
  intros (? & ? & ? & ?) (? & ? & ? & ?) ????. destruct l, m; simpl in *.
  f_equal; apply u64_bytes_inj; first [done|ulia].
Qed.

Lemma header_fields_inj h k :
  header_typed h -> header_typed k -> is_u64 (generation h) -> is_u64 (generation k) ->
  header_fields h = header_fields k -> h = k.
Proof.
  intros Hh Hk Gh Gk. unfold header_fields.
  assert (forall (l : string) (a b : list byte), (l, a) = (l, b) -> a = b) as Hv by congruence.
  intros E. repeat (apply (inj2 cons) in E as [?%Hv E]).
  unfold header_typed in *. destruct_and!.
  destruct h, k; simpl in *. f_equal;
    first [ by apply limits_fields_inj
          | apply u64_bytes_inj; first [done|ulia]
          | apply uuid_to_string_inj; [done|done|by apply as_bytes_inj]
          | apply rfc3339_format_inj; [done|done|by apply as_bytes_inj]
          | by apply as_bytes_inj ].
Qed.
End Binding.

(** ** Signed documents *)

Section Signed.
Context `{UL : UuidTextLaws} `{RL : Rfc3339Laws}.

Lemma route_transcript_fields r t :
  relay_route_transcript r = Ok t ->
  header_validate (route_header r) = Ok tt /\ is_u64 (generation (route_header r)) /\
  transcribes
    (domain_field RELAY_ROUTE_DOMAIN ++ header_fields (route_header r) ++ route_tail r) t.
Proof.
  unfold relay_route_transcript. intros E. transcript.
  match goal with H : encode_header _ _ = Ok _, T : transcribes _ _ |- _ =>
    apply (encode_header_Ok _ _ _ _ T) in H as [? H]; clear T end.
  transcript. repeat split; [done|ulia|ulia| |];
    match goal with H : transcribes _ t |- _ => rewrite <- !app_assoc in H; apply H end.
Qed.

Lemma assignment_transcript_fields `{Base64} a t :
  relay_assignment_transcript a = Ok t ->
  is_u64 (generation (assignment_header a)) /\
  transcribes
    (domain_field RELAY_ASSIGNMENT_DOMAIN ++ header_fields (assignment_header a) ++ assignment_tail a) t.
Proof.
  unfold relay_assignment_transcript. intros E. transcript.
  match goal with H : encode_header _ _ = Ok _, T : transcribes _ _ |- _ =>
    apply (encode_header_Ok _ _ _ _ T) in H as [? H]; clear T end.
  transcript. split; [done|].
  match goal with H : transcribes _ t |- _ => by rewrite <- !app_assoc in H end.
Qed.

Lemma aad_fields h n t :
  assignment_aad h n = Ok t ->
  is_u64 (generation h) /\
  transcribes (domain_field RELAY_AAD_DOMAIN ++ header_fields h ++ [("nonce"%string, as_bytes n)]) t.
Proof.
  unfold assignment_aad. intros E. transcript.
  match goal with H : encode_header _ _ = Ok _, T : transcribes _ _ |- _ =>
    apply (encode_header_Ok _ _ _ _ T) in H as [? H]; clear T end.
  transcript. split; [done|].
  match goal with H : transcribes _ t |- _ => by rewrite <- !app_assoc in H end.
Qed.

(** Splits an equation of field lists around the header's twenty fields. *)
Lemma header_split d d' h k (r s : list Field) :
  header_typed h -> header_typed k -> is_u64 (generation h) -> is_u64 (generation k) ->
  domain_field d ++ header_fields h ++ r = domain_field d' ++ header_fields k ++ s ->
  d = d' /\ h = k /\ r = s.
Proof.
  intros Hh Hk Gh Gk E. unfold domain_field in E. apply (inj2 cons) in E as [Ed E].
  apply (app_inj_1 (header_fields h) (header_fields k)) in E as [E ->]; [|done].
  apply header_fields_inj in E; [|done..]. naive_solver.
Qed.
End Signed.

(** The controller's signature covers a whole route document: two documents
    with one transcript agree in every field, signature apart, so no field of
    a signed route can be changed without invalidating its signature. *)
Theorem route_signature_binds `{UL : UuidTextLaws} `{RL : Rfc3339Laws}
    (r1 r2 : SignedRelayRoute) (t : list byte) :
  header_typed (route_header r1) -> header_typed (route_header r2) ->
  is_uuid (route_signing_key_id r1) -> is_uuid (route_signing_key_id r2) ->
  relay_route_transcript r1 = Ok t -> relay_route_transcript r2 = Ok t ->
  with_route_signature r1 (route_signature r2) = r2.
Proof.
  intros T1 T2 K1 K2 E1 E2.
  apply route_transcript_fields in E1 as (_ & G1 & E1), E2 as (_ & G2 & E2).
  pose proof (transcribes_inj _ _ _ E1 E2) as E.
  apply header_split in E as (_ & Hh & E); [|done..].
  injection E as Ht Hc Hk. apply as_bytes_inj in Ht, Hc, Hk.
  apply uuid_to_string_inj in Hk; [|done..].
  destruct r1, r2; unfold with_route_signature; simpl in *. congruence.
Qed.

Lemma route_signature_binds_witness :
  exists t, relay_route_transcript sample_signed_route = Ok t /\
    with_route_signature sample_signed_route EmptyString = sample_signed_route.
Proof.
  assert (is_ok (relay_route_transcript sample_signed_route) = true) as Hok
    by (vm_compute; reflexivity).
  destruct (relay_route_transcript sample_signed_route) as [t|] eqn:E; [|discriminate Hok].
  exists t. split; [done|].
  refine (route_signature_binds sample_signed_route sample_signed_route t _ _ _ _ E E).
  all: repeat split; vm_compute; done.
Defined.

(** The same for assignments: the signature covers the header, the sender
    key, the nonce and the ciphertext of an assignment. *)
Theorem assignment_signature_binds `{UL : UuidTextLaws} `{RL : Rfc3339Laws} `{Base64}
    (a1 a2 : SignedRelayAssignment) (t : list byte) :
  header_typed (assignment_header a1) -> header_typed (assignment_header a2) ->
  is_uuid (assignment_signing_key_id a1) -> is_uuid (assignment_signing_key_id a2) ->
  relay_assignment_transcript a1 = Ok t -> relay_assignment_transcript a2 = Ok t ->
  with_assignment_signature a1 (assignment_signature a2) = a2.
Proof.
  intros T1 T2 K1 K2 E1 E2.
  apply assignment_transcript_fields in E1 as (G1 & E1), E2 as (G2 & E2).
  pose proof (transcribes_inj _ _ _ E1 E2) as E.
  apply header_split in E as (_ & Hh & E); [|done..].
  injection E as He Hn Hc Hk. apply as_bytes_inj in He, Hn, Hc, Hk.
  apply uuid_to_string_inj in Hk; [|done..].
  destruct a1 as [? [[] ? ? ?] ? ?], a2 as [? [[] ? ? ?] ? ?].
  unfold with_assignment_signature; simpl in *. congruence.
Qed.

Lemma assignment_signature_binds_witness :
  exists t, relay_assignment_transcript sample_assignment = Ok t /\
    with_assignment_signature sample_assignment EmptyString = sample_assignment.
Proof.
  assert (is_ok (relay_assignment_transcript sample_assignment) = true) as Hok
    by (vm_compute; reflexivity).
  destruct (relay_assignment_transcript sample_assignment) as [t|] eqn:E; [|discriminate Hok].
  exists t. split; [done|].
  refine (assignment_signature_binds sample_assignment sample_assignment t _ _ _ _ E E).
  all: repeat split; vm_compute; done.
Defined.

(** The three uses of the header do not overlap: no byte string is at once
    a signed route, a signed assignment or the associated data of sealed
    material, so a signature made for one is never valid for another. *)
Theorem relay_domains_separate `{UuidText} `{Rfc3339} `{Base64}
    (r : SignedRelayRoute) (a : SignedRelayAssignment) (h : RelayAssignmentHeader) (n : string) :
  (forall t, relay_route_transcript r = Ok t -> relay_assignment_transcript a <> Ok t) /\
  (forall t, relay_route_transcript r = Ok t -> assignment_aad h n <> Ok t) /\
  (forall t, relay_assignment_transcript a = Ok t -> assignment_aad h n <> Ok t).
Proof.
  assert (forall d d' fs gs t, transcribes (domain_field d ++ fs) t ->
    transcribes (domain_field d' ++ gs) t -> d = d') as Hd.
  { intros d d' fs gs t F1 F2. pose proof (transcribes_inj _ _ _ F1 F2) as E.
    unfold domain_field in E. simpl in E. congruence. }
  split_and!; intros t E1 E2;
    repeat first
      [ apply route_transcript_fields in E1 as (_ & _ & E1)
      | apply assignment_transcript_fields in E1 as (_ & E1)
      | apply assignment_transcript_fields in E2 as (_ & E2)
      | apply aad_fields in E2 as (_ & E2) ];
    pose proof (Hd _ _ _ _ _ E1 E2) as E; by vm_compute in E.
Qed.

(** ** Sealed material *)

Lemma copy_seal_open plaintext aad sealed :
  copy_seal plaintext aad = Some sealed ->
  sealed <> [] /\ copy_open sealed aad = Some plaintext.
Proof.
  unfold copy_seal, copy_open. case_match; [|done]. intros [= <-].
  split; [done|]. by apply strip_prefix_Some.
Qed.

Lemma copy_open_aad sealed aad1 aad2 p1 p2 :
  copy_open sealed aad1 = Some p1 -> copy_open sealed aad2 = Some p2 -> aad1 = aad2.
Proof.
  unfold copy_open, copy_prefix. destruct sealed; [done|]. repeat case_match; try done.
  rewrite !strip_prefix_Some. intros -> E. bool_props. rewrite <- !app_assoc in E.
  pose proof (zlen_nonneg aad1). pose proof (zlen_nonneg aad2).
  apply be_prefix_inj in E as [Hl E]; [|pow256; ulia|pow256; ulia].
  unfold zlen in Hl. apply Nat2Z.inj in Hl. by apply app_inj_1 in E as [-> _].
Qed.

(** Material sealed to a node opens there: whatever randomness was drawn,
    the node that holds the private key of the recipient recovers exactly the
    material from the envelope, under the same header. *)
Theorem relay_material_roundtrip `{UuidText} `{Rfc3339} `{BL : Base64Laws} `{K : Hpke}
    (to_json : RelayAssignmentMaterial -> option (list byte))
    (from_json : list byte -> option RelayAssignmentMaterial)
    (private public : list byte) (recipient : string) (nonce_rng : option (list byte))
    (hpke_rng : list byte) (h : RelayAssignmentHeader) (m : RelayAssignmentMaterial)
    (e : EncryptedRelayMaterial) :
  (forall m' l, to_json m' = Some l -> from_json l = Some m') ->
  HpkeLaws K private public -> base64_decode recipient = Some public ->
  encrypt_relay_material to_json nonce_rng hpke_rng recipient h m = Ok e ->
  decrypt_relay_material from_json private h e = Ok m.
Proof.
  intros Hjson HK Hpub. unfold encrypt_relay_material. intros E. inv_ok.
  match goal with x : (list byte * SealContext)%type |- _ => destruct x as [encapped ctx] end.
  inv_ok. unfold decode_exact, fixed_base64url, nonce_from_str in *. inv_ok.
  repeat match goal with H1 : ?x = Some ?a, H2 : ?x = Some ?b |- _ =>
    rewrite H1 in H2; injection H2 as H2; subst end.
  match goal with H : setup_sender _ _ _ = Some _ |- _ =>
    apply hpke_encapsulates in H as (Hlen & Hacc & ctx' & Hrecv & Hopen) end.
  match goal with H : hpke_seal _ _ _ = Some _ |- _ => apply Hopen in H as [Hne Hop] end.
  unfold decrypt_relay_material. simpl.
  repeat match goal with H : header_validate _ = Ok _ |- _ => rewrite H; rsimpl end.
  cbn [map_err]. rsimpl. rewrite hpke_private_accepted. rsimpl.
  unfold decode_exact. rewrite !base64_decode_encode. rsimpl. rewrite Hlen. rsimpl.
  change (32 =? 32) with true. rsimpl. rewrite Hacc. rsimpl. rewrite Hrecv. rsimpl.
  rewrite bool_decide_eq_false_2 by done.
  repeat match goal with
  | H : (_ <=? _) = true |- _ => rewrite H; clear H
  | H : assignment_aad _ _ = Ok _ |- _ => rewrite H; clear H
  end. cbn [negb andb]. rsimpl. rewrite Hop. rsimpl.
  match goal with H : to_json _ = Some _ |- _ => apply Hjson in H; rewrite H end. rsimpl.
  match goal with H : material_validate _ = Ok _ |- _ => rewrite H end. done.
Qed.

Lemma relay_material_roundtrip_witness :
  exists e,
    encrypt_relay_material (H2 := copy_hpke) sample_to_json (Some (replicate 16 x09)) [] (base64_encode sample_key)
      sample_header sample_material = Ok e /\
    decrypt_relay_material (H2 := copy_hpke) sample_from_json sample_key sample_header e
    = Ok sample_material.
Proof.
  assert (is_ok (encrypt_relay_material (H2 := copy_hpke) sample_to_json (Some (replicate 16 x09)) []
    (base64_encode sample_key) sample_header sample_material) = true) as Hok
    by (vm_compute; reflexivity).
  destruct (encrypt_relay_material _ _ _ _ _ _) as [e|] eqn:E; [|discriminate Hok].
  exists e. split; [done|].
  refine (relay_material_roundtrip (K := copy_hpke) _ _ _ sample_key _ _ _ _ _ _ _ _ _ E).
  - intros m l. unfold sample_to_json. case_match; [|done]. bool_props. intros _.
    destruct m; simpl in *. unfold sample_from_json, sample_material in *. simpl in *. congruence.
  - split; [done|]. intros rng info encapped ctx [= <- <-].
    split_and!; [done|done|]. exists tt. split; [done|]. intros plaintext aad sealed.
    apply copy_seal_open.
  - vm_compute. done.
Defined.

(** An envelope belongs to one header: where a ciphertext opens under one
    associated data only, an envelope that decrypts under two headers was
    sealed for the one they share. A stolen envelope cannot be installed for
    another node, relay, endpoint, generation or lifetime. *)
Theorem sealed_material_bound `{UL : UuidTextLaws} `{RL : Rfc3339Laws} `{Base64} `{K : Hpke}
    (from_json : list byte -> option RelayAssignmentMaterial) (private : list byte)
    (h1 h2 : RelayAssignmentHeader) (e : EncryptedRelayMaterial) (m1 m2 : RelayAssignmentMaterial) :
  (forall ctx sealed aad1 aad2 p1 p2,
     hpke_open ctx sealed aad1 = Some p1 -> hpke_open ctx sealed aad2 = Some p2 -> aad1 = aad2) ->
  header_typed h1 -> header_typed h2 ->
  decrypt_relay_material from_json private h1 e = Ok m1 ->
  decrypt_relay_material from_json private h2 e = Ok m2 ->
  h1 = h2 /\ m1 = m2.
Proof.
  intros Haead T1 T2. unfold decrypt_relay_material. intros E1 E2. inv_ok.
  repeat match goal with
  | H1 : ?x = Ok ?a, H2 : ?x = Ok ?b |- _ => rewrite H1 in H2; injection H2 as H2; subst
  | H1 : ?x = Some ?a, H2 : ?x = Some ?b |- _ => rewrite H1 in H2; injection H2 as H2; subst
  end.
  match goal with A1 : assignment_aad h1 _ = Ok _, A2 : assignment_aad h2 _ = Ok _ |- _ =>
    pose proof (aad_fields _ _ _ A1) as [G1 F1]; pose proof (aad_fields _ _ _ A2) as [G2 F2] end.
  match goal with O1 : hpke_open ?c ?s ?a1 = Some _, O2 : hpke_open ?c ?s ?a2 = Some _ |- _ =>
    assert (a1 = a2) as Haad by (by eapply Haead) end.
  subst. pose proof (transcribes_inj _ _ _ F1 F2) as E.
  apply header_split in E as (_ & -> & _); [|done..]. split; [done|]. congruence.
Qed.

Lemma sealed_material_bound_witness :
  exists e m,
    decrypt_relay_material (H2 := copy_hpke) sample_from_json sample_key sample_header e = Ok m /\
    sample_header = sample_header /\ m = m.
Proof.
  set (r := encrypt_relay_material (H2 := copy_hpke) sample_to_json (Some (replicate 16 x09)) []
    (base64_encode sample_key) sample_header sample_material).
  assert (is_ok (e ← r; decrypt_relay_material (H2 := copy_hpke) sample_from_json sample_key
    sample_header e) = true) as Hok by (vm_compute; reflexivity).
  destruct r as [e|]; [|discriminate Hok]. cbn [mbind result_bind] in Hok.
  destruct (decrypt_relay_material _ _ _ e) as [m|] eqn:E; [|discriminate Hok].
  exists e, m. split; [done|].
  refine (sealed_material_bound (K := copy_hpke) _ _ _ _ _ _ _ _ _ _ E E);
    [intros ctx; apply copy_open_aad|..].
  all: repeat split; vm_compute; done.
Defined.
