(* ===== verification/ProtoSignedFacts.v ===== *)
(** * Signed node documents: what the signatures cover

    A transcript of desired state, of a heartbeat answer or of an enrollment
    determines the document it was made from, and transcripts of different
    kinds never coincide. *)
From S2P Require Import Prelude Text Clock ProtoTypes ProtoTranscript ProtoInstances ProtoNode.
From S2P Require Import ProtoNodeFacts ProtoSigned ProtoAuth ProtoRelay.

Lemma bool_byte_inj a b : bool_byte a = bool_byte b -> a = b.
Proof. by destruct a, b. Qed.

(** ** Desired state *)

Definition user_fields `{UuidText} (u : DesiredUser) : list Field :=
  [("user-id", as_bytes (uuid_to_string (du_user_id u)));
   ("credential-id", as_bytes (uuid_to_string (du_credential_id u)));
   ("vless-uuid", as_bytes (du_vless_uuid u));
   ("enabled", [bool_byte (du_enabled u)])]%string.
Definition port_fields (d : DesiredStateDocument) : list Field :=
  match xray_public_port (ds_xray d) with
  | None => [("listen-port", be_bytes 2 (listen_port (ds_xray d)))]
  | Some p => [("loopback-port", be_bytes 2 (listen_port (ds_xray d))); ("public-port", be_bytes 2 p)]
  end%string.
Definition desired_head `{UuidText} `{Rfc3339} (domain : list byte) (d : DesiredStateDocument) : list Field :=
  [("domain", domain);
   ("schema-version", be_bytes 2 (ds_schema_version d));
   ("network-id", as_bytes (uuid_to_string (ds_network_id d)));
   ("node-id", as_bytes (uuid_to_string (ds_node_id d)));
   ("revision", be_bytes 8 (ds_revision d));
   ("created-at", as_bytes (rfc3339_format (ds_created_at d)));
   ("min-agent-version", as_bytes (ds_min_agent_version d));
   ("signing-key-id", as_bytes (uuid_to_string (ds_signing_key_id d)));
   ("controller-instance-id", as_bytes (uuid_to_string (ds_controller_instance_id d)));
   ("user-count", be_bytes 4 (zlen (ds_users d)))]%string.
Definition name_field (name : string) : list Field := [("server-name"%string, as_bytes name)].
Definition desired_tail (d : DesiredStateDocument) : list Field :=
  ("server-name-count"%string, be_bytes 4 (zlen (server_names (ds_xray d)))) ::
  concat (name_field <$> server_names (ds_xray d)) ++ [("target"%string, as_bytes (target (ds_xray d)))].

(** The widths and ranges of the Rust fields *)
Definition user_typed (u : DesiredUser) : Prop := is_uuid (du_user_id u) /\ is_uuid (du_credential_id u).
Definition desired_typed (d : DesiredStateDocument) : Prop :=
  is_u16 (ds_schema_version d) /\ is_uuid (ds_network_id d) /\ is_uuid (ds_node_id d) /\
  0 < ds_revision d <= i64_max /\ is_timestamp (ds_created_at d) /\ Forall user_typed (ds_users d) /\
  is_u16 (listen_port (ds_xray d)) /\
  (forall p, xray_public_port (ds_xray d) = Some p -> is_u16 p) /\
  is_uuid (ds_signing_key_id d) /\ is_uuid (ds_controller_instance_id d).

Section DesiredFacts.
Context `{UL : UuidTextLaws} `{RL : Rfc3339Laws}.

Lemma desired_domain_ports d domain :
  desired_domain d = Ok domain ->
  (ds_schema_version d = 1 <-> xray_public_port (ds_xray d) = None) /\
  (domain = DESIRED_STATE_V1_DOMAIN \/ domain = DESIRED_STATE_V2_DOMAIN).
Proof.
  unfold desired_domain.
  destruct (Z.eqb_spec (ds_schema_version d) 1), (Z.eqb_spec (ds_schema_version d) 2),
    (xray_public_port (ds_xray d)); cbn; intros; simplify_eq; naive_solver lia.
Qed.

Lemma user_transcript_fields fs t u t' :
  transcribes fs t -> user_transcript t u = Ok t' -> transcribes (fs ++ user_fields u) t'.
Proof.
  intros Ht. unfold user_transcript. intros E. transcript.
  match goal with H : transcribes _ t' |- _ => by rewrite <- !app_assoc in H end.
Qed.

Lemma name_transcript_fields fs t name t' :
  transcribes fs t -> tr_text DsFieldTooLarge t "server-name" name = Ok t' ->
  transcribes (fs ++ name_field name) t'.
Proof. intros Ht E. transcript. done. Qed.

Lemma ports_transcript_fields d domain fs t t' :
  desired_domain d = Ok domain -> transcribes fs t -> ports_transcript t d = Ok t' ->
  transcribes (fs ++ port_fields d) t'.
Proof.
  intros Hd%desired_domain_ports Ht. destruct Hd as [Hd _]. unfold ports_transcript, port_fields.
  destruct (Z.eqb_spec (ds_schema_version d) 1) as [E1|E1].
  - rewrite (proj1 Hd E1). intros E. transcript. done.
  - intros E. inv_ok. destruct (xray_public_port (ds_xray d)) as [p|]; simplify_eq. transcript.
    match goal with H : transcribes _ t' |- _ => by rewrite <- !app_assoc in H end.
Qed.

Lemma desired_transcript_fields d t :
  desired_state_transcript d = Ok t ->
  exists domain, desired_domain d = Ok domain /\ zlen (ds_users d) <= u32_max /\
    zlen (server_names (ds_xray d)) <= u32_max /\
    transcribes (desired_head domain d ++ concat (user_fields <$> ds_users d) ++ port_fields d
                 ++ desired_tail d) t.
Proof.
  unfold desired_state_transcript. intros E. transcript.
  match goal with H : desired_domain d = Ok ?x |- _ => rename H into Hd; exists x end.
  match goal with T : transcribes _ ?t, H : try_fold user_transcript ?t _ = Ok _ |- _ =>
    apply (try_fold_fields _ user_fields _ _ _ _ user_transcript_fields T) in H; clear T end.
  match goal with T : transcribes _ ?t, H : ports_transcript ?t _ = Ok _ |- _ =>
    apply (ports_transcript_fields _ _ _ _ _ Hd T) in H; clear T end.
  transcript.
  match goal with T : transcribes _ ?t, H : try_fold _ ?t _ = Ok _ |- _ =>
    apply (try_fold_fields _ name_field _ _ _ _ name_transcript_fields T) in H; clear T end.
  transcript. split_and!; [done|lia|lia|].
  match goal with H : transcribes _ t |- _ => rewrite <- !app_assoc in H; exact H end.
Qed.

Lemma user_fields_inj u v r s :
  user_typed u -> user_typed v -> user_fields u ++ r = user_fields v ++ s -> u = v /\ r = s.
Proof.
  intros [U1 U2] [V1 V2] E. unfold user_fields in E. cbn [app] in E. injection E as Ei Ec Ev Ee ->.
  apply as_bytes_inj in Ei, Ec, Ev. apply uuid_to_string_inj in Ei, Ec; [|done..].
  apply bool_byte_inj in Ee. destruct u, v; cbn in *. split; congruence.
Qed.

Lemma name_field_inj u v (r s : list Field) :
  True -> True -> name_field u ++ r = name_field v ++ s -> u = v /\ r = s.
Proof. intros _ _ E. cbn in E. injection E as En ->. by apply as_bytes_inj in En. Qed.
End DesiredFacts.

Section DesiredBinding.
Context `{UL : UuidTextLaws} `{RL : Rfc3339Laws}.

Lemma desired_head_inj dom1 dom2 d1 d2 :
  desired_typed d1 -> desired_typed d2 -> zlen (ds_users d1) <= u32_max -> zlen (ds_users d2) <= u32_max ->
  desired_head dom1 d1 = desired_head dom2 d2 ->
  ds_schema_version d1 = ds_schema_version d2 /\ ds_network_id d1 = ds_network_id d2 /\
  ds_node_id d1 = ds_node_id d2 /\ ds_revision d1 = ds_revision d2 /\
  ds_created_at d1 = ds_created_at d2 /\ ds_min_agent_version d1 = ds_min_agent_version d2 /\
  ds_signing_key_id d1 = ds_signing_key_id d2 /\
  ds_controller_instance_id d1 = ds_controller_instance_id d2 /\
  length (ds_users d1) = length (ds_users d2).
Proof.
  intros T1 T2 L1 L2 E. unfold desired_head in E. split_fields E.
  unfold desired_typed in *. destruct_and!. split_and!; same_field.
Qed.

Lemma port_fields_inj d1 d2 (r s : list Field) :
  desired_typed d1 -> desired_typed d2 -> port_fields d1 ++ r = port_fields d2 ++ s ->
  listen_port (ds_xray d1) = listen_port (ds_xray d2) /\
  xray_public_port (ds_xray d1) = xray_public_port (ds_xray d2) /\ r = s.
Proof.
  unfold desired_typed, port_fields. intros T1 T2 E. destruct_and!.
  destruct (xray_public_port (ds_xray d1)) as [p1|] eqn:P1, (xray_public_port (ds_xray d2)) as [p2|] eqn:P2;
    cbn [app] in E; try discriminate E; split_fields E.
  - split_and!; [same_field| |done]. f_equal.
    assert (is_u16 p1) by naive_solver. assert (is_u16 p2) by naive_solver. same_field.
  - split_and!; [same_field|done|done].
Qed.

Lemma desired_tail_inj d1 d2 :
  zlen (server_names (ds_xray d1)) <= u32_max -> zlen (server_names (ds_xray d2)) <= u32_max ->
  desired_tail d1 = desired_tail d2 ->
  server_names (ds_xray d1) = server_names (ds_xray d2) /\ target (ds_xray d1) = target (ds_xray d2).
Proof.
  intros L1 L2 E. unfold desired_tail in E. apply (inj2 cons) in E as [Hn%field_value E].
  apply (groups_inj (fun _ => True) _ _ _ _ _ name_field_inj) in E as [-> E];
    [|by apply Forall_true..|by apply counted_length].
  split; [done|]. split_fields E. same_field.
Qed.
End DesiredBinding.

(** The controller's signature covers a whole desired-state document: two
    documents with one transcript are equal, so neither a user, a credential,
    a port nor the revision can be changed or reordered without invalidating
    the signature. *)
Theorem desired_signature_binds `{UL : UuidTextLaws} `{RL : Rfc3339Laws}
    (d1 d2 : DesiredStateDocument) (t : list byte) :
  desired_typed d1 -> desired_typed d2 ->
  desired_state_transcript d1 = Ok t -> desired_state_transcript d2 = Ok t -> d1 = d2.
Proof.
  intros T1 T2 E1 E2.
  apply desired_transcript_fields in E1 as (dom1 & _ & U1 & N1 & E1), E2 as (dom2 & _ & U2 & N2 & E2).
  pose proof (transcribes_inj _ _ _ E1 E2) as E. clear E1 E2.
  apply app_inj_1 in E as [Eh E]; [|done].
  apply desired_head_inj in Eh as (Hs & Hn & Hi & Hr & Hc & Hv & Hk & Hm & Hlen); [|done..].
  apply (groups_inj user_typed _ _ _ _ _ user_fields_inj) in E as [Hu E];
    [|by unfold desired_typed in *; destruct_and!..|done].
  apply port_fields_inj in E as (Hl & Hp & E); [|done..].
  apply desired_tail_inj in E as [Hsn Ht]; [|done..].
  destruct d1 as [? ? ? ? ? ? ? [] ? ?], d2 as [? ? ? ? ? ? ? [] ? ?]; cbn in *. congruence.
Qed.

Lemma desired_signature_binds_witness :
  exists t, desired_state_transcript sample_desired = Ok t /\ sample_desired = sample_desired.
Proof.
  assert (is_ok (desired_state_transcript sample_desired) = true) as Hok by (vm_compute; reflexivity).
  destruct (desired_state_transcript sample_desired) as [t|] eqn:E; [|discriminate Hok].
  exists t. split; [done|].
  assert (desired_typed sample_desired) as Ht.
  { unfold desired_typed. split_and!; try (repeat split; vm_compute; done).
    - repeat constructor.
    - intros p [= <-]. vm_compute. done. }
  exact (desired_signature_binds sample_desired sample_desired t Ht Ht E E).
Defined.

(** ** Heartbeat answers *)

Definition optional_fields (label : string) (value : option string) : list Field :=
  (String.append label "-present", [bool_byte (present value)]) ::
  match value with Some v => [(label, as_bytes v)] | None => [] end.
Definition endpoint_fields `{UuidText} `{Rfc3339} (e : NodeEndpointStatus) : list Field :=
  [("endpoint-id"%string, as_bytes (uuid_to_string (es_endpoint_id e)));
   ("readiness"%string, as_bytes (readiness_as_str (es_readiness e)))]
  ++ optional_fields "last-checked-at" (rfc3339_format <$> es_last_checked_at e)
  ++ optional_fields "error-code" (es_error_code e).
Definition status_head `{UuidText} `{Rfc3339} (s : NodeHeartbeatStatus) : list Field :=
  [("domain", NODE_STATUS_V1_DOMAIN);
   ("schema-version", be_bytes 2 (hs_schema_version s));
   ("node-id", as_bytes (uuid_to_string (hs_node_id s)));
   ("heartbeat-generation", be_bytes 8 (hs_heartbeat_generation s));
   ("observed-at", as_bytes (rfc3339_format (hs_observed_at s)));
   ("lifecycle", as_bytes (lifecycle_as_str (hs_lifecycle s)));
   ("signing-key-id", as_bytes (uuid_to_string (hs_signing_key_id s)));
   ("controller-instance-id", as_bytes (uuid_to_string (hs_controller_instance_id s)));
   ("endpoint-count", be_bytes 4 (zlen (hs_endpoints s)))]%string.

Definition endpoint_typed (e : NodeEndpointStatus) : Prop :=
  is_uuid (es_endpoint_id e) /\ (forall t, es_last_checked_at e = Some t -> is_timestamp t).
Definition status_typed (s : NodeHeartbeatStatus) : Prop :=
  is_u16 (hs_schema_version s) /\ is_uuid (hs_node_id s) /\ 0 <= hs_heartbeat_generation s <= i64_max /\
  is_timestamp (hs_observed_at s) /\ Forall endpoint_typed (hs_endpoints s) /\
  is_uuid (hs_signing_key_id s) /\ is_uuid (hs_controller_instance_id s).

Lemma readiness_inj a b : readiness_as_str a = readiness_as_str b -> a = b.
Proof. by destruct a, b. Qed.
Lemma lifecycle_inj a b : lifecycle_as_str a = lifecycle_as_str b -> a = b.
Proof. by destruct a, b. Qed.

Lemma optional_fields_inj label v w (r s : list Field) :
  optional_fields label v ++ r = optional_fields label w ++ s -> v = w /\ r = s.
Proof.
  unfold optional_fields. cbn [app]. intros E. apply (inj2 cons) in E as [Hb%field_value E].
  destruct v as [v|], w as [w|]; cbn in Hb; try discriminate Hb; [|done].
  cbn [app] in E. split_fields E. split; [|done]. f_equal. same_field.
Qed.

Lemma optional_text_fields fs t label v t' :
  transcribes fs t -> optional_text t label v = Ok t' -> transcribes (fs ++ optional_fields label v) t'.
Proof.
  intros Ht. unfold optional_text, optional_fields. intros E. transcript.
  destruct v as [v|]; [|by inv_ok]. transcript.
  match goal with H : transcribes _ t' |- _ => by rewrite <- !app_assoc in H end.
Qed.

Section Status.
Context `{UL : UuidTextLaws} `{RL : Rfc3339Laws}.

Lemma endpoint_transcript_fields fs t e t' :
  transcribes fs t -> endpoint_transcript t e = Ok t' -> transcribes (fs ++ endpoint_fields e) t'.
Proof.
  intros Ht. unfold endpoint_transcript. intros E. transcript.
  do 2 match goal with T : transcribes _ ?t, H : optional_text ?t _ _ = Ok _ |- _ =>
    apply (optional_text_fields _ _ _ _ _ T) in H; clear T end.
  match goal with H : transcribes _ t' |- _ => by rewrite <- !app_assoc in H end.
Qed.

Lemma status_transcript_fields s t :
  node_heartbeat_status_transcript s = Ok t ->
  zlen (hs_endpoints s) <= u32_max /\
  transcribes (status_head s ++ concat (endpoint_fields <$> hs_endpoints s)) t.
Proof.
  unfold node_heartbeat_status_transcript. intros E. transcript.
  match goal with T : transcribes _ ?t, H : try_fold endpoint_transcript ?t _ = Ok _ |- _ =>
    apply (try_fold_fields _ endpoint_fields _ _ _ _ endpoint_transcript_fields T) in H; clear T end.
  split; [lia|]. match goal with H : transcribes _ t |- _ => by rewrite <- !app_assoc in H end.
Qed.

Lemma endpoint_fields_inj a b (r s : list Field) :
  endpoint_typed a -> endpoint_typed b -> endpoint_fields a ++ r = endpoint_fields b ++ s -> a = b /\ r = s.
Proof.
  intros [A1 A2] [B1 B2] E. unfold endpoint_fields in E. rewrite <- !app_assoc in E. cbn [app] in E.
  apply (inj2 cons) in E as [Hi%field_value E]. apply (inj2 cons) in E as [Hr%field_value E].
  apply optional_fields_inj in E as [Ht E]. apply optional_fields_inj in E as [He ->].
  apply as_bytes_inj, readiness_inj in Hr.
  assert (es_endpoint_id a = es_endpoint_id b) by same_field.
  assert (es_last_checked_at a = es_last_checked_at b).
  { destruct (es_last_checked_at a) as [x|], (es_last_checked_at b) as [y|]; cbn in Ht; try done.
    f_equal. apply rfc3339_format_inj; [by apply A2|by apply B2|]. by apply (inj Some). }
  destruct a, b; cbn in *. split; congruence.
Qed.
End Status.

(** The controller's signature covers a whole heartbeat answer: two answers
    with one transcript are equal, endpoint for endpoint. *)
Theorem status_signature_binds `{UL : UuidTextLaws} `{RL : Rfc3339Laws}
    (s1 s2 : NodeHeartbeatStatus) (t : list byte) :
  status_typed s1 -> status_typed s2 ->
  node_heartbeat_status_transcript s1 = Ok t -> node_heartbeat_status_transcript s2 = Ok t -> s1 = s2.
Proof.
  intros T1 T2 E1 E2. apply status_transcript_fields in E1 as [N1 E1], E2 as [N2 E2].
  pose proof (transcribes_inj _ _ _ E1 E2) as E. clear E1 E2.
  apply app_inj_1 in E as [Eh E]; [|done]. unfold status_typed in *. destruct_and!.
  unfold status_head in Eh. split_fields Eh.
  assert (length (hs_endpoints s1) = length (hs_endpoints s2)) as Hlen by same_field.
  assert (concat (endpoint_fields <$> hs_endpoints s1) ++ []
    = concat (endpoint_fields <$> hs_endpoints s2) ++ []) as E' by (by rewrite !app_nil_r).
  apply (groups_inj endpoint_typed _ _ _ _ _ endpoint_fields_inj) in E' as [He _]; [|done..].
  assert (hs_lifecycle s1 = hs_lifecycle s2) by (apply lifecycle_inj; same_field).
  assert (hs_schema_version s1 = hs_schema_version s2) by same_field.
  assert (hs_node_id s1 = hs_node_id s2) by same_field.
  assert (hs_heartbeat_generation s1 = hs_heartbeat_generation s2) by same_field.
  assert (hs_observed_at s1 = hs_observed_at s2) by same_field.
  assert (hs_signing_key_id s1 = hs_signing_key_id s2) by same_field.
  assert (hs_controller_instance_id s1 = hs_controller_instance_id s2) by same_field.
  destruct s1, s2; cbn in *. congruence.
Qed.

Definition sample_status : NodeHeartbeatStatus :=
  mkStatus 1 (sample_uuid 2) 3 (mkTime 0 0) LcActive
    [mkEndpointStatus (sample_uuid 4) RdChecking None None;
     mkEndpointStatus (sample_uuid 5) RdTcpUnreachable (Some (mkTime 7 0)) (Some "tcp_timeout"%string)]
    (sample_uuid 6) (sample_uuid 8).

Lemma status_signature_binds_witness :
  exists t, node_heartbeat_status_transcript sample_status = Ok t /\ sample_status = sample_status.
Proof.
  assert (is_ok (node_heartbeat_status_transcript sample_status) = true) as Hok by (vm_compute; reflexivity).
  destruct (node_heartbeat_status_transcript sample_status) as [t|] eqn:E; [|discriminate Hok].
  exists t. split; [done|].
  assert (status_typed sample_status) as Ht.
  { unfold status_typed. split_and!;
      lazymatch goal with |- Forall _ _ => idtac | _ => repeat split; vm_compute; done end.
    cbn [hs_endpoints sample_status]. rewrite !Forall_cons. unfold endpoint_typed.
    cbn [es_endpoint_id es_last_checked_at]. split_and!; try done; intros ? [= <-]. by repeat split. }
  exact (status_signature_binds sample_status sample_status t Ht Ht E E).
Defined.

(** ** Enrollment *)

Definition request_head `{UuidText} `{Rfc3339} (i : EnrollmentInvitation) (r : EnrollNodeRequest)
    : list Field :=
  [("domain", if present (en_public_material r) then REQUEST_V2_DOMAIN else REQUEST_V1_DOMAIN);
   ("purpose", as_bytes (purpose_name (ei_purpose i)));
   ("controller-origin", as_bytes (ei_controller_origin i));
   ("controller-fingerprint", as_bytes (ei_controller_fingerprint i));
   ("invitation-id", as_bytes (uuid_to_string (ei_invitation_id i)));
   ("invitation-expires-at", as_bytes (rfc3339_format (ei_expires_at i)));
   ("identity-public-key", as_bytes (en_identity_public_key r));
   ("encryption-public-key", as_bytes (en_encryption_public_key r));
   ("nonce", as_bytes (en_nonce r));
   ("agent-version", as_bytes (en_agent_version r));
   ("platform", as_bytes (en_platform r));
   ("display-name", as_bytes (en_display_name r));
   ("capability-count", be_bytes 4 (zlen (sort_texts (capability_name <$> en_capabilities r))))]%string.
Definition capability_field (name : string) : list Field := [("capability"%string, as_bytes name)].
Definition material_fields (m : option NodePublicMaterial) : list Field :=
  match m with
  | Some m => [("reality-public-key", as_bytes (reality_public_key m));
               ("reality-short-id", as_bytes (reality_short_id m))]
  | None => []
  end%string.
Definition consent_fields `{Rfc3339} (c : ProviderConsent) : list Field :=
  [("consent-policy-version", as_bytes (policy_version c));
   ("consent-host-owner", [bool_byte (host_owner_consented c)]);
   ("consent-exit-ip-disclosure", [bool_byte (exit_ip_disclosure_accepted c)]);
   ("consent-router-mapping", [bool_byte (router_mapping_accepted c)]);
   ("consent-accepted-at", as_bytes (rfc3339_format (accepted_at c)))]%string.

(** [sort_unstable] permutes. *)
Lemma insert_text_perm s l : insert_text s l ≡ₚ s :: l.
Proof.
  induction l as [|x l IH]; [done|]. cbn. case_match; [done|]. rewrite IH. apply Permutation_swap.
Qed.
Lemma sort_texts_perm l : sort_texts l ≡ₚ l.
Proof. induction l as [|x l IH]; [done|]. cbn. by rewrite insert_text_perm, IH. Qed.

#[export] Instance capability_name_inj : Inj (=) (=) capability_name.
Proof. intros a b E. by destruct a, b. Qed.
Lemma purpose_name_inj a b : purpose_name a = purpose_name b -> a = b.
Proof. by destruct a, b. Qed.

Lemma sorted_capabilities_perm l k :
  sort_texts (capability_name <$> l) = sort_texts (capability_name <$> k) -> l ≡ₚ k.
Proof.
  intros E. assert (capability_name <$> l ≡ₚ capability_name <$> k) as Hp
    by (by rewrite <- sort_texts_perm, E, sort_texts_perm).
  apply Permutation_map_inv in Hp as (k' & E' & Hp). apply list_fmap_eq_inj in E'; [|apply _].
  by rewrite E', Hp.
Qed.

Section Enrollment.
Context `{UL : UuidTextLaws} `{RL : Rfc3339Laws}.

Lemma capability_transcript_fields fs t name t' :
  transcribes fs t -> tr_text EnFieldTooLarge t "capability" name = Ok t' ->
  transcribes (fs ++ capability_field name) t'.
Proof. intros Ht E. transcript. done. Qed.
Lemma material_transcript_fields fs t m t' :
  transcribes fs t -> material_transcript t m = Ok t' -> transcribes (fs ++ material_fields m) t'.
Proof.
  intros Ht. unfold material_transcript, material_fields. destruct m; intros E.
  - transcript. match goal with H : transcribes _ t' |- _ => by rewrite <- !app_assoc in H end.
  - inv_ok. by rewrite app_nil_r.
Qed.
Lemma consent_transcript_fields fs t c t' :
  transcribes fs t -> consent_transcript t c = Ok t' -> transcribes (fs ++ consent_fields c) t'.
Proof.
  intros Ht. unfold consent_transcript. intros E. transcript.
  match goal with H : transcribes _ t' |- _ => by rewrite <- !app_assoc in H end.
Qed.

Lemma enrollment_transcript_fields i r t :
  enrollment_request_transcript i r = Ok t ->
  zlen (sort_texts (capability_name <$> en_capabilities r)) <= u32_max /\
  transcribes (request_head i r ++ concat (capability_field <$> sort_texts (capability_name <$> en_capabilities r))
               ++ material_fields (en_public_material r) ++ consent_fields (en_provider_consent r)) t.
Proof.
  unfold enrollment_request_transcript. intros E. transcript.
  match goal with T : transcribes _ ?t, H : try_fold _ ?t _ = Ok _ |- _ =>
    apply (try_fold_fields _ capability_field _ _ _ _ capability_transcript_fields T) in H; clear T end.
  match goal with T : transcribes _ ?t, H : material_transcript ?t _ = Ok _ |- _ =>
    apply (material_transcript_fields _ _ _ _ T) in H; clear T end.
  match goal with T : transcribes _ ?t, H : consent_transcript ?t _ = Ok _ |- _ =>
    apply (consent_transcript_fields _ _ _ _ T) in H; clear T end.
  split; [lia|]. match goal with H : transcribes _ t |- _ => rewrite <- !app_assoc in H; exact H end.
Qed.

Lemma capability_field_inj u v (r s : list Field) :
  True -> True -> capability_field u ++ r = capability_field v ++ s -> u = v /\ r = s.
Proof. intros _ _ E. cbn in E. injection E as En ->. by apply as_bytes_inj in En. Qed.

Lemma consent_fields_inj a b :
  is_timestamp (accepted_at a) -> is_timestamp (accepted_at b) -> consent_fields a = consent_fields b -> a = b.
Proof.
  intros Ha Hb E. unfold consent_fields in E. split_fields E. destruct a, b; cbn in *.
  f_equal; first [same_field | apply bool_byte_inj; congruence].
Qed.
End Enrollment.

(** Two requests that agree in everything the enrollment proof covers: the
    bearer secret and the proof itself apart, capabilities as a set *)
Definition same_enrollment (r1 r2 : EnrollNodeRequest) : Prop :=
  en_agent_version r1 = en_agent_version r2 /\ en_platform r1 = en_platform r2 /\
  en_display_name r1 = en_display_name r2 /\ en_capabilities r1 ≡ₚ en_capabilities r2 /\
  en_identity_public_key r1 = en_identity_public_key r2 /\
  en_encryption_public_key r1 = en_encryption_public_key r2 /\
  en_public_material r1 = en_public_material r2 /\ en_nonce r1 = en_nonce r2 /\
  en_provider_consent r1 = en_provider_consent r2.
Definition enrollment_typed (i : EnrollmentInvitation) (r : EnrollNodeRequest) : Prop :=
  is_uuid (ei_invitation_id i) /\ is_timestamp (ei_expires_at i) /\
  is_timestamp (accepted_at (en_provider_consent r)).

Lemma material_fields_inj (a b : option NodePublicMaterial) (r s : list Field) :
  present a = present b -> material_fields a ++ r = material_fields b ++ s -> a = b /\ r = s.
Proof.
  destruct a as [a|], b as [b|]; try done. intros _ E. cbn [material_fields app] in E. split_fields E.
  split; [|done]. f_equal. destruct a, b; cbn in *. f_equal; same_field.
Qed.

(** The enrollment proof covers the invitation, the controller and the whole
    enrollment: two enrollments with one transcript are for the same
    invitation and agree in keys, material, consent and capabilities, the
    latter as a set. *)
Theorem enrollment_proof_binds `{UL : UuidTextLaws} `{RL : Rfc3339Laws}
    (i1 i2 : EnrollmentInvitation) (r1 r2 : EnrollNodeRequest) (t : list byte) :
  enrollment_typed i1 r1 -> enrollment_typed i2 r2 ->
  enrollment_request_transcript i1 r1 = Ok t -> enrollment_request_transcript i2 r2 = Ok t ->
  i1 = i2 /\ same_enrollment r1 r2.
Proof.
  intros (A1 & A2 & A3) (B1 & B2 & B3) E1 E2.
  apply enrollment_transcript_fields in E1 as [N1 E1], E2 as [N2 E2].
  pose proof (transcribes_inj _ _ _ E1 E2) as E. clear E1 E2.
  apply app_inj_1 in E as [Eh E]; [|done]. unfold request_head in Eh.
  apply (inj2 cons) in Eh as [Hd%field_value Eh]. split_fields Eh.
  apply (groups_inj (fun _ => True) _ _ _ _ _ capability_field_inj) in E as [Hc E];
    [|by apply Forall_true..|same_field].
  apply material_fields_inj in E as [Hm E];
    [|destruct (present (en_public_material r1)), (present (en_public_material r2)); done].
  apply consent_fields_inj in E; [|done..]. apply sorted_capabilities_perm in Hc.
  assert (ei_purpose i1 = ei_purpose i2) by (apply purpose_name_inj; same_field).
  assert (ei_invitation_id i1 = ei_invitation_id i2) by same_field.
  assert (ei_expires_at i1 = ei_expires_at i2) by same_field.
  split.
  - destruct i1, i2; cbn in *. f_equal; first [done|same_field].
  - unfold same_enrollment. split_and!; first [done|same_field].
Qed.

Definition sample_enrollment_invitation : EnrollmentInvitation :=
  mkEnrollmentInvitation (sample_uuid 1) NodeEnrollment (mkTime 9 0) "https://controller.example" "sha256:00".
Definition sample_enrollment : EnrollNodeRequest :=
  mkEnroll "secret" "0.1.0" "macos-arm64" "kitchen" [Xray; DirectTcp; Pcp] "identity" "encryption"
    (Some (mkPublicMaterial "reality" "0123456789abcdef")) "nonce" "proof"
    (mkConsent "2026-01" true true true (mkTime 5 0)).

Lemma enrollment_proof_binds_witness :
  exists t, enrollment_request_transcript sample_enrollment_invitation sample_enrollment = Ok t /\
    same_enrollment sample_enrollment sample_enrollment.
Proof.
  assert (is_ok (enrollment_request_transcript sample_enrollment_invitation sample_enrollment) = true)
    as Hok by (vm_compute; reflexivity).
  destruct (enrollment_request_transcript sample_enrollment_invitation sample_enrollment)
    as [t|] eqn:E; [|discriminate Hok].
  exists t. split; [done|].
  assert (enrollment_typed sample_enrollment_invitation sample_enrollment) as Ht
    by (repeat split; vm_compute; done).
  exact (proj2 (enrollment_proof_binds _ _ _ _ t Ht Ht E E)).
Defined.

(** ** One signature, one meaning *)

(** The documents that are signed, with the fields their transcript covers *)
Inductive SignedThing : Type :=
| SignedNodeRequest (i : NodeRequestSigningInput) (at_ : OffsetDateTime) (nonce : string) (c : Uuid)
| SignedState (d : DesiredStateDocument)
| SignedStatus (s : NodeHeartbeatStatus)
| SignedEnrollment (i : EnrollmentInvitation) (r : EnrollNodeRequest)
| SignedEnrollmentResponse (request : list byte) (r : EnrollNodeResponse)
| SignedRoute (r : SignedRelayRoute)
| SignedAssignment (a : SignedRelayAssignment).
Inductive SignedKind : Type := KRequest | KState | KStatus | KEnrollment | KResponse | KRoute | KAssignment.
Definition kind_of (m : SignedThing) : SignedKind :=
  match m with
  | SignedNodeRequest _ _ _ _ => KRequest | SignedState _ => KState | SignedStatus _ => KStatus
  | SignedEnrollment _ _ => KEnrollment | SignedEnrollmentResponse _ _ => KResponse
  | SignedRoute _ => KRoute | SignedAssignment _ => KAssignment
  end.
Definition ok {E A} (r : result E A) : option A := match r with Ok a => Some a | Err _ => None end.
Definition signed_bytes `{UuidText} `{Rfc3339} `{Base64} `{Sha256} (m : SignedThing) : option (list byte) :=
  match m with
  | SignedNodeRequest i at_ nonce c => ok (request_transcript i at_ nonce c)
  | SignedState d => ok (desired_state_transcript d)
  | SignedStatus s => ok (node_heartbeat_status_transcript s)
  | SignedEnrollment i r => ok (enrollment_request_transcript i r)
  | SignedEnrollmentResponse request r => ok (enrollment_response_transcript request r)
  | SignedRoute r => ok (relay_route_transcript r)
  | SignedAssignment a => ok (relay_assignment_transcript a)
  end.
Definition kind_domains (k : SignedKind) : list (list byte) :=
  match k with
  | KRequest => [REQUEST_DOMAIN]
  | KState => [DESIRED_STATE_V1_DOMAIN; DESIRED_STATE_V2_DOMAIN]
  | KStatus => [NODE_STATUS_V1_DOMAIN]
  | KEnrollment => [REQUEST_V1_DOMAIN; REQUEST_V2_DOMAIN]
  | KResponse => [RESPONSE_DOMAIN]
  | KRoute => [RELAY_ROUTE_DOMAIN]
  | KAssignment => [RELAY_ASSIGNMENT_DOMAIN]
  end.

Lemma response_transcript_domain `{UuidText} `{Rfc3339} `{Sha256} request r t :
  enrollment_response_transcript request r = Ok t ->
  exists fs, transcribes (("domain"%string, RESPONSE_DOMAIN) :: fs) t.
Proof.
  unfold enrollment_response_transcript. intros E. transcript. eexists.
  match goal with H : transcribes _ t |- _ => exact H end.
Qed.

Lemma ok_Some {E A} (r : result E A) a : ok r = Some a -> r = Ok a.
Proof. destruct r; cbn; congruence. Qed.

Lemma signed_domain `{UuidText} `{Rfc3339} `{Base64} `{Sha256} m t :
  signed_bytes m = Some t ->
  exists domain fs, domain ∈ kind_domains (kind_of m) /\ transcribes (("domain"%string, domain) :: fs) t.
Proof.
  destruct m; cbn [signed_bytes kind_of kind_domains]; intros E%ok_Some.
  - apply request_transcript_fields in E as (? & _ & E). eexists _, _. split; [by left|exact E].
  - apply desired_transcript_fields in E as (domain & Hd & _ & _ & E).
    apply desired_domain_ports in Hd as [_ Hd]. eexists domain, _. split; [|exact E].
    destruct Hd as [->| ->]; [by left|by right; left].
  - apply status_transcript_fields in E as [_ E]. eexists _, _. split; [by left|exact E].
  - apply enrollment_transcript_fields in E as [_ E]. eexists _, _. split; [|exact E].
    destruct (present _); [by right; left|by left].
  - apply response_transcript_domain in E as [fs E]. eexists _, fs. split; [by left|exact E].
  - apply route_transcript_fields in E as (_ & _ & E). eexists _, _. split; [by left|exact E].
  - apply assignment_transcript_fields in E as [_ E]. eexists _, _. split; [by left|exact E].
Qed.

Lemma kinds_disjoint k1 k2 d : d ∈ kind_domains k1 -> d ∈ kind_domains k2 -> k1 = k2.
Proof.
  destruct k1, k2; try done; intros H1 H2; exfalso; cbn [kind_domains] in H1, H2;
    repeat (apply elem_of_cons in H1 as [->|H1]);
    try (by inversion H1);
    repeat (apply elem_of_cons in H2 as [H2|H2]; [by vm_compute in H2|]); by inversion H2.
Qed.

(** C28: A signature has one meaning: no byte string is the transcript of two
    kinds of document, so what a key signed as a request, as desired state,
    as a heartbeat answer, in enrollment or for the relay can never be
    presented as another of these. *)
Theorem signatures_not_interchangeable `{UuidText} `{Rfc3339} `{Base64} `{Sha256}
    (m1 m2 : SignedThing) (t1 t2 : list byte) :
  signed_bytes m1 = Some t1 -> signed_bytes m2 = Some t2 -> kind_of m1 <> kind_of m2 -> t1 <> t2.
Proof.
  intros E1 E2 Hk <-. apply signed_domain in E1 as (d1 & f1 & D1 & E1), E2 as (d2 & f2 & D2 & E2).
  pose proof (transcribes_inj _ _ _ E1 E2) as E. injection E as -> _. apply Hk. by eapply kinds_disjoint.
Qed.

Lemma signatures_not_interchangeable_witness :
  exists t1 t2, signed_bytes (SignedState sample_desired) = Some t1 /\
    signed_bytes (SignedStatus sample_status) = Some t2 /\ t1 <> t2.
Proof.
  eexists _, _. split; [vm_compute; reflexivity|]. split; [vm_compute; reflexivity|].
  refine (signatures_not_interchangeable (SignedState sample_desired) (SignedStatus sample_status) _ _ _ _ _);
    [vm_compute; reflexivity|vm_compute; reflexivity|discriminate].
Defined.
