(* ===== verification/RelayError.v ===== *)
(** The relay's stable error codes and its error type
    (src/relay-server/src/error.rs). *)
From S2P Require Import Prelude.
Open Scope Z_scope.

Inductive ErrorCode : Type :=
| ProtocolInvalid | FrameTooLarge | AuthFailed | RouteUnknown | GrantExpired
| RouteUnavailable | LimitReached | OpenTimeout | IdleTimeout | TunnelLost
| RouteRevoked | Internal.

#[export] Instance ErrorCode_eq_dec : EqDecision ErrorCode.
Proof. solve_decision. Defined.

(** [ErrorCode::as_str] *)
Definition as_str (c : ErrorCode) : string :=
  match c with
  | ProtocolInvalid => "relay_protocol_invalid"
  | FrameTooLarge => "relay_frame_too_large"
  | AuthFailed => "relay_auth_failed"
  | RouteUnknown => "relay_route_unknown"
  | GrantExpired => "relay_grant_expired"
  | RouteUnavailable => "relay_route_unavailable"
  | LimitReached => "relay_limit_reached"
  | OpenTimeout => "relay_open_timeout"
  | IdleTimeout => "relay_idle_timeout"
  | TunnelLost => "relay_tunnel_lost"
  | RouteRevoked => "relay_route_revoked"
  | Internal => "relay_internal"
  end.

(** [ErrorCode::from_wire]: the byte-string literals, in source order. *)
Definition from_wire (value : list byte) : option ErrorCode :=
  let lit s := bool_decide (value = as_bytes s) in
  if lit "relay_protocol_invalid" then Some ProtocolInvalid
  else if lit "relay_frame_too_large" then Some FrameTooLarge
  else if lit "relay_auth_failed" then Some AuthFailed
  else if lit "relay_route_unknown" then Some RouteUnknown
  else if lit "relay_grant_expired" then Some GrantExpired
  else if lit "relay_route_unavailable" then Some RouteUnavailable
  else if lit "relay_limit_reached" then Some LimitReached
  else if lit "relay_open_timeout" then Some OpenTimeout
  else if lit "relay_idle_timeout" then Some IdleTimeout
  else if lit "relay_tunnel_lost" then Some TunnelLost
  else if lit "relay_route_revoked" then Some RouteRevoked
  else if lit "relay_internal" then Some Internal
  else None.

(** The part of [io::ErrorKind] the relay distinguishes. *)
Inductive IoKind : Type := UnexpectedEof | OtherIo.

Inductive RelayError : Type :=
| Stable (code : ErrorCode) (message : string)
| Io (kind : IoKind)
| Tls (message : string)
| Config (message : string).

(** [RelayError::code] *)
Definition code (e : RelayError) : ErrorCode :=
  match e with
  | Stable c _ => c
  | Io _ | Tls _ | Config _ => Internal
  end.

(** [RelayError::operational_code] *)
Definition operational_code (e : RelayError) : string :=
  match e with
  | Config message =>
      if String.prefix "managed_route" message then message else as_str (code e)
  | _ => as_str (code e)
  end.

(** Every result of the relay carries a [RelayError]. *)
Abbreviation relay_result := (result RelayError).

(** Wire error codes round-trip, and no other byte string is accepted: the
    code a peer reads is the code that was written. *)
Theorem from_wire_exact (value : list byte) (c : ErrorCode) :
  from_wire value = Some c <-> value = as_bytes (as_str c).
Proof.
  split.
  - unfold from_wire. intros H.
    repeat (case_bool_decide; [by simplify_eq|]). done.
  - intros ->. by destruct c.
Qed.
