(* ===== verification/RelayConfig.v ===== *)
(** * Relay configuration

    [src/relay-server/src/config.rs]: the configuration records, the loader
    and the validation of server bounds and of route lists. The TOML decoder,
    with the [serde] derivation that fills in the defaults, and [hex::decode]
    are parameters. *)
From S2P Require Import Prelude Text Clock ProtoTypes ProtoInstances RelayError.

Definition MIN_FRAME_BYTES : Z := 1024.
Definition MAX_FRAME_BYTES : Z := 1048576.
Definition MIN_ROUTE_ID_LEN : Z := 16.
Definition MAX_ROUTE_ID_LEN : Z := 128.
Definition MAX_MANAGED_ROUTES : Z := 8192.

(** ** Addresses and paths *)

#[export] Instance IpAddr_countable : Countable IpAddr :=
  inj_countable'
    (fun a => match a with V4 l => inl l | V6 l => inr l end)
    (fun s => match s with inl l => V4 l | inr l => V6 l end)
    ltac:(by intros []).

(** [std::net::SocketAddr]; the flow label and the scope of an IPv4 address
    are 0. *)
Record SocketAddr : Type := mkAddr {
  ip : IpAddr;
  port : Z;
  flowinfo : Z;
  scope_id : Z;
}.
#[export] Instance SocketAddr_eq_dec : EqDecision SocketAddr.
Proof. solve_decision. Defined.
#[export] Instance SocketAddr_countable : Countable SocketAddr :=
  inj_countable'
    (fun a => (ip a, port a, flowinfo a, scope_id a))
    (fun '(i, p, f, s) => mkAddr i p f s)
    ltac:(by intros []).
(** [SocketAddr::new] *)
Definition socket_addr (i : IpAddr) (p : Z) : SocketAddr := mkAddr i p 0 0.

(** Unix paths, as [std::path::Path] compares and joins them *)
Definition path_absolute (p : list byte) : bool := starts_with ["/"%byte] p.
Definition path_components (p : list byte) : bool * list (list byte) :=
  let segments := split_on "/"%byte p in
  let keep s := bool_decide (s <> [] /\ s <> ["."%byte]) in
  if path_absolute p then (true, List.filter keep segments)
  else match segments with
       | s :: rest =>
           (false, if bool_decide (s = ["."%byte]) then s :: List.filter keep rest
                   else List.filter keep segments)
       | [] => (false, [])
       end.
Definition path_eq (p q : list byte) : bool := bool_decide (path_components p = path_components q).
Definition path_join (base p : list byte) : list byte :=
  if path_absolute p then p
  else match last base with
       | Some c => if bool_decide (c = "/"%byte) then base ++ p else base ++ "/"%byte :: p
       | None => base ++ p
       end.

(** ** Records *)

Record ManagedRoutesConfig : Type := mkManaged {
  mrc_relay_id : RelayId;
  managed_routes_directory : list byte;
  quota_state_directory : list byte;
  controller_public_key : string;
  public_listen_ip : IpAddr;
  public_port_start : Z;
  public_port_end : Z;
  mrc_max_concurrent_streams : Z;
  mrc_max_bytes_per_second : Z;
  mrc_max_bytes_per_connection : Z;
  mrc_monthly_byte_limit : Z;
}.

Record ServerConfig : Type := mkServer {
  node_listen : SocketAddr;
  metrics_listen : SocketAddr;
  tls_cert_path : list byte;
  tls_key_path : list byte;
  client_ca_path : list byte;
  max_frame_bytes : Z;
  command_queue_frames : Z;
  stream_buffer_frames : Z;
  initial_window_bytes : Z;
  open_timeout_secs : Z;
  no_payload_timeout_secs : Z;
  idle_timeout_secs : Z;
  heartbeat_interval_secs : Z;
  heartbeat_timeout_secs : Z;
  reload_interval_secs : Z;
  max_routes : Z;
  max_node_connections : Z;
}.

Record RouteConfig : Type := mkRouteConfig {
  rc_route_id : string;
  public_listen : SocketAddr;
  node_token_sha256 : string;
  node_cert_sha256 : string;
  rc_expires_at : OffsetDateTime;
  enabled : bool;
  rc_max_concurrent_streams : Z;
  rc_max_bytes_per_second : Z;
  rc_max_bytes_per_connection : Z;
  rc_monthly_byte_limit : option Z;
}.
#[export] Instance RouteConfig_eq_dec : EqDecision RouteConfig.
Proof. solve_decision. Defined.

Record RelayConfig : Type := mkConfig {
  server : ServerConfig;
  managed_routes : option ManagedRoutesConfig;
  routes : list RouteConfig;
}.

Definition config_error {A} (message : string) : relay_result A := Err (Config message).

(** ** Routes *)

(** [RouteConfig::is_expired] *)
Definition is_expired (r : RouteConfig) (now : OffsetDateTime) : bool :=
  time_le (rc_expires_at r) now.

(** [RouteConfig::token_matches] and [cert_matches]; [ct_eq] is equality in
    constant time, and [hex::decode] the parameter. *)
Definition token_matches (hex_decode : string -> option (list byte)) (r : RouteConfig)
    (candidate : list byte) : bool :=
  match hex_decode (node_token_sha256 r) with
  | Some expected => bool_decide (expected = candidate)
  | None => false
  end.
Definition cert_matches (hex_decode : string -> option (list byte)) (r : RouteConfig)
    (candidate : list byte) : bool :=
  match hex_decode (node_cert_sha256 r) with
  | Some expected => bool_decide (expected = candidate)
  | None => false
  end.

(** [validate_route_id] *)
Definition validate_route_id (id : string) : relay_result unit :=
  ensure ((MIN_ROUTE_ID_LEN <=? str_len id) && (str_len id <=? MAX_ROUTE_ID_LEN)
          && forallb (fun b => is_ascii_alphanumeric b || bool_decide (b = "_"%byte)
                               || bool_decide (b = "-"%byte)) (as_bytes id))
    (Config "route_id must be 16-128 ASCII URL-safe characters").

(** [validate_digest] *)
Definition validate_digest (name value : string) : relay_result unit :=
  ensure ((str_len value =? 64) && forallb is_ascii_hexdigit (as_bytes value))
    (Config (String.append name
       " must be a 32-byte lowercase or uppercase hexadecimal digest")).

(** One round of the loop of [validate_routes], with its two [HashSet]s *)
Definition validate_next_route (s : ServerConfig) (seen : gset string * gset SocketAddr)
    (r : RouteConfig) : relay_result (gset string * gset SocketAddr) :=
  _ ← validate_route_id (rc_route_id r);
  _ ← validate_digest "node_token_sha256" (node_token_sha256 r);
  _ ← validate_digest "node_cert_sha256" (node_cert_sha256 r);
  _ ← ensure (bool_decide (rc_route_id r ∉ seen.1)) (Config "duplicate route_id");
  _ ← ensure (bool_decide (public_listen r ∉ seen.2)) (Config "duplicate public_listen");
  if negb (port (public_listen r) =? 0)
     && (bool_decide (public_listen r = node_listen s)
         || bool_decide (public_listen r = metrics_listen s)) then
    config_error "public listener conflicts with a service listener"
  else if (rc_max_concurrent_streams r =? 0)
     || (rc_max_bytes_per_second r <? initial_window_bytes s)
     || (rc_max_bytes_per_connection r <? initial_window_bytes s)
     || match rc_monthly_byte_limit r with
        | Some limit => limit <? initial_window_bytes s
        | None => false
        end then
    config_error "route limits must be non-zero and at least initial_window_bytes"
  else Ok ({[rc_route_id r]} ∪ seen.1, {[public_listen r]} ∪ seen.2).

(** [RelayConfig::validate_routes] *)
Definition validate_routes (s : ServerConfig) (rs : list RouteConfig) : relay_result unit :=
  _ ← ensure (zlen rs <=? max_routes s) (Config "route count exceeds max_routes");
  _ ← try_fold (validate_next_route s) (∅, ∅) rs;
  Ok tt.

(** ** The configuration *)

(** The [managed_routes] part of [RelayConfig::validate] *)
Definition validate_managed (s : ServerConfig) (m : ManagedRoutesConfig) : relay_result unit :=
  _ ← ensure (max_routes s <=? MAX_MANAGED_ROUTES)
        (Config "managed max_routes must not exceed 8192");
  _ ← ensure (negb ((public_port_start m =? 0)
                    || (public_port_end m <? public_port_start m)
                    || (mrc_max_concurrent_streams m =? 0)
                    || (mrc_max_bytes_per_second m <? initial_window_bytes s)
                    || (mrc_max_bytes_per_connection m <? initial_window_bytes s)
                    || (mrc_monthly_byte_limit m <? initial_window_bytes s)))
        (Config "managed route bounds are inconsistent");
  _ ← ensure (negb (path_eq (managed_routes_directory m) (quota_state_directory m)))
        (Config "managed route registry and quota state directories must be distinct");
  try_for_each
    (fun address =>
       ensure (negb (bool_decide (ip address = public_listen_ip m)
                     && (public_port_start m <=? port address) && (port address <=? public_port_end m)))
         (Config "managed public port range conflicts with a service listener"))
    [node_listen s; metrics_listen s].

(** [RelayConfig::validate]; [usize::try_from] of a [u32] cannot fail. *)
Definition validate (c : RelayConfig) : relay_result unit :=
  let s := server c in
  _ ← ensure (zlen (routes c) <=? max_routes s) (Config "route count exceeds max_routes");
  _ ← ensure ((MIN_FRAME_BYTES <=? max_frame_bytes s) && (max_frame_bytes s <=? MAX_FRAME_BYTES))
        (Config "max_frame_bytes must be between 1024 and 1048576");
  _ ← ensure (negb ((command_queue_frames s =? 0) || (stream_buffer_frames s =? 0)))
        (Config "frame queue capacities must be non-zero");
  _ ← ensure (negb ((initial_window_bytes s =? 0) || (initial_window_bytes s <? max_frame_bytes s)))
        (Config "initial_window_bytes must fit at least one maximum frame");
  _ ← ensure (negb ((open_timeout_secs s =? 0) || (no_payload_timeout_secs s =? 0)
                    || (idle_timeout_secs s <? no_payload_timeout_secs s)
                    || (heartbeat_interval_secs s =? 0)
                    || (heartbeat_timeout_secs s <=? heartbeat_interval_secs s)
                    || (reload_interval_secs s =? 0) || (max_routes s =? 0)
                    || (max_node_connections s =? 0)))
        (Config "timeouts, reload interval, and max_routes are inconsistent");
  _ ← ensure (is_loopback (ip (metrics_listen s)))
        (Config "metrics_listen must use a loopback address");
  _ ← match managed_routes c with Some m => validate_managed s m | None => Ok tt end;
  _ ← ensure (negb (match managed_routes c with None => true | Some _ => false end
                    && existsb (fun r => match rc_monthly_byte_limit r with
                                         | Some _ => true | None => false end) (routes c)))
        (Config "finite monthly route limits require managed quota state");
  validate_routes s (routes c).

(** The paths of a loaded configuration, relative to the directory [base] of
    its file *)
Definition resolve_server (base : list byte) (s : ServerConfig) : ServerConfig :=
  mkServer (node_listen s) (metrics_listen s) (path_join base (tls_cert_path s))
    (path_join base (tls_key_path s)) (path_join base (client_ca_path s))
    (max_frame_bytes s) (command_queue_frames s) (stream_buffer_frames s)
    (initial_window_bytes s) (open_timeout_secs s) (no_payload_timeout_secs s)
    (idle_timeout_secs s) (heartbeat_interval_secs s) (heartbeat_timeout_secs s)
    (reload_interval_secs s) (max_routes s) (max_node_connections s).
Definition resolve_managed (base : list byte) (m : ManagedRoutesConfig) : ManagedRoutesConfig :=
  mkManaged (mrc_relay_id m) (path_join base (managed_routes_directory m))
    (path_join base (quota_state_directory m)) (controller_public_key m) (public_listen_ip m)
    (public_port_start m) (public_port_end m) (mrc_max_concurrent_streams m)
    (mrc_max_bytes_per_second m) (mrc_max_bytes_per_connection m) (mrc_monthly_byte_limit m).

(** [RelayConfig::load]: [file] is what reading the path gives, [parse_toml]
    the TOML decoder, [base] the parent directory of the path. *)
Definition load (parse_toml : string -> option RelayConfig) (file : option (list byte))
    (base : list byte) : relay_result RelayConfig :=
  bytes ← ok_or file (Config "cannot read");
  text ← ok_or (from_utf8 bytes) (Config "configuration is not UTF-8");
  config ← ok_or (parse_toml text) (Config "invalid TOML");
  let config := mkConfig (resolve_server base (server config))
                  (resolve_managed base <$> managed_routes config) (routes config) in
  _ ← validate config;
  Ok config.

(** The [serde] defaults *)
Definition default_server (node metrics : SocketAddr) (cert key ca : list byte) : ServerConfig :=
  mkServer node metrics cert key ca 65536 256 16 262144 10 120 1800 15 45 2 1024 1024.
Definition default_route (id : string) (listen : SocketAddr) (token cert : string)
    (expires : OffsetDateTime) : RouteConfig :=
  mkRouteConfig id listen token cert expires true 16 2500000 (10 * 1024 * 1024 * 1024) None.

(** ** What a valid configuration is *)

Definition url_safe (b : byte) : Prop :=
  is_ascii_alphanumeric b = true \/ b = "_"%byte \/ b = "-"%byte.
Definition hex_digest (v : string) : Prop :=
  str_len v = 64 /\ Forall (fun b => is_ascii_hexdigit b = true) (as_bytes v).

Record route_ok (s : ServerConfig) (r : RouteConfig) : Prop := {
  ok_id_length : MIN_ROUTE_ID_LEN <= str_len (rc_route_id r) <= MAX_ROUTE_ID_LEN;
  ok_id_bytes : Forall url_safe (as_bytes (rc_route_id r));
  ok_token : hex_digest (node_token_sha256 r);
  ok_cert : hex_digest (node_cert_sha256 r);
  ok_listener : port (public_listen r) <> 0 ->
    public_listen r <> node_listen s /\ public_listen r <> metrics_listen s;
  ok_streams : rc_max_concurrent_streams r <> 0;
  ok_rate : initial_window_bytes s <= rc_max_bytes_per_second r;
  ok_connection : initial_window_bytes s <= rc_max_bytes_per_connection r;
  ok_monthly : forall limit, rc_monthly_byte_limit r = Some limit -> initial_window_bytes s <= limit;
}.

Record routes_ok (s : ServerConfig) (rs : list RouteConfig) : Prop := {
  ok_count : zlen rs <= max_routes s;
  ok_ids : NoDup (rc_route_id <$> rs);
  ok_addresses : NoDup (public_listen <$> rs);
  ok_each : Forall (route_ok s) rs;
}.

Record server_ok (s : ServerConfig) : Prop := {
  ok_frame : MIN_FRAME_BYTES <= max_frame_bytes s <= MAX_FRAME_BYTES;
  ok_queues : command_queue_frames s <> 0 /\ stream_buffer_frames s <> 0;
  ok_window : initial_window_bytes s <> 0 /\ max_frame_bytes s <= initial_window_bytes s;
  ok_timeouts : open_timeout_secs s <> 0 /\ no_payload_timeout_secs s <> 0 /\
    no_payload_timeout_secs s <= idle_timeout_secs s;
  ok_heartbeat : heartbeat_interval_secs s <> 0 /\
    heartbeat_interval_secs s < heartbeat_timeout_secs s;
  ok_capacity : reload_interval_secs s <> 0 /\ max_routes s <> 0 /\ max_node_connections s <> 0;
  ok_metrics : is_loopback (ip (metrics_listen s)) = true;
}.

Record managed_ok (s : ServerConfig) (m : ManagedRoutesConfig) : Prop := {
  ok_managed_routes : max_routes s <= MAX_MANAGED_ROUTES;
  ok_ports : public_port_start m <> 0 /\ public_port_start m <= public_port_end m;
  ok_managed_streams : mrc_max_concurrent_streams m <> 0;
  ok_ceilings : initial_window_bytes s <= mrc_max_bytes_per_second m /\
    initial_window_bytes s <= mrc_max_bytes_per_connection m /\
    initial_window_bytes s <= mrc_monthly_byte_limit m;
  ok_directories :
    path_components (managed_routes_directory m) <> path_components (quota_state_directory m);
  ok_service_ports : forall a, a ∈ [node_listen s; metrics_listen s] ->
    ip a = public_listen_ip m -> ~ public_port_start m <= port a <= public_port_end m;
}.

Record config_ok (c : RelayConfig) : Prop := {
  ok_server : server_ok (server c);
  ok_managed : forall m, managed_routes c = Some m -> managed_ok (server c) m;
  ok_quota : managed_routes c = None -> forall r, r ∈ routes c -> rc_monthly_byte_limit r = None;
  ok_routes : routes_ok (server c) (routes c);
}.

(** ** Lemmas *)

Lemma forallb_Forall {A} (f : A -> bool) l : forallb f l = true <-> Forall (fun x => f x = true) l.
Proof. rewrite forallb_forall, List.Forall_forall. done. Qed.

(** Reads the boolean conditions of the code as propositions. *)
Ltac conditions :=
  repeat rewrite ?ensure_Ok, ?bind_Ok, ?negb_true_iff, ?orb_false_iff, ?andb_true_iff,
    ?andb_false_iff, ?Z.leb_le, ?Z.eqb_neq, ?Z.eqb_eq, ?Z.ltb_ge, ?Z.leb_gt,
    ?bool_decide_eq_true, ?bool_decide_eq_false, ?forallb_Forall.

(** Passes the check in front, whose condition [tac] proves. *)
Ltac pass_check tac :=
  match goal with |- (ensure ?b _ ≫= _) = Ok _ =>
    let H := fresh in assert (b = true) as H by tac; rewrite H; clear H; rsimpl
  end.

Lemma validate_route_id_Ok id :
  validate_route_id id = Ok tt <->
  MIN_ROUTE_ID_LEN <= str_len id <= MAX_ROUTE_ID_LEN /\ Forall url_safe (as_bytes id).
Proof.
  unfold validate_route_id. conditions. unfold url_safe.
  assert (forall l, Forall (fun b : byte =>
    (is_ascii_alphanumeric b || bool_decide (b = "_"%byte) || bool_decide (b = "-"%byte)) = true) l
    <-> Forall (fun b => is_ascii_alphanumeric b = true \/ b = "_"%byte \/ b = "-"%byte) l) as ->; [|tauto].
  intros l. apply Forall_iff. intros b. rewrite !orb_true_iff, !bool_decide_eq_true. tauto.
Qed.

Lemma validate_digest_Ok name v : validate_digest name v = Ok tt <-> hex_digest v.
Proof. unfold validate_digest, hex_digest. by conditions. Qed.

Lemma validate_next_route_Ok s seen r out :
  validate_next_route s seen r = Ok out <->
  route_ok s r /\ (rc_route_id r ∉ seen.1) /\ (public_listen r ∉ seen.2) /\
  out = ({[rc_route_id r]} ∪ seen.1, {[public_listen r]} ∪ seen.2).
Proof.
  unfold validate_next_route. split.
  - intros H. inv_ok.
    match goal with H : (if ?b then _ else _) = Ok _ |- _ => destruct b eqn:E1; [done|] end.
    match goal with H : (if ?b then _ else _) = Ok _ |- _ => destruct b eqn:E2; [done|] end. inv_ok.
    apply validate_route_id_Ok in H as [? ?]. apply validate_digest_Ok in H0, H1.
    bool_props. split; [|by split_and!]. constructor; try done.
    + intros Hp. destruct E1 as [E1|E1]; bool_props; done.
    + intros limit Hl. rewrite Hl in *. bool_props. done.
  - intros ([H1 H2 H3 H4 H5 H6 H7 H8 H9] & Hi & Ha & ->).
    rewrite (proj2 (validate_route_id_Ok _) (conj H1 H2)). rsimpl.
    rewrite !(proj2 (validate_digest_Ok _ _)) by done. rsimpl.
    rewrite (bool_decide_eq_true_2 (rc_route_id r ∉ _)) by done.
    rewrite (bool_decide_eq_true_2 (public_listen r ∉ _)) by done. rsimpl.
    replace (negb _ && _) with false.
    2: { destruct (Z.eqb_spec (port (public_listen r)) 0); [done|]. simpl.
         destruct (H5 n). by rewrite !bool_decide_eq_false_2. }
    replace (_ || _ || _ || _) with false; [done|]. symmetry. conditions.
    repeat split; try done. destruct (rc_monthly_byte_limit r); [|done].
    apply Z.ltb_ge. by apply H9.
Qed.

Lemma validate_loop_Ok s seen rs :
  (exists out, try_fold (validate_next_route s) seen rs = Ok out) <->
  NoDup (rc_route_id <$> rs) /\ NoDup (public_listen <$> rs) /\ Forall (route_ok s) rs /\
  Forall (fun r => (rc_route_id r ∉ seen.1) /\ (public_listen r ∉ seen.2)) rs.
Proof.
  revert seen. induction rs as [|r rs IH]; intros seen; cbn [try_fold].
  { split; [|eauto]. intros _. repeat split; constructor. }
  rewrite !fmap_cons, !NoDup_cons, !Forall_cons. split.
  - intros [out H]. apply bind_Ok in H as (seen' & H1 & H2).
    apply validate_next_route_Ok in H1 as (? & ? & ? & ->).
    destruct (proj1 (IH _) (ex_intro _ _ H2)) as (? & ? & ? & Hs). simpl in Hs.
    split_and!; try done; rewrite ?list_elem_of_fmap.
    + intros (r' & Hr & Hin). rewrite Forall_forall in Hs. specialize (Hs _ Hin). set_solver.
    + intros (r' & Hr & Hin). rewrite Forall_forall in Hs. specialize (Hs _ Hin). set_solver.
    + eapply Forall_impl; [exact Hs|]. simpl. set_solver.
  - intros ([Hi ?] & [Ha ?] & [? ?] & [? ?] & Hs).
    destruct (proj2 (IH ({[rc_route_id r]} ∪ seen.1, {[public_listen r]} ∪ seen.2)))
      as [out Hout]; [|exists out; apply bind_Ok; eexists; split; [by apply validate_next_route_Ok|done]].
    split_and!; try done. rewrite Forall_forall in *. intros r' Hin. simpl.
    specialize (Hs _ Hin). rewrite list_elem_of_fmap in Hi.
    rewrite list_elem_of_fmap in Ha. set_solver.
Qed.

Lemma validate_routes_Ok s rs : validate_routes s rs = Ok tt <-> routes_ok s rs.
Proof.
  unfold validate_routes. split.
  - intros H. inv_ok. bool_props.
    destruct (proj1 (validate_loop_Ok s (∅, ∅) rs)) as (? & ? & ? & _); [eauto|]. by split.
  - intros [Hc Hi Ha He]. rewrite (proj2 (Z.leb_le _ _)) by done. rsimpl.
    edestruct (proj2 (validate_loop_Ok s (∅, ∅) rs)) as [out Hout].
    { split_and!; try done. apply Forall_forall. simpl. set_solver. }
    rewrite Hout. done.
Qed.

Lemma validate_managed_Ok s m : validate_managed s m = Ok tt <-> managed_ok s m.
Proof.
  unfold validate_managed, path_eq. split.
  - intros H. inv_ok. bool_props.
    match goal with H : try_for_each _ _ = Ok _ |- _ => apply try_for_each_Ok in H as Hall end.
    constructor; try done.
    intros a Ha Hip Hp. rewrite Forall_forall in Hall. specialize (Hall _ Ha). inv_ok.
    rewrite bool_decide_eq_true_2, !(proj2 (Z.leb_le _ _)) in Hall by (done || lia). done.
  - intros [H1 [H2 H2'] H3 (H4 & H4' & H4'') H5 H6].
    rewrite (proj2 (Z.leb_le _ _)) by done. rsimpl.
    replace (negb (_ || _ || _ || _ || _ || _)) with true.
    2: { symmetry. by conditions. }
    rsimpl. rewrite bool_decide_eq_false_2 by done. rsimpl.
    apply try_for_each_Ok, Forall_forall. intros a Ha. apply ensure_Ok, negb_true_iff.
    destruct (bool_decide_reflect (ip a = public_listen_ip m)) as [Hip|]; [|done].
    specialize (H6 a Ha Hip). simpl. conditions.
    destruct (Z.le_gt_cases (public_port_start m) (port a)); [right|left]; lia.
Qed.

Lemma validate_Ok (c : RelayConfig) : validate c = Ok tt <-> config_ok c.
Proof.
  unfold validate. split.
  - intros H. inv_ok. bool_props.
    match goal with H : validate_routes _ _ = Ok _ |- _ => apply validate_routes_Ok in H end.
    constructor; [constructor; (done || lia || (split_and!; done || lia))|..|done].
    + intros m Hm. rewrite Hm in *. by apply validate_managed_Ok.
    + intros Hn r Hr. rewrite Hn in *.
      match goal with H : true = false \/ _ |- _ => destruct H as [|Hnone]; [done|] end.
      destruct (rc_monthly_byte_limit r) eqn:E; [|done]. exfalso.
      rewrite <- not_true_iff_false in Hnone. apply Hnone, existsb_exists.
      exists r. split; [by apply list_elem_of_In|]. by rewrite E.
  - intros [[Hf Hq Hw Ht Hh Hc Hm] Hma Hqu Hr]. pose proof Hr as [Hcount _ _ _].
    apply validate_routes_Ok in Hr.
    do 5 pass_check ltac:(conditions; lia). pass_check ltac:(done).
    replace (match managed_routes c with Some m => _ | None => _ end) with (Ok tt : relay_result unit).
    2: { destruct (managed_routes c) as [m|]; [|done]. symmetry. by apply validate_managed_Ok, Hma. }
    rsimpl. replace (negb (_ && _)) with true; [done|]. symmetry. apply negb_true_iff.
    destruct (managed_routes c); [done|]. simpl. apply not_true_iff_false.
    rewrite existsb_exists. intros (r & Hin & Hsome). apply list_elem_of_In in Hin.
    by rewrite (Hqu eq_refl r Hin) in Hsome.
Qed.

(** A loaded configuration is valid. *)
Lemma load_valid parse_toml file base c :
  load parse_toml file base = Ok c -> config_ok c.
Proof. unfold load. intros H. inv_ok. by apply validate_Ok. Qed.

(** [RelayConfig::validate] accepts exactly the configurations whose
    bounds are consistent: a frame fits the stream window and the window every
    byte limit, timeouts and heartbeats are ordered, metrics stay on loopback,
    route identities and listeners are unique, syntactically valid and apart
    from the service listeners, and monthly limits have a quota store. *)
Theorem config_validate_exact (c : RelayConfig) : validate c = Ok tt <-> config_ok c.
Proof. apply validate_Ok. Qed.
