(* ===== verification/RelayRegistry.v ===== *)
(** * The managed route registry of the relay

    [src/relay-server/src/registry.rs]: the controller publishes one signed
    route document per grant into a directory the relay reads. The model keeps
    what the loader observes of the file system: the directory, the entries
    the directory scan returns, and for each entry what the metadata call, the
    open and the read see, which may be three different files. [serde_json] on
    route documents is a parameter. *)
From stdpp Require Import sorting.
From S2P Require Import Prelude Text Clock ProtoTypes ProtoInstances ProtoTranscript ProtoRelay.
From S2P Require Import RelayError RelayConfig.

Definition MAX_ROUTE_FILE_BYTES : Z := 64 * 1024.
Definition MAX_ROUTE_FILE_NAME_BYTES : Z := 255.
Definition managed_error {A} (c : string) : relay_result A := Err (Config c).

(** ** What the file system shows *)

(** [fs::Metadata] *)
Record Metadata : Type := mkMeta {
  md_dir : bool;
  md_file : bool;
  md_uid : Z;
  md_mode : Z;
  md_dev : Z;
  md_ino : Z;
  md_len : Z;
}.

(** One directory entry: its name, the metadata of its path, the metadata of
    the opened file and the bytes read from it, [None] where a call fails *)
Record Entry : Type := mkEntry {
  file_name : list byte;
  path_meta : option Metadata;
  open_meta : option Metadata;
  read_bytes : option (list byte);
}.

(** The directory and the outcome of its scan; a [None] entry is an error
    while scanning. *)
Record Registry : Type := mkRegistry {
  dir_meta : option Metadata;
  scan : option (list (option Entry));
}.

Record ManagedRouteSnapshot : Type := mkSnapshot {
  fingerprint : list byte;
  snapshot_routes : list RouteConfig;
}.

(** ** Files *)

(** [validate_directory_owner] *)
Definition validate_directory_owner (euid : Z) (m : Metadata) : relay_result unit :=
  ensure ((md_uid m =? euid) && (Z.land (md_mode m) 0x1FF =? 0x1C0))
    (Config "managed_routes_directory_permissions_invalid").

(** [validate_file_metadata] *)
Definition validate_file_metadata (m : Metadata) (expected_owner : Z) : relay_result unit :=
  _ ← ensure (md_file m) (Config "managed_route_file_type_invalid");
  _ ← ensure ((md_uid m =? expected_owner) && (Z.land (md_mode m) 0x1FF =? 0x180))
        (Config "managed_route_file_permissions_invalid");
  ensure (negb ((md_len m =? 0) || (MAX_ROUTE_FILE_BYTES <? md_len m)))
    (Config "managed_route_file_size_invalid").

(** [validate_same_file] *)
Definition validate_same_route_file (before after : Metadata) : relay_result unit :=
  ensure ((md_dev before =? md_dev after) && (md_ino before =? md_ino after))
    (Config "managed_route_file_changed").

(** [read_route_file]; reading stops one byte behind the limit. *)
Definition read_route_file (e : Entry) (expected_owner : Z) : relay_result (list byte) :=
  before ← ok_or (path_meta e) (Config "managed_route_file_unavailable");
  _ ← validate_file_metadata before expected_owner;
  opened ← ok_or (open_meta e) (Config "managed_route_file_unavailable");
  _ ← validate_file_metadata opened expected_owner;
  _ ← validate_same_route_file before opened;
  content ← ok_or (read_bytes e) (Config "managed_route_file_unreadable");
  let bytes := take (Z.to_nat (MAX_ROUTE_FILE_BYTES + 1)) content in
  _ ← ensure (negb (bool_decide (bytes = []) || (MAX_ROUTE_FILE_BYTES <? zlen bytes)))
        (Config "managed_route_file_size_invalid");
  Ok bytes.

(** [str::strip_suffix] *)
Definition strip_suffix (p l : list byte) : option (list byte) :=
  @rev byte <$> strip_prefix (rev p) (rev l).

(** [validate_file_name] *)
Definition validate_file_name `{UuidText} (name : list byte) : relay_result RelayGrantId :=
  _ ← ok_or (from_utf8 name) (Config "managed_route_filename_invalid");
  let stem := default [] (strip_suffix (as_bytes ".relay-route.json") name) in
  _ ← ensure (zlen name <=? MAX_ROUTE_FILE_NAME_BYTES) (Config "managed_route_filename_invalid");
  map_err (fun _ => Config "managed_route_filename_invalid") (id_from_str (str_of_bytes stem)).

(** The order of [OsString]s *)
Fixpoint bytes_leb (l k : list byte) : bool :=
  match l, k with
  | [], _ => true
  | _ :: _, [] => false
  | a :: l', b :: k' =>
      if byte_to_Z a =? byte_to_Z b then bytes_leb l' k' else byte_to_Z a <? byte_to_Z b
  end.
Definition entry_le (a b : Entry) : Prop := bytes_leb (file_name a) (file_name b) = true.
#[export] Instance entry_le_dec a b : Decision (entry_le a b) := decide (_ = true).

(** ** Routes *)

(** [digest_hex] *)
Definition digest_hex (value : string) : relay_result string :=
  ok_or (str_of_bytes <$> strip_prefix (as_bytes "sha256:") (as_bytes value))
    (Config "managed_route_digest_invalid").

(** [convert_route] *)
Definition convert_route `{UuidText} (c : ManagedRoutesConfig) (signed : SignedRelayRoute)
    : relay_result RouteConfig :=
  let header := route_header signed in
  _ ← ensure (bool_decide (relay_id header = mrc_relay_id c)) (Config "managed_route_relay_mismatch");
  _ ← ensure ((public_port_start c <=? public_port header) && (public_port header <=? public_port_end c))
        (Config "managed_route_port_out_of_range");
  _ ← ensure (negb ((mrc_max_concurrent_streams c <? max_concurrent_streams (limits header))
                    || (mrc_max_bytes_per_second c <? max_bytes_per_second (limits header))
                    || (mrc_max_bytes_per_connection c <? max_bytes_per_connection (limits header))
                    || (mrc_monthly_byte_limit c <? monthly_byte_limit (limits header))))
        (Config "managed_route_ceiling_exceeded");
  token ← digest_hex (route_token_sha256 signed);
  cert ← digest_hex (client_certificate_sha256 signed);
  Ok (mkRouteConfig (uuid_to_string (grant_id header))
        (socket_addr (public_listen_ip c) (public_port header)) token cert (expires_at header) true
        (max_concurrent_streams (limits header)) (max_bytes_per_second (limits header))
        (max_bytes_per_connection (limits header)) (Some (monthly_byte_limit (limits header)))).

(** [validate_static_managed_listener_conflicts] *)
Definition validate_static_managed_listener_conflicts (static managed : list RouteConfig)
    : relay_result unit :=
  try_for_each
    (fun s => try_for_each
       (fun m => ensure (negb (port (public_listen s) =? port (public_listen m)))
          (Config "managed_route_static_listener_conflict")) managed)
    static.

Section Load.
Context `{UuidText} `{Rfc3339} `{Base64} `{Sha256} `{Ed25519}.
Context (route_from_json : list byte -> option SignedRelayRoute).
Context (euid : Z).

(** The accumulators of the loop of [load_managed_routes]: the bytes hashed so
    far, the routes, and the three [HashSet]s *)
Record LoadState : Type := mkLoad {
  hashed : list byte;
  loaded : list RouteConfig;
  route_generations : gset (RelayRouteId * Z);
  endpoint_ids : gset EndpointId;
  public_ports : gset Z;
}.

(** One round of the loop *)
Definition load_entry (c : ManagedRoutesConfig) (now : OffsetDateTime) (owner : Z)
    (expected_key_id : SigningKeyId) (st : LoadState) (e : Entry) : relay_result LoadState :=
  file_grant_id ← validate_file_name (file_name e);
  bytes ← read_route_file e owner;
  let hashed1 := hashed st ++ be_bytes 8 (zlen (file_name e)) ++ file_name e
                 ++ be_bytes 8 (zlen bytes) ++ bytes in
  signed ← ok_or (route_from_json bytes) (Config "managed_route_json_invalid");
  _ ← map_err (fun _ => Config "managed_route_header_invalid") (route_validate signed);
  let header := route_header signed in
  _ ← ensure (bool_decide (grant_id header = file_grant_id))
        (Config "managed_route_filename_grant_mismatch");
  _ ← ensure (bool_decide (route_signing_key_id signed = expected_key_id))
        (Config "managed_route_key_id_mismatch");
  _ ← map_err (fun _ => Config "managed_route_signature_invalid")
        (verify_relay_route_signature signed (controller_public_key c));
  let active := time_le (not_before header) now && time_lt now (expires_at header) in
  let hashed2 := hashed1 ++ [if active then x01 else x00] in
  if negb active then
    Ok (mkLoad hashed2 (loaded st) (route_generations st) (endpoint_ids st) (public_ports st))
  else
    let identity := (route_id header, generation header) in
    _ ← ensure (bool_decide (identity ∉ route_generations st))
          (Config "managed_route_duplicate_generation");
    _ ← ensure (bool_decide (endpoint_id header ∉ endpoint_ids st))
          (Config "managed_route_duplicate_endpoint");
    route ← convert_route c signed;
    _ ← ensure (bool_decide (port (public_listen route) ∉ public_ports st))
          (Config "managed_route_duplicate_public_port");
    Ok (mkLoad hashed2 (loaded st ++ [route]) ({[identity]} ∪ route_generations st)
          ({[endpoint_id header]} ∪ endpoint_ids st)
          ({[port (public_listen route)]} ∪ public_ports st)).

(** The scan, as [collect::<Result<Vec<_>>>] *)
Definition collect_entries (l : list (option Entry)) : relay_result (list Entry) :=
  ok_or (mapM (fun o => o) l) (Config "managed_routes_directory_unreadable").

(** [load_managed_routes] up to the digest; [u64::try_from] of a length cannot
    fail. *)
Definition load_registry (c : ManagedRoutesConfig) (max : Z) (now : OffsetDateTime)
    (reg : Registry) : relay_result LoadState :=
  dir ← ok_or (dir_meta reg) (Config "managed_routes_directory_unavailable");
  _ ← ensure (md_dir dir) (Config "managed_routes_directory_invalid");
  _ ← validate_directory_owner euid dir;
  listing ← ok_or (scan reg) (Config "managed_routes_directory_unreadable");
  entries ← collect_entries listing;
  _ ← ensure (zlen entries <=? max) (Config "managed_routes_count_exceeded");
  let entries := merge_sort entry_le entries in
  expected_key_id ← map_err (fun _ => Config "managed_routes_key_invalid")
                      (ed25519_signing_key_id (controller_public_key c));
  let start := as_bytes "relay-managed-routes-v1" ++ be_bytes 8 (zlen entries) in
  try_fold (load_entry c now (md_uid dir) expected_key_id) (mkLoad start [] ∅ ∅ ∅) entries.

(** [load_managed_routes] *)
Definition load_managed_routes (c : ManagedRoutesConfig) (max : Z) (now : OffsetDateTime)
    (reg : Registry) : relay_result ManagedRouteSnapshot :=
  st ← load_registry c max now reg;
  Ok (mkSnapshot (sha256 (hashed st)) (loaded st)).

(** [load_effective_routes]; the worker thread is assumed to join. *)
Definition load_effective_routes (c : RelayConfig) (now : OffsetDateTime) (reg : Registry)
    : relay_result (list RouteConfig * option (list byte)) :=
  match managed_routes c with
  | None => Ok (routes c, None)
  | Some managed =>
      snapshot ← load_managed_routes managed (max_routes (server c)) now reg;
      _ ← validate_static_managed_listener_conflicts (routes c) (snapshot_routes snapshot);
      let effective := routes c ++ snapshot_routes snapshot in
      _ ← validate_routes (server c) effective;
      Ok (effective, Some (fingerprint snapshot))
  end.

(** ** What an accepted document is *)

Definition active (now : OffsetDateTime) (h : RelayAssignmentHeader) : bool :=
  time_le (not_before h) now && time_lt now (expires_at h).

(** The file of entry [e] holds the document [signed], which the controller
    signed under the pinned key for the grant the file is named after. *)
Record accepted (c : ManagedRoutesConfig) (owner : Z) (e : Entry) (signed : SignedRelayRoute)
    : Prop := {
  acc_name : validate_file_name (file_name e) = Ok (grant_id (route_header signed));
  acc_bytes : exists bytes, read_route_file e owner = Ok bytes /\ route_from_json bytes = Some signed;
  acc_valid : route_validate signed = Ok tt;
  acc_signature : verify_relay_route_signature signed (controller_public_key c) = Ok tt;
}.

(** The document allows the route [r] on this relay at time [now], within the
    ceilings of the operator. *)
Record allows (c : ManagedRoutesConfig) (now : OffsetDateTime) (signed : SignedRelayRoute)
    (r : RouteConfig) : Prop := {
  alw_relay : relay_id (route_header signed) = mrc_relay_id c;
  alw_window : instant (not_before (route_header signed)) <= instant now
    < instant (expires_at (route_header signed));
  alw_expiry : rc_expires_at r = expires_at (route_header signed) /\ is_expired r now = false;
  alw_id : rc_route_id r = registration_route_id (route_header signed);
  alw_listen : public_listen r = socket_addr (public_listen_ip c) (public_port (route_header signed)) /\
    public_port_start c <= port (public_listen r) <= public_port_end c;
  alw_token : route_token_sha256 signed = String.append "sha256:" (node_token_sha256 r);
  alw_cert : client_certificate_sha256 signed = String.append "sha256:" (node_cert_sha256 r);
  alw_streams : rc_max_concurrent_streams r = max_concurrent_streams (limits (route_header signed)) /\
    rc_max_concurrent_streams r <= mrc_max_concurrent_streams c;
  alw_rate : rc_max_bytes_per_second r = max_bytes_per_second (limits (route_header signed)) /\
    rc_max_bytes_per_second r <= mrc_max_bytes_per_second c;
  alw_connection : rc_max_bytes_per_connection r = max_bytes_per_connection (limits (route_header signed)) /\
    rc_max_bytes_per_connection r <= mrc_max_bytes_per_connection c;
  alw_monthly : exists limit, rc_monthly_byte_limit r = Some limit /\
    limit = monthly_byte_limit (limits (route_header signed)) /\ limit <= mrc_monthly_byte_limit c;
}.

(** Route [r] rests on a signed document of the registry. *)
Definition authorised (c : ManagedRoutesConfig) (now : OffsetDateTime) (reg : Registry)
    (r : RouteConfig) : Prop :=
  exists dir listing e signed,
    dir_meta reg = Some dir /\ md_dir dir = true /\ md_uid dir = euid /\
    Z.land (md_mode dir) 0x1FF = 0x1C0 /\ scan reg = Some listing /\ Some e ∈ listing /\
    accepted c (md_uid dir) e signed /\ allows c now signed r.

(** What one entry adds to the digest *)
Definition entry_bytes (now : OffsetDateTime) (x : Entry * list byte * SignedRelayRoute) : list byte :=
  let '(e, bytes, signed) := x in
  be_bytes 8 (zlen (file_name e)) ++ file_name e ++ be_bytes 8 (zlen bytes) ++ bytes
  ++ [if active now (route_header signed) then x01 else x00].

(** ** Lemmas *)

#[local] Opaque be_bytes.

Lemma string_app_as_bytes s t : as_bytes (String.append s t) = as_bytes s ++ as_bytes t.
Proof.
  unfold as_bytes, String.list_byte_of_string. rewrite <- List.map_app. f_equal.
  induction s as [|a s IH]; [done|]. simpl. by rewrite IH.
Qed.

Lemma digest_hex_Ok v h : digest_hex v = Ok h -> v = String.append "sha256:" h.
Proof.
  unfold digest_hex. intros E. inv_ok. destruct (strip_prefix _ _) as [r|] eqn:Es; [|done].
  apply strip_prefix_Some in Es. simplify_eq/=. apply as_bytes_inj.
  by rewrite string_app_as_bytes, as_bytes_of_str.
Qed.

Lemma convert_route_allows c now signed r :
  active now (route_header signed) = true -> convert_route c signed = Ok r -> allows c now signed r.
Proof.
  unfold active, time_le, time_lt. intros Ha. unfold convert_route. intros E. inv_ok. bool_props.
  repeat match goal with H : digest_hex _ = Ok _ |- _ => apply digest_hex_Ok in H end.
  constructor; simpl; try done; try lia; eauto.
  split; [done|]. unfold is_expired, time_le. simpl. lia.
Qed.

(** Entries, the bytes and the document read for each *)
Abbreviation Doc := (Entry * list byte * SignedRelayRoute)%type.
Definition doc_ok (c : ManagedRoutesConfig) (owner : Z) (x : Doc) : Prop :=
  let '(e, bytes, signed) := x in
  accepted c owner e signed /\ read_route_file e owner = Ok bytes /\
  route_from_json bytes = Some signed /\ zlen (file_name e) <= MAX_ROUTE_FILE_NAME_BYTES /\
  zlen bytes <= MAX_ROUTE_FILE_BYTES.

(** The route a document gives at [now] *)
Definition doc_route (c : ManagedRoutesConfig) (now : OffsetDateTime) (x : Doc) : option RouteConfig :=
  if active now (route_header x.2) then
    match convert_route c x.2 with Ok r => Some r | Err _ => None end
  else None.

Lemma validate_file_name_bound name g :
  validate_file_name name = Ok g -> zlen name <= MAX_ROUTE_FILE_NAME_BYTES.
Proof. unfold validate_file_name. intros E. inv_ok. by bool_props. Qed.

Lemma read_route_file_bound e owner bytes :
  read_route_file e owner = Ok bytes -> zlen bytes <= MAX_ROUTE_FILE_BYTES.
Proof. unfold read_route_file. intros E. inv_ok. by bool_props. Qed.

(** One round of the loop: a document is accepted, and its route taken when
    it is active. *)
Lemma load_entry_Ok c now owner kid st e st' :
  load_entry c now owner kid st e = Ok st' ->
  exists bytes signed,
    doc_ok c owner (e, bytes, signed) /\
    hashed st' = hashed st ++ entry_bytes now (e, bytes, signed) /\
    loaded st' = loaded st ++ option_list (doc_route c now (e, bytes, signed)) /\
    match doc_route c now (e, bytes, signed) with
    | Some r => (port (public_listen r) ∉ public_ports st) /\
        public_ports st' = {[port (public_listen r)]} ∪ public_ports st
    | None => active now (route_header signed) = false /\ public_ports st' = public_ports st
    end.
Proof.
  unfold load_entry. intros E. inv_ok. fold (active now (route_header x1)) in *. bool_props. subst.
  exists x0, x1. split.
  { repeat split; eauto using validate_file_name_bound, read_route_file_bound. }
  unfold doc_route. cbn [snd]. unfold entry_bytes.
  destruct (active now (route_header x1)) eqn:Ha; simpl in *; inv_ok; bool_props; simpl.
  - match goal with H : convert_route _ _ = Ok _ |- _ => rewrite H end.
    rewrite <- !app_assoc. by split_and!.
  - rewrite <- !app_assoc, app_nil_r. by split_and!.
Qed.

Lemma load_loop_Ok c now owner kid st entries st' :
  try_fold (load_entry c now owner kid) st entries = Ok st' ->
  exists xs : list Doc,
    (fun x => x.1.1) <$> xs = entries /\ Forall (doc_ok c owner) xs /\
    hashed st' = hashed st ++ concat (entry_bytes now <$> xs) /\
    loaded st' = loaded st ++ omap (doc_route c now) xs /\
    Forall (fun x => active now (route_header x.2) = true -> is_Some (doc_route c now x)) xs /\
    NoDup ((fun r => port (public_listen r)) <$> omap (doc_route c now) xs) /\
    Forall (fun r => port (public_listen r) ∉ public_ports st) (omap (doc_route c now) xs).
Proof.
  revert st. induction entries as [|e entries IH]; intros st; cbn [try_fold].
  { intros [= <-]. exists []. simpl. rewrite !app_nil_r. repeat split; constructor. }
  intros E. apply bind_Ok in E as (st1 & E1 & E2).
  apply load_entry_Ok in E1 as (bytes & signed & Hd & Hh & Hl & Hp).
  apply IH in E2 as (xs & Hf & Hall & Hh2 & Hl2 & Hact & Hnd & Hfresh).
  exists ((e, bytes, signed) :: xs). rewrite !fmap_cons. cbn [concat omap list_omap fst].
  rewrite Hf, Hh2, Hh, Hl2, Hl, <- !app_assoc.
  destruct (doc_route c now (e, bytes, signed)) as [r|] eqn:Er; simpl.
  - destruct Hp as [Hnew Hp]. rewrite Hp in Hfresh. split_and!; try done.
    + by constructor.
    + constructor; [by rewrite Er|done].
    + apply NoDup_cons. split; [|done]. intros Hin. apply list_elem_of_fmap in Hin as (r' & Hr' & Hin).
      rewrite Forall_forall in Hfresh. specialize (Hfresh _ Hin). set_solver.
    + constructor; [done|]. eapply Forall_impl; [exact Hfresh|]. set_solver.
  - destruct Hp as [Hin Hp]. rewrite Hp in Hfresh. split_and!; try done.
    + by constructor.
    + constructor; [|done]. simpl. congruence.
Qed.
End Load.

(** ** A registry for the examples *)

Definition sample_controller_key : string := base64_encode (replicate 32 x11).
Definition sample_key_id : SigningKeyId :=
  match ed25519_signing_key_id sample_controller_key with Ok k => k | Err _ => sample_id 0 end.
Definition sample_document : SignedRelayRoute :=
  let r := mkRoute sample_header (digest_from_bytes (replicate 32 x02))
             (digest_from_bytes (replicate 32 x03)) sample_key_id EmptyString in
  match relay_route_transcript r with
  | Ok t => with_route_signature r (base64_encode (be_bytes 64 (byte_sum t)))
  | Err _ => r
  end.
Definition sample_json (l : list byte) : option SignedRelayRoute :=
  if bool_decide (l = [x7b; x7d]) then Some sample_document else None.
Definition sample_managed : ManagedRoutesConfig :=
  mkManaged (sample_id 3) (as_bytes "/var/lib/relay/routes") (as_bytes "/var/lib/relay/quota")
    sample_controller_key (V4 [203; 0; 113; 7]) 400 500 128 10485760 1099511627776 1099511627776.
Definition sample_relay_config : RelayConfig :=
  mkConfig (default_server (socket_addr (V4 [203; 0; 113; 7]) 8443)
              (socket_addr (V4 [127; 0; 0; 1]) 9090) [] [] [])
    (Some sample_managed) [].
Definition sample_file_meta : Metadata := mkMeta false true 7 0x180 1 42 2.
Definition sample_registry : Registry :=
  mkRegistry (Some (mkMeta true false 7 0x1C0 1 2 0))
    (Some [Some (mkEntry
       (as_bytes (uuid_to_string (sample_id 5)) ++ as_bytes ".relay-route.json")
       (Some sample_file_meta) (Some sample_file_meta) (Some [x7b; x7d]))]).

Lemma sample_loads :
  is_ok (load_effective_routes sample_json 7 sample_relay_config sample_instant sample_registry) = true
  /\ validate sample_relay_config = Ok tt.
Proof. split; vm_compute; reflexivity. Qed.

(** ** Properties *)

Section Properties.
Context `{UuidText} `{Rfc3339} `{Base64} `{Sha256} `{Ed25519}.
Context (json : list byte -> option SignedRelayRoute) (euid : Z).

Lemma merge_sort_elem e l : e ∈ merge_sort entry_le l <-> e ∈ l.
Proof. by rewrite (merge_sort_Permutation entry_le l). Qed.

Lemma mapM_elem (l : list (option Entry)) es e :
  mapM (fun o => o) l = Some es -> (e ∈ es <-> Some e ∈ l).
Proof.
  intros E. apply mapM_Some in E. induction E as [|o e' l es Ho E IH]; [set_solver|].
  rewrite !elem_of_cons, IH, Ho. naive_solver.
Qed.

(** A successful load: the directory is private to the relay, and the sorted
    entries are all accepted. *)
Lemma load_registry_Ok c max now reg st :
  load_registry json euid c max now reg = Ok st ->
  exists dir listing (xs : list (Entry * list byte * SignedRelayRoute)),
    dir_meta reg = Some dir /\ md_dir dir = true /\ md_uid dir = euid /\
    Z.land (md_mode dir) 0x1FF = 0x1C0 /\ scan reg = Some listing /\
    (forall e, e ∈ (fun x => x.1.1) <$> xs <-> Some e ∈ listing) /\
    Forall (doc_ok json c (md_uid dir)) xs /\
    hashed st = as_bytes "relay-managed-routes-v1" ++ be_bytes 8 (zlen xs)
      ++ concat (entry_bytes now <$> xs) /\
    loaded st = omap (doc_route c now) xs /\
    Forall (fun x => active now (route_header x.2) = true -> is_Some (doc_route c now x)) xs /\
    NoDup ((fun r => port (public_listen r)) <$> loaded st) /\ zlen xs <= max.
Proof.
  unfold load_registry, collect_entries, validate_directory_owner. intros E. inv_ok. bool_props.
  match goal with H : try_fold _ _ _ = Ok _ |- _ =>
    apply load_loop_Ok in H as (xs & Hf & Hall & Hh & Hl & Hact & Hnd & _) end.
  match goal with Hm : mapM _ ?l = Some ?e, Hd : dir_meta reg = Some ?d |- _ =>
    rename l into listing, e into es, d into dir end.
  simpl in Hl. rewrite <- Hl in Hnd.
  assert (zlen xs = zlen (merge_sort entry_le es)) as Hlen
    by (rewrite <- Hf; unfold zlen; by rewrite length_fmap).
  exists dir, listing, xs. split_and!; try done.
  - intros e. rewrite Hf, merge_sort_elem. by apply mapM_elem.
  - rewrite Hh, Hlen. cbn [hashed]. by rewrite <- app_assoc.
  - rewrite Hlen. unfold zlen. by rewrite merge_sort_Permutation.
Qed.

Lemma doc_route_allows c now x r : doc_route c now x = Some r -> allows c now x.2 r.
Proof.
  unfold doc_route. destruct (active _ _) eqn:Ha; [|done].
  destruct (convert_route c x.2) eqn:Ec; [|done]. intros [= <-]. by apply convert_route_allows.
Qed.

Lemma loaded_authorised c max now reg st r :
  load_registry json euid c max now reg = Ok st -> r ∈ loaded st ->
  authorised json euid c now reg r.
Proof.
  intros E Hr. apply load_registry_Ok in E
    as (dir & listing & xs & Hd & Hdir & Hu & Hm & Hs & Hin & Hall & _ & Hl & _).
  rewrite Hl in Hr. apply list_elem_of_omap in Hr as (x & Hx & Hr).
  rewrite Forall_forall in Hall. pose proof (Hall _ Hx) as Hok.
  destruct x as [[e bytes] signed]. destruct Hok as [Hacc _].
  exists dir, listing, e, signed. split_and!; try done.
  - apply Hin. apply list_elem_of_fmap. by exists (e, bytes, signed).
  - by apply doc_route_allows in Hr.
Qed.
End Properties.

(** C24: The relay serves only what the operator or the controller put there.
    Every effective route is a static route of the configuration or rests on
    a file of the private registry directory that holds a route document
    signed under the pinned controller key, named after its grant, addressed
    to this relay, inside its validity window and within the operator's port
    range and ceilings; and the whole list has unique identities and
    listeners and limits that fit a stream window. *)
Theorem effective_routes_authorised `{UuidText} `{Rfc3339} `{Base64} `{Sha256} `{Ed25519}
    (json : list byte -> option SignedRelayRoute) (euid : Z) (c : RelayConfig)
    (now : OffsetDateTime) (reg : Registry) (rs : list RouteConfig) (fp : option (list byte)) :
  validate c = Ok tt ->
  load_effective_routes json euid c now reg = Ok (rs, fp) ->
  routes_ok (server c) rs /\
  Forall (fun r => r ∈ routes c \/
    exists m, managed_routes c = Some m /\ authorised json euid m now reg r) rs.
Proof.
  intros Hv%validate_Ok. unfold load_effective_routes, load_managed_routes.
  destruct (managed_routes c) as [m|] eqn:Hm.
  - intros E. inv_ok. simplify_eq/=.
    match goal with H : validate_routes _ _ = Ok _ |- _ => apply validate_routes_Ok in H end.
    split; [done|]. apply Forall_app. split; apply Forall_forall; intros r Hr; [by left|].
    right. exists m. split; [done|]. by eapply loaded_authorised.
  - intros [= <- <-]. split; [by destruct Hv|]. apply Forall_forall. by left.
Qed.

Lemma effective_routes_authorised_witness :
  exists rs fp,
    load_effective_routes sample_json 7 sample_relay_config sample_instant sample_registry = Ok (rs, fp)
    /\ routes_ok (server sample_relay_config) rs.
Proof.
  destruct sample_loads as [Hok Hv].
  destruct (load_effective_routes _ _ _ _ _) as [[rs fp]|] eqn:E; [|discriminate Hok].
  exists rs, fp. split; [reflexivity|].
  exact (proj1 (effective_routes_authorised _ _ _ _ _ _ _ Hv E)).
Defined.

(** Nothing in the registry is silently skipped: a load succeeds only when
    every file of the directory holds an accepted document, the loaded routes
    have distinct ports, and every document that is valid now has its route
    among them. *)
Theorem registry_complete `{UuidText} `{Rfc3339} `{Base64} `{Sha256} `{Ed25519}
    (json : list byte -> option SignedRelayRoute) (euid max : Z) (c : ManagedRoutesConfig)
    (now : OffsetDateTime) (reg : Registry) (snap : ManagedRouteSnapshot)
    (listing : list (option Entry)) (e : Entry) :
  load_managed_routes json euid c max now reg = Ok snap ->
  scan reg = Some listing -> Some e ∈ listing ->
  exists signed,
    accepted json c euid e signed /\
    NoDup ((fun r => port (public_listen r)) <$> snapshot_routes snap) /\
    (active now (route_header signed) = true ->
     exists r, r ∈ snapshot_routes snap /\ allows c now signed r).
Proof.
  unfold load_managed_routes. intros E Hs He. inv_ok. simpl.
  match goal with H : load_registry _ _ _ _ _ _ = Ok _ |- _ => apply load_registry_Ok in H
    as (dir & listing' & xs & _ & _ & Hu & _ & Hs' & Hin & Hall & _ & Hl & Hact & Hnd & _) end.
  rewrite Hs in Hs'. injection Hs' as <-.
  apply Hin, list_elem_of_fmap in He as ([[e' bytes] signed] & -> & Hx). cbn [fst].
  rewrite Forall_forall in Hall, Hact.
  destruct (Hall _ Hx) as [Hacc _]. rewrite Hu in Hacc.
  exists signed. split_and!; [done|done|]. intros Ha.
  destruct (Hact _ Hx Ha) as [r Hr]. exists r. split.
  - rewrite Hl. apply list_elem_of_omap. eauto.
  - by apply doc_route_allows in Hr.
Qed.

Lemma registry_complete_witness :
  exists snap signed, load_managed_routes sample_json 7 sample_managed 1024 sample_instant sample_registry
    = Ok snap /\ exists r, r ∈ snapshot_routes snap /\ allows sample_managed sample_instant signed r.
Proof.
  assert (is_ok (load_managed_routes sample_json 7 sample_managed 1024 sample_instant
    sample_registry) = true) as Hok by (vm_compute; reflexivity).
  assert (forall x, Some x ∈ (default [] (scan sample_registry)) ->
    forall s, accepted sample_json sample_managed 7 x s -> s = sample_document) as Hdoc.
  { intros x Hx s [_ (bytes & _ & Hj) _ _]. unfold sample_json in Hj. case_match; congruence. }
  destruct (load_managed_routes _ _ _ _ _ _) as [snap|] eqn:E; [|discriminate Hok].
  destruct (registry_complete _ _ _ _ _ _ _ _ _ E eq_refl (list_elem_of_here _ _))
    as (signed & Hacc & _ & Hserved).
  exists snap, signed. split; [reflexivity|]. apply Hserved.
  rewrite (Hdoc _ (list_elem_of_here _ _) _ Hacc). vm_compute. reflexivity.
Defined.

(** The digest's input determines what was read. *)
Lemma entry_bytes_inj now1 now2 e1 b1 s1 e2 b2 s2 r1 r2 :
  zlen (file_name e1) <= MAX_ROUTE_FILE_NAME_BYTES ->
  zlen (file_name e2) <= MAX_ROUTE_FILE_NAME_BYTES ->
  zlen b1 <= MAX_ROUTE_FILE_BYTES -> zlen b2 <= MAX_ROUTE_FILE_BYTES ->
  entry_bytes now1 (e1, b1, s1) ++ r1 = entry_bytes now2 (e2, b2, s2) ++ r2 ->
  b1 = b2 /\ active now1 (route_header s1) = active now2 (route_header s2) /\ r1 = r2.
Proof.
  unfold MAX_ROUTE_FILE_NAME_BYTES, MAX_ROUTE_FILE_BYTES. intros Hn1 Hn2 Hb1 Hb2 E.
  unfold entry_bytes in E. rewrite <- !app_assoc in E.
  pose proof (zlen_nonneg (file_name e1)). pose proof (zlen_nonneg (file_name e2)).
  pose proof (zlen_nonneg b1). pose proof (zlen_nonneg b2).
  apply be_prefix_inj in E as [Hl E]; [|pow256; lia|pow256; lia].
  unfold zlen in Hl. apply Nat2Z.inj in Hl. apply app_inj_1 in E as [_ E]; [|done].
  apply be_prefix_inj in E as [Hl' E]; [|pow256; lia|pow256; lia].
  unfold zlen in Hl'. apply Nat2Z.inj in Hl'. apply app_inj_1 in E as [-> E]; [|done].
  simpl in E. injection E as Hf ->. split_and!; [done| |done].
  by destruct (active now1 _), (active now2 _).
Qed.

Lemma entry_bytes_not_nil now x l : entry_bytes now x ++ l <> [].
Proof.
  destruct x as [[e b] s]. unfold entry_bytes. intros E.
  apply app_eq_nil in E as [E _]. apply (f_equal length) in E.
  rewrite length_app, length_be_bytes in E. discriminate E.
Qed.

Lemma entries_bytes_inj `{UuidText} `{Rfc3339} `{Base64} `{Sha256} `{Ed25519}
    json c o1 o2 now1 now2 (xs ys : list (Entry * list byte * SignedRelayRoute)) :
  Forall (doc_ok json c o1) xs -> Forall (doc_ok json c o2) ys ->
  concat (entry_bytes now1 <$> xs) = concat (entry_bytes now2 <$> ys) ->
  omap (doc_route c now1) xs = omap (doc_route c now2) ys.
Proof.
  intros Hx. revert ys. induction Hx as [|[[e1 b1] s1] xs (_ & _ & Hj1 & Hn1 & Hb1) Hx IH].
  - intros ys Hy E. destruct Hy as [|[[e2 b2] s2] ys Hd Hy]; [done|].
    symmetry in E. by apply entry_bytes_not_nil in E.
  - intros ys Hy E. destruct Hy as [|[[e2 b2] s2] ys (_ & _ & Hj2 & Hn2 & Hb2) Hy].
    { by apply entry_bytes_not_nil in E. }
    rewrite !fmap_cons in E. cbn [concat] in E.
    apply entry_bytes_inj in E as (-> & Ha & E); [|done..].
    assert (s1 = s2) as -> by congruence.
    assert (doc_route c now1 (e1, b2, s2) = doc_route c now2 (e2, b2, s2)) as Hr
      by (unfold doc_route; cbn [snd]; by rewrite Ha).
    cbn [omap list_omap]. rewrite Hr, (IH ys Hy E). done.
Qed.

(** A registry whose digest input has not changed has not changed its
    routes: two loads, at any two times, that feed the same bytes to the
    digest yield the same routes, so a relay that compares fingerprints misses
    neither an edited file nor a route that became valid or expired. *)
Theorem digest_determines_routes `{UuidText} `{Rfc3339} `{Base64} `{Sha256} `{Ed25519}
    (json : list byte -> option SignedRelayRoute) (euid max1 max2 : Z) (c : ManagedRoutesConfig)
    (now1 now2 : OffsetDateTime) (reg1 reg2 : Registry) (st1 st2 : LoadState) :
  load_registry json euid c max1 now1 reg1 = Ok st1 ->
  load_registry json euid c max2 now2 reg2 = Ok st2 ->
  hashed st1 = hashed st2 -> loaded st1 = loaded st2.
Proof.
  intros E1 E2 Hh.
  apply load_registry_Ok in E1 as (d1 & l1 & xs & _ & _ & _ & _ & _ & _ & Ha1 & Hh1 & Hl1 & _).
  apply load_registry_Ok in E2 as (d2 & l2 & ys & _ & _ & _ & _ & _ & _ & Ha2 & Hh2 & Hl2 & _).
  rewrite Hh1, Hh2 in Hh. apply (inj (app _)) in Hh.
  apply app_inj_1 in Hh as [_ Hh]; [|by rewrite !length_be_bytes].
  rewrite Hl1, Hl2. by eapply entries_bytes_inj.
Qed.

Lemma digest_determines_routes_witness :
  exists st, load_registry sample_json 7 sample_managed 1024 sample_instant sample_registry = Ok st
    /\ loaded st = loaded st.
Proof.
  assert (is_ok (load_registry sample_json 7 sample_managed 1024 sample_instant
    sample_registry) = true) as Hok by (vm_compute; reflexivity).
  destruct (load_registry _ _ _ _ _ _) as [st|] eqn:E; [|discriminate Hok].
  exists st. split; [reflexivity|].
  exact (digest_determines_routes _ _ _ _ _ _ _ _ _ _ _ E E eq_refl).
Defined.
