(* ===== verification/RelayFrame.v ===== *)
(** The relay tunnel's wire format: length-delimited frames
    (src/relay-server/src/frame.rs). A reader is the list of bytes that is
    still to arrive before end of file; a writer is the list of bytes it was
    given. *)
From S2P Require Import Prelude RelayError.
Open Scope Z_scope.

Definition PROTOCOL_VERSION : Z := 1.
Definition HEADER_BYTES : Z := 10.

Inductive FrameKind : Type :=
| Register | RegisterOk | Error | Open | OpenOk | OpenError | Data | Fin
| Close | WindowUpdate | Ping | Pong.

#[export] Instance FrameKind_eq_dec : EqDecision FrameKind.
Proof. solve_decision. Defined.

(** [self.kind as u8]: the discriminants of [#[repr(u8)] enum FrameKind]. *)
Definition kind_u8 (k : FrameKind) : Z :=
  match k with
  | Register => 1 | RegisterOk => 2 | Error => 3
  | Open => 10 | OpenOk => 11 | OpenError => 12 | Data => 13 | Fin => 14
  | Close => 15 | WindowUpdate => 16 | Ping => 20 | Pong => 21
  end.

(** [FrameKind::try_from] *)
Definition kind_try_from (value : Z) : relay_result FrameKind :=
  match value with
  | 1 => Ok Register
  | 2 => Ok RegisterOk
  | 3 => Ok Error
  | 10 => Ok Open
  | 11 => Ok OpenOk
  | 12 => Ok OpenError
  | 13 => Ok Data
  | 14 => Ok Fin
  | 15 => Ok Close
  | 16 => Ok WindowUpdate
  | 20 => Ok Ping
  | 21 => Ok Pong
  | _ => Err (Stable ProtocolInvalid "unknown frame kind")
  end.

Record Frame : Type := mkFrame {
  kind : FrameKind;
  stream_id : Z;
  payload : list byte;
}.

#[export] Instance Frame_eq_dec : EqDecision Frame.
Proof. solve_decision. Defined.

(** [Frame::register] *)
Definition register (route_id : string) (token : list byte) : relay_result Frame :=
  route_len ← ok_or (try_from u16_max (str_len route_id))
    (Stable ProtocolInvalid "route identifier is too long");
  token_len ← ok_or (try_from u16_max (zlen token))
    (Stable ProtocolInvalid "route token is too long");
  Ok (mkFrame Register 0
        (be_bytes 2 route_len ++ as_bytes route_id ++ be_bytes 2 token_len ++ token)).

(** [&payload[from..to]] on a slice that is long enough *)
Definition slice (from to : Z) (l : list byte) : list byte :=
  take (Z.to_nat (to - from)) (drop (Z.to_nat from) l).

(** [Frame::parse_register] *)
Definition parse_register (f : Frame) : relay_result (string * list byte) :=
  let p := payload f in
  _ ← ensure (bool_decide (kind f = Register) && (stream_id f =? 0) && (4 <=? zlen p))
        (Stable ProtocolInvalid "first frame must register one route");
  let route_len := be_value (slice 0 2 p) in
  token_len_offset ← ok_or (checked_add usize_max 2 route_len)
        (Stable ProtocolInvalid "invalid register lengths");
  _ ← ensure (token_len_offset + 2 <=? zlen p)
        (Stable ProtocolInvalid "invalid register route length");
  let token_len := be_value (slice token_len_offset (token_len_offset + 2) p) in
  let token_offset := token_len_offset + 2 in
  _ ← ensure (bool_decide (checked_add usize_max token_offset token_len = Some (zlen p)))
        (Stable ProtocolInvalid "invalid register token length");
  route_id ← ok_or (from_utf8 (slice 2 token_len_offset p))
        (Stable ProtocolInvalid "route identifier is not UTF-8");
  Ok (route_id, drop (Z.to_nat token_offset) p).

(** [Frame::u32] and [Frame::parse_u32] *)
Definition frame_u32 (k : FrameKind) (sid value : Z) : Frame :=
  mkFrame k sid (be_bytes 4 value).
Definition parse_u32 (f : Frame) : relay_result Z :=
  if zlen (payload f) =? 4 then Ok (be_value (payload f))
  else Err (Stable ProtocolInvalid "frame requires one unsigned 32-bit value").

(** [Frame::code] *)
Definition frame_code (k : FrameKind) (sid : Z) (c : ErrorCode) : Frame :=
  mkFrame k sid (as_bytes (as_str c)).

(** [Frame::read_from]: the result and what is left of the input. A length
    prefix cut short by end of file reads as a clean end; a body cut short is
    an I/O error. *)
Definition read_from (reader : list byte) (max_frame_bytes : Z)
    : relay_result (option Frame) * list byte :=
  if zlen reader <? 4 then (Ok None, [])
  else
    let length := be_value (take 4 reader) in
    let rest := drop 4 reader in
    if length <? HEADER_BYTES then
      (Err (Stable ProtocolInvalid "frame is shorter than its header"), rest)
    else if max_frame_bytes + HEADER_BYTES <? length then
      (Err (Stable FrameTooLarge "frame exceeds configured maximum"), rest)
    else if zlen rest <? length then (Err (Io UnexpectedEof), [])
    else
      let body := take (Z.to_nat length) rest in
      let rest := drop (Z.to_nat length) rest in
      if negb (be_value (slice 0 1 body) =? PROTOCOL_VERSION) then
        (Err (Stable ProtocolInvalid "protocol version is unsupported"), rest)
      else
        match kind_try_from (be_value (slice 1 2 body)) with
        | Err e => (Err e, rest)
        | Ok k =>
            (Ok (Some (mkFrame k (be_value (slice 2 10 body))
                        (drop (Z.to_nat HEADER_BYTES) body))), rest)
        end.

(** [Frame::write_to]: the bytes a writer receives. *)
Definition write_to (f : Frame) (max_frame_bytes : Z) : relay_result (list byte) :=
  _ ← ensure (zlen (payload f) <=? max_frame_bytes)
        (Stable FrameTooLarge "frame exceeds configured maximum");
  length ← ok_or (checked_add usize_max HEADER_BYTES (zlen (payload f)))
        (Stable FrameTooLarge "frame length overflow");
  length ← ok_or (try_from u32_max length)
        (Stable FrameTooLarge "frame length is unsupported");
  Ok (be_bytes 4 length ++ be_bytes 1 PROTOCOL_VERSION ++ be_bytes 1 (kind_u8 (kind f))
      ++ be_bytes 8 (stream_id f) ++ payload f).

(** ** Lemmas *)

Lemma slice_app (a b c : list byte) from to :
  from = zlen a -> to = zlen a + zlen b -> slice from to (a ++ b ++ c) = b.
Proof.
  intros -> ->. unfold slice, zlen.
  replace (Z.to_nat (Z.of_nat (length a))) with (length a) by lia.
  replace (Z.to_nat _) with (length b) by lia.
  by rewrite drop_app_length, take_app_length.
Qed.

Lemma slice_head (b c : list byte) to : to = zlen b -> slice 0 to (b ++ c) = b.
Proof. intros ->. by apply (slice_app [] b c). Qed.

Lemma drop_zlen_app (a b : list byte) n : n = zlen a -> drop (Z.to_nat n) (a ++ b) = b.
Proof. intros ->. unfold zlen. rewrite Nat2Z.id. apply drop_app_length. Qed.

Lemma take_zlen_app (a b : list byte) n : n = zlen a -> take (Z.to_nat n) (a ++ b) = a.
Proof. intros ->. unfold zlen. rewrite Nat2Z.id. apply take_app_length. Qed.

Lemma split_at (n : Z) (l : list byte) :
  0 <= n <= zlen l ->
  exists a b, l = a ++ b /\ zlen a = n.
Proof.
  intros Hn. exists (take (Z.to_nat n) l), (drop (Z.to_nat n) l).
  split; [by rewrite take_drop|]. unfold zlen in *. rewrite length_take. lia.
Qed.

Lemma zlen_cons_inv (b : byte) l : zlen (b :: l) = 1 + zlen l.
Proof. unfold zlen; simpl; lia. Qed.

Lemma be_value_small n z : 0 <= z < 256 ^ Z.of_nat n -> be_value (be_bytes n z) = z.
Proof. intros. rewrite be_value_be_bytes. by apply Z.mod_small. Qed.

Lemma be_bytes_zlen n l : zlen l = Z.of_nat n -> be_bytes n (be_value l) = l.
Proof.
  unfold zlen. intros H. assert (length l = n) as <- by lia. apply be_bytes_be_value.
Qed.

Lemma kind_try_from_u8 k : kind_try_from (kind_u8 k) = Ok k.
Proof. by destruct k. Qed.

Lemma kind_u8_try_from z k : kind_try_from z = Ok k -> kind_u8 k = z.
Proof.
  unfold kind_try_from. intros H.
  repeat (case_match; simplify_eq/=; try done).
Qed.

Lemma kind_u8_range k : 0 <= kind_u8 k < 256.
Proof. destruct k; simpl; lia. Qed.

(** The encoding of a frame, split at the fields [read_from] looks at. *)
Definition encode (f : Frame) : list byte :=
  be_bytes 4 (HEADER_BYTES + zlen (payload f)) ++ be_bytes 1 PROTOCOL_VERSION
  ++ be_bytes 1 (kind_u8 (kind f)) ++ be_bytes 8 (stream_id f) ++ payload f.

Lemma write_to_Ok f max bs :
  write_to f max = Ok bs <->
  bs = encode f /\ zlen (payload f) <= max /\ HEADER_BYTES + zlen (payload f) <= u32_max.
Proof.
  unfold write_to, encode, checked_add, try_from. pose proof (zlen_nonneg (payload f)).
  unfold HEADER_BYTES; unfold_ints. split.
  - intros Hw. inv_ok. case_splits. bool_props. auto.
  - intros (-> & ? & ?). unfold ensure.
    rewrite (proj2 (Z.leb_le _ _)) by lia. simpl.
    rewrite (proj2 (Z.leb_le _ _)) by lia. simpl.
    rewrite (proj2 (Z.leb_le _ _)), (proj2 (Z.leb_le _ _)) by lia. done.
Qed.

Lemma zlen_encode f : zlen (encode f) = 14 + zlen (payload f).
Proof. unfold encode. rewrite !zlen_app, !zlen_be_bytes. lia. Qed.

Lemma read_from_encode f max rest :
  is_u64 (stream_id f) -> zlen (payload f) <= max ->
  HEADER_BYTES + zlen (payload f) <= u32_max ->
  read_from (encode f ++ rest) max = (Ok (Some f), rest).
Proof.
  intros Hid Hmax Hlen. pose proof (zlen_nonneg (payload f)).
  pose proof (zlen_nonneg rest). pose proof (kind_u8_range (kind f)).
  unfold read_from. rewrite zlen_app, zlen_encode.
  destruct (Z.ltb_spec (14 + zlen (payload f) + zlen rest) 4); [lia|].
  set (body := be_bytes 1 PROTOCOL_VERSION ++ be_bytes 1 (kind_u8 (kind f))
               ++ be_bytes 8 (stream_id f) ++ payload f).
  assert (zlen body = HEADER_BYTES + zlen (payload f)) as Hbody.
  { unfold body. rewrite !zlen_app, !zlen_be_bytes. unfold HEADER_BYTES. lia. }
  replace (encode f ++ rest)
    with (be_bytes 4 (HEADER_BYTES + zlen (payload f)) ++ body ++ rest)
    by (unfold encode, body; by rewrite <- !app_assoc).
  change (take 4) with (@take byte (Z.to_nat 4)); change (drop 4) with (@drop byte (Z.to_nat 4)).
  rewrite take_zlen_app, drop_zlen_app by (by rewrite zlen_be_bytes).
  rewrite be_value_small by (pow256; unfold HEADER_BYTES in *; ulia).
  rewrite zlen_app, Hbody.
  rewrite !(proj2 (Z.ltb_ge _ _)) by (unfold HEADER_BYTES in *; lia).
  rewrite take_zlen_app, drop_zlen_app by done.
  replace (slice 0 1 body) with (be_bytes 1 PROTOCOL_VERSION)
    by (symmetry; by apply slice_head; rewrite zlen_be_bytes).
  replace (slice 1 2 body) with (be_bytes 1 (kind_u8 (kind f)))
    by (symmetry; apply slice_app; rewrite ?zlen_be_bytes; done).
  replace (slice 2 10 body) with (be_bytes 8 (stream_id f)).
  2:{ symmetry. unfold body. rewrite app_assoc.
      apply slice_app; rewrite ?zlen_app, ?zlen_be_bytes; done. }
  rewrite !be_value_small by (pow256; unfold PROTOCOL_VERSION; ulia).
  simpl negb. cbv iota. rewrite kind_try_from_u8.
  unfold body. rewrite !app_assoc, drop_zlen_app
    by (by rewrite !zlen_app, !zlen_be_bytes).
  by destruct f.
Qed.

Lemma read_from_sound reader max f rest :
  read_from reader max = (Ok (Some f), rest) ->
  reader = encode f ++ rest /\ is_u64 (stream_id f) /\
  zlen (payload f) <= max /\ HEADER_BYTES + zlen (payload f) <= u32_max.
Proof.
  unfold read_from. intros H.
  destruct (Z.ltb_spec (zlen reader) 4); [done|].
  destruct (split_at 4 reader) as (pre & tl & -> & Hpre); [lia|].
  change (take 4) with (@take byte (Z.to_nat 4)) in H;
  change (drop 4) with (@drop byte (Z.to_nat 4)) in H.
  rewrite take_zlen_app, drop_zlen_app in H by done.
  pose proof (be_value_range pre) as Hr. rewrite Hpre in Hr.
  set (n := be_value pre) in *.
  destruct (Z.ltb_spec n HEADER_BYTES); [done|].
  destruct (Z.ltb_spec (max + HEADER_BYTES) n); [done|].
  destruct (Z.ltb_spec (zlen tl) n); [done|].
  unfold HEADER_BYTES in *.
  destruct (split_at n tl) as (body & tl' & -> & Hbody); [lia|].
  rewrite take_zlen_app, drop_zlen_app in H by done.
  destruct (split_at 1 body) as (v & b1 & -> & Hv); [lia|]. rewrite zlen_app in Hbody.
  destruct (split_at 1 b1) as (k & b2 & -> & Hk); [lia|]. rewrite zlen_app in Hbody.
  destruct (split_at 8 b2) as (s & p & -> & Hs); [lia|]. rewrite zlen_app in Hbody.
  rewrite slice_head, (slice_app v k) in H by (rewrite ?Hv, ?Hk; done).
  rewrite (app_assoc v k), (slice_app (v ++ k) s) in H
    by (rewrite ?zlen_app, ?Hv, ?Hk, ?Hs; done).
  rewrite (app_assoc (v ++ k) s), drop_zlen_app in H
    by (rewrite ?zlen_app, ?Hv, ?Hk, ?Hs; done).
  destruct (Z.eqb_spec (be_value v) PROTOCOL_VERSION) as [Ev|]; [|done].
  simpl in H. destruct (kind_try_from (be_value k)) as [kd|] eqn:Ek; simplify_eq.
  apply kind_u8_try_from in Ek. pose proof (be_value_range s) as Hsr.
  rewrite Hs in Hsr.
  pow256.
  cbn [stream_id payload]. split; [|ulia].
  unfold encode, HEADER_BYTES; cbn [kind stream_id payload].
  replace (10 + zlen p) with (be_value pre) by lia.
  rewrite Ek, <- Ev, !be_bytes_zlen by done. by rewrite <- !app_assoc.
Qed.

Lemma register_Ok r t f :
  register r t = Ok f <->
  str_len r <= u16_max /\ zlen t <= u16_max /\
  f = mkFrame Register 0
        (be_bytes 2 (str_len r) ++ as_bytes r ++ be_bytes 2 (zlen t) ++ t).
Proof.
  unfold register, try_from. pose proof (zlen_nonneg t).
  pose proof (zlen_nonneg (as_bytes r)). unfold str_len. split.
  - intros Hr. inv_ok. case_splits. bool_props. auto.
  - intros (? & ? & ->).
    rewrite !(proj2 (Z.leb_le _ _)) by ulia. done.
Qed.

Lemma parse_register_built r t :
  str_len r <= u16_max -> zlen t <= u16_max -> utf8_valid (as_bytes r) = true ->
  parse_register (mkFrame Register 0
    (be_bytes 2 (str_len r) ++ as_bytes r ++ be_bytes 2 (zlen t) ++ t)) = Ok (r, t).
Proof.
  unfold str_len. intros Hr Ht Hu. pose proof (zlen_nonneg t).
  pose proof (zlen_nonneg (as_bytes r)). unfold parse_register.
  cbn [payload kind stream_id]. rewrite !zlen_app, !zlen_be_bytes.
  rewrite slice_head by (by rewrite zlen_be_bytes).
  rewrite be_value_small by (pow256; ulia).
  rewrite bool_decide_true by done. unfold checked_add.
  rewrite !(proj2 (Z.leb_le _ _)) by ulia. rsimpl.
  rewrite (slice_app _ (as_bytes r)) by (rewrite zlen_be_bytes; lia).
  rewrite (app_assoc (be_bytes 2 (zlen (as_bytes r))) (as_bytes r)).
  rewrite (slice_app _ (be_bytes 2 (zlen t)))
    by (rewrite ?zlen_app, !zlen_be_bytes; lia).
  rewrite be_value_small by (pow256; ulia).
  rewrite (proj2 (Z.leb_le _ _)) by ulia.
  rewrite (proj2 (Z.leb_le _ _)) by ulia. rsimpl.
  rewrite bool_decide_true by (f_equal; lia). rsimpl.
  unfold from_utf8. rewrite Hu. rsimpl.
  rewrite app_assoc, drop_zlen_app by (rewrite !zlen_app, !zlen_be_bytes; lia).
  by rewrite str_of_as_bytes.
Qed.

Lemma parse_register_sound f r t :
  parse_register f = Ok (r, t) ->
  register r t = Ok f /\ utf8_valid (as_bytes r) = true.
Proof.
  unfold parse_register. destruct f as [k sid p]; cbn [payload kind stream_id].
  intros H. apply bind_Ok in H as ([] & Hk & H). apply ensure_Ok in Hk. bool_props. subst.
  destruct (split_at 2 p) as (rl & p1 & -> & Hrl); [lia|]. rewrite slice_head in H by done.
  pose proof (be_value_range rl) as Hr. rewrite Hrl in Hr. pow256.
  unfold checked_add in H. rewrite (proj2 (Z.leb_le _ _)) in H by ulia. rsimpl in H.
  apply bind_Ok in H as ([] & Hl & H). apply ensure_Ok in Hl. bool_props.
  rewrite zlen_app in *.
  destruct (split_at (be_value rl) p1) as (rb & p2 & -> & Hrb); [lia|]. rewrite zlen_app in *.
  destruct (split_at 2 p2) as (tl & tok & -> & Htl); [lia|]. rewrite zlen_app in *.
  rewrite (app_assoc rl rb), (slice_app (rl ++ rb) tl tok (2 + be_value rl)) in H
    by (rewrite ?zlen_app; lia).
  pose proof (be_value_range tl) as Hr2. rewrite Htl in Hr2. pow256.
  rewrite (proj2 (Z.leb_le _ _)) in H by ulia.
  apply bind_Ok in H as ([] & Ht & H). apply ensure_Ok in Ht. bool_props.
  injection Ht as Ht.
  rewrite <- app_assoc, (slice_app rl rb) in H by lia.
  unfold from_utf8 in H. destruct (utf8_valid rb) eqn:Hu; [|done]. rsimpl in H.
  rewrite !app_assoc, drop_zlen_app in H by (rewrite !zlen_app; lia). simplify_eq.
  rewrite as_bytes_of_str. split; [|done].
  apply register_Ok. unfold str_len. rewrite as_bytes_of_str.
  split; [ulia|]. split; [ulia|].
  replace (zlen rb) with (be_value rl) by lia. replace (zlen t) with (be_value tl) by lia.
  by rewrite !be_bytes_zlen.
Qed.

Lemma parse_u32_frame k sid v : is_u32 v -> parse_u32 (frame_u32 k sid v) = Ok v.
Proof.
  intros. unfold parse_u32, frame_u32; cbn [payload].
  rewrite zlen_be_bytes, be_value_small by (pow256; ulia). done.
Qed.

(** ** The codec *)

(** C29: [Frame::read_from] is the exact inverse of [Frame::write_to]: it
    returns a frame precisely when the input starts with what [write_to]
    writes for that frame under the same size bound, it leaves exactly the
    bytes that follow, and so no two byte strings decode to the same frame. *)
Theorem frame_codec_exact (reader rest : list byte) (max_frame_bytes : Z) (f : Frame) :
  read_from reader max_frame_bytes = (Ok (Some f), rest) <->
  is_u64 (stream_id f) /\
  exists written, write_to f max_frame_bytes = Ok written /\ reader = written ++ rest.
Proof.
  split.
  - intros (-> & ? & ? & ?)%read_from_sound. split; [done|].
    exists (encode f). by rewrite write_to_Ok.
  - intros (? & bs & (-> & ? & ?)%write_to_Ok & ->). by apply read_from_encode.
Qed.

(** [Frame::parse_register] accepts exactly the frames that
    [Frame::register] builds from a UTF-8 route identifier, and returns the
    identifier and the token the frame was built from. *)
Theorem register_codec_exact (f : Frame) (route_id : string) (token : list byte) :
  parse_register f = Ok (route_id, token) <->
  register route_id token = Ok f /\ utf8_valid (as_bytes route_id) = true.
Proof.
  split; [apply parse_register_sound|].
  intros [(? & ? & ->)%register_Ok ?]. by apply parse_register_built.
Qed.
