(* ===== verification/RelayFlow.v ===== *)
(** Per-stream flow-control credit and the per-route rate limiter
    (src/relay-server/src/flow.rs). The mutex-protected cells are state that
    the operations thread; what a task waits for at an [await] point is the
    list of events that reach it there. Times are [Instant]s in
    nanoseconds. *)
From S2P Require Import Prelude RelayError.
Open Scope Z_scope.

(** ** Credit *)

(** [Credit::new]: the initial [available]. *)
Definition credit_new (initial : Z) : Z := initial.

(** [Credit::add] *)
Definition credit_add (available amount : Z) : relay_result unit * Z :=
  if amount =? 0 then
    (Err (Stable ProtocolInvalid "flow-control update cannot be zero"), available)
  else
    match checked_add u64_max available amount with
    | None => (Err (Stable ProtocolInvalid "flow-control credit overflow"), available)
    | Some available' => (Ok tt, available')
    end.

(** What reaches a task blocked in [Credit::consume]: another task calls
    [add] or takes credit, or the stream is cancelled. *)
Inductive CreditEvent : Type :=
| EvAdd (amount : Z)
| EvTake (amount : Z)
| EvCancel.

Inductive Blocking (A : Type) : Type :=
| Returned (a : A)
| Waiting.
Arguments Returned {A} a.
Arguments Waiting {A}.

(** One pass of the loop under the lock *)
Definition credit_try (available amount : Z) : option Z :=
  if amount <=? available then Some (available - amount) else None.

(** [Credit::consume]: a task parked at the [select!], against the events
    that happen meanwhile. Only a successful [add] notifies it, after which it
    runs the loop's next pass. *)
Fixpoint parked (amount available : Z) (events : list CreditEvent)
    : Blocking (relay_result unit) * Z :=
  match events with
  | [] => (Waiting, available)
  | EvCancel :: _ => (Returned (Err (Stable TunnelLost "stream was cancelled")), available)
  | EvTake taken :: events' =>
      parked amount (default available (credit_try available taken)) events'
  | EvAdd n :: events' =>
      match credit_add available n with
      | (Err _, _) => parked amount available events'
      | (Ok _, available') =>
          match credit_try available' amount with
          | Some remaining => (Returned (Ok tt), remaining)
          | None => parked amount available' events'
          end
      end
  end.
Definition consume (amount available : Z) (events : list CreditEvent)
    : Blocking (relay_result unit) * Z :=
  match credit_try available amount with
  | Some remaining => (Returned (Ok tt), remaining)
  | None => parked amount available events
  end.

(** ** Rate limiter *)

Definition NANOS_PER_SEC : Z := 1000000000.

Record RateState : Type := mkRate {
  available : Z;
  updated_at : Z;
}.

(** [RateLimiter::new] at the instant [now] *)
Definition rate_new (bytes_per_second now : Z) : RateState :=
  mkRate bytes_per_second now.

(** The replenishment at the top of the loop of [RateLimiter::acquire] *)
Definition replenish (bytes_per_second : Z) (state : RateState) (now : Z) : Z :=
  let elapsed_nanos := saturating_sub now (updated_at state) in
  let replenished := saturating_mul u128_max elapsed_nanos bytes_per_second / NANOS_PER_SEC in
  let replenished := if replenished <=? u64_max then replenished else u64_max in
  Z.min (saturating_add u64_max (available state) replenished) bytes_per_second.

(** One pass of the loop: [None] when the bytes are granted, or the time to
    sleep before the next pass. *)
Definition acquire_pass (bytes_per_second requested now : Z) (state : RateState)
    : option Z * RateState :=
  let avail := replenish bytes_per_second state now in
  if requested <=? avail then (None, mkRate (avail - requested) now)
  else
    let missing := requested - avail in
    let wait_nanos := div_ceil (saturating_mul u128_max missing NANOS_PER_SEC) bytes_per_second in
    (Some (if wait_nanos <=? u64_max then wait_nanos else u64_max), mkRate 0 now).

(** What ends a sleep: the timer, [late] nanoseconds after its deadline, or
    the cancellation of the stream. *)
Inductive SleepEvent : Type :=
| Slept (late : Z)
| Cancelled.

(** [RateLimiter::acquire]: the loop, against the events that end its sleeps. *)
Fixpoint acquire (bytes_per_second requested now : Z) (state : RateState)
    (events : list SleepEvent) : Blocking (relay_result unit) * RateState :=
  match acquire_pass bytes_per_second requested now state with
  | (None, state') => (Returned (Ok tt), state')
  | (Some wait, state') =>
      match events with
      | [] => (Waiting, state')
      | Cancelled :: _ =>
          (Returned (Err (Stable RouteRevoked "route was revoked")), state')
      | Slept late :: events' =>
          acquire bytes_per_second requested (now + wait + late) state' events'
      end
  end.

(** The passes of all the tasks that share a limiter, in the order in which
    they take its lock: the bytes granted and the limiter's final state. *)
Fixpoint rate_run (bytes_per_second : Z) (state : RateState) (passes : list (Z * Z))
    : Z * RateState :=
  match passes with
  | [] => (0, state)
  | (requested, now) :: passes' =>
      let '(wait, state') := acquire_pass bytes_per_second requested now state in
      let '(granted, final) := rate_run bytes_per_second state' passes' in
      (match wait with Some _ => 0 | None => requested end + granted, final)
  end.

(** The clock is monotone: the passes happen in order, none before [t]. *)
Fixpoint ordered_from (t : Z) (passes : list (Z * Z)) : Prop :=
  match passes with
  | [] => True
  | (_, now) :: passes' => t <= now /\ ordered_from now passes'
  end.
Definition last_time (t : Z) (passes : list (Z * Z)) : Z := List.last (snd <$> passes) t.

(** The credit a list of events adds to the cell, at most. *)
Definition event_credit (e : CreditEvent) : Z :=
  match e with EvAdd n => n | _ => 0 end.
Definition credit_sum (events : list CreditEvent) : Z := foldr Z.add 0 (event_credit <$> events).
Definition event_ok (e : CreditEvent) : Prop :=
  match e with EvAdd n => is_u32 n | EvTake n => 0 <= n | EvCancel => True end.

(** ** Lemmas on credit *)

Lemma credit_add_Ok available amount u available' :
  credit_add available amount = (Ok u, available') ->
  amount <> 0 /\ available' = available + amount /\ available' <= u64_max.
Proof.
  unfold credit_add, checked_add. intros H. case_splits. bool_props. auto.
Qed.

Lemma credit_add_Err available amount e available' :
  credit_add available amount = (Err e, available') -> available' = available.
Proof. unfold credit_add. intros H. by case_splits. Qed.

Lemma credit_try_Some available amount remaining :
  credit_try available amount = Some remaining ->
  remaining = available - amount /\ amount <= available.
Proof. unfold credit_try. intros H. case_splits. by bool_props. Qed.

Lemma credit_sum_cons e events : credit_sum (e :: events) = event_credit e + credit_sum events.
Proof. done. Qed.

Lemma credit_sum_nonneg events : Forall event_ok events -> 0 <= credit_sum events.
Proof.
  induction 1 as [|e events He _ IH]; [done|]. rewrite credit_sum_cons.
  destruct e; simpl in *; ulia.
Qed.

Lemma parked_account amount events : forall available out final,
  0 <= available -> 0 <= amount -> Forall event_ok events ->
  parked amount available events = (out, final) ->
  0 <= final /\
  (match out with Returned (Ok _) => amount | _ => 0 end) + final
    <= available + credit_sum events.
Proof.
  induction events as [|e events IH]; intros avail out final Ha Hn Hev Hp.
  { simpl in Hp. simplify_eq. unfold credit_sum; simpl. lia. }
  apply Forall_cons in Hev as [He Hev].
  pose proof (credit_sum_nonneg events Hev).
  destruct e as [n|taken|]; rewrite credit_sum_cons; cbn [parked event_credit event_ok] in *.
  - destruct (credit_add avail n) as [[u|err] avail'] eqn:Eadd.
    + apply credit_add_Ok in Eadd as (? & -> & ?).
      destruct (credit_try (avail + n) amount) as [rem|] eqn:Etry.
      * apply credit_try_Some in Etry as [-> ?]. simplify_eq. ulia.
      * apply IH in Hp; [lia|ulia|done|done].
    + apply IH in Hp; [ulia|done|done|done].
  - destruct (credit_try avail taken) as [rem|] eqn:Etry; simpl in *.
    + apply credit_try_Some in Etry as [-> ?]. apply IH in Hp; [lia|lia|done|done].
    + apply IH in Hp; [lia|done|done|done].
  - simplify_eq. lia.
Qed.

Lemma parked_returns amount events : forall available,
  0 <= available < amount ->
  Forall (fun e => exists n, e = EvAdd n /\ 0 < n <= u32_max) events ->
  available + credit_sum events <= u64_max ->
  amount <= available + credit_sum events ->
  fst (parked amount available events) = Returned (Ok tt).
Proof.
  induction events as [|e events IH]; intros avail Ha Hev Hmax Hsum.
  { unfold credit_sum in Hsum; simpl in Hsum. lia. }
  apply Forall_cons in Hev as [(n & -> & Hn) Hev]. rewrite credit_sum_cons in *.
  assert (0 <= credit_sum events).
  { apply credit_sum_nonneg. eapply Forall_impl; [done|].
    intros ? (m & -> & ?). simpl. ulia. }
  cbn [parked event_credit] in *. unfold credit_add, checked_add.
  rewrite (proj2 (Z.eqb_neq _ _)), (proj2 (Z.leb_le _ _)) by lia.
  destruct (credit_try (avail + n) amount) as [rem|] eqn:E; [done|].
  unfold credit_try in E. case_splits. bool_props. apply IH; [lia|done|lia|lia].
Qed.

(** A stream never sends bytes it has no credit for: whatever other tasks
    add, take or cancel while [consume] waits, when it returns the credit it
    used together with what is left is at most what was there plus what was
    added, and the cell never goes below zero. *)
Theorem credit_never_overdrawn (amount available final : Z) (events : list CreditEvent)
    (out : Blocking (relay_result unit)) :
  0 <= available -> 0 <= amount -> Forall event_ok events ->
  consume amount available events = (out, final) ->
  0 <= final /\
  (match out with Returned (Ok _) => amount | _ => 0 end) + final
    <= available + credit_sum events.
Proof.
  intros Ha Hn Hev. unfold consume.
  destruct (credit_try available amount) as [rem|] eqn:E; [|by apply parked_account].
  apply credit_try_Some in E as [-> ?]. intros [= <- <-].
  pose proof (credit_sum_nonneg events Hev). lia.
Qed.

Lemma credit_never_overdrawn_witness :
  0 <= 4 /\ 4 - 3 + 1 <= 4 + credit_sum [EvTake 3; EvAdd 1; EvAdd 5].
Proof.
  split; [lia|].
  pose proof (credit_never_overdrawn 5 4 2 [EvTake 3; EvAdd 1; EvAdd 5] (Returned (Ok tt)))
    as H.
  assert (0 <= 2 /\ 5 + 2 <= 4 + credit_sum [EvTake 3; EvAdd 1; EvAdd 5]) as [_ H'].
  { apply H; [lia|lia| |reflexivity]. repeat constructor; simpl; ulia. }
  lia.
Defined.

(** Credit is not lost: a blocked [consume] returns as soon as the
    updates it receives, none of them zero, cover the amount. *)
Theorem credit_consume_returns (amount available : Z) (events : list CreditEvent) :
  0 <= available ->
  Forall (fun e => exists n, e = EvAdd n /\ 0 < n <= u32_max) events ->
  available + credit_sum events <= u64_max ->
  amount <= available + credit_sum events ->
  fst (consume amount available events) = Returned (Ok tt).
Proof.
  intros Ha Hev Hmax Hsum. unfold consume.
  destruct (credit_try available amount) as [rem|] eqn:E; [done|].
  unfold credit_try in E. case_splits. bool_props. apply parked_returns; [lia|done..].
Qed.

Lemma credit_consume_returns_witness :
  fst (consume 5 4 [EvAdd 1]) = Returned (Ok tt).
Proof.
  apply (credit_consume_returns 5 4 [EvAdd 1]); [lia| |vm_compute; congruence|vm_compute; congruence].
  constructor; [|constructor]. exists 1. split; [done|ulia].
Defined.

(** ** Lemmas on the rate limiter *)

(** The bucket of a limiter holds at most one second of traffic. *)
Definition rate_ok (bytes_per_second : Z) (state : RateState) : Prop :=
  0 <= available state <= bytes_per_second.

Lemma replenish_spec bps state now :
  is_u64 bps -> rate_ok bps state -> updated_at state <= now ->
  0 <= replenish bps state now <= bps /\
  replenish bps state now * NANOS_PER_SEC
    <= available state * NANOS_PER_SEC + bps * (now - updated_at state).
Proof.
  unfold rate_ok, replenish, NANOS_PER_SEC. intros Hb Hs Hn. unfold_ints.
  set (q := Z.min _ _ / 1000000000).
  assert (0 <= q /\ q * 1000000000 <= bps * (now - updated_at state)) as [? ?].
  { unfold q. pose proof (Z.mul_nonneg_nonneg (now - updated_at state) bps).
    split; [apply Z.div_pos; lia|].
    pose proof (Z.mul_div_le (Z.min 340282366920938463463374607431768211455
      (Z.max 0 (now - updated_at state) * bps)) 1000000000). lia. }
  destruct (Z.leb_spec q 18446744073709551615); lia.
Qed.

Lemma acquire_pass_spec bps requested now state wait state' :
  is_u64 bps -> rate_ok bps state -> updated_at state <= now -> 0 <= requested ->
  acquire_pass bps requested now state = (wait, state') ->
  rate_ok bps state' /\ updated_at state' = now /\
  (match wait with Some _ => 0 | None => requested end + available state') * NANOS_PER_SEC
    <= available state * NANOS_PER_SEC + bps * (now - updated_at state).
Proof.
  intros Hb Hs Hn Hr Hp. pose proof (replenish_spec bps state now Hb Hs Hn) as [? ?].
  unfold acquire_pass in Hp.
  destruct (Z.leb_spec requested (replenish bps state now)); simplify_eq/=;
    unfold rate_ok; simpl; unfold NANOS_PER_SEC in *; lia.
Qed.

Lemma last_cons_default {A} (x d : A) l : List.last (x :: l) d = List.last l x.
Proof.
  revert x d. induction l as [|y l IH]; intros x d; [done|].
  change (List.last (x :: y :: l) d) with (List.last (y :: l) d).
  by rewrite !IH.
Qed.

Lemma rate_run_bound bps passes : forall state granted final,
  is_u64 bps -> rate_ok bps state -> ordered_from (updated_at state) passes ->
  Forall (fun p => 0 <= p.1) passes ->
  rate_run bps state passes = (granted, final) ->
  rate_ok bps final /\
  (granted + available final) * NANOS_PER_SEC
    <= available state * NANOS_PER_SEC
       + bps * (last_time (updated_at state) passes - updated_at state).
Proof.
  induction passes as [|[requested now] passes IH]; intros state granted final Hb Hs Ho Hf Hrun.
  { cbn [rate_run] in Hrun. simplify_eq. unfold last_time; simpl. split; [done|lia]. }
  cbn [rate_run ordered_from] in *. destruct Ho as [Hnow Ho].
  apply Forall_cons in Hf as [Hreq Hf].
  destruct (acquire_pass bps requested now state) as [wait state'] eqn:Ep.
  destruct (rate_run bps state' passes) as [granted' final'] eqn:Er.
  apply acquire_pass_spec in Ep as (Hs' & Hupd & Hpass); [|done..].
  apply IH in Er as [? Hrest]; [|done|done|by rewrite Hupd|done].
  rewrite Hupd in Hrest. simplify_eq. split; [done|].
  assert (last_time (updated_at state) ((requested, updated_at state') :: passes)
          = last_time (updated_at state') passes) as ->.
  { unfold last_time. apply last_cons_default. }
  unfold NANOS_PER_SEC in *. lia.
Qed.

(** C30: The rate limiter admits no more than one bucket plus the configured
    rate: for any interleaving of the passes of any number of tasks, the bytes
    granted by time [t] are at most the initial allowance plus
    [bytes_per_second] for every second elapsed, and the bucket never holds
    more than one second of traffic. *)
Theorem rate_limit_holds (bytes_per_second start : Z) (passes : list (Z * Z)) :
  is_u64 bytes_per_second -> ordered_from start passes ->
  Forall (fun p => 0 <= p.1) passes ->
  let '(granted, final) := rate_run bytes_per_second (rate_new bytes_per_second start) passes in
  0 <= available final <= bytes_per_second /\
  granted * NANOS_PER_SEC
    <= bytes_per_second * (NANOS_PER_SEC + last_time start passes - start).
Proof.
  intros Hb Ho Hf.
  destruct (rate_run bytes_per_second (rate_new bytes_per_second start) passes)
    as [granted final] eqn:E.
  apply rate_run_bound in E as [Hok Hle]; [|done|unfold rate_ok; simpl; ulia|done|done].
  unfold rate_ok, rate_new in *; simpl in *. split; [done|]. unfold NANOS_PER_SEC in *. lia.
Qed.

Lemma rate_limit_holds_witness :
  let '(granted, final) :=
    rate_run 1000 (rate_new 1000 0) [(600, 0); (600, 0); (400, 500000000)] in
  0 <= available final <= 1000 /\ granted * NANOS_PER_SEC <= 1000 * (NANOS_PER_SEC + 500000000 - 0).
Proof.
  apply (rate_limit_holds 1000 0 [(600, 0); (600, 0); (400, 500000000)]).
  - ulia.
  - simpl. lia.
  - repeat constructor; simpl; lia.
Defined.

Lemma replenish_now bps state :
  is_u64 bps -> rate_ok bps state -> replenish bps state (updated_at state) = available state.
Proof.
  unfold rate_ok, replenish. intros Hb Hs. unfold saturating_sub. rewrite Z.sub_diag.
  change (saturating_mul u128_max (Z.max 0 0) bps / NANOS_PER_SEC) with 0.
  change (0 <=? u64_max) with true. cbv iota. ulia.
Qed.

Lemma replenish_value bps state now k late missing :
  bps * k = NANOS_PER_SEC -> 0 < bps -> is_u64 bps ->
  available state = 0 -> now = updated_at state + missing * k + late ->
  0 <= missing -> 0 <= late ->
  missing + late * bps / NANOS_PER_SEC <= bps ->
  replenish bps state now = missing + late * bps / NANOS_PER_SEC.
Proof.
  intros Hk Hb Hu Ha -> Hm Hl Hle. unfold replenish. rewrite Ha.
  assert (0 < k) by (unfold NANOS_PER_SEC in *; nia).
  assert (0 <= missing * k) by nia.
  replace (saturating_sub _ _) with (missing * k + late) by (unfold saturating_sub; lia).
  assert ((missing * k + late) * bps / NANOS_PER_SEC = missing + late * bps / NANOS_PER_SEC)
    as Heq.
  { replace ((missing * k + late) * bps) with (missing * NANOS_PER_SEC + late * bps)
      by (rewrite <- Hk; ring).
    by rewrite Z.div_add_l by done. }
  assert (0 <= late * bps / NANOS_PER_SEC) by (apply Z.div_pos; unfold NANOS_PER_SEC; nia).
  assert ((missing * k + late) * bps < (bps + 1) * NANOS_PER_SEC) as Hsmall.
  { pose proof (Z.div_mod ((missing * k + late) * bps) NANOS_PER_SEC ltac:(done)).
    pose proof (Z.mod_pos_bound ((missing * k + late) * bps) NANOS_PER_SEC ltac:(done)). nia. }
  assert ((missing * k + late) * bps <= u128_max) as Hnosat.
  { etrans; [apply Z.lt_le_incl, Hsmall|]. clear - Hu. unfold NANOS_PER_SEC. ulia. }
  unfold saturating_mul. rewrite (Z.min_r u128_max) by done.
  rewrite Heq, (proj2 (Z.leb_le _ _)) by ulia. ulia.
Qed.

Lemma pass_short bps r now state k :
  bps * k = NANOS_PER_SEC -> 0 < bps -> is_u64 bps -> r <= bps ->
  0 <= replenish bps state now < r ->
  acquire_pass bps r now state
  = (Some ((r - replenish bps state now) * k), mkRate 0 now).
Proof.
  intros Hk Hb Hu Hr Ha. unfold acquire_pass.
  set (a := replenish bps state now) in *.
  rewrite (proj2 (Z.leb_gt _ _)) by lia.
  assert (0 < k) by (unfold NANOS_PER_SEC in *; nia).
  assert (div_ceil (saturating_mul u128_max (r - a) NANOS_PER_SEC) bps = (r - a) * k) as ->.
  { unfold div_ceil, saturating_mul.
    rewrite (Z.min_r u128_max) by (unfold NANOS_PER_SEC; ulia).
    replace ((r - a) * NANOS_PER_SEC + bps - 1) with ((r - a) * k * bps + (bps - 1))
      by (rewrite <- Hk; ring).
    rewrite Z.div_add_l, Z.div_small by lia. lia. }
  assert ((r - a) * k <= NANOS_PER_SEC) by nia.
  rewrite (proj2 (Z.leb_le _ _)) by (unfold NANOS_PER_SEC in *; ulia). done.
Qed.

Lemma acquire_oscillates bps r k late n : forall now state,
  bps * k = NANOS_PER_SEC -> 0 < bps -> is_u64 bps -> r <= bps -> 0 <= late ->
  late * bps / NANOS_PER_SEC < replenish bps state now < r ->
  fst (acquire bps r now state (replicate n (Slept late))) = Waiting.
Proof.
  induction n as [|n IH]; intros now state Hk Hb Hu Hr Hl [Ha1 Ha2];
    assert (0 <= late * bps / NANOS_PER_SEC) by (apply Z.div_pos; unfold NANOS_PER_SEC; nia);
    cbn [replicate acquire]; rewrite (pass_short bps r now state k) by (done || lia); [done|].
  apply IH; try done.
  rewrite (replenish_value bps _ _ k late (r - replenish bps state now)); simpl; lia || done.
Qed.

(** The limiter's loop need not terminate. A pass that finds too few bytes
    empties the bucket but, after its sleep, asks for the whole amount again;
    when every sleep ends a fixed [late] nanoseconds after its deadline, a
    request larger than a bucket that is not empty at first is never granted,
    however many times it wakes up. *)
Theorem rate_limiter_livelock (bytes_per_second requested avail late : Z) (n : nat) :
  0 < bytes_per_second -> (bytes_per_second | NANOS_PER_SEC) ->
  0 <= late -> late * bytes_per_second / NANOS_PER_SEC < avail ->
  avail < requested -> requested <= bytes_per_second ->
  fst (acquire bytes_per_second requested 0 (mkRate avail 0) (replicate n (Slept late)))
  = Waiting.
Proof.
  intros Hb Hdiv Hl Ha Hr Hle.
  assert (bytes_per_second <= NANOS_PER_SEC) by (by apply Z.divide_pos_le).
  destruct Hdiv as [k Hk]. rewrite Z.mul_comm in Hk.
  assert (0 <= late * bytes_per_second / NANOS_PER_SEC)
    by (apply Z.div_pos; unfold NANOS_PER_SEC; nia).
  assert (is_u64 bytes_per_second) by (unfold NANOS_PER_SEC in *; ulia).
  assert (replenish bytes_per_second (mkRate avail 0) 0 = avail) as Hrep
    by (apply replenish_now; unfold rate_ok; simpl; lia || done).
  apply acquire_oscillates with k; rewrite ?Hrep; done.
Qed.

(** The default rate of a route, a full default frame, and timers that fire
    one millisecond late. *)
Lemma rate_limiter_livelock_witness :
  fst (acquire 2500000 65536 0 (mkRate 30000 0) (replicate 1000 (Slept 1000000))) = Waiting.
Proof.
  apply (rate_limiter_livelock 2500000 65536 30000 1000000 1000); try lia.
  - exists 400. reflexivity.
  - vm_compute. reflexivity.
Defined.

(** From an empty bucket one sleep is enough: a request no larger than one
    second of traffic is granted on the second pass, if the timer does not
    fire early. *)
Theorem rate_limiter_progress (bytes_per_second requested now late : Z) :
  0 < bytes_per_second -> (bytes_per_second | NANOS_PER_SEC) ->
  0 < requested <= bytes_per_second -> 0 <= late ->
  fst (acquire bytes_per_second requested now (mkRate 0 now) [Slept late])
  = Returned (Ok tt).
Proof.
  intros Hb Hdiv Hr Hl.
  assert (bytes_per_second <= NANOS_PER_SEC) by (by apply Z.divide_pos_le).
  destruct Hdiv as [k Hk]. rewrite Z.mul_comm in Hk.
  assert (0 < k) by (unfold NANOS_PER_SEC in *; nia).
  assert (is_u64 bytes_per_second) by (unfold NANOS_PER_SEC in *; ulia).
  assert (replenish bytes_per_second (mkRate 0 now) now = 0) as Hz
    by (apply replenish_now; unfold rate_ok; simpl; lia || done).
  cbn [acquire]. rewrite (pass_short _ _ _ _ k) by (done || rewrite ?Hz; lia).
  rewrite Hz, Z.sub_0_r. unfold acquire_pass.
  rewrite (proj2 (Z.leb_le _ _)); [done|].
  unfold replenish; cbn [available updated_at].
  assert (0 <= requested * k /\ requested * k * bytes_per_second = requested * NANOS_PER_SEC)
    as [? Hx] by (rewrite Hk; nia).
  replace (saturating_sub _ _) with (requested * k + late) by (unfold saturating_sub; lia).
  assert (requested <= saturating_mul u128_max (requested * k + late) bytes_per_second
            / NANOS_PER_SEC).
  { apply Z.div_le_lower_bound; [done|]. unfold saturating_mul.
    apply Z.min_glb; unfold NANOS_PER_SEC in *; [ulia|nia]. }
  destruct (Z.leb_spec (saturating_mul u128_max (requested * k + late) bytes_per_second
            / NANOS_PER_SEC) u64_max); unfold_ints; lia.
Qed.

Lemma rate_limiter_progress_witness :
  fst (acquire 2500000 65536 7 (mkRate 0 7) [Slept 0]) = Returned (Ok tt).
Proof.
  apply (rate_limiter_progress 2500000 65536 7 0); try lia. exists 400. reflexivity.
Defined.
