(* ===== verification/RelayTunnel.v ===== *)
(** * The node tunnel and its member streams, on the relay

    [src/relay-server/src/relay.rs], [TunnelSession] and the tasks that share
    it: the frame reader, the pumps of every member stream, the heartbeat and
    the watchdog. Each definition is the code between two [await] points (or a
    whole function that has none); what an [await] yields is an argument.

    A [StreamDispatch] is shared between the stream table, the reader and the
    stream's own tasks, which keep it after it left the table. The model has
    one heap of dispatches ([heap]) and, apart from it, the set of identifiers
    the table holds ([streams]). Times are [Instant]s in nanoseconds. *)
From S2P Require Import Prelude Clock RelayError RelayConfig RelayFrame RelayFlow.

(** ** State *)

Inductive Inbound : Type :=
| InData (bytes : list byte)
| InFin
| InClose.

(** [StreamDispatch]: [open_sender] is whether the one-shot sender is still
    there, [open_value] what was sent through it; [inbound] is the bounded
    channel, [inbound_closed] whether its receiver was dropped. *)
Record StreamDispatch : Type := mkDispatch {
  open_sender : bool;
  open_value : option (result ErrorCode Z);
  inbound : list Inbound;
  inbound_closed : bool;
  receive_remaining : Z;
  send_credit : Z;
  d_cancel : bool;
}.

(** [TunnelSession]; [commands] are the frames the command channel accepted,
    in the order the writer task sends them. *)
Record TunnelSession : Type := mkTunnel {
  tunnel_id : Z;
  commands : list Frame;
  streams : gset Z;
  heap : gmap Z StreamDispatch;
  last_pong : Z;
  t_cancel : bool;
}.

Definition with_heap (t : TunnelSession) (h : gmap Z StreamDispatch) : TunnelSession :=
  mkTunnel (tunnel_id t) (commands t) (streams t) h (last_pong t) (t_cancel t).
Definition with_streams (t : TunnelSession) (s : gset Z) : TunnelSession :=
  mkTunnel (tunnel_id t) (commands t) s (heap t) (last_pong t) (t_cancel t).
Definition cancel_tunnel (t : TunnelSession) : TunnelSession :=
  mkTunnel (tunnel_id t) (commands t) (streams t) (heap t) (last_pong t) true.
Definition push (t : TunnelSession) (f : Frame) : TunnelSession :=
  mkTunnel (tunnel_id t) (commands t ++ [f]) (streams t) (heap t) (last_pong t) (t_cancel t).

Definition set_open (d : StreamDispatch) (v : option (result ErrorCode Z)) : StreamDispatch :=
  mkDispatch false v (inbound d) (inbound_closed d) (receive_remaining d) (send_credit d) (d_cancel d).
Definition set_inbound (d : StreamDispatch) (q : list Inbound) : StreamDispatch :=
  mkDispatch (open_sender d) (open_value d) q (inbound_closed d) (receive_remaining d)
    (send_credit d) (d_cancel d).
Definition set_remaining (d : StreamDispatch) (z : Z) : StreamDispatch :=
  mkDispatch (open_sender d) (open_value d) (inbound d) (inbound_closed d) z (send_credit d) (d_cancel d).
Definition set_credit (d : StreamDispatch) (z : Z) : StreamDispatch :=
  mkDispatch (open_sender d) (open_value d) (inbound d) (inbound_closed d) (receive_remaining d) z
    (d_cancel d).
Definition cancel_dispatch (d : StreamDispatch) : StreamDispatch :=
  mkDispatch (open_sender d) (open_value d) (inbound d) (inbound_closed d) (receive_remaining d)
    (send_credit d) true.
Definition close_inbound (d : StreamDispatch) : StreamDispatch :=
  mkDispatch (open_sender d) (open_value d) (inbound d) true (receive_remaining d)
    (send_credit d) (d_cancel d).

(** A child token is cancelled with its parent. *)
Definition stream_cancelled (t : TunnelSession) (d : StreamDispatch) : bool :=
  d_cancel d || t_cancel t.

(** ** [TunnelSession] *)

(** What the [select!] of [send] does *)
Inductive SendOutcome : Type := Sent | SendCancelled | WriterStopped.

(** [TunnelSession::send] *)
Definition send (t : TunnelSession) (f : Frame) (o : SendOutcome)
    : relay_result unit * TunnelSession :=
  match o with
  | Sent => (Ok tt, push t f)
  | SendCancelled => (Err (Stable TunnelLost "node tunnel is closed"), t)
  | WriterStopped => (Err (Stable TunnelLost "node tunnel writer stopped"), t)
  end.

(** [TunnelSession::remove_stream] *)
Definition remove_stream (t : TunnelSession) (sid : Z) : TunnelSession :=
  if bool_decide (sid ∈ streams t) then
    with_heap (with_streams t (streams t ∖ {[sid]})) (alter cancel_dispatch sid (heap t))
  else t.

(** [TunnelSession::cancel_all_streams] *)
Definition cancel_all_streams (t : TunnelSession) : TunnelSession :=
  with_heap (with_streams t ∅)
    (map_imap (fun sid d => Some (if bool_decide (sid ∈ streams t) then cancel_dispatch d else d))
       (heap t)).

(** The start of [run_tunnel]: a new session that queues [RegisterOk] *)
Definition start_tunnel (s : ServerConfig) (id now : Z) (o : SendOutcome)
    : relay_result unit * TunnelSession :=
  send (mkTunnel id [] ∅ ∅ now false)
    (frame_u32 RegisterOk 0 (default u32_max (try_from u32_max (heartbeat_interval_secs s)))) o.

(** The writer task of [run_tunnel]: the bytes it writes for the frames of the
    command channel, or the error it stops with *)
Fixpoint write_frames (max_frame_bytes : Z) (frames : list Frame) : relay_result (list byte) :=
  match frames with
  | [] => Ok []
  | f :: frames' =>
      bytes ← write_to f max_frame_bytes;
      rest ← write_frames max_frame_bytes frames';
      Ok (bytes ++ rest)
  end.

(** The end of [run_tunnel], whatever the reader returned *)
Definition finish_tunnel (t : TunnelSession) : TunnelSession :=
  cancel_all_streams (cancel_tunnel t).

(** ** Opening a stream *)

(** [next_stream_id.fetch_add(2)]: the identifier and the new counter *)
Definition next_stream_id (counter : Z) : Z * Z := (counter, wrapping_add u64_max counter 2).

(** The dispatch [open_stream] inserts *)
Definition new_dispatch (initial_window : Z) : StreamDispatch :=
  mkDispatch true None [] false initial_window (credit_new 0) false.

(** [TunnelSession::open_stream] up to its wait: the identifier, and the
    tunnel with the dispatch in its table and [Open] queued. *)
Definition open_stream (s : ServerConfig) (counter : Z) (t : TunnelSession) (o : SendOutcome)
    : relay_result Z * Z * TunnelSession :=
  let '(sid, counter') := next_stream_id counter in
  if (sid =? 0) || Z.even sid then
    (Err (Stable Internal "stream identifier space exhausted"), counter', t)
  else
    let t1 := with_heap (with_streams t ({[sid]} ∪ streams t))
                (<[sid := new_dispatch (initial_window_bytes s)]> (heap t)) in
    match send t1 (frame_u32 Open sid (initial_window_bytes s)) o with
    | (Ok _, t2) => (Ok sid, counter', t2)
    | (Err e, t2) => (Err e, counter', remove_stream t2 sid)
    end.

(** What the wait of [open_stream] ends with *)
Inductive OpenOutcome : Type :=
| OpenCancelled
| OpenValue (v : result ErrorCode Z)
| OpenDropped
| OpenElapsed.
Definition open_result (o : OpenOutcome) : relay_result Z :=
  match o with
  | OpenCancelled => Err (Stable TunnelLost "node tunnel closed while opening")
  | OpenValue (Ok window) => Ok window
  | OpenValue (Err c) => Err (Stable c "node refused the logical stream")
  | OpenDropped => Err (Stable TunnelLost "node tunnel closed while opening")
  | OpenElapsed => Err (Stable OpenTimeout "node did not open the logical stream")
  end.

(** The rest of [open_stream] *)
Definition open_finish (t : TunnelSession) (sid : Z) (o : OpenOutcome)
    : relay_result unit * TunnelSession :=
  match open_result o with
  | Ok window =>
      if 0 <? window then
        match heap t !! sid with
        | Some d =>
            let '(r, credit) := credit_add (send_credit d) window in
            (r, with_heap t (<[sid := set_credit d credit]> (heap t)))
        | None => (Ok tt, t)
        end
      else
        (Err (Stable ProtocolInvalid "node advertised an empty flow-control window"),
         remove_stream t sid)
  | Err e => (Err e, remove_stream t sid)
  end.

(** ** Frames from the node *)

(** [stream_dispatch] *)
Definition stream_dispatch (t : TunnelSession) (sid : Z) : relay_result StreamDispatch :=
  if (sid =? 0) || Z.even sid then
    Err (Stable ProtocolInvalid "node used an invalid stream identifier")
  else if bool_decide (sid ∈ streams t) then
    ok_or (heap t !! sid) (Stable ProtocolInvalid "stream is not open")
  else Err (Stable ProtocolInvalid "stream is not open").

(** [debit_receive_window] *)
Definition debit_receive_window (d : StreamDispatch) (bytes : Z) : relay_result StreamDispatch :=
  match checked_sub (receive_remaining d) bytes with
  | Some remaining => Ok (set_remaining d remaining)
  | None => Err (Stable ProtocolInvalid "node exceeded the stream receive window")
  end.

(** [mpsc::Sender::try_send] on a channel of the given capacity *)
Definition try_send (capacity : Z) (d : StreamDispatch) (m : Inbound) : option StreamDispatch :=
  if inbound_closed d || (capacity <=? zlen (inbound d)) then None
  else Some (set_inbound d (inbound d ++ [m])).

Definition update (t : TunnelSession) (sid : Z) (d : StreamDispatch) : TunnelSession :=
  with_heap t (<[sid := d]> (heap t)).

(** The body of the loop of [read_tunnel_frames] for one frame; [o] is what a
    reply's [send] does and [now] the clock. *)
Definition handle_frame (s : ServerConfig) (t : TunnelSession) (f : Frame) (o : SendOutcome)
    (now : Z) : relay_result unit * TunnelSession :=
  let sid := stream_id f in
  match kind f with
  | OpenOk =>
      match (window ← parse_u32 f; d ← stream_dispatch t sid; Ok (window, d)) with
      | Err e => (Err e, t)
      | Ok (window, d) =>
          if open_sender d then (Ok tt, update t sid (set_open d (Some (Ok window))))
          else (Err (Stable ProtocolInvalid "duplicate stream open result"), t)
      end
  | OpenError =>
      match stream_dispatch t sid with
      | Err e => (Err e, t)
      | Ok d =>
          if open_sender d then (Ok tt, update t sid (set_open d (Some (Err RouteUnavailable))))
          else (Ok tt, t)
      end
  | Data =>
      match (d ← stream_dispatch t sid; debit_receive_window d (zlen (payload f))) with
      | Err e => (Err e, t)
      | Ok d =>
          match try_send (stream_buffer_frames s) d (InData (payload f)) with
          | Some d' => (Ok tt, update t sid d')
          | None =>
              match send (update t sid d) (frame_code Close sid LimitReached) o with
              | (Ok _, t') => (Ok tt, remove_stream t' sid)
              | (Err e, t') => (Err e, t')
              end
          end
      end
  | Fin =>
      match stream_dispatch t sid with
      | Err e => (Err e, t)
      | Ok d =>
          match try_send (stream_buffer_frames s) d InFin with
          | Some d' => (Ok tt, update t sid d')
          | None => (Ok tt, remove_stream t sid)
          end
      end
  | Close =>
      let t' := match stream_dispatch t sid with
                | Ok d => match try_send (stream_buffer_frames s) d InClose with
                          | Some d' => update t sid d'
                          | None => t
                          end
                | Err _ => t
                end in
      (Ok tt, remove_stream t' sid)
  | WindowUpdate =>
      match stream_dispatch t sid with
      | Err e => (Err e, t)
      | Ok d =>
          match parse_u32 f with
          | Err e => (Err e, t)
          | Ok amount =>
              let '(r, credit) := credit_add (send_credit d) amount in
              (r, update t sid (set_credit d credit))
          end
      end
  | Ping =>
      if negb (sid =? 0) || negb (zlen (payload f) =? 8) then
        (Err (Stable ProtocolInvalid "invalid heartbeat frame"), t)
      else send t (mkFrame Pong 0 (payload f)) o
  | Pong =>
      if negb (sid =? 0) || negb (zlen (payload f) =? 8) then
        (Err (Stable ProtocolInvalid "invalid heartbeat frame"), t)
      else (Ok tt, mkTunnel (tunnel_id t) (commands t) (streams t) (heap t) now (t_cancel t))
  | Register | RegisterOk | Error | Open =>
      (Err (Stable ProtocolInvalid "frame kind is invalid in this direction"), t)
  end.

(** One pass of [read_tunnel_frames] on the bytes [reader]: [None] when the
    reader goes on, [Some r] when it returns [r], with the bytes left. *)
Definition read_pass (s : ServerConfig) (t : TunnelSession) (reader : list byte)
    (o : SendOutcome) (now : Z) : option (relay_result unit) * TunnelSession * list byte :=
  match read_from reader (max_frame_bytes s) with
  | (Err e, rest) => (Some (Err e), t, rest)
  | (Ok None, rest) => (Some (Err (Stable TunnelLost "node tunnel reached EOF")), t, rest)
  | (Ok (Some f), rest) =>
      match handle_frame s t f o now with
      | (Ok _, t') => (None, t', rest)
      | (Err e, t') => (Some (Err e), t', rest)
      end
  end.

(** ** Member streams *)

(** [account_connection_bytes] *)
Definition account_connection_bytes (max_bytes_per_connection current amount : Z) : relay_result Z :=
  match checked_add u64_max current amount with
  | Some next =>
      if next <=? max_bytes_per_connection then Ok next
      else Err (Stable LimitReached "connection byte limit reached")
  | None => Err (Stable LimitReached "connection byte limit reached")
  end.

(** The answers of [reserve_route_bytes]: without a quota what was asked, with
    one what [RouteQuota::reserve] returns *)
Definition reserve_answer (has_quota : bool) (requested : Z) (r : relay_result Z) : bool :=
  match r with
  | Ok granted =>
      if has_quota then (0 <=? granted) && (granted <=? requested) else granted =? requested
  | Err _ => has_quota
  end.

(** [Activity] *)
Record Activity : Type := mkActivity {
  act_started : Z;
  act_last : Z;
  act_bytes : Z;
}.
(** [record_activity] *)
Definition record_activity (a : Activity) (amount now : Z) : Activity :=
  mkActivity (act_started a) now (wrapping_add u64_max (act_bytes a) amount).

(** The points where [pump_member_to_node] waits: for the member, the quota,
    the rate limiter, credit, and the tunnel (for [Data] or [Fin]). *)
Inductive Upload : Type :=
| UpRead
| UpReserve (data : list byte)
| UpRate (data : list byte) (granted : Z)
| UpCredit (data : list byte) (granted : Z)
| UpSend (data : list byte) (granted : Z)
| UpFin
| UpDone (r : relay_result unit).

(** The points where [pump_node_to_member] waits: for the inbound channel, the
    quota, the rate limiter, the member's socket, the tunnel, and the socket's
    shutdown. *)
Inductive Download : Type :=
| DnRecv
| DnReserve (data : list byte)
| DnRate (data : list byte) (granted : Z)
| DnWrite (data : list byte) (granted : Z)
| DnSend (data : list byte) (granted : Z)
| DnShutdown
| DnDone (r : relay_result unit).

(** One member stream between [relay_member_stream]'s start and the end of
    [handle_member]; [taken] and [written] log what was read from the member's
    socket and written to it, [sent] the payload of the [Data] frames queued
    for the node. *)
Record Member : Type := mkMember {
  connection_bytes : Z;
  up : Upload;
  down : Download;
  activity : Activity;
  taken : list byte;
  sent : list byte;
  written : list byte;
  ended : option (relay_result unit);
}.
Definition new_member (now : Z) : Member :=
  mkMember 0 UpRead DnRecv (mkActivity now now 0) [] [] [] None.

Definition with_up (m : Member) (u : Upload) : Member :=
  mkMember (connection_bytes m) u (down m) (activity m) (taken m) (sent m) (written m)
    (ended m).
Definition with_down (m : Member) (d : Download) : Member :=
  mkMember (connection_bytes m) (up m) d (activity m) (taken m) (sent m) (written m)
    (ended m).
Definition with_connection (m : Member) (z : Z) : Member :=
  mkMember z (up m) (down m) (activity m) (taken m) (sent m) (written m) (ended m).
Definition log_taken (m : Member) (l : list byte) : Member :=
  mkMember (connection_bytes m) (up m) (down m) (activity m) (taken m ++ l) (sent m)
    (written m) (ended m).
Definition log_sent (m : Member) (l : list byte) (a : Activity) : Member :=
  mkMember (connection_bytes m) (up m) (down m) a (taken m) (sent m ++ l) (written m)
    (ended m).
Definition log_written (m : Member) (l : list byte) : Member :=
  mkMember (connection_bytes m) (up m) (down m) (activity m) (taken m) (sent m) (written m ++ l) (ended m).
Definition with_activity (m : Member) (a : Activity) : Member :=
  mkMember (connection_bytes m) (up m) (down m) a (taken m) (sent m) (written m) (ended m).
Definition end_member (m : Member) (r : relay_result unit) : Member :=
  mkMember (connection_bytes m) (up m) (down m) (activity m) (taken m) (sent m) (written m)
    (Some r).

Definition monthly_limit_reached : RelayError := Stable LimitReached "route monthly byte limit reached".

(** [&buffer[..granted]] *)
Definition first_bytes (granted : Z) (data : list byte) : list byte := take (Z.to_nat granted) data.

(** [pump_member_to_node], from one wait to the next *)
Inductive UpEvent : Type :=
| UeCancelled
| UeRead (data : relay_result (list byte))
| UeReserved (r : relay_result Z)
| UeRated (r : relay_result unit)
| UeCredit
| UeCreditCancelled
| UeSent (o : SendOutcome) (now : Z).

Definition upload_step (r : RouteConfig) (sid : Z) (t : TunnelSession) (d : StreamDispatch)
    (m : Member) (e : UpEvent) : option (TunnelSession * Member) :=
  match up m, e with
  | UpRead, UeCancelled =>
      if stream_cancelled t d then Some (t, with_up m (UpDone (Ok tt))) else None
  | UpRead, UeRead (Err err) => Some (t, with_up m (UpDone (Err err)))
  | UpRead, UeRead (Ok []) => Some (t, with_up m UpFin)
  | UpRead, UeRead (Ok data) =>
      let m := log_taken m data in
      match account_connection_bytes (rc_max_bytes_per_connection r) (connection_bytes m) (zlen data) with
      | Ok next => Some (t, with_up (with_connection m next) (UpReserve data))
      | Err err => Some (t, with_up m (UpDone (Err err)))
      end
  | UpReserve data, UeReserved (Err err) => Some (t, with_up m (UpDone (Err err)))
  | UpReserve data, UeReserved (Ok granted) =>
      if granted =? 0 then Some (t, with_up m (UpDone (Err monthly_limit_reached)))
      else Some (t, with_up m (UpRate data granted))
  | UpRate data granted, UeRated (Err err) => Some (t, with_up m (UpDone (Err err)))
  | UpRate data granted, UeRated (Ok _) => Some (t, with_up m (UpCredit data granted))
  | UpCredit data granted, UeCredit =>
      match credit_try (send_credit d) granted with
      | Some remaining => Some (update t sid (set_credit d remaining), with_up m (UpSend data granted))
      | None => None
      end
  | UpCredit data granted, UeCreditCancelled =>
      if stream_cancelled t d
      then Some (t, with_up m (UpDone (Err (Stable TunnelLost "stream was cancelled")))) else None
  | UpSend data granted, UeSent o now =>
      match send t (mkFrame Data sid (first_bytes granted data)) o with
      | (Err err, t') => Some (t', with_up m (UpDone (Err err)))
      | (Ok _, t') =>
          let m := log_sent m (first_bytes granted data) (record_activity (activity m) granted now) in
          if granted <? zlen data then Some (t', with_up m (UpDone (Err monthly_limit_reached)))
          else Some (t', with_up m UpRead)
      end
  | UpFin, UeSent o _ =>
      let '(res, t') := send t (mkFrame Fin sid []) o in Some (t', with_up m (UpDone res))
  | _, _ => None
  end.

(** [pump_node_to_member], from one wait to the next. The channel never
    reports a dropped sender, as the task itself holds the dispatch with it. *)
Inductive DownEvent : Type :=
| DeCancelled
| DeReceive
| DeReserved (r : relay_result Z)
| DeRated (r : relay_result unit)
| DeWritten (r : relay_result unit)
| DeSent (o : SendOutcome) (now : Z)
| DeShutdown (r : relay_result unit).

(** The pump returns, which drops its end of the inbound channel. *)
Definition finish_download (t : TunnelSession) (sid : Z) (d : StreamDispatch) (m : Member)
    (r : relay_result unit) : TunnelSession * Member :=
  (update t sid (close_inbound d), with_down m (DnDone r)).

Definition download_step (r : RouteConfig) (sid : Z) (t : TunnelSession) (d : StreamDispatch)
    (m : Member) (e : DownEvent) : option (TunnelSession * Member) :=
  match down m, e with
  | DnRecv, DeCancelled =>
      if stream_cancelled t d then Some (finish_download t sid d m (Ok tt)) else None
  | DnRecv, DeReceive =>
      match inbound d with
      | [] => None
      | InData data :: rest =>
          let d := set_inbound d rest in
          match account_connection_bytes (rc_max_bytes_per_connection r) (connection_bytes m)
                  (zlen data) with
          | Ok next => Some (update t sid d, with_down (with_connection m next) (DnReserve data))
          | Err err => Some (finish_download t sid d m (Err err))
          end
      | InFin :: rest => Some (update t sid (set_inbound d rest), with_down m DnShutdown)
      | InClose :: rest =>
          Some (finish_download t sid (set_inbound d rest) m
                  (Err (Stable TunnelLost "node closed the logical stream")))
      end
  | DnReserve data, DeReserved (Err err) => Some (finish_download t sid d m (Err err))
  | DnReserve data, DeReserved (Ok granted) =>
      if granted =? 0 then Some (finish_download t sid d m (Err monthly_limit_reached))
      else Some (t, with_down m (DnRate data granted))
  | DnRate data granted, DeRated (Err err) => Some (finish_download t sid d m (Err err))
  | DnRate data granted, DeRated (Ok _) => Some (t, with_down m (DnWrite data granted))
  | DnWrite data granted, DeWritten (Err err) => Some (finish_download t sid d m (Err err))
  | DnWrite data granted, DeWritten (Ok _) =>
      let m := log_written m (first_bytes granted data) in
      match try_from u32_max granted with
      | None =>
          Some (finish_download t sid d m (Err (Stable FrameTooLarge "payload cannot update flow window")))
      | Some amount =>
          Some (update t sid (set_remaining d (wrapping_add u64_max (receive_remaining d) amount)),
                with_down m (DnSend data granted))
      end
  | DnSend data granted, DeSent o now =>
      match send t (frame_u32 WindowUpdate sid granted) o with
      | (Err err, t') => Some (finish_download t' sid d m (Err err))
      | (Ok _, t') =>
          let m := with_activity m (record_activity (activity m) (zlen data) now) in
          if granted <? zlen data then Some (finish_download t' sid d m (Err monthly_limit_reached))
          else Some (t', with_down m DnRecv)
      end
  | DnShutdown, DeShutdown res => Some (finish_download t sid d m res)
  | _, _ => None
  end.

(** One pass of [watch_stream] after its sleep: the error it returns with *)
Definition watch_pass (s : ServerConfig) (r : RouteConfig) (a : Activity) (now : Z)
    (wall : OffsetDateTime) : option RelayError :=
  let idle := now - act_last a in
  if (act_bytes a =? 0) && (no_payload_timeout_secs s * 1000000000 <? now - act_started a) then
    Some (Stable IdleTimeout "stream sent no payload before the deadline")
  else if idle_timeout_secs s * 1000000000 <? idle then
    Some (Stable IdleTimeout "stream exceeded its idle timeout")
  else if is_expired r wall then Some (Stable GrantExpired "route grant expired")
  else None.

(** Why the [select!] of [relay_member_stream] ended *)
Inductive EndReason : Type :=
| Joined
| Watchdog (now : Z) (wall : OffsetDateTime)
| StreamCancelled.
Definition relay_result_of (s : ServerConfig) (r : RouteConfig) (t : TunnelSession)
    (d : StreamDispatch) (m : Member) (w : EndReason) : option (relay_result unit) :=
  match w with
  | Joined =>
      match up m, down m with
      | UpDone (Err e), _ => Some (Err e)
      | _, DnDone (Err e) => Some (Err e)
      | UpDone (Ok _), DnDone (Ok _) => Some (Ok tt)
      | _, _ => None
      end
  | Watchdog now wall =>
      match watch_pass s r (activity m) now wall with
      | Some e => Some (Err e)
      | None => if stream_cancelled t d then Some (Ok tt) else None
      end
  | StreamCancelled =>
      if stream_cancelled t d then Some (Err (Stable TunnelLost "logical stream was cancelled")) else None
  end.

(** [result_code] *)
Definition result_code (r : relay_result unit) : ErrorCode :=
  match r with Ok _ => TunnelLost | Err e => code e end.

(** The end of [handle_member]: the dispatch is cancelled and leaves the
    table, its channel receiver is dropped, and [Close] is sent if it can. *)
Definition finish_member (t : TunnelSession) (sid : Z) (r : relay_result unit) (o : SendOutcome)
    : TunnelSession :=
  let t := with_heap t (alter (fun d => close_inbound (cancel_dispatch d)) sid (heap t)) in
  (send (remove_stream t sid) (frame_code Close sid (result_code r)) o).2.

(** One pass of [run_heartbeat] after its sleep: the new sequence number, or
    [None] when the heartbeat ends. *)
Definition heartbeat_pass (s : ServerConfig) (r : RouteConfig) (t : TunnelSession) (sequence now : Z)
    (wall : OffsetDateTime) (o : SendOutcome) : option Z * TunnelSession :=
  if is_expired r wall || (heartbeat_timeout_secs s * 1000000000 <? now - last_pong t) then
    (None, cancel_tunnel t)
  else
    let sequence := wrapping_add u64_max sequence 1 in
    match send t (mkFrame Ping 0 (be_bytes 8 sequence)) o with
    | (Ok _, t') => (Some sequence, t')
    | (Err _, t') => (None, cancel_tunnel t')
    end.
