(* ===== verification/RelayLink.v ===== *)
(** * Streams over one node tunnel: every interleaving

    The tasks of [RelayTunnel] run against each other: the frame reader, any
    number of member streams opening, pumping and ending, the heartbeat, and
    cancellation from outside. A run is a sequence of events, each the code of
    one task between two waits. [inlog] and [credit] record, for the theorems,
    the payload accepted from the node per stream and the credit it granted. *)
From S2P Require Import Prelude Clock RelayError RelayConfig RelayFrame RelayFlow RelayTunnel.

Record Link : Type := mkLink {
  tunnel : TunnelSession;
  opening : gset Z;
  members : gmap Z Member;
  counter : Z;
  ping_sequence : Z;
  inlog : gmap Z (list byte);
  credit : gmap Z Z;
  closed : option (relay_result unit);
}.

Definition inlog_of (l : Link) (sid : Z) : list byte := default [] (inlog l !! sid).
Definition credit_of (l : Link) (sid : Z) : Z := default 0 (credit l !! sid).
Definition with_tunnel (l : Link) (t : TunnelSession) : Link :=
  mkLink t (opening l) (members l) (counter l) (ping_sequence l) (inlog l) (credit l) (closed l).

Inductive Event : Type :=
| EvFrame (f : Frame) (o : SendOutcome) (now : Z)
| EvReaderFails (e : RelayError)
| EvReaderCancelled
| EvOpen (o : SendOutcome)
| EvOpened (sid : Z) (out : OpenOutcome) (now : Z)
| EvUp (sid : Z) (e : UpEvent)
| EvDown (sid : Z) (e : DownEvent)
| EvEnd (sid : Z) (w : EndReason) (o : SendOutcome)
| EvHeartbeat (now : Z) (wall : OffsetDateTime) (o : SendOutcome)
| EvCancelTunnel.

(** Whether the reader queues the payload of [f] *)
Definition accepts (s : ServerConfig) (t : TunnelSession) (f : Frame) : bool :=
  bool_decide (kind f = Data) &&
  match (d ← stream_dispatch t (stream_id f); debit_receive_window d (zlen (payload f))) with
  | Ok d => match try_send (stream_buffer_frames s) d (InData (payload f)) with
            | Some _ => true | None => false end
  | Err _ => false
  end.
(** The credit a frame grants *)
Definition grants (f : Frame) (r : relay_result unit) : Z :=
  match kind f, r, parse_u32 f with
  | WindowUpdate, Ok _, Ok n => n
  | _, _, _ => 0
  end.

(** What the outside may answer *)
Definition up_answer (s : ServerConfig) (r : RouteConfig) (m : Member) (e : UpEvent) : bool :=
  match e, up m with
  | UeRead (Ok data), _ => zlen data <=? max_frame_bytes s
  | UeReserved a, UpReserve data =>
      reserve_answer (bool_decide (is_Some (rc_monthly_byte_limit r))) (zlen data) a
  | _, _ => true
  end.
Definition down_answer (r : RouteConfig) (m : Member) (e : DownEvent) : bool :=
  match e, down m with
  | DeReserved a, DnReserve data =>
      reserve_answer (bool_decide (is_Some (rc_monthly_byte_limit r))) (zlen data) a
  | _, _ => true
  end.
(** A one-shot channel yields the value sent through it; its sender, kept in
    the dispatch the opening task holds, is never dropped unused. *)
Definition open_answer (t : TunnelSession) (d : StreamDispatch) (out : OpenOutcome) : bool :=
  match out with
  | OpenCancelled => t_cancel t
  | OpenValue v => match open_value d with
                   | Some v' => match v, v' with
                                | Ok a, Ok b => a =? b
                                | Err a, Err b => bool_decide (a = b)
                                | _, _ => false
                                end
                   | None => false
                   end
  | OpenDropped => false
  | OpenElapsed => true
  end.

Definition end_reader (l : Link) (t : TunnelSession) (r : relay_result unit) : Link :=
  mkLink (finish_tunnel t) (opening l) (members l) (counter l) (ping_sequence l) (inlog l) (credit l)
    (Some r).

(** The reader handles one frame; an error ends it, and with it the tunnel. *)
Definition frame_step (s : ServerConfig) (l : Link) (f : Frame) (o : SendOutcome) (now : Z) : Link :=
  let sid := stream_id f in
  let '(res, t') := handle_frame s (tunnel l) f o now in
  let inlog' := if accepts s (tunnel l) f then <[sid := inlog_of l sid ++ payload f]> (inlog l)
                else inlog l in
  let l' := mkLink t' (opening l) (members l) (counter l) (ping_sequence l) inlog'
              (<[sid := credit_of l sid + grants f res]> (credit l)) (closed l) in
  match res with
  | Ok _ => l'
  | Err e => end_reader l' t' (Err e)
  end.

Definition open_step (s : ServerConfig) (l : Link) (o : SendOutcome) : Link :=
  let '(res, counter', t') := open_stream s (counter l) (tunnel l) o in
  mkLink t' (match res with Ok sid => {[sid]} ∪ opening l | Err _ => opening l end)
    (members l) counter' (ping_sequence l) (inlog l) (credit l) (closed l).

Definition opened_step (l : Link) (sid : Z) (out : OpenOutcome) (now : Z) : Link :=
  let '(res, t') := open_finish (tunnel l) sid out in
  let '(members', credit') :=
    match res, out with
    | Ok _, OpenValue (Ok window) =>
        (<[sid := new_member now]> (members l), <[sid := credit_of l sid + window]> (credit l))
    | _, _ => (members l, credit l)
    end in
  mkLink t' (opening l ∖ {[sid]}) members' (counter l) (ping_sequence l) (inlog l) credit' (closed l).

Definition with_member (l : Link) (sid : Z) (tm : TunnelSession * Member) : Link :=
  mkLink tm.1 (opening l) (<[sid := tm.2]> (members l)) (counter l) (ping_sequence l) (inlog l)
    (credit l) (closed l).

(** A stream whose tasks still run *)
Definition running (l : Link) (sid : Z) : option (Member * StreamDispatch) :=
  m ← members l !! sid;
  d ← heap (tunnel l) !! sid;
  match ended m with None => Some (m, d) | Some _ => None end.

(** One event, or [None] where it cannot happen *)
Definition step (s : ServerConfig) (r : RouteConfig) (l : Link) (e : Event) : option Link :=
  match e with
  | EvFrame f o now =>
      if bool_decide (closed l = None) && (zlen (payload f) <=? max_frame_bytes s)
         && (0 <=? stream_id f) && (stream_id f <=? u64_max)
      then Some (frame_step s l f o now) else None
  | EvReaderFails err =>
      if bool_decide (closed l = None) then Some (end_reader l (tunnel l) (Err err)) else None
  | EvReaderCancelled =>
      if bool_decide (closed l = None) && t_cancel (tunnel l)
      then Some (end_reader l (tunnel l) (Ok tt)) else None
  | EvOpen o => Some (open_step s l o)
  | EvOpened sid out now =>
      d ← heap (tunnel l) !! sid;
      if bool_decide (sid ∈ opening l) && open_answer (tunnel l) d out
      then Some (opened_step l sid out now) else None
  | EvUp sid ev =>
      '(m, d) ← running l sid;
      if up_answer s r m ev then with_member l sid <$> upload_step r sid (tunnel l) d m ev else None
  | EvDown sid ev =>
      '(m, d) ← running l sid;
      if down_answer r m ev then with_member l sid <$> download_step r sid (tunnel l) d m ev else None
  | EvEnd sid w o =>
      '(m, d) ← running l sid;
      res ← relay_result_of s r (tunnel l) d m w;
      Some (with_member l sid (finish_member (tunnel l) sid res o, end_member m res))
  | EvHeartbeat now wall o =>
      let '(seq, t') := heartbeat_pass s r (tunnel l) (ping_sequence l) now wall o in
      Some (mkLink t' (opening l) (members l) (counter l) (default (ping_sequence l) seq) (inlog l)
              (credit l) (closed l))
  | EvCancelTunnel => Some (with_tunnel l (cancel_tunnel (tunnel l)))
  end.

Fixpoint run (s : ServerConfig) (r : RouteConfig) (l : Link) (es : list Event) : option Link :=
  match es with
  | [] => Some l
  | e :: es' => l' ← step s r l e; run s r l' es'
  end.

(** A new tunnel on a route whose counter stands at [c] *)
Definition fresh_link (s : ServerConfig) (id c now : Z) : Link :=
  mkLink (start_tunnel s id now Sent).2 ∅ ∅ c 0 ∅ ∅ None.
