(* ===== verification/RelayLinkFacts.v ===== *)
(** * What holds of every run over a node tunnel

    The invariant of [RelayLink] and what follows from it: the two directions
    of a stream deliver prefixes of what the other side sent, byte for byte;
    a stream stays within the node's credit, within its own receive window and
    within its byte limit; stream identifiers are odd and never reused on a
    tunnel; every queued frame can be written. *)
From S2P Require Import Prelude Clock RelayError RelayConfig RelayFrame RelayFlow RelayTunnel RelayLink.

(** ** The invariant *)

Definition queue_bytes (q : list Inbound) : list byte :=
  concat ((fun i => match i with InData b => b | _ => [] end) <$> q).
(** The payload of the [Data] frames queued for stream [sid] *)
Definition data_on (sid : Z) (fs : list Frame) : list byte :=
  concat ((fun f => if bool_decide (kind f = Data) && (stream_id f =? sid) then payload f else []) <$> fs).

(** What a task holds between two waits *)
Definition up_pending (u : Upload) : list byte :=
  match u with
  | UpReserve data | UpRate data _ | UpCredit data _ | UpSend data _ => data
  | _ => []
  end.
Definition up_credit (u : Upload) : Z := match u with UpSend _ g => g | _ => 0 end.
Definition down_pending (d : Download) : list byte :=
  match d with
  | DnReserve data | DnRate data _ | DnWrite data _ => data
  | DnSend data g => drop (Z.to_nat g) data
  | _ => []
  end.
(** The bytes taken off the queue whose window is not yet returned *)
Definition in_hand (d : Download) : Z :=
  match d with DnReserve data | DnRate data _ | DnWrite data _ => zlen data | _ => 0 end.

Definition up_ok (max : Z) (u : Upload) : Prop :=
  zlen (up_pending u) <= max /\
  match u with
  | UpRate data g | UpCredit data g | UpSend data g => 0 < g <= zlen data
  | _ => True
  end.
Definition down_ok (d : Download) : Prop :=
  match d with
  | DnRate data g | DnWrite data g | DnSend data g => 0 < g <= zlen data
  | _ => True
  end.

(** The part of a dispatch that flow control is about *)
Record Core : Type := mkCore {
  c_inbound : list Inbound;
  c_remaining : Z;
  c_credit : Z;
}.
Definition core (d : StreamDispatch) : Core :=
  mkCore (inbound d) (receive_remaining d) (send_credit d).

Record member_inv (s : ServerConfig) (r : RouteConfig) (c : Core) (m : Member)
    (inl out : list byte) (granted : Z) : Prop := {
  mi_window : c_remaining c + zlen (queue_bytes (c_inbound c)) + in_hand (down m)
    <= initial_window_bytes s;
  mi_down : match down m with
            | DnDone _ => written m `prefix_of` inl
            | dn => inl = written m ++ down_pending dn ++ queue_bytes (c_inbound c)
            end;
  mi_up : match up m with
          | UpDone _ => sent m `prefix_of` taken m
          | u => taken m = sent m ++ up_pending u
          end;
  mi_out : out = sent m;
  mi_credit : zlen (sent m) + up_credit (up m) + c_credit c <= granted;
  mi_bytes : zlen (sent m) + zlen (up_pending (up m)) + zlen (written m) + zlen (down_pending (down m))
    <= connection_bytes m <= rc_max_bytes_per_connection r;
  mi_up_ok : up_ok (max_frame_bytes s) (up m);
  mi_down_ok : down_ok (down m);
}.

(** What one stream sees of a link *)
Record View : Type := mkView {
  v_core : option Core;
  v_member : option Member;
  v_in : list byte;
  v_out : list byte;
  v_credit : Z;
}.
Definition view (l : Link) (sid : Z) : View :=
  mkView (core <$> heap (tunnel l) !! sid) (members l !! sid) (inlog_of l sid)
    (data_on sid (commands (tunnel l))) (credit_of l sid).

Definition view_inv (s : ServerConfig) (r : RouteConfig) (v : View) : Prop :=
  match v_core v with
  | None => v_member v = None /\ v_in v = [] /\ v_out v = [] /\ v_credit v = 0
  | Some c =>
      0 <= c_remaining c /\ 0 <= c_credit c /\
      match v_member v with
      | None => c_remaining c + zlen (queue_bytes (c_inbound c)) <= initial_window_bytes s /\
          v_in v = queue_bytes (c_inbound c) /\ c_credit c <= v_credit v /\ v_out v = []
      | Some m => member_inv s r c m (v_in v) (v_out v) (v_credit v)
      end
  end.

Definition frame_fits (s : ServerConfig) (f : Frame) : Prop :=
  zlen (payload f) <= max_frame_bytes s /\ is_u64 (stream_id f).

Record link_inv (s : ServerConfig) (r : RouteConfig) (l : Link) : Prop := {
  li_views : forall sid, view_inv s r (view l sid);
  li_ids : forall sid, is_Some (heap (tunnel l) !! sid) -> Z.odd sid = true /\ 1 <= sid < counter l;
  li_counter : Z.odd (counter l) = true /\ 1 <= counter l <= u64_max;
  li_table : forall sid, sid ∈ streams (tunnel l) -> is_Some (heap (tunnel l) !! sid);
  li_opening : forall sid, sid ∈ opening l ->
    is_Some (heap (tunnel l) !! sid) /\ members l !! sid = None;
  li_frames : Forall (frame_fits s) (commands (tunnel l));
}.

(** ** Tunnels, as far as the streams see them *)

(** Two tunnels that differ in cancellation, table and heartbeat only *)
Definition same_core (t t' : TunnelSession) : Prop :=
  forall sid, core <$> heap t' !! sid = core <$> heap t !! sid.

Lemma core_is_Some t t' sid :
  same_core t t' -> is_Some (heap t' !! sid) <-> is_Some (heap t !! sid).
Proof.
  intros H. specialize (H sid). destruct (heap t' !! sid), (heap t !! sid); simpl in H;
    split; intros [? ?]; simplify_eq; eauto.
Qed.

Lemma alter_core (f : StreamDispatch -> StreamDispatch) (h : gmap Z StreamDispatch) sid sid' :
  (forall d, core (f d) = core d) -> core <$> alter f sid h !! sid' = core <$> h !! sid'.
Proof.
  intros Hf. rewrite lookup_alter. case_decide; [|done].
  subst. destruct (h !! sid'); simpl; [by rewrite Hf|done].
Qed.

Lemma remove_stream_core t sid : same_core t (remove_stream t sid).
Proof.
  intros sid'. unfold remove_stream. case_match; [|done]. by apply alter_core.
Qed.

Lemma finish_tunnel_core t : same_core t (finish_tunnel t).
Proof.
  intros sid. unfold finish_tunnel, cancel_all_streams. simpl. rewrite map_lookup_imap.
  destruct (heap t !! sid); simpl; [|done]. by case_match.
Qed.

Lemma remove_stream_commands t sid : commands (remove_stream t sid) = commands t.
Proof. unfold remove_stream. by case_match. Qed.

Lemma remove_stream_streams t sid : streams (remove_stream t sid) ⊆ streams t.
Proof. unfold remove_stream. case_match; simpl; set_solver. Qed.

Lemma send_cases t f o res t' :
  send t f o = (res, t') -> (res = Ok tt /\ t' = push t f) \/ (is_ok res = false /\ t' = t).
Proof. unfold send. destruct o; intros; simplify_eq/=; auto. Qed.

Lemma data_on_app sid fs gs : data_on sid (fs ++ gs) = data_on sid fs ++ data_on sid gs.
Proof. unfold data_on. by rewrite fmap_app, concat_app. Qed.

Lemma data_on_control sid f : kind f <> Data -> data_on sid [f] = [].
Proof. intros H. unfold data_on. simpl. by rewrite bool_decide_eq_false_2. Qed.

(** ** The frame reader *)

(** The reader queues [inadd] and adds [n] credit; a debited window never
    goes below zero. *)
Definition core_move (c c' : Core) (inadd : list byte) (n : Z) : Prop :=
  queue_bytes (c_inbound c') = queue_bytes (c_inbound c) ++ inadd /\
  c_credit c' = c_credit c + n /\ 0 <= n /\ 0 <= c_remaining c' /\
  c_remaining c' + zlen inadd <= c_remaining c.

Definition entry_move (o o' : option Core) (inadd : list byte) (n : Z) : Prop :=
  match o, o' with
  | Some c, Some c' => core_move c c' inadd n
  | None, None => inadd = [] /\ n = 0
  | _, _ => False
  end.

Lemma core_move_refl c : 0 <= c_remaining c -> core_move c c [] 0.
Proof. intros H. unfold core_move. rewrite app_nil_r. unfold zlen; simpl. split_and!; (done || lia). Qed.

Lemma entry_move_refl o : (forall c, o = Some c -> 0 <= c_remaining c) -> entry_move o o [] 0.
Proof. destruct o; simpl; [|done]. intros H. by apply core_move_refl, H. Qed.

Lemma stream_dispatch_Ok t sid d :
  stream_dispatch t sid = Ok d -> heap t !! sid = Some d /\ sid ∈ streams t.
Proof.
  unfold stream_dispatch. intros H. repeat case_match; try done. inv_ok. by bool_props.
Qed.

Lemma queue_bytes_app q m : queue_bytes (q ++ [m]) = queue_bytes q ++ match m with InData b => b | _ => [] end.
Proof. unfold queue_bytes. rewrite fmap_app, concat_app. simpl. by rewrite app_nil_r. Qed.

Lemma try_send_Some cap d m d' : try_send cap d m = Some d' -> d' = set_inbound d (inbound d ++ [m]).
Proof. unfold try_send. case_match; [done|]. congruence. Qed.

Lemma credit_add_cases a n r c :
  0 <= n -> credit_add a n = (r, c) ->
  (r = Ok tt /\ c = a + n) \/ (is_ok r = false /\ c = a).
Proof.
  intros Hn. unfold credit_add, checked_add. repeat case_match; intros; simplify_eq/=; auto.
Qed.

Lemma parse_u32_range f n : parse_u32 f = Ok n -> 0 <= n <= u32_max.
Proof.
  unfold parse_u32. case_match; [|done]. bool_props. intros [= <-].
  pose proof (be_value_range (payload f)) as Hr. rewrite H in Hr. pow256. ulia.
Qed.

(** The frames the reader itself queues *)
Definition reply (g : Frame) : Prop := kind g <> Data /\ kind g <> Open.

(** The effect of [handle_frame] on the frame's own stream, on the others and
    on the command queue *)
Record frame_effect (s : ServerConfig) (t : TunnelSession) (f : Frame) (res : relay_result unit)
    (t' : TunnelSession) : Prop := {
  fe_other : forall sid, sid <> stream_id f ->
    core <$> heap t' !! sid = core <$> heap t !! sid;
  fe_own : entry_move (core <$> heap t !! stream_id f) (core <$> heap t' !! stream_id f)
    (if accepts s t f then payload f else []) (grants f res);
  fe_streams : streams t' ⊆ streams t;
  fe_commands : exists extra, commands t' = commands t ++ extra /\
    Forall (fun g => reply g /\ frame_fits s g) extra;
}.

Section Reader.
Context (s : ServerConfig) (Hs : server_ok s).

Lemma control_fits k sid c : is_u64 sid -> frame_fits s (frame_code k sid c).
Proof.
  intros H. split; [|done]. destruct Hs as [Hf _ _ _ _ _ _]. unfold MIN_FRAME_BYTES in Hf.
  assert (zlen (payload (frame_code k sid c)) <= 64) by (by destruct c; vm_compute). lia.
Qed.

Lemma u32_fits k sid n : is_u64 sid -> frame_fits s (frame_u32 k sid n).
Proof.
  intros H. split; [|done]. destruct Hs as [Hf _ _ _ _ _ _]. unfold MIN_FRAME_BYTES in Hf.
  simpl. rewrite zlen_be_bytes. lia.
Qed.

Context (t : TunnelSession) (f : Frame).
Hypothesis Hsid : is_u64 (stream_id f).
Hypothesis Hrem : forall d, heap t !! stream_id f = Some d -> 0 <= receive_remaining d.

(** A branch that changes nothing the streams see *)
Lemma effect_same res t' :
  same_core t t' -> commands t' = commands t -> streams t' ⊆ streams t ->
  accepts s t f = false -> grants f res = 0 -> frame_effect s t f res t'.
Proof.
  intros Hc Hcmd Hst Ha Hg. split; [intros; apply Hc| |done|].
  - rewrite Ha, Hg, (Hc (stream_id f)). apply entry_move_refl.
    intros c Hsome. destruct (heap t !! stream_id f) eqn:E; simplify_eq/=. by apply Hrem.
  - exists []. by rewrite app_nil_r.
Qed.

(** A branch that replaces the stream's dispatch *)
Lemma effect_update res d d' :
  heap t !! stream_id f = Some d ->
  core_move (core d) (core d') (if accepts s t f then payload f else []) (grants f res) ->
  frame_effect s t f res (update t (stream_id f) d').
Proof.
  intros Hd Hm. split; simpl; [|by rewrite Hd, lookup_insert_eq|done|exists []; by rewrite app_nil_r].
  intros sid Hne. by rewrite lookup_insert_ne.
Qed.

(** A branch that, after the change, cancels the stream or queues a control
    frame *)
Lemma effect_trans res t1 t2 extra :
  frame_effect s t f res t1 -> same_core t1 t2 -> streams t2 ⊆ streams t1 ->
  commands t2 = commands t1 ++ extra -> Forall (fun g => reply g /\ frame_fits s g) extra ->
  frame_effect s t f res t2.
Proof.
  intros [Ho Hw Hst (ex & Hc & Hex)] Hcore Hsub Hc2 Hex2. split.
  - intros sid Hne. by rewrite Hcore, Ho.
  - by rewrite (Hcore (stream_id f)).
  - set_solver.
  - exists (ex ++ extra). rewrite Hc2, Hc, app_assoc. split; [done|]. by apply Forall_app.
Qed.

(** A dispatch changed in nothing but its flags *)
Lemma effect_flags res d d' :
  heap t !! stream_id f = Some d -> core d' = core d -> accepts s t f = false ->
  grants f res = 0 -> frame_effect s t f res (update t (stream_id f) d').
Proof.
  intros Hd Hc Ha Hg. apply (effect_update _ d); [done|]. rewrite Ha, Hg, Hc.
  by apply core_move_refl, Hrem.
Qed.

(** A message without payload, queued *)
Lemma effect_message res d m :
  heap t !! stream_id f = Some d -> (forall b, m <> InData b) -> accepts s t f = false ->
  grants f res = 0 ->
  frame_effect s t f res (update t (stream_id f) (set_inbound d (inbound d ++ [m]))).
Proof.
  intros Hd Hm Ha Hg. apply (effect_update _ d); [done|]. rewrite Ha, Hg.
  unfold core_move; simpl. rewrite queue_bytes_app. destruct m; [by destruct (Hm bytes)|..];
    pose proof (Hrem d Hd); unfold zlen; simpl; split_and!; (done || lia).
Qed.

Lemma effect_remove res t1 :
  frame_effect s t f res t1 -> frame_effect s t f res (remove_stream t1 (stream_id f)).
Proof.
  intros H. apply (effect_trans res t1 _ []); [done|..|by constructor].
  - apply remove_stream_core.
  - apply remove_stream_streams.
  - by rewrite remove_stream_commands, app_nil_r.
Qed.

Lemma effect_send res t1 g o r t2 :
  frame_effect s t f res t1 -> reply g -> frame_fits s g -> send t1 g o = (r, t2) ->
  frame_effect s t f res t2.
Proof.
  intros He Hk Hg Hsend. apply send_cases in Hsend as [[_ ->]|[_ ->]]; [|done].
  by apply (effect_trans res t1 _ [g]); [..|by rewrite Forall_singleton].
Qed.

(** Reads the result and the tunnel of a branch that returns. *)
Ltac pair_eq := let H := fresh in intros H; injection H as <- <-.

Lemma handle_data_effect o now res t' :
  kind f = Data -> handle_frame s t f o now = (res, t') -> frame_effect s t f res t'.
Proof.
  intros Hk. unfold handle_frame. rewrite Hk.
  assert (forall r, grants f r = 0) as Hg by (intros; unfold grants; by rewrite Hk).
  destruct (stream_dispatch t (stream_id f)) as [d|e] eqn:Ed; rsimpl.
  2: { pair_eq. apply effect_same; try done. unfold accepts. by rewrite Ed, andb_false_r. }
  apply stream_dispatch_Ok in Ed as Hd. destruct Hd as [Hd _].
  destruct (debit_receive_window d (zlen (payload f))) as [d1|e] eqn:Eb.
  2: { pair_eq. apply effect_same; try done.
       unfold accepts. rewrite Ed. rsimpl. by rewrite Eb, andb_false_r. }
  pose proof Eb as Hb. unfold debit_receive_window, checked_sub in Hb.
  case_match eqn:Hle; [|done]. case_match; simplify_eq/=. bool_props.
  destruct (try_send _ _ _) as [d2|] eqn:Et.
  - pair_eq. apply (effect_update _ d); [done|].
    replace (accepts s t f) with true
      by (unfold accepts; rewrite Hk, Ed; rsimpl; by rewrite Eb, Et).
    apply try_send_Some in Et. subst. rewrite Hg. unfold core_move; simpl.
    rewrite queue_bytes_app. split_and!; (done || lia).
  - assert (accepts s t f = false) as Ha
      by (unfold accepts; rewrite Ed; rsimpl; by rewrite Eb, Et, andb_false_r).
    assert (frame_effect s t f res (update t (stream_id f)
      (set_remaining d (receive_remaining d - zlen (payload f))))) as He.
    { apply (effect_update _ d); [done|]. rewrite Ha, Hg. unfold core_move; simpl.
      rewrite app_nil_r. pose proof (zlen_nonneg (payload f)). change (zlen (@nil byte)) with 0.
      split_and!; (done || lia). }
    destruct (send _ _ _) as [r2 t2] eqn:Es. intros Hres.
    assert (frame_effect s t f res t2) as He2
      by (refine (effect_send _ _ _ _ _ _ He _ _ Es); [by split|by apply control_fits]).
    destruct r2; injection Hres as <- <-; [by apply effect_remove|done].
Qed.

Lemma handle_window_effect o now res t' :
  kind f = WindowUpdate -> handle_frame s t f o now = (res, t') -> frame_effect s t f res t'.
Proof.
  intros Hk. unfold handle_frame. rewrite Hk.
  assert (accepts s t f = false) as Ha by (unfold accepts; by rewrite Hk).
  destruct (stream_dispatch t (stream_id f)) as [d|e] eqn:Ed.
  2: { pair_eq. apply effect_same; try done. unfold grants. by rewrite Hk. }
  apply stream_dispatch_Ok in Ed as [Hd _].
  destruct (parse_u32 f) as [n|e] eqn:En.
  2: { pair_eq. apply effect_same; try done. unfold grants. by rewrite Hk. }
  pose proof (parse_u32_range _ _ En) as Hn.
  destruct (credit_add (send_credit d) n) as [r c] eqn:Ec. pair_eq.
  apply (effect_update _ d); [done|]. rewrite Ha. unfold grants. rewrite Hk, En.
  pose proof (Hrem d Hd). unfold core_move; simpl. rewrite app_nil_r. change (zlen (@nil byte)) with 0.
  apply credit_add_cases in Ec as [[-> ->]|[Hr ->]]; [split_and!; (done || lia)| |lia].
  destruct r; [done|]. split_and!; (done || lia).
Qed.

Lemma handle_frame_effect o now res t' :
  handle_frame s t f o now = (res, t') -> frame_effect s t f res t'.
Proof.
  destruct (decide (kind f = Data)) as [Hk|Hnd]; [by apply handle_data_effect|].
  destruct (decide (kind f = WindowUpdate)) as [Hk|Hnw]; [by apply handle_window_effect|].
  assert (accepts s t f = false) as Ha by (unfold accepts; by rewrite bool_decide_eq_false_2).
  assert (forall r, grants f r = 0) as Hg by (intros r; unfold grants; by destruct (kind f)).
  assert (forall res, frame_effect s t f res t) as Hsame by (intros; by apply effect_same).
  unfold handle_frame. destruct (kind f) eqn:Hk; try done.
  1-3,4: by pair_eq.
  - destruct (parse_u32 f) as [n|]; rsimpl; [|by pair_eq].
    destruct (stream_dispatch t (stream_id f)) as [d|] eqn:Ed; rsimpl; [|by pair_eq].
    apply stream_dispatch_Ok in Ed as [Hd _]. case_match; pair_eq; [|done].
    by apply (effect_flags _ d).
  - destruct (stream_dispatch t (stream_id f)) as [d|] eqn:Ed; [|by pair_eq].
    apply stream_dispatch_Ok in Ed as [Hd _]. case_match; pair_eq; [|done].
    by apply (effect_flags _ d).
  - destruct (stream_dispatch t (stream_id f)) as [d|] eqn:Ed; [|by pair_eq].
    apply stream_dispatch_Ok in Ed as [Hd _].
    destruct (try_send _ _ _) eqn:Et; pair_eq; [|by apply effect_remove].
    apply try_send_Some in Et as ->. by apply effect_message.
  - pair_eq. apply effect_remove.
    destruct (stream_dispatch t (stream_id f)) as [d|] eqn:Ed; [|done].
    apply stream_dispatch_Ok in Ed as [Hd _]. destruct (try_send _ _ _) eqn:Et; [|done].
    apply try_send_Some in Et as ->. by apply effect_message.
  - case_match; [by pair_eq|]. bool_props. intros Hsend.
    refine (effect_send _ _ _ _ _ _ (Hsame res) _ _ Hsend); [by split|]. split; [|done]. simpl.
    destruct Hs as [Hf _ _ _ _ _ _]. unfold MIN_FRAME_BYTES in Hf. lia.
  - case_match; pair_eq; [done|]. by apply effect_same.
Qed.
End Reader.

(** ** Preservation *)

Section Preservation.
Context (s : ServerConfig) (r : RouteConfig).
Hypothesis Hs : server_ok s.
Hypothesis Hw : initial_window_bytes s <= u32_max.

Lemma view_inv_move v v' inadd n :
  entry_move (v_core v) (v_core v') inadd n -> v_member v' = v_member v ->
  v_in v' = v_in v ++ inadd -> v_out v' = v_out v -> v_credit v' = v_credit v + n ->
  view_inv s r v -> view_inv s r v'.
Proof.
  destruct v as [c m i o k], v' as [c' m' i' o' k']; simpl. intros Hm -> -> -> ->.
  unfold view_inv; simpl. destruct c as [c|], c' as [c'|]; simpl in Hm; try done.
  2: { destruct Hm as [-> ->]. rewrite app_nil_r. intros (? & ? & ? & ?). split_and!; (done || lia). }
  destruct Hm as (Hq & Hc & Hn & H0 & Hr). intros (Hr0 & Hc0 & Hinv).
  split; [done|]. split; [lia|]. destruct m as [m|].
  - destruct Hinv as [I1 I2 I3 I4 I5 I6 I7 I8]. constructor; try done.
    + rewrite Hq, zlen_app. lia.
    + destruct (down m); try by apply prefix_app_r.
      all: by rewrite I2, Hq, <- !app_assoc.
    + lia.
  - destruct Hinv as (I1 & I2 & I3 & I4). rewrite Hq, I2, zlen_app. split_and!; (done || lia).
Qed.

(** The initial link *)
Lemma fresh_link_inv id c now :
  Z.odd c = true -> 1 <= c <= u64_max -> link_inv s r (fresh_link s id c now).
Proof.
  intros Ho Hc. split; simpl.
  - done.
  - intros sid H. by apply lookup_empty_is_Some in H.
  - done.
  - intros sid H. set_solver.
  - intros sid H. set_solver.
  - rewrite Forall_singleton. apply u32_fits; [done|]. ulia.
Qed.

(** A change that no stream sees *)
Lemma link_inv_same l t' sequence' closed' extra :
  link_inv s r l -> same_core (tunnel l) t' -> streams t' ⊆ streams (tunnel l) ->
  commands t' = commands (tunnel l) ++ extra -> (forall sid, data_on sid extra = []) ->
  Forall (frame_fits s) extra ->
  link_inv s r (mkLink t' (opening l) (members l) (counter l) sequence' (inlog l) (credit l) closed').
Proof.
  intros [Iv Ii Ic It Io If] Hc Hst Hcmd Hd Hfit. split; simpl.
  - intros sid. unfold view; simpl. rewrite (Hc sid), Hcmd, data_on_app, Hd, app_nil_r. apply Iv.
  - intros sid Hsid. by apply Ii, (core_is_Some _ _ _ Hc).
  - done.
  - intros sid Hsid. apply (core_is_Some _ _ _ Hc), It. set_solver.
  - intros sid Hsid. destruct (Io sid Hsid). split; [by apply (core_is_Some _ _ _ Hc)|done].
  - rewrite Hcmd. by apply Forall_app.
Qed.

Lemma link_inv_end l t' res :
  link_inv s r (with_tunnel l t') -> link_inv s r (end_reader l t' res).
Proof.
  intros H. apply (link_inv_same (with_tunnel l t') (finish_tunnel t') (ping_sequence l) (Some res) []);
    [done|apply finish_tunnel_core|apply empty_subseteq| |done|done].
  simpl. by rewrite app_nil_r.
Qed.

Lemma frame_step_inv l f o now :
  link_inv s r l -> is_u64 (stream_id f) -> link_inv s r (frame_step s l f o now).
Proof.
  intros [Iv Ii Ic It Io If] Hsid. unfold frame_step.
  destruct (handle_frame s (tunnel l) f o now) as [res t'] eqn:E.
  apply handle_frame_effect in E as [Ho Hown Hst (extra & Hcmd & Hex)]; [|done|done|].
  2: { intros d Hd. specialize (Iv (stream_id f)). unfold view_inv, view in Iv; simpl in Iv.
       rewrite Hd in Iv. simpl in Iv. by destruct Iv as [? _]. }
  set (l' := mkLink t' _ _ _ _ _ _ (closed l)).
  assert (forall sid, is_Some (heap t' !! sid) <-> is_Some (heap (tunnel l) !! sid)) as Hdom.
  { intros sid. rewrite <- (fmap_is_Some core), <- (fmap_is_Some core (heap (tunnel l) !! sid)).
    destruct (decide (sid = stream_id f)) as [->|Hne]; [|by rewrite Ho].
    destruct (core <$> heap (tunnel l) !! stream_id f), (core <$> heap t' !! stream_id f);
      simpl in Hown; naive_solver. }
  assert (forall sid, data_on sid extra = []) as Hdata.
  { intros sid. clear Hcmd. induction Hex as [|g extra [[Hk _] _] _ IH]; [done|].
    change (g :: extra) with ([g] ++ extra). by rewrite data_on_app, IH, data_on_control. }
  assert (link_inv s r l') as Hl'.
  { split; simpl; try done.
    - intros sid. destruct (decide (sid = stream_id f)) as [->|Hne].
      + eapply (view_inv_move (view l (stream_id f))); [exact Hown| | | | |apply Iv]; simpl; try done.
        * unfold inlog_of, l'; simpl. destruct (accepts s (tunnel l) f);
            [by rewrite lookup_insert_eq|by rewrite app_nil_r].
        * by rewrite Hcmd, data_on_app, Hdata, app_nil_r.
        * unfold credit_of, l'; simpl. by rewrite lookup_insert_eq.
      + unfold view; simpl. rewrite (Ho sid Hne), Hcmd, data_on_app, Hdata, app_nil_r.
        unfold inlog_of, credit_of; simpl. rewrite lookup_insert_ne by done.
        destruct (accepts s (tunnel l) f); rewrite ?lookup_insert_ne by done; apply Iv.
    - intros sid Hd. by apply Ii, Hdom.
    - intros sid Hd. apply Hdom, It. set_solver.
    - intros sid Hd. rewrite Hdom. by apply Io.
    - rewrite Hcmd. apply Forall_app. split; [done|]. eapply Forall_impl; [exact Hex|]. naive_solver. }
  destruct res; [done|]. by apply link_inv_end.
Qed.

(** ** Member streams *)

(** A step of one stream's tasks: only its own view changes. *)
Lemma link_inv_member l sid t' m' extra :
  link_inv s r l -> is_Some (members l !! sid) ->
  (forall sid', sid' <> sid -> core <$> heap t' !! sid' = core <$> heap (tunnel l) !! sid') ->
  is_Some (heap t' !! sid) -> is_Some (heap (tunnel l) !! sid) ->
  streams t' ⊆ streams (tunnel l) -> commands t' = commands (tunnel l) ++ extra ->
  (forall sid', sid' <> sid -> data_on sid' extra = []) -> Forall (frame_fits s) extra ->
  view_inv s r (view (with_member l sid (t', m')) sid) ->
  link_inv s r (with_member l sid (t', m')).
Proof.
  intros [Iv Ii Ic It Io If] Hm Ho Hd' Hd Hst Hcmd Hdata Hfit Hown.
  assert (forall sid', is_Some (heap t' !! sid') <-> is_Some (heap (tunnel l) !! sid')) as Hdom.
  { intros sid'. destruct (decide (sid' = sid)) as [->|Hne]; [done|].
    by rewrite <- (fmap_is_Some core), Ho, fmap_is_Some. }
  split; simpl; try done.
  - intros sid'. destruct (decide (sid' = sid)) as [->|Hne]; [done|]. unfold view; simpl.
    rewrite (Ho _ Hne), lookup_insert_ne, Hcmd, data_on_app, (Hdata _ Hne), app_nil_r by done.
    apply Iv.
  - intros sid' Hs'. by apply Ii, Hdom.
  - intros sid' Hs'. apply Hdom, It. set_solver.
  - intros sid' Hs'. destruct (Io _ Hs') as [? Hnone]. rewrite Hdom. split; [done|].
    rewrite lookup_insert_ne; [done|]. intros ->. destruct Hm; congruence.
  - rewrite Hcmd. by apply Forall_app.
Qed.

(** The view of a running stream, taken apart *)
Lemma running_view l sid m d :
  link_inv s r l -> running l sid = Some (m, d) ->
  members l !! sid = Some m /\ heap (tunnel l) !! sid = Some d /\
  Z.odd sid = true /\ is_u64 sid /\
  0 <= receive_remaining d /\ 0 <= send_credit d /\
  member_inv s r (core d) m (inlog_of l sid) (data_on sid (commands (tunnel l))) (credit_of l sid).
Proof.
  intros [Iv Ii Ic It Io If]. unfold running.
  destruct (members l !! sid) as [m'|] eqn:Em; [|done]. simpl.
  destruct (heap (tunnel l) !! sid) as [d'|] eqn:Ed; [|done]. simpl.
  destruct (ended m'); [done|]. intros [= -> ->].
  specialize (Iv sid). unfold view_inv, view in Iv; simpl in Iv. rewrite Ed, Em in Iv. simpl in Iv.
  destruct (Ii sid) as [Ho Hb]; [by eexists|]. destruct Iv as (? & ? & ?).
  split_and!; try done; ulia.
Qed.

(** The step of a stream that leaves the tunnel alone *)
Lemma link_inv_local l sid m d m' :
  link_inv s r l -> running l sid = Some (m, d) ->
  member_inv s r (core d) m' (inlog_of l sid) (data_on sid (commands (tunnel l))) (credit_of l sid) ->
  link_inv s r (with_member l sid (tunnel l, m')).
Proof.
  intros Hl Hr Hm'. destruct (running_view _ _ _ _ Hl Hr) as (Em & Ed & _ & _ & H0 & H1 & _).
  apply (link_inv_member l sid (tunnel l) m' []); try done.
  - by rewrite app_nil_r.
  - unfold view, view_inv; simpl. rewrite Ed, lookup_insert_eq. simpl. done.
Qed.

(** The step of a stream that changes its dispatch *)
Lemma link_inv_update l sid m d m' d' :
  link_inv s r l -> running l sid = Some (m, d) ->
  0 <= receive_remaining d' -> 0 <= send_credit d' ->
  member_inv s r (core d') m' (inlog_of l sid) (data_on sid (commands (tunnel l))) (credit_of l sid) ->
  link_inv s r (with_member l sid (update (tunnel l) sid d', m')).
Proof.
  intros Hl Hr H0 H1 Hm'. destruct (running_view _ _ _ _ Hl Hr) as (Em & Ed & _).
  apply (link_inv_member l sid _ m' []); simpl; try done.
  - intros sid' Hne. by rewrite lookup_insert_ne.
  - rewrite lookup_insert_eq. by eexists.
  - by rewrite app_nil_r.
  - unfold view, view_inv; simpl. rewrite !lookup_insert_eq. simpl. done.
Qed.

(** The step of a stream that queues one frame of its own *)
Lemma link_inv_push l sid m d m' f :
  link_inv s r l -> running l sid = Some (m, d) -> frame_fits s f ->
  (kind f = Data -> stream_id f = sid) ->
  member_inv s r (core d) m' (inlog_of l sid) (data_on sid (commands (tunnel l)) ++ data_on sid [f])
    (credit_of l sid) ->
  link_inv s r (with_member l sid (push (tunnel l) f, m')).
Proof.
  intros Hl Hr Hf Hk Hm'. destruct (running_view _ _ _ _ Hl Hr) as (Em & Ed & _ & _ & H0 & H1 & _).
  apply (link_inv_member l sid _ m' [f]); simpl; try done.
  - intros sid' Hne. unfold data_on; simpl. case_bool_decide as Hd; [|done].
    rewrite (Hk Hd). simpl. by rewrite (proj2 (Z.eqb_neq sid sid')).
  - by apply Forall_singleton.
  - unfold view, view_inv; simpl. rewrite Ed, lookup_insert_eq. simpl. rewrite data_on_app. done.
Qed.

Lemma zlen_first_bytes g data : 0 <= g <= zlen data -> zlen (first_bytes g data) = g.
Proof. unfold first_bytes, zlen. rewrite length_take. lia. Qed.

Lemma first_bytes_drop g data : first_bytes g data ++ drop (Z.to_nat g) data = data.
Proof. apply take_drop. Qed.

Lemma first_bytes_all g data : zlen data <= g -> first_bytes g data = data.
Proof. unfold first_bytes, zlen. intros H. apply take_ge. lia. Qed.

Lemma account_Ok max cur amount next :
  account_connection_bytes max cur amount = Ok next -> next = cur + amount /\ next <= max.
Proof.
  unfold account_connection_bytes, checked_add. repeat case_match; intros; simplify_eq.
  bool_props. lia.
Qed.

Lemma data_on_data sid p : data_on sid [mkFrame Data sid p] = p.
Proof. unfold data_on; simpl. by rewrite Z.eqb_refl, app_nil_r. Qed.

Lemma reserve_answer_range q requested granted :
  0 <= requested -> reserve_answer q requested (Ok granted) = true -> 0 <= granted <= requested.
Proof. unfold reserve_answer. destruct q; intros; bool_props; lia. Qed.

(** Ends an upload, or a download, with the logs as they are. *)
Lemma up_done_inv c m inl out granted res :
  member_inv s r c m inl out granted ->
  member_inv s r c (with_up m (UpDone res)) inl out granted.
Proof.
  intros [I1 I2 I3 I4 I5 I6 I7 I8]. constructor; simpl; try done.
  - destruct (up m); try done; rewrite I3; by apply prefix_app_r.
  - destruct I7 as [_ I7]. destruct (up m); simpl in *; lia.
  - pose proof (zlen_nonneg (up_pending (up m))). unfold zlen at 2; simpl. lia.
  - split; [|done]. destruct Hs as [Hf _ _ _ _ _ _]. unfold MIN_FRAME_BYTES in Hf.
    unfold zlen; simpl. lia.
Qed.

Lemma down_done_inv c m inl out granted res :
  member_inv s r c m inl out granted ->
  member_inv s r c (with_down m (DnDone res)) inl out granted.
Proof.
  intros [I1 I2 I3 I4 I5 I6 I7 I8]. constructor; simpl; try done.
  - assert (0 <= in_hand (down m)) by (destruct (down m); simpl; try lia; apply zlen_nonneg). lia.
  - destruct (down m); try done; rewrite I2; by apply prefix_app_r.
  - pose proof (zlen_nonneg (down_pending (down m))). unfold zlen at 4; simpl. lia.
Qed.

(** A step of the upload, and one of the download, leave the other side's
    part of the invariant alone. *)
Lemma up_change c c' m m' inl out out' granted :
  member_inv s r c m inl out granted ->
  c_remaining c' = c_remaining c -> c_inbound c' = c_inbound c ->
  down m' = down m -> written m' = written m ->
  match up m' with UpDone _ => sent m' `prefix_of` taken m' | u => taken m' = sent m' ++ up_pending u end ->
  out' = sent m' -> zlen (sent m') + up_credit (up m') + c_credit c' <= granted ->
  zlen (sent m') + zlen (up_pending (up m')) + zlen (written m) + zlen (down_pending (down m))
    <= connection_bytes m' <= rc_max_bytes_per_connection r ->
  up_ok (max_frame_bytes s) (up m') -> member_inv s r c' m' inl out' granted.
Proof.
  intros [I1 I2 I3 I4 I5 I6 I7 I8] Hr Hq Hd Hwr ?????. constructor; rewrite ?Hr, ?Hq, ?Hd, ?Hwr; done.
Qed.

Lemma down_change c c' m m' inl out granted :
  member_inv s r c m inl out granted -> c_credit c' = c_credit c ->
  up m' = up m -> sent m' = sent m -> taken m' = taken m ->
  c_remaining c' + zlen (queue_bytes (c_inbound c')) + in_hand (down m') <= initial_window_bytes s ->
  match down m' with
  | DnDone _ => written m' `prefix_of` inl
  | dn => inl = written m' ++ down_pending dn ++ queue_bytes (c_inbound c')
  end ->
  zlen (sent m) + zlen (up_pending (up m)) + zlen (written m') + zlen (down_pending (down m'))
    <= connection_bytes m' <= rc_max_bytes_per_connection r ->
  down_ok (down m') -> member_inv s r c' m' inl out granted.
Proof.
  intros [I1 I2 I3 I4 I5 I6 I7 I8] Hc Hu Hsn Ht ????. constructor; rewrite ?Hc, ?Hu, ?Hsn, ?Ht; done.
Qed.

(** The upload's part of the invariant, at the point [u] *)
Lemma up_parts c m inl out granted u :
  member_inv s r c m inl out granted -> up m = u ->
  match u with UpDone _ => sent m `prefix_of` taken m | _ => taken m = sent m ++ up_pending u end /\
  out = sent m /\ zlen (sent m) + up_credit u + c_credit c <= granted /\
  zlen (sent m) + zlen (up_pending u) + zlen (written m) + zlen (down_pending (down m))
    <= connection_bytes m <= rc_max_bytes_per_connection r /\ up_ok (max_frame_bytes s) u.
Proof.
  intros [I1 I2 I3 I4 I5 I6 I7 I8] <-. refine (conj _ (conj I4 (conj I5 (conj I6 I7)))).
  by destruct (up m).
Qed.

Lemma down_parts c m inl out granted d :
  member_inv s r c m inl out granted -> down m = d ->
  c_remaining c + zlen (queue_bytes (c_inbound c)) + in_hand d <= initial_window_bytes s /\
  match d with
  | DnDone _ => written m `prefix_of` inl
  | _ => inl = written m ++ down_pending d ++ queue_bytes (c_inbound c)
  end /\
  zlen (sent m) + zlen (up_pending (up m)) + zlen (written m) + zlen (down_pending d)
    <= connection_bytes m <= rc_max_bytes_per_connection r /\ down_ok d.
Proof.
  intros [I1 I2 I3 I4 I5 I6 I7 I8] <-. refine (conj I1 (conj _ (conj I6 I8))).
  by destruct (down m).
Qed.

Ltac up_goal d m Hm := eapply (up_change (core d) _ m); [exact Hm|..]; simpl; try done.

Lemma upload_step_inv l sid m d e t' m' :
  link_inv s r l -> running l sid = Some (m, d) -> up_answer s r m e = true ->
  upload_step r sid (tunnel l) d m e = Some (t', m') -> link_inv s r (with_member l sid (t', m')).
Proof.
  intros Hl Hr Ha Hstep.
  destruct (running_view _ _ _ _ Hl Hr) as (Em & Ed & Hodd & Hu & H0 & H1 & Hm).
  assert (forall res, link_inv s r (with_member l sid (tunnel l, with_up m (UpDone res)))) as Hdone
    by (intros; by eapply link_inv_local, up_done_inv).
  destruct (up_parts _ _ _ _ _ _ Hm eq_refl) as (P1 & P2 & P3 & P4 & P5 & P6).
  unfold upload_step, up_answer in *.
  destruct (up m) as [|data|data g|data g|data g| |res] eqn:Eu,
    e as [| [[|b data']|err] | [g'|err] | [u|err] | | |o now]; simplify_eq; try apply Hdone;
    cbn [up_pending up_credit] in *.
  - case_match; simplify_eq. apply Hdone.
  - eapply link_inv_local; [done..|]. up_goal d m Hm.
  - set (data := b :: data') in *. pose proof (zlen_nonneg data).
    rewrite app_nil_r in P1. change (zlen (@nil byte)) with 0 in *.
    destruct (account_connection_bytes _ _ _) as [next|] eqn:Ea; simplify_eq.
    + apply account_Ok in Ea as [-> Hmax]. simpl in Hmax. bool_props.
      eapply link_inv_local; [done..|]. up_goal d m Hm.
      * by rewrite P1.
      * lia.
    + eapply link_inv_local; [done..|]. up_goal d m Hm.
      rewrite P1. by apply prefix_app_r.
  - pose proof (reserve_answer_range _ _ _ (zlen_nonneg data) Ha).
    destruct (Z.eqb_spec g' 0); simplify_eq; [apply Hdone|].
    eapply link_inv_local; [done..|]. up_goal d m Hm.
    split; [done|lia].
  - eapply link_inv_local; [done..|]. by up_goal d m Hm.
  - unfold credit_try in Hstep. destruct (Z.leb_spec g (send_credit d)); simplify_eq.
    apply (link_inv_update l sid m d); simpl; try done; [lia|].
    up_goal d m Hm. simpl in P3. lia.
  - case_match; simplify_eq. apply Hdone.
  - destruct (send _ _ _) as [res2 t2] eqn:Es.
    apply send_cases in Es as [[-> ->]|[Hf ->]]; [|destruct res2; [done|]; simplify_eq; apply Hdone].
    assert (frame_fits s (mkFrame Data sid (first_bytes g data))) as Hfit
      by (split; [simpl; rewrite zlen_first_bytes by lia; lia|done]).
    set (m2 := log_sent m _ _) in *.
    assert (forall u, (u = UpRead /\ zlen data <= g) \/ (exists res, u = UpDone res) ->
      link_inv s r (with_member l sid (push (tunnel l) (mkFrame Data sid (first_bytes g data)),
        with_up m2 u))) as Hu2.
    { intros u Hcase. apply (link_inv_push l sid m d); [done..|]. rewrite data_on_data, P2.
      up_goal d m Hm.
      - destruct Hcase as [[-> Hg]|[res ->]]; simpl.
        + by rewrite P1, first_bytes_all, app_nil_r.
        + rewrite P1. apply prefix_app. eexists. symmetry. apply first_bytes_drop.
      - rewrite zlen_app, zlen_first_bytes by lia. simpl in P3.
        destruct Hcase as [[-> Hg]|[res ->]]; simpl; lia.
      - rewrite zlen_app, zlen_first_bytes by lia. simpl in *.
        destruct Hcase as [[-> Hg]|[res ->]]; simpl; change (zlen (@nil byte)) with 0; lia.
      - pose proof (zlen_nonneg data).
        destruct Hcase as [[-> Hg]|[res ->]]; (split; [|done]); simpl;
          change (zlen (@nil byte)) with 0; lia. }
    destruct (Z.ltb_spec g (zlen data)); simplify_eq; apply Hu2; eauto.
  - destruct (send _ _ _) as [res2 t2] eqn:Es. simplify_eq.
    apply send_cases in Es as [[-> ->]|[Hf ->]]; [|apply Hdone].
    apply (link_inv_push l sid m d); [done..| | |].
    + split; [|done]. simpl. change (zlen (@nil byte)) with 0 in *. lia.
    + done.
    + rewrite data_on_control, app_nil_r by done. by apply up_done_inv.
Qed.

Ltac down_goal d m Hm := eapply (down_change (core d) _ m); [exact Hm|..]; simpl; try done.

(** The end of a download closes the channel, which no other part sees. *)
Lemma finish_download_inv l sid t' m' d res :
  heap t' !! sid = Some d -> link_inv s r (with_member l sid (t', with_down m' (DnDone res))) ->
  link_inv s r (with_member l sid (finish_download t' sid d m' res)).
Proof.
  intros Hd Hl. set (l' := with_member l sid (t', with_down m' (DnDone res))) in *.
  apply (link_inv_same l' _ (ping_sequence l') (closed l') []); try done.
  - intros sid'. simpl. destruct (decide (sid' = sid)) as [->|Hne];
      [by rewrite lookup_insert_eq, Hd|by rewrite lookup_insert_ne].
  - simpl. by rewrite app_nil_r.
Qed.

(** Taking one message off the inbound queue *)
Lemma receive_inv l sid m d e tm :
  link_inv s r l -> running l sid = Some (m, d) -> down m = DnRecv -> e = DeReceive ->
  download_step r sid (tunnel l) d m e = Some tm -> link_inv s r (with_member l sid tm).
Proof.
  intros Hl Hr Ed' -> Hstep.
  destruct (running_view _ _ _ _ Hl Hr) as (Em & Ed & Hodd & Hu & H0 & H1 & Hm).
  destruct (down_parts _ _ _ _ _ _ Hm Ed') as (P1 & P2 & P3 & P4). simpl in P1, P2.
  unfold download_step in Hstep. rewrite Ed' in Hstep.
  destruct (inbound d) as [|i q] eqn:Eq; [done|].
  assert (queue_bytes (i :: q) = match i with InData b => b | _ => [] end ++ queue_bytes q) as Hq
    by done.
  rewrite Hq in P1, P2. rewrite zlen_app in P1.
  assert (forall res, link_inv s r (with_member l sid
    (finish_download (tunnel l) sid (set_inbound d q) m res))) as Hfin.
  { intros res. apply (link_inv_update l sid m d); [done..|]. down_goal d m Hm.
    - assert (0 <= zlen (match i with InData b => b | _ => [] end)) by apply zlen_nonneg. lia.
    - rewrite P2. by apply prefix_app_r. }
  destruct i as [data| |]; simplify_eq.
  - pose proof (zlen_nonneg data). change (down_pending DnRecv) with (@nil byte) in P3.
    change (zlen (@nil byte)) with 0 in P3.
    destruct (account_connection_bytes _ _ _) as [next|] eqn:Ea; simplify_eq; [|apply Hfin].
    apply account_Ok in Ea as [-> Hmax].
    apply (link_inv_update l sid m d); [done..|]. down_goal d m Hm; lia.
  - apply (link_inv_update l sid m d); [done..|]. by down_goal d m Hm.
  - apply Hfin.
Qed.

Lemma download_step_inv l sid m d e tm :
  link_inv s r l -> running l sid = Some (m, d) -> down_answer r m e = true ->
  download_step r sid (tunnel l) d m e = Some tm -> link_inv s r (with_member l sid tm).
Proof.
  intros Hl Hr Ha Hstep.
  destruct (running_view _ _ _ _ Hl Hr) as (Em & Ed & Hodd & Hu & H0 & H1 & Hm).
  assert (forall res, link_inv s r (with_member l sid (finish_download (tunnel l) sid d m res))) as Hdone
    by (intros; apply finish_download_inv; [done|]; by eapply link_inv_local, down_done_inv).
  destruct (down_parts _ _ _ _ _ _ Hm eq_refl) as (P1 & P2 & P3 & P4).
  pose proof (fun E1 E2 => receive_inv l sid m d e tm Hl Hr E1 E2 Hstep) as Hrecv.
  unfold download_step, down_answer in *.
  destruct (down m) as [|data|data g|data g|data g| |res] eqn:Edn,
    e as [| | [g'|err] | [u|err] | [u|err] |o now|res2]; simplify_eq; try apply Hdone;
    try (by apply Hrecv); clear Hrecv; cbn [down_pending in_hand down_ok] in *; simpl in P1, P2.
  - case_match; simplify_eq. apply Hdone.
  - pose proof (reserve_answer_range _ _ _ (zlen_nonneg data) Ha).
    destruct (Z.eqb_spec g' 0); simplify_eq; [apply Hdone|].
    eapply link_inv_local; [done..|]. down_goal d m Hm. lia.
  - eapply link_inv_local; [done..|]. by down_goal d m Hm.
  - assert (0 <= zlen (queue_bytes (inbound d))) by apply zlen_nonneg.
    unfold try_from in Hstep.
    rewrite (proj2 (Z.leb_le 0 g)), (proj2 (Z.leb_le g u32_max)) in Hstep by lia. simplify_eq/=.
    unfold wrapping_add. rewrite Z.mod_small by ulia.
    apply (link_inv_update l sid m d); simpl; try done; [lia|].
    down_goal d m Hm.
    + lia.
    + by rewrite P2, <- !app_assoc, (app_assoc (first_bytes g data)), first_bytes_drop.
    + rewrite zlen_app, zlen_first_bytes by lia.
      assert (zlen (drop (Z.to_nat g) data) = zlen data - g)
        by (unfold zlen in *; rewrite length_drop; lia). lia.
  - destruct (send _ _ _) as [res2 t2] eqn:Es.
    apply send_cases in Es as [[-> ->]|[Hf ->]]; [|destruct res2; [done|]; simplify_eq; apply Hdone].
    assert (frame_fits s (frame_u32 WindowUpdate sid g)) as Hfit by (by apply u32_fits).
    pose proof (zlen_nonneg (drop (Z.to_nat g) data)).
    destruct (Z.ltb_spec g (zlen data)); simplify_eq; [apply finish_download_inv; [done|]|];
      (apply (link_inv_push l sid m d); [done..|]);
      rewrite data_on_control, app_nil_r by done; down_goal d m Hm.
    + rewrite P2. by apply prefix_app_r.
    + change (zlen (@nil byte)) with 0. lia.
    + rewrite P2, drop_ge; [done|]. unfold zlen in *. lia.
    + change (zlen (@nil byte)) with 0. lia.
Qed.

(** ** The end of a stream *)

Lemma finish_member_facts t sid res o :
  same_core t (finish_member t sid res o) /\ streams (finish_member t sid res o) ⊆ streams t /\
  exists extra, commands (finish_member t sid res o) = commands t ++ extra /\
    (extra = [] \/ extra = [frame_code Close sid (result_code res)]).
Proof.
  unfold finish_member. set (t1 := with_heap t _).
  assert (same_core t t1) as H1 by (intros sid'; by apply alter_core).
  assert (same_core t (remove_stream t1 sid)) as H2
    by (intros sid'; by rewrite (remove_stream_core t1 sid sid'), H1).
  pose proof (remove_stream_streams t1 sid) as H3.
  destruct (send _ _ _) as [x t2] eqn:Es.
  apply send_cases in Es as [[_ ->]|[_ ->]]; simpl; (split; [done|]); (split; [done|]);
    rewrite remove_stream_commands; [by eexists; eauto|].
  exists []. rewrite app_nil_r. auto.
Qed.

Lemma end_step_inv l sid m d res o :
  link_inv s r l -> running l sid = Some (m, d) ->
  link_inv s r (with_member l sid (finish_member (tunnel l) sid res o, end_member m res)).
Proof.
  intros Hl Hr. destruct (running_view _ _ _ _ Hl Hr) as (Em & Ed & _ & Hu & H0 & H1 & Hm).
  destruct (finish_member_facts (tunnel l) sid res o) as (Hc & Hst & extra & Hcmd & Hex).
  assert (forall sid', data_on sid' extra = []) as Hdata
    by (intros; destruct Hex as [->| ->]; [done|by rewrite data_on_control]).
  apply (link_inv_member l sid _ _ extra); try done.
  - by apply (core_is_Some _ _ _ Hc).
  - destruct Hex as [->| ->]; [done|]. apply Forall_singleton. by apply control_fits.
  - unfold view; simpl. rewrite (Hc sid), Ed, lookup_insert_eq, Hcmd, data_on_app, Hdata, app_nil_r.
    split; [done|]. split; [done|]. simpl. by destruct Hm; constructor.
Qed.

(** ** Opening *)

Lemma link_frame_bounds : 0 <= max_frame_bytes s /\ 0 <= initial_window_bytes s.
Proof. destruct Hs as [Hf _ [_ Hi] _ _ _ _]. unfold MIN_FRAME_BYTES in Hf. lia. Qed.

(** A stream that enters the table under an unused identifier *)
Lemma insert_stream_inv l opening' t' extra :
  link_inv s r l -> counter l + 2 <= u64_max ->
  same_core (with_heap (tunnel l)
    (<[counter l := new_dispatch (initial_window_bytes s)]> (heap (tunnel l)))) t' ->
  streams t' ⊆ {[counter l]} ∪ streams (tunnel l) -> commands t' = commands (tunnel l) ++ extra ->
  (forall sid, data_on sid extra = []) -> Forall (frame_fits s) extra ->
  opening' ⊆ {[counter l]} ∪ opening l ->
  link_inv s r (mkLink t' opening' (members l) (counter l + 2) (ping_sequence l) (inlog l) (credit l)
                  (closed l)).
Proof.
  intros [Iv Ii [Ico Icb] It Io If] Hc Hcore Hst Hcmd Hdata Hfit Hop.
  pose proof (Iv (counter l)) as Hfresh. unfold view_inv, view in Hfresh; simpl in Hfresh.
  destruct (heap (tunnel l) !! counter l) eqn:En.
  { destruct (Ii (counter l)); [by eexists|lia]. }
  simpl in Hfresh. destruct Hfresh as (Fm & Fi & Fo & Fc).
  assert (forall sid, sid <> counter l -> core <$> heap t' !! sid = core <$> heap (tunnel l) !! sid)
    as Hother by (intros; rewrite (Hcore sid); simpl; by rewrite lookup_insert_ne).
  assert (core <$> heap t' !! counter l = Some (core (new_dispatch (initial_window_bytes s)))) as Hown
    by (rewrite (Hcore _); simpl; by rewrite lookup_insert_eq).
  assert (forall sid, sid <> counter l -> is_Some (heap t' !! sid) <-> is_Some (heap (tunnel l) !! sid))
    as Hdom by (intros; by rewrite <- (fmap_is_Some core), Hother, fmap_is_Some).
  assert (is_Some (heap t' !! counter l)) as Hnew
    by (rewrite <- (fmap_is_Some core), Hown; by eexists).
  split; simpl.
  - intros sid. unfold view; simpl. rewrite Hcmd, data_on_app, Hdata, app_nil_r.
    destruct (decide (sid = counter l)) as [->|Hne]; [|rewrite Hother by done; apply Iv].
    rewrite Hown, Fm, Fo. unfold view_inv; simpl. unfold inlog_of, credit_of in *; simpl.
    rewrite Fi, Fc. pose proof link_frame_bounds. unfold zlen; simpl. split_and!; (done || lia).
  - intros sid Hsid. destruct (decide (sid = counter l)) as [->|Hne]; [split; [done|lia]|].
    destruct (Ii sid); [by apply Hdom|]. split; [done|lia].
  - split; [|lia]. by rewrite Z.odd_add, Ico.
  - intros sid Hsid. destruct (decide (sid = counter l)) as [->|Hne]; [done|].
    apply Hdom, It; [done|set_solver].
  - intros sid Hsid. destruct (decide (sid = counter l)) as [->|Hne]; [done|].
    rewrite Hdom by done. apply Io. set_solver.
  - rewrite Hcmd. by apply Forall_app.
Qed.

Lemma open_step_inv l o :
  link_inv s r l -> counter l + 2 <= u64_max -> link_inv s r (open_step s l o).
Proof.
  intros Hl Hc. pose proof (li_counter _ _ _ Hl) as [Ico Icb].
  unfold open_step, open_stream, next_stream_id, wrapping_add. rewrite Z.mod_small by ulia.
  rewrite (proj2 (Z.eqb_neq (counter l) 0)), <- Z.negb_odd, Ico by lia. simpl.
  set (t1 := with_heap _ _).
  destruct (send t1 _ o) as [res t2] eqn:Es.
  apply send_cases in Es as [[-> ->]|[Hf ->]].
  - apply (insert_stream_inv l _ _ [frame_u32 Open (counter l) (initial_window_bytes s)]); try done.
    apply Forall_singleton, u32_fits; [done|ulia].
  - destruct res; [done|].
    apply (insert_stream_inv l _ _ []); try done.
    + intros sid. by rewrite (remove_stream_core t1 (counter l) sid).
    + pose proof (remove_stream_streams t1 (counter l)). simpl in *. set_solver.
    + by rewrite remove_stream_commands, app_nil_r.
    + set_solver.
Qed.

Hypothesis Hb : 0 <= rc_max_bytes_per_connection r.

Lemma new_member_inv c now inl granted :
  c_remaining c + zlen (queue_bytes (c_inbound c)) <= initial_window_bytes s ->
  inl = queue_bytes (c_inbound c) -> c_credit c <= granted ->
  member_inv s r c (new_member now) inl [] granted.
Proof.
  intros H1 H2 H3. pose proof link_frame_bounds. constructor; simpl; try done; try lia.
  split; [|done]. change (0 <= max_frame_bytes s). lia.
Qed.

(** A stream leaves the set of opening ones; nothing else changes. *)
Lemma link_inv_not_opening l sid t' :
  link_inv s r l -> same_core (tunnel l) t' -> streams t' ⊆ streams (tunnel l) ->
  commands t' = commands (tunnel l) ->
  link_inv s r (mkLink t' (opening l ∖ {[sid]}) (members l) (counter l) (ping_sequence l) (inlog l)
                  (credit l) (closed l)).
Proof.
  intros Hl Hc Hst Hcmd.
  destruct (link_inv_same l t' (ping_sequence l) (closed l) []) as [Iv Ii Ic It Io If]; try done.
  { by rewrite app_nil_r. }
  split; try done. simpl. intros sid' Hsid. apply Io. simpl. set_solver.
Qed.

Lemma opened_step_inv l sid out now d :
  link_inv s r l -> heap (tunnel l) !! sid = Some d -> sid ∈ opening l ->
  link_inv s r (opened_step l sid out now).
Proof.
  intros Hl Ed Hop. unfold opened_step, open_finish.
  assert (link_inv s r (mkLink (remove_stream (tunnel l) sid) (opening l ∖ {[sid]}) (members l) (counter l)
    (ping_sequence l) (inlog l) (credit l) (closed l))) as Hrem
    by (apply link_inv_not_opening; [done|apply remove_stream_core|apply remove_stream_streams|
        apply remove_stream_commands]).
  destruct out as [|[window|c]| |]; simpl; try done.
  destruct (Z.ltb_spec 0 window) as [Hpos|]; [|done]. rewrite Ed.
  destruct (credit_add (send_credit d) window) as [res k] eqn:Ec.
  apply credit_add_cases in Ec as [[-> ->]|[Hf ->]]; [| |lia].
  2: { destruct res; [done|]. apply link_inv_not_opening; try done. intros sid'. simpl.
       destruct (decide (sid' = sid)) as [->|Hne]; [by rewrite lookup_insert_eq, Ed|
         by rewrite lookup_insert_ne]. }
  pose proof (li_views _ _ _ Hl sid) as Hv. destruct (li_opening _ _ _ Hl sid Hop) as [_ Hnone].
  unfold view_inv, view in Hv; simpl in Hv. rewrite Ed, Hnone in Hv. simpl in Hv.
  destruct Hv as (V1 & V2 & V3 & V4 & V5 & V6).
  destruct Hl as [Iv Ii Ic It Io If].
  assert (forall sid', is_Some (heap (with_heap (tunnel l) (<[sid := set_credit d (send_credit d + window)]>
    (heap (tunnel l)))) !! sid') <-> is_Some (heap (tunnel l) !! sid')) as Hdom.
  { intros sid'. simpl. rewrite lookup_insert_is_Some. split; [|by destruct (decide (sid = sid')); eauto].
    intros [->|[_ ?]]; [by eexists|done]. }
  split; simpl in *; try done.
  - intros sid'. unfold view, inlog_of, credit_of; simpl.
    destruct (decide (sid' = sid)) as [->|Hne]; [|rewrite !lookup_insert_ne by done; apply Iv].
    rewrite !lookup_insert_eq. simpl. split; [done|]. split; [simpl; lia|]. simpl.
    rewrite V6. apply new_member_inv; simpl; [done|done|unfold credit_of in *; lia].
  - intros sid' H. by apply Ii, Hdom.
  - intros sid' H. by apply Hdom, It.
  - intros sid' H. rewrite Hdom. destruct (Io sid'); [set_solver|]. split; [done|].
    rewrite lookup_insert_ne; [done|set_solver].
Qed.

Lemma heartbeat_inv l now wall o seq' t' :
  link_inv s r l -> heartbeat_pass s r (tunnel l) (ping_sequence l) now wall o = (seq', t') ->
  link_inv s r (mkLink t' (opening l) (members l) (counter l) (default (ping_sequence l) seq') (inlog l)
                  (credit l) (closed l)).
Proof.
  intros Hl. unfold heartbeat_pass. case_match.
  { intros [= <- <-]. apply (link_inv_same l _ _ _ []); try done. by rewrite app_nil_r. }
  destruct (send _ _ _) as [res t2] eqn:Es. apply send_cases in Es as [[-> ->]|[Hf ->]].
  - intros [= <- <-]. eapply (link_inv_same l _ _ _ [_]); try done.
    apply Forall_singleton. split; [|simpl; ulia]. simpl. rewrite zlen_be_bytes.
    destruct Hs as [Hfr _ _ _ _ _ _]. unfold MIN_FRAME_BYTES in Hfr. lia.
  - destruct res; [done|]. intros [= <- <-]. apply (link_inv_same l _ _ _ []); try done.
    by rewrite app_nil_r.
Qed.

Lemma link_step_inv l e l' :
  link_inv s r l -> counter l + 2 <= u64_max -> step s r l e = Some l' -> link_inv s r l'.
Proof.
  intros Hl Hc Hstep. destruct e; simpl in Hstep.
  - case_match; simplify_eq. bool_props. by apply frame_step_inv.
  - case_match; simplify_eq. apply link_inv_end. by destruct l.
  - case_match; simplify_eq. apply link_inv_end. by destruct l.
  - simplify_eq. by apply open_step_inv.
  - destruct (heap (tunnel l) !! sid) as [d|] eqn:Ed; [|done]. simpl in Hstep.
    case_match; simplify_eq. bool_props. by eapply opened_step_inv.
  - destruct (running l sid) as [[m d]|] eqn:Er; [|done]. simpl in Hstep.
    destruct (up_answer _ _ _ _) eqn:Ea; [|done].
    destruct (upload_step _ _ _ _ _ _) as [[t' m']|] eqn:Eu; simplify_eq/=.
    by eapply upload_step_inv.
  - destruct (running l sid) as [[m d]|] eqn:Er; [|done]. simpl in Hstep.
    destruct (down_answer _ _ _) eqn:Ea; [|done].
    destruct (download_step _ _ _ _ _ _) as [[t' m']|] eqn:Eu; simplify_eq/=.
    by eapply download_step_inv.
  - destruct (running l sid) as [[m d]|] eqn:Er; [|done]. simpl in Hstep.
    destruct (relay_result_of _ _ _ _ _ _) as [res|]; simplify_eq/=. by eapply end_step_inv.
  - destruct (heartbeat_pass _ _ _ _ _ _ _) as [seq' t'] eqn:Eh. simplify_eq. by eapply heartbeat_inv.
  - simplify_eq. apply (link_inv_same l _ (ping_sequence l) (closed l) []); try done.
    by rewrite app_nil_r.
Qed.

Lemma open_stream_counter c t o res c' t' :
  1 <= c -> c + 2 <= u64_max -> open_stream s c t o = (res, c', t') -> c' = c + 2.
Proof.
  intros H1 H2. unfold open_stream, next_stream_id, wrapping_add. rewrite Z.mod_small by ulia.
  repeat case_match; intros; by simplify_eq.
Qed.

(** The counter moves by two per opened stream only. *)
Lemma step_counter l e l' :
  counter l + 2 <= u64_max -> 1 <= counter l -> step s r l e = Some l' ->
  counter l <= counter l' <= counter l + 2.
Proof.
  intros Hc H1 Hstep. destruct e; simpl in Hstep; try (case_match; simplify_eq/=; lia).
  - case_match; simplify_eq. unfold frame_step. repeat case_match; simpl; lia.
  - simplify_eq. unfold open_step. destruct (open_stream _ _ _ _) as [[res c'] t'] eqn:Eo. simpl.
    apply open_stream_counter in Eo; lia.
  - apply bind_Some in Hstep as (d & _ & Hstep). case_match; simplify_eq.
    unfold opened_step. repeat case_match; simpl; lia.
  - apply bind_Some in Hstep as ([m d] & _ & Hstep). case_match; [|done].
    apply fmap_Some in Hstep as (tm & _ & ->). simpl. lia.
  - apply bind_Some in Hstep as ([m d] & _ & Hstep). case_match; [|done].
    apply fmap_Some in Hstep as (tm & _ & ->). simpl. lia.
  - apply bind_Some in Hstep as ([m d] & _ & Hstep).
    apply bind_Some in Hstep as (res & _ & Hstep). simplify_eq/=. lia.
  - simplify_eq/=. lia.
Qed.

Lemma link_run_inv es l l' :
  link_inv s r l -> counter l + 2 * zlen es <= u64_max -> run s r l es = Some l' -> link_inv s r l'.
Proof.
  revert l. induction es as [|e es IH]; intros l Hl Hc Hrun; simpl in Hrun; [by simplify_eq|].
  destruct (step s r l e) as [l1|] eqn:E; [|done]. simpl in Hrun.
  change (e :: es) with ([e] ++ es) in Hc. rewrite zlen_app in Hc. change (zlen [e]) with 1 in Hc. pose proof (zlen_nonneg es). pose proof (li_counter _ _ _ Hl) as [_ ?].
  apply (IH l1); [eapply link_step_inv; [done| |done]; lia| |done].
  apply step_counter in E; lia.
Qed.
End Preservation.
