(* ===== verification/RelayLinkLogs.v ===== *)
(** * The logs of a run are what the node sent

    [RelayLink] logs, per stream, the payload the reader queued and the credit
    the node granted. Here both are tied to the frames of the run itself: what
    was queued for a stream is a prefix of the payload of its [Data] frames,
    and its credit is no more than its [OpenOk] and [WindowUpdate] frames say. *)
From S2P Require Import Prelude Clock RelayError RelayConfig RelayFrame RelayFlow RelayTunnel RelayLink.
From S2P Require Import RelayLinkFacts.

Definition frames_of (es : list Event) : list Frame :=
  omap (fun e => match e with EvFrame f _ _ => Some f | _ => None end) es.
(** The payload of the [Data] frames that arrived for stream [sid] *)
Definition received (sid : Z) (es : list Event) : list byte := data_on sid (frames_of es).

Definition frame_grant (f : Frame) : Z :=
  match kind f, parse_u32 f with
  | (WindowUpdate | OpenOk), Ok n => n
  | _, _ => 0
  end.
(** The credit its [OpenOk] and [WindowUpdate] frames give stream [sid] *)
Definition granted (sid : Z) (es : list Event) : Z :=
  foldr Z.add 0 ((fun f => if stream_id f =? sid then frame_grant f else 0) <$> frames_of es).

(** The window of an [OpenOk] the opening task has not taken yet *)
Definition open_credit (l : Link) (sid : Z) : Z :=
  if bool_decide (sid ∈ opening l) then
    match open_value <$> heap (tunnel l) !! sid with
    | Some (Some (Ok w)) => w
    | _ => 0
    end
  else 0.

Record log_inv (l : Link) (pre : list Event) (sid : Z) : Prop := {
  lg_in : inlog_of l sid = received sid pre \/
    (inlog_of l sid `prefix_of` received sid pre /\
     (closed l <> None \/ (sid ∉ streams (tunnel l)) /\ is_Some (heap (tunnel l) !! sid)));
  lg_credit : credit_of l sid + open_credit l sid <= granted sid pre;
  lg_window : forall w, open_value <$> heap (tunnel l) !! sid = Some (Some (Ok w)) -> 0 <= w;
}.

Lemma received_app sid es e :
  received sid (es ++ [e]) = received sid es ++ received sid [e].
Proof. unfold received, frames_of. by rewrite omap_app, data_on_app. Qed.

Lemma foldr_add_app (a b : list Z) : foldr Z.add 0 (a ++ b) = foldr Z.add 0 a + foldr Z.add 0 b.
Proof. induction a as [|z a IH]; simpl; [done|]. rewrite IH. lia. Qed.

Lemma granted_app sid es e : granted sid (es ++ [e]) = granted sid es + granted sid [e].
Proof. unfold granted, frames_of. by rewrite omap_app, fmap_app, foldr_add_app. Qed.

Lemma granted_frame sid f o now :
  granted sid [EvFrame f o now] = if stream_id f =? sid then frame_grant f else 0.
Proof. unfold granted; simpl. lia. Qed.

Lemma frame_grant_range f : 0 <= frame_grant f.
Proof.
  unfold frame_grant. destruct (kind f); try lia;
    (destruct (parse_u32 f) eqn:E; [|lia]); apply parse_u32_range in E; lia.
Qed.

(** ** Steps that leave the logs alone *)

(** [t'] has no stream [t] has not, and the same open results. *)
Definition quiet (t t' : TunnelSession) : Prop :=
  streams t' ⊆ streams t /\ forall sid, open_value <$> heap t' !! sid = open_value <$> heap t !! sid.

Lemma quiet_refl t : quiet t t.
Proof. done. Qed.
Lemma quiet_trans t1 t2 t3 : quiet t1 t2 -> quiet t2 t3 -> quiet t1 t3.
Proof. intros [S1 V1] [S2 V2]. split; [set_solver|]. intros. by rewrite V2, V1. Qed.
Lemma quiet_push t f : quiet t (push t f).
Proof. done. Qed.
Lemma quiet_send t f o : quiet t (send t f o).2.
Proof. by destruct o. Qed.
Lemma quiet_cancel t : quiet t (cancel_tunnel t).
Proof. done. Qed.

Lemma quiet_alter t (f : StreamDispatch -> StreamDispatch) sid :
  (forall d, open_value (f d) = open_value d) -> quiet t (with_heap t (alter f sid (heap t))).
Proof.
  intros Hf. split; [done|]. intros sid'. simpl. rewrite lookup_alter. case_decide; [|done].
  subst. destruct (heap t !! sid'); simpl; [by rewrite Hf|done].
Qed.

Lemma quiet_update t sid d d' :
  heap t !! sid = Some d -> open_value d' = open_value d -> quiet t (update t sid d').
Proof.
  intros Hd Hv. split; [done|]. intros sid'. simpl.
  destruct (decide (sid' = sid)) as [->|]; [by rewrite lookup_insert_eq, Hd; simpl; rewrite Hv|].
  by rewrite lookup_insert_ne.
Qed.

Lemma quiet_remove t sid : quiet t (remove_stream t sid).
Proof.
  unfold remove_stream. case_match; [|done].
  apply (quiet_trans _ (with_streams t (streams t ∖ {[sid]}))); [split; [simpl; set_solver|done]|].
  by apply (quiet_alter (with_streams t _)).
Qed.

Lemma quiet_finish t : quiet t (finish_tunnel t).
Proof.
  split; [apply empty_subseteq|]. intros sid. unfold finish_tunnel, cancel_all_streams; simpl.
  rewrite map_lookup_imap. destruct (heap t !! sid); simpl; [|done]. by case_match.
Qed.

#[local] Hint Resolve quiet_refl quiet_push quiet_send quiet_cancel quiet_remove quiet_finish : pn.

Lemma quiet_send_eq t f o res t' : send t f o = (res, t') -> quiet t t'.
Proof. intros H. change t' with (res, t').2. rewrite <- H. apply quiet_send. Qed.

Lemma upload_quiet r sid t d m e t' m' :
  heap t !! sid = Some d -> upload_step r sid t d m e = Some (t', m') -> quiet t t'.
Proof.
  intros Hd H. unfold upload_step in H. repeat case_match; simplify_eq; auto with pn;
    try (by eapply quiet_send_eq). by eapply quiet_update.
Qed.

Lemma download_quiet r sid t d m e t' m' :
  heap t !! sid = Some d -> download_step r sid t d m e = Some (t', m') -> quiet t t'.
Proof.
  intros Hd H. unfold download_step, finish_download in H.
  repeat case_match; simplify_eq; auto with pn; try (by eapply quiet_send_eq);
    try (by eapply quiet_update);
    match goal with Hs : send _ _ _ = _ |- _ =>
      pose proof (quiet_send_eq _ _ _ _ _ Hs); apply send_cases in Hs as [[_ ->]|[_ ->]] end;
    (eapply quiet_trans; [done|by eapply quiet_update]).
Qed.

Lemma finish_member_quiet t sid res o : quiet t (finish_member t sid res o).
Proof.
  unfold finish_member. refine (quiet_trans _ _ _ _ (quiet_send _ _ _)).
  refine (quiet_trans _ _ _ _ (quiet_remove _ _)). by apply quiet_alter.
Qed.

Lemma heartbeat_quiet s r t seq now wall o : quiet t (heartbeat_pass s r t seq now wall o).2.
Proof.
  unfold heartbeat_pass. case_match; [apply quiet_cancel|].
  destruct (send _ _ _) as [res t2] eqn:Es. apply quiet_send_eq in Es.
  destruct res; [done|]. eapply quiet_trans; [done|apply quiet_cancel].
Qed.

Lemma quiet_is_Some t t' sid : quiet t t' -> is_Some (heap t' !! sid) <-> is_Some (heap t !! sid).
Proof. intros [_ H]. by rewrite <- (fmap_is_Some open_value), H, fmap_is_Some. Qed.

(** A step that is quiet for stream [sid], whatever it does to the members *)
Lemma log_inv_quiet l l' pre e sid :
  log_inv l pre sid -> streams (tunnel l') ⊆ streams (tunnel l) ->
  open_value <$> heap (tunnel l') !! sid = open_value <$> heap (tunnel l) !! sid ->
  opening l' ⊆ opening l ->
  inlog_of l' sid = inlog_of l sid -> credit_of l' sid = credit_of l sid ->
  (closed l <> None -> closed l' <> None) -> received sid [e] = [] -> granted sid [e] = 0 ->
  log_inv l' (pre ++ [e]) sid.
Proof.
  intros [Hi Hc Hwin] Hst Hv Hop Ei Ec Hcl Hre Hgr.
  assert (is_Some (heap (tunnel l) !! sid) -> is_Some (heap (tunnel l') !! sid)) as Hd
    by (by rewrite <- (fmap_is_Some open_value), <- Hv, fmap_is_Some).
  constructor.
  - rewrite received_app, Hre, app_nil_r, Ei. destruct Hi as [?|[? [?|[? ?]]]]; [by left|..]; right;
      (split; [done|]); [left; auto|right]. split; [set_solver|by apply Hd].
  - rewrite granted_app, Hgr, Ec. unfold open_credit in *. rewrite Hv.
    destruct (decide (sid ∈ opening l')) as [Ho'|Ho'].
    { rewrite bool_decide_eq_true_2 in Hc by (by apply Hop). rewrite bool_decide_eq_true_2 by done. lia. }
    rewrite (bool_decide_eq_false_2 (sid ∈ opening l')) by done. case_bool_decide; [|lia].
    revert Hc Hwin.
    destruct (open_value <$> heap (tunnel l) !! sid) as [[[w|]|]|]; intros Hc Hwin; try lia.
    specialize (Hwin w eq_refl). lia.
  - intros w Hw. rewrite Hv in Hw. eauto.
Qed.

(** ** A frame from the node *)

Lemma stream_dispatch_out t sid : (sid ∉ streams t) -> is_ok (stream_dispatch t sid) = false.
Proof. intros H. unfold stream_dispatch. case_match; [done|]. by rewrite bool_decide_eq_false_2. Qed.

Lemma remove_stream_out t sid : sid ∉ streams (remove_stream t sid).
Proof. unfold remove_stream. case_bool_decide; simpl; set_solver. Qed.

(** A [Data] frame that is not queued ends the reader or its stream. *)
Lemma data_refused s t f o now res t' :
  kind f = Data -> accepts s t f = false -> handle_frame s t f o now = (res, t') ->
  is_ok res = false \/
  (is_Some (heap t' !! stream_id f) /\ (stream_id f ∉ streams t') /\ stream_id f ∈ streams t).
Proof.
  intros Hk Ha. unfold handle_frame, accepts in *. rewrite Hk in *. simpl in Ha.
  destruct (stream_dispatch t (stream_id f)) as [d|e] eqn:Ed; rsimpl; [|intros [= <- <-]; by left].
  apply stream_dispatch_Ok in Ed as [Hd Hin]. simpl in Ha.
  destruct (debit_receive_window d _) as [d1|] eqn:Eb; [|intros [= <- <-]; by left].
  destruct (try_send _ _ _); [done|]. destruct (send _ _ _) as [r2 t2] eqn:Es.
  destruct r2; intros [= <- <-]; [|by left]. right.
  apply send_cases in Es as [[_ ->]|[? _]]; [|done].
  pose proof (remove_stream_core (push (update t (stream_id f) d1) (frame_code Close (stream_id f) LimitReached))
    (stream_id f)) as Hc.
  split; [|split; [apply remove_stream_out|done]].
  apply (core_is_Some _ _ _ Hc). simpl. rewrite lookup_insert_eq. by eexists.
Qed.

(** Apart from the open result an [OpenOk] or [OpenError] stores, a frame is
    quiet. *)
Lemma handle_frame_quiet s t f o now res t' :
  handle_frame s t f o now = (res, t') ->
  quiet t t' \/
  exists d v, heap t !! stream_id f = Some d /\ t' = update t (stream_id f) (set_open d (Some v)) /\
    match v with Ok w => kind f = OpenOk /\ parse_u32 f = Ok w | Err _ => True end.
Proof.
  intros H. unfold handle_frame in H.
  destruct (kind f) eqn:Hk; simplify_eq; try (by left).
  - destruct (parse_u32 f) as [n|] eqn:En; rsimpl in H; [|simplify_eq; by left].
    destruct (stream_dispatch t (stream_id f)) as [d|] eqn:Ed; rsimpl in H; [|simplify_eq; by left].
    apply stream_dispatch_Ok in Ed as [Hd _].
    case_match; simplify_eq; [right; by exists d, (Ok n)|by left].
  - destruct (stream_dispatch t (stream_id f)) as [d|] eqn:Ed; [|simplify_eq; by left].
    apply stream_dispatch_Ok in Ed as [Hd _].
    case_match; simplify_eq; [right; by exists d, (Err RouteUnavailable)|by left].
  - left. destruct (stream_dispatch t (stream_id f)) as [d|] eqn:Ed; rsimpl in H; [|by simplify_eq/=].
    apply stream_dispatch_Ok in Ed as [Hd _].
    destruct (debit_receive_window d _) as [d1|] eqn:Eb; [|by simplify_eq/=].
    assert (open_value d1 = open_value d) as Hv
      by (clear H; unfold debit_receive_window in Eb; case_match; by simplify_eq).
    assert (quiet t (update t (stream_id f) d1)) as Hq by (by eapply quiet_update).
    destruct (try_send _ _ _) eqn:Et; [apply try_send_Some in Et; simplify_eq; by eapply quiet_update|].
    destruct (send _ _ _) as [r2 t2] eqn:Es. apply quiet_send_eq in Es.
    assert (quiet t t2) by (by eapply quiet_trans).
    destruct r2; simplify_eq; [|done]. eapply quiet_trans; [done|apply quiet_remove].
  - left. destruct (stream_dispatch t (stream_id f)) as [d|] eqn:Ed; [|by simplify_eq/=].
    apply stream_dispatch_Ok in Ed as [Hd _].
    destruct (try_send _ _ _) eqn:Et; simplify_eq; [|apply quiet_remove].
    apply try_send_Some in Et as ->. by eapply quiet_update.
  - left. eapply quiet_trans; [|apply quiet_remove].
    destruct (stream_dispatch t (stream_id f)) as [d|] eqn:Ed; [|done].
    apply stream_dispatch_Ok in Ed as [Hd _]. destruct (try_send _ _ _) eqn:Et; [|done].
    apply try_send_Some in Et as ->. by eapply quiet_update.
  - left. destruct (stream_dispatch t (stream_id f)) as [d|] eqn:Ed; [|by simplify_eq/=].
    apply stream_dispatch_Ok in Ed as [Hd _]. destruct (parse_u32 f); [|by simplify_eq/=].
    destruct (credit_add _ _); simplify_eq. by eapply quiet_update.
  - left. case_match; [by simplify_eq|by eapply quiet_send_eq].
  - left. case_match; by simplify_eq.
Qed.

Lemma grants_le f res : grants f res <= frame_grant f.
Proof.
  pose proof (frame_grant_range f). unfold grants, frame_grant in *.
  destruct (kind f), res, (parse_u32 f); lia.
Qed.

Lemma received_data sid f o now :
  received sid [EvFrame f o now] = data_on sid [f].
Proof. done. Qed.

Lemma data_on_own f : kind f = Data -> data_on (stream_id f) [f] = payload f.
Proof. intros H. unfold data_on; simpl. by rewrite H, Z.eqb_refl, app_nil_r. Qed.

Lemma data_on_other sid f : sid <> stream_id f -> data_on sid [f] = [].
Proof.
  intros H. unfold data_on; simpl. rewrite (proj2 (Z.eqb_neq (stream_id f) sid)) by done.
  by rewrite andb_false_r.
Qed.

Lemma open_credit_nonneg l pre sid : log_inv l pre sid -> 0 <= open_credit l sid.
Proof.
  intros [_ _ Hw]. unfold open_credit. case_bool_decide; [|done]. revert Hw.
  destruct (open_value <$> heap (tunnel l) !! sid) as [[[w|]|]|]; intros Hw; try done. by apply Hw.
Qed.

(** What the frame's own stream logs: queued payload, or the end of either
    the reader or the stream *)
Lemma frame_log_in s l f o now pre res t' :
  closed l = None -> log_inv l pre (stream_id f) -> handle_frame s (tunnel l) f o now = (res, t') ->
  streams t' ⊆ streams (tunnel l) ->
  (is_Some (heap (tunnel l) !! stream_id f) -> is_Some (heap t' !! stream_id f)) ->
  let inl := inlog_of l (stream_id f) ++ (if accepts s (tunnel l) f then payload f else []) in
  let rec := received (stream_id f) (pre ++ [EvFrame f o now]) in
  inl = rec \/ (inl `prefix_of` rec /\
    (is_ok res = false \/ (stream_id f ∉ streams t') /\ is_Some (heap t' !! stream_id f))).
Proof.
  intros Hcl [Hi _ _] Hh Hst Hdom inl rec. subst inl rec.
  rewrite received_app, received_data.
  assert (inlog_of l (stream_id f) `prefix_of` received (stream_id f) pre) as Hp
    by (destruct Hi as [->|[? _]]; done).
  destruct (accepts s (tunnel l) f) eqn:Ha.
  - unfold accepts in Ha. bool_props. destruct Hi as [->|[_ [?|[Hout _]]]]; [|done|].
    + left. by rewrite data_on_own.
    + apply stream_dispatch_out in Hout. by destruct (stream_dispatch _ _).
  - rewrite app_nil_r. destruct (decide (kind f = Data)) as [Hk|Hk].
    + right. split; [by apply prefix_app_r|].
      destruct (data_refused _ _ _ _ _ _ _ Hk Ha Hh) as [?|(? & ? & _)]; auto.
    + rewrite data_on_control, app_nil_r by done. destruct Hi as [->|[_ [?|[Hout ?]]]]; [by left|done|].
      right. split; [done|]. right. split; [set_solver|auto].
Qed.

(** The tunnel after the reader handled a frame, ended or not *)
Definition after_frame (res : relay_result unit) (t' : TunnelSession) : TunnelSession :=
  match res with Ok _ => t' | Err _ => finish_tunnel t' end.

Lemma frame_step_after s l f o now res t' sid :
  handle_frame s (tunnel l) f o now = (res, t') ->
  let l' := frame_step s l f o now in
  tunnel l' = after_frame res t' /\ opening l' = opening l /\
  inlog_of l' sid = (if bool_decide (sid = stream_id f)
    then inlog_of l sid ++ (if accepts s (tunnel l) f then payload f else []) else inlog_of l sid) /\
  credit_of l' sid =
    (if bool_decide (sid = stream_id f) then credit_of l sid + grants f res else credit_of l sid) /\
  closed l' = match res with Ok _ => closed l | Err e => Some (Err e) end.
Proof.
  intros H. unfold frame_step. rewrite H. unfold inlog_of, credit_of.
  destruct res; simpl; split_and!; try done; (case_bool_decide as Hs; [subst|]);
    destruct (accepts s (tunnel l) f); rewrite ?lookup_insert_eq, ?lookup_insert_ne, ?app_nil_r by done;
    done.
Qed.

Lemma after_frame_quiet res t' : quiet t' (after_frame res t').
Proof. destruct res; auto with pn. Qed.

Lemma frame_step_log s l f o now pre sid :
  closed l = None -> log_inv l pre sid ->
  log_inv (frame_step s l f o now) (pre ++ [EvFrame f o now]) sid.
Proof.
  intros Hcl Hl. destruct (handle_frame s (tunnel l) f o now) as [res t'] eqn:Hh.
  destruct (frame_step_after s l f o now res t' sid Hh) as (Et & Eo & Ei & Ec & Ecl).
  pose proof (after_frame_quiet res t') as [Hst2 Hv2].
  assert (streams t' ⊆ streams (tunnel l)) as Hst
    by (destruct (handle_frame_quiet _ _ _ _ _ _ _ Hh) as [[? _]|(?&?&?&->&_)]; done).
  destruct (decide (sid = stream_id f)) as [->|Hne].
  - rewrite bool_decide_eq_true_2 in Ei, Ec by done.
    assert (is_Some (heap (tunnel l) !! stream_id f) -> is_Some (heap t' !! stream_id f)) as Hdom.
    { destruct (handle_frame_quiet _ _ _ _ _ _ _ Hh) as [Hq|(d & v & Hd & -> & _)].
      - by apply (quiet_is_Some _ _ _ Hq).
      - intros _. simpl. rewrite lookup_insert_eq. by eexists. }
    pose proof (frame_log_in _ _ _ _ _ _ _ _ Hcl Hl Hh Hst Hdom) as Hin. simpl in Hin.
    pose proof (open_credit_nonneg _ _ _ Hl) as Hnn. destruct Hl as [_ Hc Hwin].
    constructor.
    + rewrite Ei. destruct Hin as [?|[? [He|[Hout Hs]]]]; [by left|..]; right; (split; [done|]).
      * left. rewrite Ecl. by destruct res.
      * rewrite Et. right. split; [set_solver|]. by apply (quiet_is_Some _ _ _ (after_frame_quiet res t')).
    + rewrite granted_app, granted_frame, Z.eqb_refl, Ec. unfold open_credit in *.
      rewrite Eo, Et, Hv2. pose proof (grants_le f res).
      destruct (handle_frame_quiet _ _ _ _ _ _ _ Hh) as [[_ Hv]|(d & v & Hd & -> & Hk)].
      * rewrite Hv. lia.
      * simpl. rewrite lookup_insert_eq. simpl. pose proof (frame_grant_range f).
        case_bool_decide; [|lia]. destruct v as [w|]; [|lia]. destruct Hk as [Hk Hp].
        assert (grants f res = 0) as -> by (unfold grants; by rewrite Hk).
        assert (frame_grant f = w) as -> by (unfold frame_grant; by rewrite Hk, Hp). lia.
    + intros w. rewrite Et, Hv2.
      destruct (handle_frame_quiet _ _ _ _ _ _ _ Hh) as [[_ Hv]|(d & v & Hd & -> & Hk)].
      * rewrite Hv. apply Hwin.
      * simpl. rewrite lookup_insert_eq. simpl. intros [= ->]. destruct Hk as [_ Hp].
        apply parse_u32_range in Hp. lia.
  - rewrite bool_decide_eq_false_2 in Ei, Ec by done.
    apply (log_inv_quiet l); try done.
    + rewrite Et. set_solver.
    + rewrite Et, Hv2. destruct (handle_frame_quiet _ _ _ _ _ _ _ Hh) as [[_ Hv]|(d & v & Hd & -> & _)];
        [done|]. simpl. by rewrite lookup_insert_ne.
    + by rewrite Eo.
    + by rewrite received_data, data_on_other.
    + rewrite granted_frame. by rewrite (proj2 (Z.eqb_neq _ _)).
Qed.

(** ** Opening *)

Lemma open_step_log s r l o pre sid :
  link_inv s r l -> log_inv l pre sid -> log_inv (open_step s l o) (pre ++ [EvOpen o]) sid.
Proof.
  intros Hinv Hl. pose proof (li_counter _ _ _ Hinv) as [Hodd Hcr].
  assert (heap (tunnel l) !! counter l = None) as Hfresh.
  { destruct (heap (tunnel l) !! counter l) eqn:E; [|done].
    destruct (li_ids _ _ _ Hinv (counter l)); [by eexists|lia]. }
  unfold open_step, open_stream, next_stream_id.
  rewrite (proj2 (Z.eqb_neq (counter l) 0)), <- Z.negb_odd, Hodd by lia. simpl.
  set (t1 := with_heap _ _).
  assert (forall t2 op, quiet t1 t2 -> op ⊆ {[counter l]} ∪ opening l ->
    log_inv (mkLink t2 op (members l) (wrapping_add u64_max (counter l) 2) (ping_sequence l)
      (inlog l) (credit l) (closed l)) (pre ++ [EvOpen o]) sid) as Hgen.
  { intros t2 op [Hst Hv] Hop. destruct (decide (sid = counter l)) as [->|Hne].
    - pose proof (open_credit_nonneg _ _ _ Hl). destruct Hl as [Hi Hc Hwin]. constructor.
      + rewrite received_app, app_nil_r. destruct Hi as [?|[? [?|[_ [? ?]]]]]; [by left|by right; auto|].
        congruence.
      + rewrite granted_app. unfold open_credit, credit_of in *; simpl. rewrite Hv. simpl.
        rewrite lookup_insert_eq. simpl. unfold granted at 2; simpl. destruct (bool_decide (counter l ∈ op)); lia.
      + intros w. simpl. rewrite Hv. simpl. by rewrite lookup_insert_eq.
    - destruct Hl as [Hi Hc Hwin].
      assert (open_value <$> heap t2 !! sid = open_value <$> heap (tunnel l) !! sid) as Hvs
        by (rewrite Hv; simpl; by rewrite lookup_insert_ne).
      constructor.
      + rewrite received_app, app_nil_r. destruct Hi as [?|[? [?|[? ?]]]]; [by left|by right; auto|].
        right. split; [done|]. right. simpl. split; [simpl in Hst; set_solver|].
        by rewrite <- (fmap_is_Some open_value), Hvs, fmap_is_Some.
      + rewrite granted_app. unfold granted at 2; simpl. unfold open_credit, credit_of in *; simpl.
        rewrite Hvs. revert Hc Hwin.
        destruct (open_value <$> heap (tunnel l) !! sid) as [[[w|]|]|]; intros;
          try (repeat case_match; lia). specialize (Hwin w eq_refl).
        destruct (decide (sid ∈ op)) as [Hin|]; [|rewrite (bool_decide_eq_false_2 (sid ∈ op)) by done;
          case_match; lia].
        rewrite bool_decide_eq_true_2 in Hc by set_solver.
        rewrite bool_decide_eq_true_2 by done. lia.
      + intros w. simpl. rewrite Hvs. apply Hwin. }
  destruct (send t1 _ o) as [res t2] eqn:Es. apply quiet_send_eq in Es.
  destruct res as [u|e]; apply Hgen; try done.
  - eapply quiet_trans; [done|apply quiet_remove].
  - set_solver.
Qed.

Lemma opened_step_log l sid out now pre d sid' :
  heap (tunnel l) !! sid = Some d -> sid ∈ opening l -> open_answer (tunnel l) d out = true ->
  log_inv l pre sid' -> log_inv (opened_step l sid out now) (pre ++ [EvOpened sid out now]) sid'.
Proof.
  intros Hd Hop Ha Hl. unfold opened_step.
  destruct (open_finish (tunnel l) sid out) as [res t'] eqn:Ef.
  assert (quiet (tunnel l) t') as [Hst Hv].
  { unfold open_finish in Ef. destruct (open_result out); [|simplify_eq; apply quiet_remove].
    case_match; [|simplify_eq; apply quiet_remove]. rewrite Hd in Ef.
    destruct (credit_add _ _); simplify_eq. by eapply quiet_update. }
  assert (opening l ∖ {[sid]} ⊆ opening l) as Hsub by (intros i; set_solver).
  assert (log_inv (mkLink t' (opening l ∖ {[sid]}) (members l) (counter l) (ping_sequence l) (inlog l)
    (credit l) (closed l)) (pre ++ [EvOpened sid out now]) sid') as Hplain
    by (by apply (log_inv_quiet l); simpl).
  destruct res as [u|]; [|done]. destruct out as [|[window|]| |]; try done.
  simpl in Ha. destruct (open_value d) as [[w|]|] eqn:Ew; [|done..]. bool_props. subst w.
  destruct (decide (sid' = sid)) as [->|Hne].
  - destruct Hl as [Hi Hc Hwin], Hplain as [Hi' _ Hw']. constructor; try done.
    rewrite granted_app. unfold granted at 2; simpl. unfold open_credit, credit_of in *; simpl.
    rewrite lookup_insert_eq. simpl. rewrite Hd in Hc. simpl in Hc. rewrite Ew in Hc.
    rewrite bool_decide_eq_true_2 in Hc by done. rewrite bool_decide_eq_false_2 by set_solver. lia.
  - destruct Hplain as [Hi' Hc' Hw']. constructor; try done.
    unfold open_credit, credit_of in *; simpl in *. by rewrite lookup_insert_ne.
Qed.

(** ** Runs *)

Lemma step_log s r l e l' pre sid :
  link_inv s r l -> log_inv l pre sid -> step s r l e = Some l' -> log_inv l' (pre ++ [e]) sid.
Proof.
  intros Hinv Hl Hstep.
  assert (forall t' op mem seq cl,
    quiet (tunnel l) t' -> op = opening l -> (closed l <> None -> cl <> None) ->
    frames_of [e] = [] ->
    log_inv (mkLink t' op mem (counter l) seq (inlog l) (credit l) cl) (pre ++ [e]) sid) as Hgen.
  { intros t' op mem seq cl [Hst Hv] -> Hcl He. apply (log_inv_quiet l); try done.
    - unfold received. by rewrite He.
    - unfold granted. by rewrite He. }
  destruct e; simpl in Hstep.
  - case_match; simplify_eq. bool_props. by apply frame_step_log.
  - case_match; simplify_eq. apply Hgen; auto using quiet_finish.
  - case_match; simplify_eq. apply Hgen; auto using quiet_finish.
  - simplify_eq. by eapply open_step_log.
  - apply bind_Some in Hstep as (d & Hd & Hstep). case_match; simplify_eq. bool_props.
    by eapply opened_step_log.
  - apply bind_Some in Hstep as ([m d] & Hr & Hstep). case_match; [|done].
    apply fmap_Some in Hstep as ([t' m'] & Hu & ->).
    destruct (running_view _ _ _ _ _ _ Hinv Hr) as (_ & Hd & _). apply Hgen; try done.
    by eapply upload_quiet.
  - apply bind_Some in Hstep as ([m d] & Hr & Hstep). case_match; [|done].
    apply fmap_Some in Hstep as ([t' m'] & Hu & ->).
    destruct (running_view _ _ _ _ _ _ Hinv Hr) as (_ & Hd & _). apply Hgen; try done.
    by eapply download_quiet.
  - apply bind_Some in Hstep as ([m d] & Hr & Hstep).
    apply bind_Some in Hstep as (res & _ & Hstep). simplify_eq.
    apply Hgen; try done. apply finish_member_quiet.
  - pose proof (heartbeat_quiet s r (tunnel l) (ping_sequence l) now wall o) as Hq.
    destruct (heartbeat_pass _ _ _ _ _ _ _) as [seq' t']. simplify_eq. by apply Hgen.
  - simplify_eq. by apply Hgen.
Qed.

Lemma run_log s r es l l' pre :
  server_ok s -> initial_window_bytes s <= u32_max -> 0 <= rc_max_bytes_per_connection r ->
  link_inv s r l -> counter l + 2 * zlen es <= u64_max -> run s r l es = Some l' ->
  (forall sid, log_inv l pre sid) -> forall sid, log_inv l' (pre ++ es) sid.
Proof.
  intros Hs Hw Hb. revert l pre. induction es as [|e es IH]; intros l pre Hl Hc Hrun Hlog sid;
    simpl in Hrun; [simplify_eq; by rewrite app_nil_r|].
  destruct (step s r l e) as [l1|] eqn:E; [|done]. simpl in Hrun.
  change (e :: es) with ([e] ++ es) in *. rewrite zlen_app in Hc. change (zlen [e]) with 1 in Hc.
  pose proof (zlen_nonneg es). pose proof (li_counter _ _ _ Hl) as [_ [Hc1 _]].
  assert (counter l + 2 <= u64_max) as Hc2 by lia.
  pose proof (step_counter _ _ _ _ _ Hc2 Hc1 E).
  rewrite app_assoc. apply (IH l1); [by eapply link_step_inv|lia|done|].
  intros sid'. by eapply step_log.
Qed.

Lemma fresh_link_log s id c now sid : log_inv (fresh_link s id c now) [] sid.
Proof. constructor; [by left| |done]. done. Qed.
