(* ===== verification/RelayStreams.v ===== *)
(** * What every run over a node tunnel guarantees

    The theorems on the streams of a tunnel ([src/relay-server/src/relay.rs]),
    for every interleaving of its tasks, and what one undisturbed round of
    each pump does. A run has fewer than 2^62 events, so that the stream
    counter stays below 2^64. *)
From S2P Require Import Prelude Text Clock RelayError RelayConfig RelayFrame RelayFlow RelayTunnel RelayLink.
From S2P Require Import RelayLinkFacts RelayLinkLogs.

(** What a peer decodes from the bytes [reader], at most [n] frames *)
Fixpoint read_frames (n : nat) (max_frame_bytes : Z) (reader : list byte) : list Frame :=
  match n with
  | O => []
  | S n' =>
      match read_from reader max_frame_bytes with
      | (Ok (Some f), rest) => f :: read_frames n' max_frame_bytes rest
      | _ => []
      end
  end.

(** The identifiers of the [Open] frames queued *)
Definition opened_ids (fs : list Frame) : list Z :=
  omap (fun f => if bool_decide (kind f = Open) then Some (stream_id f) else None) fs.

(** A route of a validated configuration; the window is a [u32]. *)
Definition link_config (s : ServerConfig) (r : RouteConfig) : Prop :=
  server_ok s /\ route_ok s r /\ is_u32 (initial_window_bytes s).

(** A run of a new tunnel on a route whose counter stands at [c] *)
Definition tunnel_run (s : ServerConfig) (r : RouteConfig) (es : list Event) (l : Link) : Prop :=
  exists id c now, Z.odd c = true /\ 1 <= c /\ c + 2 * zlen es <= u64_max /\
    run s r (fresh_link s id c now) es = Some l.

(** ** Identifiers *)

Lemma opened_ids_app fs gs : opened_ids (fs ++ gs) = opened_ids fs ++ opened_ids gs.
Proof. unfold opened_ids. by rewrite omap_app. Qed.

Lemma opened_ids_none fs : Forall (fun f => kind f <> Open) fs -> opened_ids fs = [].
Proof. induction 1 as [|f fs Hf _ IH]; [done|]. simpl. by rewrite bool_decide_eq_false_2. Qed.

(** [t'] queues, after what [t] queued, frames that open no stream. *)
Definition opens_nothing (t t' : TunnelSession) : Prop :=
  exists extra, commands t' = commands t ++ extra /\ Forall (fun f => kind f <> Open) extra.

Lemma opens_nothing_same t t' : commands t' = commands t -> opens_nothing t t'.
Proof. intros H. exists []. by rewrite H, app_nil_r. Qed.

Lemma opens_nothing_send t t1 f o res t' :
  commands t1 = commands t -> kind f <> Open -> send t1 f o = (res, t') -> opens_nothing t t'.
Proof.
  intros Hc Hf Hs. apply send_cases in Hs as [[_ ->]|[_ ->]]; [|by apply opens_nothing_same].
  exists [f]. simpl. rewrite Hc. by rewrite Forall_singleton.
Qed.

Create HintDb opens.
#[local] Hint Resolve opens_nothing_same opens_nothing_send : opens.

Lemma upload_opens r sid t d m e t' m' :
  upload_step r sid t d m e = Some (t', m') -> opens_nothing t t'.
Proof.
  unfold upload_step. intros H. repeat case_match; simplify_eq; eauto with opens;
    (eapply opens_nothing_send; [| |eassumption]; done).
Qed.

Lemma download_opens r sid t d m e t' m' :
  download_step r sid t d m e = Some (t', m') -> opens_nothing t t'.
Proof.
  unfold download_step, finish_download. intros H. repeat case_match; simplify_eq; eauto with opens;
    match goal with Hs : send _ _ _ = _ |- _ => eapply opens_nothing_send in Hs; done end.
Qed.

Lemma heartbeat_opens s r t seq now wall o seq' t' :
  heartbeat_pass s r t seq now wall o = (seq', t') -> opens_nothing t t'.
Proof.
  unfold heartbeat_pass. case_match; [by intros [= <- <-]; apply opens_nothing_same|].
  destruct (send _ _ _) as [res t2] eqn:Es. eapply opens_nothing_send in Es as [ex [Hc Hex]]; [|done..].
  case_match; intros [= <- <-]; by exists ex.
Qed.

Section Runs.
Context (s : ServerConfig) (r : RouteConfig).
Hypothesis Hs : server_ok s.
Hypothesis Hr : route_ok s r.
Hypothesis Hw : initial_window_bytes s <= u32_max.

Lemma step_opens l e l' :
  link_inv s r l -> counter l + 2 <= u64_max -> step s r l e = Some l' ->
  (opens_nothing (tunnel l) (tunnel l') /\ counter l <= counter l') \/
  (opened_ids (commands (tunnel l')) = opened_ids (commands (tunnel l)) ++ [counter l] /\
   counter l' = counter l + 2 /\ commands (tunnel l) `prefix_of` commands (tunnel l')).
Proof.
  intros Hl Hc Hstep. pose proof (li_counter _ _ _ Hl) as [Hodd Hcr].
  pose proof (step_counter _ _ _ _ _ Hc (proj1 Hcr) Hstep) as Hc'.
  destruct e; simpl in Hstep.
  - left. split; [|lia]. case_match; simplify_eq. bool_props. unfold frame_step.
    destruct (handle_frame s (tunnel l) f o now) as [res t'] eqn:E.
    apply handle_frame_effect in E as [_ _ _ (ex & Hcmd & Hex)]; [|done|done|].
    2: { intros d Hd. pose proof (li_views _ _ _ Hl (stream_id f)) as Hv.
         unfold view_inv, view in Hv; simpl in Hv. rewrite Hd in Hv. by destruct Hv as [? _]. }
    assert (opens_nothing (tunnel l) t') by
      (exists ex; split; [done|]; eapply Forall_impl; [exact Hex|]; by intros g [[_ ?] _]).
    by destruct res.
  - left. split; [|lia]. case_match; simplify_eq. by apply opens_nothing_same.
  - left. split; [|lia]. case_match; simplify_eq. by apply opens_nothing_same.
  - simplify_eq. revert Hc'. unfold open_step.
    destruct (open_stream _ _ _ _) as [[res c'] t'] eqn:Eo; simpl.
    pose proof (open_stream_counter _ _ _ _ _ _ _ (proj1 Hcr) Hc Eo) as ->. intros _.
    unfold open_stream, next_stream_id in Eo.
    rewrite (proj2 (Z.eqb_neq (counter l) 0)), <- Z.negb_odd, Hodd in Eo by lia. simpl in Eo.
    destruct (send _ _ _) as [res2 t2] eqn:Es. apply send_cases in Es as [[-> ->]|[Hf ->]].
    + simplify_eq. right. simpl. rewrite opened_ids_app. split_and!; [done|done|by apply prefix_app_r].
    + left. split; [|lia]. destruct res2; [done|]. simplify_eq.
      apply opens_nothing_same. by rewrite remove_stream_commands.
  - left. split; [|lia]. apply bind_Some in Hstep as (d & _ & Hstep). case_match; simplify_eq.
    apply opens_nothing_same. unfold opened_step, open_finish.
    repeat case_match; simplify_eq/=; rewrite ?remove_stream_commands; done.
  - left. split; [|lia]. apply bind_Some in Hstep as ([m d] & _ & Hstep). case_match; [|done].
    apply fmap_Some in Hstep as ([t' m'] & Hu & ->). by eapply upload_opens.
  - left. split; [|lia]. apply bind_Some in Hstep as ([m d] & _ & Hstep). case_match; [|done].
    apply fmap_Some in Hstep as ([t' m'] & Hu & ->). by eapply download_opens.
  - left. split; [|lia]. apply bind_Some in Hstep as ([m d] & _ & Hstep).
    apply bind_Some in Hstep as (res & _ & Hstep). simplify_eq.
    destruct (finish_member_facts (tunnel l) sid res o) as (_ & _ & ex & Hcmd & Hex).
    exists ex. split; [done|]. by destruct Hex as [->| ->]; [|apply Forall_singleton].
  - left. split; [|lia]. destruct (heartbeat_pass _ _ _ _ _ _ _) as [seq' t'] eqn:Eh.
    simplify_eq. by eapply heartbeat_opens.
  - left. split; [|lia]. simplify_eq. by apply opens_nothing_same.
Qed.

Lemma run_opens es l l' :
  link_inv s r l -> counter l + 2 * zlen es <= u64_max -> run s r l es = Some l' ->
  NoDup (opened_ids (commands (tunnel l))) ->
  Forall (fun i => i < counter l) (opened_ids (commands (tunnel l))) ->
  NoDup (opened_ids (commands (tunnel l'))) /\
  Forall (fun i => i < counter l') (opened_ids (commands (tunnel l'))).
Proof.
  revert l. induction es as [|e es IH]; intros l Hl Hc Hrun Hnd Hlt; simpl in Hrun; [by simplify_eq|].
  destruct (step s r l e) as [l1|] eqn:E; [|done]. simpl in Hrun.
  change (e :: es) with ([e] ++ es) in Hc. rewrite zlen_app in Hc. change (zlen [e]) with 1 in Hc.
  pose proof (zlen_nonneg es). pose proof (li_counter _ _ _ Hl) as [_ ?].
  assert (link_inv s r l1) by (eapply link_step_inv; try done; destruct Hr; pose proof (link_frame_bounds s Hs); lia).
  assert (counter l + 2 <= u64_max) as Hc2 by lia.
  pose proof (step_counter _ _ _ _ _ Hc2 (proj1 H0) E).
  apply (IH l1); [done|lia|done|..];
    (apply step_opens in E as [[(ex & Hcmd & Hex) Hle]|(Hids & Hcnt & _)]; [| |done|lia]);
    rewrite ?Hcmd, ?opened_ids_app, ?(opened_ids_none _ Hex), ?app_nil_r, ?Hids; try done.
  - apply NoDup_app. split_and!; [done| |apply NoDup_singleton].
    intros i Hi. apply Forall_forall with (x := i) in Hlt; [|done].
    intros ->%list_elem_of_singleton. lia.
  - eapply Forall_impl; [exact Hlt|]. simpl. lia.
  - apply Forall_app. split; [eapply Forall_impl; [exact Hlt|]; simpl; lia|].
    apply Forall_singleton. lia.
Qed.
End Runs.

(** ** What a run guarantees *)

Lemma config_bytes s r : link_config s r -> 0 <= rc_max_bytes_per_connection r.
Proof. intros (Hs & Hr & _). destruct Hr. pose proof (link_frame_bounds s Hs). lia. Qed.

Lemma tunnel_run_inv s r es l : link_config s r -> tunnel_run s r es l -> link_inv s r l.
Proof.
  intros Hc (id & c & now & Ho & H1 & H2 & Hrun). pose proof (config_bytes _ _ Hc) as Hb.
  destruct Hc as (Hs & Hr & Hw). pose proof (zlen_nonneg es).
  eapply link_run_inv; [exact Hs| |exact Hb| | |exact Hrun]; [ulia| |done].
  apply fresh_link_inv; (done || ulia).
Qed.

Lemma tunnel_run_log s r es l sid : link_config s r -> tunnel_run s r es l -> log_inv l es sid.
Proof.
  intros Hc (id & c & now & Ho & H1 & H2 & Hrun). pose proof (config_bytes _ _ Hc) as Hb.
  destruct Hc as (Hs & Hr & Hw). pose proof (zlen_nonneg es).
  refine (run_log s r es _ l [] Hs _ Hb _ _ Hrun _ sid); [ulia| |done|intros; apply fresh_link_log].
  apply fresh_link_inv; (done || ulia).
Qed.

(** The part of the invariant on one stream *)
Lemma tunnel_run_member s r es l sid m :
  link_config s r -> tunnel_run s r es l -> members l !! sid = Some m ->
  exists d, heap (tunnel l) !! sid = Some d /\ 0 <= receive_remaining d /\ 0 <= send_credit d /\
    member_inv s r (core d) m (inlog_of l sid) (data_on sid (commands (tunnel l))) (credit_of l sid).
Proof.
  intros Hc Hrun Hm. pose proof (li_views _ _ _ (tunnel_run_inv _ _ _ _ Hc Hrun) sid) as Hv.
  unfold view_inv, view in Hv; simpl in Hv. rewrite Hm in Hv.
  destruct (heap (tunnel l) !! sid) as [d|]; simpl in Hv; [|by destruct Hv].
  exists d. naive_solver.
Qed.

Lemma inlog_received s r es l sid :
  link_config s r -> tunnel_run s r es l -> inlog_of l sid `prefix_of` received sid es.
Proof. intros Hc Hrun. destruct (tunnel_run_log _ _ _ _ sid Hc Hrun) as [[->|[? _]] _ _]; done. Qed.

Lemma credit_granted s r es l sid :
  link_config s r -> tunnel_run s r es l -> credit_of l sid <= granted sid es.
Proof.
  intros Hc Hrun. pose proof (tunnel_run_log _ _ _ _ sid Hc Hrun) as Hl.
  pose proof (open_credit_nonneg _ _ _ Hl). destruct Hl as [_ Hg _]. lia.
Qed.

(** Streams carry bytes faithfully, whatever the interleaving: the payload
    of the [Data] frames queued for the node on a stream is a prefix of what
    was read from its member, and what was written to the member is a prefix
    of the payload of the [Data] frames the node sent on that stream. *)
Theorem stream_bytes_faithful s r es l sid m :
  link_config s r -> tunnel_run s r es l -> members l !! sid = Some m ->
  data_on sid (commands (tunnel l)) = sent m /\ sent m `prefix_of` taken m /\
  written m `prefix_of` received sid es.
Proof.
  intros Hc Hrun Hm. destruct (tunnel_run_member _ _ _ _ _ _ Hc Hrun Hm) as (d & _ & _ & _ & Hi).
  destruct Hi as [_ Hd Hu Ho _ _ _ _]. split; [done|]. split.
  - destruct (up m); try done; rewrite Hu; by apply prefix_app_r.
  - trans (inlog_of l sid); [|by eapply inlog_received].
    destruct (down m); try done; rewrite Hd; by apply prefix_app_r.
Qed.

(** A stream never exceeds its limits: the bytes moved in both directions
    stay within the route's limit per connection, the bytes sent within the
    credit its node granted it on the wire, and the bytes buffered for a slow
    member within the window announced to the node. *)
Theorem stream_limits_hold s r es l sid m d :
  link_config s r -> tunnel_run s r es l -> members l !! sid = Some m ->
  heap (tunnel l) !! sid = Some d ->
  zlen (sent m) + zlen (written m) <= rc_max_bytes_per_connection r /\
  zlen (sent m) <= granted sid es /\
  zlen (queue_bytes (inbound d)) <= initial_window_bytes s.
Proof.
  intros Hc Hrun Hm Hd. pose proof (credit_granted _ _ _ _ sid Hc Hrun).
  destruct (tunnel_run_member _ _ _ _ _ _ Hc Hrun Hm) as (d' & Hd' & Hr0 & Hk0 & Hi). simplify_eq.
  destruct Hi as [Hw _ _ _ Hk Hb [_ Hu] _]. simpl in *.
  pose proof (zlen_nonneg (up_pending (up m))). pose proof (zlen_nonneg (down_pending (down m))).
  assert (0 <= in_hand (down m)) by (destruct (down m); simpl; try lia; apply zlen_nonneg).
  assert (0 <= up_credit (up m)) by (destruct (up m); simpl in *; lia). lia.
Qed.

Lemma ids_unique s r es l :
  link_config s r -> tunnel_run s r es l -> NoDup (opened_ids (commands (tunnel l))).
Proof.
  intros Hc (id & c & now & Ho & H1 & H2 & Hrun). destruct Hc as (Hs & Hr & Hw).
  pose proof (zlen_nonneg es).
  eapply run_opens in Hrun; [by destruct Hrun|done|done|ulia|..]; try done; try by constructor.
  apply fresh_link_inv; (done || ulia).
Qed.

(** The relay never opens two streams of a tunnel under one identifier. *)
Theorem stream_ids_unique s r es l :
  link_config s r -> tunnel_run s r es l -> NoDup (opened_ids (commands (tunnel l))).
Proof. apply ids_unique. Qed.

Lemma write_frames_Ok max fs :
  max <= MAX_FRAME_BYTES -> Forall (fun f => zlen (payload f) <= max /\ is_u64 (stream_id f)) fs ->
  write_frames max fs = Ok (concat (encode <$> fs)).
Proof.
  intros Hmax. induction 1 as [|f fs [Hf Hid] _ IH]; [done|]. simpl.
  rewrite (proj2 (write_to_Ok f max (encode f))); rsimpl; [by rewrite IH|].
  split_and!; [done|done|]. unfold MAX_FRAME_BYTES, HEADER_BYTES in *. ulia.
Qed.

Lemma read_frames_encode max fs :
  max <= MAX_FRAME_BYTES -> Forall (fun f => zlen (payload f) <= max /\ is_u64 (stream_id f)) fs ->
  read_frames (length fs) max (concat (encode <$> fs)) = fs.
Proof.
  intros Hmax. induction 1 as [|f fs [Hf Hid] _ IH]; [done|]. cbn [length read_frames].
  change (concat (encode <$> f :: fs)) with (encode f ++ concat (encode <$> fs)).
  rewrite read_from_encode; [by rewrite IH|done|done|].
  unfold MAX_FRAME_BYTES, HEADER_BYTES in *. ulia.
Qed.

(** The writer task never stops on a frame the relay queued, and a node
    that reads with the same maximum decodes exactly the queued frames, in
    order. *)
Theorem queued_frames_decode s r es l :
  link_config s r -> tunnel_run s r es l ->
  exists wire, write_frames (max_frame_bytes s) (commands (tunnel l)) = Ok wire /\
    read_frames (length (commands (tunnel l))) (max_frame_bytes s) wire = commands (tunnel l).
Proof.
  intros Hc Hrun. pose proof (li_frames _ _ _ (tunnel_run_inv _ _ _ _ Hc Hrun)) as Hf.
  destruct Hc as ([[_ Hmax] _ _ _ _ _ _] & _ & _).
  eexists. split; [by apply write_frames_Ok|by apply read_frames_encode].
Qed.

(** ** One round of a pump *)

Lemma running_Some l sid m d :
  running l sid = Some (m, d) <->
  members l !! sid = Some m /\ heap (tunnel l) !! sid = Some d /\ ended m = None.
Proof.
  unfold running. split.
  - intros H. apply bind_Some in H as (m' & Hm & H). apply bind_Some in H as (d' & Hd & H).
    destruct (ended m') eqn:E; by simplify_eq.
  - intros (-> & Hd & He). simpl. rewrite Hd. simpl. by rewrite He.
Qed.

(** A stream's task makes a step, and goes on from there. *)
Lemma run_up s r l sid m d ev t' m' es :
  running l sid = Some (m, d) -> up_answer s r m ev = true ->
  upload_step r sid (tunnel l) d m ev = Some (t', m') ->
  run s r l (EvUp sid ev :: es) = run s r (with_member l sid (t', m')) es.
Proof. intros Hr Ha Hu. cbn [run step]. rewrite Hr. simpl. by rewrite Ha, Hu. Qed.

Lemma run_down s r l sid m d ev t' m' es :
  running l sid = Some (m, d) -> down_answer r m ev = true ->
  download_step r sid (tunnel l) d m ev = Some (t', m') ->
  run s r l (EvDown sid ev :: es) = run s r (with_member l sid (t', m')) es.
Proof. intros Hr Ha Hu. cbn [run step]. rewrite Hr. simpl. by rewrite Ha, Hu. Qed.

Lemma running_with_member l sid t' m' d' :
  heap t' !! sid = Some d' -> ended m' = None -> running (with_member l sid (t', m')) sid = Some (m', d').
Proof. intros Hd He. apply running_Some. simpl. by rewrite lookup_insert_eq. Qed.

Lemma reserve_all q n : reserve_answer q n (Ok n) = bool_decide (0 <= n) || negb q.
Proof. unfold reserve_answer. destruct q; simpl; [|by rewrite Z.eqb_refl, orb_true_r]. 
  rewrite Z.leb_refl, andb_true_r, orb_false_r. by case_bool_decide; [apply Z.leb_le|apply Z.leb_gt; lia]. Qed.

Lemma account_within max cur n :
  cur + n <= max -> cur + n <= u64_max -> account_connection_bytes max cur n = Ok (cur + n).
Proof.
  intros H1 H2. unfold account_connection_bytes, checked_add.
  rewrite (proj2 (Z.leb_le _ _)) by lia. by rewrite (proj2 (Z.leb_le _ _)) by lia.
Qed.

Lemma zlen_pos {A} (l : list A) : l <> [] -> 0 < zlen l.
Proof. destruct l; [done|]. unfold zlen. simpl. lia. Qed.

Lemma upload_read r sid t d m data :
  up m = UpRead -> data <> [] -> connection_bytes m + zlen data <= rc_max_bytes_per_connection r ->
  connection_bytes m + zlen data <= u64_max ->
  upload_step r sid t d m (UeRead (Ok data)) =
  Some (t, with_up (with_connection (log_taken m data) (connection_bytes m + zlen data)) (UpReserve data)).
Proof.
  intros Hu Hne H1 H2. unfold upload_step. rewrite Hu. destruct data; [done|].
  cbn [connection_bytes log_taken]. by rewrite account_within.
Qed.

(** One undisturbed round of the upload pump: bytes read from a member
    within its limits, the quota and the node's credit are queued, whole and
    as one [Data] frame, and the pump reads on. *)
Theorem upload_round s r l sid m d data now :
  running l sid = Some (m, d) -> up m = UpRead -> data <> [] -> zlen data <= max_frame_bytes s ->
  connection_bytes m + zlen data <= rc_max_bytes_per_connection r ->
  connection_bytes m + zlen data <= u64_max -> zlen data <= send_credit d ->
  exists l' m',
    run s r l [EvUp sid (UeRead (Ok data)); EvUp sid (UeReserved (Ok (zlen data)));
               EvUp sid (UeRated (Ok tt)); EvUp sid UeCredit; EvUp sid (UeSent Sent now)] = Some l' /\
    commands (tunnel l') = commands (tunnel l) ++ [mkFrame Data sid data] /\
    members l' !! sid = Some m' /\ up m' = UpRead /\
    taken m' = taken m ++ data /\ sent m' = sent m ++ data.
Proof.
  intros Hr Hu Hne Hmax Hb1 Hb2 Hcr. pose proof (zlen_pos _ Hne) as Hpos.
  apply running_Some in Hr as Hr'. destruct Hr' as (Hm & Hd & He).
  erewrite (run_up _ _ _ _ m d); [|done|by apply Z.leb_le|].
  2: by apply upload_read.
  erewrite run_up; [|by apply running_with_member; [exact Hd|]|cbn [up_answer up with_up]; rewrite reserve_all;
    by rewrite bool_decide_eq_true_2 by lia|].
  2: { cbn. rewrite (proj2 (Z.eqb_neq _ _)) by lia. reflexivity. }
  erewrite run_up; [|by apply running_with_member; [exact Hd|]|done|done].
  erewrite run_up; [|by apply running_with_member; [exact Hd|]|done|].
  2: { cbn. unfold credit_try. rewrite (proj2 (Z.leb_le _ _)) by lia. reflexivity. }
  erewrite run_up; [|apply running_with_member; [apply lookup_insert_eq|done]|done|].
  2: { cbn. rewrite Z.ltb_irrefl. reflexivity. }
  eexists _, _. split; [reflexivity|]. cbn. rewrite lookup_insert_eq, first_bytes_all by lia. done.
Qed.

(** One undisturbed round of the download pump: the payload at the head of
    a stream's queue is written to its member, whole, its window is given back
    and announced to the node, and the pump goes on. *)
Theorem download_round s r l sid m d data rest now :
  running l sid = Some (m, d) -> down m = DnRecv -> inbound d = InData data :: rest -> data <> [] ->
  connection_bytes m + zlen data <= rc_max_bytes_per_connection r ->
  connection_bytes m + zlen data <= u64_max -> zlen data <= u32_max ->
  0 <= receive_remaining d -> receive_remaining d + zlen data <= u64_max ->
  exists l' m' d',
    run s r l [EvDown sid DeReceive; EvDown sid (DeReserved (Ok (zlen data)));
               EvDown sid (DeRated (Ok tt)); EvDown sid (DeWritten (Ok tt));
               EvDown sid (DeSent Sent now)] = Some l' /\
    commands (tunnel l') = commands (tunnel l) ++ [frame_u32 WindowUpdate sid (zlen data)] /\
    running l' sid = Some (m', d') /\ down m' = DnRecv /\ written m' = written m ++ data /\
    inbound d' = rest /\ receive_remaining d' = receive_remaining d + zlen data.
Proof.
  intros Hr Hu Hq Hne Hb1 Hb2 Hu32 H0 Hrem. pose proof (zlen_pos _ Hne) as Hpos.
  apply running_Some in Hr as Hr'. destruct Hr' as (Hm & Hd & He).
  erewrite (run_down _ _ _ _ m d); [|done|done|].
  2: { unfold download_step. rewrite Hu, Hq. rewrite account_within by done. reflexivity. }
  erewrite run_down; [|apply running_with_member; [apply lookup_insert_eq|done]|cbn [down_answer down with_down];
    rewrite reserve_all; by rewrite bool_decide_eq_true_2 by lia|].
  2: { cbn. rewrite (proj2 (Z.eqb_neq _ _)) by lia. reflexivity. }
  erewrite run_down; [|apply running_with_member; [apply lookup_insert_eq|done]|done|done].
  erewrite run_down; [|apply running_with_member; [apply lookup_insert_eq|done]|done|].
  2: { cbn. unfold try_from. rewrite (proj2 (Z.leb_le 0 _)), (proj2 (Z.leb_le _ u32_max)) by lia.
       reflexivity. }
  erewrite run_down; [|apply running_with_member; [apply lookup_insert_eq|done]|done|].
  2: { cbn. rewrite Z.ltb_irrefl. reflexivity. }
  eexists _, _, _. split; [reflexivity|]. split; [reflexivity|].
  split; [apply running_with_member; [apply lookup_insert_eq|done]|]. cbn.
  rewrite first_bytes_all by lia. split_and!; try done.
  unfold wrapping_add. rewrite Z.mod_small; [done|ulia].
Qed.

(** ** Frames that arrive after their stream ended *)

Lemma finish_member_out t sid res o :
  (sid ∉ streams (finish_member t sid res o)) /\ t_cancel (finish_member t sid res o) = t_cancel t.
Proof.
  unfold finish_member. set (t1 := with_heap t _). pose proof (remove_stream_out t1 sid) as Hout.
  assert (t_cancel (remove_stream t1 sid) = t_cancel t) as Hc
    by (unfold remove_stream; by case_match).
  by destruct o.
Qed.

(** The kinds of frame a node sends on a stream, [Close] apart *)
Definition stream_frame (k : FrameKind) : bool :=
  match k with Data | Fin | WindowUpdate | OpenOk | OpenError => true | _ => false end.

Lemma late_frame_error s t f o now :
  stream_frame (kind f) = true -> (stream_id f ∉ streams t) ->
  is_ok (handle_frame s t f o now).1 = false.
Proof.
  intros Hk Hout. apply stream_dispatch_out in Hout. unfold handle_frame.
  destruct (stream_dispatch t (stream_id f)); [done|].
  destruct (kind f); try done. by destruct (parse_u32 f).
Qed.

(** A stream that ends on the relay's side (an idle timeout, a failed
    member socket, a node that opens too slowly) leaves the table at once, so
    that a frame its node sent before it learned of the end makes the reader
    fail: the tunnel is cancelled, and with it every other stream of the
    route. *)
Theorem late_frame_ends_tunnel s r l sid e l1 f o now :
  (exists w o1, e = EvEnd sid w o1) \/ (exists t0, e = EvOpened sid OpenElapsed t0) ->
  step s r l e = Some l1 -> closed l = None -> stream_frame (kind f) = true ->
  stream_id f = sid -> is_u64 sid -> zlen (payload f) <= max_frame_bytes s ->
  exists l2 err, step s r l1 (EvFrame f o now) = Some l2 /\ closed l2 = Some (Err err) /\
    streams (tunnel l2) = ∅ /\
    forall sid' d', heap (tunnel l2) !! sid' = Some d' -> stream_cancelled (tunnel l2) d' = true.
Proof.
  intros He Hend Hcl Hk Hsid Hu Hlen.
  assert ((sid ∉ streams (tunnel l1)) /\ closed l1 = None) as [Hout Hcl1].
  { destruct He as [(w & o1 & ->)|(t0 & ->)]; simpl in Hend.
    - apply bind_Some in Hend as ([m d] & _ & Hend). apply bind_Some in Hend as (res & _ & Hend).
      simplify_eq. split; [|done]. apply (finish_member_out (tunnel l) (stream_id f) res o1).
    - apply bind_Some in Hend as (d & _ & Hend). case_match; simplify_eq.
      split; [|done]. apply remove_stream_out. }
  subst sid. pose proof (late_frame_error s (tunnel l1) f o now Hk Hout) as Herr.
  destruct (handle_frame s (tunnel l1) f o now) as [[u|err] t'] eqn:Eh; [done|].
  eexists _, err. cbn [step]. rewrite (bool_decide_eq_true_2 (closed l1 = None)) by done.
  rewrite !(proj2 (Z.leb_le _ _)) by (done || ulia).
  split; [reflexivity|]. unfold frame_step. rewrite Eh. split; [done|]. split; [done|].
  intros sid' d' _. unfold stream_cancelled. simpl. apply orb_true_r.
Qed.

(** ** A concrete run *)

Definition sample_link_route : RouteConfig :=
  default_route "route_0123456789abcdef" (socket_addr (V4 [203; 0; 113; 7]) 9443)
    "abababababababababababababababababababababababababababababababab"
    "cdcdcdcdcdcdcdcdcdcdcdcdcdcdcdcdcdcdcdcdcdcdcdcdcdcdcdcdcdcdcdcd"
    (mkTime (40000 * NANOS_PER_DAY) 0).
Definition sample_link_config : RelayConfig :=
  mkConfig (default_server (socket_addr (V4 [203; 0; 113; 7]) 8443)
              (socket_addr (V4 [127; 0; 0; 1]) 9464) [] [] []) None [sample_link_route].
Definition sample_link_server : ServerConfig := server sample_link_config.

Definition sample_up (data : list byte) : list Event :=
  [EvUp 1 (UeRead (Ok data)); EvUp 1 (UeReserved (Ok (zlen data))); EvUp 1 (UeRated (Ok tt));
   EvUp 1 UeCredit; EvUp 1 (UeSent Sent 7)].
Definition sample_down (data : list byte) : list Event :=
  [EvDown 1 DeReceive; EvDown 1 (DeReserved (Ok (zlen data))); EvDown 1 (DeRated (Ok tt));
   EvDown 1 (DeWritten (Ok tt)); EvDown 1 (DeSent Sent 8)].
Definition sample_opening : list Event :=
  [EvOpen Sent; EvFrame (frame_u32 OpenOk 1 262144) Sent 5; EvOpened 1 (OpenValue (Ok 262144)) 6].
Definition sample_events : list Event :=
  sample_opening ++ sample_up (as_bytes "hi") ++
  [EvFrame (mkFrame Data 1 (as_bytes "yo!")) Sent 7] ++ sample_down (as_bytes "yo!").
Definition sample_link (es : list Event) : Link :=
  default (fresh_link sample_link_server 9 1 0)
    (run sample_link_server sample_link_route (fresh_link sample_link_server 9 1 0) es).
Definition sample_member (l : Link) : Member := default (new_member 0) (members l !! 1).
Definition sample_dispatch (l : Link) : StreamDispatch := default (new_dispatch 0) (heap (tunnel l) !! 1).

Lemma sample_config_ok : link_config sample_link_server sample_link_route.
Proof.
  assert (validate sample_link_config = Ok tt) as Hv by (vm_compute; reflexivity).
  apply validate_Ok in Hv as [Hs _ _ [_ _ _ Hr]]. inversion Hr as [|? ? Hr1 _].
  split; [exact Hs|]. split; [exact Hr1|]. by vm_compute.
Qed.

Lemma sample_run_ok es :
  zlen es < 1000 ->
  is_Some (run sample_link_server sample_link_route (fresh_link sample_link_server 9 1 0) es) ->
  tunnel_run sample_link_server sample_link_route es (sample_link es).
Proof.
  intros Hlen [l Hl]. exists 9, 1, 0. split; [done|]. split; [done|]. split; [ulia|].
  unfold sample_link. by rewrite Hl.
Qed.

Lemma sample_events_run : tunnel_run sample_link_server sample_link_route sample_events
  (sample_link sample_events).
Proof. apply sample_run_ok; [by vm_compute|]. vm_compute. by eexists. Qed.

Lemma sample_events_member :
  members (sample_link sample_events) !! 1 = Some (sample_member (sample_link sample_events)).
Proof. vm_compute. reflexivity. Qed.

Lemma stream_bytes_faithful_witness :
  sent (sample_member (sample_link sample_events)) = as_bytes "hi" /\
  written (sample_member (sample_link sample_events)) `prefix_of` received 1 sample_events.
Proof.
  split; [vm_compute; reflexivity|].
  apply (stream_bytes_faithful _ _ _ _ _ _ sample_config_ok sample_events_run sample_events_member).
Defined.

Lemma stream_limits_hold_witness :
  zlen (sent (sample_member (sample_link sample_events))) <= granted 1 sample_events.
Proof.
  apply (stream_limits_hold _ _ _ _ _ _ (sample_dispatch (sample_link sample_events)) sample_config_ok
    sample_events_run sample_events_member). vm_compute. reflexivity.
Defined.

Lemma stream_ids_unique_witness :
  opened_ids (commands (tunnel (sample_link (sample_opening ++ [EvOpen Sent])))) = [1; 3] /\
  NoDup (opened_ids (commands (tunnel (sample_link (sample_opening ++ [EvOpen Sent]))))).
Proof.
  split; [vm_compute; reflexivity|].
  apply (stream_ids_unique sample_link_server sample_link_route (sample_opening ++ [EvOpen Sent])
    (sample_link (sample_opening ++ [EvOpen Sent])) sample_config_ok).
  apply sample_run_ok; [by vm_compute|]. vm_compute. by eexists.
Defined.

Lemma queued_frames_decode_witness :
  exists wire, write_frames 65536 (commands (tunnel (sample_link sample_events))) = Ok wire /\
    read_frames 4 65536 wire = commands (tunnel (sample_link sample_events)).
Proof.
  exact (queued_frames_decode _ _ _ _ sample_config_ok sample_events_run).
Defined.

Lemma upload_round_witness :
  exists l' m', run sample_link_server sample_link_route (sample_link sample_opening)
    (sample_up (as_bytes "hi")) = Some l' /\ members l' !! 1 = Some m' /\ sent m' = as_bytes "hi".
Proof.
  destruct (upload_round sample_link_server sample_link_route (sample_link sample_opening) 1
    (sample_member (sample_link sample_opening)) (sample_dispatch (sample_link sample_opening))
    (as_bytes "hi") 7) as (l' & m' & Hrun & _ & Hm & _ & _ & Hs);
    try (vm_compute; congruence).
  exists l', m'. split; [exact Hrun|]. split; [exact Hm|exact Hs].
Defined.

Definition sample_waiting : Link :=
  sample_link (sample_opening ++ [EvFrame (mkFrame Data 1 (as_bytes "yo!")) Sent 7]).

Lemma download_round_witness :
  exists l' m' d', run sample_link_server sample_link_route sample_waiting (sample_down (as_bytes "yo!"))
    = Some l' /\ running l' 1 = Some (m', d') /\ written m' = as_bytes "yo!".
Proof.
  destruct (download_round sample_link_server sample_link_route sample_waiting 1
    (sample_member sample_waiting) (sample_dispatch sample_waiting) (as_bytes "yo!") [] 8)
    as (l' & m' & d' & Hrun & _ & Hr & _ & Hw & _);
    try (vm_compute; congruence).
  exists l', m', d'. split; [exact Hrun|]. split; [exact Hr|exact Hw].
Defined.

(** The stream's member goes silent for longer than the idle timeout. *)
Definition sample_end : Event :=
  EvEnd 1 (Watchdog (2000 * 1000000000) (mkTime (20000 * NANOS_PER_DAY) 0)) Sent.

Lemma late_frame_ends_tunnel_witness :
  exists l2 e, step sample_link_server sample_link_route (sample_link (sample_events ++ [sample_end]))
    (EvFrame (mkFrame Data 1 (as_bytes "late")) Sent 9) = Some l2 /\ closed l2 = Some (Err e).
Proof.
  destruct (late_frame_ends_tunnel sample_link_server sample_link_route (sample_link sample_events) 1
    sample_end (sample_link (sample_events ++ [sample_end])) (mkFrame Data 1 (as_bytes "late")) Sent 9)
    as (l2 & e & Hstep & Hcl & _).
  - left. eexists _, _. reflexivity.
  - vm_compute. reflexivity.
  - vm_compute. reflexivity.
  - reflexivity.
  - reflexivity.
  - vm_compute. split; congruence.
  - vm_compute. congruence.
  - exists l2, e. split; [exact Hstep|exact Hcl].
Defined.
