(* ===== verification/NodeConnector.v ===== *)
(** * The node's connector: configuration, registration and reconnection

    [src/relay-server/src/node.rs] up to the tunnel itself, which is
    [NodeTunnel]: [NodeConnectorConfig], the private route token, one
    registration with the relay, and the loop that reconnects with a capped
    exponential backoff. Durations are in nanoseconds; what a system call or a
    timeout yields is an argument. *)
From S2P Require Import Prelude Text Clock RelayError RelayConfig RelayFrame.

Definition MIN_ROUTE_TOKEN_BYTES : Z := 32.
Definition MAX_ROUTE_TOKEN_BYTES : Z := 256.
(** [MIN_FRAME_BYTES] and [MAX_FRAME_BYTES] of [node.rs] equal those of
    [config.rs]. *)

(** ** Configuration *)

Record NodeConnectorConfig : Type := mkConnector {
  relay_address : SocketAddr;
  relay_server_name : string;
  nc_route_id : string;
  route_token_path : list byte;
  nc_tls_cert_path : list byte;
  nc_tls_key_path : list byte;
  relay_ca_path : list byte;
  local_target : SocketAddr;
  nc_max_frame_bytes : Z;
  nc_command_queue_frames : Z;
  nc_stream_buffer_frames : Z;
  nc_initial_window_bytes : Z;
  max_streams : Z;
  connect_timeout_secs : Z;
  nc_idle_timeout_secs : Z;
  nc_heartbeat_interval_secs : Z;
  nc_heartbeat_timeout_secs : Z;
  reconnect_initial_ms : Z;
  reconnect_max_secs : Z;
}.

Definition NANOS_PER_SECOND : Z := 1000000000.
Definition NANOS_PER_MILLI : Z := 1000000.
(** [Duration::MAX] *)
Definition DURATION_MAX : Z := (u64_max + 1) * NANOS_PER_SECOND - 1.

Definition nc_heartbeat_timeout (c : NodeConnectorConfig) : Z :=
  nc_heartbeat_timeout_secs c * NANOS_PER_SECOND.
Definition reconnect_initial (c : NodeConnectorConfig) : Z := reconnect_initial_ms c * NANOS_PER_MILLI.
Definition reconnect_max (c : NodeConnectorConfig) : Z := reconnect_max_secs c * NANOS_PER_SECOND.

(** The test the route identity and the token share *)
Definition url_safe_byte (b : byte) : bool :=
  is_ascii_alphanumeric b || bool_decide (b = "_"%byte) || bool_decide (b = "-"%byte).

(** [NodeConnectorConfig::validate] *)
Definition connector_validate (c : NodeConnectorConfig) : relay_result unit :=
  _ ← ensure (negb (port (relay_address c) =? 0)) (Config "relay_address must use a non-zero port");
  _ ← ensure (negb (negb (is_loopback (ip (local_target c))) || (port (local_target c) =? 0)))
        (Config "local_target must be a fixed loopback TCP address with a non-zero port");
  _ ← ensure (negb ((str_len (nc_route_id c) <? 16) || (128 <? str_len (nc_route_id c))
                    || negb (forallb url_safe_byte (as_bytes (nc_route_id c)))))
        (Config "route_id must be 16-128 ASCII URL-safe characters");
  _ ← ensure (negb ((str_len (relay_server_name c) =? 0) || (253 <? str_len (relay_server_name c))))
        (Config "relay_server_name must be a bounded DNS name or IP address");
  _ ← ensure (negb (negb ((MIN_FRAME_BYTES <=? nc_max_frame_bytes c)
                          && (nc_max_frame_bytes c <=? MAX_FRAME_BYTES))
                    || (nc_command_queue_frames c =? 0) || (nc_stream_buffer_frames c =? 0)
                    || (max_streams c =? 0)
                    || match try_from usize_max (nc_initial_window_bytes c) with
                       | Some window => window <? nc_max_frame_bytes c
                       | None => true
                       end))
        (Config "connector frame, queue, stream, or flow-control bounds are invalid");
  ensure (negb ((connect_timeout_secs c =? 0) || (nc_idle_timeout_secs c =? 0)
                || (nc_heartbeat_interval_secs c =? 0)
                || (nc_heartbeat_timeout_secs c <=? nc_heartbeat_interval_secs c)
                || (reconnect_initial_ms c =? 0) || (reconnect_max_secs c =? 0)
                || (reconnect_max c <? reconnect_initial c)))
    (Config "connector timeouts and reconnect backoff are inconsistent").

(** The paths of a loaded configuration *)
Definition resolve_connector (base : list byte) (c : NodeConnectorConfig) : NodeConnectorConfig :=
  mkConnector (relay_address c) (relay_server_name c) (nc_route_id c)
    (path_join base (route_token_path c)) (path_join base (nc_tls_cert_path c))
    (path_join base (nc_tls_key_path c)) (path_join base (relay_ca_path c)) (local_target c)
    (nc_max_frame_bytes c) (nc_command_queue_frames c) (nc_stream_buffer_frames c)
    (nc_initial_window_bytes c) (max_streams c) (connect_timeout_secs c) (nc_idle_timeout_secs c)
    (nc_heartbeat_interval_secs c) (nc_heartbeat_timeout_secs c) (reconnect_initial_ms c)
    (reconnect_max_secs c).

(** [NodeConnectorConfig::load], with the parameters of [RelayConfig.load] *)
Definition connector_load (parse_toml : string -> option NodeConnectorConfig)
    (file : option (list byte)) (base : list byte) : relay_result NodeConnectorConfig :=
  bytes ← ok_or file (Config "cannot read");
  text ← ok_or (from_utf8 bytes) (Config "connector configuration is not UTF-8");
  config ← ok_or (parse_toml text) (Config "invalid connector TOML");
  let config := resolve_connector base config in
  _ ← connector_validate config;
  Ok config.

(** The serde defaults *)
Definition default_connector (relay : SocketAddr) (name route : string)
    (token cert key ca : list byte) (target : SocketAddr) : NodeConnectorConfig :=
  mkConnector relay name route token cert key ca target 65536 256 16 262144 16 10 1800 15 45 500 30.

(** ** The route token *)

(** [enforce_private_file_permissions] (tls.rs): [mode] is what [metadata]
    reports, [None] when the file cannot be inspected. *)
Definition enforce_private_file_permissions (mode : option Z) : relay_result unit :=
  mode ← ok_or mode (Tls "cannot inspect");
  ensure (Z.land mode 0x3F =? 0) (Tls "must not be accessible by group or other users").

(** [trim_one_line_ending] *)
Definition trim_one_line_ending (value : list byte) : list byte :=
  match reverse value with
  | x0a :: x0d :: rest => reverse rest
  | x0a :: rest => reverse rest
  | _ => value
  end.

(** [RelayNodeConnector::new]: [tls] is what [build_client_config] returns,
    [mode] and [file] the metadata and the contents of the token file. *)
Definition connector_new (c : NodeConnectorConfig) (tls : relay_result unit) (mode : option Z)
    (file : option (list byte)) : relay_result (list byte) :=
  _ ← connector_validate c;
  _ ← tls;
  _ ← enforce_private_file_permissions mode;
  token ← ok_or file (Config "cannot read route token");
  let token := trim_one_line_ending token in
  _ ← ensure (negb (negb ((MIN_ROUTE_TOKEN_BYTES <=? zlen token) && (zlen token <=? MAX_ROUTE_TOKEN_BYTES))
                    || negb (forallb url_safe_byte token)))
        (Config "route token must be 32-256 ASCII URL-safe characters");
  Ok token.

(** ** One registration *)

(** What the awaits of [run_session] yield before the tunnel: [None] where a
    timeout elapsed *)
Record SessionIo : Type := mkSessionIo {
  tcp_connect : option (relay_result unit);
  nodelay : relay_result unit;
  server_name_valid : bool;
  tls_connect : option (relay_result (option (list byte)));
  register_written : relay_result unit;
  response_bytes : option (list byte);
}.

Definition RELAY_ALPN : list byte := as_bytes "pn-relay-v1".

(** The [match response.kind] of [run_session] *)
Definition registration_response (response : Frame) : relay_result unit :=
  match kind response with
  | RegisterOk =>
      if stream_id response =? 0 then _ ← parse_u32 response; Ok tt
      else Err (Stable ProtocolInvalid "relay returned an invalid registration response")
  | Error =>
      if stream_id response =? 0 then
        Err (Stable (default Internal (from_wire (payload response))) "relay rejected route registration")
      else Err (Stable ProtocolInvalid "relay returned an invalid registration response")
  | _ => Err (Stable ProtocolInvalid "relay returned an invalid registration response")
  end.

(** [run_session] up to [serve_node_tunnel]: the bytes sent to the relay, and
    the rest of its answer once the route is registered *)
Definition register_session (c : NodeConnectorConfig) (token : list byte) (io : SessionIo)
    : relay_result (list byte * list byte) :=
  _ ← (match tcp_connect io with
       | None => Err (Stable OpenTimeout "relay TCP connect timed out")
       | Some r => r
       end);
  _ ← nodelay io;
  _ ← ensure (server_name_valid io) (Config "relay_server_name is invalid");
  alpn ← (match tls_connect io with
          | None => Err (Stable OpenTimeout "relay TLS handshake timed out")
          | Some (Err _) => Err (Tls "relay TLS handshake failed")
          | Some (Ok alpn) => Ok alpn
          end);
  _ ← ensure (bool_decide (alpn = Some RELAY_ALPN))
        (Stable ProtocolInvalid "required relay ALPN was not negotiated");
  frame ← register (nc_route_id c) token;
  written ← write_to frame (nc_max_frame_bytes c);
  _ ← register_written io;
  match response_bytes io with
  | None => Err (Stable OpenTimeout "relay registration timed out")
  | Some bytes =>
      match read_from bytes (nc_max_frame_bytes c) with
      | (Err e, _) => Err e
      | (Ok None, _) => Err (Stable TunnelLost "relay closed registration")
      | (Ok (Some response), rest) => _ ← registration_response response; Ok (written, rest)
      end
  end.

(** ** Reconnection *)

Record Backoff : Type := mkBackoff {
  b_initial : Z;
  b_maximum : Z;
  b_next : Z;
}.
(** [Backoff::new] *)
Definition backoff_new (initial maximum : Z) : Backoff := mkBackoff initial maximum initial.
(** [Backoff::next_delay] *)
Definition next_delay (b : Backoff) : Z * Backoff :=
  (b_next b,
   mkBackoff (b_initial b) (b_maximum b) (Z.min (saturating_mul DURATION_MAX (b_next b) 2) (b_maximum b))).
(** [Backoff::reset] *)
Definition backoff_reset (b : Backoff) : Backoff := mkBackoff (b_initial b) (b_maximum b) (b_initial b).

Inductive ConnectorStatus : Type :=
| Disconnected | Connecting | Registered | BackoffFor (delay : Z) | Stopped.

(** One pass of the loop of [run]: whether the session got registered, how
    long it lasted, and whether shutdown came during it or during the sleep. *)
Record Pass : Type := mkPass {
  p_registered : bool;
  p_elapsed : Z;
  p_shutdown_after : bool;
  p_shutdown_sleep : bool;
}.

(** [RelayNodeConnector::run]: the statuses it publishes while the passes
    last, and the backoff it is left with; shutdown ends it. *)
Fixpoint connector_run (c : NodeConnectorConfig) (b : Backoff) (passes : list Pass)
    : list ConnectorStatus * Backoff :=
  match passes with
  | [] => ([], b)
  | p :: passes' =>
      let session := Connecting :: (if p_registered p then [Registered] else []) in
      if p_shutdown_after p then (session ++ [Stopped], b)
      else
        let b1 := if nc_heartbeat_timeout c <=? p_elapsed p then backoff_reset b else b in
        let '(delay, b2) := next_delay b1 in
        if p_shutdown_sleep p then (session ++ [BackoffFor delay; Stopped], b2)
        else
          let '(rest, b3) := connector_run c b2 passes' in
          (session ++ [BackoffFor delay] ++ rest, b3)
  end.

(** The delays published *)
Definition delays (l : list ConnectorStatus) : list Z :=
  omap (fun s => match s with BackoffFor d => Some d | _ => None end) l.

(** ** Lemmas *)

(** The delays in closed form: after [k] passes without a session that lived
    for a heartbeat timeout, the delay is the initial one doubled [k] times
    and capped. *)
Fixpoint closed_delays (c : NodeConnectorConfig) (k : nat) (passes : list Pass) : list Z :=
  match passes with
  | [] => []
  | p :: passes' =>
      if p_shutdown_after p then []
      else
        let k := if nc_heartbeat_timeout c <=? p_elapsed p then O else k in
        Z.min (reconnect_initial c * 2 ^ Z.of_nat k) (reconnect_max c)
          :: (if p_shutdown_sleep p then [] else closed_delays c (S k) passes')
  end.

Lemma connector_validate_Ok c :
  connector_validate c = Ok tt ->
  is_loopback (ip (local_target c)) = true /\ port (local_target c) <> 0 /\
  str_len (nc_route_id c) <= 128 /\
  MIN_FRAME_BYTES <= nc_max_frame_bytes c <= MAX_FRAME_BYTES /\
  nc_command_queue_frames c <> 0 /\ nc_stream_buffer_frames c <> 0 /\
  nc_max_frame_bytes c <= nc_initial_window_bytes c /\
  reconnect_initial_ms c <> 0 /\ reconnect_initial c <= reconnect_max c.
Proof.
  unfold connector_validate. intros H. inv_ok.
  assert (nc_max_frame_bytes c <= nc_initial_window_bytes c) as Hw.
  { match goal with H : negb (_ || match ?o with _ => _ end) = true |- _ =>
      unfold try_from in H; rewrite negb_true_iff, !orb_false_iff in H; destruct H as [_ H] end.
    case_match; [|done]. case_match; simplify_eq. by apply Z.ltb_ge. }
  bool_props. split_and!; try done; lia.
Qed.

(** A backoff after [k] delays *)
Definition backoff_at (c : NodeConnectorConfig) (k : nat) : Backoff :=
  mkBackoff (reconnect_initial c) (reconnect_max c)
    (Z.min (reconnect_initial c * 2 ^ Z.of_nat k) (reconnect_max c)).

Lemma next_delay_at c k :
  0 <= reconnect_initial c -> 0 <= reconnect_max c <= DURATION_MAX ->
  next_delay (backoff_at c k) =
  (Z.min (reconnect_initial c * 2 ^ Z.of_nat k) (reconnect_max c), backoff_at c (S k)).
Proof.
  intros Hi Hm. unfold next_delay, backoff_at, saturating_mul; simpl. f_equal. f_equal.
  rewrite Nat2Z.inj_succ, Z.pow_succ_r by lia.
  assert (0 <= reconnect_initial c * 2 ^ Z.of_nat k)
    by (apply Z.mul_nonneg_nonneg; [lia|by apply Z.pow_nonneg]).
  replace (reconnect_initial c * (2 * 2 ^ Z.of_nat k)) with (reconnect_initial c * 2 ^ Z.of_nat k * 2) by ring.
  lia.
Qed.

Lemma connector_run_delays c k passes :
  0 <= reconnect_initial c <= reconnect_max c -> reconnect_max c <= DURATION_MAX ->
  delays (connector_run c (backoff_at c k) passes).1 = closed_delays c k passes.
Proof.
  intros Hi Hm. revert k. induction passes as [|p passes IH]; intros k; [done|].
  cbn [connector_run closed_delays].
  assert (forall l, delays (Connecting :: (if p_registered p then [Registered] else []) ++ l) = delays l) as Hd
    by (intros l; by destruct (p_registered p)).
  destruct (p_shutdown_after p); [cbn [fst]; apply (Hd [Stopped])|].
  assert ((if nc_heartbeat_timeout c <=? p_elapsed p then backoff_reset (backoff_at c k)
           else backoff_at c k)
          = backoff_at c (if nc_heartbeat_timeout c <=? p_elapsed p then O else k)) as ->.
  { destruct (nc_heartbeat_timeout c <=? p_elapsed p); [|done]. 
    unfold backoff_reset, backoff_at; simpl. f_equal. lia. }
  set (k' := if nc_heartbeat_timeout c <=? p_elapsed p then O else k).
  rewrite next_delay_at by lia.
  destruct (p_shutdown_sleep p); [by rewrite <- app_comm_cons; cbn [fst]; rewrite Hd|].
  specialize (IH (S k')). destruct (connector_run _ _ _) as [rest b3]. cbn [fst] in *.
  rewrite <- app_comm_cons, Hd. rewrite <- IH. reflexivity.
Qed.

(** The connector waits exactly as long as a capped exponential backoff
    says: whatever the sessions did, the n-th delay since the start or since
    the last session that outlived the heartbeat timeout is the initial delay
    doubled n times, and never more than the maximum. *)
Theorem reconnect_delays_exact c passes :
  connector_validate c = Ok tt -> is_u64 (reconnect_initial_ms c) -> is_u64 (reconnect_max_secs c) ->
  delays (connector_run c (backoff_new (reconnect_initial c) (reconnect_max c)) passes).1
  = closed_delays c 0 passes.
Proof.
  intros Hv Hi Hm. apply connector_validate_Ok in Hv as (_ & _ & _ & _ & _ & _ & _ & H0 & Hle).
  unfold reconnect_initial, reconnect_max, DURATION_MAX, NANOS_PER_SECOND, NANOS_PER_MILLI in *.
  rewrite <- (connector_run_delays c 0); unfold reconnect_initial, reconnect_max, DURATION_MAX,
    NANOS_PER_SECOND, NANOS_PER_MILLI; [|ulia..].
  unfold backoff_at, backoff_new, reconnect_initial, reconnect_max, NANOS_PER_SECOND, NANOS_PER_MILLI.
  repeat f_equal. change (2 ^ Z.of_nat 0) with 1. lia.
Qed.

Definition sample_connector : NodeConnectorConfig :=
  default_connector (socket_addr (V4 [203; 0; 113; 7]) 8443) "relay.example" "route_0123456789abcdef"
    [] [] [] [] (socket_addr (V4 [127; 0; 0; 1]) 10443).
Definition sample_passes : list Pass :=
  [mkPass false 5 false false; mkPass false 5 false false; mkPass true 60000000000 false false;
   mkPass true 5 false true].

Lemma reconnect_delays_exact_witness :
  delays (connector_run sample_connector
    (backoff_new (reconnect_initial sample_connector) (reconnect_max sample_connector)) sample_passes).1
  = [500000000; 1000000000; 500000000; 1000000000].
Proof.
  rewrite (reconnect_delays_exact sample_connector sample_passes);
    [vm_compute; reflexivity|vm_compute; reflexivity|by vm_compute|by vm_compute].
Defined.
