(* ===== verification/NodeTunnel.v ===== *)
(** * The node's end of the tunnel

    [src/relay-server/src/node.rs] from [serve_node_tunnel] on: the frame
    reader, and for every stream the relay opens one task that connects to the
    local target and pumps both directions. As in [RelayTunnel], a definition
    is the code between two [await] points.

    [NodeStream]s are shared between the table, the reader and their task, and
    the table may come to hold another stream under an identifier whose old
    task still runs; so they live in a heap under numbers of their own, and
    the table maps identifiers to those. *)
From S2P Require Import Prelude Clock RelayError RelayConfig RelayFrame RelayFlow RelayTunnel NodeConnector.

(** ** State *)

Inductive NodeInbound : Type :=
| NiData (bytes : list byte)
| NiFin
| NiClose.

Record NodeStream : Type := mkNodeStream {
  ns_inbound : list NodeInbound;
  ns_inbound_closed : bool;
  ns_remaining : Z;
  ns_credit : Z;
  ns_cancel : bool;
}.

Record NodeTunnel : Type := mkNodeTunnel {
  nt_commands : list Frame;
  nt_streams : gmap Z Z;
  nt_objects : gmap Z NodeStream;
  nt_next : Z;
  nt_last_pong : Z;
  nt_cancel : bool;
}.

Definition nt_with_streams (t : NodeTunnel) (s : gmap Z Z) : NodeTunnel :=
  mkNodeTunnel (nt_commands t) s (nt_objects t) (nt_next t) (nt_last_pong t) (nt_cancel t).
Definition nt_update (t : NodeTunnel) (obj : Z) (st : NodeStream) : NodeTunnel :=
  mkNodeTunnel (nt_commands t) (nt_streams t) (<[obj := st]> (nt_objects t)) (nt_next t)
    (nt_last_pong t) (nt_cancel t).
Definition nt_push (t : NodeTunnel) (f : Frame) : NodeTunnel :=
  mkNodeTunnel (nt_commands t ++ [f]) (nt_streams t) (nt_objects t) (nt_next t) (nt_last_pong t)
    (nt_cancel t).
Definition nt_cancelled (t : NodeTunnel) : NodeTunnel :=
  mkNodeTunnel (nt_commands t) (nt_streams t) (nt_objects t) (nt_next t) (nt_last_pong t) true.

Definition ns_set_inbound (st : NodeStream) (q : list NodeInbound) : NodeStream :=
  mkNodeStream q (ns_inbound_closed st) (ns_remaining st) (ns_credit st) (ns_cancel st).
Definition ns_set_remaining (st : NodeStream) (z : Z) : NodeStream :=
  mkNodeStream (ns_inbound st) (ns_inbound_closed st) z (ns_credit st) (ns_cancel st).
Definition ns_set_credit (st : NodeStream) (z : Z) : NodeStream :=
  mkNodeStream (ns_inbound st) (ns_inbound_closed st) (ns_remaining st) z (ns_cancel st).
Definition ns_cancelled (st : NodeStream) : NodeStream :=
  mkNodeStream (ns_inbound st) (ns_inbound_closed st) (ns_remaining st) (ns_credit st) true.
Definition ns_close (st : NodeStream) : NodeStream :=
  mkNodeStream (ns_inbound st) true (ns_remaining st) (ns_credit st) (ns_cancel st).

(** A child token is cancelled with its parent. *)
Definition node_cancelled (t : NodeTunnel) (st : NodeStream) : bool := ns_cancel st || nt_cancel t.

(** ** [NodeTunnel] *)

(** [NodeTunnel::send] *)
Definition node_send (t : NodeTunnel) (f : Frame) (o : SendOutcome) : relay_result unit * NodeTunnel :=
  match o with
  | Sent => (Ok tt, nt_push t f)
  | SendCancelled => (Err (Stable TunnelLost "relay tunnel is closed"), t)
  | WriterStopped => (Err (Stable TunnelLost "relay tunnel writer stopped"), t)
  end.

(** [NodeTunnel::stream] *)
Definition node_stream (t : NodeTunnel) (sid : Z) : relay_result (Z * NodeStream) :=
  if (sid =? 0) || Z.even sid then
    Err (Stable ProtocolInvalid "relay used an invalid stream identifier")
  else
    ok_or (obj ← nt_streams t !! sid; st ← nt_objects t !! obj; Some (obj, st))
      (Stable ProtocolInvalid "stream is not open").

(** [NodeTunnel::remove_stream] *)
Definition node_remove_stream (t : NodeTunnel) (sid : Z) : NodeTunnel :=
  match nt_streams t !! sid with
  | Some obj =>
      mkNodeTunnel (nt_commands t) (delete sid (nt_streams t)) (alter ns_cancelled obj (nt_objects t))
        (nt_next t) (nt_last_pong t) (nt_cancel t)
  | None => t
  end.

(** [NodeTunnel::cancel_all] *)
Definition cancel_all (t : NodeTunnel) : NodeTunnel :=
  mkNodeTunnel (nt_commands t) ∅
    (map_imap (fun obj st => Some (if bool_decide (map_Exists (fun _ o => o = obj) (nt_streams t))
                                   then ns_cancelled st else st)) (nt_objects t))
    (nt_next t) (nt_last_pong t) (nt_cancel t).

(** The end of [serve_node_tunnel], whatever the reader returned *)
Definition node_finish (t : NodeTunnel) : NodeTunnel := cancel_all (nt_cancelled t).

(** [debit_window] *)
Definition debit_window (st : NodeStream) (bytes : Z) : relay_result NodeStream :=
  match checked_sub (ns_remaining st) bytes with
  | Some remaining => Ok (ns_set_remaining st remaining)
  | None => Err (Stable ProtocolInvalid "relay exceeded the stream receive window")
  end.

(** [mpsc::Sender::try_send] *)
Definition node_try_send (capacity : Z) (st : NodeStream) (m : NodeInbound) : option NodeStream :=
  if ns_inbound_closed st || (capacity <=? zlen (ns_inbound st)) then None
  else Some (ns_set_inbound st (ns_inbound st ++ [m])).

(** ** Frames from the relay *)

(** What the reader did: its result, the tunnel, the free stream slots, and
    the stream whose task it spawned *)
Record Read : Type := mkRead {
  rd_result : relay_result unit;
  rd_tunnel : NodeTunnel;
  rd_slots : Z;
  rd_spawned : option Z;
}.
Definition read_err (e : RelayError) (t : NodeTunnel) (slots : Z) : Read := mkRead (Err e) t slots None.
Definition read_ok (t : NodeTunnel) (slots : Z) : Read := mkRead (Ok tt) t slots None.

(** The stream an [Open] creates *)
Definition new_node_stream (c : NodeConnectorConfig) (peer_window : Z) : NodeStream :=
  mkNodeStream [] false (nc_initial_window_bytes c) (credit_new peer_window) false.

(** The [Open] branch of [read_relay_frames] *)
Definition node_open (c : NodeConnectorConfig) (t : NodeTunnel) (slots : Z) (f : Frame) (o : SendOutcome)
    : Read :=
  match parse_u32 f with
  | Err e => read_err e t slots
  | Ok peer_window =>
      if (peer_window =? 0) || (stream_id f =? 0) || Z.even (stream_id f) then
        read_err (Stable ProtocolInvalid "relay sent an invalid stream open") t slots
      else if slots =? 0 then
        let '(r, t') := node_send t (frame_code OpenError (stream_id f) LimitReached) o in
        mkRead r t' slots None
      else
        let obj := nt_next t in
        let t' := mkNodeTunnel (nt_commands t) (<[stream_id f := obj]> (nt_streams t))
                    (<[obj := new_node_stream c peer_window]> (nt_objects t)) (obj + 1)
                    (nt_last_pong t) (nt_cancel t) in
        match nt_streams t !! stream_id f with
        | Some _ => read_err (Stable ProtocolInvalid "relay reused an open stream identifier") t' slots
        | None => mkRead (Ok tt) t' (slots - 1) (Some obj)
        end
  end.

(** The body of the loop of [read_relay_frames] for one frame *)
Definition node_handle_frame (c : NodeConnectorConfig) (t : NodeTunnel) (slots : Z) (f : Frame)
    (o : SendOutcome) (now : Z) : Read :=
  let sid := stream_id f in
  match kind f with
  | Open => node_open c t slots f o
  | Data =>
      match ('(obj, st) ← node_stream t sid; st ← debit_window st (zlen (payload f)); Ok (obj, st)) with
      | Err e => read_err e t slots
      | Ok (obj, st) =>
          match node_try_send (nc_stream_buffer_frames c) st (NiData (payload f)) with
          | Some st' => read_ok (nt_update t obj st') slots
          | None =>
              match node_send (nt_update t obj st) (frame_code Close sid LimitReached) o with
              | (Ok _, t') => read_ok (node_remove_stream t' sid) slots
              | (Err e, t') => read_err e t' slots
              end
          end
      end
  | Fin =>
      match node_stream t sid with
      | Err e => read_err e t slots
      | Ok (obj, st) =>
          match node_try_send (nc_stream_buffer_frames c) st NiFin with
          | Some st' => read_ok (nt_update t obj st') slots
          | None => read_ok (node_remove_stream t sid) slots
          end
      end
  | Close =>
      let t' := match node_stream t sid with
                | Ok (obj, st) =>
                    match node_try_send (nc_stream_buffer_frames c) st NiClose with
                    | Some st' => nt_update t obj st'
                    | None => t
                    end
                | Err _ => t
                end in
      read_ok (node_remove_stream t' sid) slots
  | WindowUpdate =>
      match node_stream t sid with
      | Err e => read_err e t slots
      | Ok (obj, st) =>
          match parse_u32 f with
          | Err e => read_err e t slots
          | Ok amount =>
              let '(r, credit) := credit_add (ns_credit st) amount in
              mkRead r (nt_update t obj (ns_set_credit st credit)) slots None
          end
      end
  | Ping =>
      if negb (sid =? 0) || negb (zlen (payload f) =? 8) then
        read_err (Stable ProtocolInvalid "relay heartbeat is invalid") t slots
      else
        let '(r, t') := node_send t (mkFrame Pong 0 (payload f)) o in mkRead r t' slots None
  | Pong =>
      if negb (sid =? 0) || negb (zlen (payload f) =? 8) then
        read_err (Stable ProtocolInvalid "relay heartbeat is invalid") t slots
      else read_ok (mkNodeTunnel (nt_commands t) (nt_streams t) (nt_objects t) (nt_next t) now
                      (nt_cancel t)) slots
  | Error =>
      read_err (Stable (default Internal (from_wire (payload f))) "relay closed the tunnel") t slots
  | Register | RegisterOk | OpenOk | OpenError =>
      read_err (Stable ProtocolInvalid "frame kind is invalid in this direction") t slots
  end.

(** ** The task of one stream *)

(** The points where [pump_relay_to_target] waits: for the channel, the
    target's socket, the tunnel, and the socket's shutdown *)
Inductive ToTarget : Type :=
| TgRecv
| TgWrite (data : list byte)
| TgSend (data : list byte)
| TgShutdown
| TgDone (r : relay_result unit).

(** The points where [pump_target_to_relay] waits: for the target, credit, and
    the tunnel (for [Data] or [Fin]) *)
Inductive FromTarget : Type :=
| FtRead
| FtCredit (data : list byte)
| FtSend (data : list byte)
| FtFin
| FtDone (r : relay_result unit).

(** The points where [run_local_stream] itself waits *)
Inductive Phase : Type := LsConnect | LsRefuse | LsOpenOk | LsRunning | LsClosing | LsDone.

(** [ls_written] logs the bytes written to the target, [ls_taken] those read
    from it, [ls_sent] the payload of the [Data] frames queued. *)
Record LocalStream : Type := mkLocal {
  ls_sid : Z;
  ls_phase : Phase;
  ls_to : ToTarget;
  ls_from : FromTarget;
  ls_activity : Z;
  ls_written : list byte;
  ls_taken : list byte;
  ls_sent : list byte;
}.
Definition new_local (sid : Z) : LocalStream := mkLocal sid LsConnect TgRecv FtRead 0 [] [] [].
Definition ls_with_phase (l : LocalStream) (p : Phase) : LocalStream :=
  mkLocal (ls_sid l) p (ls_to l) (ls_from l) (ls_activity l) (ls_written l) (ls_taken l) (ls_sent l).
Definition ls_with_to (l : LocalStream) (x : ToTarget) : LocalStream :=
  mkLocal (ls_sid l) (ls_phase l) x (ls_from l) (ls_activity l) (ls_written l) (ls_taken l) (ls_sent l).
Definition ls_with_from (l : LocalStream) (x : FromTarget) : LocalStream :=
  mkLocal (ls_sid l) (ls_phase l) (ls_to l) x (ls_activity l) (ls_written l) (ls_taken l) (ls_sent l).
(** [touch_activity] *)
Definition touch_activity (l : LocalStream) (now : Z) : LocalStream :=
  mkLocal (ls_sid l) (ls_phase l) (ls_to l) (ls_from l) now (ls_written l) (ls_taken l) (ls_sent l).
Definition ls_log_written (l : LocalStream) (b : list byte) : LocalStream :=
  mkLocal (ls_sid l) (ls_phase l) (ls_to l) (ls_from l) (ls_activity l) (ls_written l ++ b) (ls_taken l)
    (ls_sent l).
Definition ls_log_taken (l : LocalStream) (b : list byte) : LocalStream :=
  mkLocal (ls_sid l) (ls_phase l) (ls_to l) (ls_from l) (ls_activity l) (ls_written l) (ls_taken l ++ b)
    (ls_sent l).
Definition ls_log_sent (l : LocalStream) (b : list byte) : LocalStream :=
  mkLocal (ls_sid l) (ls_phase l) (ls_to l) (ls_from l) (ls_activity l) (ls_written l) (ls_taken l)
    (ls_sent l ++ b).

Inductive ToEvent : Type :=
| TeCancelled
| TeReceive
| TeWritten (r : relay_result unit)
| TeSent (o : SendOutcome) (now : Z)
| TeShutdown (r : relay_result unit).

(** The pump returns, which drops its end of the channel. *)
Definition to_finish (t : NodeTunnel) (obj : Z) (st : NodeStream) (l : LocalStream) (r : relay_result unit)
    : NodeTunnel * LocalStream :=
  (nt_update t obj (ns_close st), ls_with_to l (TgDone r)).

(** [pump_relay_to_target], from one wait to the next *)
Definition to_step (t : NodeTunnel) (obj : Z) (st : NodeStream) (l : LocalStream) (e : ToEvent)
    : option (NodeTunnel * LocalStream) :=
  match ls_to l, e with
  | TgRecv, TeCancelled => if node_cancelled t st then Some (to_finish t obj st l (Ok tt)) else None
  | TgRecv, TeReceive =>
      match ns_inbound st with
      | [] => None
      | NiData data :: rest => Some (nt_update t obj (ns_set_inbound st rest), ls_with_to l (TgWrite data))
      | NiFin :: rest => Some (nt_update t obj (ns_set_inbound st rest), ls_with_to l TgShutdown)
      | NiClose :: rest => Some (to_finish t obj (ns_set_inbound st rest) l (Ok tt))
      end
  | TgWrite data, TeWritten (Err e) => Some (to_finish t obj st l (Err e))
  | TgWrite data, TeWritten (Ok _) =>
      let l := ls_log_written l data in
      match try_from u32_max (zlen data) with
      | None => Some (to_finish t obj st l (Err (Stable FrameTooLarge "payload cannot update flow window")))
      | Some amount =>
          Some (nt_update t obj (ns_set_remaining st (wrapping_add u64_max (ns_remaining st) amount)),
                ls_with_to l (TgSend data))
      end
  | TgSend data, TeSent o now =>
      match node_send t (frame_u32 WindowUpdate (ls_sid l) (zlen data)) o with
      | (Err e, t') => Some (to_finish t' obj st l (Err e))
      | (Ok _, t') => Some (t', ls_with_to (touch_activity l now) TgRecv)
      end
  | TgShutdown, TeShutdown r => Some (to_finish t obj st l r)
  | _, _ => None
  end.

Inductive FromEvent : Type :=
| FeCancelled
| FeRead (data : relay_result (list byte))
| FeCredit
| FeCreditCancelled
| FeSent (o : SendOutcome) (now : Z).

(** [pump_target_to_relay], from one wait to the next *)
Definition from_step (t : NodeTunnel) (obj : Z) (st : NodeStream) (l : LocalStream) (e : FromEvent)
    : option (NodeTunnel * LocalStream) :=
  match ls_from l, e with
  | FtRead, FeCancelled => if node_cancelled t st then Some (t, ls_with_from l (FtDone (Ok tt))) else None
  | FtRead, FeRead (Err e) => Some (t, ls_with_from l (FtDone (Err e)))
  | FtRead, FeRead (Ok []) => Some (t, ls_with_from l FtFin)
  | FtRead, FeRead (Ok data) => Some (t, ls_with_from (ls_log_taken l data) (FtCredit data))
  | FtCredit data, FeCredit =>
      match credit_try (ns_credit st) (zlen data) with
      | Some remaining => Some (nt_update t obj (ns_set_credit st remaining), ls_with_from l (FtSend data))
      | None => None
      end
  | FtCredit data, FeCreditCancelled =>
      if node_cancelled t st
      then Some (t, ls_with_from l (FtDone (Err (Stable TunnelLost "stream was cancelled")))) else None
  | FtSend data, FeSent o now =>
      match node_send t (mkFrame Data (ls_sid l) data) o with
      | (Err e, t') => Some (t', ls_with_from l (FtDone (Err e)))
      | (Ok _, t') => Some (t', ls_with_from (touch_activity (ls_log_sent l data) now) FtRead)
      end
  | FtFin, FeSent o _ =>
      let '(r, t') := node_send t (mkFrame Fin (ls_sid l) []) o in Some (t', ls_with_from l (FtDone r))
  | _, _ => None
  end.

(** One pass of [watch_local_stream] after its sleep *)
Definition watch_local_pass (c : NodeConnectorConfig) (l : LocalStream) (now : Z) : bool :=
  nc_idle_timeout_secs c * NANOS_PER_SECOND <? now - ls_activity l.

(** Whether the [select!] of [run_local_stream] can end this way *)
Inductive LocalEnd : Type := LeJoined | LeWatchdog (now : Z) | LeCancelled.
Definition local_ends (c : NodeConnectorConfig) (t : NodeTunnel) (st : NodeStream) (l : LocalStream)
    (w : LocalEnd) : bool :=
  match w with
  | LeJoined =>
      match ls_to l, ls_from l with
      | TgDone (Err _), _ | _, FtDone (Err _) => true
      | TgDone (Ok _), FtDone (Ok _) => true
      | _, _ => false
      end
  | LeWatchdog now => watch_local_pass c l now || node_cancelled t st
  | LeCancelled => node_cancelled t st
  end.

(** One pass of [run_node_heartbeat] after its sleep *)
Definition node_heartbeat_pass (c : NodeConnectorConfig) (t : NodeTunnel) (sequence now : Z)
    (o : SendOutcome) : option Z * NodeTunnel :=
  if nc_heartbeat_timeout c <? now - nt_last_pong t then (None, nt_cancelled t)
  else
    let sequence := wrapping_add u64_max sequence 1 in
    match node_send t (mkFrame Ping 0 (be_bytes 8 sequence)) o with
    | (Ok _, t') => (Some sequence, t')
    | (Err _, t') => (None, nt_cancelled t')
    end.

(** ** All tasks together *)

Record NodeLink : Type := mkNodeLink {
  nl_tunnel : NodeTunnel;
  nl_slots : Z;
  nl_tasks : gmap Z LocalStream;
  nl_ping : Z;
  nl_closed : option (relay_result unit);
}.

Inductive NodeEvent : Type :=
| NeFrame (f : Frame) (o : SendOutcome) (now : Z)
| NeReaderFails (e : RelayError)
| NeReaderCancelled
| NeConnect (obj : Z) (connected : bool)
| NeRefused (obj : Z) (o : SendOutcome)
| NeOpenOk (obj : Z) (nodelay : bool) (o : SendOutcome) (now : Z)
| NeTo (obj : Z) (e : ToEvent)
| NeFrom (obj : Z) (e : FromEvent)
| NeEnd (obj : Z) (w : LocalEnd)
| NeClosed (obj : Z) (o : SendOutcome)
| NeHeartbeat (now : Z) (o : SendOutcome)
| NeCancel.

Definition nl_end_reader (l : NodeLink) (t : NodeTunnel) (r : relay_result unit) : NodeLink :=
  mkNodeLink (node_finish t) (nl_slots l) (nl_tasks l) (nl_ping l) (Some r).

(** The reader handles one frame; an error ends it, and with it the tunnel. *)
Definition node_frame_step (c : NodeConnectorConfig) (l : NodeLink) (f : Frame) (o : SendOutcome) (now : Z)
    : NodeLink :=
  let rd := node_handle_frame c (nl_tunnel l) (nl_slots l) f o now in
  let tasks := match rd_spawned rd with
               | Some obj => <[obj := new_local (stream_id f)]> (nl_tasks l)
               | None => nl_tasks l
               end in
  let l' := mkNodeLink (rd_tunnel rd) (rd_slots rd) tasks (nl_ping l) (nl_closed l) in
  match rd_result rd with
  | Ok _ => l'
  | Err e => nl_end_reader l' (rd_tunnel rd) (Err e)
  end.

Definition nl_with_task (l : NodeLink) (obj : Z) (tl : NodeTunnel * LocalStream) : NodeLink :=
  mkNodeLink tl.1 (nl_slots l) (<[obj := tl.2]> (nl_tasks l)) (nl_ping l) (nl_closed l).
(** The task returns and gives its slot back. *)
Definition nl_task_done (l : NodeLink) (obj : Z) (t : NodeTunnel) (ls : LocalStream) : NodeLink :=
  mkNodeLink t (nl_slots l + 1) (<[obj := ls_with_phase ls LsDone]> (nl_tasks l)) (nl_ping l)
    (nl_closed l).

(** A task and its stream *)
Definition nl_task (l : NodeLink) (obj : Z) : option (LocalStream * NodeStream) :=
  ls ← nl_tasks l !! obj;
  st ← nt_objects (nl_tunnel l) !! obj;
  Some (ls, st).

Definition node_step (c : NodeConnectorConfig) (l : NodeLink) (e : NodeEvent) : option NodeLink :=
  let t := nl_tunnel l in
  match e with
  | NeFrame f o now =>
      if bool_decide (nl_closed l = None) && (zlen (payload f) <=? nc_max_frame_bytes c)
         && (0 <=? stream_id f) && (stream_id f <=? u64_max)
      then Some (node_frame_step c l f o now) else None
  | NeReaderFails err =>
      if bool_decide (nl_closed l = None) then Some (nl_end_reader l t (Err err)) else None
  | NeReaderCancelled =>
      if bool_decide (nl_closed l = None) && nt_cancel t then Some (nl_end_reader l t (Ok tt)) else None
  | NeConnect obj connected =>
      '(ls, st) ← nl_task l obj;
      match ls_phase ls with
      | LsConnect =>
          Some (nl_with_task l obj (t, ls_with_phase ls (if connected then LsOpenOk else LsRefuse)))
      | _ => None
      end
  | NeRefused obj o =>
      '(ls, st) ← nl_task l obj;
      match ls_phase ls with
      | LsRefuse =>
          let t' := (node_send t (frame_code OpenError (ls_sid ls) RouteUnavailable) o).2 in
          Some (nl_task_done l obj (node_remove_stream t' (ls_sid ls)) ls)
      | _ => None
      end
  | NeOpenOk obj nodelay o now =>
      '(ls, st) ← nl_task l obj;
      match ls_phase ls with
      | LsOpenOk =>
          if nodelay then
            match node_send t (frame_u32 OpenOk (ls_sid ls) (nc_initial_window_bytes c)) o with
            | (Ok _, t') => Some (nl_with_task l obj (t', ls_with_phase (touch_activity ls now) LsRunning))
            | (Err _, t') => Some (nl_task_done l obj (node_remove_stream t' (ls_sid ls)) ls)
            end
          else Some (nl_task_done l obj (node_remove_stream t (ls_sid ls)) ls)
      | _ => None
      end
  | NeTo obj ev =>
      '(ls, st) ← nl_task l obj;
      match ls_phase ls with
      | LsRunning => nl_with_task l obj <$> to_step t obj st ls ev
      | _ => None
      end
  | NeFrom obj ev =>
      '(ls, st) ← nl_task l obj;
      match ls_phase ls, ev with
      | LsRunning, FeRead (Ok data) =>
          if zlen data <=? nc_max_frame_bytes c
          then nl_with_task l obj <$> from_step t obj st ls ev else None
      | LsRunning, _ => nl_with_task l obj <$> from_step t obj st ls ev
      | _, _ => None
      end
  | NeEnd obj w =>
      '(ls, st) ← nl_task l obj;
      match ls_phase ls with
      | LsRunning =>
          if local_ends c t st ls w then
            Some (nl_with_task l obj
                    (node_remove_stream (nt_update t obj (ns_cancelled st)) (ls_sid ls),
                     ls_with_phase ls LsClosing))
          else None
      | _ => None
      end
  | NeClosed obj o =>
      '(ls, st) ← nl_task l obj;
      match ls_phase ls with
      | LsClosing =>
          let t' := (node_send t (frame_code Close (ls_sid ls) TunnelLost) o).2 in
          Some (nl_task_done l obj (nt_update t' obj (ns_close st)) ls)
      | _ => None
      end
  | NeHeartbeat now o =>
      let '(seq, t') := node_heartbeat_pass c t (nl_ping l) now o in
      Some (mkNodeLink t' (nl_slots l) (nl_tasks l) (default (nl_ping l) seq) (nl_closed l))
  | NeCancel => Some (mkNodeLink (nt_cancelled t) (nl_slots l) (nl_tasks l) (nl_ping l) (nl_closed l))
  end.

Fixpoint node_run (c : NodeConnectorConfig) (l : NodeLink) (es : list NodeEvent) : option NodeLink :=
  match es with
  | [] => Some l
  | e :: es' => l' ← node_step c l e; node_run c l' es'
  end.

(** The start of [serve_node_tunnel] *)
Definition fresh_node (c : NodeConnectorConfig) (now : Z) : NodeLink :=
  mkNodeLink (mkNodeTunnel [] ∅ ∅ 0 now false) (max_streams c) ∅ 0 None.
