(* ===== verification/NodeFacts.v ===== *)
(** * What holds of every run of the node's end

    The invariant of [NodeTunnel], against the frames [fs] the relay sent:
    the target gets a prefix of what they carry, the relay gets a prefix of
    what the target sent, neither direction exceeds the credit announced by
    the other end, and the window the node announced is there when it is used.
    Streams are opened under distinct identifiers, as the relay does. *)
From S2P Require Import Prelude Clock RelayError RelayConfig RelayFrame RelayFlow RelayTunnel RelayLink.
From S2P Require Import RelayLinkFacts RelayLinkLogs RelayStreams NodeConnector NodeTunnel.

(** ** The invariant *)

(** The window a frame gives to its receiver *)
Definition announces (f : Frame) : Z :=
  match kind f, parse_u32 f with
  | (Open | OpenOk | WindowUpdate), Ok n => n
  | _, _ => 0
  end.
Definition announced (sid : Z) (fs : list Frame) : Z :=
  foldr Z.add 0 ((fun f => if stream_id f =? sid then announces f else 0) <$> fs).

Definition node_queue (q : list NodeInbound) : list byte :=
  concat ((fun i => match i with NiData b => b | _ => [] end) <$> q).
Definition to_pending (x : ToTarget) : list byte := match x with TgWrite data => data | _ => [] end.
Definition to_announcing (x : ToTarget) : Z := match x with TgSend data => zlen data | _ => 0 end.
Definition from_pending (x : FromTarget) : list byte :=
  match x with FtCredit data | FtSend data => data | _ => [] end.
Definition from_credit (x : FromTarget) : Z := match x with FtSend data => zlen data | _ => 0 end.
(** The window a task has in hand but not announced yet *)
Definition unannounced (c : NodeConnectorConfig) (ls : LocalStream) : Z :=
  match ls_phase ls with LsConnect | LsOpenOk => nc_initial_window_bytes c | _ => 0 end
  + to_announcing (ls_to ls).

(** What the target got, at the point [x], of the payload [inl] *)
Definition to_ok (x : ToTarget) (written : list byte) (q : list NodeInbound) (inl : list byte) : Prop :=
  match x with
  | TgDone _ => written `prefix_of` inl
  | x => inl = written ++ to_pending x ++ node_queue q
  end.
Definition from_ok (x : FromTarget) (sent taken : list byte) : Prop :=
  match x with
  | FtDone _ => sent `prefix_of` taken
  | x => taken = sent ++ from_pending x
  end.

(** The part of a stream that flow control is about *)
Record NCore : Type := mkNCore {
  k_inbound : list NodeInbound;
  k_remaining : Z;
  k_credit : Z;
}.
Definition ncore (st : NodeStream) : NCore := mkNCore (ns_inbound st) (ns_remaining st) (ns_credit st).

(** [live]: the stream is in the table of a tunnel whose reader runs. *)
Record task_inv (c : NodeConnectorConfig) (k : NCore) (ls : LocalStream) (live : Prop)
    (fs cmds : list Frame) : Prop := {
  ti_nonneg : 0 <= k_remaining k /\ 0 <= k_credit k;
  ti_in : exists inl, inl `prefix_of` data_on (ls_sid ls) fs /\
    (live -> inl = data_on (ls_sid ls) fs) /\ to_ok (ls_to ls) (ls_written ls) (k_inbound k) inl;
  ti_from : from_ok (ls_from ls) (ls_sent ls) (ls_taken ls);
  ti_out : data_on (ls_sid ls) cmds = ls_sent ls;
  ti_credit : zlen (ls_sent ls) + from_credit (ls_from ls) + k_credit k <= announced (ls_sid ls) fs;
  ti_window : announced (ls_sid ls) cmds + unannounced c ls
    <= k_remaining k + zlen (data_on (ls_sid ls) fs);
  ti_bound : k_remaining k + zlen (node_queue (k_inbound k)) + zlen (to_pending (ls_to ls))
    <= nc_initial_window_bytes c;
  ti_announcing : to_announcing (ls_to ls) <= nc_initial_window_bytes c;
}.

Definition is_live (l : NodeLink) (sid obj : Z) : Prop :=
  nl_closed l = None /\ nt_streams (nl_tunnel l) !! sid = Some obj.

Record node_inv (c : NodeConnectorConfig) (l : NodeLink) (fs : list Frame) : Prop := {
  ni_tasks : forall obj ls, nl_tasks l !! obj = Some ls ->
    exists st, nt_objects (nl_tunnel l) !! obj = Some st /\
      task_inv c (ncore st) ls (is_live l (ls_sid ls) obj) fs (nt_commands (nl_tunnel l));
  ni_table : forall sid obj, nt_streams (nl_tunnel l) !! sid = Some obj ->
    exists ls, nl_tasks l !! obj = Some ls /\ ls_sid ls = sid;
  ni_ids : forall obj ls, nl_tasks l !! obj = Some ls ->
    obj < nt_next (nl_tunnel l) /\ ls_sid ls <> 0 /\ ls_sid ls ∈ opened_ids fs;
  ni_inj : forall obj1 obj2 ls1 ls2, nl_tasks l !! obj1 = Some ls1 -> nl_tasks l !! obj2 = Some ls2 ->
    ls_sid ls1 = ls_sid ls2 -> obj1 = obj2;
  ni_cmds : Forall (fun f => stream_id f = 0 \/ stream_id f ∈ opened_ids fs) (nt_commands (nl_tunnel l));
  ni_quiet : nl_closed l = None -> forall sid, sid ∉ opened_ids fs -> data_on sid fs = [];
  ni_data : forall sid, sid <> 0 -> data_on sid (nt_commands (nl_tunnel l)) = [] \/
    exists obj ls, nl_tasks l !! obj = Some ls /\ ls_sid ls = sid;
}.

(** ** Windows and frames *)

Lemma announced_app sid fs gs : announced sid (fs ++ gs) = announced sid fs + announced sid gs.
Proof. unfold announced. by rewrite fmap_app, foldr_add_app. Qed.

Lemma announces_nonneg f : 0 <= announces f.
Proof.
  unfold announces. destruct (kind f); try lia;
    (destruct (parse_u32 f) eqn:E; [apply parse_u32_range in E|]; lia).
Qed.

Lemma announced_nonneg sid fs : 0 <= announced sid fs.
Proof.
  unfold announced. induction fs as [|f fs IH]; [done|]. rewrite fmap_cons. cbn [foldr].
  pose proof (announces_nonneg f). destruct (stream_id f =? sid); lia.
Qed.

Lemma announced_one sid f : announced sid [f] = if stream_id f =? sid then announces f else 0.
Proof. unfold announced; simpl. lia. Qed.

Lemma announced_other sid fs :
  Forall (fun f => stream_id f <> sid) fs -> announced sid fs = 0 /\ data_on sid fs = [].
Proof.
  induction 1 as [|f fs Hf _ [IH1 IH2]]; [done|]. change (f :: fs) with ([f] ++ fs).
  rewrite announced_app, data_on_app, IH1, IH2, announced_one, data_on_other by congruence.
  by rewrite (proj2 (Z.eqb_neq _ _)).
Qed.

Lemma announces_u32 k sid n :
  k = OpenOk \/ k = WindowUpdate -> is_u32 n -> announces (frame_u32 k sid n) = n.
Proof. intros Hk Hn. unfold announces. rewrite parse_u32_frame by done. by destruct Hk as [-> | ->]. Qed.

Lemma node_queue_app q m :
  node_queue (q ++ [m]) = node_queue q ++ match m with NiData b => b | _ => [] end.
Proof. unfold node_queue. rewrite fmap_app, concat_app. simpl. by rewrite app_nil_r. Qed.

(** The invariant of a task that nothing touched: fewer streams are live, and
    no frame concerns its stream. *)
Lemma task_inv_frame c k ls (live live' : Prop) fs cmds fs' cmds' :
  task_inv c k ls live fs cmds -> (live' -> live) ->
  data_on (ls_sid ls) fs' = [] -> announced (ls_sid ls) fs' = 0 ->
  data_on (ls_sid ls) cmds' = [] -> announced (ls_sid ls) cmds' = 0 ->
  task_inv c k ls live' (fs ++ fs') (cmds ++ cmds').
Proof.
  intros [T0 (inl & Hp & Hl & Hm) T2 T3 T4 T5 T6 T7] Hlive D1 A1 D2 A2.
  constructor; [done| |done|..]; rewrite ?data_on_app, ?announced_app, ?D1, ?D2, ?A1, ?A2, ?app_nil_r;
    try done; try lia.
  exists inl. split; [done|]. split; [|done]. auto.
Qed.

(** ** Steps of a task *)

(** Two tunnels that differ, for stream object [obj], in its flags at most *)
Definition same_ncore (t t' : NodeTunnel) (obj : Z) : Prop :=
  ncore <$> nt_objects t' !! obj = ncore <$> nt_objects t !! obj.

Lemma node_alter_core t obj obj' :
  ncore <$> alter ns_cancelled obj (nt_objects t) !! obj' = ncore <$> nt_objects t !! obj'.
Proof.
  rewrite lookup_alter. case_decide; [|done]. subst. by destruct (nt_objects t !! obj').
Qed.

Lemma node_remove_core t sid obj : same_ncore t (node_remove_stream t sid) obj.
Proof. unfold same_ncore, node_remove_stream. case_match; [|done]. apply node_alter_core. Qed.

Lemma node_remove_streams t sid sid' obj :
  nt_streams (node_remove_stream t sid) !! sid' = Some obj ->
  nt_streams t !! sid' = Some obj /\ sid' <> sid.
Proof.
  unfold node_remove_stream. destruct (nt_streams t !! sid) eqn:E; simpl.
  - rewrite lookup_delete_Some. intros [? ?]. done.
  - intros H. split; [done|]. congruence.
Qed.

Lemma node_remove_commands t sid :
  nt_commands (node_remove_stream t sid) = nt_commands t /\
  nt_next (node_remove_stream t sid) = nt_next t.
Proof. unfold node_remove_stream. by case_match. Qed.

Lemma node_finish_core t obj : same_ncore t (node_finish t) obj.
Proof.
  unfold same_ncore, node_finish, cancel_all; simpl. rewrite map_lookup_imap.
  destruct (nt_objects t !! obj); simpl; [|done]. by case_match.
Qed.

Lemma node_send_cases t f o res t' :
  node_send t f o = (res, t') -> (res = Ok tt /\ t' = nt_push t f) \/ (is_ok res = false /\ t' = t).
Proof. unfold node_send. destruct o; intros; simplify_eq/=; auto. Qed.

(** A step of one task: its own part changes, the others see at most flags,
    fewer streams and frames that are not theirs. *)
Lemma node_inv_task c l fs obj ls ls' t' slots' extra :
  node_inv c l fs -> nl_tasks l !! obj = Some ls -> ls_sid ls' = ls_sid ls ->
  (forall obj', obj' <> obj -> same_ncore (nl_tunnel l) t' obj') ->
  (forall sid o, nt_streams t' !! sid = Some o -> nt_streams (nl_tunnel l) !! sid = Some o) ->
  nt_next t' = nt_next (nl_tunnel l) ->
  nt_commands t' = nt_commands (nl_tunnel l) ++ extra ->
  Forall (fun f => stream_id f = ls_sid ls) extra ->
  (exists st', nt_objects t' !! obj = Some st' /\
    task_inv c (ncore st') ls' (nl_closed l = None /\ nt_streams t' !! ls_sid ls = Some obj) fs
      (nt_commands (nl_tunnel l) ++ extra)) ->
  node_inv c (mkNodeLink t' slots' (<[obj := ls']> (nl_tasks l)) (nl_ping l) (nl_closed l)) fs.
Proof.
  intros [It Ib Ii Ij Ic Iq Id] Hls Hsid Hother Hst Hnext Hcmd Hex (st' & Hst' & Hown).
  split; simpl.
  - intros obj' ls1 H. destruct (decide (obj' = obj)) as [->|Hne].
    { rewrite lookup_insert_eq in H. simplify_eq. exists st'. split; [done|].
      rewrite Hcmd, Hsid. done. }
    rewrite lookup_insert_ne in H by done. destruct (It _ _ H) as (st & Hs & Htask).
    specialize (Hother obj' Hne). unfold same_ncore in Hother. rewrite Hs in Hother. simpl in Hother.
    destruct (nt_objects t' !! obj') as [st2|] eqn:E2; [|done]. simpl in Hother.
    apply (inj Some) in Hother as Hk. exists st2. split; [done|]. rewrite Hk, Hcmd.
    assert (ls_sid ls1 <> ls_sid ls) as Hd by (intros Heq; by apply Hne, (Ij obj' obj ls1 ls)).
    destruct (announced_other (ls_sid ls1) extra) as [A1 A2];
      [eapply Forall_impl; [exact Hex|]; simpl; congruence|].
    rewrite <- (app_nil_r fs). apply (task_inv_frame _ _ _ _ _ _ _ _ _ Htask); try done.
    intros [Hcl Hlive]. split; [done|]. by apply Hst.
  - intros sid o H. destruct (Ib _ _ (Hst _ _ H)) as (ls1 & H1 & H2).
    destruct (decide (o = obj)) as [->|Hne]; [|exists ls1; by rewrite lookup_insert_ne].
    exists ls'. rewrite lookup_insert_eq. split; [done|]. congruence.
  - intros obj' ls1 H. rewrite Hnext. destruct (decide (obj' = obj)) as [->|Hne].
    + rewrite lookup_insert_eq in H. simplify_eq. rewrite Hsid. by apply Ii.
    + rewrite lookup_insert_ne in H by done. by apply Ii.
  - intros o1 o2 l1 l2 H1 H2 Heq.
    destruct (decide (o1 = obj)) as [->|N1], (decide (o2 = obj)) as [->|N2];
      rewrite ?lookup_insert_eq in H1; rewrite ?lookup_insert_eq in H2;
      rewrite ?lookup_insert_ne in H1 by done; rewrite ?lookup_insert_ne in H2 by done; simplify_eq;
      [done|by apply (Ij obj o2 ls l2); [done..|congruence]|
       by apply (Ij o1 obj l1 ls); [done..|congruence]|by apply (Ij o1 o2 l1 l2)].
  - rewrite Hcmd. apply Forall_app. split; [done|]. eapply Forall_impl; [exact Hex|].
    intros f ->. right. by apply (Ii obj ls).
  - done.
  - intros sid Hz. destruct (decide (sid = ls_sid ls)) as [->|Hne].
    { right. exists obj, ls'. by rewrite lookup_insert_eq. }
    rewrite Hcmd, data_on_app. destruct (announced_other sid extra) as [_ ->];
      [eapply Forall_impl; [exact Hex|]; simpl; congruence|]. rewrite app_nil_r.
    destruct (Id sid Hz) as [?|(obj1 & ls1 & H1 & H2)]; [by left|right]. exists obj1, ls1.
    rewrite lookup_insert_ne; [done|]. congruence.
Qed.

Lemma to_ok_done x written q inl r : to_ok x written q inl -> to_ok (TgDone r) written q inl.
Proof. destruct x; simpl; try done; intros ->; by apply prefix_app_r. Qed.

Lemma from_ok_done x sent taken r : from_ok x sent taken -> from_ok (FtDone r) sent taken.
Proof. destruct x; simpl; try done; intros ->; by apply prefix_app_r. Qed.

Section Steps.
Context (c : NodeConnectorConfig).
Hypothesis Hw : 0 <= nc_initial_window_bytes c <= u32_max.

(** A step of the pump to the target *)
Lemma to_change k k' ls ls' live fs cmds extra :
  task_inv c k ls live fs cmds -> k_credit k' = k_credit k -> 0 <= k_remaining k' ->
  ls_sid ls' = ls_sid ls -> ls_from ls' = ls_from ls -> ls_sent ls' = ls_sent ls ->
  ls_taken ls' = ls_taken ls -> data_on (ls_sid ls) extra = [] ->
  (forall inl, to_ok (ls_to ls) (ls_written ls) (k_inbound k) inl ->
     to_ok (ls_to ls') (ls_written ls') (k_inbound k') inl) ->
  announced (ls_sid ls) extra + unannounced c ls' - unannounced c ls <= k_remaining k' - k_remaining k ->
  k_remaining k' + zlen (node_queue (k_inbound k')) + zlen (to_pending (ls_to ls'))
    <= nc_initial_window_bytes c ->
  to_announcing (ls_to ls') <= nc_initial_window_bytes c ->
  task_inv c k' ls' live fs (cmds ++ extra).
Proof.
  intros [[T0 T0'] (inl & Hp & Hl & Hm) T2 T3 T4 T5 T6 T7] Hk Hr Hsid Hf Hs Ht Hd Hin Hann Hb Ha.
  constructor; rewrite ?Hsid, ?Hf, ?Hs, ?Ht, ?Hk, ?data_on_app, ?announced_app; try done; try lia.
  - exists inl. split; [done|]. split; [done|]. by apply Hin.
  - by rewrite T3, Hd, app_nil_r.
Qed.

(** A step of the pump from the target *)
Lemma from_change k k' ls ls' live fs cmds extra :
  task_inv c k ls live fs cmds -> k_inbound k' = k_inbound k -> k_remaining k' = k_remaining k ->
  0 <= k_credit k' -> ls_sid ls' = ls_sid ls -> ls_to ls' = ls_to ls -> ls_written ls' = ls_written ls ->
  ls_phase ls' = ls_phase ls -> announced (ls_sid ls) extra = 0 ->
  ls_sent ls' = ls_sent ls ++ data_on (ls_sid ls) extra ->
  from_ok (ls_from ls') (ls_sent ls') (ls_taken ls') ->
  zlen (ls_sent ls') + from_credit (ls_from ls') + k_credit k'
    <= zlen (ls_sent ls) + from_credit (ls_from ls) + k_credit k ->
  task_inv c k' ls' live fs (cmds ++ extra).
Proof.
  intros [[T0 T0'] T1 T2 T3 T4 T5 T6 T7] Hi Hr Hc Hsid Hto Hwr Hph Hann Hsent Hfrom Hcr.
  constructor; rewrite ?Hsid, ?Hto, ?Hwr, ?Hi, ?Hr, ?data_on_app, ?announced_app, ?Hann; try done; try lia.
  - by rewrite T3.
  - unfold unannounced in *. rewrite Hto, Hph. lia.
Qed.

(** A task and its part of the invariant *)
Lemma task_of l fs obj ls st :
  node_inv c l fs -> nl_task l obj = Some (ls, st) ->
  nl_tasks l !! obj = Some ls /\ nt_objects (nl_tunnel l) !! obj = Some st /\
  task_inv c (ncore st) ls (is_live l (ls_sid ls) obj) fs (nt_commands (nl_tunnel l)).
Proof.
  intros Hl. unfold nl_task. intros H. apply bind_Some in H as (ls1 & H1 & H).
  apply bind_Some in H as (st1 & H2 & H). simplify_eq.
  destruct (ni_tasks _ _ _ Hl _ _ H1) as (st' & H3 & ?). simplify_eq. done.
Qed.

(** The task leaves the tunnel alone but for its own stream. *)
Lemma node_inv_update l fs obj ls ls' st' extra :
  node_inv c l fs -> nl_tasks l !! obj = Some ls -> ls_sid ls' = ls_sid ls ->
  Forall (fun f => stream_id f = ls_sid ls) extra ->
  task_inv c (ncore st') ls' (is_live l (ls_sid ls) obj) fs (nt_commands (nl_tunnel l) ++ extra) ->
  forall t', nt_objects t' = <[obj := st']> (nt_objects (nl_tunnel l)) ->
  nt_streams t' = nt_streams (nl_tunnel l) -> nt_next t' = nt_next (nl_tunnel l) ->
  nt_commands t' = nt_commands (nl_tunnel l) ++ extra ->
  node_inv c (nl_with_task l obj (t', ls')) fs.
Proof.
  intros Hl Hls Hsid Hex Ht t' Ho Hst Hn Hc.
  apply (node_inv_task c l fs obj ls ls' t' (nl_slots l) extra); try done.
  - intros obj' Hne. unfold same_ncore. rewrite Ho. by rewrite lookup_insert_ne.
  - intros sid o. by rewrite Hst.
  - exists st'. split; [rewrite Ho; apply lookup_insert_eq|]. by rewrite Hst.
Qed.

Lemma heap_same l obj st :
  nt_objects (nl_tunnel l) !! obj = Some st ->
  nt_objects (nl_tunnel l) = <[obj := st]> (nt_objects (nl_tunnel l)).
Proof. intros H. by rewrite insert_id. Qed.

Ltac to_goal Hinv :=
  eapply to_change; [exact Hinv|..]; simpl; try done;
  repeat change (announced _ []) with 0; repeat change (zlen (@nil byte)) with 0; try lia.

Lemma to_step_inv l fs obj ls st e tl :
  node_inv c l fs -> nl_task l obj = Some (ls, st) ->
  to_step (nl_tunnel l) obj st ls e = Some tl -> node_inv c (nl_with_task l obj tl) fs.
Proof.
  intros Hl Htask Hstep. destruct (task_of _ _ _ _ _ Hl Htask) as (Hls & Hst & Hinv).
  pose proof (heap_same _ _ _ Hst) as Hheap.
  assert (forall res, node_inv c (nl_with_task l obj (to_finish (nl_tunnel l) obj st ls res)) fs) as Hdone.
  { intros res. eapply (node_inv_update l fs obj ls _ (ns_close st) []); try done;
      [|simpl; by rewrite app_nil_r].
    pose proof Hinv as [[T0 _] _ _ _ _ _ T6 _]. pose proof (zlen_nonneg (to_pending (ls_to ls))).
    to_goal Hinv.
    - intros inl. apply (to_ok_done _ _ _ _ res).
    - unfold unannounced; simpl. destruct (ls_to ls); simpl; try lia. pose proof (zlen_nonneg data). lia.
    - simpl in T6. lia. }
  pose proof Hinv as [[T0 T0'] _ _ _ _ _ T6 T7]. unfold to_step in Hstep. simpl in T0, T0', T6.
  destruct (ls_to ls) as [|data|data| |r] eqn:Eto, e as [| | [u|err] |o now|r2]; simplify_eq; try apply Hdone.
  - case_match; simplify_eq. apply Hdone.
  - destruct (ns_inbound st) as [|i q] eqn:Eq; [done|]. change (zlen (to_pending TgRecv)) with 0 in T6.
    assert (node_queue (i :: q) = match i with NiData b => b | _ => [] end ++ node_queue q) as Hq by done.
    rewrite Hq, zlen_app in T6.
    destruct i as [data| |]; simplify_eq.
    + eapply (node_inv_update l fs obj ls _ (ns_set_inbound st q) []); try done;
        [|simpl; by rewrite app_nil_r].
      to_goal Hinv; rewrite ?Eto; simpl; try lia.
      * intros inl ->. by rewrite Eq, Hq.
      * unfold unannounced; simpl. rewrite Eto. simpl. lia.
    + eapply (node_inv_update l fs obj ls _ (ns_set_inbound st q) []); try done;
        [|simpl; by rewrite app_nil_r].
      to_goal Hinv; rewrite ?Eto; simpl; try lia.
      * intros inl ->. by rewrite Eq, Hq.
      * unfold unannounced; simpl. rewrite Eto. simpl. lia.
    + eapply (node_inv_update l fs obj ls _ (ns_close (ns_set_inbound st q)) []); try done;
        [|simpl; by rewrite app_nil_r].
      to_goal Hinv; rewrite ?Eto; simpl; try lia.
      * intros inl ->. by apply prefix_app_r.
      * unfold unannounced; simpl. rewrite Eto. simpl. lia.
  - assert (zlen data <= nc_initial_window_bytes c) as Hlen
      by (pose proof (zlen_nonneg (node_queue (ns_inbound st))); simpl in T6; lia).
    unfold try_from in Hstep. pose proof (zlen_nonneg data).
    pose proof (zlen_nonneg (node_queue (ns_inbound st))).
    rewrite (proj2 (Z.leb_le 0 _)), (proj2 (Z.leb_le _ u32_max)) in Hstep by lia. simplify_eq/=.
    unfold wrapping_add. rewrite Z.mod_small by ulia.
    eapply (node_inv_update l fs obj ls _ (ns_set_remaining st (ns_remaining st + zlen data)) []);
      try done; [|simpl; by rewrite app_nil_r].
    to_goal Hinv; rewrite ?Eto; simpl; try lia.
    + intros inl ->. by rewrite app_assoc.
    + unfold unannounced; simpl. rewrite Eto. simpl. lia.
  - destruct (node_send _ _ _) as [r t2] eqn:Es.
    apply node_send_cases in Es as [[-> ->]|[Hf ->]]; [|destruct r; [done|]; simplify_eq; apply Hdone].
    simplify_eq.
    eapply (node_inv_update l fs obj ls _ st [frame_u32 WindowUpdate (ls_sid ls) (zlen data)]); try done.
    { by apply Forall_singleton. }
    simpl in T7.
    to_goal Hinv; rewrite ?Eto; simpl; try lia; [done|].
    rewrite announced_one, announces_u32; [|by right|split; [apply zlen_nonneg|lia]].
    cbn [stream_id frame_u32]. rewrite Z.eqb_refl. unfold unannounced; simpl. rewrite Eto. simpl. lia.
Qed.
Ltac from_goal Hinv :=
  eapply from_change; [exact Hinv|..]; simpl; try done; rewrite ?app_nil_r; try done; try lia.

Lemma from_step_inv l fs obj ls st e tl :
  node_inv c l fs -> nl_task l obj = Some (ls, st) ->
  from_step (nl_tunnel l) obj st ls e = Some tl -> node_inv c (nl_with_task l obj tl) fs.
Proof.
  intros Hl Htask Hstep. destruct (task_of _ _ _ _ _ Hl Htask) as (Hls & Hst & Hinv).
  pose proof (heap_same _ _ _ Hst) as Hheap.
  pose proof Hinv as [[T0 T0'] _ Hfrom _ _ _ _ _]. simpl in T0'.
  assert (forall res, node_inv c (nl_with_task l obj (nl_tunnel l, ls_with_from ls (FtDone res))) fs)
    as Hdone.
  { intros res. eapply (node_inv_update l fs obj ls _ st []); try done; [|simpl; by rewrite app_nil_r].
    from_goal Hinv.
    - by apply (from_ok_done (ls_from ls) _ _ res).
    - destruct (ls_from ls); simpl; try lia. pose proof (zlen_nonneg data). lia. }
  unfold from_step in Hstep.
  destruct (ls_from ls) as [|data|data| |r] eqn:Efr, e as [| [[|b data']|err] | | |o now];
    simplify_eq; try apply Hdone.
  - case_match; simplify_eq. apply Hdone.
  - eapply (node_inv_update l fs obj ls _ st []); try done; [|simpl; by rewrite app_nil_r].
    from_goal Hinv. by rewrite Efr.
  - eapply (node_inv_update l fs obj ls _ st []); try done; [|simpl; by rewrite app_nil_r].
    from_goal Hinv; [|by rewrite Efr]. simpl in Hfrom. by rewrite Hfrom, app_nil_r.
  - unfold credit_try in Hstep. case_match eqn:Hle; simplify_eq. bool_props.
    case_match; simplify_eq. bool_props.
    eapply (node_inv_update l fs obj ls _ (ns_set_credit st (ns_credit st - zlen data)) []); try done;
      [|simpl; by rewrite app_nil_r].
    from_goal Hinv. rewrite Efr. simpl. lia.
  - case_match; simplify_eq. apply Hdone.
  - destruct (node_send _ _ _) as [r t2] eqn:Es.
    apply node_send_cases in Es as [[-> ->]|[Hf ->]]; [|destruct r; [done|]; simplify_eq; apply Hdone].
    simplify_eq.
    eapply (node_inv_update l fs obj ls _ st [mkFrame Data (ls_sid ls) data]); try done.
    { by apply Forall_singleton. }
    from_goal Hinv.
    + rewrite announced_one. by case_match.
    + by rewrite data_on_data.
    + rewrite Efr, zlen_app. simpl. lia.
  - destruct (node_send _ _ _) as [r t2] eqn:Es. simplify_eq.
    apply node_send_cases in Es as [[-> ->]|[Hf ->]]; [|apply Hdone].
    eapply (node_inv_update l fs obj ls _ st [mkFrame Fin (ls_sid ls) []]); try done.
    { by apply Forall_singleton. }
    from_goal Hinv.
    + rewrite announced_one. by case_match.
    + simpl in Hfrom. rewrite Hfrom. by apply prefix_app_r.
    + rewrite Efr. simpl. lia.
Qed.

(** ** Steps of [run_local_stream] itself *)

(** The task moves on to another point and queues at most one frame. *)
Lemma phase_change k ls ls' (live live' : Prop) fs cmds extra :
  task_inv c k ls live fs cmds -> (live' -> live) -> ls_sid ls' = ls_sid ls -> ls_to ls' = ls_to ls ->
  ls_from ls' = ls_from ls -> ls_written ls' = ls_written ls -> ls_taken ls' = ls_taken ls ->
  ls_sent ls' = ls_sent ls -> data_on (ls_sid ls) extra = [] ->
  announced (ls_sid ls) extra + unannounced c ls' <= unannounced c ls ->
  task_inv c k ls' live' fs (cmds ++ extra).
Proof.
  intros [T0 (inl & Hp & Hl & Hm) T2 T3 T4 T5 T6 T7] Hlive Hsid Hto Hfr Hwr Htk Hse Hd Ha.
  constructor; rewrite ?Hsid, ?Hto, ?Hfr, ?Hwr, ?Htk, ?Hse, ?data_on_app, ?announced_app; try done; [..|lia].
  - exists inl. split; [done|]. split; [|done]. auto.
  - by rewrite Hd, app_nil_r.
Qed.

Lemma node_inv_phase l fs obj ls st ls' t' slots' extra :
  node_inv c l fs -> nl_task l obj = Some (ls, st) ->
  ls_sid ls' = ls_sid ls -> ls_to ls' = ls_to ls -> ls_from ls' = ls_from ls ->
  ls_written ls' = ls_written ls -> ls_taken ls' = ls_taken ls -> ls_sent ls' = ls_sent ls ->
  (forall obj', same_ncore (nl_tunnel l) t' obj') ->
  (forall sid o, nt_streams t' !! sid = Some o -> nt_streams (nl_tunnel l) !! sid = Some o) ->
  nt_next t' = nt_next (nl_tunnel l) -> nt_commands t' = nt_commands (nl_tunnel l) ++ extra ->
  Forall (fun f => stream_id f = ls_sid ls /\ kind f <> Data) extra ->
  announced (ls_sid ls) extra + unannounced c ls' <= unannounced c ls ->
  node_inv c (mkNodeLink t' slots' (<[obj := ls']> (nl_tasks l)) (nl_ping l) (nl_closed l)) fs.
Proof.
  intros Hl Htask Hsid Hto Hfr Hwr Htk Hse Hcore Hst Hn Hc Hex Ha.
  destruct (task_of _ _ _ _ _ Hl Htask) as (Hls & Hobj & Hinv).
  eapply (node_inv_task c l fs obj ls); try done.
  - eapply Forall_impl; [exact Hex|]. by intros f [? _].
  - specialize (Hcore obj). unfold same_ncore in Hcore. rewrite Hobj in Hcore. simpl in Hcore.
    destruct (nt_objects t' !! obj) as [st'|] eqn:E; [|done]. simpl in Hcore.
    apply (inj Some) in Hcore. exists st'. split; [done|]. rewrite Hcore.
    eapply phase_change; [exact Hinv|..]; try done.
    + intros [? H]. split; [done|]. by apply Hst.
    + clear Hc Ha. induction Hex as [|f fs' [_ Hk] _ IH]; [done|].
      change (f :: fs') with ([f] ++ fs'). by rewrite data_on_app, IH, data_on_control.
Qed.

(** A frame or a change that concerns no stream *)
Lemma node_inv_same l fs t' ping' closed' extra :
  node_inv c l fs -> (forall obj, same_ncore (nl_tunnel l) t' obj) ->
  (forall sid o, nt_streams t' !! sid = Some o -> nt_streams (nl_tunnel l) !! sid = Some o) ->
  nt_next t' = nt_next (nl_tunnel l) -> nt_commands t' = nt_commands (nl_tunnel l) ++ extra ->
  Forall (fun f => stream_id f = 0) extra -> (closed' = None -> nl_closed l = None) ->
  node_inv c (mkNodeLink t' (nl_slots l) (nl_tasks l) ping' closed') fs.
Proof.
  intros [It Ib Ii Ij Ic Iq Id] Hcore Hst Hn Hc Hex Hcl. split; simpl.
  - intros obj ls Hls. destruct (It _ _ Hls) as (st & Hs & Ht). specialize (Hcore obj).
    unfold same_ncore in Hcore. rewrite Hs in Hcore. simpl in Hcore.
    destruct (nt_objects t' !! obj) as [st'|]; [|done]. apply (inj Some) in Hcore.
    exists st'. split; [done|]. rewrite Hcore, Hc. destruct (Ii _ _ Hls) as (_ & H0 & _).
    destruct (announced_other (ls_sid ls) extra) as [A1 A2];
      [eapply Forall_impl; [exact Hex|]; simpl; congruence|].
    rewrite <- (app_nil_r fs). apply (task_inv_frame _ _ _ _ _ _ _ _ _ Ht); try done.
    intros [H1 H2]. split; [auto|]. by apply Hst.
  - intros sid o H. by apply Ib, Hst.
  - intros obj ls H. rewrite Hn. by apply Ii.
  - done.
  - rewrite Hc. apply Forall_app. split; [done|]. eapply Forall_impl; [exact Hex|]. auto.
  - auto.
  - intros sid Hz. rewrite Hc, data_on_app. destruct (announced_other sid extra) as [_ ->];
      [eapply Forall_impl; [exact Hex|]; simpl; congruence|]. rewrite app_nil_r. auto.
Qed.

Lemma node_inv_end l fs t' res :
  node_inv c (mkNodeLink t' (nl_slots l) (nl_tasks l) (nl_ping l) (nl_closed l)) fs ->
  node_inv c (nl_end_reader l t' res) fs.
Proof.
  intros H. eapply (node_inv_same (mkNodeLink t' _ _ _ _) fs (node_finish t') (nl_ping l) (Some res) []);
    [exact H|..]; simpl; try done.
  - intros obj. apply node_finish_core.
  - by rewrite app_nil_r.
Qed.
End Steps.

(** ** The frame reader *)

(** What a frame does to the stream it is for; [live] is whether the stream is
    still in the table of a running reader afterwards. *)
Definition node_move (k k' : NCore) (f : Frame) (live : Prop) : Prop :=
  exists inadd, node_queue (k_inbound k') = node_queue (k_inbound k) ++ inadd /\
    (inadd = data_on (stream_id f) [f] \/ (inadd = [] /\ ~ live)) /\
    0 <= k_credit k' <= k_credit k + announces f /\ 0 <= k_remaining k' /\
    k_remaining k <= k_remaining k' + zlen (data_on (stream_id f) [f]) /\
    k_remaining k' + zlen inadd <= k_remaining k.

Lemma node_move_refl k f live :
  0 <= k_remaining k -> 0 <= k_credit k -> data_on (stream_id f) [f] = [] \/ ~ live ->
  node_move k k f live.
Proof.
  intros Hr Hc Hd. exists []. pose proof (announces_nonneg f).
  pose proof (zlen_nonneg (data_on (stream_id f) [f])). change (zlen (@nil byte)) with 0.
  rewrite app_nil_r. split_and!; try done; try lia. destruct Hd; [by left|by right].
Qed.

Lemma to_ok_extend x written q q' inl inadd :
  node_queue q' = node_queue q ++ inadd -> to_ok x written q inl -> to_ok x written q' (inl ++ inadd).
Proof.
  intros Hq. destruct x; simpl; try (intros ->; by rewrite Hq, <- !app_assoc). apply prefix_app_r.
Qed.

(** A stream in the table receives a frame. *)
Lemma task_inv_move c k k' ls (live live' : Prop) fs cmds f extra :
  task_inv c k ls live fs cmds -> live -> ls_sid ls = stream_id f -> node_move k k' f live' ->
  data_on (ls_sid ls) extra = [] -> announced (ls_sid ls) extra = 0 ->
  task_inv c k' ls live' (fs ++ [f]) (cmds ++ extra).
Proof.
  intros [T0 (inl & Hp & Hl & Hm) T2 T3 T4 T5 T6 T7] Hlive Hsid
    (inadd & Hq & Hin & Hc & Hr0 & Hr1 & Hr2) D A. specialize (Hl Hlive).
  constructor; [lia| |done|..|done]; rewrite ?data_on_app, ?announced_app, ?D, ?A, ?announced_one, ?app_nil_r;
    rewrite ?Hsid, ?Z.eqb_refl, ?zlen_app in *; try done; try lia.
  - exists (inl ++ inadd). split_and!; [| |by eapply to_ok_extend].
    + rewrite Hl. destruct Hin as [->|[-> _]]; [done|]. rewrite app_nil_r. by apply prefix_app_r.
    + rewrite Hl. intros Hl'. destruct Hin as [->|[_ Hno]]; done.
  - rewrite Hq, zlen_app. lia.
Qed.

(** A stream that left the table, when a frame comes under its identifier *)
Lemma task_inv_dead c k ls (live live' : Prop) fs cmds f extra :
  task_inv c k ls live fs cmds -> ~ live' ->
  data_on (ls_sid ls) extra = [] -> announced (ls_sid ls) extra = 0 ->
  task_inv c k ls live' (fs ++ [f]) (cmds ++ extra).
Proof.
  intros [T0 (inl & Hp & Hl & Hm) T2 T3 T4 T5 T6 T7] Hdead D A.
  pose proof (announced_nonneg (ls_sid ls) [f]). pose proof (zlen_nonneg (data_on (ls_sid ls) [f])).
  constructor; [done| |done|..|done|done]; rewrite ?data_on_app, ?announced_app, ?D, ?A, ?app_nil_r, ?zlen_app;
    try done; try lia.
  exists inl. split; [by apply prefix_app_r|]. split; [done|done].
Qed.

Record node_effect (c : NodeConnectorConfig) (t : NodeTunnel) (f : Frame) (rd : Read) : Prop := {
  nfe_own : forall obj st, nt_streams t !! stream_id f = Some obj -> nt_objects t !! obj = Some st ->
    obj < nt_next t -> 0 <= ns_remaining st -> 0 <= ns_credit st ->
    exists st', nt_objects (rd_tunnel rd) !! obj = Some st' /\
      node_move (ncore st) (ncore st') f
        (is_ok (rd_result rd) = true /\ nt_streams (rd_tunnel rd) !! stream_id f = Some obj);
  nfe_other : forall obj, nt_streams t !! stream_id f <> Some obj -> obj < nt_next t ->
    same_ncore t (rd_tunnel rd) obj;
  nfe_streams : is_ok (rd_result rd) = true -> forall sid o, nt_streams (rd_tunnel rd) !! sid = Some o ->
    nt_streams t !! sid = Some o \/ (sid = stream_id f /\ rd_spawned rd = Some o);
  nfe_commands : exists extra, nt_commands (rd_tunnel rd) = nt_commands t ++ extra /\
    Forall (fun g => kind g <> Data /\ announces g = 0 /\
      (stream_id g = 0 \/
       (stream_id g = stream_id f /\ (kind f = Open \/ is_Some (nt_streams t !! stream_id f))))) extra;
  nfe_spawn : match rd_spawned rd with
    | Some obj => obj = nt_next t /\ nt_next (rd_tunnel rd) = nt_next t + 1 /\ kind f = Open /\
        stream_id f <> 0 /\ nt_commands (rd_tunnel rd) = nt_commands t /\
        exists w, parse_u32 f = Ok w /\ nt_objects (rd_tunnel rd) !! obj = Some (new_node_stream c w)
    | None => nt_next t <= nt_next (rd_tunnel rd)
    end;
  nfe_unopened : kind f = Data -> nt_streams t !! stream_id f = None -> is_ok (rd_result rd) = false;
}.

Lemma node_stream_Ok t sid obj st :
  node_stream t sid = Ok (obj, st) -> nt_streams t !! sid = Some obj /\ nt_objects t !! obj = Some st.
Proof.
  unfold node_stream. case_match; [done|]. intros H0. inv_ok.
  match goal with H : (_ ≫= _) = Some _ |- _ => apply bind_Some in H as (o & Ho & H);
    apply bind_Some in H as (st' & Hs & H) end. by simplify_eq.
Qed.

Lemma node_try_send_Some cap st m st' :
  node_try_send cap st m = Some st' -> st' = ns_set_inbound st (ns_inbound st ++ [m]).
Proof. unfold node_try_send. case_match; [done|]. congruence. Qed.

Section Reader.
Context (c : NodeConnectorConfig) (t : NodeTunnel) (f : Frame).

Definition reply_ok (g : Frame) : Prop :=
  kind g <> Data /\ announces g = 0 /\
  (stream_id g = 0 \/
   (stream_id g = stream_id f /\ (kind f = Open \/ is_Some (nt_streams t !! stream_id f)))).

(** A branch that changes no stream *)
Lemma effect_none r t' slots extra :
  kind f <> Data \/ is_ok r = false ->
  (forall o, nt_objects t' !! o = nt_objects t !! o) -> nt_streams t' = nt_streams t ->
  nt_next t' = nt_next t -> nt_commands t' = nt_commands t ++ extra -> Forall reply_ok extra ->
  node_effect c t f (mkRead r t' slots None).
Proof.
  intros Hk Ho Hs Hn Hc Hex. split; simpl.
  - intros obj st Hst Hobj _ Hr Hcr. exists st. rewrite Ho. split; [done|].
    apply node_move_refl; [done..|]. destruct Hk as [Hk|Hk]; [left; by apply data_on_control|right].
    intros [He _]. congruence.
  - intros obj _ _. unfold same_ncore. by rewrite Ho.
  - intros _ sid o. rewrite Hs. auto.
  - by exists extra.
  - lia.
  - intros Hd _. by destruct Hk.
Qed.

(** A branch that changes the frame's stream, and may queue a reply or remove
    the stream *)
Lemma effect_stream r t' slots extra obj st st1 :
  nt_streams t !! stream_id f = Some obj -> nt_objects t !! obj = Some st ->
  (forall o, same_ncore (nt_update t obj st1) t' o) ->
  (forall sid o, nt_streams t' !! sid = Some o -> nt_streams t !! sid = Some o) ->
  nt_next t' = nt_next t -> nt_commands t' = nt_commands t ++ extra -> Forall reply_ok extra ->
  (0 <= ns_remaining st -> 0 <= ns_credit st ->
   node_move (ncore st) (ncore st1) f (is_ok r = true /\ nt_streams t' !! stream_id f = Some obj)) ->
  node_effect c t f (mkRead r t' slots None).
Proof.
  intros Hst Hobj Hcore Hs Hn Hc Hex Hmove. split; simpl.
  - intros obj' st' Hst' Hobj' _ Hr Hcr. simplify_eq. specialize (Hcore obj).
    unfold same_ncore in Hcore. simpl in Hcore. rewrite lookup_insert_eq in Hcore. simpl in Hcore.
    destruct (nt_objects t' !! obj) as [st2|]; [|done]. apply (inj Some) in Hcore.
    exists st2. split; [done|]. rewrite Hcore. auto.
  - intros obj' Hne _. specialize (Hcore obj'). unfold same_ncore in *. simpl in Hcore.
    rewrite lookup_insert_ne in Hcore by congruence. done.
  - intros _ sid o H. left. auto.
  - by exists extra.
  - lia.
  - congruence.
Qed.

Lemma same_ncore_refl o (t1 : NodeTunnel) : same_ncore t1 t1 o.
Proof. done. Qed.

Lemma close_reply_ok obj code' :
  nt_streams t !! stream_id f = Some obj -> reply_ok (frame_code Close (stream_id f) code').
Proof. intros H. split; [done|]. split; [done|]. right. split; [done|]. right. by eexists. Qed.

Lemma node_data_effect slots o now :
  kind f = Data -> node_effect c t f (node_handle_frame c t slots f o now).
Proof.
  intros Hk. unfold node_handle_frame. rewrite Hk.
  destruct (node_stream t (stream_id f)) as [[obj st]|e] eqn:Es; rsimpl.
  2: { apply (effect_none _ _ _ []); try done; [by right|by rewrite app_nil_r]. }
  apply node_stream_Ok in Es as [Hst Hobj].
  destruct (debit_window st (zlen (payload f))) as [st1|e] eqn:Ed; rsimpl.
  2: { apply (effect_none _ _ _ []); try done; [by right|by rewrite app_nil_r]. }
  unfold debit_window, checked_sub in Ed. case_match eqn:Hle; [|done].
  case_match; simplify_eq. bool_props. pose proof (zlen_nonneg (payload f)).
  pose proof (announces_nonneg f). pose proof (data_on_own f Hk) as Hdo.
  destruct (node_try_send _ _ _) as [st2|] eqn:Et.
  - apply node_try_send_Some in Et as ->.
    eapply (effect_stream _ _ _ [] obj st); try done; [by rewrite app_nil_r|].
    intros Hr Hcr. exists (payload f). simpl. rewrite node_queue_app, Hdo. split_and!; (done || lia || by left).
  - destruct (node_send _ _ _) as [r2 t2] eqn:Esend.
    assert (forall live, ~ live -> 0 <= ns_remaining st -> 0 <= ns_credit st ->
      node_move (ncore st) (ncore (ns_set_remaining st (ns_remaining st - zlen (payload f)))) f live) as Hmv.
    { intros live Hno Hr Hcr. exists []. simpl. rewrite app_nil_r, Hdo. change (zlen (@nil byte)) with 0.
      split_and!; try done; try lia. by right. }
    apply node_send_cases in Esend as [[-> ->]|[Hf ->]].
    + unfold read_ok. set (t2 := nt_push _ _).
      eapply (effect_stream _ _ _ [frame_code Close (stream_id f) LimitReached] obj st
        (ns_set_remaining st (ns_remaining st - zlen (payload f)))); try done.
      * intros o'. by apply (node_remove_core t2 (stream_id f) o').
      * intros sid o' H'. by apply node_remove_streams in H' as [? _].
      * by apply (node_remove_commands t2).
      * by apply (node_remove_commands t2).
      * apply Forall_singleton. by eapply close_reply_ok.
      * apply Hmv. intros [_ H']. by apply node_remove_streams in H' as [_ ?].
    + destruct r2; [done|].
      eapply (effect_stream _ _ _ [] obj st (ns_set_remaining st (ns_remaining st - zlen (payload f))));
        try done; [by rewrite app_nil_r|]. apply Hmv. by intros [? _].
Qed.

(** A message without payload *)
Lemma message_move st m live :
  (forall b, m <> NiData b) -> kind f <> Data -> 0 <= ns_remaining st -> 0 <= ns_credit st ->
  node_move (ncore st) (ncore (ns_set_inbound st (ns_inbound st ++ [m]))) f live.
Proof.
  intros Hm Hk Hr Hcr. exists []. pose proof (announces_nonneg f).
  pose proof (zlen_nonneg (data_on (stream_id f) [f])). simpl. rewrite node_queue_app.
  change (zlen (@nil byte)) with 0. rewrite data_on_control in * by done.
  split_and!; try done; try lia; [|by left]. by destruct m; [destruct (Hm bytes)|..].
Qed.

Lemma same_move st live :
  kind f <> Data -> 0 <= ns_remaining st -> 0 <= ns_credit st -> node_move (ncore st) (ncore st) f live.
Proof. intros Hk Hr Hc. apply node_move_refl; [done..|]. left. by apply data_on_control. Qed.

Lemma node_open_effect slots o : kind f = Open -> node_effect c t f (node_open c t slots f o).
Proof.
  intros Hk. unfold node_open.
  destruct (parse_u32 f) as [w|e] eqn:Ew.
  2: { apply (effect_none _ _ _ []); try done; [by right|by rewrite app_nil_r]. }
  case_match eqn:Hbad.
  { apply (effect_none _ _ _ []); try done; [by right|by rewrite app_nil_r]. }
  bool_props. case_match.
  { destruct (node_send _ _ _) as [r t'] eqn:Es. apply node_send_cases in Es as [[-> ->]|[_ ->]].
    - eapply (effect_none _ _ _ [frame_code OpenError (stream_id f) LimitReached]); try done;
        [left; congruence|]. apply Forall_singleton. split; [done|]. split; [done|]. auto.
    - apply (effect_none _ _ _ []); try done; [left; congruence|by rewrite app_nil_r]. }
  set (t' := mkNodeTunnel _ _ _ _ _ _).
  assert (forall obj, obj < nt_next t -> nt_objects t' !! obj = nt_objects t !! obj) as Hobj
    by (intros obj Hlt; simpl; rewrite lookup_insert_ne; [done|lia]).
  assert (kind f <> Data) as Hnd by congruence.
  destruct (nt_streams t !! stream_id f) as [old|] eqn:Eold; split; simpl; try done.
  - intros obj st Hst Hob Hlt Hr Hcr. exists st. split; [by rewrite <- Hob; apply Hobj|].
    by apply same_move.
  - intros obj _ Hlt. unfold same_ncore. by rewrite Hobj.
  - exists []. by rewrite app_nil_r.
  - lia.
  - congruence.
  - intros obj _ Hlt. unfold same_ncore. by rewrite Hobj.
  - intros _ sid obj Hs. destruct (decide (sid = stream_id f)) as [->|Hne].
    + rewrite lookup_insert_eq in Hs. right. done.
    + rewrite lookup_insert_ne in Hs by done. by left.
  - exists []. by rewrite app_nil_r.
  - split_and!; try done. exists w. split; [done|]. by rewrite lookup_insert_eq.
Qed.

Lemma node_frame_effect slots o now : node_effect c t f (node_handle_frame c t slots f o now).
Proof.
  destruct (decide (kind f = Data)) as [Hk|Hnd]; [by apply node_data_effect|].
  destruct (decide (kind f = Open)) as [Hk|Hno].
  { unfold node_handle_frame. rewrite Hk. by apply node_open_effect. }
  assert (forall r slots', node_effect c t f (mkRead r t slots' None)) as Hsame
    by (intros; apply (effect_none _ _ _ []); try done; [by left|by rewrite app_nil_r]).
  assert (forall slots', node_effect c t f (read_ok (node_remove_stream t (stream_id f)) slots')) as Hremove.
  { intros slots'. destruct (nt_streams t !! stream_id f) as [obj|] eqn:Es.
    2: { unfold node_remove_stream. rewrite Es. apply Hsame. }
    destruct (nt_objects t !! obj) as [st|] eqn:Eo.
    - eapply (effect_stream _ _ _ [] obj st st); try done.
      + intros o'. unfold same_ncore. rewrite (node_remove_core t (stream_id f) o'). simpl.
        by rewrite insert_id.
      + intros sid o' H'. by apply node_remove_streams in H' as [? _].
      + by apply (node_remove_commands t).
      + rewrite app_nil_r. by apply (node_remove_commands t).
      + intros. by apply same_move.
    - split; simpl; try congruence.
      + intros obj' _ _. apply node_remove_core.
      + intros _ sid o' H'. apply node_remove_streams in H' as [? _]. by left.
      + exists []. rewrite app_nil_r. split; [apply node_remove_commands|done].
      + by rewrite (proj2 (node_remove_commands t (stream_id f))). }
  unfold node_handle_frame. destruct (kind f) eqn:Hk; try done; try apply Hsame.
  - destruct (node_stream t (stream_id f)) as [[obj st]|e] eqn:Es; [|apply Hsame].
    apply node_stream_Ok in Es as [Hst Hobj].
    destruct (node_try_send _ _ _) as [st2|] eqn:Et; [|apply Hremove].
    apply node_try_send_Some in Et as ->.
    eapply (effect_stream _ _ _ [] obj st); try done; [by rewrite app_nil_r|].
    intros. by apply message_move; [done|congruence|..].
  - destruct (node_stream t (stream_id f)) as [[obj st]|e] eqn:Es; [|apply Hremove].
    apply node_stream_Ok in Es as [Hst Hobj].
    destruct (node_try_send _ _ _) as [st2|] eqn:Et; [|apply Hremove].
    apply node_try_send_Some in Et as ->. set (t2 := nt_update _ _ _).
    eapply (effect_stream _ _ _ [] obj st); try done.
    + intros o'. apply (node_remove_core t2 (stream_id f) o').
    + intros sid o' H'. by apply node_remove_streams in H' as [? _].
    + by apply (node_remove_commands t2).
    + rewrite app_nil_r. by apply (node_remove_commands t2).
    + intros. by apply message_move; [done|congruence|..].
  - destruct (node_stream t (stream_id f)) as [[obj st]|e] eqn:Es; [|apply Hsame].
    apply node_stream_Ok in Es as [Hst Hobj].
    destruct (parse_u32 f) as [n|e] eqn:En; [|apply Hsame].
    destruct (credit_add (ns_credit st) n) as [r k] eqn:Ec.
    pose proof (parse_u32_range _ _ En) as Hn.
    eapply (effect_stream _ _ _ [] obj st); try done; [by rewrite app_nil_r|].
    intros Hr Hcr. exists []. simpl. rewrite data_on_control, app_nil_r by congruence.
    change (zlen (@nil byte)) with 0.
    assert (announces f = n) as -> by (unfold announces; by rewrite Hk, En).
    apply credit_add_cases in Ec as [[_ ->]|[_ ->]]; [| |lia]; split_and!; try done; try lia; by left.
  - case_match; [apply Hsame|]. bool_props. destruct (node_send _ _ _) as [r t'] eqn:Es.
    apply node_send_cases in Es as [[-> ->]|[_ ->]]; [|apply Hsame].
    eapply (effect_none _ _ _ [mkFrame Pong 0 (payload f)]); try done; [left; congruence|].
    apply Forall_singleton. split; [done|]. split; [done|]. by left.
  - case_match; [apply Hsame|]. eapply (effect_none _ _ _ []); try done; [left; congruence|].
    by rewrite app_nil_r.
Qed.
End Reader.

(** ** Runs *)

Section Run.
Context (c : NodeConnectorConfig).
Hypothesis Hw : 0 <= nc_initial_window_bytes c <= u32_max.

Lemma replies_apart (t : NodeTunnel) (f : Frame) sid extra :
  Forall (reply_ok t f) extra -> data_on sid extra = [] /\ announced sid extra = 0.
Proof.
  induction 1 as [|g gs (Hk & Ha & _) _ [IH1 IH2]]; [done|]. change (g :: gs) with ([g] ++ gs).
  rewrite data_on_app, announced_app, IH1, IH2, data_on_control, announced_one, Ha by done.
  by case_match.
Qed.

Lemma task_inv_weaken k ls (live live' : Prop) fs cmds :
  task_inv c k ls live fs cmds -> (live' -> live) -> task_inv c k ls live' fs cmds.
Proof.
  intros Hinv Hlive. rewrite <- (app_nil_r fs), <- (app_nil_r cmds).
  by apply (task_inv_frame _ _ _ _ _ _ _ _ _ Hinv Hlive).
Qed.

(** The task an [Open] spawns *)
Lemma new_task_inv l fs f w live :
  node_inv c l fs -> nl_closed l = None -> stream_id f ∉ opened_ids fs -> kind f = Open ->
  stream_id f <> 0 -> parse_u32 f = Ok w ->
  task_inv c (ncore (new_node_stream c w)) (new_local (stream_id f)) live (fs ++ [f])
    (nt_commands (nl_tunnel l)).
Proof.
  intros Hl Hcl Hnew Hk H0 Ew. pose proof (parse_u32_range _ _ Ew) as Hr.
  pose proof (ni_quiet _ _ _ Hl Hcl _ Hnew) as Hq.
  destruct (announced_other (stream_id f) (nt_commands (nl_tunnel l))) as [A1 A2].
  { eapply Forall_impl; [apply (ni_cmds _ _ _ Hl)|]. intros g [Hg|Hg]; simpl in *; congruence. }
  assert (data_on (stream_id f) (fs ++ [f]) = []) as Hd
    by (rewrite data_on_app, Hq, data_on_control; [done|congruence]).
  constructor; simpl; unfold credit_new.
  - lia.
  - exists []. rewrite Hd. done.
  - done.
  - done.
  - rewrite announced_app, announced_one, Z.eqb_refl. unfold announces. rewrite Hk, Ew.
    pose proof (announced_nonneg (stream_id f) fs). change (zlen (@nil byte)) with 0.
    unfold credit_new. lia.
  - rewrite A1, Hd. unfold unannounced; simpl. change (zlen (@nil byte)) with 0. lia.
  - change (zlen (node_queue [])) with 0. change (zlen (@nil byte)) with 0. lia.
  - lia.
Qed.

(** A task that existed before the frame *)
Lemma old_task_inv l fs f o now obj ls :
  node_inv c l fs -> nl_closed l = None -> nl_tasks l !! obj = Some ls ->
  let rd := node_handle_frame c (nl_tunnel l) (nl_slots l) f o now in
  exists st', nt_objects (rd_tunnel rd) !! obj = Some st' /\
    task_inv c (ncore st') ls
      (is_ok (rd_result rd) = true /\ nt_streams (rd_tunnel rd) !! ls_sid ls = Some obj) (fs ++ [f])
      (nt_commands (rd_tunnel rd)).
Proof.
  intros Hl Hcl Hls rd. destruct (node_frame_effect c (nl_tunnel l) f (nl_slots l) o now)
    as [Eown Eother Est (extra & Ecmd & Eex) Espawn _]. fold rd in Eown, Eother, Est, Ecmd, Espawn.
  destruct (ni_tasks _ _ _ Hl _ _ Hls) as (st & Hst & Hinv).
  destruct (ni_ids _ _ _ Hl _ _ Hls) as (Hlt & H0 & Hopened).
  destruct (replies_apart (nl_tunnel l) f (ls_sid ls) extra Eex) as [D A]. rewrite Ecmd.
  destruct (decide (nt_streams (nl_tunnel l) !! stream_id f = Some obj)) as [Htab|Htab].
  - destruct (ni_table _ _ _ Hl _ _ Htab) as (ls' & Hls' & Hsid). simplify_eq.
    pose proof Hinv as [[N1 N2] _ _ _ _ _ _ _].
    destruct (Eown obj st Htab Hst Hlt N1 N2) as (st' & Hst' & Hmove). exists st'. split; [done|].
    rewrite Hsid. eapply task_inv_move; try done. split; [done|]. by rewrite Hsid.
  - specialize (Eother obj Htab Hlt). unfold same_ncore in Eother. rewrite Hst in Eother. simpl in Eother.
    destruct (nt_objects (rd_tunnel rd) !! obj) as [st'|] eqn:Eo; [|done]. apply (inj Some) in Eother.
    exists st'. split; [done|]. rewrite Eother.
    assert (is_ok (rd_result rd) = true /\ nt_streams (rd_tunnel rd) !! ls_sid ls = Some obj ->
      is_live l (ls_sid ls) obj) as Hback.
    { intros [Hok Hs']. split; [done|]. destruct (Est Hok _ _ Hs') as [?|[_ Hsp]]; [done|].
      rewrite Hsp in Espawn. destruct Espawn as [-> _]. lia. }
    destruct (decide (ls_sid ls = stream_id f)) as [Heq|Hne].
    + eapply task_inv_dead; try done. intros H'. apply Hback in H' as [_ H']. by rewrite Heq in H'.
    + apply (task_inv_frame _ _ _ _ _ _ _ _ _ Hinv Hback); try done;
        [by apply data_on_other|]. rewrite announced_one. by rewrite (proj2 (Z.eqb_neq _ _)).
Qed.

Lemma frame_opened fs f sid : sid ∈ opened_ids fs -> sid ∈ opened_ids (fs ++ [f]).
Proof. rewrite opened_ids_app. set_solver. Qed.

Lemma fresh_open fs f :
  NoDup (opened_ids (fs ++ [f])) -> kind f = Open -> stream_id f ∉ opened_ids fs.
Proof.
  intros Hnd Hk Hin. rewrite opened_ids_app in Hnd. apply NoDup_app in Hnd as (_ & Hnd & _).
  apply (Hnd _ Hin). simpl. rewrite bool_decide_eq_true_2 by done. apply list_elem_of_here.
Qed.

(** The tasks after a frame *)
Section Frame.
Context (l : NodeLink) (fs : list Frame) (f : Frame) (o : SendOutcome) (now : Z).
Hypothesis Hl : node_inv c l fs.
Hypothesis Hcl : nl_closed l = None.
Hypothesis Hnd : NoDup (opened_ids (fs ++ [f])).
Let rd := node_handle_frame c (nl_tunnel l) (nl_slots l) f o now.
Let tasks := match rd_spawned rd with
             | Some obj => <[obj := new_local (stream_id f)]> (nl_tasks l)
             | None => nl_tasks l
             end.

Lemma frame_task obj ls :
  tasks !! obj = Some ls ->
  (nl_tasks l !! obj = Some ls /\ obj <> nt_next (nl_tunnel l)) \/
  (rd_spawned rd = Some obj /\ obj = nt_next (nl_tunnel l) /\ ls = new_local (stream_id f) /\
   kind f = Open /\ stream_id f <> 0 /\ stream_id f ∉ opened_ids fs).
Proof.
  pose proof (nfe_spawn _ _ _ _ (node_frame_effect c (nl_tunnel l) f (nl_slots l) o now)) as Hs.
  fold rd in Hs. intros H.
  assert (nl_tasks l !! obj = Some ls -> obj <> nt_next (nl_tunnel l)) as Hlt
    by (intros Hls; destruct (ni_ids _ _ _ Hl _ _ Hls); lia).
  unfold tasks in H. destruct (rd_spawned rd) as [n|] eqn:En; [|auto].
  rewrite lookup_insert in H. case_decide; [|auto]. simplify_eq. right.
  destruct Hs as (? & _ & Hk & Hz & _). split_and!; try done. by apply fresh_open.
Qed.

Lemma frame_tasks_inj o1 o2 l1 l2 :
  tasks !! o1 = Some l1 -> tasks !! o2 = Some l2 -> ls_sid l1 = ls_sid l2 -> o1 = o2.
Proof.
  intros H1 H2 Heq.
  destruct (frame_task _ _ H1) as [[H1' _]|(_ & -> & -> & _ & _ & Hn)],
    (frame_task _ _ H2) as [[H2' _]|(_ & -> & -> & _ & _ & Hn')]; [|..|done].
  - by apply (ni_inj _ _ _ Hl _ _ _ _ H1' H2').
  - destruct (ni_ids _ _ _ Hl _ _ H1') as (_ & _ & Hin). simpl in Heq. congruence.
  - destruct (ni_ids _ _ _ Hl _ _ H2') as (_ & _ & Hin). simpl in Heq. congruence.
Qed.

Lemma opened_now : kind f = Open -> stream_id f ∈ opened_ids (fs ++ [f]).
Proof.
  intros Hk. rewrite opened_ids_app. apply elem_of_app. right. simpl.
  rewrite bool_decide_eq_true_2 by done. apply list_elem_of_here.
Qed.

Lemma table_opened sid obj : nt_streams (nl_tunnel l) !! sid = Some obj -> sid ∈ opened_ids fs.
Proof.
  intros H. destruct (ni_table _ _ _ Hl _ _ H) as (ls & Hls & <-). by apply (ni_ids _ _ _ Hl _ _ Hls).
Qed.

Lemma frame_cmds :
  Forall (fun g => stream_id g = 0 \/ stream_id g ∈ opened_ids (fs ++ [f])) (nt_commands (rd_tunnel rd)).
Proof.
  destruct (nfe_commands _ _ _ _ (node_frame_effect c (nl_tunnel l) f (nl_slots l) o now))
    as (extra & Hc & Hex). fold rd in Hc. rewrite Hc. apply Forall_app. split.
  - eapply Forall_impl; [apply (ni_cmds _ _ _ Hl)|]. intros g [?|?]; [by left|right; by apply frame_opened].
  - eapply Forall_impl; [exact Hex|]. intros g (_ & _ & [?|(-> & [Hk|[obj Hs]])]); [by left|right..].
    + by apply opened_now.
    + eapply frame_opened, table_opened, Hs.
Qed.

Lemma frame_data sid :
  sid <> 0 -> data_on sid (nt_commands (rd_tunnel rd)) = [] \/
    exists obj ls, tasks !! obj = Some ls /\ ls_sid ls = sid.
Proof.
  pose proof (node_frame_effect c (nl_tunnel l) f (nl_slots l) o now)
    as [_ _ _ (extra & Hc & Hex) Hspawn _]. fold rd in Hc, Hspawn. intros Hz. rewrite Hc, data_on_app.
  rewrite (proj1 (replies_apart (nl_tunnel l) f sid extra Hex)), app_nil_r.
  destruct (ni_data _ _ _ Hl sid Hz) as [?|(obj & ls & Hls & Hsid)]; [by left|right]. exists obj, ls.
  split; [|done]. destruct (ni_ids _ _ _ Hl _ _ Hls) as [Hlt _]. unfold tasks.
  destruct (rd_spawned rd) as [n|]; [|done]. destruct Hspawn as (-> & _).
  rewrite lookup_insert_ne; [done|lia].
Qed.

Lemma frame_quiet sid :
  is_ok (rd_result rd) = true -> sid ∉ opened_ids (fs ++ [f]) -> data_on sid (fs ++ [f]) = [].
Proof.
  intros Hok Hsid. rewrite opened_ids_app in Hsid. apply not_elem_of_app in Hsid as [Hsid _].
  rewrite data_on_app, (ni_quiet _ _ _ Hl Hcl _ Hsid).
  destruct (decide (sid = stream_id f)) as [->|Hne]; [|by apply data_on_other].
  destruct (decide (kind f = Data)) as [Hk|Hk]; [|by rewrite data_on_control].
  destruct (nt_streams (nl_tunnel l) !! stream_id f) as [obj|] eqn:Es; [by apply table_opened in Es|].
  pose proof (nfe_unopened _ _ _ _ (node_frame_effect c (nl_tunnel l) f (nl_slots l) o now) Hk Es) as H.
  fold rd in H. congruence.
Qed.

Lemma reader_inv t' closed' :
  (forall obj, same_ncore (rd_tunnel rd) t' obj) -> nt_next t' = nt_next (rd_tunnel rd) ->
  nt_commands t' = nt_commands (rd_tunnel rd) ->
  (forall sid obj, nt_streams t' !! sid = Some obj ->
    is_ok (rd_result rd) = true /\ nt_streams (rd_tunnel rd) !! sid = Some obj) ->
  (closed' = None -> is_ok (rd_result rd) = true) ->
  node_inv c (mkNodeLink t' (rd_slots rd) tasks (nl_ping l) closed') (fs ++ [f]).
Proof.
  intros Hcore Hnext Hcmd Hstr Hclosed.
  pose proof (node_frame_effect c (nl_tunnel l) f (nl_slots l) o now) as [_ _ Est _ Espawn _].
  fold rd in Est, Espawn. split; simpl.
  - intros obj ls H. specialize (Hcore obj). unfold same_ncore in Hcore.
    assert (exists st', nt_objects (rd_tunnel rd) !! obj = Some st' /\
      task_inv c (ncore st') ls (closed' = None /\ nt_streams t' !! ls_sid ls = Some obj) (fs ++ [f])
        (nt_commands (rd_tunnel rd))) as (st' & Hst' & Hinv).
    { destruct (frame_task _ _ H) as [[Hls _]|(Hsp & -> & -> & Hk & H0 & Hn)].
      - destruct (old_task_inv l fs f o now obj ls Hl Hcl Hls) as (st' & Hst' & Hinv).
        exists st'. split; [done|]. eapply task_inv_weaken; [exact Hinv|]. intros [_ H']. by apply Hstr.
      - rewrite Hsp in Espawn. destruct Espawn as (_ & _ & _ & _ & Hc & w & Ew & Hob).
        eexists. split; [exact Hob|]. rewrite Hc. by apply new_task_inv. }
    rewrite Hst' in Hcore. simpl in Hcore. destruct (nt_objects t' !! obj) as [st2|]; [|done].
    apply (inj Some) in Hcore. exists st2. split; [done|]. by rewrite Hcore, Hcmd.
  - intros sid obj H. apply Hstr in H as [Hok H]. unfold tasks.
    destruct (Est Hok _ _ H) as [H'|[-> ->]]; [|eexists; by rewrite lookup_insert_eq].
    destruct (ni_table _ _ _ Hl _ _ H') as (ls & Hls & Hsid). exists ls. split; [|done].
    destruct (ni_ids _ _ _ Hl _ _ Hls) as (Hlt & _). destruct (rd_spawned rd) as [n|]; [|done].
    destruct Espawn as (-> & _). rewrite lookup_insert_ne; [done|lia].
  - intros obj ls H. rewrite Hnext. destruct (frame_task _ _ H) as [[Hls _]|(Hsp & -> & -> & Hk & H0 & _)].
    + destruct (ni_ids _ _ _ Hl _ _ Hls) as (? & ? & ?). split_and!; [|done|by apply frame_opened].
      destruct (rd_spawned rd); [destruct Espawn as (_ & ? & _)|]; lia.
    + rewrite Hsp in Espawn. destruct Espawn as (_ & -> & _). simpl. split_and!; [lia|done|].
      by apply opened_now.
  - apply frame_tasks_inj.
  - rewrite Hcmd. apply frame_cmds.
  - intros Hc sid. apply frame_quiet. auto.
  - rewrite Hcmd. apply frame_data.
Qed.

Lemma node_frame_step_inv : node_inv c (node_frame_step c l f o now) (fs ++ [f]).
Proof.
  unfold node_frame_step. fold rd. fold tasks.
  destruct (rd_result rd) eqn:Er.
  - apply reader_inv; rewrite ?Er, ?Hcl; done.
  - unfold nl_end_reader; simpl. apply reader_inv; try done. intros obj. apply node_finish_core.
Qed.
End Frame.

(** A task's step that ends it *)
Lemma done_commands t f o t' :
  (node_send t f o).2 = t' -> exists extra, nt_commands t' = nt_commands t ++ extra /\
    nt_objects t' = nt_objects t /\ nt_streams t' = nt_streams t /\ nt_next t' = nt_next t /\
    (extra = [] \/ extra = [f]).
Proof.
  destruct (node_send t f o) as [r t2] eqn:E. simpl. intros <-.
  apply node_send_cases in E as [[_ ->]|[_ ->]]; [exists [f]|exists []]; simpl; rewrite ?app_nil_r;
    split_and!; auto.
Qed.

(** The end of a task: the last frame, and its stream leaves the table *)
Lemma task_ends l fs obj ls st f o :
  node_inv c l fs -> nl_task l obj = Some (ls, st) -> stream_id f = ls_sid ls -> kind f <> Data ->
  announces f = 0 ->
  node_inv c (nl_task_done l obj (node_remove_stream (node_send (nl_tunnel l) f o).2 (ls_sid ls)) ls) fs.
Proof.
  intros Hl Htask Hsid Hk Ha.
  destruct (done_commands (nl_tunnel l) f o _ eq_refl) as (extra & Hc & Ho & Hs & Hn & Hex).
  set (t' := (node_send _ _ _).2) in *. destruct (node_remove_commands t' (ls_sid ls)) as [Hc' Hn'].
  unfold nl_task_done. eapply (node_inv_phase c l fs obj ls st _ _ _ extra); try done.
  - intros obj'. pose proof (node_remove_core t' (ls_sid ls) obj') as H. unfold same_ncore in *.
    by rewrite H, Ho.
  - intros sid obj' H. apply node_remove_streams in H as [H _]. by rewrite Hs in H.
  - congruence.
  - congruence.
  - destruct Hex as [-> | ->]; [done|]. by apply Forall_singleton.
  - assert (announced (ls_sid ls) extra = 0) as ->.
    { destruct Hex as [-> | ->]; [done|]. rewrite announced_one. by case_match. }
    unfold unannounced; simpl. destruct (ls_phase ls); lia.
Qed.

Lemma open_ok_inv l fs obj nodelay o now l' :
  node_inv c l fs -> node_step c l (NeOpenOk obj nodelay o now) = Some l' -> node_inv c l' fs.
Proof.
  intros Hl Hstep. simpl in Hstep. apply bind_Some in Hstep as ([ls st] & Htask & Hstep).
  destruct (ls_phase ls) eqn:Ep; simplify_eq.
  assert (node_inv c (nl_task_done l obj (node_remove_stream (nl_tunnel l) (ls_sid ls)) ls) fs) as Hdone
    by (by apply (task_ends l fs obj ls st (mkFrame Fin (ls_sid ls) []) WriterStopped)).
  destruct nodelay; [|by simplify_eq].
  destruct (node_send _ _ _) as [r t'] eqn:Es.
  apply node_send_cases in Es as [[-> ->]|[Hf ->]]; [|destruct r; by simplify_eq]. simplify_eq.
  eapply (node_inv_phase c l fs obj ls st _ _ _
    [frame_u32 OpenOk (ls_sid ls) (nc_initial_window_bytes c)]); try done.
  - by apply Forall_singleton.
  - rewrite announced_one, announces_u32; [|by left|done]. simpl. rewrite Z.eqb_refl.
    unfold unannounced; simpl. rewrite Ep. lia.
Qed.

Lemma end_inv l fs obj ls st :
  node_inv c l fs -> nl_task l obj = Some (ls, st) -> ls_phase ls = LsRunning ->
  node_inv c (nl_with_task l obj
    (node_remove_stream (nt_update (nl_tunnel l) obj (ns_cancelled st)) (ls_sid ls),
     ls_with_phase ls LsClosing)) fs.
Proof.
  intros Hl Htask Ep. destruct (task_of c _ _ _ _ _ Hl Htask) as (_ & Hst & _).
  set (t' := nt_update _ _ _). destruct (node_remove_commands t' (ls_sid ls)) as [Hc' Hn'].
  eapply (node_inv_phase c l fs obj ls st _ _ _ []); try done.
  - intros obj'. pose proof (node_remove_core t' (ls_sid ls) obj') as H. unfold same_ncore in *. simpl.
    rewrite H. simpl. rewrite lookup_insert. case_decide; [|done]. subst. by rewrite Hst.
  - intros sid obj' H. by apply node_remove_streams in H as [H _].
  - rewrite app_nil_r. exact Hc'.
  - unfold unannounced; simpl. rewrite Ep. change (announced _ []) with 0. lia.
Qed.

Lemma closed_inv l fs obj ls st o :
  node_inv c l fs -> nl_task l obj = Some (ls, st) -> ls_phase ls = LsClosing ->
  node_inv c (nl_task_done l obj
    (nt_update (node_send (nl_tunnel l) (frame_code Close (ls_sid ls) TunnelLost) o).2 obj (ns_close st)) ls)
    fs.
Proof.
  intros Hl Htask Ep. destruct (task_of c _ _ _ _ _ Hl Htask) as (_ & Hst & _).
  destruct (done_commands (nl_tunnel l) (frame_code Close (ls_sid ls) TunnelLost) o _ eq_refl)
    as (extra & Hc & Ho & Hs & Hn & Hex).
  set (t' := (node_send _ _ _).2) in *.
  eapply (node_inv_phase c l fs obj ls st _ _ _ extra); try done.
  - intros obj'. unfold same_ncore. simpl. rewrite lookup_insert, Ho. case_decide; [|done]. subst.
    by rewrite Hst.
  - intros sid obj'. simpl. by rewrite Hs.
  - destruct Hex as [-> | ->]; [done|]. by apply Forall_singleton.
  - assert (announced (ls_sid ls) extra = 0) as ->.
    { destruct Hex as [-> | ->]; [done|]. rewrite announced_one. by case_match. }
    unfold unannounced; simpl. rewrite Ep. lia.
Qed.

Lemma node_heartbeat_inv l fs sequence now o seq t' ping :
  node_inv c l fs -> node_heartbeat_pass c (nl_tunnel l) sequence now o = (seq, t') ->
  node_inv c (mkNodeLink t' (nl_slots l) (nl_tasks l) ping (nl_closed l)) fs.
Proof.
  intros Hl Hp. unfold node_heartbeat_pass in Hp. case_match; simplify_eq.
  { eapply (node_inv_same c l fs _ _ _ []); try done. by rewrite app_nil_r. }
  destruct (node_send _ _ _) as [r t2] eqn:Es.
  apply node_send_cases in Es as [[-> ->]|[Hf ->]]; [|destruct r; [done|]]; simplify_eq.
  - eapply (node_inv_same c l fs _ _ _ [_]); try done. by apply Forall_singleton.
  - eapply (node_inv_same c l fs _ _ _ []); try done. by rewrite app_nil_r.
Qed.

(** The frames the relay sent, of an event *)
Definition event_frames (e : NodeEvent) : list Frame :=
  match e with NeFrame f _ _ => [f] | _ => [] end.
Definition node_frames (es : list NodeEvent) : list Frame := es ≫= event_frames.

Lemma node_step_inv l fs e l' :
  node_inv c l fs -> node_step c l e = Some l' -> NoDup (opened_ids (fs ++ event_frames e)) ->
  node_inv c l' (fs ++ event_frames e).
Proof.
  intros Hl Hstep Hnd.
  destruct e; simpl in Hnd |- *; rewrite ?app_nil_r in *; simpl in Hstep.
  - case_match eqn:Hg; simplify_eq. bool_props. by apply node_frame_step_inv.
  - case_match; simplify_eq. apply node_inv_end. by destruct l.
  - case_match; simplify_eq. apply node_inv_end. by destruct l.
  - apply bind_Some in Hstep as ([ls st] & Htask & Hstep). destruct (ls_phase ls) eqn:Ep; simplify_eq.
    eapply (node_inv_phase c l fs obj ls st _ _ _ []); try done; [by rewrite app_nil_r|].
    unfold unannounced; simpl. rewrite Ep. destruct connected; simpl; change (announced _ []) with 0; lia.
  - apply bind_Some in Hstep as ([ls st] & Htask & Hstep). destruct (ls_phase ls) eqn:Ep; simplify_eq.
    by eapply task_ends.
  - by eapply open_ok_inv.
  - apply bind_Some in Hstep as ([ls st] & Htask & Hstep). destruct (ls_phase ls) eqn:Ep; simplify_eq.
    apply fmap_Some in Hstep as (tl & Hs & ->). by eapply to_step_inv.
  - apply bind_Some in Hstep as ([ls st] & Htask & Hstep).
    assert (exists tl, from_step (nl_tunnel l) obj st ls e = Some tl /\ l' = nl_with_task l obj tl)
      as (tl & Hs & ->).
    { destruct (ls_phase ls), e as [| [?|?] | | |]; try case_match; try done;
        apply fmap_Some in Hstep as (tl & ? & ->); by exists tl. }
    by eapply from_step_inv.
  - apply bind_Some in Hstep as ([ls st] & Htask & Hstep). destruct (ls_phase ls) eqn:Ep; simplify_eq.
    case_match; simplify_eq. by apply end_inv.
  - apply bind_Some in Hstep as ([ls st] & Htask & Hstep). destruct (ls_phase ls) eqn:Ep; simplify_eq.
    by apply closed_inv.
  - destruct (node_heartbeat_pass _ _ _ _ _) as [seq t'] eqn:Eh. simplify_eq. eapply node_heartbeat_inv, Eh. done.
  - simplify_eq. eapply (node_inv_same c l fs _ _ _ []); try done. by rewrite app_nil_r.
Qed.

Lemma node_run_inv es l fs l' :
  node_inv c l fs -> node_run c l es = Some l' -> NoDup (opened_ids (fs ++ node_frames es)) ->
  node_inv c l' (fs ++ node_frames es).
Proof.
  revert l fs. induction es as [|e es IH]; intros l fs Hl Hrun Hnd.
  { simpl in Hrun. simplify_eq. by rewrite app_nil_r. }
  apply bind_Some in Hrun as (l1 & Hstep & Hrun). unfold node_frames in *. cbn [mbind list_bind] in *.
  rewrite app_assoc in *. apply (IH l1); [|done..]. eapply node_step_inv; [done..|].
  rewrite opened_ids_app in Hnd. by apply NoDup_app in Hnd as (? & _).
Qed.

Lemma fresh_node_inv now : node_inv c (fresh_node c now) [].
Proof. split; simpl; try done; set_solver. Qed.
End Run.
