(* ===== verification/RelayPair.v ===== *)
(** * A relay and a node together

    The tunnel of [RelayLink] and the one of [NodeTunnel] joined by the
    connection between them: each end's command queue is what the other end's
    reader gets, in order. Whatever the interleaving, a member and its target
    see each other's bytes, and neither end ever overruns the window the other
    one announced. *)
From S2P Require Import Prelude Text Clock RelayError RelayConfig RelayFrame RelayFlow RelayTunnel RelayLink.
From S2P Require Import RelayLinkFacts RelayLinkLogs RelayStreams NodeConnector NodeTunnel NodeFacts.

(** ** The machine *)

(** [to_node] and [to_relay] count the frames delivered. The node's [connect]
    reads the relay's first frame, [RegisterOk], before its tunnel runs. *)
Record Pair : Type := mkPair {
  p_relay : Link;
  p_node : NodeLink;
  to_node : nat;
  to_relay : nat;
}.

Inductive PairEvent : Type :=
| PRelay (e : Event)
| PNode (e : NodeEvent)
| PToNode (o : SendOutcome) (now : Z)
| PToRelay (o : SendOutcome) (now : Z).

Definition is_frame (e : Event) : bool := match e with EvFrame _ _ _ => true | _ => false end.
Definition is_node_frame (e : NodeEvent) : bool := match e with NeFrame _ _ _ => true | _ => false end.

Definition pair_step (s : ServerConfig) (r : RouteConfig) (c : NodeConnectorConfig) (p : Pair)
    (e : PairEvent) : option Pair :=
  match e with
  | PRelay e =>
      if is_frame e then None
      else l ← step s r (p_relay p) e; Some (mkPair l (p_node p) (to_node p) (to_relay p))
  | PNode e =>
      if is_node_frame e then None
      else l ← node_step c (p_node p) e; Some (mkPair (p_relay p) l (to_node p) (to_relay p))
  | PToNode o now =>
      f ← commands (tunnel (p_relay p)) !! to_node p;
      l ← node_step c (p_node p) (NeFrame f o now);
      Some (mkPair (p_relay p) l (S (to_node p)) (to_relay p))
  | PToRelay o now =>
      f ← nt_commands (nl_tunnel (p_node p)) !! to_relay p;
      l ← step s r (p_relay p) (EvFrame f o now);
      Some (mkPair l (p_node p) (to_node p) (S (to_relay p)))
  end.

Fixpoint pair_run (s : ServerConfig) (r : RouteConfig) (c : NodeConnectorConfig) (p : Pair)
    (es : list PairEvent) : option Pair :=
  match es with
  | [] => Some p
  | e :: es' => p' ← pair_step s r c p e; pair_run s r c p' es'
  end.

Definition fresh_pair (s : ServerConfig) (c : NodeConnectorConfig) (id counter now : Z) : Pair :=
  mkPair (fresh_link s id counter now) (fresh_node c now) 1 0.

(** The same route at both ends: validated configurations and [u32] windows *)
Definition pair_config (s : ServerConfig) (r : RouteConfig) (c : NodeConnectorConfig) : Prop :=
  link_config s r /\ connector_validate c = Ok tt /\ is_u32 (nc_initial_window_bytes c).

Definition joined_run (s : ServerConfig) (r : RouteConfig) (c : NodeConnectorConfig)
    (es : list PairEvent) (p : Pair) : Prop :=
  exists id k now, Z.odd k = true /\ 1 <= k /\ k + 2 * zlen es <= u64_max /\
    pair_run s r c (fresh_pair s c id k now) es = Some p.

(** ** The windows the relay announces *)

(** The window a member's task has in hand but not announced yet *)
Definition announcing (o : option Member) : Z :=
  match o with Some m => match down m with DnSend _ g => g | _ => 0 end | None => 0 end.

Definition window_inv (l : Link) (pre : list Event) (sid : Z) : Prop :=
  match heap (tunnel l) !! sid with
  | Some d => announced sid (commands (tunnel l)) + announcing (members l !! sid)
      <= receive_remaining d + zlen (received sid pre)
  | None => announced sid (commands (tunnel l)) = 0
  end.

(** [t'] is [t] for the window of [sid], but for [n] bytes debited. *)
Definition window_move (t t' : TunnelSession) (sid n : Z) : Prop :=
  announced sid (commands t') = announced sid (commands t) /\
  match heap t !! sid, heap t' !! sid with
  | Some d, Some d' => receive_remaining d <= receive_remaining d' + n
  | None, None => True
  | _, _ => False
  end.

Lemma window_move_core t t' sid extra n :
  core <$> heap t' !! sid = core <$> heap t !! sid -> commands t' = commands t ++ extra ->
  Forall (fun f => announces f = 0) extra -> 0 <= n -> window_move t t' sid n.
Proof.
  intros Hcore Hcmd Hex Hn. split.
  - rewrite Hcmd, announced_app. enough (announced sid extra = 0) by lia. clear Hcmd.
    induction Hex as [|f fs Hf _ IH]; [done|]. change (f :: fs) with ([f] ++ fs).
    rewrite announced_app, IH, announced_one, Hf. by case_match.
  - destruct (heap t !! sid) as [d|], (heap t' !! sid) as [d'|]; simpl in Hcore; try done.
    apply (inj Some) in Hcore. destruct d, d'; unfold core in Hcore; simplify_eq/=. lia.
Qed.

Lemma window_inv_move l l' pre e sid :
  window_inv l pre sid ->
  window_move (tunnel l) (tunnel l') sid (zlen (received sid [e])) ->
  announcing (members l' !! sid) <= announcing (members l !! sid) -> window_inv l' (pre ++ [e]) sid.
Proof.
  unfold window_inv. intros Hi [Hc Hm] Ha. rewrite Hc, received_app, zlen_app.
  destruct (heap (tunnel l) !! sid), (heap (tunnel l') !! sid); (done || lia).
Qed.

Lemma window_move_trans t1 t2 t3 sid n m :
  window_move t1 t2 sid n -> window_move t2 t3 sid m -> window_move t1 t3 sid (n + m).
Proof.
  intros [C1 H1] [C2 H2]. split; [congruence|].
  destruct (heap t1 !! sid), (heap t2 !! sid), (heap t3 !! sid); (done || lia).
Qed.

Lemma window_move_update t sid0 d d' sid n :
  heap t !! sid0 = Some d -> receive_remaining d <= receive_remaining d' + n -> 0 <= n ->
  window_move t (update t sid0 d') sid n.
Proof.
  intros Hd Hr Hn. split; [done|]. unfold update; simpl. rewrite lookup_insert.
  case_decide; [subst; by rewrite Hd|]. by case_match; try lia.
Qed.

Lemma window_move_remove t sid0 sid : window_move t (remove_stream t sid0) sid 0.
Proof.
  eapply (window_move_core _ _ _ []); [apply remove_stream_core| |done|done].
  by rewrite remove_stream_commands, app_nil_r.
Qed.

Lemma window_move_send t g o sid :
  announces g = 0 -> window_move t (send t g o).2 sid 0.
Proof.
  intros Hg. destruct (send t g o) as [r t'] eqn:E. simpl.
  apply send_cases in E as [[_ ->]|[_ ->]].
  - eapply (window_move_core _ _ _ [g]); try done. by apply Forall_singleton.
  - eapply (window_move_core _ _ _ []); try done. by rewrite app_nil_r.
Qed.

Lemma window_move_le t t' sid n m : window_move t t' sid n -> n <= m -> window_move t t' sid m.
Proof.
  intros [Hc Hm] Hle. split; [done|]. destruct (heap t !! sid), (heap t' !! sid); (done || lia).
Qed.

Lemma data_window s t f o now sid :
  kind f = Data -> window_move t (handle_frame s t f o now).2 sid (zlen (data_on sid [f])).
Proof.
  intros Hk. pose proof (zlen_nonneg (data_on sid [f])) as Hpos.
  assert (window_move t t sid (zlen (data_on sid [f]))) as Hsame
    by (apply (window_move_core _ _ _ []); try done; by rewrite app_nil_r).
  unfold handle_frame. rewrite Hk.
  destruct (stream_dispatch t (stream_id f)) as [d|] eqn:Ed; rsimpl; [|done].
  apply stream_dispatch_Ok in Ed as [Ed _].
  destruct (debit_receive_window d (zlen (payload f))) as [d1|] eqn:Eb; [|done].
  unfold debit_receive_window, checked_sub in Eb. case_match; [|done]. case_match; simplify_eq.
  assert (forall d', receive_remaining d' = receive_remaining d - zlen (payload f) ->
    window_move t (update t (stream_id f) d') sid (zlen (data_on sid [f]))) as Hup.
  { intros d' Hd'. destruct (decide (sid = stream_id f)) as [->|Hne].
    - rewrite data_on_own by done. eapply window_move_update; [done|lia|apply zlen_nonneg].
    - split; [done|]. simpl. rewrite lookup_insert_ne by done. case_match; [lia|done]. }
  destruct (try_send _ _ _) as [d2|] eqn:Et.
  { apply try_send_Some in Et as ->. by apply Hup. }
  set (t1 := update _ _ _).
  assert (window_move t t1 sid (zlen (data_on sid [f]))) as H1 by (by apply Hup).
  pose proof (window_move_send t1 (frame_code Close (stream_id f) LimitReached) o sid eq_refl) as Hs.
  destruct (send t1 _ o) as [[u|e] t2]; simpl in Hs.
  - eapply window_move_le; [eapply window_move_trans; [exact H1|];
      eapply window_move_trans; [exact Hs|apply window_move_remove]|lia].
  - eapply window_move_le; [eapply window_move_trans; [exact H1|exact Hs]|lia].
Qed.

Lemma handle_frame_window s t f o now sid :
  window_move t (handle_frame s t f o now).2 sid (zlen (data_on sid [f])).
Proof.
  destruct (decide (kind f = Data)) as [Hk|Hk]; [by apply data_window|].
  rewrite data_on_control by done. change (zlen (@nil byte)) with 0.
  assert (window_move t t sid 0) as Hsame
    by (apply (window_move_core _ _ _ []); try done; by rewrite app_nil_r).
  unfold handle_frame. destruct (kind f) eqn:Ek; try done.
  - destruct (parse_u32 f); rsimpl; [|done]. destruct (stream_dispatch _ _) as [d|] eqn:Ed; rsimpl; [|done].
    apply stream_dispatch_Ok in Ed as [Ed _]. case_match; [|done].
    eapply window_move_update; [done|simpl; lia|done].
  - destruct (stream_dispatch _ _) as [d|] eqn:Ed; [|done]. apply stream_dispatch_Ok in Ed as [Ed _].
    case_match; [|done]. eapply window_move_update; [done|simpl; lia|done].
  - destruct (stream_dispatch _ _) as [d|] eqn:Ed; [|done]. apply stream_dispatch_Ok in Ed as [Ed _].
    destruct (try_send _ _ _) as [d'|] eqn:Et; [|apply window_move_remove].
    apply try_send_Some in Et as ->. eapply window_move_update; [done|simpl; lia|done].
  - cbn [snd]. destruct (stream_dispatch _ _) as [d|] eqn:Ed; [|apply window_move_remove].
    apply stream_dispatch_Ok in Ed as [Ed _].
    destruct (try_send _ _ _) as [d'|] eqn:Et; [|apply window_move_remove].
    apply try_send_Some in Et as ->.
    change 0 with (0 + 0). eapply window_move_trans; [|apply window_move_remove].
    eapply window_move_update; [done|simpl; lia|done].
  - destruct (stream_dispatch _ _) as [d|] eqn:Ed; [|done]. apply stream_dispatch_Ok in Ed as [Ed _].
    destruct (parse_u32 f) as [n|]; [|done]. destruct (credit_add _ _) as [r k].
    eapply window_move_update; [done|simpl; lia|done].
  - case_match; [done|]. by apply window_move_send.
  - by case_match.
Qed.

Lemma window_core l l' pre e sid extra :
  window_inv l pre sid ->
  core <$> heap (tunnel l') !! sid = core <$> heap (tunnel l) !! sid ->
  commands (tunnel l') = commands (tunnel l) ++ extra -> Forall (fun f => announces f = 0) extra ->
  announcing (members l' !! sid) <= announcing (members l !! sid) -> window_inv l' (pre ++ [e]) sid.
Proof.
  intros Hi Hcore Hcmd Hex Ha. eapply window_inv_move; [done| |done].
  eapply window_move_core; try done. apply zlen_nonneg.
Qed.

(** A member's upload pump and its end announce nothing. *)
Lemma upload_window r sid t d m e t' m' :
  heap t !! sid = Some d -> upload_step r sid t d m e = Some (t', m') ->
  (forall sid', window_move t t' sid' 0) /\ down m' = down m.
Proof.
  intros Hd H. 
  assert (forall sid', window_move t t sid' 0) as Hsame
    by (intros; apply (window_move_core _ _ _ []); try done; by rewrite app_nil_r).
  assert (forall g o res t2, send t g o = (res, t2) -> announces g = 0 ->
    forall sid', window_move t t2 sid' 0) as Hsend.
  { intros g o res t2 Hs Hg sid'. pose proof (window_move_send t g o sid' Hg) as Hw. by rewrite Hs in Hw. }
  unfold upload_step in H. repeat case_match; simplify_eq; (split; [|done]);
    try done; try (intros; eapply window_move_update; [done|simpl; lia|done]);
    (eapply Hsend; [eassumption|done]).
Qed.

Lemma window_step_member l sid t' m' pre e :
  (forall sid', window_inv l pre sid') -> received sid [e] = [] ->
  (forall sid', sid' <> sid -> received sid' [e] = [] /\ window_move (tunnel l) t' sid' 0) ->
  match heap t' !! sid with
  | Some d' => announced sid (commands t') + announcing (Some m') <= receive_remaining d' + zlen (received sid pre)
  | None => announced sid (commands t') = 0
  end ->
  forall sid', window_inv (with_member l sid (t', m')) (pre ++ [e]) sid'.
Proof.
  intros Hall Hown Hother Hs sid'. destruct (decide (sid' = sid)) as [->|Hne].
  - unfold window_inv; simpl. by rewrite lookup_insert_eq, received_app, Hown, app_nil_r.
  - destruct (Hother sid' Hne) as [He Hm]. eapply window_inv_move; [done|by rewrite He|].
    simpl. by rewrite lookup_insert_ne.
Qed.

Definition window_kept (sid : Z) (t : TunnelSession) (d : StreamDispatch) (m : Member)
    (tm : TunnelSession * Member) : Prop :=
  (forall sid', sid' <> sid -> window_move t tm.1 sid' 0) /\
  exists d', heap tm.1 !! sid = Some d' /\
    announced sid (commands tm.1) + announcing (Some tm.2) + receive_remaining d
    <= announced sid (commands t) + announcing (Some m) + receive_remaining d'.

Lemma window_kept_update sid t d m d' m' :
  announcing (Some m') + receive_remaining d <= announcing (Some m) + receive_remaining d' ->
  window_kept sid t d m (update t sid d', m').
Proof.
  intros Hle. split; simpl.
  - intros sid' Hne. split; [done|]. simpl. rewrite lookup_insert_ne by done.
    by destruct (heap t !! sid'); [lia|].
  - exists d'. rewrite lookup_insert_eq. split; [done|]. simpl in Hle. lia.
Qed.

Lemma announces_le k sid g : 0 <= g -> announces (frame_u32 k sid g) <= g.
Proof.
  intros Hg. assert (parse_u32 (frame_u32 k sid g) = Ok (g mod 256 ^ 4)) as Hp.
  { unfold parse_u32, frame_u32. cbn [payload]. by rewrite zlen_be_bytes, be_value_be_bytes. }
  unfold announces. rewrite Hp. pose proof (Z.mod_le g (256 ^ 4) Hg eq_refl). destruct (kind _); lia.
Qed.

Lemma window_kept_announce sid t d m g :
  heap t !! sid = Some d -> forall t' m' d', receive_remaining d' = receive_remaining d ->
  announcing (Some m') = 0 -> 0 <= g -> g <= announcing (Some m) -> heap t' = <[sid := d']> (heap t) ->
  commands t' = commands t ++ [frame_u32 WindowUpdate sid g] -> window_kept sid t d m (t', m').
Proof.
  intros Hd t' m' d' Hr Ha H0 Hg Hh Hc. split; simpl.
  - intros sid' Hne. split.
    + rewrite Hc, announced_app, announced_one. simpl. rewrite (proj2 (Z.eqb_neq _ _)) by done. lia.
    + rewrite Hh, lookup_insert_ne by done. by destruct (heap t !! sid'); [lia|].
  - exists d'. rewrite Hh, lookup_insert_eq. split; [done|].
    rewrite Hc, announced_app, announced_one. simpl stream_id. rewrite Z.eqb_refl.
    pose proof (announces_le WindowUpdate sid g H0). simpl in Ha, Hg. lia.
Qed.

Lemma download_window r sid t d m e tm :
  heap t !! sid = Some d -> download_step r sid t d m e = Some tm ->
  0 <= receive_remaining d -> receive_remaining d + in_hand (down m) <= u32_max -> down_ok (down m) ->
  window_kept sid t d m tm.
Proof.
  intros Hd H H0 Hu Hok.
  assert (0 <= announcing (Some m)) as Hpos by (simpl; destruct (down m); simpl in *; lia).
  assert (forall d1 res, receive_remaining d1 = receive_remaining d ->
    window_kept sid t d m (finish_download t sid d1 m res)) as Hfin
    by (intros d1 res Heq; apply window_kept_update; simpl in *; lia).
  assert (forall m', announcing (Some m') <= announcing (Some m) -> window_kept sid t d m (t, m')) as Hsame.
  { intros m' Ha. split.
    - intros. apply (window_move_core _ _ _ []); try done. by rewrite app_nil_r.
    - exists d. split; [done|]. simpl in *. lia. }
  unfold download_step in H.
  destruct (down m) as [|data|data g|data g|data g| |res] eqn:Em, e as [| |[g'|e']|[u|e']|[u|e']|o now|res'];
    simplify_eq; try (by apply Hfin).
  - case_match; simplify_eq. by apply Hfin.
  - destruct (inbound d) as [|[data| |] rest]; simplify_eq; try (by apply Hfin).
    + destruct (account_connection_bytes _ _ _); simplify_eq; [|by apply Hfin].
      apply window_kept_update; simpl in *; lia.
    + apply window_kept_update; simpl in *; lia.
  - case_match; simplify_eq; [by apply Hfin|]. apply Hsame. done.
  - apply Hsame. done.
  - simpl in Hok, Hu. unfold try_from in H.
    rewrite (proj2 (Z.leb_le 0 _)), (proj2 (Z.leb_le _ u32_max)) in H by lia. simplify_eq/=.
    apply window_kept_update. simpl. unfold wrapping_add. rewrite Z.mod_small by ulia. simpl in *. lia.
  - simpl in Hok, Hu. destruct (send _ _ _) as [res t2] eqn:Es.
    apply send_cases in Es as [[-> ->]|[Hf ->]]; [|destruct res; [done|]; simplify_eq; by apply Hfin].
    pose proof (window_kept_announce sid t d m g Hd) as Hpush.
    case_match; simplify_eq; [eapply (Hpush _ _ (close_inbound d))|eapply (Hpush _ _ d)]; try done;
      simpl; rewrite ?Em; try lia; by rewrite insert_id.
Qed.

Section Windows.
Context (s : ServerConfig) (r : RouteConfig).
Hypothesis Hc : link_config s r.

Lemma open_window l o pre sid :
  link_inv s r l -> counter l + 2 <= u64_max -> (forall sid', window_inv l pre sid') ->
  window_inv (open_step s l o) (pre ++ [EvOpen o]) sid.
Proof.
  intros Hl Hcnt Hall. pose proof (li_counter _ _ _ Hl) as [Ico Icb].
  destruct Hc as (Hs & _ & Hw). pose proof (link_frame_bounds s Hs) as [_ Hpos].
  assert (heap (tunnel l) !! counter l = None) as Hnone.
  { destruct (heap (tunnel l) !! counter l) eqn:E; [|done].
    destruct (li_ids _ _ _ Hl (counter l)); [by eexists|lia]. }
  pose proof (li_views _ _ _ Hl (counter l)) as Hv. unfold view_inv, view in Hv; simpl in Hv.
  rewrite Hnone in Hv. destruct Hv as (Hm & _).
  pose proof (Hall (counter l)) as Hnew. unfold window_inv in Hnew. rewrite Hnone in Hnew.
  unfold open_step, open_stream, next_stream_id, wrapping_add. rewrite Z.mod_small by ulia.
  rewrite (proj2 (Z.eqb_neq (counter l) 0)), <- Z.negb_odd, Ico by lia. simpl.
  set (t1 := with_heap _ _). pose proof (zlen_nonneg (received (counter l) (pre ++ [EvOpen o]))).
  assert (forall t' op, (forall sid', core <$> heap t' !! sid' = core <$> heap t1 !! sid') ->
    (commands t' = commands (tunnel l) \/
     commands t' = commands (tunnel l) ++ [frame_u32 Open (counter l) (initial_window_bytes s)]) ->
    window_inv (mkLink t' op (members l) (counter l + 2) (ping_sequence l) (inlog l) (credit l) (closed l))
      (pre ++ [EvOpen o]) sid) as Hgen.
  { intros t' op Hcore Hcmd. specialize (Hcore sid). destruct (decide (sid = counter l)) as [->|Hne].
    - unfold window_inv; simpl. rewrite Hm. simpl in Hcore. rewrite lookup_insert_eq in Hcore.
      destruct (heap t' !! counter l) as [d|]; [|done]. apply (inj Some) in Hcore.
      destruct d; unfold core, new_dispatch in Hcore; simplify_eq/=.
      pose proof (announces_le Open (counter l) (initial_window_bytes s) Hpos).
      destruct Hcmd as [-> | ->]; rewrite ?announced_app, ?announced_one, ?Z.eqb_refl; simpl;
        rewrite ?Z.eqb_refl; lia.
    - simpl in Hcore. rewrite lookup_insert_ne in Hcore by done.
      eapply (window_inv_move l); [done| |done]. change (received sid [EvOpen o]) with (@nil byte).
      split; simpl.
      + destruct Hcmd as [-> | ->]; [done|]. rewrite announced_app, announced_one. simpl.
        rewrite (proj2 (Z.eqb_neq _ _)) by done. lia.
      + pose proof (window_move_core (tunnel l) (mkTunnel (tunnel_id t') (commands (tunnel l)) (streams t')
          (heap t') (last_pong t') (t_cancel t')) sid [] 0 Hcore) as [_ Hm'];
          [by rewrite app_nil_r|done|done|done]. }
  destruct (send t1 _ o) as [res t2] eqn:Es.
  apply send_cases in Es as [[-> ->]|[Hf ->]].
  - apply Hgen; [done|]. by right.
  - destruct res; [done|]. apply Hgen.
    + intros sid'. apply remove_stream_core.
    + left. by rewrite remove_stream_commands.
Qed.

Lemma announcing_nonneg l sid : link_inv s r l -> 0 <= announcing (members l !! sid).
Proof.
  intros Hl. destruct (members l !! sid) as [m|] eqn:E; [|done].
  pose proof (li_views _ _ _ Hl sid) as Hv. unfold view_inv, view in Hv; simpl in Hv. rewrite E in Hv.
  destruct (heap (tunnel l) !! sid); simpl in Hv; [|by destruct Hv].
  destruct Hv as (_ & _ & Hv). pose proof (mi_down_ok _ _ _ _ _ _ _ Hv) as Hok. simpl.
  destruct (down m); simpl in *; lia.
Qed.

Lemma frame_window l f o now pre sid :
  window_inv l pre sid -> window_inv (frame_step s l f o now) (pre ++ [EvFrame f o now]) sid.
Proof.
  intros Hi. pose proof (handle_frame_window s (tunnel l) f o now sid) as Hm. unfold frame_step.
  assert (received sid [EvFrame f o now] = data_on sid [f]) as Hrec by done.
  destruct (handle_frame s (tunnel l) f o now) as [[u|e] t']; simpl in Hm;
    (eapply window_inv_move; [exact Hi| |done]); simpl; rewrite Hrec; [done|].
  rewrite <- (Z.add_0_r (zlen _)). eapply window_move_trans; [exact Hm|].
  apply (window_move_core _ _ _ []); [apply finish_tunnel_core|by rewrite app_nil_r|done|done].
Qed.

Lemma opened_window l sid out now pre sid' :
  link_inv s r l -> window_inv l pre sid' ->
  window_inv (opened_step l sid out now) (pre ++ [EvOpened sid out now]) sid'.
Proof.
  intros Hl Hi. unfold opened_step. destruct (open_finish (tunnel l) sid out) as [res t'] eqn:Eo.
  assert (window_move (tunnel l) t' sid' 0) as Hm.
  { unfold open_finish in Eo. destruct (open_result out) as [w|]; [|simplify_eq; apply window_move_remove].
    case_match; [|simplify_eq; apply window_move_remove].
    destruct (heap (tunnel l) !! sid) as [d|] eqn:Ed.
    - destruct (credit_add _ _). simplify_eq. by eapply window_move_update; [exact Ed|simpl; lia|].
    - simplify_eq. apply (window_move_core _ _ _ []); try done. by rewrite app_nil_r. }
  destruct (match res, out with Ok _, OpenValue (Ok window) => _ | _, _ => _ end) as [ms cs] eqn:Em.
  eapply window_inv_move; [exact Hi|exact Hm|]. simpl.
  pose proof (announcing_nonneg l sid' Hl) as Hpos.
  destruct res; [destruct out as [|[w|]| |]|]; simplify_eq; try done.
  rewrite lookup_insert. by case_decide.
Qed.

Lemma window_step l e l' pre :
  link_inv s r l -> counter l + 2 <= u64_max -> step s r l e = Some l' ->
  (forall sid, window_inv l pre sid) -> forall sid, window_inv l' (pre ++ [e]) sid.
Proof.
  intros Hl Hcnt Hstep Hall sid'. destruct e; simpl in Hstep.
  - case_match; simplify_eq. by apply frame_window.
  - case_match; simplify_eq. eapply window_core; [done|apply finish_tunnel_core| |by constructor|done].
    by rewrite app_nil_r.
  - case_match; simplify_eq. eapply window_core; [done|apply finish_tunnel_core| |by constructor|done].
    by rewrite app_nil_r.
  - simplify_eq. by apply open_window.
  - apply bind_Some in Hstep as (d & _ & Hstep). case_match; simplify_eq. by apply opened_window.
  - apply bind_Some in Hstep as ([m d] & Hrun & Hstep). case_match; [|done].
    apply fmap_Some in Hstep as ([t' m'] & Hu & ->). apply running_Some in Hrun as (Hm & Hd & _).
    destruct (upload_window _ _ _ _ _ _ _ _ Hd Hu) as [Hw Hdn].
    eapply window_inv_move; [done|apply Hw|]. simpl. rewrite lookup_insert. case_decide; [|done].
    subst. rewrite Hm. simpl. by rewrite Hdn.
  - apply bind_Some in Hstep as ([m d] & Hrun & Hstep). case_match; [|done].
    apply fmap_Some in Hstep as ([t' m'] & Hu & ->). apply running_Some in Hrun as (Hm & Hd & _).
    pose proof (li_views _ _ _ Hl sid) as Hv. unfold view_inv, view in Hv; simpl in Hv.
    rewrite Hd, Hm in Hv. simpl in Hv. destruct Hv as (H0 & _ & [Hwin _ _ _ _ _ _ Hok]). simpl in *.
    pose proof (zlen_nonneg (queue_bytes (inbound d))). destruct Hc as (_ & _ & Hu32).
    destruct (download_window _ _ _ _ _ _ _ Hd Hu H0) as [Hother (d' & Hd' & Hle)]; [ulia|done|].
    apply window_step_member; [done|done|by intros sid2 ?; split; [|apply Hother]|]. simpl in Hd', Hle.
    rewrite Hd'. pose proof (Hall sid) as Hown. unfold window_inv in Hown. rewrite Hd, Hm in Hown.
    simpl in *. lia.
  - apply bind_Some in Hstep as ([m d] & Hrun & Hstep). apply bind_Some in Hstep as (res & _ & Hstep).
    simplify_eq. apply running_Some in Hrun as (Hm & Hd & _).
    destruct (finish_member_facts (tunnel l) sid res o) as (Hcore & _ & ex & Hcmd & Hex).
    eapply window_core; [done|apply Hcore|exact Hcmd| |].
    + destruct Hex as [->| ->]; [by constructor|by apply Forall_singleton].
    + simpl. rewrite lookup_insert. case_decide; [|done]. subst. by rewrite Hm.
  - destruct (heartbeat_pass _ _ _ _ _ _ _) as [seq' t'] eqn:Eh. simplify_eq.
    assert (same_core (tunnel l) t' /\ exists ex, commands t' = commands (tunnel l) ++ ex /\
      Forall (fun f => announces f = 0) ex) as (Hcore & ex & Hcmd & Hex).
    { unfold heartbeat_pass in Eh. case_match; simplify_eq.
      { split; [done|]. exists []. by rewrite app_nil_r. }
      destruct (send _ _ _) as [res t2] eqn:Es. apply send_cases in Es as [[-> ->]|[Hf ->]].
      - simplify_eq. split; [done|]. eexists [_]. by rewrite Forall_singleton.
      - destruct res; [done|]. simplify_eq. split; [done|]. exists []. by rewrite app_nil_r. }
    by eapply window_core.
  - simplify_eq. eapply (window_core _ _ _ _ _ []); try done. by rewrite app_nil_r.
Qed.

Lemma window_run es l l' pre :
  link_inv s r l -> counter l + 2 * zlen es <= u64_max -> run s r l es = Some l' ->
  (forall sid, window_inv l pre sid) -> forall sid, window_inv l' (pre ++ es) sid.
Proof.
  destruct Hc as (Hs & Hr & Hw). pose proof (config_bytes s r Hc) as Hb.
  revert l pre. induction es as [|e es IH]; intros l pre Hl Hcnt Hrun Hall.
  { simpl in Hrun. simplify_eq. by rewrite app_nil_r. }
  apply bind_Some in Hrun as (l1 & Hstep & Hrun).
  change (e :: es) with ([e] ++ es) in Hcnt. rewrite zlen_app in Hcnt. change (zlen [e]) with 1 in Hcnt.
  pose proof (zlen_nonneg es). pose proof (li_counter _ _ _ Hl) as [_ Hcr].
  assert (counter l + 2 <= u64_max) as Hc2 by lia.
  pose proof (step_counter _ _ _ _ _ Hc2 (proj1 Hcr) Hstep).
  change (e :: es) with ([e] ++ es). rewrite app_assoc. apply (IH l1); [|lia|done|].
  - by eapply link_step_inv; [exact Hs|ulia|exact Hb|exact Hl|..].
  - by eapply window_step.
Qed.
End Windows.

(** ** What is delivered is what was queued *)

Lemma step_commands s r l e l' :
  link_inv s r l -> counter l + 2 <= u64_max -> server_ok s -> step s r l e = Some l' ->
  commands (tunnel l) `prefix_of` commands (tunnel l').
Proof.
  intros Hl Hc Hs Hstep. destruct (step_opens s r Hs l e l' Hl Hc Hstep)
    as [[(ex & -> & _) _]|(_ & _ & ?)]; [by apply prefix_app_r|done].
Qed.

Lemma node_send_prefix t f o : nt_commands t `prefix_of` nt_commands (node_send t f o).2.
Proof. destruct o; simpl; [by apply prefix_app_r|done|done]. Qed.

Lemma node_send_prefix_eq t f o res t' :
  node_send t f o = (res, t') -> nt_commands t `prefix_of` nt_commands t'.
Proof. intros H. pose proof (node_send_prefix t f o) as Hp. by rewrite H in Hp. Qed.

Lemma node_removed_prefix t t' sid :
  nt_commands t `prefix_of` nt_commands t' ->
  nt_commands t `prefix_of` nt_commands (node_remove_stream t' sid).
Proof. by rewrite (proj1 (node_remove_commands t' sid)). Qed.

Lemma to_step_commands t obj st ls e tl :
  to_step t obj st ls e = Some tl -> nt_commands t `prefix_of` nt_commands tl.1.
Proof.
  unfold to_step, to_finish. intros H.
  repeat case_match; simplify_eq; try done; simpl; by eapply node_send_prefix_eq.
Qed.

Lemma from_step_commands t obj st ls e tl :
  from_step t obj st ls e = Some tl -> nt_commands t `prefix_of` nt_commands tl.1.
Proof.
  unfold from_step. intros H.
  repeat case_match; simplify_eq; try done; simpl; by eapply node_send_prefix_eq.
Qed.

Lemma node_step_commands c l e l' :
  node_step c l e = Some l' -> nt_commands (nl_tunnel l) `prefix_of` nt_commands (nl_tunnel l').
Proof.
  intros Hstep. destruct e; simpl in Hstep.
  - case_match; simplify_eq. unfold node_frame_step.
    destruct (nfe_commands _ _ _ _ (node_frame_effect c (nl_tunnel l) f (nl_slots l) o now))
      as (ex & Hc & _).
    destruct (rd_result _); simpl; rewrite Hc; by apply prefix_app_r.
  - by case_match; simplify_eq.
  - by case_match; simplify_eq.
  - apply bind_Some in Hstep as ([ls st] & _ & Hstep). by destruct (ls_phase ls); simplify_eq.
  - apply bind_Some in Hstep as ([ls st] & _ & Hstep). destruct (ls_phase ls); simplify_eq. simpl.
    apply node_removed_prefix, node_send_prefix.
  - apply bind_Some in Hstep as ([ls st] & _ & Hstep). destruct (ls_phase ls); simplify_eq.
    destruct nodelay; simplify_eq; [|by apply node_removed_prefix].
    destruct (node_send _ _ _) as [[?|?] t'] eqn:E; simplify_eq; apply node_send_prefix_eq in E;
      [done|by apply node_removed_prefix].
  - apply bind_Some in Hstep as ([ls st] & _ & Hstep). destruct (ls_phase ls); simplify_eq.
    apply fmap_Some in Hstep as (tl & H & ->). by eapply to_step_commands.
  - apply bind_Some in Hstep as ([ls st] & _ & Hstep).
    destruct (ls_phase ls), e as [| [?|?] | | |]; try case_match; try done;
      apply fmap_Some in Hstep as (tl & H' & ->); by eapply from_step_commands.
  - apply bind_Some in Hstep as ([ls st] & _ & Hstep). destruct (ls_phase ls); simplify_eq.
    case_match; simplify_eq. by apply (node_removed_prefix (nl_tunnel l)).
  - apply bind_Some in Hstep as ([ls st] & _ & Hstep). destruct (ls_phase ls); simplify_eq.
    apply node_send_prefix.
  - unfold node_heartbeat_pass in Hstep. destruct (_ <? _); simplify_eq/=; [done|].
    destruct (node_send _ _ _) as [[?|?] t'] eqn:E; simplify_eq/=; by eapply node_send_prefix_eq.
  - by simplify_eq.
Qed.

Lemma run_snoc s r l es e l1 l2 :
  run s r l es = Some l1 -> step s r l1 e = Some l2 -> run s r l (es ++ [e]) = Some l2.
Proof.
  revert l. induction es as [|e1 es IH]; intros l Hrun Hstep; simpl in *.
  - simplify_eq. by rewrite Hstep.
  - apply bind_Some in Hrun as (l' & -> & Hrun). simpl. by apply IH.
Qed.

Lemma node_run_snoc c l es e l1 l2 :
  node_run c l es = Some l1 -> node_step c l1 e = Some l2 -> node_run c l (es ++ [e]) = Some l2.
Proof.
  revert l. induction es as [|e1 es IH]; intros l Hrun Hstep; simpl in *.
  - simplify_eq. by rewrite Hstep.
  - apply bind_Some in Hrun as (l' & -> & Hrun). simpl. by apply IH.
Qed.

(** A joined run, seen from each end: the frames an end reads are the first
    ones the other end queued. *)
Record wired (s : ServerConfig) (r : RouteConfig) (c : NodeConnectorConfig) (l0 : Link) (n0 : NodeLink)
    (p : Pair) (res : list Event) (nes : list NodeEvent) : Prop := {
  w_relay : run s r l0 res = Some (p_relay p);
  w_node : node_run c n0 nes = Some (p_node p);
  w_to_relay : frames_of res = take (to_relay p) (nt_commands (nl_tunnel (p_node p)));
  w_to_node : node_frames nes = drop 1 (take (to_node p) (commands (tunnel (p_relay p))));
  w_counts : (to_relay p <= length (nt_commands (nl_tunnel (p_node p))))%nat /\
    (1 <= to_node p <= length (commands (tunnel (p_relay p))))%nat;
}.

Lemma take_prefix_same {A} (a b : list A) n : a `prefix_of` b -> (n <= length a)%nat -> take n b = take n a.
Proof. intros [k ->] Hn. by rewrite take_app_le. Qed.

Lemma frames_of_snoc es e :
  frames_of (es ++ [e]) = frames_of es ++ match e with EvFrame f _ _ => [f] | _ => [] end.
Proof. unfold frames_of. rewrite omap_app. by destruct e. Qed.

Lemma node_frames_snoc es e : node_frames (es ++ [e]) = node_frames es ++ event_frames e.
Proof. unfold node_frames. rewrite bind_app. simpl. by rewrite app_nil_r. Qed.

Lemma run_counter s r es l l1 :
  1 <= counter l -> counter l + 2 * zlen es <= u64_max -> run s r l es = Some l1 ->
  counter l1 <= counter l + 2 * zlen es.
Proof.
  revert l. induction es as [|e es IH]; intros l H1 Hc Hrun; [simpl in Hrun; simplify_eq; unfold zlen; simpl; lia|].
  apply bind_Some in Hrun as (l2 & Hstep & Hrun).
  change (e :: es) with ([e] ++ es) in *. rewrite zlen_app in *. change (zlen [e]) with 1 in *.
  pose proof (zlen_nonneg es). assert (counter l + 2 <= u64_max) as Hc2 by lia.
  pose proof (step_counter _ _ _ _ _ Hc2 H1 Hstep).
  assert (counter l1 <= counter l2 + 2 * zlen es) by (apply IH; [lia|lia|done]). lia.
Qed.

Section Joined.
Context (s : ServerConfig) (r : RouteConfig) (c : NodeConnectorConfig).
Hypothesis Hconf : pair_config s r c.

Lemma relay_snoc l0 n0 p res nes e l :
  wired s r c l0 n0 p res nes -> is_frame e = false -> step s r (p_relay p) e = Some l ->
  commands (tunnel (p_relay p)) `prefix_of` commands (tunnel l) ->
  wired s r c l0 n0 (mkPair l (p_node p) (to_node p) (to_relay p)) (res ++ [e]) nes.
Proof.
  intros [W1 W2 W3 W4 [W5 W6]] He Hstep Hp. split; simpl; try done.
  - by eapply run_snoc.
  - rewrite frames_of_snoc, W3. destruct e; simpl in He; by rewrite ?app_nil_r.
  - rewrite W4. by rewrite (take_prefix_same (commands (tunnel (p_relay p))) (commands (tunnel l))) by (done || lia).
  - apply prefix_length in Hp. lia.
Qed.

Lemma node_snoc l0 n0 p res nes e l :
  wired s r c l0 n0 p res nes -> is_node_frame e = false -> node_step c (p_node p) e = Some l ->
  wired s r c l0 n0 (mkPair (p_relay p) l (to_node p) (to_relay p)) res (nes ++ [e]).
Proof.
  intros [W1 W2 W3 W4 [W5 W6]] He Hstep. pose proof (node_step_commands _ _ _ _ Hstep) as Hp.
  split; simpl; try done.
  - by eapply node_run_snoc.
  - rewrite W3. by rewrite (take_prefix_same _ _ (to_relay p) Hp).
  - rewrite node_frames_snoc, W4. destruct e; simpl in He |- *; by rewrite ?app_nil_r.
  - apply prefix_length in Hp. lia.
Qed.

Lemma to_node_snoc l0 n0 p res nes f o now l :
  wired s r c l0 n0 p res nes -> commands (tunnel (p_relay p)) !! to_node p = Some f ->
  node_step c (p_node p) (NeFrame f o now) = Some l ->
  wired s r c l0 n0 (mkPair (p_relay p) l (S (to_node p)) (to_relay p)) res (nes ++ [NeFrame f o now]).
Proof.
  intros [W1 W2 W3 W4 [W5 W6]] Hf Hstep. pose proof (node_step_commands _ _ _ _ Hstep) as Hp.
  pose proof (lookup_lt_Some _ _ _ Hf). split; simpl; try done.
  - by eapply node_run_snoc.
  - rewrite W3. by rewrite (take_prefix_same _ _ (to_relay p) Hp).
  - rewrite node_frames_snoc, W4, (take_S_r _ _ _ Hf), drop_app_le; [done|].
    rewrite length_take. lia.
  - apply prefix_length in Hp. lia.
Qed.

Lemma to_relay_snoc l0 n0 p res nes f o now l :
  wired s r c l0 n0 p res nes -> nt_commands (nl_tunnel (p_node p)) !! to_relay p = Some f ->
  step s r (p_relay p) (EvFrame f o now) = Some l ->
  commands (tunnel (p_relay p)) `prefix_of` commands (tunnel l) ->
  wired s r c l0 n0 (mkPair l (p_node p) (to_node p) (S (to_relay p))) (res ++ [EvFrame f o now]) nes.
Proof.
  intros [W1 W2 W3 W4 [W5 W6]] Hf Hstep Hp. pose proof (lookup_lt_Some _ _ _ Hf).
  split; simpl; try done.
  - by eapply run_snoc.
  - by rewrite frames_of_snoc, W3, (take_S_r _ _ _ Hf).
  - rewrite W4. by rewrite (take_prefix_same (commands (tunnel (p_relay p))) (commands (tunnel l))) by (done || lia).
  - apply prefix_length in Hp. lia.
Qed.

(** Both ends of a joined run, from its start *)
Lemma wired_run es l0 n0 p res nes p' :
  link_inv s r l0 -> counter l0 + 2 * (zlen res + zlen es) <= u64_max -> wired s r c l0 n0 p res nes ->
  pair_run s r c p es = Some p' ->
  exists res' nes', wired s r c l0 n0 p' res' nes' /\ zlen res' <= zlen res + zlen es.
Proof.
  destruct Hconf as [Hlc _]. pose proof (config_bytes s r Hlc) as Hb. destruct Hlc as (Hs & Hr & Hw).
  intros Hl0. revert p res nes. induction es as [|e es IH]; intros p res nes Hcnt Hwd Hrun.
  { simpl in Hrun. simplify_eq. exists res, nes. split; [done|]. change (zlen (@nil PairEvent)) with 0. lia. }
  apply bind_Some in Hrun as (p1 & Hstep & Hrun).
  change (e :: es) with ([e] ++ es) in *. rewrite zlen_app in *. change (zlen [e]) with 1 in *.
  pose proof (zlen_nonneg es). pose proof (zlen_nonneg res).
  assert (link_inv s r (p_relay p)) as Hl.
  { eapply link_run_inv; [exact Hs|ulia|exact Hb|exact Hl0| |apply Hwd]. lia. }
  assert (counter (p_relay p) + 2 <= u64_max) as Hc2.
  { pose proof (li_counter _ _ _ Hl0) as [_ H1]. pose proof (w_relay _ _ _ _ _ _ _ _ Hwd) as Hrr.
    apply run_counter in Hrr; lia. }
  assert (exists res1 nes1, wired s r c l0 n0 p1 res1 nes1 /\ zlen res <= zlen res1 <= zlen res + 1)
    as (res1 & nes1 & Hw1 & Hle).
  { destruct e; simpl in Hstep.
    - case_match; [done|]. apply bind_Some in Hstep as (l & Hs1 & Hstep). simplify_eq.
      eexists _, _. split; [eapply relay_snoc; [done..|]|rewrite zlen_app; change (zlen [e]) with 1; lia].
      exact (step_commands s r _ _ _ Hl Hc2 Hs Hs1).
    - case_match; [done|]. apply bind_Some in Hstep as (l & Hs1 & Hstep). simplify_eq.
      eexists _, _. split; [by eapply node_snoc|lia].
    - apply bind_Some in Hstep as (f & Hf & Hstep). apply bind_Some in Hstep as (l & Hs1 & Hstep).
      simplify_eq. eexists _, _. split; [by eapply to_node_snoc|lia].
    - apply bind_Some in Hstep as (f & Hf & Hstep). apply bind_Some in Hstep as (l & Hs1 & Hstep).
      simplify_eq. eexists _, _. split; [eapply to_relay_snoc; [done..|]|rewrite zlen_app; change (zlen [EvFrame f o now]) with 1; lia].
      exact (step_commands s r _ (EvFrame f o now) _ Hl Hc2 Hs Hs1). }
  destruct (IH p1 res1 nes1) as (res' & nes' & Hw' & Hle'); [lia|done|done|].
  exists res', nes'. split; [done|lia].
Qed.

Lemma run_commands es l l' :
  link_inv s r l -> counter l + 2 * zlen es <= u64_max -> run s r l es = Some l' ->
  commands (tunnel l) `prefix_of` commands (tunnel l').
Proof.
  destruct Hconf as [Hlc _]. pose proof (config_bytes s r Hlc) as Hb. destruct Hlc as (Hs & Hr & Hw).
  revert l. induction es as [|e es IH]; intros l Hl Hcnt Hrun; [simpl in Hrun; by simplify_eq|].
  apply bind_Some in Hrun as (l1 & Hstep & Hrun).
  change (e :: es) with ([e] ++ es) in *. rewrite zlen_app in *. change (zlen [e]) with 1 in *.
  pose proof (zlen_nonneg es). assert (counter l + 2 <= u64_max) as Hc2 by lia.
  pose proof (li_counter _ _ _ Hl) as [_ H1]. pose proof (step_counter _ _ _ _ _ Hc2 (proj1 H1) Hstep).
  etrans; [exact (step_commands s r _ _ _ Hl Hc2 Hs Hstep)|].
  apply IH; [|lia|done]. by eapply link_step_inv; [exact Hs|ulia|exact Hb|exact Hl|..].
Qed.

(** The facts of both ends about one joined run *)
Record joined (p : Pair) (res : list Event) (nes : list NodeEvent) : Prop := {
  j_relay : tunnel_run s r res (p_relay p);
  j_node : node_inv c (p_node p) (node_frames nes);
  j_window : forall sid, window_inv (p_relay p) res sid;
  j_to_relay : frames_of res = take (to_relay p) (nt_commands (nl_tunnel (p_node p)));
  j_to_node : exists first, kind first = RegisterOk /\
    first :: node_frames nes = take (to_node p) (commands (tunnel (p_relay p)));
}.

Lemma joined_facts es p : joined_run s r c es p -> exists res nes, joined p res nes.
Proof.
  intros (id & k & now & Ho & H1 & H2 & Hrun). pose proof Hconf as [Hlc [_ Hwin]].
  pose proof (config_bytes s r Hlc) as Hb. pose proof Hlc as (Hs & Hr & Hw). pose proof (zlen_nonneg es).
  assert (link_inv s r (fresh_link s id k now)) as Hl0 by (apply fresh_link_inv; (done || ulia)).
  destruct (wired_run es (fresh_link s id k now) (fresh_node c now) (fresh_pair s c id k now) [] [] p)
    as (res & nes & [W1 W2 W3 W4 [W5 W6]] & Hle); [done|done|by split; simpl; try done; lia|done|].
  change (zlen (@nil Event)) with 0 in Hle.
  assert (tunnel_run s r res (p_relay p)) as Htr by (exists id, k, now; split_and!; (done || lia)).
  assert (exists first, kind first = RegisterOk /\
    first :: node_frames nes = take (to_node p) (commands (tunnel (p_relay p)))) as (first & Hk & Hf).
  { destruct (run_commands res _ _ Hl0 ltac:(simpl; lia) W1) as [rest Hrest]. simpl in Hrest.
    destruct (to_node p) as [|n]; [lia|]. rewrite W4, Hrest. simpl.
    eexists. split; [|reflexivity]. done. }
  exists res, nes. split; [done| | |done|by exists first].
  - apply (node_run_inv c Hwin nes (fresh_node c now) []); [by apply fresh_node_inv|done|]. simpl.
    assert (NoDup (opened_ids (first :: node_frames nes))) as Hnd.
    { rewrite Hf. pose proof (ids_unique s r res _ Hlc Htr) as Hn.
      rewrite <- (take_drop (to_node p) (commands _)), opened_ids_app in Hn.
      by apply NoDup_app in Hn as (? & _). }
    change (first :: node_frames nes) with ([first] ++ node_frames nes) in Hnd.
    rewrite opened_ids_app in Hnd. by apply NoDup_app in Hnd as (_ & _ & ?).
  - intros sid. apply (window_run s r Hlc res (fresh_link s id k now) _ []); [done|simpl; lia|done|].
    intros sid'. unfold window_inv; simpl. rewrite lookup_empty, announced_one. by case_match.
Qed.

(** What an end read of a stream is the beginning of what the other end sent. *)
Lemma node_read p res nes sid :
  joined p res nes ->
  data_on sid (node_frames nes) `prefix_of` data_on sid (commands (tunnel (p_relay p))) /\
  announced sid (node_frames nes) <= announced sid (commands (tunnel (p_relay p))).
Proof.
  intros [_ _ _ _ (first & Hk & Hf)]. rewrite <- (take_drop (to_node p) (commands _)), <- Hf.
  change (first :: node_frames nes) with ([first] ++ node_frames nes).
  rewrite !data_on_app, !announced_app, data_on_control by congruence. split; [by apply prefix_app_r|].
  pose proof (announced_nonneg sid [first]).
  pose proof (announced_nonneg sid (drop (to_node p) (commands (tunnel (p_relay p))))). lia.
Qed.

Lemma relay_read p res nes sid :
  joined p res nes ->
  received sid res `prefix_of` data_on sid (nt_commands (nl_tunnel (p_node p))) /\
  granted sid res <= announced sid (nt_commands (nl_tunnel (p_node p))).
Proof.
  intros [_ _ _ Hf _]. unfold received, granted. rewrite Hf.
  set (cmds := nt_commands _). pattern cmds at 2 4. rewrite <- (take_drop (to_relay p) cmds).
  rewrite data_on_app, announced_app. split; [by apply prefix_app_r|].
  pose proof (announced_nonneg sid (drop (to_relay p) cmds)).
  assert (forall fs, foldr Z.add 0 ((fun f => if stream_id f =? sid then frame_grant f else 0) <$> fs)
    <= announced sid fs) as Hle; [|specialize (Hle (take (to_relay p) cmds)); lia].
  intros fs. unfold announced. induction fs as [|f fs IH]; [done|]. rewrite !fmap_cons. cbn [foldr].
  assert (frame_grant f <= announces f) by (unfold frame_grant, announces; destruct (kind f), (parse_u32 f) eqn:E;
    try done; by apply parse_u32_range in E as [? _]).
  case_match; lia.
Qed.
End Joined.

(** ** End to end *)

(** C2: A member and its target are connected: whatever the tasks of the relay
    and the node do, what was written to a stream's target is a prefix of what
    was read from its member, and what was written to the member is a prefix
    of what was read from the target. *)
Theorem end_to_end_bytes s r c es p sid m obj ls :
  pair_config s r c -> joined_run s r c es p -> members (p_relay p) !! sid = Some m ->
  nl_tasks (p_node p) !! obj = Some ls -> ls_sid ls = sid ->
  ls_written ls `prefix_of` taken m /\ written m `prefix_of` ls_taken ls.
Proof.
  intros Hc Hrun Hm Hls Hsid. destruct (joined_facts s r c Hc es p Hrun) as (res & nes & Hj).
  pose proof Hj as [Htr Hn _ _ _]. destruct Hc as [Hlc _].
  destruct (tunnel_run_member _ _ _ _ _ _ Hlc Htr Hm) as (d & _ & _ & _ & [_ Hdn Hup Hout _ _ _ _]).
  destruct (ni_tasks _ _ _ Hn _ _ Hls) as (st & _ & [_ (inl & Hp & _ & Hto) Hfrom Hsent _ _ _ _]).
  destruct (node_read s r c p res nes sid Hj) as [Hr1 _], (relay_read s r c p res nes sid Hj) as [Hr2 _].
  rewrite Hsid in *. split.
  - trans inl; [by destruct (ls_to ls); simpl in Hto; try done; rewrite Hto; apply prefix_app_r|].
    trans (data_on sid (node_frames nes)); [done|]. trans (sent m); [by rewrite <- Hout|].
    by destruct (up m); try done; rewrite Hup; apply prefix_app_r.
  - trans (inlog_of (p_relay p) sid);
      [by destruct (down m); try done; rewrite Hdn; apply prefix_app_r|].
    trans (received sid res); [by eapply inlog_received|]. trans (ls_sent ls); [by rewrite <- Hsent|].
    by destruct (ls_from ls); simpl in Hfrom; try done; rewrite Hfrom; apply prefix_app_r.
Qed.

Lemma sent_within_grant s r es l sid :
  link_config s r -> tunnel_run s r es l -> zlen (data_on sid (commands (tunnel l))) <= granted sid es.
Proof.
  intros Hc Hrun. pose proof (li_views _ _ _ (tunnel_run_inv _ _ _ _ Hc Hrun) sid) as Hv.
  pose proof (credit_granted _ _ _ _ sid Hc Hrun) as Hg.
  unfold view_inv, view in Hv; simpl in Hv. destruct (heap (tunnel l) !! sid) as [d|]; simpl in Hv.
  - destruct Hv as (H0 & Hk0 & Hv). destruct (members l !! sid) as [m|].
    + destruct Hv as [_ _ _ Ho Hk _ [_ Hu] _]. rewrite Ho. simpl in *.
      assert (0 <= up_credit (up m)) by (destruct (up m); simpl in *; lia). lia.
    + destruct Hv as (_ & _ & Hk & ->). change (zlen (@nil byte)) with 0. lia.
  - destruct Hv as (_ & _ & -> & Hk). change (zlen (@nil byte)) with 0. lia.
Qed.

Lemma unannounced_nonneg c ls : is_u32 (nc_initial_window_bytes c) -> 0 <= unannounced c ls.
Proof.
  intros [Hw _]. unfold unannounced. pose proof (zlen_nonneg (match ls_to ls with TgSend d => d | _ => [] end)).
  destruct (ls_phase ls), (ls_to ls); simpl in *; lia.
Qed.

Lemma node_sent_within c l fs sid :
  node_inv c l fs -> sid <> 0 -> zlen (data_on sid (nt_commands (nl_tunnel l))) <= announced sid fs.
Proof.
  intros Hn Hz. destruct (ni_data _ _ _ Hn sid Hz) as [->|(obj & ls & Hls & <-)].
  { change (zlen (@nil byte)) with 0. apply announced_nonneg. }
  destruct (ni_tasks _ _ _ Hn _ _ Hls) as (st & _ & [[_ H0] _ _ -> Hk _ _ _]).
  assert (0 <= from_credit (ls_from ls)) by (destruct (ls_from ls); simpl; try lia; apply zlen_nonneg). lia.
Qed.

Lemma next_data sid (fs pre : list Frame) n f :
  fs !! n = Some f -> kind f = Data -> stream_id f = sid -> data_on sid (take n fs) = data_on sid pre ->
  zlen (data_on sid pre) + zlen (payload f) <= zlen (data_on sid fs).
Proof.
  intros Hf Hk Hsid Hpre. rewrite <- (take_drop (S n) fs), (take_S_r _ _ _ Hf), !data_on_app, Hpre.
  rewrite !zlen_app, <- Hsid, (data_on_own f Hk).
  pose proof (zlen_nonneg (data_on (stream_id f) (drop (S n) fs))). lia.
Qed.

Lemma debit_fits a b : 0 <= b -> b <= a -> is_Some (checked_sub a b).
Proof.
  intros H0 H. unfold checked_sub. rewrite (proj2 (Z.leb_le _ _)) by lia. by eexists.
Qed.

(** C3: Neither end of a tunnel ever overruns the window the other one
    announced: at no point of a joined run is the next frame on the wire a
    [Data] frame that the window check of its reader refuses, so between a
    relay and a node that run this code flow control never ends a tunnel. *)
Theorem flow_control_holds s r c es p :
  pair_config s r c -> joined_run s r c es p ->
  (forall f d, nt_commands (nl_tunnel (p_node p)) !! to_relay p = Some f -> kind f = Data ->
     heap (tunnel (p_relay p)) !! stream_id f = Some d ->
     is_ok (debit_receive_window d (zlen (payload f))) = true) /\
  (forall f obj st, commands (tunnel (p_relay p)) !! to_node p = Some f -> kind f = Data ->
     nt_streams (nl_tunnel (p_node p)) !! stream_id f = Some obj ->
     nt_objects (nl_tunnel (p_node p)) !! obj = Some st ->
     is_ok (debit_window st (zlen (payload f))) = true).
Proof.
  intros Hc Hrun. destruct (joined_facts s r c Hc es p Hrun) as (res & nes & Hj).
  pose proof Hj as [Htr Hn Hwin Hfr (first & Hk1 & Hf1)]. destruct Hc as [Hlc [_ Hw]]. split.
  - intros f d Hf Hk Hd. pose proof (next_data (stream_id f) _ (frames_of res) _ _ Hf Hk eq_refl
      ltac:(by rewrite Hfr)) as Hnext.
    destruct (node_read s r c p res nes (stream_id f) Hj) as [_ Hann].
    pose proof (Hwin (stream_id f)) as Hi. unfold window_inv in Hi. rewrite Hd in Hi.
    assert (0 <= announcing (members (p_relay p) !! stream_id f)) as Hpos
      by (by eapply announcing_nonneg, tunnel_run_inv).
    assert (zlen (data_on (stream_id f) (nt_commands (nl_tunnel (p_node p))))
      <= announced (stream_id f) (node_frames nes)) as Hsent.
    { eapply node_sent_within; [exact Hn|]. pose proof (tunnel_run_inv _ _ _ _ Hlc Htr) as Hli.
      destruct (li_ids _ _ _ Hli (stream_id f)); [by eexists|lia]. }
    unfold received in Hi.
    destruct (debit_fits (receive_remaining d) (zlen (payload f))) as [x Hx];
      [apply zlen_nonneg|lia|]. unfold debit_receive_window. by rewrite Hx.
  - intros f obj st Hf Hk Hs Ho.
    pose proof (next_data (stream_id f) _ (node_frames nes) _ _ Hf Hk eq_refl) as Hnext.
    rewrite <- Hf1 in Hnext. change (first :: node_frames nes) with ([first] ++ node_frames nes) in Hnext.
    rewrite data_on_app, data_on_control in Hnext by congruence. specialize (Hnext eq_refl).
    pose proof (sent_within_grant _ _ _ _ (stream_id f) Hlc Htr) as Hg.
    destruct (relay_read s r c p res nes (stream_id f) Hj) as [_ Hann].
    destruct (ni_table _ _ _ Hn _ _ Hs) as (ls & Hls & Hsid).
    destruct (ni_tasks _ _ _ Hn _ _ Hls) as (st' & Ho' & [[H0 _] _ _ _ _ Hwi _ _]). simplify_eq.
    rewrite Hsid in Hwi. simpl in Hwi.
    assert (0 <= unannounced c ls) as Hpos by (apply unannounced_nonneg, Hw).
    destruct (debit_fits (ns_remaining st) (zlen (payload f))) as [x Hx];
      [apply zlen_nonneg|lia|]. unfold debit_window. by rewrite Hx.
Qed.

(** ** Concrete runs *)

Definition sample_pair : Pair := fresh_pair sample_link_server sample_connector 9 1 0.
Definition sample_joined (es : list PairEvent) : Pair :=
  default sample_pair (pair_run sample_link_server sample_link_route sample_connector sample_pair es).

(** Stream 1 opens. *)
Definition pair_opening : list PairEvent :=
  [PRelay (EvOpen Sent); PToNode Sent 1; PNode (NeConnect 0 true); PNode (NeOpenOk 0 true Sent 2);
   PToRelay Sent 3; PRelay (EvOpened 1 (OpenValue (Ok 262144)) 4)].
(** The target's bytes reach the command queue. *)
Definition target_sends (data : list byte) : list PairEvent :=
  [PNode (NeFrom 0 (FeRead (Ok data))); PNode (NeFrom 0 FeCredit); PNode (NeFrom 0 (FeSent Sent 10))].
Definition target_gets : list PairEvent :=
  [PNode (NeTo 0 TeReceive); PNode (NeTo 0 (TeWritten (Ok tt))); PNode (NeTo 0 (TeSent Sent 9))].
Definition pair_exchange : list PairEvent :=
  pair_opening ++ (PRelay <$> sample_up (as_bytes "hi")) ++ [PToNode Sent 8] ++ target_gets ++
  target_sends (as_bytes "yo!") ++ [PToRelay Sent 11; PToRelay Sent 12] ++
  (PRelay <$> sample_down (as_bytes "yo!")).
(** Both sides finish: the target after its bytes, the member at once. *)
Definition both_finish : list PairEvent :=
  target_sends (as_bytes "yo!") ++
  [PNode (NeFrom 0 (FeRead (Ok []))); PNode (NeFrom 0 (FeSent Sent 11));
   PRelay (EvUp 1 (UeRead (Ok []))); PRelay (EvUp 1 (UeSent Sent 12)); PToNode Sent 13;
   PNode (NeTo 0 TeReceive); PNode (NeTo 0 (TeShutdown (Ok tt))); PNode (NeEnd 0 LeJoined);
   PNode (NeClosed 0 Sent)].

Lemma sample_pair_config : pair_config sample_link_server sample_link_route sample_connector.
Proof.
  split; [exact sample_config_ok|]. split; [vm_compute; reflexivity|]. by vm_compute.
Qed.

Lemma sample_joined_run es :
  zlen es < 1000 ->
  is_Some (pair_run sample_link_server sample_link_route sample_connector sample_pair es) ->
  joined_run sample_link_server sample_link_route sample_connector es (sample_joined es).
Proof.
  intros Hlen [p Hp]. exists 9, 1, 0. split; [done|]. split; [done|]. split; [ulia|].
  unfold sample_joined, sample_pair in *. by rewrite Hp.
Qed.

Definition pair_member (p : Pair) : Member := default (new_member 0) (members (p_relay p) !! 1).
Definition pair_local (p : Pair) : LocalStream := default (new_local 0) (nl_tasks (p_node p) !! 0).

Lemma end_to_end_bytes_witness :
  ls_written (pair_local (sample_joined pair_exchange)) = as_bytes "hi" /\
  written (pair_member (sample_joined pair_exchange)) = as_bytes "yo!" /\
  ls_written (pair_local (sample_joined pair_exchange))
    `prefix_of` taken (pair_member (sample_joined pair_exchange)).
Proof.
  split; [vm_compute; reflexivity|]. split; [vm_compute; reflexivity|].
  apply (end_to_end_bytes sample_link_server sample_link_route sample_connector pair_exchange
    (sample_joined pair_exchange) 1 (pair_member (sample_joined pair_exchange)) 0
    (pair_local (sample_joined pair_exchange)) sample_pair_config);
    [|vm_compute; reflexivity|vm_compute; reflexivity|vm_compute; reflexivity].
  apply sample_joined_run; [by vm_compute|]. vm_compute. by eexists.
Defined.

(** The node is about to read the member's bytes. *)
Definition before_data : list PairEvent := pair_opening ++ (PRelay <$> sample_up (as_bytes "hi")).

Lemma flow_control_holds_witness :
  exists st, nt_objects (nl_tunnel (p_node (sample_joined before_data))) !! 0 = Some st /\
    is_ok (debit_window st 2) = true.
Proof.
  destruct (flow_control_holds sample_link_server sample_link_route sample_connector before_data
    (sample_joined before_data) sample_pair_config) as [_ Hn].
  { apply sample_joined_run; [by vm_compute|]. vm_compute. by eexists. }
  eexists. split; [vm_compute; reflexivity|].
  apply (Hn (mkFrame Data 1 (as_bytes "hi")) 0); vm_compute; reflexivity.
Defined.

(** An orderly end can lose bytes: the target sends and closes, the member
    has closed its direction, and the node's task ends in order; its [Close]
    follows the [Data] and [Fin] at once and cancels the stream on the relay,
    so that the relay may end it with nothing written to the member. *)
Theorem orderly_close_loses_bytes :
  exists es p m ls,
    joined_run sample_link_server sample_link_route sample_connector es p /\
    members (p_relay p) !! 1 = Some m /\ nl_tasks (p_node p) !! 0 = Some ls /\
    ls_to ls = TgDone (Ok tt) /\ ls_from ls = FtDone (Ok tt) /\ ls_sent ls = as_bytes "yo!" /\
    is_Some (ended m) /\ written m = [].
Proof.
  set (es := pair_opening ++ both_finish ++
    [PToRelay Sent 14; PToRelay Sent 15; PToRelay Sent 16; PRelay (EvEnd 1 StreamCancelled Sent)]).
  exists es, (sample_joined es), (pair_member (sample_joined es)), (pair_local (sample_joined es)).
  split; [apply sample_joined_run; [by vm_compute|]; vm_compute; by eexists|].
  split_and!; try (vm_compute; reflexivity). vm_compute. by eexists.
Qed.

(** A node that finished a stream ends its whole tunnel when the relay,
    which has not yet read the [Close], returns window for that stream. *)
Theorem late_window_update_ends_node :
  exists es p e,
    joined_run sample_link_server sample_link_route sample_connector es p /\
    nl_closed (p_node p) = Some (Err e) /\ code e = ProtocolInvalid /\
    nt_cancel (nl_tunnel (p_node p)) = true.
Proof.
  set (es := pair_opening ++ both_finish ++ [PToRelay Sent 14] ++ (PRelay <$> sample_down (as_bytes "yo!")) ++
    [PToNode Sent 15]).
  eexists es, (sample_joined es), _.
  split; [apply sample_joined_run; [by vm_compute|]; vm_compute; by eexists|].
  split_and!; vm_compute; reflexivity.
Qed.
