(* ===== verification/RelayQuota.v ===== *)
(** The relay's monthly quota store (src/relay-server/src/quota.rs): durable
    per-route byte counters, one file replaced atomically, and the three
    operations that run under the store's lock. The directory is a small
    file-system state; an operation reports every disk state it passes
    through, so that a crash can be placed between any two system calls. The
    JSON codec (serde_json) is a parameter, [encode] and [decode]. *)
From S2P Require Import Prelude Clock RelayError.
Open Scope Z_scope.

Definition STATE_SCHEMA_VERSION : Z := 1.
Definition MAX_STATE_FILE_BYTES : Z := 8 * 1024 * 1024.
Definition RETENTION_DAYS : Z := 62.
Definition RECORDS_PER_CONFIGURED_ROUTE : Z := 8.
Definition MAX_QUOTA_RECORDS : Z := 65536.

Record QuotaRecord : Type := mkRecord {
  rec_year : Z;
  rec_month : Z;
  rec_bytes : Z;
  retired_at : option OffsetDateTime;
}.

Record QuotaState : Type := mkState {
  schema_version : Z;
  clock_high_watermark : OffsetDateTime;
  records : gmap string QuotaRecord;
}.

Record StoreStatus : Type := mkStatus {
  state : QuotaState;
  poisoned : bool;
}.

(** [QuotaStoreInner] *)
Record Store : Type := mkStore {
  max_records : Z;
  status : StoreStatus;
}.

(** ** The quota directory *)

Record File : Type := mkFile {
  regular : bool;
  file_uid : Z;
  file_mode : Z;
  inode : Z;
  contents : list byte;
  synced : bool;
}.

Record Directory : Type := mkDirectory {
  is_dir : bool;
  dir_uid : Z;
  dir_mode : Z;
}.

Record Disk : Type := mkDisk {
  directory : option Directory;
  state_file : option File;
  temp_file : option File;
}.

(** Which system calls of one [persist_state] succeed. *)
Record Faults : Type := mkFaults {
  ok_create : bool;
  ok_write : bool;
  ok_sync : bool;
  ok_rename : bool;
  ok_dir_sync : bool;
  ok_remove : bool;
  fresh_inode : Z;
}.

Definition set_temp (d : Disk) (f : option File) : Disk :=
  mkDisk (directory d) (state_file d) f.

Definition quota_error {A} (c : string) : relay_result A := Err (Config c).

(** [month_key] *)
Definition month_key `{Calendar} (t : OffsetDateTime) : Z * Z := (year t, month t).
(** [effective_now] *)
Definition effective_now (s : QuotaState) (now : OffsetDateTime) : OffsetDateTime :=
  time_max (utc now) (clock_high_watermark s).

Definition rec_key (r : QuotaRecord) : Z * Z := (rec_year r, rec_month r).

(** [roll_record]: the record and whether it changed *)
Definition roll_record (r : QuotaRecord) (current_month : Z * Z) : QuotaRecord * bool :=
  if key_lt (rec_key r) current_month
  then (mkRecord current_month.1 current_month.2 0 (retired_at r), true)
  else (r, false).

(** [active_record_mut] *)
Definition active_record (s : QuotaState) (route_id : string) : relay_result QuotaRecord :=
  match records s !! route_id with
  | Some r =>
      match retired_at r with
      | None => Ok r
      | Some _ => quota_error "relay_quota_route_unavailable"
      end
  | None => quota_error "relay_quota_route_unavailable"
  end.

(** [ensure_healthy] *)
Definition ensure_healthy (st : StoreStatus) : relay_result unit :=
  if poisoned st then quota_error "relay_quota_state_poisoned" else Ok tt.

Definition valid_route_id (route_id : string) : bool :=
  (16 <=? str_len route_id) && (str_len route_id <=? 128)
  && forallb (fun b => is_ascii_alphanumeric b || bool_decide (b = "_"%byte)
                       || bool_decide (b = "-"%byte)) (as_bytes route_id).

(** [validate_directory], [validate_state_file_metadata], [validate_same_file]
    for the effective user [euid] *)
Definition validate_directory (euid : Z) (d : Disk) : relay_result unit :=
  match directory d with
  | None => quota_error "relay_quota_directory_unavailable"
  | Some m =>
      if negb (is_dir m) || negb (dir_uid m =? euid) || negb (Z.land (dir_mode m) 0x1FF =? 0x1C0)
      then quota_error "relay_quota_directory_permissions_invalid"
      else Ok tt
  end.
Definition validate_state_file_metadata (euid : Z) (f : File) : relay_result unit :=
  if negb (regular f) || negb (file_uid f =? euid) || negb (Z.land (file_mode f) 0x1FF =? 0x180)
     || (zlen (contents f) =? 0) || (MAX_STATE_FILE_BYTES <? zlen (contents f))
  then quota_error "relay_quota_state_permissions_invalid"
  else Ok tt.
Definition validate_same_file (before after : File) : relay_result unit :=
  if inode before =? inode after then Ok tt else quota_error "relay_quota_state_changed".

(** [file.take(n).read_to_end(..)] *)
Definition read_bounded (n : Z) (l : list byte) : list byte :=
  if zlen l <=? n then l else take (Z.to_nat n) l.

Section Quota.
Context `{Calendar}.
Context (encode : QuotaState -> option (list byte)).
Context (decode : list byte -> option QuotaState).
Context (euid : Z).

(** The loop body of [validate_state] *)
Definition record_valid (watermark : OffsetDateTime) (route_id : string) (r : QuotaRecord) : bool :=
  valid_route_id route_id
  && (1 <=? rec_month r) && (rec_month r <=? 12)
  && negb (key_lt (month_key watermark) (rec_key r))
  && match retired_at r with
     | Some t => (offset t =? 0) && negb (time_lt watermark t)
     | None => true
     end.

(** [validate_state] *)
Definition validate_state (s : QuotaState) (max_records : Z) : relay_result unit :=
  if negb (schema_version s =? STATE_SCHEMA_VERSION)
     || negb (offset (clock_high_watermark s) =? 0)
     || (max_records <? Z.of_nat (size (records s)))
  then quota_error "relay_quota_state_invalid"
  else if forallb (fun '(route_id, r) => record_valid (clock_high_watermark s) route_id r)
            (map_to_list (records s))
  then Ok tt
  else quota_error "relay_quota_state_invalid".

(** [read_state]: [before] is the file the path named when it was examined,
    [opened] the one that [open] returned. *)
Definition read_state (before : File) (opened : option File) (max_records : Z)
    : relay_result QuotaState :=
  _ ← validate_state_file_metadata euid before;
  file ← ok_or opened (Config "relay_quota_state_unavailable");
  _ ← validate_state_file_metadata euid file;
  _ ← validate_same_file before file;
  let bytes := read_bounded (MAX_STATE_FILE_BYTES + 1) (contents file) in
  _ ← ensure (negb ((zlen bytes =? 0) || (MAX_STATE_FILE_BYTES <? zlen bytes)))
        (Config "relay_quota_state_size_invalid");
  s ← ok_or (decode bytes) (Config "relay_quota_state_invalid");
  _ ← validate_state s max_records;
  Ok s.

(** The disk after the error path's [fs::remove_file(temporary_path)] *)
Definition discard_temp (fl : Faults) (d : Disk) : Disk :=
  if ok_remove fl then set_temp d None else d.

(** The body of [persist_state] from [create_temporary] on: the disk states
    passed through, last one last. *)
Definition replace_file (fl : Faults) (d : Disk) (bytes : list byte)
    : relay_result unit * list Disk :=
  let fail c disks last := (quota_error c, disks ++ [last; discard_temp fl last]) in
  match ok_create fl, temp_file d with
  | false, _ | _, Some _ => fail "relay_quota_temporary_create_failed"%string [] d
  | true, None =>
      let temp b s := Some (mkFile true euid 0x180 (fresh_inode fl) b s) in
      let d1 := set_temp d (temp [] false) in
      if negb (ok_write fl) then fail "relay_quota_state_write_failed" [d] d1
      else
        let d2 := set_temp d (temp bytes false) in
        if negb (ok_sync fl) then fail "relay_quota_state_sync_failed" [d; d1] d2
        else
          let d3 := set_temp d (temp bytes true) in
          if negb (ok_rename fl) then fail "relay_quota_state_replace_failed" [d; d1; d2] d3
          else
            let d4 := mkDisk (directory d) (temp bytes true) None in
            if negb (ok_dir_sync fl)
            then fail "relay_quota_directory_sync_failed" [d; d1; d2; d3] d4
            else (Ok tt, [d; d1; d2; d3; d4])
  end.

(** [persist_state] *)
Definition persist_state (fl : Faults) (d : Disk) (s : QuotaState)
    : relay_result unit * list Disk :=
  match validate_directory euid d with
  | Err e => (Err e, [d])
  | Ok _ =>
      match encode s with
      | None => (quota_error "relay_quota_state_serialize_failed", [d])
      | Some b =>
          let bytes := b ++ [x0a] in
          if MAX_STATE_FILE_BYTES <? zlen bytes
          then (quota_error "relay_quota_state_size_invalid", [d])
          else replace_file fl d bytes
      end
  end.

(** [QuotaStoreInner::commit] *)
Definition commit (fl : Faults) (d : Disk) (st : StoreStatus) (candidate : QuotaState)
    : relay_result unit * StoreStatus * list Disk :=
  match persist_state fl d candidate with
  | (Err e, disks) => (Err e, mkStatus (state st) true, disks)
  | (Ok _, disks) => (Ok tt, mkStatus candidate (poisoned st), disks)
  end.

(** [max_records] of [open_blocking] *)
Definition record_capacity (max_routes : Z) : Z :=
  Z.max (Z.min (saturating_mul usize_max max_routes RECORDS_PER_CONFIGURED_ROUTE)
           MAX_QUOTA_RECORDS) max_routes.

(** [QuotaStore::open_blocking] *)
Definition open_blocking (fl : Faults) (d : Disk) (opened : option File) (max_routes : Z)
    (now : OffsetDateTime) : relay_result Store * list Disk :=
  match validate_directory euid d with
  | Err e => (Err e, [d])
  | Ok _ =>
      if MAX_QUOTA_RECORDS / RECORDS_PER_CONFIGURED_ROUTE <? max_routes
      then (quota_error "relay_quota_route_capacity_exceeded", [d])
      else if bool_decide (is_Some (temp_file d)) then (quota_error "relay_quota_incomplete_write", [d])
      else
        let max_records := record_capacity max_routes in
        match state_file d with
        | Some before =>
            (s ← read_state before opened max_records;
             Ok (mkStore max_records (mkStatus s false)), [d])
        | None =>
            let s := mkState STATE_SCHEMA_VERSION (utc now) ∅ in
            let '(r, disks) := persist_state fl d s in
            (_ ← r; Ok (mkStore max_records (mkStatus s false)), disks)
        end
  end.

(** ** Operations under the store's lock *)

(** The two loops of [reconcile] over the records: what happens to one
    record, and whether it changed. *)
Definition reconcile_record (active : gset string) (current_month : Z * Z)
    (effective : OffsetDateTime) (route_id : string) (r : QuotaRecord) : QuotaRecord * bool :=
  if bool_decide (route_id ∈ active) then
    let '(r', rolled) := roll_record r current_month in
    match retired_at r' with
    | Some _ => (mkRecord (rec_year r') (rec_month r') (rec_bytes r') None, true)
    | None => (r', rolled)
    end
  else
    match retired_at r with
    | None => (mkRecord (rec_year r) (rec_month r) (rec_bytes r) (Some effective), true)
    | Some _ => (r, false)
    end.

(** The loop of [reconcile] that adds records *)
Definition reconcile_add (max_records : Z) (current_month : Z * Z)
    (acc : gmap string QuotaRecord * bool) (route_id : string)
    : relay_result (gmap string QuotaRecord * bool) :=
  match acc.1 !! route_id with
  | Some _ => Ok acc
  | None =>
      if max_records <=? Z.of_nat (size acc.1)
      then quota_error "relay_quota_record_capacity_exceeded"
      else Ok (<[route_id := mkRecord current_month.1 current_month.2 0 None]> acc.1, true)
  end.

(** [record.retired_at.is_none_or(|retired_at| retired_at > cutoff)] *)
Definition retained (cutoff : OffsetDateTime) (r : QuotaRecord) : bool :=
  match retired_at r with None => true | Some t => time_lt cutoff t end.

(** The candidate state that [reconcile] builds, and whether it differs *)
Definition reconcile_candidate (max_records : Z) (s : QuotaState)
    (active_route_ids : list string) (now : OffsetDateTime) : relay_result (QuotaState * bool) :=
  let active : gset string := list_to_set active_route_ids in
  let effective := effective_now s now in
  let current_month := month_key effective in
  let cutoff := sub_days effective RETENTION_DAYS in
  let kept := filter (fun '(_, r) => retained cutoff r = true) (records s) in
  let touched := map_imap (fun id r =>
    Some (reconcile_record active current_month effective id r)) kept in
  let changed := negb (Z.of_nat (size kept) =? Z.of_nat (size (records s)))
    || existsb (fun '(_, (_, c)) => c) (map_to_list touched) in
  '(records', changed') ← try_fold (reconcile_add max_records current_month)
    (fst <$> touched, changed) active_route_ids;
  Ok (mkState (schema_version s) effective records', changed').

(** [QuotaStoreInner::reconcile]: the result, the store and the disk states *)
Definition reconcile (fl : Faults) (d : Disk) (store : Store) (active_route_ids : list string)
    (now : OffsetDateTime) : relay_result unit * Store * list Disk :=
  let st := status store in
  if max_records store <? Z.of_nat (size (list_to_set active_route_ids : gset string))
  then (quota_error "relay_quota_record_capacity_exceeded", store, [d])
  else
    match ensure_healthy st with
    | Err e => (Err e, store, [d])
    | Ok _ =>
        match reconcile_candidate (max_records store) (state st) active_route_ids now with
        | Err e => (Err e, store, [d])
        | Ok (candidate, changed) =>
            if changed then
              let '(r, st', disks) := commit fl d st candidate in
              (r, mkStore (max_records store) st', disks)
            else (Ok tt, store, [d])
        end
    end.

(** [QuotaStoreInner::permits_new_stream] *)
Definition permits_new_stream (fl : Faults) (d : Disk) (store : Store) (route_id : string)
    (limit : Z) (now : OffsetDateTime) : relay_result bool * Store * list Disk :=
  let st := status store in
  match ensure_healthy st with
  | Err e => (Err e, store, [d])
  | Ok _ =>
      let s := state st in
      let effective := effective_now s now in
      match active_record s route_id with
      | Err e => (Err e, store, [d])
      | Ok r =>
          let '(r', changed) := roll_record r (month_key effective) in
          let permitted := rec_bytes r' <? limit in
          if changed then
            let '(res, st', disks) :=
              commit fl d st
                (mkState (schema_version s) effective (<[route_id := r']> (records s))) in
            (_ ← res; Ok permitted, mkStore (max_records store) st', disks)
          else (Ok permitted, store, [d])
      end
  end.

(** [QuotaStoreInner::reserve] *)
Definition reserve (fl : Faults) (d : Disk) (store : Store) (route_id : string)
    (limit requested : Z) (now : OffsetDateTime) : relay_result Z * Store * list Disk :=
  if requested =? 0 then (Ok 0, store, [d])
  else
    let st := status store in
    match ensure_healthy st with
    | Err e => (Err e, store, [d])
    | Ok _ =>
        let s := state st in
        let effective := effective_now s now in
        match active_record s route_id with
        | Err e => (Err e, store, [d])
        | Ok r =>
            let '(r', _) := roll_record r (month_key effective) in
            let granted := Z.min requested (saturating_sub limit (rec_bytes r')) in
            if granted =? 0 then (Ok 0, store, [d])
            else
              match checked_add u64_max (rec_bytes r') granted with
              | None => (quota_error "relay_quota_counter_overflow", store, [d])
              | Some bytes =>
                  let r'' := mkRecord (rec_year r') (rec_month r') bytes (retired_at r') in
                  let '(res, st', disks) :=
                    commit fl d st
                      (mkState (schema_version s) effective (<[route_id := r'']> (records s))) in
                  (_ ← res; Ok granted, mkStore (max_records store) st', disks)
              end
        end
    end.

End Quota.
