(* ===== verification/RelayQuotaFacts.v ===== *)
(** What the quota store guarantees over its whole life: runs of operations
    with failing system calls, crashes between any two of them and restarts
    from disk. *)
From S2P Require Import Prelude Clock RelayError RelayQuota.
Open Scope Z_scope.

(** ** Runs *)

Inductive QuotaOp : Type :=
| OpOpen (max_routes : Z) (now : OffsetDateTime)
| OpReconcile (active_route_ids : list string) (now : OffsetDateTime)
| OpPermits (route_id : string) (limit : Z) (now : OffsetDateTime)
| OpReserve (route_id : string) (limit requested : Z) (now : OffsetDateTime).

(** The environment of one operation: failing system calls, and whether the
    machine crashes after the [n]-th disk state, with what an unsynced file
    then holds. *)
Record Env : Type := mkEnv {
  faults : Faults;
  crash : option nat;
  torn : list byte;
}.

(** A grant: the route, the calendar month it was made in, the bytes. *)
Record Grant : Type := mkGrant {
  g_route : string;
  g_month : Z * Z;
  g_bytes : Z;
}.

Record World : Type := mkWorld {
  w_store : option Store;
  w_disk : Disk;
  ledger : list Grant;
}.

Definition granted_in (l : list Grant) (route : string) (m : Z * Z) : Z :=
  foldr (fun g acc =>
    (if bool_decide (g_route g = route /\ g_month g = m) then g_bytes g else 0) + acc) 0 l.

Definition crash_file (b : list byte) (f : File) : File :=
  if synced f then f
  else mkFile (regular f) (file_uid f) (file_mode f) (inode f) b false.
Definition crash_disk (b : list byte) (d : Disk) : Disk :=
  mkDisk (directory d) (crash_file b <$> state_file d) (crash_file b <$> temp_file d).

(** The world after an operation that returned [store] and passed through
    [disks]; a crash loses the process and any grant it was about to return. *)
Definition settle (e : Env) (w : World) (store : option Store) (disks : list Disk)
    (grants : list Grant) : World :=
  match crash e with
  | Some n => mkWorld None (crash_disk (torn e) (default (w_disk w) (disks !! n))) (ledger w)
  | None => mkWorld store (default (w_disk w) (last disks)) (grants ++ ledger w)
  end.

Section Run.
Context `{Calendar}.
Context (encode : QuotaState -> option (list byte)).
Context (decode : list byte -> option QuotaState).
Context (euid : Z).

Definition quota_step (w : World) (oe : QuotaOp * Env) : World :=
  let '(op, e) := oe in
  let fl := faults e in
  match op, w_store w with
  | OpOpen max_routes now, _ =>
      let '(r, disks) :=
        open_blocking encode decode euid fl (w_disk w) (state_file (w_disk w)) max_routes now in
      settle e w (match r with Ok store => Some store | Err _ => None end) disks []
  | _, None => w
  | OpReconcile ids now, Some store =>
      let '(_, store', disks) := reconcile encode euid fl (w_disk w) store ids now in
      settle e w (Some store') disks []
  | OpPermits route limit now, Some store =>
      let '(_, store', disks) := permits_new_stream encode euid fl (w_disk w) store route limit now in
      settle e w (Some store') disks []
  | OpReserve route limit n now, Some store =>
      let '(r, store', disks) := reserve encode euid fl (w_disk w) store route limit n now in
      settle e w (Some store') disks
        (match r with
         | Ok g => [mkGrant route (month_key (effective_now (state (status store)) now)) g]
         | Err _ => []
         end)
  end.

Definition quota_run (w : World) (ops : list (QuotaOp * Env)) : World :=
  foldl quota_step w ops.

End Run.

(** A directory in which the store never ran *)
Definition fresh_world (d : Disk) : World := mkWorld None d [].

(** ** Invariant of the state *)

Section States.
Context `{CL : CalendarLaws}.

(** Every record lies in a month the clock has reached, and was last charged
    no later than it was retired. *)
Definition record_wf (watermark : OffsetDateTime) (r : QuotaRecord) : Prop :=
  key_le (rec_key r) (month_key watermark) = true /\ 0 <= rec_bytes r /\
  match retired_at r with
  | None => True
  | Some t => offset t = 0 /\ instant t <= instant watermark /\
              key_le (rec_key r) (month_key t) = true
  end.

Definition state_wf (s : QuotaState) : Prop :=
  offset (clock_high_watermark s) = 0 /\
  map_Forall (fun _ r => record_wf (clock_high_watermark s) r) (records s).

(** The state accounts for every byte granted: a month with grants is at most
    the month of the record, whose counter covers it; a route without a record
    has grants only in months that are over. *)
Definition accounts (l : list Grant) (s : QuotaState) : Prop :=
  forall id m, 0 < granted_in l id m ->
  match records s !! id with
  | Some r => key_le m (rec_key r) = true /\
              (m = rec_key r -> granted_in l id m <= rec_bytes r)
  | None => key_lt m (month_key (clock_high_watermark s)) = true
  end.

Definition good (l : list Grant) (s : QuotaState) : Prop := state_wf s /\ accounts l s.

Lemma effective_offset s now : state_wf s -> offset (effective_now s now) = 0.
Proof. intros [? _]. by apply time_max_offset. Qed.

Lemma effective_ge s now : instant (clock_high_watermark s) <= instant (effective_now s now).
Proof. apply time_max_ge_r. Qed.

Lemma record_wf_raise wm wm' r :
  offset wm = 0 -> offset wm' = 0 -> instant wm <= instant wm' ->
  record_wf wm r -> record_wf wm' r.
Proof.
  intros H1 H2 Hle (Hk & Hb & Hr). split; [|split; [done|]].
  - pose proof (month_mono wm wm' H1 H2 Hle). unfold month_key in *. keys.
  - destruct (retired_at r); [|done]. naive_solver lia.
Qed.

Lemma accounts_raise l s id r m :
  accounts l s -> records s !! id = Some r -> 0 < granted_in l id m ->
  key_le m (rec_key r) = true /\ (m = rec_key r -> granted_in l id m <= rec_bytes r).
Proof. intros Ha Hr Hg. specialize (Ha id m Hg). by rewrite Hr in Ha. Qed.

Lemma good_update l s id r r' sv eff :
  good l s -> records s !! id = Some r -> offset eff = 0 ->
  instant (clock_high_watermark s) <= instant eff -> record_wf eff r' ->
  key_le (rec_key r) (rec_key r') = true ->
  (0 < granted_in l id (rec_key r') -> granted_in l id (rec_key r') <= rec_bytes r') ->
  good l (mkState sv eff (<[id := r']> (records s))).
Proof.
  intros [[Hoff Hwf] Hacc] Hr Heff Hle Hr' Hk Hcov. split; [split; [done|]|].
  - simpl. apply map_Forall_insert_2; [done|].
    intros i x Hx. apply (record_wf_raise (clock_high_watermark s)); auto.
    by apply (Hwf i).
  - intros i m Hg. simpl. destruct (decide (id = i)) as [<-|Hne].
    + rewrite lookup_insert_eq. pose proof (accounts_raise _ _ _ _ _ Hacc Hr Hg) as [? _].
      split; [keys|]. intros ->. auto.
    + rewrite lookup_insert_ne by done. specialize (Hacc i m Hg).
      destruct (records s !! i); [done|].
      pose proof (month_mono _ _ Hoff Heff Hle). unfold month_key in *. keys.
Qed.

Lemma roll_spec r cur r' rolled :
  key_le (rec_key r) cur = true -> roll_record r cur = (r', rolled) ->
  rec_key r' = cur /\ retired_at r' = retired_at r /\
  (rolled = false -> r' = r) /\
  (rolled = true -> key_lt (rec_key r) cur = true /\ rec_bytes r' = 0).
Proof.
  unfold roll_record. intros Hle Hroll.
  destruct (key_lt (rec_key r) cur) eqn:E; simplify_eq/=.
  - split; [|naive_solver]. by destruct cur.
  - split; [|done]. apply key_eq; keys.
Qed.

Lemma active_record_Ok s id r :
  active_record s id = Ok r -> records s !! id = Some r /\ retired_at r = None.
Proof. unfold active_record. intros. by case_splits. Qed.

(** An active record, rolled to the current month, still covers the month's
    grants. *)
Lemma rolled_covers l s id r now r' rolled :
  good l s -> active_record s id = Ok r ->
  roll_record r (month_key (effective_now s now)) = (r', rolled) ->
  records s !! id = Some r /\ retired_at r' = None /\ 0 <= rec_bytes r' /\
  rec_key r' = month_key (effective_now s now) /\
  key_le (rec_key r) (rec_key r') = true /\
  (0 < granted_in l id (rec_key r') -> granted_in l id (rec_key r') <= rec_bytes r').
Proof.
  intros [Hwf Hacc] [Hr Hret]%active_record_Ok Hroll.
  destruct (Hwf) as [Hoff Hall]. pose proof (Hall id r Hr) as (Hk & Hb & _). simpl in Hk.
  pose proof (month_mono _ _ Hoff (effective_offset s now Hwf) (effective_ge s now)).
  apply roll_spec in Hroll as (Hkey & Hret' & Hkeep & Hreset); [|unfold month_key in *; keys].
  split; [done|]. split; [congruence|]. rewrite Hkey.
  assert (key_le (rec_key r) (month_key (effective_now s now)) = true)
    by (unfold month_key in *; keys).
  destruct rolled.
  - destruct (Hreset eq_refl) as [Hlt ->]. repeat split; [lia|done|].
    intros Hg. destruct (accounts_raise _ _ _ _ _ Hacc Hr Hg). keys.
  - specialize (Hkeep eq_refl) as ->. repeat split; [done..|].
    intros Hg. by apply (accounts_raise _ _ _ _ _ Hacc Hr Hg).
Qed.

Lemma granted_in_cons g l id m :
  granted_in (g :: l) id m
  = (if bool_decide (g_route g = id /\ g_month g = m) then g_bytes g else 0) + granted_in l id m.
Proof. done. Qed.

Lemma good_ext l l' s :
  (forall id m, granted_in l' id m = granted_in l id m) -> good l s -> good l' s.
Proof. intros Heq [Hwf Ha]. split; [done|]. intros id m. rewrite Heq. apply Ha. Qed.

Lemma zero_grant id m l : forall i k, granted_in (mkGrant id m 0 :: l) i k = granted_in l i k.
Proof. intros. rewrite granted_in_cons. simpl. by case_bool_decide. Qed.

Lemma healthy_Ok st u : ensure_healthy st = Ok u -> poisoned st = false.
Proof. unfold ensure_healthy. by destruct (poisoned st). Qed.

Lemma reconcile_add_fold mr cur ids : forall acc recs ch,
  try_fold (reconcile_add mr cur) acc ids = Ok (recs, ch) ->
  forall id, recs !! id =
    match acc.1 !! id with
    | Some r => Some r
    | None => if decide (id ∈ ids) then Some (mkRecord cur.1 cur.2 0 None) else None
    end.
Proof.
  induction ids as [|i ids IH]; intros acc recs ch Hf id; simpl in Hf.
  { simplify_eq. cbn [fst]. destruct (recs !! id); [done|].
    by rewrite decide_False by apply not_elem_of_nil. }
  apply bind_Ok in Hf as (acc' & Hadd & Hf). specialize (IH _ _ _ Hf id). rewrite IH.
  unfold reconcile_add in Hadd. destruct (acc.1 !! i) as [ri|] eqn:Ei.
  - injection Hadd as <-. destruct (acc.1 !! id) eqn:Eid; [done|].
    repeat case_decide; set_solver.
  - destruct (mr <=? Z.of_nat (size acc.1)); [done|]. injection Hadd as <-. simpl.
    destruct (decide (i = id)) as [->|Hne].
    + rewrite lookup_insert_eq, Ei. by rewrite (decide_True (P := id ∈ id :: ids)) by set_solver.
    + rewrite lookup_insert_ne by done. destruct (acc.1 !! id); [done|].
      repeat case_decide; set_solver.
Qed.

Lemma reconcile_record_spec l s id r active now :
  good l s -> records s !! id = Some r ->
  let eff := effective_now s now in
  let r' := (reconcile_record active (month_key eff) eff id r).1 in
  record_wf eff r' /\ key_le (rec_key r) (rec_key r') = true /\
  (0 < granted_in l id (rec_key r') -> granted_in l id (rec_key r') <= rec_bytes r').
Proof.
  intros [Hwf Hacc] Hr eff. pose proof (effective_offset s now Hwf) as Heff.
  pose proof (effective_ge s now) as Hge. fold eff in Heff, Hge.
  destruct Hwf as [Hoff Hall]. pose proof (Hall id r Hr) as Hrwf. simpl in Hrwf.
  pose proof (record_wf_raise _ _ _ Hoff Heff Hge Hrwf) as Hraise.
  pose proof Hraise as (Hk & Hb & Hret).
  unfold reconcile_record. case_bool_decide.
  - destruct (roll_record r (month_key eff)) as [r1 rolled] eqn:Er.
    apply roll_spec in Er as (Hkey & Hret1 & Hkeep & Hreset); [|done].
    assert (key_le (rec_key r) (rec_key r1) = true) by (rewrite Hkey; done).
    assert (0 <= rec_bytes r1 /\
      (0 < granted_in l id (rec_key r1) -> granted_in l id (rec_key r1) <= rec_bytes r1))
      as [? Hcov].
    { destruct rolled.
      - destruct (Hreset eq_refl) as [Hlt ->]. split; [done|]. rewrite Hkey. intros Hg.
        destruct (accounts_raise _ _ _ _ _ Hacc Hr Hg). keys.
      - specialize (Hkeep eq_refl) as ->. split; [done|]. intros Hg.
        by apply (accounts_raise _ _ _ _ _ Hacc Hr Hg). }
    destruct (retired_at r1) as [t|] eqn:Et; simpl; (split; [|split; [done|done]]);
      unfold record_wf; simpl; rewrite ?Et;
      (split; [|done]); change (rec_key (mkRecord _ _ _ _)) with (rec_key r1);
      rewrite Hkey; keys.
  - destruct (retired_at r) as [t|] eqn:Et; simpl.
    + split; [done|]. split; [keys|]. intros Hg.
      by apply (accounts_raise _ _ _ _ _ Hacc Hr Hg).
    + change (rec_key (mkRecord _ _ _ _)) with (rec_key r).
      split; [|split; [keys|intros Hg; by apply (accounts_raise _ _ _ _ _ Hacc Hr Hg)]].
      unfold record_wf; simpl. change (rec_key (mkRecord _ _ _ _)) with (rec_key r).
      split; [done|]. split; [done|]. split; [done|]. split; [lia|done].
Qed.

(** The record of a route after reconciliation *)
Lemma reconcile_lookup mr s ids now c ch :
  reconcile_candidate mr s ids now = Ok (c, ch) ->
  let eff := effective_now s now in
  c = mkState (schema_version s) eff (records c) /\
  forall id, records c !! id =
    match records s !! id with
    | Some r =>
        if retained (sub_days eff RETENTION_DAYS) r
        then Some (reconcile_record (list_to_set ids) (month_key eff) eff id r).1
        else if decide (id ∈ ids) then Some (mkRecord (year eff) (month eff) 0 None) else None
    | None => if decide (id ∈ ids) then Some (mkRecord (year eff) (month eff) 0 None) else None
    end.
Proof.
  unfold reconcile_candidate. set (eff := effective_now s now). intros Hc.
  apply bind_Ok in Hc as ([recs ch'] & Hf & Hc). simplify_eq. split; [done|]. intros id. simpl.
  rewrite (reconcile_add_fold _ _ _ _ _ _ Hf id). cbn [fst].
  rewrite lookup_fmap, map_lookup_imap, map_lookup_filter.
  destruct (records s !! id) as [r|]; [|done].
  simpl. unfold guard. case_decide as Hd; simpl in *;
    by rewrite ?Hd, ?(not_true_is_false _ Hd).
Qed.

(** Dropping a record loses no grant of the current month. *)
Lemma dropped_past l s id r now m :
  good l s -> records s !! id = Some r ->
  retained (sub_days (effective_now s now) RETENTION_DAYS) r = false ->
  0 < granted_in l id m -> key_lt m (month_key (effective_now s now)) = true.
Proof.
  intros [Hwf Hacc] Hr Hdrop Hg.
  destruct (accounts_raise _ _ _ _ _ Hacc Hr Hg) as [Hle _].
  pose proof (proj2 Hwf id r Hr) as (_ & _ & Hret). unfold retained in Hdrop.
  destruct (retired_at r) as [t|]; [|done]. destruct Hret as (Hot & _ & Hrk).
  assert (key_lt (month_key t) (month_key (effective_now s now)) = true).
  { apply month_short; [done|by apply effective_offset|].
    unfold time_lt, sub_days, RETENTION_DAYS in Hdrop. simpl in Hdrop. bool_props. lia. }
  keys.
Qed.

Lemma absent_past l s id now m :
  good l s -> records s !! id = None -> 0 < granted_in l id m ->
  key_lt m (month_key (effective_now s now)) = true.
Proof.
  intros [Hwf Hacc] Hr Hg. specialize (Hacc id m Hg). rewrite Hr in Hacc.
  pose proof (month_mono _ _ (proj1 Hwf) (effective_offset s now Hwf) (effective_ge s now)).
  unfold month_key in *. keys.
Qed.

Lemma reconcile_good l mr s ids now c ch :
  good l s -> reconcile_candidate mr s ids now = Ok (c, ch) -> good l c.
Proof.
  intros Hgood Hc. apply reconcile_lookup in Hc as [-> Hlook].
  set (eff := effective_now s now) in *.
  pose proof (effective_offset s now (proj1 Hgood)) as Heff. fold eff in Heff.
  assert (record_wf eff (mkRecord (year eff) (month eff) 0 None)) as Hnew.
  { split; [|done]. unfold rec_key, month_key; simpl. keys. }
  split; [split; [done|]|].
  - intros id r' Hr'. simpl in *. rewrite Hlook in Hr'.
    destruct (records s !! id) as [r|] eqn:Er; repeat case_match; simplify_eq; try done.
    by apply (reconcile_record_spec l).
  - intros id m Hg. simpl. rewrite Hlook.
    assert (key_lt m (month_key eff) = true ->
      match (if decide (id ∈ ids) then Some (mkRecord (year eff) (month eff) 0 None) else None) with
      | Some r => key_le m (rec_key r) = true /\
                  (m = rec_key r -> granted_in l id m <= rec_bytes r)
      | None => key_lt m (month_key eff) = true
      end) as Hfresh.
    { intros Hlt. case_decide; [|done]. unfold month_key in *. unfold rec_key; simpl.
      split; [keys|]. intros ->. keys. }
    destruct (records s !! id) as [r|] eqn:Er; [|by eapply Hfresh, absent_past].
    destruct (retained _ r) eqn:Ekeep; [|by eapply Hfresh, dropped_past].
    pose proof (reconcile_record_spec l s id r (list_to_set ids) now Hgood Er)
      as (_ & Hmono & Hcov). fold eff in Hmono, Hcov.
    destruct (accounts_raise _ _ _ _ _ (proj2 Hgood) Er Hg).
    split; [keys|]. intros ->. auto.
Qed.

Lemma fresh_good l now :
  (forall id m, granted_in l id m <= 0) ->
  good l (mkState STATE_SCHEMA_VERSION (utc now) ∅).
Proof.
  intros Hz. split; [split; [done|apply map_Forall_empty]|].
  intros id m Hg. specialize (Hz id m). lia.
Qed.

End States.

(** ** Invariant of the store and the disk *)

Section Invariant.
Context `{CL : CalendarLaws}.
Context (encode : QuotaState -> option (list byte)).
Context (decode : list byte -> option QuotaState).
Context (euid : Z).
(** serde_json reads back what it wrote, and ignores trailing white space. *)
Context (decode_encode : forall s b, encode s = Some b -> decode (b ++ [x0a]) = Some s).

Definition disk_inv (l : list Grant) (d : Disk) : Prop :=
  match state_file d with
  | None => forall id m, granted_in l id m <= 0
  | Some f => synced f = true /\
              exists s b, encode s = Some b /\ contents f = b ++ [x0a] /\ good l s
  end.

Definition world_inv (w : World) : Prop :=
  disk_inv (ledger w) (w_disk w) /\
  match w_store w with
  | Some store => poisoned (status store) = false -> good (ledger w) (state (status store))
  | None => True
  end.

Lemma replace_file_disks fl d b r disks :
  replace_file euid fl d b = (r, disks) ->
  Forall (fun x => state_file x = state_file d \/
    state_file x = Some (mkFile true euid 0x180 (fresh_inode fl) b true)) disks /\
  exists final, last disks = Some final /\
    (r = Ok tt -> state_file final = Some (mkFile true euid 0x180 (fresh_inode fl) b true) /\
                  temp_file final = None /\ directory final = directory d).
Proof.
  unfold replace_file, discard_temp. intros Hr.
  repeat case_match; simplify_eq/=;
    (split; [rewrite ?Forall_cons, ?Forall_nil; simpl; by auto 10
            |eexists; split; [done|intros ?; by simplify_eq/=]]).
Qed.

Lemma persist_disks fl d s r disks :
  persist_state encode euid fl d s = (r, disks) ->
  Forall (fun x => state_file x = state_file d \/
    exists b, encode s = Some b /\
    state_file x = Some (mkFile true euid 0x180 (fresh_inode fl) (b ++ [x0a]) true)) disks /\
  exists final, last disks = Some final /\
    (r = Ok tt -> exists b, encode s = Some b /\
      state_file final = Some (mkFile true euid 0x180 (fresh_inode fl) (b ++ [x0a]) true)).
Proof.
  unfold persist_state. intros Hp.
  destruct (validate_directory euid d) as [u|e]; simplify_eq/=.
  2:{ split; [rewrite Forall_cons; auto|by eexists]. }
  destruct (encode s) as [b|]; simplify_eq/=.
  2:{ split; [rewrite Forall_cons; auto|by eexists]. }
  destruct (MAX_STATE_FILE_BYTES <? zlen (b ++ [x0a])); simplify_eq/=.
  { split; [rewrite Forall_cons; auto|by eexists]. }
  apply replace_file_disks in Hp as (Hall & final & Hlast & Hok).
  split; [|exists final; split; [done|]; intros Hr; exists b; split; [done|]; by apply Hok].
  eapply Forall_impl; [exact Hall|]. simpl. intros x [?|?]; eauto.
Qed.

Lemma persist_inv l d s fl r disks :
  disk_inv l d -> good l s -> persist_state encode euid fl d s = (r, disks) ->
  Forall (disk_inv l) disks.
Proof.
  intros Hd Hg Hp. apply persist_disks in Hp as [Hall _].
  eapply Forall_impl; [exact Hall|]. simpl. intros x Hx. unfold disk_inv.
  destruct Hx as [->|(b & Hb & ->)]; [exact Hd|].
  split; [done|]. exists s, b. done.
Qed.

Lemma persist_final l s d fl disks :
  good l s -> persist_state encode euid fl d s = (Ok tt, disks) ->
  exists final, last disks = Some final /\ disk_inv l final.
Proof.
  intros Hg Hp. apply persist_disks in Hp as (_ & final & Hlast & Hok).
  destruct (Hok eq_refl) as (b & Hb & Hf). exists final. split; [done|].
  unfold disk_inv. rewrite Hf. split; [done|]. exists s, b. done.
Qed.

Lemma crash_inv l d b : disk_inv l d -> disk_inv l (crash_disk b d).
Proof.
  unfold disk_inv, crash_disk; simpl. destruct (state_file d) as [f|]; [|done].
  simpl. intros [Hs ?]. unfold crash_file. by rewrite Hs.
Qed.

Lemma settle_inv e w store disks grants final :
  disk_inv (ledger w) (w_disk w) -> Forall (disk_inv (ledger w)) disks ->
  last disks = Some final -> disk_inv (grants ++ ledger w) final ->
  match store with
  | Some st => poisoned (status st) = false -> good (grants ++ ledger w) (state (status st))
  | None => True
  end ->
  world_inv (settle e w store disks grants).
Proof.
  intros Hd Hall Hlast Hfin Hst. unfold settle, world_inv.
  destruct (crash e) as [n|]; simpl.
  - split; [|done]. apply crash_inv.
    destruct (disks !! n) as [x|] eqn:E; simpl; [|done].
    by eapply Forall_lookup_1.
  - rewrite Hlast. done.
Qed.

Lemma commit_cases fl d st c r st' disks :
  commit encode euid fl d st c = (r, st', disks) ->
  persist_state encode euid fl d c = (r, disks) /\
  match r with
  | Ok _ => st' = mkStatus c (poisoned st)
  | Err _ => st' = mkStatus (state st) true
  end.
Proof.
  unfold commit. intros Hc.
  destruct (persist_state encode euid fl d c) as [[[]|err] dd]; by simplify_eq.
Qed.

(** A commit of a candidate that accounts for the ledger, with or without the
    grant the operation is about to return. *)
Lemma commit_inv e w st c mr gr r st' disks :
  world_inv w -> good (ledger w) c -> good (gr ++ ledger w) c ->
  commit encode euid (faults e) (w_disk w) st c = (r, st', disks) ->
  world_inv (settle e w (Some (mkStore mr st')) disks
    (match r with Ok _ => gr | Err _ => [] end)).
Proof.
  intros [Hd _] Hc Hc' Hcommit. apply commit_cases in Hcommit as [Hp Hst].
  pose proof (persist_inv _ _ _ _ _ _ Hd Hc Hp) as Hall.
  destruct r as [[]|err]; subst st'.
  - destruct (persist_final _ _ _ _ _ Hc' Hp) as (final & Hlast & Hfin).
    by eapply settle_inv.
  - pose proof Hp as (_ & final & Hlast & _)%persist_disks.
    eapply settle_inv; try done; simpl.
    apply last_Some_elem_of in Hlast. by eapply Forall_forall.
Qed.

Lemma disk_inv_ext l l' d :
  (forall id m, granted_in l' id m = granted_in l id m) -> disk_inv l d -> disk_inv l' d.
Proof.
  unfold disk_inv. intros Heq. destruct (state_file d).
  - intros (? & s & b & ? & ? & Hg). split; [done|]. exists s, b. split; [done|].
    split; [done|]. by eapply good_ext.
  - intros Hz id m. rewrite Heq. apply Hz.
Qed.

(** An operation that writes nothing and grants nothing *)
Lemma idle_inv e w store gr :
  world_inv w -> w_store w = Some store ->
  (forall id m, granted_in (gr ++ ledger w) id m = granted_in (ledger w) id m) ->
  world_inv (settle e w (Some store) [w_disk w] gr).
Proof.
  intros [Hd Hs] Hst Heq. rewrite Hst in Hs.
  eapply settle_inv; [done|by repeat constructor|done|by eapply disk_inv_ext|].
  intros Hp. eapply good_ext; [done|auto].
Qed.

Lemma reserve_inv e w store id limit n now r store' disks :
  world_inv w -> w_store w = Some store -> 0 <= n ->
  reserve encode euid (faults e) (w_disk w) store id limit n now = (r, store', disks) ->
  world_inv (settle e w (Some store') disks
    (match r with
     | Ok g => [mkGrant id (month_key (effective_now (state (status store)) now)) g]
     | Err _ => []
     end)).
Proof.
  intros Hw Hst Hn. unfold reserve.
  destruct (n =? 0); [intros ?; simplify_eq; apply idle_inv; [done|done|apply zero_grant]|].
  destruct (ensure_healthy (status store)) as [u|err] eqn:Eh;
    [|intros ?; simplify_eq; by apply idle_inv].
  pose proof Hw as [_ Hgood]. rewrite Hst in Hgood. specialize (Hgood (healthy_Ok _ _ Eh)).
  set (s := state (status store)) in *.
  destruct (active_record s id) as [rc|err] eqn:Ea;
    [|intros ?; simplify_eq; by apply idle_inv].
  destruct (roll_record rc (month_key (effective_now s now))) as [r' rolled] eqn:Er.
  pose proof (rolled_covers _ _ _ _ _ _ _ Hgood Ea Er) as (Hr & Hret & Hb & Hkey & Hk & Hcov).
  set (granted := Z.min n (saturating_sub limit (rec_bytes r'))).
  assert (0 <= granted) by (unfold granted, saturating_sub; lia).
  destruct (Z.eqb_spec granted 0); [intros ?; simplify_eq; apply idle_inv; [done|done|apply zero_grant]|].
  unfold checked_add.
  destruct (rec_bytes r' + granted <=? u64_max) eqn:Eo;
    [|intros ?; simplify_eq; by apply idle_inv].
  set (c := mkState _ _ _).
  destruct (commit _ _ _ _ _ c) as [[res st'] dd] eqn:Ec. intros ?; simplify_eq.
  assert (forall l, (l = ledger w \/ l = [mkGrant id (rec_key r') granted] ++ ledger w) ->
                    good l c) as Hc.
  { intros l Hl.
    pose proof (effective_offset s now (proj1 Hgood)) as Hoff.
    assert (good (ledger w) c) as Hbase.
    { eapply good_update; try done; [apply effective_ge| |].
      - split; [|simpl; rewrite Hret; lia].
        change (key_le (rec_key r') (month_key (effective_now s now)) = true). rewrite Hkey. keys.
      - change (0 < granted_in (ledger w) id (rec_key r') ->
          granted_in (ledger w) id (rec_key r') <= rec_bytes r' + granted). lia. }
    destruct Hl as [->| ->]; [done|]. destruct Hbase as [Hwf Ha]. split; [done|].
    intros i m Hg. change ([?g] ++ ?l) with (g :: l) in *. rewrite granted_in_cons in Hg.
    rewrite granted_in_cons. simpl in *.
    case_bool_decide as Hx; [|by apply (Ha i m); lia]. destruct Hx as [-> <-].
    rewrite lookup_insert_eq. change (rec_key (mkRecord _ _ _ _)) with (rec_key r').
    split; [keys|]. intros _. simpl. lia. }
  rewrite <- Hkey.
  replace (match (_ ← res; Ok granted) with Ok g => [mkGrant id (rec_key r') g] | Err _ => [] end)
    with (match res with Ok _ => [mkGrant id (rec_key r') granted] | Err _ => [] end)
    by (by destruct res).
  eapply commit_inv; [done|apply Hc; by left|apply Hc; by right|exact Ec].
Qed.

Lemma permits_inv e w store id limit now r store' disks :
  world_inv w -> w_store w = Some store ->
  permits_new_stream encode euid (faults e) (w_disk w) store id limit now = (r, store', disks) ->
  world_inv (settle e w (Some store') disks []).
Proof.
  intros Hw Hst. unfold permits_new_stream.
  destruct (ensure_healthy (status store)) as [u|err] eqn:Eh;
    [|intros ?; simplify_eq; by apply idle_inv].
  pose proof Hw as [_ Hgood]. rewrite Hst in Hgood. specialize (Hgood (healthy_Ok _ _ Eh)).
  set (s := state (status store)) in *.
  destruct (active_record s id) as [rc|err] eqn:Ea;
    [|intros ?; simplify_eq; by apply idle_inv].
  destruct (roll_record rc (month_key (effective_now s now))) as [r' rolled] eqn:Er.
  pose proof (rolled_covers _ _ _ _ _ _ _ Hgood Ea Er) as (Hr & Hret & Hb & Hkey & Hk & Hcov).
  destruct rolled; [|intros ?; simplify_eq; by apply idle_inv].
  destruct (commit _ _ _ _ _ _) as [[res st'] dd] eqn:Ec. intros ?; simplify_eq.
  pose proof (effective_offset s now (proj1 Hgood)) as Hoff.
  assert (good (ledger w) (mkState (schema_version s) (effective_now s now)
            (<[id := r']> (records s)))).
  { eapply good_update; try done; [apply effective_ge|].
    split; [rewrite Hkey; keys|]. rewrite Hret. done. }
  pose proof (commit_inv e w _ _ (max_records store) [] _ _ _ Hw ltac:(done) ltac:(done) Ec) as Hi.
  by destruct res.
Qed.

Lemma reconcile_inv e w store ids now r store' disks :
  world_inv w -> w_store w = Some store ->
  reconcile encode euid (faults e) (w_disk w) store ids now = (r, store', disks) ->
  world_inv (settle e w (Some store') disks []).
Proof.
  intros Hw Hst. unfold reconcile.
  case_match; [intros ?; simplify_eq; by apply idle_inv|].
  destruct (ensure_healthy (status store)) as [u|err] eqn:Eh;
    [|intros ?; simplify_eq; by apply idle_inv].
  pose proof Hw as [_ Hgood]. rewrite Hst in Hgood. specialize (Hgood (healthy_Ok _ _ Eh)).
  destruct (reconcile_candidate _ _ _ _) as [[c ch]|err] eqn:Ecand;
    [|intros ?; simplify_eq; by apply idle_inv].
  destruct ch; [|intros ?; simplify_eq; by apply idle_inv].
  destruct (commit _ _ _ _ _ _) as [[res st'] dd] eqn:Ec. intros ?; simplify_eq.
  pose proof (reconcile_good _ _ _ _ _ _ _ Hgood Ecand) as Hc.
  pose proof (commit_inv e w _ _ (max_records store) [] _ _ _ Hw Hc Hc Ec) as Hi.
  by destruct r.
Qed.

(** ** Opening *)

Lemma read_state_decodes before opened mr s :
  read_state decode euid before opened mr = Ok s ->
  exists f, opened = Some f /\ decode (contents f) = Some s /\
    inode before = inode f /\ validate_state s mr = Ok tt.
Proof.
  unfold read_state. intros Hr. destruct opened as [f|]; [|by inv_ok].
  exists f. split; [done|]. rsimpl in Hr. inv_ok.
  assert (zlen (contents f) <= MAX_STATE_FILE_BYTES) as Hlen.
  { match goal with H : validate_state_file_metadata euid f = _ |- _ => revert H end.
    unfold validate_state_file_metadata. case_match; [done|]. bool_props. lia. }
  unfold read_bounded in *. rewrite (proj2 (Z.leb_le _ _)) in * by lia.
  split; [done|]. unfold validate_same_file in *.
  destruct (Z.eqb_spec (inode before) (inode f)); done.
Qed.

Lemma open_inv e w mrt now r disks :
  world_inv w ->
  open_blocking encode decode euid (faults e) (w_disk w) (state_file (w_disk w)) mrt now = (r, disks) ->
  world_inv (settle e w (match r with Ok store => Some store | Err _ => None end) disks []).
Proof.
  intros [Hd _]. unfold open_blocking.
  assert (world_inv (settle e w None [w_disk w] [])) as Hstop.
  { by eapply settle_inv; [done|apply Forall_singleton| | |]. }
  destruct (validate_directory euid (w_disk w)); [|by intros ?; simplify_eq; apply Hstop].
  case_match; [by intros ?; simplify_eq; apply Hstop|].
  case_match; [by intros ?; simplify_eq; apply Hstop|].
  destruct (state_file (w_disk w)) as [f|] eqn:Ef.
  - intros ?; simplify_eq. destruct (read_state _ _ _ _ _) as [s|err] eqn:Er; [|by apply Hstop].
    apply read_state_decodes in Er as (f' & ? & Hdec & _). simplify_eq.
    pose proof Hd as Hd'. unfold disk_inv in Hd'. rewrite Ef in Hd'.
    destruct Hd' as (_ & s0 & b & Hb & Hcont & Hg). rewrite Hcont in Hdec.
    rewrite (decode_encode _ _ Hb) in Hdec. simplify_eq.
    by apply settle_inv with (w_disk w); [|apply Forall_singleton| | |intros _].
  - destruct (persist_state _ _ _ _ _) as [rp dd] eqn:Ep. intros ?; simplify_eq.
    assert (good (ledger w) (mkState STATE_SCHEMA_VERSION (utc now) ∅)) as Hg.
    { apply fresh_good. unfold disk_inv in Hd. by rewrite Ef in Hd. }
    pose proof (persist_inv _ _ _ _ _ _ Hd Hg Ep) as Hall.
    destruct rp as [[]|err]; simpl.
    + destruct (persist_final _ _ _ _ _ Hg Ep) as (final & Hlast & Hfin).
      by eapply settle_inv.
    + pose proof Ep as (_ & final & Hlast & _)%persist_disks.
      eapply settle_inv; try done; simpl.
      apply last_Some_elem_of in Hlast. by eapply Forall_forall.
Qed.

Definition op_ok (op : QuotaOp) : Prop :=
  match op with OpReserve _ _ n _ => 0 <= n | _ => True end.

Lemma step_inv w oe :
  world_inv w -> op_ok oe.1 -> world_inv (quota_step encode decode euid w oe).
Proof.
  intros Hw Hok. destruct oe as [op e]. unfold quota_step.
  destruct op as [mrt now|ids now|id limit now|id limit n now]; simpl in Hok;
    [|destruct (w_store w) as [store|] eqn:Est; [|done]..].
  - destruct (open_blocking _ _ _ _ _ _ _ _) as [r disks] eqn:E. by eapply open_inv.
  - destruct (reconcile _ _ _ _ _ _ _) as [[r store'] disks] eqn:E. by eapply reconcile_inv.
  - destruct (permits_new_stream _ _ _ _ _ _ _ _) as [[r store'] disks] eqn:E.
    by eapply permits_inv.
  - destruct (reserve _ _ _ _ _ _ _ _ _) as [[r store'] disks] eqn:E. by eapply reserve_inv.
Qed.

Lemma run_inv ops : forall w,
  world_inv w -> Forall (fun oe => op_ok oe.1) ops ->
  world_inv (quota_run encode decode euid w ops).
Proof.
  unfold quota_run. induction ops as [|oe ops IH]; intros w Hw Hok; simpl; [done|].
  apply Forall_cons in Hok as [Ho Hok]. apply IH; [|done]. by apply step_inv.
Qed.

(** ** The monthly limit *)

Definition op_limit (id : string) (cap : Z) (op : QuotaOp) : Prop :=
  match op with OpReserve id' limit _ _ => id' = id -> limit <= cap | _ => True end.

Definition under_cap (id : string) (cap : Z) (w : World) : Prop :=
  forall m, granted_in (ledger w) id m <= cap.

Lemma reserve_granted fl d store id limit n now g store' disks :
  0 <= n -> reserve encode euid fl d store id limit n now = (Ok g, store', disks) ->
  g = 0 \/
  poisoned (status store) = false /\
  exists r r' rolled, active_record (state (status store)) id = Ok r /\
    roll_record r (month_key (effective_now (state (status store)) now)) = (r', rolled) /\
    rec_bytes r' + g <= limit.
Proof.
  intros Hn. unfold reserve. case_match; [intros ?; simplify_eq; by left|].
  destruct (ensure_healthy (status store)) as [u|] eqn:Eh; [|done].
  destruct (active_record _ _) as [r|] eqn:Ea; [|done].
  destruct (roll_record _ _) as [r' rolled] eqn:Er.
  case_match; [intros ?; simplify_eq; by left|]. bool_props.
  case_match; [|done]. destruct (commit _ _ _ _ _ _) as [[res st'] dd].
  intros ?. destruct res as [|]; simplify_eq/=. right.
  split; [by eapply healthy_Ok|]. exists r, r', rolled. split; [done|]. split; [done|].
  unfold saturating_sub in *. lia.
Qed.

Lemma step_cap id cap w oe :
  0 <= cap -> world_inv w -> under_cap id cap w -> op_ok oe.1 -> op_limit id cap oe.1 ->
  under_cap id cap (quota_step encode decode euid w oe).
Proof.
  intros Hcap Hw Hu Hok Hlim m. destruct oe as [op e]. unfold quota_step.
  assert (forall store disks, granted_in (ledger (settle e w store disks [])) id m <= cap) as Hnone.
  { intros. unfold settle. destruct (crash e); apply Hu. }
  destruct op as [mrt now|ids now|id' limit now|id' limit n now];
    [|destruct (w_store w) as [store|] eqn:Est; [|by apply Hu]..];
    [by repeat case_match; apply Hnone..|].
  destruct (reserve _ _ _ _ _ _ _ _ _) as [[r store'] disks] eqn:E.
  destruct r as [g|err]; [|apply Hnone].
  unfold settle. destruct (crash e); [apply Hu|]. cbn [ledger app].
  rewrite granted_in_cons. cbn [g_route g_month g_bytes].
  case_bool_decide as Hx; [|by apply Hu]. destruct Hx as [-> <-].
  apply reserve_granted in E as [->|(Hp & r & r' & rolled & Ha & Hroll & Hle)];
    [by apply Hu| |exact Hok].
  pose proof Hw as [_ Hgood]. rewrite Est in Hgood. specialize (Hgood Hp).
  pose proof (rolled_covers _ _ _ _ _ _ _ Hgood Ha Hroll) as (_ & _ & ? & Hkey & _ & Hcov).
  rewrite Hkey in Hcov. simpl in Hlim. specialize (Hlim eq_refl).
  specialize (Hu (month_key (effective_now (state (status store)) now))). lia.
Qed.

Lemma run_cap id cap ops : forall w,
  0 <= cap -> world_inv w -> under_cap id cap w ->
  Forall (fun oe => op_ok oe.1) ops -> Forall (fun oe => op_limit id cap oe.1) ops ->
  under_cap id cap (quota_run encode decode euid w ops).
Proof.
  unfold quota_run. induction ops as [|oe ops IH]; intros w Hcap Hw Hu Hok Hl; simpl; [done|].
  apply Forall_cons in Hok as [Ho Hok]. apply Forall_cons in Hl as [Hl1 Hl].
  apply IH; auto using step_inv, step_cap.
Qed.

Lemma fresh_inv d : state_file d = None -> world_inv (fresh_world d).
Proof. intros Hd. split; [|done]. unfold disk_inv. simpl. by rewrite Hd. Qed.

End Invariant.

(** C1: The monthly limit of a route holds over the whole life of its relay.
    Start in a directory where the store never ran and let any sequence of
    opens, reconciliations, admission checks and reservations happen, with any
    system call failing, with crashes between any two of them, restarts from
    disk and clocks that jump back and forth: if every reservation for the
    route is made under a limit of at most [cap], the bytes granted to it in
    any one calendar month are at most [cap]. *)
Theorem monthly_limit_holds `{CL : CalendarLaws}
    (encode : QuotaState -> option (list byte)) (decode : list byte -> option QuotaState)
    (euid : Z) (d : Disk) (ops : list (QuotaOp * Env)) (id : string) (cap : Z) (m : Z * Z) :
  (forall s b, encode s = Some b -> decode (b ++ [x0a]) = Some s) ->
  state_file d = None -> 0 <= cap ->
  Forall (fun oe => op_ok oe.1) ops -> Forall (fun oe => op_limit id cap oe.1) ops ->
  granted_in (ledger (quota_run encode decode euid (fresh_world d) ops)) id m <= cap.
Proof.
  intros Hcodec Hd Hcap Hok Hlim.
  eapply run_cap; eauto using fresh_inv. intros m'. simpl. lia.
Qed.

(** ** A concrete codec, for the witnesses *)

#[export] Instance OffsetDateTime_countable : Countable OffsetDateTime :=
  inj_countable' (fun t => (instant t, offset t)) (fun p => mkTime p.1 p.2)
    (fun t => match t with mkTime _ _ => eq_refl end).
#[export] Instance QuotaRecord_eq_dec : EqDecision QuotaRecord.
Proof. solve_decision. Defined.
#[export] Instance QuotaRecord_countable : Countable QuotaRecord :=
  inj_countable' (fun r => (rec_year r, rec_month r, rec_bytes r, retired_at r))
    (fun p => mkRecord p.1.1.1 p.1.1.2 p.1.2 p.2)
    (fun r => match r with mkRecord _ _ _ _ => eq_refl end).
#[export] Instance QuotaState_eq_dec : EqDecision QuotaState.
Proof. solve_decision. Defined.
#[export] Instance QuotaState_countable : Countable QuotaState :=
  inj_countable' (fun s => (schema_version s, clock_high_watermark s, records s))
    (fun p => mkState p.1.1 p.1.2 p.2)
    (fun s => match s with mkState _ _ _ => eq_refl end).

Fixpoint positive_bytes (p : positive) : list byte :=
  match p with
  | xH => []
  | xO q => x00 :: positive_bytes q
  | xI q => x01 :: positive_bytes q
  end.
Fixpoint bytes_positive (l : list byte) : option positive :=
  match l with
  | [x0a] => Some xH
  | x00 :: l' => xO <$> bytes_positive l'
  | x01 :: l' => xI <$> bytes_positive l'
  | _ => None
  end.
Definition bits_encode (s : QuotaState) : option (list byte) := Some (positive_bytes (encode s)).
Definition bits_decode (l : list byte) : option QuotaState := bytes_positive l ≫= decode.

Lemma bits_codec s b : bits_encode s = Some b -> bits_decode (b ++ [x0a]) = Some s.
Proof.
  unfold bits_encode, bits_decode. intros [= <-].
  assert (forall p, bytes_positive (positive_bytes p ++ [x0a]) = Some p) as ->.
  { induction p as [p IH|p IH|]; simpl; [by rewrite IH..|done]. }
  apply decode_encode.
Qed.

Definition sample_disk : Disk := mkDisk (Some (mkDirectory true 7 0x1C0)) None None.
Definition sample_env : Env := mkEnv (mkFaults true true true true true true 42) None [].
Definition sample_now : OffsetDateTime := mkTime (20468 * NANOS_PER_DAY) 0.
Definition sample_route : string := "route_0123456789abcdef".
(** A day of January 2026; the machine crashes during the third reservation,
    after the new file is in place, and the relay restarts with its clock set
    back by a month. *)
Definition sample_ops : list (QuotaOp * Env) :=
  [ (OpOpen 4 sample_now, sample_env);
    (OpReconcile [sample_route] sample_now, sample_env);
    (OpReserve sample_route 1000 600 sample_now, sample_env);
    (OpReserve sample_route 1000 100 sample_now,
     mkEnv (faults sample_env) (Some 4%nat) []);
    (OpOpen 4 (sub_days sample_now 30), sample_env);
    (OpReserve sample_route 1000 600 (sub_days sample_now 30), sample_env);
    (OpReserve sample_route 1000 5 sample_now, sample_env) ].

Lemma monthly_limit_holds_witness :
  let w := quota_run bits_encode bits_decode 7 (fresh_world sample_disk) sample_ops in
  granted_in (ledger w) sample_route (2026, 1) = 900 /\
  granted_in (ledger w) sample_route (2026, 1) <= 1000.
Proof.
  split; [vm_compute; reflexivity|].
  apply (monthly_limit_holds bits_encode bits_decode 7 sample_disk sample_ops sample_route
           1000 (2026, 1)).
  - exact bits_codec.
  - reflexivity.
  - lia.
  - repeat constructor; simpl; lia.
  - repeat constructor; simpl; lia.
Defined.
