(* ===== verification/RelayQuotaDurable.v ===== *)
(** Durability of the quota store: the state file is replaced atomically, and
    as long as the store is healthy a restart reads back exactly the state it
    holds in memory. *)
From S2P Require Import Prelude Clock RelayError RelayQuota RelayQuotaFacts.
Open Scope Z_scope.

Section Valid.
Context `{CL : CalendarLaws}.
(** ** Validity of the states that are written *)

Lemma validate_state_iff s mr :
  validate_state s mr = Ok tt <->
  schema_version s = STATE_SCHEMA_VERSION /\ offset (clock_high_watermark s) = 0 /\
  Z.of_nat (size (records s)) <= mr /\
  map_Forall (fun id r => record_valid (clock_high_watermark s) id r = true) (records s).
Proof.
  unfold validate_state. rewrite map_Forall_to_list. split.
  - case_match eqn:E1; [done|]. bool_props. case_match eqn:E2; [|done]. intros _.
    split; [done|]. split; [done|]. split; [lia|].
    apply Forall_forall. intros [id r] Hin. rewrite forallb_forall in E2.
    apply (E2 (id, r)). by apply list_elem_of_In.
  - intros (-> & -> & Hs & Hall). simpl. rewrite (proj2 (Z.ltb_ge _ _)) by lia. simpl.
    destruct (forallb _ _) eqn:E; [done|]. exfalso.
    apply not_true_iff_false in E. apply E, forallb_forall. intros [id r] Hin.
    rewrite Forall_forall in Hall. apply (Hall (id, r)). by apply list_elem_of_In.
Qed.

Lemma record_valid_iff wm id r :
  record_valid wm id r = true <->
  valid_route_id id = true /\ 1 <= rec_month r <= 12 /\
  key_le (rec_key r) (month_key wm) = true /\
  match retired_at r with Some t => offset t = 0 /\ instant t <= instant wm | None => True end.
Proof.
  unfold record_valid, key_le, time_lt.
  rewrite !andb_true_iff, !Z.leb_le. destruct (retired_at r).
  - rewrite andb_true_iff, Z.eqb_eq, !negb_true_iff, Z.ltb_ge. naive_solver.
  - naive_solver.
Qed.

Lemma record_valid_raise wm wm' id r :
  offset wm = 0 -> offset wm' = 0 -> instant wm <= instant wm' ->
  record_valid wm id r = true -> record_valid wm' id r = true.
Proof.
  rewrite !record_valid_iff. intros H1 H2 Hle (? & ? & Hk & Hr).
  pose proof (month_mono wm wm' H1 H2 Hle). unfold month_key in *.
  split; [done|]. split; [done|]. split; [keys|].
  destruct (retired_at r); [|done]. naive_solver lia.
Qed.

Lemma roll_valid wm id r r' rolled :
  record_valid wm id r = true -> roll_record r (month_key wm) = (r', rolled) ->
  record_valid wm id r' = true.
Proof.
  unfold roll_record. rewrite record_valid_iff. intros (? & ? & ? & ?) Hroll.
  case_match; simplify_eq/=; apply record_valid_iff; [|done]. simpl.
  split; [done|]. split; [apply month_range|]. split; [|done].
  unfold rec_key, month_key; simpl. keys.
Qed.

(** The watermark moves and one record is replaced. *)
Lemma update_valid s mr id r eff :
  validate_state s mr = Ok tt -> offset eff = 0 ->
  instant (clock_high_watermark s) <= instant eff -> is_Some (records s !! id) ->
  record_valid eff id r = true ->
  validate_state (mkState (schema_version s) eff (<[id := r]> (records s))) mr = Ok tt.
Proof.
  rewrite !validate_state_iff. intros (Hv & Ho & Hsz & Hall) Heff Hle [r0 Hr0] Hr. simpl.
  split; [done|]. split; [done|]. split; [by rewrite map_size_insert_Some|].
  apply map_Forall_insert_2; [done|]. intros i x Hx.
  by eapply record_valid_raise, Hall.
Qed.

Lemma effective_valid s mr now :
  validate_state s mr = Ok tt ->
  offset (effective_now s now) = 0 /\
  instant (clock_high_watermark s) <= instant (effective_now s now).
Proof.
  rewrite validate_state_iff. intros (_ & Ho & _).
  split; [by apply time_max_offset|apply time_max_ge_r].
Qed.

Lemma reconcile_add_size mr cur ids : forall acc recs ch,
  try_fold (reconcile_add mr cur) acc ids = Ok (recs, ch) ->
  Z.of_nat (size acc.1) <= mr -> Z.of_nat (size recs) <= mr.
Proof.
  induction ids as [|i ids IH]; intros acc recs ch Hf Hs; simpl in Hf; [by simplify_eq|].
  apply bind_Ok in Hf as (acc' & Hadd & Hf). apply (IH _ _ _ Hf).
  unfold reconcile_add in Hadd. repeat case_match; simplify_eq; [done|]. simpl.
  rewrite map_size_insert_None by done. bool_props. lia.
Qed.

Lemma reconcile_record_valid active eff id r :
  offset eff = 0 -> record_valid eff id r = true ->
  record_valid eff id (reconcile_record active (month_key eff) eff id r).1 = true.
Proof.
  intros Heff Hr. unfold reconcile_record. case_bool_decide.
  - destruct (roll_record r (month_key eff)) as [r1 rolled] eqn:E.
    apply (roll_valid _ _ _ _ _ Hr) in E. apply record_valid_iff in E as (? & ? & ? & ?).
    destruct (retired_at r1) as [t|] eqn:Et; simpl; apply record_valid_iff;
      [done|]. by rewrite Et.
  - pose proof Hr as (? & ? & ? & ?)%record_valid_iff.
    destruct (retired_at r); [done|]. apply record_valid_iff. simpl.
    split; [done|]. split; [done|]. split; [done|]. lia.
Qed.

Lemma reconcile_valid mr s ids now c ch :
  validate_state s mr = Ok tt -> Forall (fun id => valid_route_id id = true) ids ->
  reconcile_candidate mr s ids now = Ok (c, ch) -> validate_state c mr = Ok tt.
Proof.
  intros Hs Hids Hc. destruct (effective_valid _ _ now Hs) as [Heff Hge].
  pose proof Hs as (Hv & Ho & Hsz & Hall)%validate_state_iff.
  pose proof Hc as [Heq Hlook]%reconcile_lookup.
  apply validate_state_iff. rewrite Heq. cbn [schema_version clock_high_watermark records].
  split; [done|]. split; [done|]. split.
  - unfold reconcile_candidate in Hc. apply bind_Ok in Hc as ([recs ch'] & Hf & Hc).
    simplify_eq/=. eapply reconcile_add_size; [exact Hf|]. simpl.
    etrans; [|exact Hsz]. apply inj_le. rewrite <- !size_dom. apply subseteq_size.
    rewrite dom_fmap. etrans; [apply dom_imap_subseteq|]. apply dom_filter_subseteq.
  - intros id r Hr. rewrite Hlook in Hr.
    assert (id ∈ ids ->
      record_valid (effective_now s now) id
        (mkRecord (year (effective_now s now)) (month (effective_now s now)) 0 None) = true) as Hnew.
    { intros Hin. apply record_valid_iff. simpl. split; [by eapply Forall_forall in Hids|].
      split; [apply month_range|]. split; [|done]. unfold rec_key, month_key; simpl. keys. }
    destruct (records s !! id) as [r0|] eqn:Er; repeat case_match; simplify_eq; auto.
    apply reconcile_record_valid; [done|]. by eapply record_valid_raise, Hall.
Qed.

End Valid.

Section Durable.
Context `{CL : CalendarLaws}.
Context (encode : QuotaState -> option (list byte)).
Context (decode : list byte -> option QuotaState).
Context (euid : Z).
Context (decode_encode : forall s b, encode s = Some b -> decode (b ++ [x0a]) = Some s).

(** A file that [persist_state] wrote *)
Definition written_file (s : QuotaState) (f : File) : Prop :=
  exists b, encode s = Some b /\ contents f = b ++ [x0a] /\ synced f = true /\
    regular f = true /\ file_uid f = euid /\ file_mode f = 0x180 /\
    zlen (contents f) <= MAX_STATE_FILE_BYTES.

Definition durable (store : Store) (d : Disk) : Prop :=
  validate_directory euid d = Ok tt /\ temp_file d = None /\
  poisoned (status store) = false /\
  validate_state (state (status store)) (max_records store) = Ok tt /\
  exists f, state_file d = Some f /\ written_file (state (status store)) f.

Definition file_inv (d : Disk) : Prop :=
  match state_file d with None => True | Some f => exists s, written_file s f end.

Definition durable_inv (w : World) : Prop :=
  file_inv (w_disk w) /\
  match w_store w with
  | Some store => poisoned (status store) = false -> durable store (w_disk w)
  | None => True
  end.

(** ** Durability of a commit *)

Lemma persist_durable fl d s mr disks :
  persist_state encode euid fl d s = (Ok tt, disks) -> validate_state s mr = Ok tt ->
  exists d', last disks = Some d' /\ durable (mkStore mr (mkStatus s false)) d'.
Proof.
  unfold persist_state. intros Hp Hv.
  destruct (validate_directory euid d) as [[]|] eqn:Ed; [|done].
  destruct (encode s) as [b|] eqn:Eb; [|done].
  destruct (Z.ltb_spec MAX_STATE_FILE_BYTES (zlen (b ++ [x0a]))) as [|Hlen]; [done|].
  apply replace_file_disks in Hp as (_ & d' & Hlast & Hok).
  destruct (Hok eq_refl) as (Hf & Ht & Hdir). exists d'. split; [done|].
  split; [unfold validate_directory in *; by rewrite Hdir|]. split; [done|].
  split; [done|]. split; [done|]. eexists. split; [exact Hf|]. exists b. done.
Qed.

Lemma persist_file_inv fl d s r disks :
  file_inv d -> persist_state encode euid fl d s = (r, disks) -> Forall file_inv disks.
Proof.
  intros Hd Hp. unfold persist_state in Hp.
  destruct (validate_directory euid d); simplify_eq; [|by apply Forall_singleton].
  destruct (encode s) as [b|] eqn:Eb; simplify_eq; [|by apply Forall_singleton].
  destruct (Z.ltb_spec MAX_STATE_FILE_BYTES (zlen (b ++ [x0a]))); simplify_eq;
    [by apply Forall_singleton|].
  apply replace_file_disks in Hp as [Hall _]. eapply Forall_impl; [exact Hall|].
  simpl. intros x [Hx|Hx]; unfold file_inv in *; rewrite Hx; [done|].
  exists s, b. done.
Qed.

Lemma settle_durable e w store disks gr final :
  file_inv (w_disk w) -> Forall file_inv disks -> last disks = Some final ->
  match store with
  | Some st => poisoned (status st) = false -> durable st final
  | None => True
  end ->
  durable_inv (settle e w store disks gr).
Proof.
  intros Hd Hall Hlast Hst. unfold settle, durable_inv.
  destruct (crash e) as [n|]; simpl.
  - split; [|done].
    assert (file_inv (default (w_disk w) (disks !! n))) as Hf.
    { destruct (disks !! n) eqn:E; simpl; [by eapply Forall_lookup_1|done]. }
    unfold file_inv, crash_disk in *; simpl.
    destruct (state_file (default _ _)) as [f|]; [|done]. simpl.
    destruct Hf as [s Hw]. pose proof Hw as (b & _ & _ & Hs & _).
    unfold crash_file. rewrite Hs. by exists s.
  - rewrite Hlast. split; [|done]. simpl. apply last_Some_elem_of in Hlast.
    by eapply Forall_forall.
Qed.

Lemma idle_durable e w store gr :
  durable_inv w -> w_store w = Some store ->
  durable_inv (settle e w (Some store) [w_disk w] gr).
Proof.
  intros [Hd Hs] Hst. rewrite Hst in Hs.
  by eapply settle_durable; [|apply Forall_singleton| |].
Qed.

Lemma commit_durable e w st c mr gr r st' disks :
  durable_inv w -> poisoned st = false -> validate_state c mr = Ok tt ->
  commit encode euid (faults e) (w_disk w) st c = (r, st', disks) ->
  durable_inv (settle e w (Some (mkStore mr st')) disks gr).
Proof.
  intros [Hd _] Hp Hc Hcommit. apply commit_cases in Hcommit as [Hpe Hst].
  pose proof (persist_file_inv _ _ _ _ _ Hd Hpe) as Hall.
  destruct r as [[]|err]; subst st'.
  - destruct (persist_durable _ _ _ _ _ Hpe Hc) as (final & Hlast & Hfin).
    eapply settle_durable; [done..|]. intros _. by rewrite Hp.
  - pose proof Hpe as (_ & final & Hlast & _)%persist_disks.
    by eapply settle_durable; [done..|].
Qed.

Lemma reserve_durable e w store id limit n now r store' disks gr :
  durable_inv w -> w_store w = Some store ->
  reserve encode euid (faults e) (w_disk w) store id limit n now = (r, store', disks) ->
  durable_inv (settle e w (Some store') disks gr).
Proof.
  intros Hw Hst. unfold reserve.
  case_match; [intros ?; simplify_eq; by apply idle_durable|].
  destruct (ensure_healthy (status store)) as [u|err] eqn:Eh;
    [|intros ?; simplify_eq; by apply idle_durable].
  apply healthy_Ok in Eh. pose proof Hw as [_ Hd]. rewrite Hst in Hd.
  specialize (Hd Eh) as (_ & _ & _ & Hv & _).
  destruct (active_record _ _) as [rc|err] eqn:Ea;
    [|intros ?; simplify_eq; by apply idle_durable].
  destruct (roll_record _ _) as [r' rolled] eqn:Er.
  case_match; [intros ?; simplify_eq; by apply idle_durable|].
  case_match; [|intros ?; simplify_eq; by apply idle_durable].
  destruct (commit _ _ _ _ _ _) as [[res st'] dd] eqn:Ec. intros ?; simplify_eq.
  destruct (effective_valid _ _ now Hv) as [Heff Hge].
  apply active_record_Ok in Ea as [Hr _].
  pose proof Hv as (_ & Ho & _ & Hall)%validate_state_iff.
  pose proof (record_valid_raise _ _ _ _ Ho Heff Hge (Hall _ _ Hr)) as Hrv.
  pose proof (roll_valid _ _ _ _ _ Hrv Er) as Hrv'.
  eapply commit_durable; [done|done| |exact Ec].
  apply update_valid; [done|done|done|by eexists|].
  apply record_valid_iff in Hrv'. by apply record_valid_iff.
Qed.

Lemma permits_durable e w store id limit now r store' disks gr :
  durable_inv w -> w_store w = Some store ->
  permits_new_stream encode euid (faults e) (w_disk w) store id limit now = (r, store', disks) ->
  durable_inv (settle e w (Some store') disks gr).
Proof.
  intros Hw Hst. unfold permits_new_stream.
  destruct (ensure_healthy (status store)) as [u|err] eqn:Eh;
    [|intros ?; simplify_eq; by apply idle_durable].
  apply healthy_Ok in Eh. pose proof Hw as [_ Hd]. rewrite Hst in Hd.
  specialize (Hd Eh) as (_ & _ & _ & Hv & _).
  destruct (active_record _ _) as [rc|err] eqn:Ea;
    [|intros ?; simplify_eq; by apply idle_durable].
  destruct (roll_record _ _) as [r' rolled] eqn:Er.
  destruct rolled; [|intros ?; simplify_eq; by apply idle_durable].
  destruct (commit _ _ _ _ _ _) as [[res st'] dd] eqn:Ec. intros ?; simplify_eq.
  destruct (effective_valid _ _ now Hv) as [Heff Hge].
  apply active_record_Ok in Ea as [Hr _].
  pose proof Hv as (_ & Ho & _ & Hall)%validate_state_iff.
  pose proof (record_valid_raise _ _ _ _ Ho Heff Hge (Hall _ _ Hr)) as Hrv.
  eapply commit_durable; [done|done| |exact Ec].
  apply update_valid; [done|done|done|by eexists|]. by eapply roll_valid.
Qed.

Lemma reconcile_durable e w store ids now r store' disks gr :
  durable_inv w -> w_store w = Some store -> Forall (fun id => valid_route_id id = true) ids ->
  reconcile encode euid (faults e) (w_disk w) store ids now = (r, store', disks) ->
  durable_inv (settle e w (Some store') disks gr).
Proof.
  intros Hw Hst Hids. unfold reconcile.
  case_match; [intros ?; simplify_eq; by apply idle_durable|].
  destruct (ensure_healthy (status store)) as [u|err] eqn:Eh;
    [|intros ?; simplify_eq; by apply idle_durable].
  apply healthy_Ok in Eh. pose proof Hw as [_ Hd]. rewrite Hst in Hd.
  specialize (Hd Eh) as (_ & _ & _ & Hv & _).
  destruct (reconcile_candidate _ _ _ _) as [[c ch]|err] eqn:Ecand;
    [|intros ?; simplify_eq; by apply idle_durable].
  destruct ch; [|intros ?; simplify_eq; by apply idle_durable].
  destruct (commit _ _ _ _ _ _) as [[res st'] dd] eqn:Ec. intros ?; simplify_eq.
  eapply commit_durable; [done|done| |exact Ec]. by eapply reconcile_valid.
Qed.

Lemma open_durable e w mrt now r disks gr :
  durable_inv w -> 0 <= mrt ->
  open_blocking encode decode euid (faults e) (w_disk w) (state_file (w_disk w)) mrt now = (r, disks) ->
  durable_inv (settle e w (match r with Ok store => Some store | Err _ => None end) disks gr).
Proof.
  intros [Hd _] Hmrt. unfold open_blocking.
  assert (durable_inv (settle e w None [w_disk w] gr)) as Hstop.
  { by eapply settle_durable; [|apply Forall_singleton| |]. }
  destruct (validate_directory euid (w_disk w)) as [[]|] eqn:Edir;
    [|by intros ?; simplify_eq; apply Hstop].
  case_match; [by intros ?; simplify_eq; apply Hstop|].
  case_match eqn:Et; [by intros ?; simplify_eq; apply Hstop|].
  destruct (state_file (w_disk w)) as [f|] eqn:Ef.
  - intros ?; simplify_eq. destruct (read_state _ _ _ _ _) as [s|err] eqn:Er; [|by apply Hstop].
    apply read_state_decodes in Er as (f' & ? & Hdec & _ & Hval). simplify_eq.
    pose proof Hd as Hd'. unfold file_inv in Hd'. rewrite Ef in Hd'.
    destruct Hd' as (s0 & Hwf). pose proof Hwf as (b & Hb & Hcont & _).
    rewrite Hcont, (decode_encode _ _ Hb) in Hdec. simplify_eq.
    apply settle_durable with (w_disk w); [done|by apply Forall_singleton|done|].
    intros _. split; [done|]. split.
    { destruct (temp_file (w_disk w)); [|done]. bool_props. by destruct Et. }
    split; [done|]. split; [done|]. by exists f'.
  - destruct (persist_state _ _ _ _ _) as [rp dd] eqn:Ep. intros ?; simplify_eq.
    pose proof (persist_file_inv _ _ _ _ _ Hd Ep) as Hall.
    destruct rp as [[]|err]; simpl.
    + destruct (persist_durable _ _ _ (record_capacity mrt) _ Ep) as (final & Hlast & Hfin).
      { apply validate_state_iff. simpl. split; [done|]. split; [done|].
        split; [|apply map_Forall_empty]. rewrite map_size_empty.
        unfold record_capacity. lia. }
      by eapply settle_durable.
    + pose proof Ep as (_ & final & Hlast & _)%persist_disks. by eapply settle_durable.
Qed.

Definition op_valid (op : QuotaOp) : Prop :=
  match op with
  | OpOpen max_routes _ => 0 <= max_routes
  | OpReconcile ids _ => Forall (fun id => valid_route_id id = true) ids
  | _ => True
  end.

Lemma step_durable w oe :
  durable_inv w -> op_valid oe.1 -> durable_inv (quota_step encode decode euid w oe).
Proof.
  intros Hw Hok. destruct oe as [op e]. unfold quota_step.
  destruct op as [mrt now|ids now|id limit now|id limit n now]; simpl in Hok;
    [|destruct (w_store w) as [store|] eqn:Est; [|done]..].
  - destruct (open_blocking _ _ _ _ _ _ _ _) as [r disks] eqn:E. by eapply open_durable.
  - destruct (reconcile _ _ _ _ _ _ _) as [[r store'] disks] eqn:E.
    by eapply reconcile_durable.
  - destruct (permits_new_stream _ _ _ _ _ _ _ _) as [[r store'] disks] eqn:E.
    by eapply permits_durable.
  - destruct (reserve _ _ _ _ _ _ _ _ _) as [[r store'] disks] eqn:E.
    by eapply reserve_durable.
Qed.

Lemma run_durable ops : forall w,
  durable_inv w -> Forall (fun oe => op_valid oe.1) ops ->
  durable_inv (quota_run encode decode euid w ops).
Proof.
  unfold quota_run. induction ops as [|oe ops IH]; intros w Hw Hok; simpl; [done|].
  apply Forall_cons in Hok as [Ho Hok]. apply IH; [|done]. by apply step_durable.
Qed.

Lemma durable_open store d fl mrt now :
  durable store d -> max_records store = record_capacity mrt ->
  mrt <= MAX_QUOTA_RECORDS / RECORDS_PER_CONFIGURED_ROUTE ->
  open_blocking encode decode euid fl d (state_file d) mrt now = (Ok store, [d]).
Proof.
  intros (Hdir & Ht & Hp & Hv & f & Hf & b & Hb & Hcont & Hs & Hreg & Hu & Hm & Hlen) Hmr Hle.
  unfold open_blocking. rewrite Hdir, (proj2 (Z.ltb_ge _ _)) by lia. rewrite Ht, Hf.
  rewrite bool_decide_false by (by intros [? ?]).
  assert (validate_state_file_metadata euid f = Ok tt) as Hmeta.
  { unfold validate_state_file_metadata. rewrite Hreg, Hu, Hm, Z.eqb_refl. simpl.
    rewrite (proj2 (Z.ltb_ge _ _)) by lia.
    destruct (Z.eqb_spec (zlen (contents f)) 0) as [Hz|]; [|done].
    rewrite Hcont, zlen_app in Hz. pose proof (zlen_nonneg b). unfold zlen in Hz at 2.
    simpl in Hz. lia. }
  unfold read_state. rewrite Hmeta. rsimpl. rewrite Hmeta. rsimpl.
  unfold validate_same_file. rewrite Z.eqb_refl. rsimpl.
  unfold read_bounded. rewrite (proj2 (Z.leb_le _ _)) by lia.
  rewrite (proj2 (Z.ltb_ge MAX_STATE_FILE_BYTES _)) by lia.
  destruct (Z.eqb_spec (zlen (contents f)) 0) as [Hz|_].
  { unfold validate_state_file_metadata in Hmeta. rewrite Hz in Hmeta.
    rewrite orb_true_r in Hmeta. done. }
  rsimpl. rewrite Hcont, (decode_encode _ _ Hb). rsimpl. rewrite <- Hmr, Hv. rsimpl.
  destruct store as [mr [s p]]; simpl in *. by subst.
Qed.

End Durable.

(** The state file is replaced atomically. Whatever system calls fail, at
    every point of [persist_state] the file is either the one that was there
    or the complete, synced encoding of the new state under the private mode
    0600, so a crash never leaves a torn file; when the call succeeds the new
    file is in place and no temporary file is left. *)
Theorem quota_write_atomic (encode : QuotaState -> option (list byte)) (euid : Z)
    (fl : Faults) (d : Disk) (s : QuotaState) (r : relay_result unit) (disks : list Disk) :
  persist_state encode euid fl d s = (r, disks) ->
  let new_file f := exists b, encode s = Some b /\
    f = mkFile true euid 0x180 (fresh_inode fl) (b ++ [x0a]) true in
  Forall (fun x => state_file x = state_file d \/
                   exists f, state_file x = Some f /\ new_file f) disks /\
  (r = Ok tt -> exists x f, last disks = Some x /\ state_file x = Some f /\
                  new_file f /\ temp_file x = None).
Proof.
  intros Hp new_file. split.
  - apply persist_disks in Hp as [Hall _]. eapply Forall_impl; [exact Hall|].
    simpl. intros x [?|(b & ? & ?)]; [by left|]. right. eexists. split; [done|]. by exists b.
  - intros ->. unfold persist_state in Hp.
    destruct (validate_directory euid d); [|done]. destruct (encode s) as [b|] eqn:Eb; [|done].
    destruct (MAX_STATE_FILE_BYTES <? zlen (b ++ [x0a])); [done|].
    apply replace_file_disks in Hp as (_ & x & Hlast & Hok). destruct (Hok eq_refl) as (Hf & Ht & _).
    exists x. eexists. split; [done|]. split; [done|]. split; [by exists b|done].
Qed.

Lemma quota_write_atomic_witness :
  exists r disks,
    persist_state bits_encode 7 (mkFaults true true true false true true 9) sample_disk
      (mkState 1 sample_now ∅) = (r, disks) /\ length disks = 5%nat /\
    Forall (fun x => state_file x = state_file sample_disk \/
      exists f, state_file x = Some f /\ exists b,
        bits_encode (mkState 1 sample_now ∅) = Some b /\
        f = mkFile true 7 0x180 9 (b ++ [x0a]) true) disks.
Proof.
  eexists _, _. split; [reflexivity|]. split; [reflexivity|].
  eapply (quota_write_atomic bits_encode 7 (mkFaults true true true false true true 9)
            sample_disk (mkState 1 sample_now ∅)).
  reflexivity.
Defined.

(** A restart resumes exactly where the relay stopped. After any run from
    an empty directory, with failing system calls, crashes and restarts, while
    the store is not poisoned, opening its directory again succeeds and gives
    back the same records, watermark and capacity it holds in memory. *)
Theorem quota_restart_exact `{CL : CalendarLaws}
    (encode : QuotaState -> option (list byte)) (decode : list byte -> option QuotaState)
    (euid : Z) (d : Disk) (ops : list (QuotaOp * Env)) (store : Store)
    (fl : Faults) (max_routes : Z) (now : OffsetDateTime) :
  (forall s b, encode s = Some b -> decode (b ++ [x0a]) = Some s) ->
  state_file d = None -> Forall (fun oe => op_valid oe.1) ops ->
  let w := quota_run encode decode euid (fresh_world d) ops in
  w_store w = Some store -> poisoned (status store) = false ->
  max_records store = record_capacity max_routes ->
  max_routes <= MAX_QUOTA_RECORDS / RECORDS_PER_CONFIGURED_ROUTE ->
  open_blocking encode decode euid fl (w_disk w) (state_file (w_disk w)) max_routes now
  = (Ok store, [w_disk w]).
Proof.
  intros Hcodec Hd Hops w Hst Hp Hmr Hle.
  assert (durable_inv encode euid w) as [_ Hw].
  { apply run_durable; try done. split; [|done]. unfold file_inv; simpl. by rewrite Hd. }
  rewrite Hst in Hw. by apply durable_open; auto.
Qed.

Lemma quota_restart_exact_witness :
  exists store,
    let w := quota_run bits_encode bits_decode 7 (fresh_world sample_disk) sample_ops in
    w_store w = Some store /\
    open_blocking bits_encode bits_decode 7 (faults sample_env) (w_disk w)
      (state_file (w_disk w)) 4 sample_now = (Ok store, [w_disk w]).
Proof.
  eexists. split; [vm_compute; reflexivity|].
  eapply (quota_restart_exact bits_encode bits_decode 7 sample_disk sample_ops).
  - exact bits_codec.
  - reflexivity.
  - repeat constructor; simpl; lia.
  - vm_compute; reflexivity.
  - vm_compute; reflexivity.
  - vm_compute; reflexivity.
  - vm_compute. discriminate.
Defined.

(** A store that failed to write stops for good: once a commit has failed
    no operation reads, grants, retires or writes anything through it. *)
Theorem quota_fails_closed `{Calendar} (encode : QuotaState -> option (list byte)) (euid : Z)
    (fl : Faults) (d : Disk) (st : StoreStatus) (c : QuotaState) (mr : Z)
    (e : RelayError) (st' : StoreStatus) (disks : list Disk) :
  commit encode euid fl d st c = (Err e, st', disks) ->
  forall fl' d' id limit n ids now, 0 < n ->
  let store := mkStore mr st' in
  reserve encode euid fl' d' store id limit n now
    = (Err (Config "relay_quota_state_poisoned"), store, [d']) /\
  permits_new_stream encode euid fl' d' store id limit now
    = (Err (Config "relay_quota_state_poisoned"), store, [d']) /\
  exists e', reconcile encode euid fl' d' store ids now = (Err e', store, [d']).
Proof.
  intros Hc fl' d' id limit n ids now Hn. apply commit_cases in Hc as [_ ->].
  unfold reserve, permits_new_stream, reconcile, ensure_healthy, quota_error; simpl.
  rewrite (proj2 (Z.eqb_neq _ _)) by lia. split; [done|]. split; [done|].
  case_match; by eexists.
Qed.

Lemma quota_fails_closed_witness :
  let st := mkStatus (mkState 1 sample_now ∅) false in
  let fl := mkFaults true true false true true true 9 in
  let store := mkStore 8 (mkStatus (mkState 1 sample_now ∅) true) in
  reserve bits_encode 7 fl sample_disk store sample_route 10 5 sample_now
  = (Err (Config "relay_quota_state_poisoned"), store, [sample_disk]).
Proof.
  pose proof (quota_fails_closed bits_encode 7 (mkFaults true true false true true true 9)
    sample_disk (mkStatus (mkState 1 sample_now ∅) false) (mkState 1 sample_now ∅) 8
    (Config "relay_quota_state_sync_failed") (mkStatus (mkState 1 sample_now ∅) true)) as Hf.
  eapply Hf; [reflexivity|exact []|lia].
Defined.
