(* ===== verification/RelayMetrics.v ===== *)
(** * Counters of the relay

    [src/relay-server/src/metrics.rs]: the counters of each route, which live
    in an [Arc] shared by the registry and every runtime of the route (so they
    are objects under numbers of their own), the Prometheus text made of them,
    and the answers of the loopback listener. *)
From stdpp Require Import sorting pretty.
From S2P Require Import Prelude Text RelayConfig RelayRegistry.
Open Scope Z_scope.

Record RouteMetrics : Type := mkRouteMetrics {
  active_tunnels : Z;
  active_streams : Z;
  accepted_streams : Z;
  refused_streams : Z;
  bytes_member_to_node : Z;
  bytes_node_to_member : Z;
  tunnel_replacements : Z;
}.
Definition route_metrics_default : RouteMetrics := mkRouteMetrics 0 0 0 0 0 0 0.

Record Metrics : Type := mkMetrics {
  metric_routes : gmap string Z;
  metric_objects : gmap Z RouteMetrics;
  metric_next : Z;
  auth_failures : Z;
  protocol_failures : Z;
  config_reload_failures : Z;
}.
Definition metrics_default : Metrics := mkMetrics ∅ ∅ 0 0 0 0.

(** [fetch_add] and [fetch_sub] of an [AtomicU64] *)
Definition fetch_add (z n : Z) : Z := wrapping_add u64_max z n.
Definition fetch_sub (z n : Z) : Z := wrapping_sub u64_max z n.

Definition with_metric (m : Metrics) (obj : Z) (f : RouteMetrics -> RouteMetrics) : Metrics :=
  mkMetrics (metric_routes m) (alter f obj (metric_objects m)) (metric_next m) (auth_failures m)
    (protocol_failures m) (config_reload_failures m).
Definition set_active_tunnels (n : Z) (r : RouteMetrics) : RouteMetrics :=
  mkRouteMetrics n (active_streams r) (accepted_streams r) (refused_streams r) (bytes_member_to_node r)
    (bytes_node_to_member r) (tunnel_replacements r).
Definition add_replacement (r : RouteMetrics) : RouteMetrics :=
  mkRouteMetrics (active_tunnels r) (active_streams r) (accepted_streams r) (refused_streams r)
    (bytes_member_to_node r) (bytes_node_to_member r) (fetch_add (tunnel_replacements r) 1).
Definition add_refused (r : RouteMetrics) : RouteMetrics :=
  mkRouteMetrics (active_tunnels r) (active_streams r) (accepted_streams r)
    (fetch_add (refused_streams r) 1) (bytes_member_to_node r) (bytes_node_to_member r)
    (tunnel_replacements r).
Definition add_accepted (r : RouteMetrics) : RouteMetrics :=
  mkRouteMetrics (active_tunnels r) (fetch_add (active_streams r) 1) (fetch_add (accepted_streams r) 1)
    (refused_streams r) (bytes_member_to_node r) (bytes_node_to_member r) (tunnel_replacements r).
(** [ActiveStreamGuard::drop] *)
Definition drop_guard (r : RouteMetrics) : RouteMetrics :=
  mkRouteMetrics (active_tunnels r) (fetch_sub (active_streams r) 1) (accepted_streams r)
    (refused_streams r) (bytes_member_to_node r) (bytes_node_to_member r) (tunnel_replacements r).

(** [Metrics::route] *)
Definition route (m : Metrics) (route_id : string) : Z * Metrics :=
  match metric_routes m !! route_id with
  | Some obj => (obj, m)
  | None =>
      let obj := metric_next m in
      (obj, mkMetrics (<[route_id := obj]> (metric_routes m))
              (<[obj := route_metrics_default]> (metric_objects m)) (obj + 1) (auth_failures m)
              (protocol_failures m) (config_reload_failures m))
  end.

(** [Metrics::remove_route] *)
Definition remove_route (m : Metrics) (route_id : string) : Metrics :=
  mkMetrics (delete route_id (metric_routes m)) (metric_objects m) (metric_next m) (auth_failures m)
    (protocol_failures m) (config_reload_failures m).

(** [record_auth_failure], [record_protocol_failure], [record_reload_failure] *)
Definition record_auth_failure (m : Metrics) : Metrics :=
  mkMetrics (metric_routes m) (metric_objects m) (metric_next m) (fetch_add (auth_failures m) 1)
    (protocol_failures m) (config_reload_failures m).
Definition record_protocol_failure (m : Metrics) : Metrics :=
  mkMetrics (metric_routes m) (metric_objects m) (metric_next m) (auth_failures m)
    (fetch_add (protocol_failures m) 1) (config_reload_failures m).
Definition record_reload_failure (m : Metrics) : Metrics :=
  mkMetrics (metric_routes m) (metric_objects m) (metric_next m) (auth_failures m)
    (protocol_failures m) (fetch_add (config_reload_failures m) 1).

(** ** Rendering *)

(** [str::chars] of a well-formed string: its code points *)
Fixpoint chars (l : list byte) : list Z :=
  let tail b := byte_to_Z b - 0x80 in
  match l with
  | [] => []
  | b0 :: l1 =>
      let z := byte_to_Z b0 in
      if z <=? 0x7F then z :: chars l1
      else if z <=? 0xDF then
        match l1 with b1 :: l2 => ((z - 0xC0) * 64 + tail b1) :: chars l2 | _ => [] end
      else if z <=? 0xEF then
        match l1 with
        | b1 :: b2 :: l3 => ((z - 0xE0) * 4096 + tail b1 * 64 + tail b2) :: chars l3
        | _ => []
        end
      else
        match l1 with
        | b1 :: b2 :: b3 :: l4 =>
            ((z - 0xF0) * 262144 + tail b1 * 4096 + tail b2 * 64 + tail b3) :: chars l4
        | _ => []
        end
  end.

(** The hexadecimal digits of a code point, without leading zeros; six are
    enough for 0x10FFFF. *)
Fixpoint hex_digits (fuel : nat) (z : Z) : list byte :=
  match fuel with
  | O => []
  | S fuel' => if z <? 16 then [hex_digit z] else hex_digits fuel' (z / 16) ++ [hex_digit (z mod 16)]
  end.

(** [char::escape_default] *)
Definition escape_default (c : Z) : list byte :=
  let backslash := x5c in
  if c =? 9 then [backslash; "t"%byte]
  else if c =? 13 then [backslash; "r"%byte]
  else if c =? 10 then [backslash; "n"%byte]
  else if (c =? 39) || (c =? 34) || (c =? 92) then [backslash; byte_of_Z c]
  else if (0x20 <=? c) && (c <=? 0x7e) then [byte_of_Z c]
  else [backslash; "u"%byte; "{"%byte] ++ hex_digits 6 c ++ ["}"%byte].

(** [prometheus_label] *)
Definition prometheus_label (value : string) : list byte := concat (escape_default <$> chars (as_bytes value)).

Definition decimal (z : Z) : list byte := as_bytes (pretty (Z.to_N z)).
Definition line (name : string) (label : list byte) (value : Z) : list byte :=
  as_bytes name ++ label ++ as_bytes " " ++ decimal value ++ [x0a].

(** The lines of one route *)
Definition render_route (route_id : string) (r : RouteMetrics) : list byte :=
  let label := as_bytes "{route_id=" ++ [x22] ++ prometheus_label route_id ++ [x22] ++ as_bytes "}" in
  concat ((fun '(name, value) => line name label value) <$>
    [("relay_route_active_tunnels"%string, active_tunnels r);
     ("relay_route_active_streams"%string, active_streams r);
     ("relay_route_accepted_streams_total"%string, accepted_streams r);
     ("relay_route_refused_streams_total"%string, refused_streams r);
     ("relay_route_bytes_member_to_node_total"%string, bytes_member_to_node r);
     ("relay_route_bytes_node_to_member_total"%string, bytes_node_to_member r);
     ("relay_route_tunnel_replacements_total"%string, tunnel_replacements r)]).

Definition counter_lines (name : string) (value : Z) : list byte :=
  as_bytes "# TYPE " ++ as_bytes name ++ as_bytes " counter" ++ [x0a] ++ line name [] value.

(** The order of a [BTreeMap] with [String] keys *)
Definition key_order (a b : string * Z) : Prop := bytes_leb (as_bytes a.1) (as_bytes b.1) = true.
#[export] Instance key_order_dec : RelDecision key_order.
Proof. intros a b. unfold key_order. apply _. Defined.

(** [Metrics::render] *)
Definition render (m : Metrics) : list byte :=
  counter_lines "relay_auth_failures_total" (auth_failures m) ++
  counter_lines "relay_protocol_failures_total" (protocol_failures m) ++
  counter_lines "relay_config_reload_failures_total" (config_reload_failures m) ++
  concat ((fun '(id, obj) => render_route id (default route_metrics_default (metric_objects m !! obj))) <$>
    merge_sort key_order (map_to_list (metric_routes m))).

(** ** The listener *)

(** [trim_end_matches] *)
Definition trim_end (b : byte) (l : list byte) : list byte :=
  reverse ((fix go l := match l with
                        | c :: l' => if bool_decide (c = b) then go l' else l
                        | [] => []
                        end) (reverse l)).

(** The first line of a request *)
Definition first_line (request : list byte) : list byte :=
  let line := match split_on x0a request with l :: _ => l | [] => [] end in
  trim_end x0d (if utf8_valid line then line else []).

(** The answer of [serve_metrics] to what one [read] returned *)
Definition metrics_response (m : Metrics) (request : list byte) : list byte :=
  let first := first_line request in
  let asks s := bool_decide (first = as_bytes s) in
  let '(status, content_type, body) :=
    if asks "GET /metrics HTTP/1.1" || asks "GET /metrics HTTP/1.0" then
      ("200 OK"%string, "text/plain; version=0.0.4; charset=utf-8"%string, render m)
    else if asks "GET /healthz HTTP/1.1" || asks "GET /healthz HTTP/1.0" then
      ("200 OK"%string, "text/plain; charset=utf-8"%string, as_bytes "ok" ++ [x0a])
    else ("404 Not Found"%string, "text/plain; charset=utf-8"%string, as_bytes "not found" ++ [x0a]) in
  let crlf := [x0d; x0a] in
  as_bytes "HTTP/1.1 " ++ as_bytes status ++ crlf ++
  as_bytes "Content-Type: " ++ as_bytes content_type ++ crlf ++
  as_bytes "Content-Length: " ++ decimal (zlen body) ++ crlf ++
  as_bytes "Connection: close" ++ crlf ++ crlf ++ body.

(** ** Lemmas *)

(** The characters of a valid route identifier are their own label. *)
Lemma escape_plain b :
  is_ascii_alphanumeric b || bool_decide (b = "_"%byte) || bool_decide (b = "-"%byte) = true ->
  escape_default (byte_to_Z b) = [b] /\ byte_to_Z b <= 0x7F.
Proof. destruct b; vm_compute; intros; (split; [reflexivity|congruence]) || discriminate. Qed.

Lemma label_bytes l :
  forallb (fun b => is_ascii_alphanumeric b || bool_decide (b = "_"%byte) || bool_decide (b = "-"%byte)) l
    = true -> concat (escape_default <$> chars l) = l.
Proof.
  induction l as [|b l IH]; [done|]. cbn [forallb chars]. intros H. apply andb_true_iff in H as [Hb Hl].
  destruct (escape_plain b Hb) as [He Hle]. rewrite (proj2 (Z.leb_le _ _) Hle). rewrite fmap_cons.
  cbn [concat]. by rewrite He, IH.
Qed.

(** The metrics name a route by its identifier and by nothing else: the
    label of every valid route identifier is that identifier, unescaped. *)
Theorem route_labels_plain id : validate_route_id id = Ok tt -> prometheus_label id = as_bytes id.
Proof.
  intros H. unfold validate_route_id in H. inv_ok. apply andb_true_iff in H as [_ Hall].
  by apply label_bytes.
Qed.

Lemma route_labels_plain_witness :
  prometheus_label "route_0123456789abcdef" = as_bytes "route_0123456789abcdef".
Proof. apply (route_labels_plain "route_0123456789abcdef"). vm_compute. reflexivity. Defined.

(** A request and its answer, evaluated *)
Lemma metrics_sample :
  metrics_response metrics_default (as_bytes "GET /healthz HTTP/1.1" ++ [x0d; x0a; x0d; x0a]) =
  as_bytes "HTTP/1.1 200 OK" ++ [x0d; x0a] ++ as_bytes "Content-Type: text/plain; charset=utf-8" ++
  [x0d; x0a] ++ as_bytes "Content-Length: 3" ++ [x0d; x0a] ++ as_bytes "Connection: close" ++
  [x0d; x0a; x0d; x0a] ++ as_bytes "ok" ++ [x0a].
Proof. vm_compute. reflexivity. Qed.
