(* ===== verification/RelayRoutes.v ===== *)
(** * The routes of a running relay

    [src/relay-server/src/relay.rs]: the server state, route updates, node
    connections and the tunnels of the routes. An update ([apply_routes], under
    the lock [route_update]) and a node connection ([handle_node_connection])
    wait between their reads and writes, so each is a sequence of steps and the
    steps of one interleave with those of the other. [RouteRuntime]s and
    tunnels are shared, so they are objects under numbers of their own. *)
From S2P Require Import Prelude Text Clock ProtoTypes ProtoRelay RelayError RelayConfig RelayRegistry RelayFrame RelayFlow.
From S2P Require Import RelayTunnel RelayQuota RelayMetrics.

(** ** State *)

Record RouteRuntime : Type := mkRuntime {
  rt_config : RouteConfig;
  rt_address : SocketAddr;
  rt_tunnel : option Z;
  rt_quota : option (string * Z);
  rt_metrics : Z;
  rt_slots : Z;
  rt_next_stream : Z;
  rt_cancel : bool;
}.

(** One tunnel: its runtime and its own token, a child of the runtime's *)
Record RouteTunnel : Type := mkRouteTunnel {
  tn_runtime : Z;
  tn_cancel : bool;
}.

(** An update under the lock: the new routes, the routes still to be revoked
    and to be started, those without a new configuration, and what [reload]
    writes when it is done. *)
Record Update : Type := mkUpdate {
  u_next : gmap string RouteConfig;
  u_revoke : list string;
  u_start : list string;
  u_removed : gset string;
}.

Record ServerState : Type := mkServerState {
  sv_configured : gmap string RouteConfig;
  sv_active : gmap string Z;
  sv_runtimes : gmap Z RouteRuntime;
  sv_tunnels : gmap Z RouteTunnel;
  sv_next : Z;
  sv_session : Z;
  sv_metrics : Metrics;
  sv_quota : option Store;
  sv_disk : Disk;
  sv_shutdown : bool;
  sv_update : option Update;
  (* the results of the updates so far, latest first *)
  sv_results : list (relay_result unit);
  (* the connections that passed authentication, and their routes *)
  sv_conns : gmap Z string;
}.

Definition sv_with_active (v : ServerState) (a : gmap string Z) (r : gmap Z RouteRuntime)
    (t : gmap Z RouteTunnel) (m : Metrics) : ServerState :=
  mkServerState (sv_configured v) a r t (sv_next v) (sv_session v) m (sv_quota v) (sv_disk v)
    (sv_shutdown v) (sv_update v) (sv_results v) (sv_conns v).
Definition sv_with_update (v : ServerState) (u : option Update) : ServerState :=
  mkServerState (sv_configured v) (sv_active v) (sv_runtimes v) (sv_tunnels v) (sv_next v) (sv_session v)
    (sv_metrics v) (sv_quota v) (sv_disk v) (sv_shutdown v) u (sv_results v) (sv_conns v).
Definition sv_with_metrics (v : ServerState) (m : Metrics) : ServerState :=
  mkServerState (sv_configured v) (sv_active v) (sv_runtimes v) (sv_tunnels v) (sv_next v) (sv_session v)
    m (sv_quota v) (sv_disk v) (sv_shutdown v) (sv_update v) (sv_results v) (sv_conns v).
Definition sv_with_conns (v : ServerState) (c : gmap Z string) : ServerState :=
  mkServerState (sv_configured v) (sv_active v) (sv_runtimes v) (sv_tunnels v) (sv_next v) (sv_session v)
    (sv_metrics v) (sv_quota v) (sv_disk v) (sv_shutdown v) (sv_update v) (sv_results v) c.
Definition sv_with_quota (v : ServerState) (q : option Store) (d : Disk) : ServerState :=
  mkServerState (sv_configured v) (sv_active v) (sv_runtimes v) (sv_tunnels v) (sv_next v) (sv_session v)
    (sv_metrics v) q d (sv_shutdown v) (sv_update v) (sv_results v) (sv_conns v).
(** [apply_routes] returns. *)
Definition sv_return (v : ServerState) (r : relay_result unit) : ServerState :=
  mkServerState (sv_configured v) (sv_active v) (sv_runtimes v) (sv_tunnels v) (sv_next v) (sv_session v)
    (sv_metrics v) (sv_quota v) (sv_disk v) (sv_shutdown v) None (r :: sv_results v) (sv_conns v).

Definition rt_with_tunnel (r : RouteRuntime) (t : option Z) : RouteRuntime :=
  mkRuntime (rt_config r) (rt_address r) t (rt_quota r) (rt_metrics r) (rt_slots r) (rt_next_stream r)
    (rt_cancel r).
Definition rt_cancelled (r : RouteRuntime) : RouteRuntime :=
  mkRuntime (rt_config r) (rt_address r) None (rt_quota r) (rt_metrics r) (rt_slots r) (rt_next_stream r)
    true.
Definition tn_cancelled (t : RouteTunnel) : RouteTunnel := mkRouteTunnel (tn_runtime t) true.

(** A tunnel is cancelled with its runtime, and a runtime with the server. *)
Definition runtime_cancelled (v : ServerState) (r : RouteRuntime) : bool := rt_cancel r || sv_shutdown v.
Definition tunnel_cancelled (v : ServerState) (t : RouteTunnel) : bool :=
  tn_cancel t || match sv_runtimes v !! tn_runtime t with
                 | Some r => runtime_cancelled v r
                 | None => true
                 end.

(** ** Runtimes *)

(** [RouteRuntime::current_tunnel] *)
Definition current_tunnel (v : ServerState) (r : RouteRuntime) : option Z :=
  id ← rt_tunnel r;
  t ← sv_tunnels v !! id;
  if tunnel_cancelled v t then None else Some id.

(** [RouteRuntime::register_tunnel], for a new tunnel of runtime [obj] *)
Definition register_tunnel (v : ServerState) (obj : Z) (r : RouteRuntime) (id : Z) : ServerState :=
  let tunnels := <[id := mkRouteTunnel obj false]> (sv_tunnels v) in
  let '(tunnels, m) := match rt_tunnel r with
                       | Some old => (alter tn_cancelled old tunnels,
                                      with_metric (sv_metrics v) (rt_metrics r) add_replacement)
                       | None => (tunnels, sv_metrics v)
                       end in
  sv_with_active v (sv_active v) (<[obj := rt_with_tunnel r (Some id)]> (sv_runtimes v)) tunnels
    (with_metric m (rt_metrics r) (set_active_tunnels 1)).

(** [RouteRuntime::remove_tunnel] *)
Definition remove_tunnel (v : ServerState) (obj id : Z) : ServerState :=
  match sv_runtimes v !! obj with
  | Some r =>
      if bool_decide (rt_tunnel r = Some id) then
        sv_with_active v (sv_active v) (<[obj := rt_with_tunnel r None]> (sv_runtimes v)) (sv_tunnels v)
          (with_metric (sv_metrics v) (rt_metrics r) (set_active_tunnels 0))
      else v
  | None => v
  end.

(** [RouteRuntime::revoke] *)
Definition revoke (v : ServerState) (obj : Z) : ServerState :=
  match sv_runtimes v !! obj with
  | Some r =>
      sv_with_active v (sv_active v) (<[obj := rt_cancelled r]> (sv_runtimes v))
        (match rt_tunnel r with Some id => alter tn_cancelled id (sv_tunnels v) | None => sv_tunnels v end)
        (with_metric (sv_metrics v) (rt_metrics r) (set_active_tunnels 0))
  | None => v
  end.

(** [random_session_id] *)
Definition random_session_id (v : ServerState) : Z * ServerState :=
  (sv_session v,
   mkServerState (sv_configured v) (sv_active v) (sv_runtimes v) (sv_tunnels v) (sv_next v)
     (fetch_add (sv_session v) 1) (sv_metrics v) (sv_quota v) (sv_disk v) (sv_shutdown v) (sv_update v)
     (sv_results v) (sv_conns v)).

(** The start of [run_tunnel] *)
Definition start_session (v : ServerState) (obj : Z) (r : RouteRuntime) : Z * ServerState :=
  let '(id, v) := random_session_id v in (id, register_tunnel v obj r id).

(** The end of [run_tunnel], once the reader returned: the tunnel is
    cancelled and leaves its runtime. *)
Definition end_session (v : ServerState) (id : Z) : ServerState :=
  match sv_tunnels v !! id with
  | Some t =>
      remove_tunnel
        (sv_with_active v (sv_active v) (sv_runtimes v) (<[id := tn_cancelled t]> (sv_tunnels v))
           (sv_metrics v)) (tn_runtime t) id
  | None => v
  end.

(** ** Route updates *)

(** [PartialEq] of [RouteConfig]: instants are compared, whatever their
    offsets. *)
Definition utc_route (r : RouteConfig) : RouteConfig :=
  mkRouteConfig (rc_route_id r) (public_listen r) (node_token_sha256 r) (node_cert_sha256 r)
    (utc (rc_expires_at r)) (enabled r) (rc_max_concurrent_streams r) (rc_max_bytes_per_second r)
    (rc_max_bytes_per_connection r) (rc_monthly_byte_limit r).
Definition route_eq (a b : RouteConfig) : bool := bool_decide (utc_route a = utc_route b).

(** [routes.into_iter().map(|route| (route.route_id.clone(), route)).collect()] *)
Definition route_map (routes : list RouteConfig) : gmap string RouteConfig :=
  foldl (fun m r => <[rc_route_id r := r]> m) ∅ routes.

(** The routes with a monthly limit *)
Definition quota_routes (routes : list RouteConfig) : list string :=
  rc_route_id <$> filter (fun r => is_Some (rc_monthly_byte_limit r)) routes.

(** The routes whose runtime is not for the configuration [next] *)
Definition unchanged (v : ServerState) (next : gmap string RouteConfig) (id : string) (obj : Z) : bool :=
  match next !! id, sv_runtimes v !! obj with
  | Some c, Some r => route_eq c (rt_config r)
  | _, _ => false
  end.
Definition changed_routes (v : ServerState) (next : gmap string RouteConfig) : gset string :=
  dom (filter (fun '(id, obj) => unchanged v next id obj = false) (sv_active v)).
Definition removed_routes (v : ServerState) (next : gmap string RouteConfig) : gset string :=
  dom (sv_active v) ∖ dom next.

(** [order] is an order in which a hash set or map with the keys [keys] may be
    traversed. *)
Definition traverses (keys : gset string) (order : list string) : bool :=
  bool_decide (NoDup order) && bool_decide (list_to_set order = keys).

Definition quota_required : RelayError := Config "finite monthly route limits require managed quota state".

Section Updates.
Context `{Calendar}.
Context (encode_state : QuotaState -> option (list byte)) (euid : Z).

(** The reconciliation of the quota store with the new routes *)
Definition reconcile_routes (v : ServerState) (routes : list RouteConfig) (now : OffsetDateTime) (fl : Faults)
    : relay_result unit * ServerState :=
  match sv_quota v, quota_routes routes with
  | Some store, ids =>
      let '(res, store', disks) := reconcile encode_state euid fl (sv_disk v) store ids now in
      (res, sv_with_quota v (Some store') (List.last disks (sv_disk v)))
  | None, [] => (Ok tt, v)
  | None, _ => (Err quota_required, v)
  end.

(** [apply_routes] up to the revocations; [o1], [o2] and [o3] are the orders
    in which it goes over the changed, the removed and the new routes. *)
Definition begin_update (v : ServerState) (routes : list RouteConfig) (now : OffsetDateTime) (fl : Faults)
    (o1 o2 o3 : list string) : option ServerState :=
  match sv_update v with
  | Some _ => None
  | None =>
      match reconcile_routes v routes now fl with
      | (Err e, v') => Some (sv_return v' (Err e))
      | (Ok _, v') =>
          let next := route_map routes in
          let removed := removed_routes v' next in
          if traverses (changed_routes v' next) o1 && traverses removed o2 && traverses (dom next) o3
          then Some (sv_with_update v' (Some (mkUpdate next (o1 ++ o2) o3 removed)))
          else None
      end
  end.

(** One round of the loop over the changed and the removed routes *)
Definition revoke_round (v : ServerState) : option ServerState :=
  match sv_update v with
  | Some (mkUpdate next (id :: rest) start removed) =>
      let v := sv_with_update v (Some (mkUpdate next rest start removed)) in
      match sv_active v !! id with
      | Some obj =>
          Some (revoke (sv_with_active v (delete id (sv_active v)) (sv_runtimes v) (sv_tunnels v)
                          (sv_metrics v)) obj)
      | None => Some v
      end
  | _ => None
  end.

(** [ServerState::start_route]; [bind] is what [bind_with_short_retry] and
    [local_addr] return. *)
Definition start_route (v : ServerState) (c : RouteConfig) (bind : relay_result SocketAddr)
    : relay_result (RouteRuntime * ServerState) :=
  address ← bind;
  quota ← match rc_monthly_byte_limit c with
          | Some limit =>
              _ ← ok_or (sv_quota v) quota_required;
              Ok (Some (rc_route_id c, limit))
          | None => Ok None
          end;
  let '(metrics, m) := route (sv_metrics v) (rc_route_id c) in
  Ok (mkRuntime c address None quota metrics (rc_max_concurrent_streams c) 1 false, sv_with_metrics v m).

(** The new runtime becomes the route's active one. *)
Definition activate (v : ServerState) (id : string) (r : RouteRuntime) : ServerState :=
  let obj := sv_next v in
  mkServerState (sv_configured v) (<[id := obj]> (sv_active v)) (<[obj := r]> (sv_runtimes v))
    (sv_tunnels v) (obj + 1) (sv_session v) (sv_metrics v) (sv_quota v) (sv_disk v) (sv_shutdown v)
    (sv_update v) (sv_results v) (sv_conns v).

(** One round of the loop over the new routes *)
Definition start_round (v : ServerState) (now : OffsetDateTime) (bind : relay_result SocketAddr)
    : option ServerState :=
  match sv_update v with
  | Some (mkUpdate next [] (id :: rest) removed) =>
      let v := sv_with_update v (Some (mkUpdate next [] rest removed)) in
      match next !! id with
      | Some c =>
          if negb (enabled c) || is_expired c now then Some v
          else if bool_decide (is_Some (sv_active v !! id)) then Some v
          else
            match start_route v c bind with
            | Err e => Some (sv_return v (Err e))
            | Ok (r, v) => Some (activate v id r)
            end
      | None => None
      end
  | _ => None
  end.

(** The rest of [apply_routes] *)
Definition finish_update (v : ServerState) : option ServerState :=
  match sv_update v with
  | Some (mkUpdate next [] [] removed) =>
      let v := mkServerState next (sv_active v) (sv_runtimes v) (sv_tunnels v) (sv_next v) (sv_session v)
                 (foldl remove_route (sv_metrics v) (elements removed)) (sv_quota v) (sv_disk v)
                 (sv_shutdown v) (sv_update v) (sv_results v) (sv_conns v) in
      Some (sv_return v (Ok tt))
  | _ => None
  end.
End Updates.

(** ** Node connections *)

Definition REGISTER_TOKEN_MAX_BYTES : Z := 256.

(** What the awaits of [handle_node_connection] yield before the lookup:
    [None] where a timeout elapsed *)
Record NodeHello : Type := mkHello {
  h_nodelay : relay_result unit;
  h_tls : option (relay_result unit);
  h_alpn : option (list byte);
  h_certificates : option (list (list byte));
  h_bytes : option (list byte);
}.

Section Admission.
Context `{Sha256} (hex_decode : string -> option (list byte)).

(** [handle_node_connection] up to the registration frame: the digest of the
    node's certificate, the route it asks for and the token *)
Definition read_hello (s : ServerConfig) (h : NodeHello) : relay_result (list byte * string * list byte) :=
  _ ← h_nodelay h;
  _ ← (match h_tls h with
       | None => Err (Stable OpenTimeout "TLS handshake timed out")
       | Some (Err _) => Err (Tls "TLS handshake failed")
       | Some (Ok _) => Ok tt
       end);
  _ ← ensure (bool_decide (h_alpn h = Some (as_bytes "pn-relay-v1")))
        (Stable ProtocolInvalid "required relay ALPN was not negotiated");
  certificate ← ok_or (certificates ← h_certificates h; head certificates)
        (Stable AuthFailed "node certificate is missing");
  frame ← (match h_bytes h with
           | None => Err (Stable OpenTimeout "route registration timed out")
           | Some bytes => (read_from bytes (max_frame_bytes s)).1
           end);
  frame ← ok_or frame (Stable ProtocolInvalid "route registration is missing");
  '(route_id, token) ← parse_register frame;
  Ok (sha256 certificate, route_id, token).

(** The checks against the configured routes: the route, or the code written
    to the node *)
Definition check_route (configured : gmap string RouteConfig) (cert_digest : list byte) (route_id : string)
    (token : list byte) (now : OffsetDateTime) : result (ErrorCode * RelayError) string :=
  let refuse c m := Err (c, Stable c m) in
  if (zlen token =? 0) || (REGISTER_TOKEN_MAX_BYTES <? zlen token)
  then refuse AuthFailed "route authentication failed"%string
  else
    match configured !! route_id with
    | None => refuse RouteUnknown "route is not configured"%string
    | Some c =>
        if negb (enabled c) then refuse RouteRevoked "route is disabled"%string
        else if is_expired c now then refuse GrantExpired "route grant expired"%string
        else if negb (token_matches hex_decode c (sha256 token)) || negb (cert_matches hex_decode c cert_digest)
        then refuse AuthFailed "route authentication failed"%string
        else Ok route_id
    end.

(** [write_terminal_error] *)
Definition write_terminal_error (s : ServerConfig) (c : ErrorCode) : relay_result (list byte) :=
  write_to (frame_code Error 0 c) (max_frame_bytes s).

(** [handle_node_connection] up to the read of the active routes: the code
    written to the node, if any, and the route *)
Definition authenticate (s : ServerConfig) (configured : gmap string RouteConfig) (h : NodeHello)
    (now : OffsetDateTime) : option ErrorCode * relay_result string :=
  match read_hello s h with
  | Err e => (None, Err e)
  | Ok (digest, route_id, token) =>
      match check_route configured digest route_id token now with
      | Err (c, e) => (Some c, Err e)
      | Ok id => (None, Ok id)
      end
  end.

(** What the task of [run_node_listener] counts when the connection fails *)
Definition count_failure (m : Metrics) (e : RelayError) : Metrics :=
  match code e with
  | AuthFailed | RouteUnknown => record_auth_failure m
  | ProtocolInvalid | FrameTooLarge => record_protocol_failure m
  | _ => m
  end.
End Admission.

(** [bind_with_short_retry]: what its at most ten attempts return *)
Fixpoint bind_retry (attempts : nat) (last_error : option RelayError)
    (outcomes : list (relay_result SocketAddr)) : relay_result SocketAddr :=
  match attempts, outcomes with
  | S n, Ok a :: _ => Ok a
  | S n, Err e :: rest => bind_retry n (Some e) rest
  | _, _ => Err (default (Io OtherIo) last_error)
  end.
Definition bind_with_short_retry (outcomes : list (relay_result SocketAddr)) : relay_result SocketAddr :=
  bind_retry 10 None outcomes.

(** ** The server *)

Inductive ServerEvent : Type :=
| SvBegin (routes : list RouteConfig) (now : OffsetDateTime) (fl : Faults) (o1 o2 o3 : list string)
| SvRevoke
| SvStart (now : OffsetDateTime) (bind : relay_result SocketAddr)
| SvFinish
| SvHello (conn : Z) (h : NodeHello) (now : OffsetDateTime)
| SvAttach (conn : Z)
| SvEnded (id : Z)
| SvShutdown.

Section Server.
Context `{Calendar} `{Sha256} (hex_decode : string -> option (list byte)).
Context (encode_state : QuotaState -> option (list byte)) (euid : Z) (s : ServerConfig).

(** A node's connection, once it is authenticated: it joins the runtime that
    is active now. *)
Definition attach (v : ServerState) (conn : Z) : option ServerState :=
  id ← sv_conns v !! conn;
  let v := sv_with_conns v (delete conn (sv_conns v)) in
  match sv_active v !! id with
  | Some obj => r ← sv_runtimes v !! obj; Some (start_session v obj r).2
  | None => Some (sv_with_metrics v (count_failure (sv_metrics v)
                    (Stable RouteUnavailable "route listener is unavailable")))
  end.

(** [RelayHandle::shutdown] *)
Definition shutdown (v : ServerState) : ServerState :=
  let v := mkServerState (sv_configured v) (sv_active v) (sv_runtimes v) (sv_tunnels v) (sv_next v)
             (sv_session v) (sv_metrics v) (sv_quota v) (sv_disk v) true (sv_update v) (sv_results v)
             (sv_conns v) in
  foldl revoke v (snd <$> map_to_list (sv_active v)).

Definition server_step (v : ServerState) (e : ServerEvent) : option ServerState :=
  match e with
  | SvBegin routes now fl o1 o2 o3 => begin_update encode_state euid v routes now fl o1 o2 o3
  | SvRevoke => revoke_round v
  | SvStart now bind => start_round v now bind
  | SvFinish => finish_update v
  | SvHello conn h now =>
      if bool_decide (is_Some (sv_conns v !! conn)) then None
      else
        match authenticate hex_decode s (sv_configured v) h now with
        | (_, Ok id) => Some (sv_with_conns v (<[conn := id]> (sv_conns v)))
        | (_, Err e) => Some (sv_with_metrics v (count_failure (sv_metrics v) e))
        end
  | SvAttach conn => attach v conn
  | SvEnded id => if bool_decide (is_Some (sv_tunnels v !! id)) then Some (end_session v id) else None
  | SvShutdown => Some (shutdown v)
  end.

Fixpoint server_run (v : ServerState) (es : list ServerEvent) : option ServerState :=
  match es with
  | [] => Some v
  | e :: es' => v' ← server_step v e; server_run v' es'
  end.
End Server.

(** The state [RelayServer::start] builds *)
Definition initial_state (quota : option Store) (d : Disk) : ServerState :=
  mkServerState ∅ ∅ ∅ ∅ 0 1 metrics_default quota d false None [] ∅.

(** ** Where the routes come from *)

(** [PartialEq] of [ServerConfig] and [ManagedRoutesConfig]: paths are compared
    by their components. *)
Definition server_eq (a b : ServerConfig) : bool :=
  bool_decide (node_listen a = node_listen b) && bool_decide (metrics_listen a = metrics_listen b)
  && path_eq (tls_cert_path a) (tls_cert_path b) && path_eq (tls_key_path a) (tls_key_path b)
  && path_eq (client_ca_path a) (client_ca_path b)
  && (max_frame_bytes a =? max_frame_bytes b) && (command_queue_frames a =? command_queue_frames b)
  && (stream_buffer_frames a =? stream_buffer_frames b)
  && (initial_window_bytes a =? initial_window_bytes b) && (open_timeout_secs a =? open_timeout_secs b)
  && (no_payload_timeout_secs a =? no_payload_timeout_secs b)
  && (idle_timeout_secs a =? idle_timeout_secs b)
  && (heartbeat_interval_secs a =? heartbeat_interval_secs b)
  && (heartbeat_timeout_secs a =? heartbeat_timeout_secs b)
  && (reload_interval_secs a =? reload_interval_secs b) && (max_routes a =? max_routes b)
  && (max_node_connections a =? max_node_connections b).
Definition managed_eq (a b : ManagedRoutesConfig) : bool :=
  bool_decide (mrc_relay_id a = mrc_relay_id b)
  && path_eq (managed_routes_directory a) (managed_routes_directory b)
  && path_eq (quota_state_directory a) (quota_state_directory b)
  && bool_decide (controller_public_key a = controller_public_key b)
  && bool_decide (public_listen_ip a = public_listen_ip b)
  && (public_port_start a =? public_port_start b) && (public_port_end a =? public_port_end b)
  && (mrc_max_concurrent_streams a =? mrc_max_concurrent_streams b)
  && (mrc_max_bytes_per_second a =? mrc_max_bytes_per_second b)
  && (mrc_max_bytes_per_connection a =? mrc_max_bytes_per_connection b)
  && (mrc_monthly_byte_limit a =? mrc_monthly_byte_limit b).
Definition option_eqb {A} (eq : A -> A -> bool) (a b : option A) : bool :=
  match a, b with Some x, Some y => eq x y | None, None => true | _, _ => false end.

(** What the server keeps of its configuration *)
Record Sources : Type := mkSources {
  src_server : ServerConfig;
  src_managed : option ManagedRoutesConfig;
  src_static : list RouteConfig;
  src_fingerprint : option (list byte);
}.

Section Loading.
Context `{UuidText} `{Rfc3339} `{Base64} `{Sha256} `{Ed25519}.
Context (json : list byte -> option SignedRelayRoute) (euid : Z).

(** [RelayHandle::reload] up to [apply_routes] *)
Definition reload_routes (src : Sources) (c : RelayConfig) (now : OffsetDateTime) (reg : Registry)
    : relay_result (list RouteConfig * option (list byte)) :=
  _ ← validate c;
  _ ← ensure (server_eq (server c) (src_server src)
              && option_eqb managed_eq (managed_routes c) (src_managed src))
        (Config "server settings changed; restart is required");
  load_effective_routes json euid c now reg.

(** [reload] after [apply_routes] *)
Definition reload_done (src : Sources) (c : RelayConfig) (fingerprint : option (list byte)) : Sources :=
  mkSources (src_server src) (src_managed src) (routes c) fingerprint.

(** One pass of [run_managed_routes_watcher] up to [apply_routes]: [Ok None]
    where nothing changed *)
Definition watcher_pass (src : Sources) (now : OffsetDateTime) (reg : Registry)
    : relay_result (option (list RouteConfig * option (list byte))) :=
  '(routes, fingerprint) ← load_effective_routes json euid
      (mkConfig (src_server src) (src_managed src) (src_static src)) now reg;
  if bool_decide (src_fingerprint src = fingerprint) then Ok None else Ok (Some (routes, fingerprint)).
Definition watcher_done (src : Sources) (fingerprint : option (list byte)) : Sources :=
  mkSources (src_server src) (src_managed src) (src_static src) fingerprint.

(** One pass of [watch_config] up to [reload]: the configuration to apply,
    where the file's length or modification time changed *)
Definition watch_config_pass (last current : option (Z * Z)) (loaded : relay_result RelayConfig)
    : option (relay_result RelayConfig) :=
  match current with
  | Some _ => if bool_decide (current = last) then None else Some loaded
  | None => None
  end.
End Loading.

(** ** Members *)

(** [handle_member] up to [open_stream]: [permitted] is what the quota store
    answers. *)
Definition admit_member (v : ServerState) (r : RouteRuntime) (now : OffsetDateTime)
    (nodelay : relay_result unit) (permitted : relay_result bool) : relay_result Z :=
  _ ← nodelay;
  _ ← ensure (negb (is_expired (rt_config r) now)) (Stable GrantExpired "route grant expired");
  _ ← match rt_quota r with
      | Some _ => p ← permitted; ensure p (Stable LimitReached "route monthly byte limit reached")
      | None => Ok tt
      end;
  ok_or (current_tunnel v r) (Stable RouteUnavailable "node tunnel is unavailable").
