(* ===== verification/RelayRoutesFacts.v ===== *)
(** * What holds of the routes of a running relay

    The invariant of [RelayRoutes] over every interleaving of updates, node
    connections, ending tunnels and shutdown: a route has at most one live
    tunnel, revoked runtimes have none, and after an update that succeeded
    the active routes are those of the new configuration. *)
From S2P Require Import Prelude Text Clock ProtoTypes RelayError RelayConfig RelayFrame RelayTunnel RelayQuota.
From S2P Require Import RelayMetrics RelayRoutes.

(** ** The invariant *)

(** Every active route outside [pending] runs with the settings of [next]. *)
Definition settled (v : ServerState) (next : gmap string RouteConfig) (pending : list string) : Prop :=
  forall id obj r, sv_active v !! id = Some obj -> sv_runtimes v !! obj = Some r -> id ∉ pending ->
  exists c, next !! id = Some c /\ route_eq c (rt_config r) = true.

(** Every route of [next] that is enabled and unexpired at [t] is active, or
    still to be started. *)
Definition started (t : OffsetDateTime) (v : ServerState) (next : gmap string RouteConfig)
    (pending : list string) : Prop :=
  forall id c, next !! id = Some c -> enabled c = true -> is_expired c t = false ->
  id ∈ pending \/ is_Some (sv_active v !! id).

Record server_inv (t : OffsetDateTime) (v : ServerState) : Prop := {
  si_active : forall id obj, sv_active v !! id = Some obj ->
    exists r, sv_runtimes v !! obj = Some r /\ rc_route_id (rt_config r) = id /\
      (rt_cancel r = false \/ sv_shutdown v = true);
  si_runtimes : forall obj r, sv_runtimes v !! obj = Some r ->
    obj < sv_next v /\ enabled (rt_config r) = true /\
    ((exists id, sv_active v !! id = Some obj) \/ rt_cancel r = true);
  si_tunnels : forall id tn, sv_tunnels v !! id = Some tn ->
    id < sv_session v /\ exists r, sv_runtimes v !! tn_runtime tn = Some r /\
      (tn_cancel tn = false -> rt_cancel r = false -> rt_tunnel r = Some id);
  si_current : forall obj r id, sv_runtimes v !! obj = Some r -> rt_tunnel r = Some id ->
    exists tn, sv_tunnels v !! id = Some tn /\ tn_runtime tn = obj;
  si_update : forall u, sv_update v = Some u ->
    (forall id c, u_next u !! id = Some c -> rc_route_id c = id) /\
    settled v (u_next u) (u_revoke u) /\
    (u_revoke u <> [] -> list_to_set (u_start u) = dom (u_next u)) /\
    started t v (u_next u) (u_start u);
  si_settled : sv_update v = None -> head (sv_results v) = Some (Ok tt) ->
    settled v (sv_configured v) [] /\ started t v (sv_configured v) [];
}.

Lemma server_inv_initial t q d : server_inv t (initial_state q d).
Proof. split; simpl; try done; intros *; rewrite lookup_empty; done. Qed.

(** Two states with the same routes, runtimes and tunnels *)
Definition same_routes (v v' : ServerState) : Prop :=
  sv_configured v' = sv_configured v /\ sv_active v' = sv_active v /\ sv_runtimes v' = sv_runtimes v /\
  sv_tunnels v' = sv_tunnels v /\ sv_next v' = sv_next v /\ sv_session v' = sv_session v /\
  sv_shutdown v' = sv_shutdown v.

Lemma settled_same v v' next pending :
  sv_active v' = sv_active v -> sv_runtimes v' = sv_runtimes v ->
  settled v next pending -> settled v' next pending.
Proof. intros Ha Hr H id obj r. rewrite Ha, Hr. apply H. Qed.

Lemma started_same t v v' next pending :
  sv_active v' = sv_active v -> started t v next pending -> started t v' next pending.
Proof. intros Ha H id c. rewrite Ha. apply H. Qed.

Lemma server_inv_same t v v' :
  server_inv t v -> same_routes v v' -> sv_update v' = sv_update v -> sv_results v' = sv_results v ->
  server_inv t v'.
Proof.
  intros [I1 I2 I3 I4 I5 I6] (Hc & Ha & Hr & Ht & Hn & Hs & Hsh) Hu Hres.
  split; rewrite ?Hc, ?Ha, ?Hr, ?Ht, ?Hn, ?Hs, ?Hsh, ?Hu, ?Hres; try done.
  - intros u E. destruct (I5 u E) as (H1 & H2 & H3 & H4). split; [done|].
    split; [by eapply settled_same|]. split; [done|]. by eapply started_same.
  - intros E1 E2. destruct (I6 E1 E2). split; [by eapply settled_same|by eapply started_same].
Qed.

(** ** Runtimes and tunnels *)

(** A change of the runtimes' tunnels that keeps the rest *)
Lemma server_inv_runtimes t v v' :
  server_inv t v -> sv_configured v' = sv_configured v -> sv_active v' = sv_active v ->
  sv_next v' = sv_next v -> sv_session v <= sv_session v' -> sv_shutdown v' = sv_shutdown v ->
  sv_update v' = sv_update v -> sv_results v' = sv_results v ->
  (forall obj, rt_config <$> sv_runtimes v' !! obj = rt_config <$> sv_runtimes v !! obj) ->
  (forall obj, rt_cancel <$> sv_runtimes v' !! obj = rt_cancel <$> sv_runtimes v !! obj) ->
  (forall id tn, sv_tunnels v' !! id = Some tn ->
    id < sv_session v' /\ exists r, sv_runtimes v' !! tn_runtime tn = Some r /\
      (tn_cancel tn = false -> rt_cancel r = false -> rt_tunnel r = Some id)) ->
  (forall obj r id, sv_runtimes v' !! obj = Some r -> rt_tunnel r = Some id ->
    exists tn, sv_tunnels v' !! id = Some tn /\ tn_runtime tn = obj) ->
  server_inv t v'.
Proof.
  intros [I1 I2 I3 I4 I5 I6] Hc Ha Hn Hs Hsh Hu Hres Hcfg Hcan Ht Hcur.
  assert (forall obj r, sv_runtimes v' !! obj = Some r -> exists r0, sv_runtimes v !! obj = Some r0 /\
    rt_config r0 = rt_config r /\ rt_cancel r0 = rt_cancel r) as Hback.
  { intros obj r E. specialize (Hcfg obj). specialize (Hcan obj). rewrite E in Hcfg, Hcan.
    destruct (sv_runtimes v !! obj) as [r0|]; simpl in *; [|done]. simplify_eq. eauto. }
  assert (forall next pending, settled v next pending -> settled v' next pending) as Hset.
  { intros next pending H id obj r. rewrite Ha. intros E1 E2 E3.
    destruct (Hback _ _ E2) as (r0 & E & <- & _). by eapply H. }
  split; rewrite ?Hc, ?Hn, ?Hsh; try done.
  - intros id obj. rewrite Ha. intros E. destruct (I1 _ _ E) as (r & Hr & Hid & Hca).
    specialize (Hcfg obj). specialize (Hcan obj). rewrite Hr in Hcfg, Hcan.
    destruct (sv_runtimes v' !! obj) as [r'|]; simpl in *; [|done]. simplify_eq.
    exists r'. split; [done|]. split; congruence.
  - intros obj r E. destruct (Hback _ _ E) as (r0 & E0 & <- & <-). rewrite Ha. by apply I2.
  - rewrite Hu. intros u E. destruct (I5 u E) as (H1 & H2 & H3 & H4). split; [done|].
    split; [by apply Hset|]. split; [done|]. by eapply started_same.
  - rewrite Hu, Hres. intros E1 E2. destruct (I6 E1 E2). split; [by apply Hset|by eapply started_same].
Qed.

Lemma alter_tunnel (f : RouteTunnel -> RouteTunnel) (m : gmap Z RouteTunnel) id id' tn :
  (forall x, tn_runtime (f x) = tn_runtime x) -> alter f id m !! id' = Some tn ->
  exists tn0, m !! id' = Some tn0 /\ tn_runtime tn = tn_runtime tn0 /\ (id' <> id -> tn = tn0).
Proof.
  intros Hf. rewrite lookup_alter. case_decide; [|by eauto]. subst.
  destruct (m !! id') as [tn0|]; simpl; [|done]. intros [= <-]. exists tn0. by rewrite Hf.
Qed.

Lemma alter_tunnel_Some (f : RouteTunnel -> RouteTunnel) (m : gmap Z RouteTunnel) id id' tn :
  (forall x, tn_runtime (f x) = tn_runtime x) -> m !! id' = Some tn ->
  exists tn', alter f id m !! id' = Some tn' /\ tn_runtime tn' = tn_runtime tn.
Proof.
  intros Hf E. rewrite lookup_alter. case_decide; [|by eauto]. subst. rewrite E. simpl. eauto.
Qed.

Lemma with_tunnel_config v obj r x obj' :
  sv_runtimes v !! obj = Some r ->
  rt_config <$> <[obj := rt_with_tunnel r x]> (sv_runtimes v) !! obj' = rt_config <$> sv_runtimes v !! obj' /\
  rt_cancel <$> <[obj := rt_with_tunnel r x]> (sv_runtimes v) !! obj' = rt_cancel <$> sv_runtimes v !! obj'.
Proof.
  intros Hr. rewrite lookup_insert. case_decide; [|done]. subst. by rewrite Hr.
Qed.

Lemma start_session_inv t v obj r :
  server_inv t v -> sv_runtimes v !! obj = Some r -> 0 <= sv_session v < u64_max ->
  server_inv t (start_session v obj r).2.
Proof.
  intros Hv Hr Hs. unfold start_session, random_session_id, register_tunnel, fetch_add, wrapping_add.
  rewrite Z.mod_small by lia. cbn [snd].
  set (new := sv_session v). set (ts := <[new := mkRouteTunnel obj false]> (sv_tunnels v)).
  set (ts' := match rt_tunnel r with Some old => alter tn_cancelled old ts | None => ts end).
  match goal with |- server_inv t ?v' =>
    assert (sv_tunnels v' = ts' /\ sv_runtimes v' = <[obj := rt_with_tunnel r (Some new)]> (sv_runtimes v))
      as [Et Er] by (unfold ts'; simpl; by destruct (rt_tunnel r)) end.
  assert (sv_tunnels v !! new = None) as Hnew.
  { destruct (sv_tunnels v !! new) as [tn|] eqn:E; [|done].
    destruct (si_tunnels _ _ Hv _ _ E) as [? _]. unfold new in *. lia. }
  assert (forall id, rt_tunnel r = Some id -> id <> new) as Hold.
  { intros id E ->. destruct (si_current _ _ Hv _ _ _ Hr E) as (tn & ? & _). congruence. }
  eapply (server_inv_runtimes t v); rewrite ?Et, ?Er; try (by destruct (rt_tunnel r)).
  - destruct (rt_tunnel r); simpl; lia.
  - intros obj'. by apply with_tunnel_config.
  - intros obj'. by apply with_tunnel_config.
  - intros id tn E. assert (exists tn0, ts !! id = Some tn0 /\ tn_runtime tn = tn_runtime tn0 /\
      (rt_tunnel r <> Some id -> tn = tn0) /\ (rt_tunnel r = Some id -> tn_cancel tn = true))
      as (tn0 & E0 & Ert & Esame & Eold).
    { unfold ts' in E. destruct (rt_tunnel r) as [old|] eqn:Eo; [|exists tn; split_and!; naive_solver].
      pose proof E as E2. apply alter_tunnel in E as (tn0 & E & Ert & Hne); [|done].
      exists tn0. split_and!; [done|done|intros ?; apply Hne; congruence|].
      intros [= ->]. rewrite lookup_alter_eq, E in E2. by simplify_eq/=. }
    unfold ts in E0. rewrite lookup_insert in E0. case_decide.
    + simplify_eq. split; [destruct (rt_tunnel r); simpl; lia|]. rewrite Ert. simpl.
      eexists. rewrite lookup_insert_eq. by split.
    + destruct (si_tunnels _ _ Hv _ _ E0) as (Hlt & r0 & Hr0 & Hcur).
      split; [destruct (rt_tunnel r); simpl; lia|]. rewrite Ert, lookup_insert. case_decide; [|].
      * subst obj. simplify_eq. eexists. split; [done|]. simpl. intros Hc1 Hc2. exfalso.
        destruct (decide (rt_tunnel r = Some id)) as [Eq|Ne]; [by rewrite Eold in Hc1|].
        rewrite (Esame Ne) in Hc1. auto.
      * exists r0. split; [done|]. intros Hc1 Hc2.
        destruct (decide (rt_tunnel r = Some id)) as [Eq|Ne]; [by rewrite Eold in Hc1|].
        rewrite (Esame Ne) in Hc1. auto.
  - intros obj' r' id E1 E2.
    assert (exists tn, ts !! id = Some tn /\ tn_runtime tn = obj') as (tn & E3 & E4).
    { unfold ts. destruct (decide (obj = obj')) as [->|Hne].
      - rewrite lookup_insert_eq in E1. simplify_eq/=. rewrite lookup_insert_eq. by eexists.
      - rewrite lookup_insert_ne in E1 by done. destruct (si_current _ _ Hv _ _ _ E1 E2) as (tn & E & ?).
        exists tn. rewrite lookup_insert_ne by congruence. done. }
    unfold ts'. destruct (rt_tunnel r); [|by eauto].
    destruct (alter_tunnel_Some tn_cancelled ts z id tn) as (tn' & ? & ?); [done|done|].
    exists tn'. split; [done|congruence].
Qed.

Lemma end_session_inv t v id : server_inv t v -> server_inv t (end_session v id).
Proof.
  intros Hv. unfold end_session. destruct (sv_tunnels v !! id) as [tn|] eqn:Etn; [|done].
  unfold remove_tunnel; simpl. pose proof (si_tunnels _ _ Hv _ _ Etn) as (Hlt & r & Hr & Hcur).
  rewrite Hr.
  assert (forall id' tn', <[id := tn_cancelled tn]> (sv_tunnels v) !! id' = Some tn' ->
    exists tn0, sv_tunnels v !! id' = Some tn0 /\ tn_runtime tn' = tn_runtime tn0 /\
      (tn_cancel tn' = false -> id' <> id /\ tn' = tn0)) as Hts.
  { intros id' tn'. rewrite lookup_insert. case_decide; [|by eauto].
    intros; simplify_eq. exists tn. by split. }
  assert (forall obj' r' id', sv_runtimes v !! obj' = Some r' -> rt_tunnel r' = Some id' ->
    exists tn', <[id := tn_cancelled tn]> (sv_tunnels v) !! id' = Some tn' /\ tn_runtime tn' = obj') as Hcu.
  { intros obj' r' id' E1 E2. destruct (si_current _ _ Hv _ _ _ E1 E2) as (tn' & E3 & E4).
    rewrite lookup_insert. case_decide; [|by eauto]. simplify_eq. by eexists. }
  case_bool_decide as Hb.
  - eapply (server_inv_runtimes t v); simpl; try done.
    + intros obj'. by apply with_tunnel_config.
    + intros obj'. by apply with_tunnel_config.
    + intros id' tn' E. destruct (Hts _ _ E) as (tn0 & E0 & Ert & Eca).
      destruct (si_tunnels _ _ Hv _ _ E0) as (Hlt' & r0 & Hr0 & Hcur0). split; [done|].
      rewrite Ert, lookup_insert. case_decide; [|exists r0; split; [done|]; naive_solver].
      eexists. split; [done|]. simpl. intros Hc1 Hc2. destruct (Eca Hc1) as [Hne ->]. exfalso.
      assert (r0 = r) as -> by congruence. apply Hne. specialize (Hcur0 Hc1 Hc2). congruence.
    + intros obj' r' id'. rewrite lookup_insert. case_decide; [intros; by simplify_eq/=|]. apply Hcu.
  - eapply (server_inv_runtimes t v); simpl; try done.
    intros id' tn' E. destruct (Hts _ _ E) as (tn0 & E0 & Ert & Eca).
    destruct (si_tunnels _ _ Hv _ _ E0) as (Hlt' & r0 & Hr0 & Hcur0). split; [done|]. rewrite Ert.
    exists r0. split; [done|]. naive_solver.
Qed.

(** ** Revocation *)

(** The runtimes and tunnels after [revoke] *)
Lemma revoke_maps v obj r :
  sv_runtimes v !! obj = Some r ->
  sv_runtimes (revoke v obj) = <[obj := rt_cancelled r]> (sv_runtimes v) /\
  sv_tunnels (revoke v obj) =
    match rt_tunnel r with Some id => alter tn_cancelled id (sv_tunnels v) | None => sv_tunnels v end.
Proof. intros E. unfold revoke. by rewrite E. Qed.

Lemma revoke_rest v obj :
  sv_configured (revoke v obj) = sv_configured v /\ sv_active (revoke v obj) = sv_active v /\
  sv_next (revoke v obj) = sv_next v /\ sv_session (revoke v obj) = sv_session v /\
  sv_shutdown (revoke v obj) = sv_shutdown v /\ sv_update (revoke v obj) = sv_update v /\
  sv_results (revoke v obj) = sv_results v.
Proof. unfold revoke. by case_match. Qed.

(** The tunnels' part of the invariant *)
Definition tunnels_ok (v : ServerState) : Prop :=
  (forall id tn, sv_tunnels v !! id = Some tn ->
    id < sv_session v /\ exists r, sv_runtimes v !! tn_runtime tn = Some r /\
      (tn_cancel tn = false -> rt_cancel r = false -> rt_tunnel r = Some id)) /\
  (forall obj r id, sv_runtimes v !! obj = Some r -> rt_tunnel r = Some id ->
    exists tn, sv_tunnels v !! id = Some tn /\ tn_runtime tn = obj).

Lemma revoke_tunnels v obj : tunnels_ok v -> tunnels_ok (revoke v obj).
Proof.
  intros [H1 H2]. destruct (sv_runtimes v !! obj) as [r|] eqn:Er; [|unfold revoke; by rewrite Er].
  destruct (revoke_maps v obj r Er) as [Emap Etun].
  destruct (revoke_rest v obj) as (_ & _ & _ & Es & _). split.
  - intros id tn. rewrite Es, Etun, Emap. intros E.
    assert (exists tn0, sv_tunnels v !! id = Some tn0 /\ tn_runtime tn = tn_runtime tn0 /\
      (rt_tunnel r <> Some id -> tn = tn0)) as (tn0 & E0 & Ert & Esame).
    { destruct (rt_tunnel r) as [old|]; [|by eauto].
      apply alter_tunnel in E as (tn0 & ? & ? & Hne); [|done]. exists tn0. split_and!; [done..|].
      intros ?. apply Hne. congruence. }
    destruct (H1 _ _ E0) as (Hlt & r0 & Hr0 & Hcur). split; [done|].
    rewrite Ert. destruct (decide (tn_runtime tn0 = obj)) as [Heq|Hne].
    + rewrite Heq, lookup_insert_eq. by eexists.
    + rewrite lookup_insert_ne by done. exists r0. split; [done|]. intros Hc1 Hc2.
      rewrite Esame in Hc1; [auto|]. intros Eq. destruct (H2 _ _ _ Er Eq) as (tn1 & ? & ?). congruence.
  - intros obj' r' id. rewrite Emap, Etun. destruct (decide (obj = obj')) as [->|Hne].
    + rewrite lookup_insert_eq. intros; by simplify_eq/=.
    + rewrite lookup_insert_ne by done. intros E1 E2. destruct (H2 _ _ _ E1 E2) as (tn & E3 & E4).
      destruct (rt_tunnel r) as [old|]; [|by eauto].
      destruct (alter_tunnel_Some tn_cancelled (sv_tunnels v) old id tn) as (tn' & ? & ?); [done|done|].
      exists tn'. split; [done|congruence].
Qed.

Lemma revoke_lookup v obj obj' r' :
  sv_runtimes (revoke v obj) !! obj' = Some r' ->
  exists r, sv_runtimes v !! obj' = Some r /\ rt_config r' = rt_config r /\
    (obj' <> obj -> r' = r) /\ (rt_cancel r' = rt_cancel r \/ rt_cancel r' = true) /\
    (obj' = obj -> rt_cancel r' = true).
Proof.
  destruct (sv_runtimes v !! obj) as [r|] eqn:Er.
  - destruct (revoke_maps v obj r Er) as [-> _]. rewrite lookup_insert. case_decide.
    + subst. intros; simplify_eq. exists r. split_and!; try done. by right.
    + intros E. exists r'. split_and!; try done. by left.
  - unfold revoke. rewrite Er. intros E. exists r'. split_and!; try done; [by left|congruence].
Qed.

Lemma revoke_lookup_Some v obj obj' :
  is_Some (sv_runtimes v !! obj') -> is_Some (sv_runtimes (revoke v obj) !! obj').
Proof.
  intros H. unfold revoke. case_match; [|done]. simpl. rewrite lookup_insert_is_Some'. auto.
Qed.

Lemma server_tunnels t v : server_inv t v -> tunnels_ok v.
Proof. intros [_ _ I3 I4 _ _]. by split. Qed.

Lemma revoke_settled v v1 obj next pending :
  settled v next pending -> sv_active v1 ⊆ sv_active v -> sv_runtimes v1 = sv_runtimes v ->
  settled (revoke v1 obj) next pending.
Proof.
  intros H Ha Hr id obj' r' E1 E2 E3. destruct (revoke_rest v1 obj) as (_ & Ea & _). rewrite Ea in E1.
  destruct (revoke_lookup _ _ _ _ E2) as (r & E & -> & _). rewrite Hr in E.
  by apply (H id obj' r (lookup_weaken _ _ _ _ E1 Ha) E E3).
Qed.

(** Revoking anything once the server shuts down *)
Lemma revoke_shutdown t v obj : server_inv t v -> sv_shutdown v = true -> server_inv t (revoke v obj).
Proof.
  intros Hv Hsh. pose proof (revoke_tunnels v obj (server_tunnels _ _ Hv)) as [T1 T2].
  destruct (revoke_rest v obj) as (Ec & Ea & En & Es & Esh & Eu & Er).
  pose proof Hv as [I1 I2 _ _ I5 I6]. split; try done.
  - intros id obj'. rewrite Ea, Esh. intros E. destruct (I1 _ _ E) as (r & Hr & Hid & _).
    destruct (revoke_lookup_Some v obj obj') as [r' Hr']; [by eexists|].
    destruct (revoke_lookup _ _ _ _ Hr') as (r0 & ? & Hcfg & _). simplify_eq.
    exists r'. rewrite Hcfg. auto.
  - intros obj' r' E. destruct (revoke_lookup _ _ _ _ E) as (r & Hr & -> & _ & Hca & _).
    rewrite Ea, En. destruct (I2 _ _ Hr) as (? & ? & [?|Hc]); [by auto|]. rewrite Hc in Hca. naive_solver.
  - rewrite Eu. intros u E. destruct (I5 u E) as (U1 & U2 & U3 & U4). split_and!; try done.
    + by eapply revoke_settled.
    + by eapply started_same.
  - rewrite Eu, Er, Ec. intros E1 E2. destruct (I6 E1 E2). split; [by eapply revoke_settled|].
    by eapply started_same.
Qed.

Lemma shutdown_inv t v : server_inv t v -> server_inv t (shutdown v).
Proof.
  intros Hv. unfold shutdown. set (v1 := mkServerState _ _ _ _ _ _ _ _ _ true _ _ _).
  assert (server_inv t v1 /\ sv_shutdown v1 = true) as H.
  { split; [|done]. destruct Hv as [I1 I2 I3 I4 I5 I6]. split; try done. simpl.
    intros id obj E. destruct (I1 _ _ E) as (r & ? & ? & _). eauto. }
  clearbody v1. generalize (snd <$> map_to_list (sv_active v1)). intros l. revert v1 H.
  induction l as [|obj l IH]; intros v1 [H1 H2]; [done|]. apply (IH (revoke v1 obj)).
  split; [by apply revoke_shutdown|]. by destruct (revoke_rest v1 obj) as (_ & _ & _ & _ & -> & _).
Qed.

Lemma revoke_round_inv t v v' : server_inv t v -> revoke_round v = Some v' -> server_inv t v'.
Proof.
  intros Hv H. unfold revoke_round in H.
  destruct (sv_update v) as [[next [|id rest] start removed]|] eqn:Eu; try done. simpl in H.
  pose proof Hv as [I1 I2 I3 I4 I5 I6]. destruct (I5 _ Eu) as (U1 & U2 & U3 & U4). simpl in *.
  specialize (U3 ltac:(done)).
  destruct (sv_active v !! id) as [obj|] eqn:Ea; simplify_eq.
  2: { split; simpl; try done. intros u [= <-]. simpl. split_and!; try done.
       intros id' obj' r E1 E2 E3. eapply U2; [done..|]. rewrite elem_of_cons. intros [->|?]; [simpl in E1; congruence|done]. }
  set (v1 := sv_with_active _ _ _ _ _). destruct (I1 _ _ Ea) as (r & Hr & Hid & Hc).
  pose proof (revoke_tunnels v1 obj (server_tunnels _ _ Hv)) as [T1 T2].
  destruct (revoke_rest v1 obj) as (Ec & Ea' & En & Es & Esh & Eu' & Er).
  assert (forall id' obj', sv_active v1 !! id' = Some obj' ->
    sv_active v !! id' = Some obj' /\ id' <> id /\ obj' <> obj) as Hact.
  { intros id' obj' E. simpl in E. apply lookup_delete_Some in E as [Hne E]. split_and!; try done.
    intros ->. destruct (I1 _ _ E) as (r' & ? & ? & _). congruence. }
  split; try done.
  - intros id' obj'. rewrite Ea', Esh. intros E. destruct (Hact _ _ E) as (E1 & _ & Hne).
    destruct (I1 _ _ E1) as (r' & Hr' & Hid' & Hc'). exists r'. split; [|done].
    destruct (revoke_lookup_Some v1 obj obj') as [r2 Hr2]; [by exists r'|].
    destruct (revoke_lookup _ _ _ _ Hr2) as (r3 & E3 & _ & Hsame & _).
    rewrite Hr2, (Hsame Hne). f_equal. simpl in E3. congruence.
  - intros obj' r' E. destruct (revoke_lookup _ _ _ _ E) as (r0 & Hr0 & -> & Hsame & _ & Hcan).
    rewrite Ea', En. simpl in Hr0. destruct (I2 _ _ Hr0) as (H1 & H2 & H3). split_and!; try done.
    destruct (decide (obj' = obj)) as [Heq|Hne]; [right; auto|]. rewrite (Hsame Hne).
    destruct H3 as [[id' H3]|?]; [left|by right]. exists id'. simpl. apply lookup_delete_Some.
    split; [|done]. intros <-. congruence.
  - rewrite Eu'. simpl. intros u [= <-]. simpl. split_and!; try done.
    + intros id' obj' r' E1 E2 E3. rewrite Ea' in E1. destruct (Hact _ _ E1) as (E4 & Hne & Hno).
      destruct (revoke_lookup _ _ _ _ E2) as (r0 & E5 & -> & _). eapply U2; [done..|].
      rewrite elem_of_cons. by intros [?|?].
    + intros id' c E1 E2 E3. left. apply (elem_of_list_to_set (C := gset string)). rewrite U3.
      by apply elem_of_dom.
  - rewrite Eu'. simpl. done.
Qed.

(** ** Updates *)

Lemma route_map_ids routes id c : route_map routes !! id = Some c -> rc_route_id c = id.
Proof.
  unfold route_map. assert (forall (m : gmap string RouteConfig),
    (forall i x, m !! i = Some x -> rc_route_id x = i) ->
    foldl (fun m r => <[rc_route_id r := r]> m) m routes !! id = Some c -> rc_route_id c = id) as H;
    [|apply H; intros i x; by rewrite lookup_empty].
  induction routes as [|r routes IH]; intros m Hm E; [by apply Hm|]. apply (IH _) in E; [done|].
  intros i x. rewrite lookup_insert. case_decide; [by intros; simplify_eq|apply Hm].
Qed.

Lemma expired_later c now t : time_le now t = true -> is_expired c now = true -> is_expired c t = true.
Proof. unfold is_expired, time_le. intros H1 H2. bool_props. apply Z.leb_le. lia. Qed.

Lemma unchanged_settled v next id obj r :
  sv_active v !! id = Some obj -> sv_runtimes v !! obj = Some r -> id ∉ changed_routes v next ->
  exists c, next !! id = Some c /\ route_eq c (rt_config r) = true.
Proof.
  intros Ha Hr Hn. unfold changed_routes in Hn. rewrite elem_of_dom in Hn.
  destruct (unchanged v next id obj) eqn:E.
  - unfold unchanged in E. rewrite Hr in E. case_match; [|done]. by eexists.
  - exfalso. apply Hn. exists obj. by apply map_lookup_filter_Some.
Qed.

Lemma traverses_set keys order : traverses keys order = true -> list_to_set order = keys.
Proof. unfold traverses. intros H. by bool_props. Qed.

Section Steps.
Context `{Calendar} (encode_state : QuotaState -> option (list byte)) (euid : Z).

Lemma reconcile_same v routes now fl res v' :
  reconcile_routes encode_state euid v routes now fl = (res, v') ->
  same_routes v v' /\ sv_update v' = sv_update v /\ sv_results v' = sv_results v.
Proof.
  unfold reconcile_routes. destruct (sv_quota v) as [store|].
  - destruct (reconcile _ _ _ _ _ _ _) as [[r st] ds]. intros [= <- <-]. done.
  - case_match; intros [= <- <-]; done.
Qed.

Lemma return_error_inv t v e : server_inv t v -> server_inv t (sv_return v (Err e)).
Proof. intros [I1 I2 I3 I4 I5 I6]. split; simpl; done. Qed.

Lemma begin_update_inv t v routes now fl o1 o2 o3 v' :
  server_inv t v -> begin_update encode_state euid v routes now fl o1 o2 o3 = Some v' -> server_inv t v'.
Proof.
  intros Hv Hb. unfold begin_update in Hb. destruct (sv_update v) eqn:Eu; [done|].
  destruct (reconcile_routes _ _ _ _ _ _) as [res v1] eqn:Er.
  apply reconcile_same in Er as (Hsame & Eu1 & Eres). rewrite Eu in Eu1.
  assert (server_inv t v1) as Hv1 by (eapply server_inv_same; [done..|congruence|done]).
  destruct res as [u|e]; simplify_eq; [|by apply return_error_inv].
  destruct (_ && _) eqn:Ht; simplify_eq. bool_props.
  repeat match goal with H : traverses _ _ = true |- _ => apply traverses_set in H end.
  destruct Hv1 as [I1 I2 I3 I4 I5 I6]. split; simpl; try done.
  intros u' [= <-]. simpl. split_and!; try done.
  - apply route_map_ids.
  - intros id obj r Ea Hr Hn. eapply unchanged_settled; [done..|].
    intros Hin. apply Hn, elem_of_app. left. apply (elem_of_list_to_set (C := gset string)).
    match goal with H : list_to_set o1 = _ |- _ => by rewrite H end.
  - intros id c Ec _ _. left. apply (elem_of_list_to_set (C := gset string)).
    match goal with H : list_to_set o3 = _ |- _ => rewrite H end. by apply elem_of_dom.
Qed.

Lemma activate_inv t v v2 id next rest removed r :
  server_inv t v -> same_routes v v2 -> sv_update v = Some (mkUpdate next [] (id :: rest) removed) ->
  sv_update v2 = Some (mkUpdate next [] rest removed) -> next !! id = Some (rt_config r) ->
  enabled (rt_config r) = true -> rt_cancel r = false -> rt_tunnel r = None -> sv_active v !! id = None ->
  server_inv t (activate v2 id r).
Proof.
  intros [I1 I2 I3 I4 I5 I6] (Sc & Sa & Sr & St & Sn & Ss & Ssh) Eu Eu2 Enext Hen Hcan Htun Hnone.
  destruct (I5 _ Eu) as (U1 & U2 & _ & U4). simpl in U1, U2, U4.
  assert (sv_runtimes v !! sv_next v = None) as Hfree.
  { destruct (sv_runtimes v !! sv_next v) eqn:E; [|done]. destruct (I2 _ _ E). lia. }
  unfold activate. rewrite Sa, Sr, Sn, St, Eu2, Ss, Ssh. split; simpl.
  - intros id' obj. rewrite lookup_insert. case_decide.
    + intros [= <-]. exists r. rewrite lookup_insert_eq. split; [done|]. split; [|by left].
      subst. by apply U1.
    + intros E. destruct (I1 _ _ E) as (r' & Hr' & ?). exists r'. by rewrite lookup_insert_ne by congruence.
  - intros obj r'. destruct (decide (obj = sv_next v)) as [->|Hne].
    + rewrite lookup_insert_eq. intros [= <-]. split; [lia|]. split; [done|]. left. exists id.
      by rewrite lookup_insert_eq.
    + rewrite lookup_insert_ne by done. intros E. destruct (I2 _ _ E) as (? & ? & H3).
      split; [lia|]. split; [done|]. destruct H3 as [[id' ?]|?]; [left|by right]. exists id'.
      rewrite lookup_insert_ne; [done|]. congruence.
  - intros tid tn E. destruct (I3 _ _ E) as (? & r' & Hr' & ?). split; [done|]. exists r'.
    by rewrite lookup_insert_ne by congruence.
  - intros obj r' tid. destruct (decide (obj = sv_next v)) as [->|Hne].
    + rewrite lookup_insert_eq. intros; simplify_eq.
    + rewrite lookup_insert_ne by done. apply I4.
  - intros u [= <-]. simpl. split_and!; try done.
    + intros id' obj r'. simpl. rewrite lookup_insert. case_decide.
      * intros [= <-]. rewrite lookup_insert_eq. intros [= <-] _. subst. exists (rt_config r).
        split; [done|]. unfold route_eq. by apply bool_decide_eq_true_2.
      * intros E. rewrite lookup_insert_ne; [by apply U2|]. destruct (I1 _ _ E) as (? & ? & _). congruence.
    + intros id' c' E1 E2 E3. simpl. rewrite lookup_insert_is_Some'.
      destruct (U4 _ _ E1 E2 E3) as [Hin|?]; [|by auto]. apply elem_of_cons in Hin as [->|?]; auto.
  - done.
Qed.

Lemma start_round_inv t v now bind v' :
  server_inv t v -> start_round v now bind = Some v' -> time_le now t = true -> server_inv t v'.
Proof.
  intros Hv Hs Hle. unfold start_round in Hs.
  destruct (sv_update v) as [[next [|? ?] [|id rest] removed]|] eqn:Eu; try done. simpl in Hs.
  pose proof Hv as [I1 I2 I3 I4 I5 I6]. destruct (I5 _ Eu) as (U1 & U2 & U3 & U4). simpl in *.
  destruct (next !! id) as [c|] eqn:Ec; [|done]. set (v1 := sv_with_update _ _) in Hs.
  assert ((enabled c = true -> is_expired c t = false -> is_Some (sv_active v !! id)) -> server_inv t v1)
    as Hskip.
  { intros Hno. split; simpl; try done. intros u [= <-]. simpl. split_and!; try done.
    intros id' c' E1 E2 E3. destruct (U4 _ _ E1 E2 E3) as [Hin|?]; [|by right].
    apply elem_of_cons in Hin as [->|?]; [right|by left]. simplify_eq. auto. }
  destruct (negb (enabled c) || is_expired c now) eqn:Eskip; simplify_eq.
  { apply Hskip. intros He Hx. exfalso. apply orb_true_iff in Eskip as [E|E].
    - by rewrite He in E.
    - rewrite (expired_later _ _ _ Hle E) in Hx. done. }
  case_bool_decide as Hact; simplify_eq; [by apply Hskip|].
  assert (sv_active v !! id = None) as Hnone by (by apply eq_None_not_Some).
  destruct (start_route v1 c bind) as [[r v2]|e] eqn:Est; simplify_eq.
  2: { split; simpl; done. }
  assert (rt_config r = c /\ rt_cancel r = false /\ rt_tunnel r = None /\ same_routes v1 v2 /\
    sv_update v2 = sv_update v1 /\ sv_results v2 = sv_results v1) as (Hcfg & Hcan & Htun & Hsame & Hup & Hres).
  { unfold start_route in Est. destruct bind as [a|]; rsimpl in Est; [|done].
    destruct (match rc_monthly_byte_limit c with Some _ => _ | None => _ end); rsimpl in Est; [|done].
    destruct (route _ _) as [m0 m]. by simplify_eq. }
  apply orb_false_iff in Eskip as [Een _]. apply negb_false_iff in Een.
  eapply (activate_inv t v v2 id next rest removed r); try done; by rewrite Hcfg.
Qed.

Lemma finish_update_inv t v v' : server_inv t v -> finish_update v = Some v' -> server_inv t v'.
Proof.
  intros [I1 I2 I3 I4 I5 I6] Hf. unfold finish_update in Hf.
  destruct (sv_update v) as [[next [|? ?] [|? ?] removed]|] eqn:Eu; try done. simplify_eq.
  destruct (I5 _ eq_refl) as (U1 & U2 & U3 & U4). simpl in *. by split.
Qed.
End Steps.

(** ** Runs *)

(** The update rounds of a run read the clock no later than [t]. *)
Definition starts_before (t : OffsetDateTime) (e : ServerEvent) : bool :=
  match e with SvStart now _ => time_le now t | _ => true end.

Section Runs.
Context `{Calendar} `{Sha256} (hex_decode : string -> option (list byte)).
Context (encode_state : QuotaState -> option (list byte)) (euid : Z) (s : ServerConfig).

Lemma attach_cases v conn v' :
  attach v conn = Some v' ->
  let v1 := sv_with_conns v (delete conn (sv_conns v)) in
  (exists obj r, sv_runtimes v !! obj = Some r /\ v' = (start_session v1 obj r).2) \/
  (exists m, v' = sv_with_metrics v1 m).
Proof.
  unfold attach. intros Ha. apply bind_Some in Ha as (id & _ & Ha).
  change (sv_active (sv_with_conns v (delete conn (sv_conns v)))) with (sv_active v) in Ha.
  destruct (sv_active v !! id) as [obj|]; [|simplify_eq; right; by eexists].
  apply bind_Some in Ha as (r & Hr & Ha). left. exists obj, r. split; [done|].
  by apply (inj Some) in Ha.
Qed.

Lemma server_step_inv t v e v' :
  server_inv t v -> server_step hex_decode encode_state euid s v e = Some v' ->
  starts_before t e = true -> 0 <= sv_session v < u64_max -> server_inv t v'.
Proof.
  intros Hv Hstep Ht Hs. destruct e; simpl in Hstep, Ht.
  - by eapply begin_update_inv.
  - by eapply revoke_round_inv.
  - by eapply start_round_inv.
  - by eapply finish_update_inv.
  - case_bool_decide; [done|]. destruct (authenticate _ _ _ _ _) as [c [id|e]]; simplify_eq;
      by eapply server_inv_same.
  - apply attach_cases in Hstep as [(obj & r & Hr & ->)|[m ->]]; [|by eapply server_inv_same].
    apply start_session_inv; [by eapply server_inv_same|done|done].
  - case_bool_decide; simplify_eq. by apply end_session_inv.
  - simplify_eq. by apply shutdown_inv.
Qed.

Lemma revokes_session l v : sv_session (foldl revoke v l) = sv_session v.
Proof.
  revert v. induction l as [|obj l IH]; intros v; [done|]. simpl. rewrite IH.
  by destruct (revoke_rest v obj) as (_ & _ & _ & -> & _).
Qed.

Lemma server_step_session v e v' :
  server_step hex_decode encode_state euid s v e = Some v' -> 0 <= sv_session v < u64_max ->
  sv_session v <= sv_session v' <= sv_session v + 1.
Proof.
  intros Hstep Hs. enough (sv_session v' = sv_session v \/ sv_session v' = sv_session v + 1) by lia.
  destruct e; simpl in Hstep.
  - unfold begin_update in Hstep. destruct (sv_update v); [done|].
    destruct (reconcile_routes _ _ _ _ _ _) as [res v1] eqn:Er.
    apply reconcile_same in Er as ((_ & _ & _ & _ & _ & Es & _) & _).
    repeat case_match; simplify_eq; auto.
  - unfold revoke_round in Hstep. destruct (sv_update v) as [[next [|id rest] start removed]|]; try done.
    case_match; simplify_eq; [|auto]. left.
    match goal with |- sv_session (revoke ?v1 ?obj) = _ =>
      by destruct (revoke_rest v1 obj) as (_ & _ & _ & -> & _) end.
  - unfold start_round, start_route in Hstep. destruct (sv_update v) as [[? [|? ?] [|? ?] ?]|]; try done.
    destruct (_ !! _) as [c|]; [|done]. destruct (_ || _); simplify_eq; [auto|].
    case_bool_decide; simplify_eq; [auto|]. destruct bind as [a|]; rsimpl in Hstep; [|simplify_eq; auto].
    destruct (match rc_monthly_byte_limit c with Some _ => _ | None => _ end); rsimpl in Hstep;
      [|simplify_eq; auto].
    destruct (route _ _) as [m0 m]. simplify_eq. auto.
  - unfold finish_update in Hstep. repeat case_match; simplify_eq; auto.
  - repeat case_match; simplify_eq; auto.
  - apply attach_cases in Hstep as [(obj & r & Hr & ->)|[m ->]]; [right|by left].
    unfold start_session, random_session_id, register_tunnel, fetch_add, wrapping_add. simpl.
    rewrite Z.mod_small by lia. by destruct (rt_tunnel r).
  - case_match; simplify_eq. unfold end_session, remove_tunnel. repeat case_match; auto.
  - simplify_eq. left. unfold shutdown. by rewrite revokes_session.
Qed.

Lemma server_run_inv t es v v' :
  server_inv t v -> server_run hex_decode encode_state euid s v es = Some v' ->
  forallb (starts_before t) es = true -> 0 <= sv_session v -> sv_session v + zlen es <= u64_max ->
  server_inv t v'.
Proof.
  revert v. induction es as [|e es IH]; intros v Hv Hrun Ht Hz Hs; [simpl in Hrun; by simplify_eq|].
  apply bind_Some in Hrun as (v1 & Hstep & Hrun). apply andb_true_iff in Ht as [Ht1 Ht2].
  change (e :: es) with ([e] ++ es) in Hs. rewrite zlen_app in Hs. change (zlen [e]) with 1 in Hs.
  pose proof (zlen_nonneg es). assert (0 <= sv_session v < u64_max) as Hr by lia.
  pose proof (server_step_session _ _ _ Hstep Hr).
  apply (IH v1); [by eapply server_step_inv|done|done|lia|lia].
Qed.
End Runs.

(** ** What every run guarantees *)

Section Guarantees.
Context `{Calendar} `{Sha256} (hex_decode : string -> option (list byte)).
Context (encode_state : QuotaState -> option (list byte)) (euid : Z) (s : ServerConfig).

(** A state the server reaches with fewer than 2^64 events *)
Definition server_reaches (q : option Store) (d : Disk) (es : list ServerEvent) (v : ServerState) : Prop :=
  zlen es < u64_max /\ server_run hex_decode encode_state euid s (initial_state q d) es = Some v.

Lemma server_reaches_inv t q d es v :
  server_reaches q d es v -> forallb (starts_before t) es = true -> server_inv t v.
Proof.
  intros [Hlen Hrun] Ht. eapply server_run_inv; [|exact Hrun|done|done|simpl; lia].
  apply server_inv_initial.
Qed.

Definition route_of (v : ServerState) (tn : RouteTunnel) : option string :=
  rc_route_id ∘ rt_config <$> sv_runtimes v !! tn_runtime tn.

Lemma later_than es : exists t, forallb (starts_before t) es = true.
Proof.
  induction es as [|e es [t IH]]; [by exists (mkTime 0 0)|].
  exists (mkTime (Z.max (instant t) (match e with SvStart now _ => instant now | _ => 0 end)) 0).
  simpl. apply andb_true_iff. split.
  - destruct e; simpl; try done. unfold time_le. simpl. apply Z.leb_le. lia.
  - apply forallb_forall. intros e' Hin. rewrite forallb_forall in IH. specialize (IH e' Hin).
    destruct e'; simpl in *; try done. unfold time_le in *. simpl. bool_props. apply Z.leb_le. lia.
Qed.

(** C4: A route never has two live tunnels: in every state the server reaches,
    whatever the order of updates, registrations, disconnects and shutdown, a
    tunnel that is not cancelled belongs to the runtime that is active for its
    route, is that runtime's registered tunnel, and is the only live tunnel of
    the route. *)
Theorem one_live_tunnel_per_route q d es v id1 tn1 :
  server_reaches q d es v -> sv_tunnels v !! id1 = Some tn1 -> tunnel_cancelled v tn1 = false ->
  exists route r, route_of v tn1 = Some route /\ sv_active v !! route = Some (tn_runtime tn1) /\
    sv_runtimes v !! tn_runtime tn1 = Some r /\ current_tunnel v r = Some id1 /\
    forall id2 tn2, sv_tunnels v !! id2 = Some tn2 -> tunnel_cancelled v tn2 = false ->
      route_of v tn2 = Some route -> id2 = id1.
Proof.
  intros Hreach E1 L1. destruct (later_than es) as [t Ht].
  pose proof (server_reaches_inv t _ _ _ _ Hreach Ht) as [I1 I2 I3 I4 _ _].
  assert (forall id tn, sv_tunnels v !! id = Some tn -> tunnel_cancelled v tn = false ->
    exists r, sv_runtimes v !! tn_runtime tn = Some r /\ rt_tunnel r = Some id /\
      sv_active v !! rc_route_id (rt_config r) = Some (tn_runtime tn)) as Hlive.
  { intros id tn E L. destruct (I3 _ _ E) as (_ & r & Hr & Hcur). exists r. split; [done|].
    unfold tunnel_cancelled, runtime_cancelled in L. rewrite Hr in L.
    apply orb_false_iff in L as [L1' L2]. apply orb_false_iff in L2 as [L2 _].
    split; [auto|]. destruct (I2 _ _ Hr) as (_ & _ & [[rid Ha]|Hc]); [|congruence].
    destruct (I1 _ _ Ha) as (r' & ? & <- & _). by simplify_eq. }
  destruct (Hlive _ _ E1 L1) as (r1 & Hr1 & Ht1 & Ha1).
  exists (rc_route_id (rt_config r1)), r1. unfold route_of. rewrite Hr1. split_and!; try done.
  { unfold current_tunnel. rewrite Ht1. simpl. rewrite E1. simpl. by rewrite L1. }
  intros id2 tn2 E2 L2. destruct (Hlive _ _ E2 L2) as (r2 & Hr2 & Ht2 & Ha2).
  rewrite Hr2. simpl. intros [= Heq]. rewrite Heq in Ha2. rewrite Ha1 in Ha2. simplify_eq. congruence.
Qed.

(** C23: An update that succeeds takes effect: when no update runs and the last one
    succeeded, every active route is configured, runs with the settings configured
    for it and is enabled, its runtime is not revoked unless the server shuts down,
    and every configured route that is enabled and unexpired at a time [t] is active,
    where no update has read the clock later than [t]. An unchanged route that has expired may stay
    active: its expiry is judged when a connection is admitted. *)
Theorem updates_take_effect q d es v t :
  server_reaches q d es v -> forallb (starts_before t) es = true ->
  sv_update v = None -> head (sv_results v) = Some (Ok tt) ->
  (forall id obj, sv_active v !! id = Some obj ->
    exists r c, sv_runtimes v !! obj = Some r /\ sv_configured v !! id = Some c /\
      route_eq c (rt_config r) = true /\ enabled c = true /\
      (runtime_cancelled v r = false \/ sv_shutdown v = true)) /\
  (forall id c, sv_configured v !! id = Some c -> enabled c = true -> is_expired c t = false ->
    is_Some (sv_active v !! id)).
Proof.
  intros Hreach Ht Hu Hres. pose proof (server_reaches_inv t _ _ _ _ Hreach Ht) as [I1 I2 _ _ _ I6].
  destruct (I6 Hu Hres) as [Hset Hst]. split.
  - intros id obj Ha. destruct (I1 _ _ Ha) as (r & Hr & _ & Hc).
    destruct (Hset _ _ _ Ha Hr) as (c & Ec & Heq); [apply not_elem_of_nil|]. exists r, c. split_and!; try done.
    + destruct (I2 _ _ Hr) as (_ & Hen & _). unfold route_eq in Heq. bool_props.
      unfold utc_route in Heq. injection Heq as _ _ _ _ _ -> _ _ _ _. done.
    + unfold runtime_cancelled. destruct Hc as [->| ->]; [|by right]. destruct (sv_shutdown v); auto.
  - intros id c Ec Hen Hx. destruct (Hst _ _ Ec Hen Hx) as [Hin|?]; [by apply not_elem_of_nil in Hin|done].
Qed.
End Guarantees.
