(* ===== verification/RelayAdmission.v ===== *)
(** * Who may attach a tunnel

    The authentication of node connections ([handle_node_connection] of
    [src/relay-server/src/relay.rs]) as an exact condition, the handshake of
    the two ends together ([run_session] of [node.rs]), and what a route
    update that fails half-way leaves behind. *)
From S2P Require Import Prelude Text Clock ProtoTypes ProtoInstances RelayError RelayConfig RelayFrame RelayFlow.
From S2P Require Import RelayTunnel RelayStreams NodeConnector RelayQuota RelayMetrics RelayRoutes RelayRoutesFacts.

Section Admission.
Context `{Sha256} (hex_decode : string -> option (list byte)).

Lemma token_matches_iff r digest :
  token_matches hex_decode r digest = true <-> hex_decode (node_token_sha256 r) = Some digest.
Proof.
  unfold token_matches. destruct (hex_decode _); [|done]. rewrite bool_decide_eq_true. naive_solver.
Qed.
Lemma cert_matches_iff r digest :
  cert_matches hex_decode r digest = true <-> hex_decode (node_cert_sha256 r) = Some digest.
Proof.
  unfold cert_matches. destruct (hex_decode _); [|done]. rewrite bool_decide_eq_true. naive_solver.
Qed.

(** The credentials [check_route] asks for *)
Record credentials (configured : gmap string RouteConfig) (cert_digest : list byte) (route_id : string)
    (token : list byte) (now : OffsetDateTime) : Prop := {
  cr_token : 1 <= zlen token <= REGISTER_TOKEN_MAX_BYTES;
  cr_route : exists c, configured !! route_id = Some c /\ enabled c = true /\ is_expired c now = false /\
    hex_decode (node_token_sha256 c) = Some (sha256 token) /\
    hex_decode (node_cert_sha256 c) = Some cert_digest;
}.

Lemma check_route_Ok configured digest route_id token now id :
  check_route hex_decode configured digest route_id token now = Ok id <->
  id = route_id /\ credentials configured digest route_id token now.
Proof.
  unfold check_route. pose proof (zlen_nonneg token). split.
  - intros Hc. destruct (_ || _) eqn:Hlen; [done|]. bool_props.
    destruct (configured !! route_id) as [c|] eqn:Ec; [|done].
    destruct (negb (enabled c)) eqn:He; [done|]. destruct (is_expired c now) eqn:Hx; [done|].
    destruct (negb _ || _) eqn:Hm; [done|]. simplify_eq. split; [done|]. bool_props.
    constructor; [lia|]. exists c. by rewrite <- token_matches_iff, <- cert_matches_iff.
  - intros [-> [[H1 H2] (c & -> & -> & -> & Ht & Hd)]].
    apply token_matches_iff in Ht. apply cert_matches_iff in Hd. rewrite Ht, Hd.
    rewrite (proj2 (Z.eqb_neq _ _)), (proj2 (Z.ltb_ge _ _)) by lia. done.
Qed.

(** C22: A node is admitted exactly when it negotiated the protocol over TLS
    with a client certificate, its first frame registers a configured route
    that is enabled and unexpired, the route's token digest is the digest of
    the (bounded) token it sent, and its certificate digest that of the
    certificate it showed. *)
Theorem node_admission_exact s configured h now id :
  (authenticate hex_decode s configured h now).2 = Ok id <->
  h_nodelay h = Ok tt /\ h_tls h = Some (Ok tt) /\ h_alpn h = Some RELAY_ALPN /\
  exists cert chain bytes frame rest token,
    h_certificates h = Some (cert :: chain) /\ h_bytes h = Some bytes /\
    read_from bytes (max_frame_bytes s) = (Ok (Some frame), rest) /\
    parse_register frame = Ok (id, token) /\ credentials configured (sha256 cert) id token now.
Proof.
  unfold authenticate. split.
  - destruct (read_hello s h) as [[[digest route_id] token]|e] eqn:Eh; [|done].
    destruct (check_route _ _ _ _ _ _) as [i|[c e]] eqn:Ec; [|done]. simpl. intros [= ->].
    apply check_route_Ok in Ec as [-> Hcr]. unfold read_hello in Eh.
    apply bind_Ok in Eh as ([] & H1 & Eh). apply bind_Ok in Eh as ([] & H2 & Eh).
    apply bind_Ok in Eh as ([] & H3 & Eh). apply bind_Ok in Eh as (cert & H4 & Eh).
    apply bind_Ok in Eh as (fr & H5 & Eh). apply bind_Ok in Eh as (frame & H6 & Eh).
    apply bind_Ok in Eh as ([ri tk] & H7 & Eh). simplify_eq. inv_ok. bool_props.
    destruct (h_tls h) as [[[]|]|]; try done. destruct (h_certificates h) as [[|c0 chain]|]; try done.
    simpl in H4. simplify_eq. destruct (h_bytes h) as [bytes|]; [|done].
    destruct (read_from bytes (max_frame_bytes s)) as [x rest] eqn:Er. simpl in *. subst.
    split_and!; try done. by exists cert, chain, bytes, frame, rest, token.
  - intros (H1 & H2 & H3 & cert & chain & bytes & frame & rest & token & H4 & H5 & H6 & H7 & Hcr).
    unfold read_hello. rewrite H1, H2, H3, H4, H5, H6. rsimpl. simpl. rewrite H7. simpl.
    by rewrite (proj2 (check_route_Ok configured (sha256 cert) id token now id) (conj eq_refl Hcr)).
Qed.
End Admission.

(** ** The handshake *)

Lemma url_safe_utf8 l : forallb url_safe_byte l = true -> utf8_valid l = true.
Proof.
  induction l as [|b l IH]; [done|]. cbn [forallb utf8_valid]. intros Hl.
  apply andb_true_iff in Hl as [Hb Hl].
  assert ((byte_to_Z b <=? 0x7F) = true) as -> by (revert Hb; by destruct b). auto.
Qed.

Lemma connector_route_id c :
  connector_validate c = Ok tt ->
  16 <= str_len (nc_route_id c) <= 128 /\ utf8_valid (as_bytes (nc_route_id c)) = true.
Proof.
  unfold connector_validate. intros Hv. inv_ok. bool_props. split; [lia|]. by apply url_safe_utf8.
Qed.

Lemma registration_frame c token :
  connector_validate c = Ok tt -> zlen token <= MAX_ROUTE_TOKEN_BYTES ->
  exists f, register (nc_route_id c) token = Ok f /\ parse_register f = Ok (nc_route_id c, token) /\
    is_u64 (stream_id f) /\ zlen (payload f) <= MIN_FRAME_BYTES.
Proof.
  intros Hv Ht. destruct (connector_route_id c Hv) as [Hid Hu]. unfold MAX_ROUTE_TOKEN_BYTES in Ht.
  eexists. split; [apply register_Ok; split_and!; [ulia|ulia|reflexivity]|].
  split; [apply parse_register_built; [ulia|ulia|done]|]. split; [done|]. cbn [payload].
  rewrite !zlen_app, !zlen_be_bytes. unfold str_len in Hid. unfold MIN_FRAME_BYTES. lia.
Qed.

Section Handshake.
Context `{Sha256} (hex_decode : string -> option (list byte)).

(** Both ends of a registration agree: a node with a valid configuration
    and the route's token and certificate is admitted by what it writes, and
    what the relay then writes first makes the node's registration succeed,
    with nothing left over. *)
Theorem registration_succeeds s configured c token cert id k now :
  server_ok s -> connector_validate c = Ok tt ->
  MIN_ROUTE_TOKEN_BYTES <= zlen token <= MAX_ROUTE_TOKEN_BYTES ->
  credentials hex_decode configured (sha256 cert) (nc_route_id c) token now ->
  exists written answer,
    (authenticate hex_decode s configured
       (mkHello (Ok tt) (Some (Ok tt)) (Some RELAY_ALPN) (Some [cert]) (Some written)) now).2
      = Ok (nc_route_id c) /\
    write_frames (max_frame_bytes s) (commands (start_tunnel s id k Sent).2) = Ok answer /\
    register_session c token
      (mkSessionIo (Some (Ok tt)) (Ok tt) true (Some (Ok (Some RELAY_ALPN))) (Ok tt) (Some answer))
      = Ok (written, []).
Proof.
  intros Hs Hv Ht Hcr. destruct (registration_frame c token Hv) as (f & Hf & Hp & Hid & Hlen); [lia|].
  pose proof Hs as [[Hm1 Hm2] _ _ _ _ _ _]. apply connector_validate_Ok in Hv as (_ & _ & _ & [Hc1 Hc2] & _).
  set (ok := frame_u32 RegisterOk 0 (default u32_max (try_from u32_max (heartbeat_interval_secs s)))).
  assert (is_u32 (default u32_max (try_from u32_max (heartbeat_interval_secs s)))) as Hu
    by (unfold try_from; case_match; bool_props; simpl; ulia).
  assert (zlen (payload ok) = 4) as Hok by (unfold ok, frame_u32; cbn [payload]; apply zlen_be_bytes).
  unfold MIN_FRAME_BYTES, MAX_FRAME_BYTES in *.
  exists (encode f), (encode ok). split_and!; try done.
  - apply node_admission_exact. split_and!; try done.
    exists cert, [], (encode f), f, [], token. split_and!; try done.
    rewrite <- (app_nil_r (encode f)). apply read_from_encode; [done|lia|unfold HEADER_BYTES; ulia].
  - change (commands (start_tunnel s id k Sent).2) with [ok]. rewrite write_frames_Ok; [|done|].
    + change (concat (encode <$> [ok])) with (encode ok ++ []). by rewrite app_nil_r.
    + apply Forall_singleton. split; [lia|done].
  - unfold register_session. cbn [tcp_connect nodelay server_name_valid tls_connect register_written
      response_bytes]. rsimpl. rewrite Hf. rsimpl.
    rewrite (proj2 (write_to_Ok f (nc_max_frame_bytes c) (encode f))); rsimpl;
      [|split_and!; [done|lia|unfold HEADER_BYTES; ulia]].
    rewrite <- (app_nil_r (encode ok)), read_from_encode; [|done|lia|unfold HEADER_BYTES; ulia].
    assert (registration_response ok = Ok tt) as ->; [|done].
    unfold registration_response, ok. simpl kind. simpl stream_id. rewrite Z.eqb_refl.
    by rewrite parse_u32_frame.
Qed.
End Handshake.

(** ** Concrete runs *)

Definition hex_of (l : list byte) : string := str_of_bytes (hex_encode l).
Definition from_hex (v : string) : option (list byte) := hex_decode (as_bytes v).
Definition old_token : list byte := replicate 32 "a"%byte.
Definition new_token : list byte := replicate 32 "b"%byte.
Definition node_cert : list byte := as_bytes "certificate".
Definition route_a : string := "route_a_0123456789ab"%string.
Definition route_b : string := "route_b_0123456789ab"%string.
Definition token_route (id : string) (p : Z) (token : list byte) : RouteConfig :=
  default_route id (socket_addr (V4 [203; 0; 113; 7]) p) (hex_of (sha256 token)) (hex_of (sha256 node_cert))
    (mkTime (40000 * NANOS_PER_DAY) 0).
Definition first_routes : list RouteConfig := [token_route route_a 1001 old_token; token_route route_b 1002 old_token].
(** The token of route A is rotated, and the listener of route B moves. *)
Definition next_routes : list RouteConfig := [token_route route_a 1001 new_token; token_route route_b 1003 old_token].

Definition today : OffsetDateTime := mkTime (20000 * NANOS_PER_DAY) 0.
Definition no_faults : Faults := mkFaults true true true true true true 1.
Definition node_hello (token : list byte) : NodeHello :=
  mkHello (Ok tt) (Some (Ok tt)) (Some RELAY_ALPN) (Some [node_cert])
    (Some (match register route_a token with Ok f => encode f | Err _ => [] end)).
Definition bound (p : Z) : relay_result SocketAddr := Ok (socket_addr (V4 [203; 0; 113; 7]) p).

Definition first_update : list ServerEvent :=
  [SvBegin first_routes today no_faults [] [] [route_a; route_b];
   SvStart today (bound 1001); SvStart today (bound 1002); SvFinish].
Definition failing_update : list ServerEvent :=
  [SvBegin next_routes today no_faults [route_b; route_a] [] [route_a; route_b];
   SvRevoke; SvRevoke; SvStart today (bound 1001); SvStart today (Err (Io OtherIo))].
Definition no_disk : Disk := mkDisk None None None.
Definition sample_state (es : list ServerEvent) : ServerState :=
  default (initial_state None no_disk)
    (server_run from_hex (fun _ => None) 0 sample_link_server (initial_state None no_disk) es).

Lemma sample_reaches es :
  zlen es < 1000 ->
  is_Some (server_run from_hex (fun _ => None) 0 sample_link_server (initial_state None no_disk) es) ->
  server_reaches from_hex (fun _ => None) 0 sample_link_server None no_disk es (sample_state es).
Proof. intros Hl [v Hv]. split; [ulia|]. unfold sample_state. by rewrite Hv. Qed.

(** An update that fails at one route mixes old and new: the routes it
    started before the failure run with their new settings, but nodes are
    still authenticated by the old ones. After a token rotation the revoked
    token is admitted, and its tunnel serves the new runtime, while the new
    token is refused. *)
Theorem failed_update_keeps_old_token :
  exists es v obj r,
    server_reaches from_hex (fun _ => None) 0 sample_link_server None no_disk es v /\
    sv_update v = None /\ head (sv_results v) = Some (Err (Io OtherIo)) /\
    sv_active v !! route_a = Some obj /\ sv_runtimes v !! obj = Some r /\
    rt_config r = token_route route_a 1001 new_token /\
    (authenticate from_hex sample_link_server (sv_configured v) (node_hello old_token) today).2 = Ok route_a /\
    (authenticate from_hex sample_link_server (sv_configured v) (node_hello new_token) today).2
      = Err (Stable AuthFailed "route authentication failed").
Proof.
  exists (first_update ++ failing_update), (sample_state (first_update ++ failing_update)), 2.
  eexists. split; [apply sample_reaches; [by vm_compute|]; vm_compute; by eexists|].
  split_and!; vm_compute; reflexivity.
Qed.

(** A node attaches, and attaches again. *)
Definition two_sessions : list ServerEvent :=
  first_update ++ [SvHello 1 (node_hello old_token) today; SvHello 2 (node_hello old_token) today;
                   SvAttach 1; SvAttach 2].

Lemma one_live_tunnel_per_route_witness :
  sv_tunnels (sample_state two_sessions) !! 1 = Some (mkRouteTunnel 0 true) /\
  sv_active (sample_state two_sessions) !! route_a = Some 0.
Proof.
  split; [vm_compute; reflexivity|].
  destruct (one_live_tunnel_per_route from_hex (fun _ => None) 0 sample_link_server None no_disk two_sessions
    (sample_state two_sessions) 2 (mkRouteTunnel 0 false)) as (rid & r & Hr & Ha & _).
  - apply sample_reaches; [by vm_compute|]. vm_compute. by eexists.
  - vm_compute. reflexivity.
  - vm_compute. reflexivity.
  - vm_compute in Hr. injection Hr as <-. exact Ha.
Defined.

Lemma updates_take_effect_witness :
  is_Some (sv_active (sample_state first_update) !! route_b).
Proof.
  destruct (updates_take_effect from_hex (fun _ => None) 0 sample_link_server None no_disk first_update
    (sample_state first_update) today) as [_ Hst].
  - apply sample_reaches; [by vm_compute|]. vm_compute. by eexists.
  - vm_compute. reflexivity.
  - vm_compute. reflexivity.
  - vm_compute. reflexivity.
  - apply (Hst route_b (token_route route_b 1002 old_token)); vm_compute; reflexivity.
Defined.

Definition sample_node : NodeConnectorConfig :=
  default_connector (socket_addr (V4 [203; 0; 113; 7]) 8443) "relay.example" route_a [] [] [] []
    (socket_addr (V4 [127; 0; 0; 1]) 10443).

Lemma registration_succeeds_witness :
  exists written answer,
    (authenticate from_hex sample_link_server (route_map first_routes)
       (mkHello (Ok tt) (Some (Ok tt)) (Some RELAY_ALPN) (Some [node_cert]) (Some written)) today).2
      = Ok route_a /\
    register_session sample_node old_token
      (mkSessionIo (Some (Ok tt)) (Ok tt) true (Some (Ok (Some RELAY_ALPN))) (Ok tt) (Some answer))
      = Ok (written, []).
Proof.
  destruct (registration_succeeds from_hex sample_link_server (route_map first_routes) sample_node old_token
    node_cert 9 0 today) as (written & answer & Ha & _ & Hr).
  - apply sample_config_ok.
  - vm_compute. reflexivity.
  - vm_compute. split; congruence.
  - split; [vm_compute; split; congruence|]. exists (token_route route_a 1001 old_token).
    split; [vm_compute; reflexivity|]. split; [vm_compute; reflexivity|]. split; [vm_compute; reflexivity|].
    split; vm_compute; reflexivity.
  - exists written, answer. split; [exact Ha|exact Hr].
Defined.
