(* ===== verification/NodeHostDb.v ===== *)
(** * The node host's database

    The tables behind Xray activation ([src/node-host/src/lib.rs], migrations
    3 to 7) and every statement [activation.rs], [xray.rs] and [sync.rs] of
    [src/node-host/src] run on them: each is a function on the tables, with
    the constraints SQLite enforces written out. Columns that nothing reads
    back ([updated_at] and the like) are left out. [serde_json] on revision
    results and on desired state is a parameter. *)
From S2P Require Import Prelude Text Clock ProtoTypes ProtoAuth ProtoNode.
From stdpp Require Import pretty.
Open Scope Z_scope.

(** ** Errors *)

(** [anyhow::Error]: a message of the code, a failure of SQLite, of [serde_json]
    or of the operating system, and [context] around it. [Diverges] is a loop
    whose fuel ran out, which [operations_terminate] excludes. *)
Inductive HostError : Type :=
| Bail (message : string)
| Sqlite
| Serde
| System
| Diverges
| Invalid (v : ProtocolValidationError)
| Wrap (context : string) (e : HostError)
| WrapWith (context : string) (also e : HostError).
Abbreviation host_result := (result HostError).

Definition context {A} (message : string) (r : host_result A) : host_result A :=
  map_err (Wrap message) r.
Definition validated {A} (message : string) (r : valid_result A) : host_result A :=
  map_err (fun v => Wrap message (Invalid v)) r.
(** [Option::context] *)
Definition present_or {A} (message : string) (o : option A) : host_result A := ok_or o (Bail message).

(** ** Rows *)

(** [revision_state_name] *)
Definition revision_state_name (s : RevisionResultState) : string :=
  match s with
  | RsReceived => "received"
  | RsValidated => "validated"
  | RsApplied => "applied"
  | RsRejected => "rejected"
  | RsRolledBack => "rolledBack"
  end.
#[export] Instance RevisionResultState_countable : Countable RevisionResultState.
Proof.
  refine (inj_countable' (fun s => match s with
      | RsReceived => 0%nat | RsValidated => 1%nat | RsApplied => 2%nat | RsRejected => 3%nat | RsRolledBack => 4%nat end)
    (fun n => match n with
      | 0%nat => RsReceived | 1%nat => RsValidated | 2%nat => RsApplied | 3%nat => RsRejected | _ => RsRolledBack end) _).
  by intros [].
Defined.

(** [local_revision_results]: the text of the report, its digest, and when the
    controller acknowledged it *)
Record ResultRow : Type := mkResultRow {
  rw_report_json : string;
  rw_report_digest : string;
  rw_reported_at : option Z;
}.

(** [desired_state_artifacts] *)
Record ArtifactRow : Type := mkArtifact {
  ar_envelope_json : string;
  ar_envelope_digest : string;
  ar_transcript_digest : string;
}.

(** [rendered_xray_configs] *)
Record RenderedConfigRow : Type := mkRendered {
  rd_relative_path : string;
  rd_config_digest : string;
  rd_binary_digest : string;
}.

(** [xray_runtime_config] *)
Record StoredRuntimeRow : Type := mkRuntimeRow {
  rt_binary_path : string;
  rt_expected_sha256 : string;
  rt_version : string;
  rt_stats_api_port : Z;
}.

(** [xray_active_state], whose one row always exists *)
Record ActiveRow : Type := mkActive {
  ac_applied_revision : option Z;
  ac_config_digest : option string;
  ac_binary_digest : option string;
  ac_generation : Z;
  ac_restart_count : Z;
}.

(** [JournalPhase], the [phase] column of [xray_activation_journal] *)
Inductive JournalPhase : Type :=
| JActivating | JStabilizing | JRetryPending | JApplied
| JRollingBack | JRolledBack | JRejected | JRecoveryRequired.
#[export] Instance JournalPhase_eq_dec : EqDecision JournalPhase.
Proof. solve_decision. Defined.

(** [JournalPhase::as_str], [parse], [is_terminal] *)
Definition phase_as_str (p : JournalPhase) : string :=
  match p with
  | JActivating => "activating"
  | JStabilizing => "stabilizing"
  | JRetryPending => "retryPending"
  | JApplied => "applied"
  | JRollingBack => "rollingBack"
  | JRolledBack => "rolledBack"
  | JRejected => "rejected"
  | JRecoveryRequired => "recoveryRequired"
  end.
Definition phase_parse (value : string) : host_result JournalPhase :=
  if bool_decide (value = "activating") then Ok JActivating
  else if bool_decide (value = "stabilizing") then Ok JStabilizing
  else if bool_decide (value = "retryPending") then Ok JRetryPending
  else if bool_decide (value = "applied") then Ok JApplied
  else if bool_decide (value = "rollingBack") then Ok JRollingBack
  else if bool_decide (value = "rolledBack") then Ok JRolledBack
  else if bool_decide (value = "rejected") then Ok JRejected
  else if bool_decide (value = "recoveryRequired") then Ok JRecoveryRequired
  else Err (Bail "stored Xray activation phase is invalid").
Definition phase_is_terminal (p : JournalPhase) : bool :=
  match p with JApplied | JRolledBack | JRejected | JRecoveryRequired => true | _ => false end.

(** [xray_activation_journal], by revision; the phase column holds
    [phase_as_str] of the phase, its constraint admits no other text *)
Record JournalRow : Type := mkJournal {
  jn_previous_revision : option Z;
  jn_phase : JournalPhase;
  jn_attempt_count : Z;
  jn_started_at : Z;
  jn_completed_at : option Z;
  jn_error_code : option string;
}.

(** The tables *)
Record Db : Type := mkDb {
  desired_revision_cursor : Z;
  artifacts : gmap Z ArtifactRow;
  results : gmap (Z * RevisionResultState) ResultRow;
  runtime : option StoredRuntimeRow;
  rendered : gmap Z RenderedConfigRow;
  active : ActiveRow;
  journal : gmap Z JournalRow;
}.
Definition set_cursor c db := mkDb c (artifacts db) (results db) (runtime db) (rendered db) (active db) (journal db).
Definition set_artifacts a db := mkDb (desired_revision_cursor db) a (results db) (runtime db) (rendered db) (active db) (journal db).
Definition set_results r db := mkDb (desired_revision_cursor db) (artifacts db) r (runtime db) (rendered db) (active db) (journal db).
Definition set_runtime r db := mkDb (desired_revision_cursor db) (artifacts db) (results db) r (rendered db) (active db) (journal db).
Definition set_rendered r db := mkDb (desired_revision_cursor db) (artifacts db) (results db) (runtime db) r (active db) (journal db).
Definition set_active a db := mkDb (desired_revision_cursor db) (artifacts db) (results db) (runtime db) (rendered db) a (journal db).
Definition set_journal j db := mkDb (desired_revision_cursor db) (artifacts db) (results db) (runtime db) (rendered db) (active db) j.

(** What migrations 3 to 7 leave: no desired state yet *)
Definition fresh_db : Db := mkDb 0 ∅ ∅ None ∅ (mkActive None None None 0 0) ∅.

(** ** Reading *)

(** [serde_json] on the two documents the tables hold as text *)
Class NodeJson : Type := {
  report_to_string : RevisionResult -> option string;
  report_from_str : string -> option RevisionResult;
  envelope_from_slice : list byte -> option SignedDesiredState;
  envelope_to_string : SignedDesiredState -> option string;
  envelope_from_str : string -> option SignedDesiredState;
}.
(** What the code relies on: text it wrote is read back, for reports with an error
    code of their own. ([Unknown] with the name of a known code would come back
    as that code.) *)
Class NodeJsonLaws (J : NodeJson) : Prop := {
  report_read_back r s : (forall code, rr_error_code r <> Some (Unknown code)) ->
    report_to_string r = Some s -> report_from_str s = Some r;
  envelope_read_back e s : envelope_to_string e = Some s -> envelope_from_str s = Some e;
}.

Section Db.
Context `{Sha : Sha256} `{Json : NodeJson}.

(** [protocol_digest] *)
Definition protocol_digest (value : list byte) : string := digest_from_bytes (sha256 value).

(** [ORDER BY CASE state ... END, state] *)
Definition result_order : list RevisionResultState :=
  [RsReceived; RsValidated; RsApplied; RsRejected; RsRolledBack].
Definition rows_of (db : Db) (revision : Z) : list (RevisionResultState * ResultRow) :=
  omap (fun st => (fun row => (st, row)) <$> results db !! (revision, st)) result_order.

(** [load_revision_results] *)
Definition read_report (revision : Z) (row : ResultRow) : host_result (string * RevisionResult) :=
  _ ← ensure (bool_decide (protocol_digest (as_bytes (rw_report_json row)) = rw_report_digest row))
        (Bail "stored revision result digest is invalid");
  report ← ok_or (report_from_str (rw_report_json row)) (Wrap "stored revision result is invalid" Serde);
  _ ← validated "stored revision result failed validation" (result_validate report revision);
  Ok (rw_report_digest row, report).
Definition load_revision_results (db : Db) (revision : Z) : host_result (list (string * RevisionResult)) :=
  mapM (M := result HostError) (fun row => read_report revision row.2) (rows_of db revision).

(** [load_rendered_config_row], [config_relative_path] *)
Definition load_rendered_config_row (db : Db) (revision : Z) : host_result RenderedConfigRow :=
  present_or "validated revision is missing its rendered Xray config metadata" (rendered db !! revision).
Definition config_relative_path (revision : Z) : string :=
  String.append "configs/revision-" (String.append (pretty revision) ".json").

(** [load_active_state] *)
Record ActiveState : Type := mkActiveState {
  as_revision : Z;
  as_config_digest : string;
  as_binary_digest : string;
}.
Definition load_active_state (db : Db) : host_result (option ActiveState) :=
  let stored := active db in
  match ac_applied_revision stored with
  | None =>
      _ ← ensure (bool_decide (ac_config_digest stored = None) && bool_decide (ac_binary_digest stored = None))
            (Bail "empty Xray active state contains candidate metadata");
      Ok None
  | Some revision =>
      revision ← map_err (fun _ => Wrap "stored applied revision is invalid" System) (positive_new revision);
      config ← present_or "active config digest is missing" (ac_config_digest stored);
      binary ← present_or "active binary digest is missing" (ac_binary_digest stored);
      Ok (Some (mkActiveState revision config binary))
  end.

(** [load_pending_revision] *)
Definition load_pending_revision (db : Db) : host_result (option Z) :=
  let desired_revision := desired_revision_cursor db in
  if desired_revision =? 0 then Ok None
  else match last (rows_of db desired_revision) with
       | Some (RsValidated, row) =>
           match rw_reported_at row with
           | Some _ =>
               revision ← map_err (fun _ => Wrap "pending desired revision is invalid" System)
                            (positive_new desired_revision);
               Ok (Some revision)
           | None => Ok None
           end
       | _ => Ok None
       end.

(** [ActivationJournal], [journal_from_row] *)
Record ActivationJournal : Type := mkActivation {
  aj_revision : Z;
  aj_previous_revision : option Z;
  aj_phase : JournalPhase;
  aj_attempt_count : Z;
  aj_started_at : Z;
}.
Definition journal_from_row (row : Z * JournalRow) : host_result ActivationJournal :=
  let '(revision, j) := row in
  revision ← map_err (fun _ => Sqlite) (positive_new revision);
  previous ← match jn_previous_revision j with
             | None => Ok None
             | Some p => p ← map_err (fun _ => Sqlite) (positive_new p); Ok (Some p)
             end;
  Ok (mkActivation revision previous (jn_phase j) (jn_attempt_count j) (jn_started_at j)).

(** [load_incomplete_journal]; at most one row is returned, so the order of the
    rows does not matter *)
Definition incomplete (j : JournalRow) : Prop := phase_is_terminal (jn_phase j) = false.
Definition load_incomplete_journal (db : Db) : host_result (option ActivationJournal) :=
  rows ← mapM (M := result HostError) journal_from_row
           (map_to_list (filter (fun row => incomplete row.2) (journal db)));
  _ ← ensure (zlen rows <=? 1) (Bail "multiple incomplete Xray activation journals require recovery");
  Ok (head rows).

(** [load_journal], [journal_started_timestamp]'s query *)
Definition load_journal (db : Db) (revision : Z) : host_result ActivationJournal :=
  context "Xray activation journal is missing"
    (row ← ok_or (journal db !! revision) Sqlite; journal_from_row (revision, row)).
Definition journal_started_at (db : Db) (revision : Z) : host_result Z :=
  jn_started_at <$> ok_or (journal db !! revision) Sqlite.

(** [load_activation_status], once the tables exist: the phase of the highest
    revision in the journal *)
Definition highest (l : list Z) : option Z :=
  fold_right (fun r acc => match acc with Some m => Some (Z.max r m) | None => Some r end) None l.
Definition load_activation_status (db : Db) : host_result (option Z * option string) :=
  applied ← match ac_applied_revision (active db) with
            | None => Ok None
            | Some r => r ← map_err (fun _ => Wrap "stored applied revision is invalid" System) (positive_new r);
                        Ok (Some r)
            end;
  latest ← match highest ((map_to_list (journal db)).*1) with
           | Some r =>
               match journal db !! r with
               | Some j => p ← phase_parse (phase_as_str (jn_phase j)); Ok (Some (phase_as_str p))
               | None => Ok None
               end
           | None => Ok None
           end;
  Ok (applied, latest).

(** [ValidatedXrayCandidate]; the digest of the binary is its 32 bytes *)
Record ValidatedXrayCandidate : Type := mkCandidate {
  vc_revision : Z;
  vc_config_path : string;
  vc_config_digest : string;
  vc_binary_path : string;
  vc_binary_digest : list byte;
  vc_listen_port : Z;
  vc_public_port : option Z;
}.

(** [xray_runtime::Sha256Digest::from_hex] and its [Display] *)
Definition runtime_decode_hex (b : byte) : option Z :=
  if in_bounds 48 57 b then Some (byte_to_Z b - 48)
  else if in_bounds 97 102 b then Some (byte_to_Z b - 97 + 10)
  else if in_bounds 65 70 b then Some (byte_to_Z b - 65 + 10) else None.
Fixpoint runtime_pairs (hex : list byte) : option (list byte) :=
  match hex with
  | high :: low :: hex =>
      high ← runtime_decode_hex high;
      low ← runtime_decode_hex low;
      rest ← runtime_pairs hex;
      Some (byte_of_Z (high * 16 + low) :: rest)
  | _ => Some []
  end.
Definition runtime_from_hex (value : string) : option (list byte) :=
  if str_len value =? 64 then runtime_pairs (as_bytes value) else None.
Definition runtime_to_string (digest : list byte) : string := str_of_bytes (digest ≫= hex_pair).

(** ** Writing

    Each function is the body of one transaction, or one statement that is a
    transaction of its own. A violated constraint of a table is [Sqlite]. *)

(** [validate_result_transition], [insert_revision_result] *)
Definition validate_result_transition (db : Db) (revision : Z) (candidate : RevisionResult) : host_result unit :=
  reports ← load_revision_results db revision;
  validated "revision result transition is invalid"
    (validate_transition_from candidate (snd <$> last reports)).
Definition insert_revision_result (db : Db) (revision : Z) (result : RevisionResult) : host_result Db :=
  _ ← validated "generated revision result is invalid" (result_validate result revision);
  report_json ← ok_or (report_to_string result) (Wrap "failed to encode revision result" Serde);
  let report_digest := protocol_digest (as_bytes report_json) in
  _ ← validate_result_transition db revision result;
  _ ← ensure (bool_decide (is_Some (artifacts db !! revision))
              && bool_decide (results db !! (revision, rr_state result) = None)) Sqlite;
  Ok (set_results (<[(revision, rr_state result) := mkResultRow report_json report_digest None]> (results db)) db).

(** [begin_activation]; the attempt it starts *)
Definition begin_activation (db : Db) (revision : Z) (previous_revision : option Z) (now : Z)
    : host_result (Z * Db) :=
  match journal db !! revision with
  | Some existing =>
      _ ← ensure (bool_decide (jn_previous_revision existing = previous_revision))
            (Bail "Xray activation predecessor changed across retries");
      _ ← ensure (negb (phase_is_terminal (jn_phase existing)))
            (Bail "terminal Xray activation journal cannot be retried");
      attempt ← present_or "Xray activation attempt count overflowed" (checked_next (jn_attempt_count existing));
      Ok (attempt, set_journal
        (<[revision := mkJournal (jn_previous_revision existing) JActivating attempt
                         (jn_started_at existing) None None]> (journal db)) db)
  | None =>
      _ ← ensure (bool_decide (is_Some (rendered db !! revision))
                  && match previous_revision with
                     | None => true
                     | Some p => bool_decide (is_Some (rendered db !! p)) && (p <? revision)
                     end) Sqlite;
      Ok (1, set_journal (<[revision := mkJournal previous_revision JActivating 1 now None None]> (journal db)) db)
  end.

(** [update_journal_phase] *)
Definition update_journal_phase (db : Db) (revision : Z) (phase : JournalPhase)
    (error_code : option ApiErrorCode) : host_result Db :=
  _ ← ensure (negb (phase_is_terminal phase))
        (Bail "terminal activation phases require an atomic result transition");
  match journal db !! revision with
  | Some j =>
      if phase_is_terminal (jn_phase j)
      then Err (Bail "Xray activation journal transition did not update one row")
      else Ok (set_journal (<[revision := mkJournal (jn_previous_revision j) phase (jn_attempt_count j)
                 (jn_started_at j) (jn_completed_at j) (api_as_str <$> error_code)]> (journal db)) db)
  | None => Err (Bail "Xray activation journal transition did not update one row")
  end.

(** [finish_journal] *)
Definition finish_journal (db : Db) (revision : Z) (phase : JournalPhase)
    (error_code : option ApiErrorCode) (completed_at : Z) : host_result Db :=
  _ ← ensure (phase_is_terminal phase) (Bail "nonterminal activation phase cannot finish a journal");
  match journal db !! revision with
  | Some j =>
      if phase_is_terminal (jn_phase j)
      then Err (Bail "Xray activation journal completion did not update one row")
      else Ok (set_journal (<[revision := mkJournal (jn_previous_revision j) phase (jn_attempt_count j)
                 (jn_started_at j) (Some completed_at) (api_as_str <$> error_code)]> (journal db)) db)
  | None => Err (Bail "Xray activation journal completion did not update one row")
  end.

(** The transaction of [finalize_applied] *)
Definition commit_applied (db : Db) (candidate : ValidatedXrayCandidate) (result : RevisionResult) (now : Z)
    : host_result Db :=
  db ← insert_revision_result db (vc_revision candidate) result;
  _ ← ensure (bool_decide (is_Some (rendered db !! vc_revision candidate))
              && (ac_generation (active db) <? i64_max)) Sqlite;
  let db := set_active (mkActive (Some (vc_revision candidate)) (Some (vc_config_digest candidate))
              (Some (runtime_to_string (vc_binary_digest candidate)))
              (ac_generation (active db) + 1) 0) db in
  finish_journal db (vc_revision candidate) JApplied None now.

(** The transactions of [finalize_rolled_back] and [finalize_rejected], which
    differ in the result and the phase, and of [mark_recovery_required] *)
Definition commit_rolled_back (db : Db) (revision : Z) (result : RevisionResult) (error_code : ApiErrorCode)
    (now : Z) : host_result Db :=
  db ← insert_revision_result db revision result;
  finish_journal db revision JRolledBack (Some error_code) now.
Definition commit_rejected (db : Db) (revision : Z) (result : RevisionResult) (error_code : ApiErrorCode)
    (now : Z) : host_result Db :=
  db ← insert_revision_result db revision result;
  finish_journal db revision JRejected (Some error_code) now.
Definition commit_recovery_required (db : Db) (revision : Z) (error_code : ApiErrorCode) (now : Z)
    : host_result Db :=
  finish_journal db revision JRecoveryRequired (Some error_code) now.

(** [record_active_restart] *)
Definition record_active_restart (db : Db) (revision : Z) : host_result Db :=
  let a := active db in
  if bool_decide (ac_applied_revision a = Some revision)
  then _ ← ensure ((ac_generation a <? i64_max) && (ac_restart_count a <? i64_max)) Sqlite;
       Ok (set_active (mkActive (ac_applied_revision a) (ac_config_digest a) (ac_binary_digest a)
             (ac_generation a + 1) (ac_restart_count a + 1)) db)
  else Err (Bail "Xray active restart raced with an active-state change").

(** The transaction of [append_validated_result] *)
Definition commit_validated (db : Db) (revision : Z) (relative_path config_digest binary_digest : string)
    (result : RevisionResult) : host_result Db :=
  _ ← ensure (bool_decide (rendered db !! revision = None) && bool_decide (is_Some (artifacts db !! revision)))
        Sqlite;
  insert_revision_result
    (set_rendered (<[revision := mkRendered relative_path config_digest binary_digest]> (rendered db)) db)
    revision result.

(** The transaction of [persist_verified_desired_state] *)
Definition commit_desired_state (db : Db) (previous_cursor revision : Z) (artifact : ArtifactRow)
    (report_json report_digest : string) : host_result Db :=
  _ ← ensure (desired_revision_cursor db =? previous_cursor)
        (Bail "desired revision cursor changed during synchronization");
  _ ← ensure (bool_decide (artifacts db !! revision = None) && (0 <? revision)) Sqlite;
  _ ← ensure (bool_decide (results db !! (revision, RsReceived) = None)) Sqlite;
  Ok (set_cursor revision
       (set_results (<[(revision, RsReceived) := mkResultRow report_json report_digest None]> (results db))
         (set_artifacts (<[revision := artifact]> (artifacts db)) db))).

(** The update of [report_unreported_results] *)
Definition mark_reported (db : Db) (revision : Z) (state : RevisionResultState) (now : Z) : host_result Db :=
  match results db !! (revision, state) with
  | Some row =>
      if bool_decide (rw_reported_at row = None)
      then Ok (set_results (<[(revision, state) := mkResultRow (rw_report_json row) (rw_report_digest row)
                 (Some now)]> (results db)) db)
      else Err (Bail "stored revision result changed during synchronization")
  | None => Err (Bail "stored revision result changed during synchronization")
  end.

(** The transaction of [configure_xray], with the checks before it that read
    the tables; [existing] was read before them *)
Definition commit_runtime (db : Db) (binary_path expected_sha256 version : string) (stats_api_port : Z)
    (replace : bool) : host_result Db :=
  let existing := runtime db in
  let pin_changed := match existing with
    | Some s => negb (bool_decide (rt_binary_path s = binary_path))
                || negb (bool_decide (rt_expected_sha256 s = expected_sha256))
    | None => false end in
  let digest_changed := match existing with
    | Some s => negb (bool_decide (rt_expected_sha256 s = expected_sha256))
    | None => false end in
  _ ← ensure (negb (pin_changed && negb replace))
        (Bail "Xray runtime is already configured; use --replace to change the pinned binary");
  _ ← ensure (negb (digest_changed && negb (bool_decide (rendered db = ∅))))
        (Bail "Xray runtime cannot be replaced while validated revisions are retained");
  match existing with
  | Some s =>
      if bool_decide (rt_binary_path s = binary_path) && bool_decide (rt_expected_sha256 s = expected_sha256)
         && bool_decide (rt_version s = version)
      then Ok db
      else Ok (set_runtime (Some (mkRuntimeRow binary_path expected_sha256 version (rt_stats_api_port s))) db)
  | None => Ok (set_runtime (Some (mkRuntimeRow binary_path expected_sha256 version stats_api_port)) db)
  end.

(** [validation_is_complete], except for the check of the file, which its
    second component asks for *)
Definition valid_history (reports : list RevisionResult) : host_result unit :=
  _ ← try_fold (fun previous report =>
        _ ← validated "stored revision result transition is invalid"
              (validate_transition_from report previous);
        Ok (Some report)) None reports;
  Ok tt.
End Db.
