(* ===== verification/NodeHostRuntime.v ===== *)
(** * Xray activation on a node host

    [src/node-host/src/activation.rs]: the supervisor that starts the Xray
    process of an applied revision, tries a new revision, commits it once it
    proved healthy and goes back to its predecessor otherwise.

    The code runs in a state and error monad over a [World]: the database, the
    supervisor, the monotonic clock, the processes that were started and not
    reaped, and a log of what happened. Everything outside the code answers
    from [env], one answer per call; a theorem for every [env] is a theorem
    for every behaviour of SQLite, of the operating system and of Xray. A
    transaction may fail and leave the database as it was, or fail although
    it became durable. *)
From S2P Require Import Prelude Text Clock ProtoTypes ProtoAuth ProtoNode NodeHostDb.
Open Scope Z_scope.

(** ** Options *)

(** [AdmissionOptions] of admission.rs; durations are in nanoseconds *)
Record AdmissionOptions : Type := mkAdmissionOptions {
  ao_max_connections : Z;
  ao_bandwidth_limit_bps : option Z;
  ao_connect_timeout : Z;
  ao_canary_timeout : Z;
  ao_probe_interval : Z;
  ao_accept_error_backoff : Z;
}.
#[export] Instance AdmissionOptions_eq_dec : EqDecision AdmissionOptions.
Proof. solve_decision. Defined.
Definition NANOS : Z := 1000000000.
Definition MAX_CONNECTIONS : Z := 4096.
Definition MAX_GATE_DELAY : Z := 60 * NANOS.

(** [AdmissionOptions::default], [validate] *)
Definition default_admission : AdmissionOptions :=
  mkAdmissionOptions 16 None (3 * NANOS) (3 * NANOS) (10 * 1000000) (100 * 1000000).
Definition gate_delay (name : string) (value : Z) : host_result unit :=
  ensure (negb (value =? 0) && (value <=? MAX_GATE_DELAY))
    (Bail (String.append "admission " (String.append name " must be non-zero and at most 60 seconds"))).
Definition admission_validate (o : AdmissionOptions) : host_result AdmissionOptions :=
  _ ← ensure (negb (ao_max_connections o =? 0) && (ao_max_connections o <=? MAX_CONNECTIONS))
        (Bail "admission connection limit must be between 1 and 4096");
  _ ← ensure (negb (match ao_bandwidth_limit_bps o with Some v => v <? 8000 | None => false end))
        (Bail "admission bandwidth limit must be at least 8000 bits per second");
  _ ← gate_delay "connect timeout" (ao_connect_timeout o);
  _ ← gate_delay "canary timeout" (ao_canary_timeout o);
  _ ← gate_delay "probe interval" (ao_probe_interval o);
  _ ← gate_delay "accept error backoff" (ao_accept_error_backoff o);
  _ ← ensure (ao_probe_interval o <=? ao_canary_timeout o)
        (Bail "admission probe interval cannot exceed its canary timeout");
  Ok o.

(** [ActivationOptions] *)
Definition RUNTIME_ADMISSION_PROBE_INTERVAL : Z := 30 * NANOS.
Definition MAX_ACTIVATION_ATTEMPTS_WITHOUT_PREDECESSOR : Z := 3.
Definition MAX_RUNTIME_DELAY : Z := 5 * 60 * NANOS.
Record ActivationOptions : Type := mkOptions {
  op_startup_timeout : Z;
  op_stabilization_duration : Z;
  op_probe_interval : Z;
  op_admission : AdmissionOptions;
}.
Definition default_options : ActivationOptions :=
  mkOptions (10 * NANOS) (5 * NANOS) (100 * 1000000) default_admission.
Definition options_validate (o : ActivationOptions) : host_result ActivationOptions :=
  _ ← ensure (negb (op_startup_timeout o =? 0) && negb (op_stabilization_duration o =? 0)
              && negb (op_probe_interval o =? 0)
              && (op_startup_timeout o <=? MAX_RUNTIME_DELAY)
              && (op_stabilization_duration o <=? MAX_RUNTIME_DELAY)
              && (op_probe_interval o <=? op_startup_timeout o))
        (Bail "Xray activation timing options are invalid");
  _ ← admission_validate (op_admission o);
  Ok o.

(** ** The world *)

(** [AdmissionCounters] *)
Record AdmissionCounters : Type := mkCounters {
  ct_active_sessions : Z;
  ct_accepted_sessions : Z;
  ct_rejected_session_limit : Z;
  ct_throttled_chunks : Z;
  ct_bytes_up : Z;
  ct_bytes_down : Z;
}.
Definition default_counters : AdmissionCounters := mkCounters 0 0 0 0 0 0.

(** [AdmissionGate], which owns the listener of one applied revision *)
Record AdmissionGate : Type := mkGate {
  ag_public_port : Z;
  ag_backend_port : Z;
  ag_options : AdmissionOptions;
}.

(** [XraySupervisor]; a child is the number it was started under *)
Record XraySupervisor : Type := mkSupervisor {
  sv_child : option nat;
  sv_admission : option AdmissionGate;
  sv_running_revision : option Z;
  sv_running_public_port : option Z;
  sv_last_admission_probe : option Z;
  sv_last_admission_counters : AdmissionCounters;
  sv_options : ActivationOptions;
}.
Definition set_child c s := mkSupervisor c (sv_admission s) (sv_running_revision s) (sv_running_public_port s)
  (sv_last_admission_probe s) (sv_last_admission_counters s) (sv_options s).
Definition set_admission g s := mkSupervisor (sv_child s) g (sv_running_revision s) (sv_running_public_port s)
  (sv_last_admission_probe s) (sv_last_admission_counters s) (sv_options s).
Definition set_running r p l s := mkSupervisor (sv_child s) (sv_admission s) r p l
  (sv_last_admission_counters s) (sv_options s).
Definition set_counters c s := mkSupervisor (sv_child s) (sv_admission s) (sv_running_revision s)
  (sv_running_public_port s) (sv_last_admission_probe s) c (sv_options s).
Definition set_options o s := mkSupervisor (sv_child s) (sv_admission s) (sv_running_revision s)
  (sv_running_public_port s) (sv_last_admission_probe s) (sv_last_admission_counters s) o.

(** What a file is found to be *)
Record FileAnswer : Type := mkFile {
  fa_symlink : bool;
  fa_regular : bool;
  fa_len : Z;
  fa_owner_only : bool;
  fa_contents : option (list byte);
}.

(** What a commit does *)
Inductive Commit : Type := CommitDone | CommitLost | CommitUnconfirmed.

(** What a configuration test of Xray says; it runs the binary of a digest on a
    configuration *)
Inductive ConfigTest : Type := TestPassed | TestRejected | TestFailed.

(** One answer of the outside: whether the call succeeds, and what it returns *)
Record Answer : Type := mkAnswer {
  an_succeeds : bool;
  an_database : bool;
  an_commit : Commit;
  an_wall : Z;
  an_elapsed : N;
  an_exited : bool;
  an_running : bool;
  an_counters : AdmissionCounters;
  an_file : string -> option FileAnswer;
  an_path : string;
  an_rendered : option (list byte);
  an_test : string -> list byte -> ConfigTest;
}.

(** What happened, for the theorems *)
Inductive Event : Type :=
| EvDurable (db : Db)
| EvSpawned (pid : nat) (candidate : ValidatedXrayCandidate)
| EvReaped (pid : nat)
| EvListening (port at_instant : Z)
| EvAlive (pid : nat)
| EvGateReady (port : Z).

Record World : Type := mkWorld {
  w_db : Db;
  w_supervisor : XraySupervisor;
  w_now : Z;
  w_asked : nat;
  w_processes : gset nat;
  w_log : list Event;
}.
Definition on_db db w := mkWorld db (w_supervisor w) (w_now w) (w_asked w) (w_processes w) (EvDurable db :: w_log w).
Definition on_supervisor (f : XraySupervisor -> XraySupervisor) w :=
  mkWorld (w_db w) (f (w_supervisor w)) (w_now w) (w_asked w) (w_processes w) (w_log w).
Definition on_processes ps w := mkWorld (w_db w) (w_supervisor w) (w_now w) (w_asked w) ps (w_log w).
Definition on_log e w := mkWorld (w_db w) (w_supervisor w) (w_now w) (w_asked w) (w_processes w) (e :: w_log w).
Definition pass (d : Z) w := mkWorld (w_db w) (w_supervisor w) (w_now w + d) (w_asked w) (w_processes w) (w_log w).
Definition asked w := mkWorld (w_db w) (w_supervisor w) (w_now w) (S (w_asked w)) (w_processes w) (w_log w).

(** ** The monad *)

Definition Act (E A : Type) : Type := World -> result E A * World.
#[export] Instance act_ret E : MRet (Act E) := fun A a w => (Ok a, w).
#[export] Instance act_bind E : MBind (Act E) := fun A B f m w =>
  match m w with (Ok a, w) => f a w | (Err e, w) => (Err e, w) end.
Definition fail {E A} (e : E) : Act E A := fun w => (Err e, w).
Definition lift {E A} (r : result E A) : Act E A := fun w => (r, w).
Definition gets {E A} (f : World -> A) : Act E A := fun w => (Ok (f w), w).
Definition modify {E} (f : World -> World) : Act E unit := fun w => (Ok tt, f w).
(** [match self.f().await { Ok(..) => .., Err(..) => .. }] *)
Definition attempt {E F A} (m : Act E A) : Act F (result E A) := fun w => let '(r, w) := m w in (Ok r, w).
(** [map_err] *)
Definition failing_with {E F A} (f : E -> F) (m : Act E A) : Act F A :=
  fun w => let '(r, w) := m w in (map_err f r, w).
Definition in_context {A} (message : string) (m : Act HostError A) : Act HostError A :=
  failing_with (Wrap message) m.

Definition update {E} (f : XraySupervisor -> XraySupervisor) : Act E unit := modify (on_supervisor f).
Definition supervisor {E} : Act E XraySupervisor := gets w_supervisor.

Section Supervisor.
Context `{Sha : Sha256} `{Json : NodeJson} (env : nat -> Answer).

(** A call of the outside takes time. *)
Definition ask {E} : Act E Answer := fun w =>
  let a := env (w_asked w) in (Ok a, pass (Z.of_N (an_elapsed a)) (asked w)).
Definition outside : Act HostError unit :=
  a ← ask; if an_succeeds a then mret tt else fail System.

(** [Instant::now], [sleep], which takes no less than it was asked to, and
    [unix_timestamp] *)
Definition instant_now {E} : Act E Z := _ ← ask; gets w_now.
Definition sleep {E} (d : Z) : Act E unit := _ ← modify (pass d); _ ← ask; mret tt.
Definition unix_timestamp : Act HostError Z :=
  a ← ask;
  _ ← lift (ensure (0 <=? an_wall a) (Wrap "system clock is before the Unix epoch" System));
  let seconds := an_wall a / NANOS in
  _ ← lift (ensure (seconds <=? i64_max) (Wrap "current timestamp does not fit SQLite INTEGER" System));
  mret seconds.

(** [timestamp_from_unix]: [OffsetDateTime::from_unix_timestamp], which covers
    the years -9999 to 9999 *)
Definition timestamp_from_unix (value : Z) : host_result OffsetDateTime :=
  _ ← ensure ((-377705116800 <=? value) && (value <=? 253402300799)) System;
  Ok (timestamp_from_datetime (mkTime (value * NANOS) 0)).

(** Opening the database and reading it, and one transaction on it *)
Definition query {A} (f : Db -> host_result A) : Act HostError A :=
  a ← ask;
  if an_database a then db ← gets w_db; lift (f db) else fail Sqlite.
Definition transact {A} (f : Db -> host_result (A * Db)) : Act HostError A :=
  a ← ask;
  if an_database a then
    db ← gets w_db;
    '(result, db) ← lift (f db);
    match an_commit a with
    | CommitDone => _ ← modify (on_db db); mret result
    | CommitLost => fail Sqlite
    | CommitUnconfirmed => _ ← modify (on_db db); fail Sqlite
    end
  else fail Sqlite.
Definition write (f : Db -> host_result Db) : Act HostError unit :=
  transact (fun db => db ← f db; Ok (tt, db)).

(** ** Candidates *)

(** [Path] equality: separators that repeat or trail and inner [.] components
    do not count *)
Definition path_components (path : string) : bool * list (list byte) :=
  let parts := split_on "/"%byte (as_bytes path) in
  (starts_with (as_bytes "/") (as_bytes path),
   match parts with
   | first :: rest =>
       (if bool_decide (first = []) then [] else [first])
       ++ filter (fun p => p <> [] /\ p <> as_bytes ".") rest
   | [] => []
   end).
Definition same_path (a b : string) : bool := bool_decide (path_components a = path_components b).

(** [verify_config_file] *)
Definition MAX_STORED_CONFIG_BYTES : Z := 2 * 1024 * 1024.
Definition verify_config_file (path expected_digest : string) : Act HostError unit :=
  a ← ask;
  metadata ← lift (ok_or (an_file a path) (Wrap "failed to inspect rendered Xray config" System));
  _ ← lift (ensure (negb (fa_symlink metadata || negb (fa_regular metadata)))
        (Bail "rendered Xray config must be a regular non-symlink file"));
  _ ← lift (ensure (negb ((fa_len metadata =? 0) || (MAX_STORED_CONFIG_BYTES <? fa_len metadata)))
        (Bail "rendered Xray config size is invalid"));
  _ ← lift (ensure (fa_owner_only metadata) System);
  contents ← lift (ok_or (fa_contents metadata) (Wrap "failed to read rendered Xray config" System));
  lift (ensure (bool_decide (protocol_digest contents = expected_digest))
         (Bail "rendered Xray config digest is invalid")).

(** [verify_rendered_config] *)
Definition verify_rendered_config (revision : Z) (report : RevisionResult) : Act HostError unit :=
  stored ← query (fun db => load_rendered_config_row db revision);
  _ ← lift (ensure (same_path (rd_relative_path stored) (config_relative_path revision))
        (Bail "stored rendered Xray config path is invalid"));
  _ ← lift (ensure (bool_decide (rr_config_digest report = Some (rd_config_digest stored)))
        (Bail "validated revision config digest is inconsistent"));
  _ ← lift (ok_or (runtime_from_hex (rd_binary_digest stored))
        (Bail "validated revision has an invalid historical Xray binary digest"));
  verify_config_file (config_relative_path revision) (rd_config_digest stored).

(** [load_validated_candidate], [load_candidate] *)
Definition load_candidate (revision : Z) : Act HostError ValidatedXrayCandidate :=
  reports ← query (fun db => load_revision_results db revision);
  latest ← lift (present_or "validated Xray candidate has no revision result" (snd <$> last reports));
  _ ← lift (ensure (match rr_state latest with RsValidated | RsApplied => true | _ => false end)
        (Bail "revision is not eligible to run as an Xray candidate"));
  _ ← verify_rendered_config revision latest;
  row ← query (fun db => load_rendered_config_row db revision);
  runtime ← query (fun db => present_or "validated candidate has no Xray runtime" (runtime db));
  _ ← lift (ensure (bool_decide (rt_expected_sha256 runtime = rd_binary_digest row))
        (Bail "validated candidate was tested with a different pinned Xray binary"));
  config_digest ← lift (map_err (fun _ => Bail "validated candidate config digest is invalid")
                    (digest_from_str (rd_config_digest row)));
  binary_digest ← lift (ok_or (runtime_from_hex (rd_binary_digest row))
                    (Bail "validated candidate binary digest is invalid"));
  _ ← lift (ensure (same_path (rd_relative_path row) (config_relative_path revision))
        (Bail "validated candidate config path is invalid"));
  config_path ← (a ← ask; if an_succeeds a then mret (an_path a)
                          else fail (Wrap "validated candidate config path is unavailable" System));
  artifact ← query (fun db => context "validated candidate desired-state artifact is missing"
               (ok_or (artifacts db !! revision) Sqlite));
  envelope ← lift (ok_or (envelope_from_str (ar_envelope_json artifact))
               (Wrap "validated candidate desired-state artifact is invalid" Serde));
  _ ← lift (ensure (ds_revision (sd_document envelope) =? revision)
        (Bail "validated candidate desired-state revision is inconsistent"));
  mret (mkCandidate revision config_path config_digest (rt_binary_path runtime) binary_digest
          (listen_port (ds_xray (sd_document envelope))) (xray_public_port (ds_xray (sd_document envelope)))).

(** ** The journal *)

(** [finalize_applied] *)
Definition finalize_applied (candidate : ValidatedXrayCandidate) : Act HostError unit :=
  now ← unix_timestamp;
  timestamp ← lift (timestamp_from_unix now);
  started ← query (fun db => journal_started_at db (vc_revision candidate));
  started ← lift (timestamp_from_unix started);
  let result := mkResult RsApplied (Some (vc_config_digest candidate)) started timestamp None None in
  write (fun db => commit_applied db candidate result now).

(** [finalize_rolled_back], [finalize_rejected], [mark_recovery_required] *)
Definition finalize_rolled_back (j : ActivationJournal) (previous : ValidatedXrayCandidate)
    (error_code : ApiErrorCode) : Act HostError unit :=
  now ← unix_timestamp;
  started ← lift (timestamp_from_unix (aj_started_at j));
  completed ← lift (timestamp_from_unix now);
  let result := mkResult RsRolledBack (Some (vc_config_digest previous)) started completed (Some error_code)
                  (Some (vc_revision previous)) in
  write (fun db => commit_rolled_back db (aj_revision j) result error_code now).
Definition finalize_rejected (j : ActivationJournal) (error_code : ApiErrorCode) : Act HostError unit :=
  now ← unix_timestamp;
  started ← lift (timestamp_from_unix (aj_started_at j));
  completed ← lift (timestamp_from_unix now);
  let result := mkResult RsRejected None started completed (Some error_code) None in
  write (fun db => commit_rejected db (aj_revision j) result error_code now).
Definition mark_recovery_required (revision : Z) (error_code : ApiErrorCode) : Act HostError unit :=
  now ← unix_timestamp;
  write (fun db => commit_recovery_required db revision error_code now).

(** [resolve_superseded_journal] *)
Definition resolve_superseded_journal (j : ActivationJournal) : Act HostError unit :=
  match aj_previous_revision j with
  | Some previous_revision =>
      active ← query load_active_state;
      active ← lift (present_or "superseded activation journal has no active predecessor" active);
      _ ← lift (ensure (as_revision active =? previous_revision)
            (Bail "superseded activation predecessor does not match active state"));
      previous ← load_candidate previous_revision;
      finalize_rolled_back j previous StateStale
  | None => finalize_rejected j StateStale
  end.

(** ** The child process and the gate *)

(** [ManagedXrayChild::try_wait], [kill_and_wait] *)
Definition try_wait (pid : nat) : Act HostError bool :=
  a ← ask;
  if an_succeeds a then
    if an_exited a then
      _ ← modify (fun w => on_log (EvReaped pid) (on_processes (w_processes w ∖ {[pid]}) w)); mret true
    else _ ← modify (on_log (EvAlive pid)); mret false
  else fail System.
Definition kill_and_wait (pid : nat) : Act HostError unit :=
  a ← ask;
  if an_succeeds a
  then modify (fun w => on_log (EvReaped pid) (on_processes (w_processes w ∖ {[pid]}) w))
  else fail System.

(** [clear_running_marker], [own_child], [mark_running] *)
Definition clear_running_marker {E} : Act E unit := update (set_running None None None).
Definition own_child {E} (pid : nat) : Act E unit :=
  _ ← update (set_child (Some pid)); clear_running_marker.
Definition mark_running {E} (candidate : ValidatedXrayCandidate) : Act E unit :=
  now ← instant_now;
  update (set_running (Some (vc_revision candidate)) (vc_public_port candidate)
            ((fun _ => now) <$> vc_public_port candidate)).

(** [owned_child_status]: whether the child exited *)
Definition owned_child_status : Act HostError bool :=
  s ← supervisor;
  pid ← lift (present_or "managed Xray child ownership was lost" (sv_child s));
  exited ← try_wait pid;
  if exited : bool then _ ← update (set_child None); _ ← clear_running_marker; mret true else mret false.

(** [stop_runtime]: the gate, then the child, even when the gate failed *)
Definition stop_gate {E} : Act E (option HostError) :=
  s ← supervisor;
  match sv_admission s with
  | Some _ =>
      a ← ask;
      _ ← update (set_counters (an_counters a));
      shutdown ← attempt outside;
      mret (match shutdown with Err e => Some e | Ok _ => None end)
  | None => mret None
  end.
Definition stop_child (admission_error : option HostError) : Act HostError unit :=
  s ← supervisor;
  match sv_child s with
  | Some pid =>
      failing_with (fun error =>
        match admission_error with
        | Some admission_error =>
            WrapWith "admission cleanup also failed before Xray cleanup" admission_error error
        | None => error
        end) (kill_and_wait pid)
  | None => mret tt
  end.
Definition stop_runtime : Act HostError unit :=
  _ ← clear_running_marker;
  admission_error ← stop_gate;
  _ ← update (set_admission None);
  _ ← stop_child admission_error;
  _ ← update (set_child None);
  match admission_error with Some error => fail error | None => mret tt end.

(** [ActivationFailure] *)
Record ActivationFailure : Type := mkFailure { af_code : ApiErrorCode; af_error : HostError }.
Definition failure_of (code : ApiErrorCode) (e : HostError) : ActivationFailure := mkFailure code e.

(** [stop_after_health_failure] *)
Definition stop_after_health_failure {E} (failure : ActivationFailure) : Act E ActivationFailure :=
  stopped ← attempt stop_runtime;
  mret match stopped with Ok _ => failure | Err error => mkFailure RollbackFailed error end.

(** [spawn_candidate]; the last two answers are those of the checks of binary
    and configuration and of [start_managed] *)
Definition spawn_candidate (candidate : ValidatedXrayCandidate) : Act ActivationFailure nat :=
  config_hex ← lift (ok_or (strip_prefix (as_bytes "sha256:") (as_bytes (vc_config_digest candidate)))
                 (mkFailure XrayStartFailed (Bail "invalid config digest")));
  _ ← lift (ok_or (runtime_from_hex (str_of_bytes config_hex)) (mkFailure XrayStartFailed System));
  _ ← lift (ensure (starts_with (as_bytes "/") (as_bytes (vc_binary_path candidate)))
        (mkFailure XrayStartFailed System));
  _ ← lift (ensure (starts_with (as_bytes "/") (as_bytes (vc_config_path candidate)))
        (mkFailure XrayStartFailed System));
  _ ← failing_with (failure_of XrayStartFailed) outside;
  a ← ask;
  if an_succeeds a then
    pid ← gets w_asked;
    _ ← modify (fun w => on_log (EvSpawned pid candidate) (on_processes ({[pid]} ∪ w_processes w) w));
    mret pid
  else fail (mkFailure XrayStartFailed System).

(** [listener_is_ready] at [127.0.0.1] and a port; a connection that takes longer
    than its limit is an answer that does not succeed *)
Definition listener_is_ready {E} (port : Z) : Act E bool :=
  a ← ask;
  if an_succeeds a then _ ← modify (fun w => on_log (EvListening port (w_now w)) w); mret true else mret false.

(** The loops of [prove_owned_child_healthy] *)
Fixpoint wait_until_listening (fuel : nat) (listen_port startup_deadline : Z) : Act ActivationFailure unit :=
  match fuel with
  | O => fail (mkFailure ApiInternal Diverges)
  | S fuel =>
      exited ← failing_with (failure_of XrayStartFailed) owned_child_status;
      if exited : bool then fail (mkFailure XrayStartFailed (Bail "managed Xray exited during startup"))
      else
        ready ← listener_is_ready listen_port;
        if ready : bool then mret tt
        else
          now ← instant_now;
          if startup_deadline <=? now then
            failure ← stop_after_health_failure
              (mkFailure XrayUnhealthy (Bail "managed Xray loopback listener did not become ready"));
            fail failure
          else
            s ← supervisor;
            _ ← sleep (op_probe_interval (sv_options s));
            wait_until_listening fuel listen_port startup_deadline
  end.
Fixpoint stabilize (fuel : nat) (stabilization_deadline : Z) : Act ActivationFailure unit :=
  match fuel with
  | O => fail (mkFailure ApiInternal Diverges)
  | S fuel =>
      now ← instant_now;
      if now <? stabilization_deadline then
        exited ← failing_with (failure_of XrayUnhealthy) owned_child_status;
        if exited : bool then fail (mkFailure XrayUnhealthy (Bail "managed Xray exited during stabilization"))
        else
          s ← supervisor;
          _ ← sleep (op_probe_interval (sv_options s));
          stabilize fuel stabilization_deadline
      else mret tt
  end.
(** A loop that sleeps [interval] in every round ends within this many rounds
    of a deadline [duration] away. *)
Definition rounds (duration interval : Z) : nat := S (S (Z.to_nat (duration / interval))).
Definition prove_owned_child_healthy (listen_port : Z) : Act ActivationFailure unit :=
  s ← supervisor;
  let o := sv_options s in
  start ← instant_now;
  _ ← wait_until_listening (rounds (op_startup_timeout o) (op_probe_interval o)) listen_port (start + op_startup_timeout o);
  start ← instant_now;
  _ ← stabilize (rounds (op_stabilization_duration o) (op_probe_interval o))
        (start + op_stabilization_duration o);
  ready ← listener_is_ready listen_port;
  if ready : bool then mret tt
  else
    failure ← stop_after_health_failure
      (mkFailure XrayUnhealthy (Bail "managed Xray loopback listener became unavailable"));
    fail failure.

(** [AdmissionGate::start], [start_admission] *)
Definition gate_start (public_port backend_port : Z) (options : AdmissionOptions) : Act HostError AdmissionGate :=
  _ ← lift (ensure (negb ((public_port =? 0) || (backend_port =? 0) || (public_port =? backend_port)))
        (Bail "admission public and backend ports must be distinct and non-zero"));
  options ← lift (admission_validate options);
  _ ← outside;
  mret (mkGate public_port backend_port options).
Definition start_admission (candidate : ValidatedXrayCandidate) : Act ActivationFailure unit :=
  match vc_public_port candidate with
  | None => mret tt
  | Some public_port =>
      s ← supervisor;
      gate ← failing_with (failure_of AdmissionBindFailed)
               (gate_start public_port (vc_listen_port candidate) (op_admission (sv_options s)));
      _ ← update (set_counters default_counters);
      _ ← update (set_admission (Some gate));
      _ ← failing_with (failure_of AdmissionUnhealthy)
            (_ ← outside; modify (on_log (EvGateReady public_port)));
      exited ← failing_with (failure_of XrayUnhealthy) owned_child_status;
      if exited : bool then
        fail (mkFailure XrayUnhealthy (Bail "managed Xray exited while the admission gate was starting"))
      else mret tt
  end.

(** [start_proven_candidate] *)
Definition start_proven_candidate (candidate : ValidatedXrayCandidate) : Act ActivationFailure unit :=
  child ← spawn_candidate candidate;
  _ ← own_child child;
  healthy ← attempt (prove_owned_child_healthy (vc_listen_port candidate));
  match healthy with
  | Err failure => failure ← stop_after_health_failure failure; fail failure
  | Ok _ =>
      admitted ← attempt (start_admission candidate);
      match admitted with
      | Err failure => failure ← stop_after_health_failure failure; fail failure
      | Ok _ => mark_running candidate
      end
  end.

(** ** The supervisor *)

(** [XraySupervisor::new], [admission_counters] *)
Definition supervisor_new (options : ActivationOptions) : host_result XraySupervisor :=
  options ← options_validate options;
  Ok (mkSupervisor None None None None None default_counters options).
Definition admission_counters {E} : Act E AdmissionCounters :=
  s ← supervisor;
  match sv_admission s with
  | Some _ => a ← ask; mret (an_counters a)
  | None => mret (sv_last_admission_counters s)
  end.

(** [configure_admission_limits] *)
Definition configure_admission_limits (max_connections : Z) (bandwidth_limit_bps : option Z) : Act HostError unit :=
  s ← supervisor;
  let o := op_admission (sv_options s) in
  let admission := mkAdmissionOptions max_connections bandwidth_limit_bps (ao_connect_timeout o)
                     (ao_canary_timeout o) (ao_probe_interval o) (ao_accept_error_backoff o) in
  _ ← lift (admission_validate admission);
  if bool_decide (admission = o) then mret tt
  else
    _ ← update (set_options (mkOptions (op_startup_timeout (sv_options s))
                 (op_stabilization_duration (sv_options s)) (op_probe_interval (sv_options s)) admission));
    if bool_decide (is_Some (sv_child s)) || bool_decide (is_Some (sv_admission s))
    then stop_runtime else mret tt.

(** [observe_runtime_state] *)
Definition observe_runtime_state : Act HostError NodeRuntimeState :=
  s ← supervisor;
  match sv_child s with
  | None => _ ← clear_running_marker; mret RunIdle
  | Some pid =>
      exited ← try_wait pid;
      if exited : bool then _ ← update (set_child None); _ ← clear_running_marker; mret RunIdle
      else
        match sv_running_revision s, sv_running_public_port s with
        | None, _ => mret RunIdle
        | Some _, Some _ =>
            match sv_admission s with
            | None => _ ← clear_running_marker; mret RunIdle
            | Some _ =>
                a ← ask;
                if an_running a then mret RunServing else _ ← clear_running_marker; mret RunIdle
            end
        | Some _, None => mret RunDegraded
        end
  end.
Definition is_live (s : NodeRuntimeState) : bool :=
  match s with RunServing | RunDegraded => true | _ => false end.

(** [router_mapping_target]: revision and port *)
Definition router_mapping_target : Act HostError (option (Z * Z)) :=
  state ← observe_runtime_state;
  match state with
  | RunServing =>
      s ← supervisor;
      revision ← lift (present_or "serving Xray runtime has no applied revision" (sv_running_revision s));
      internal_port ← lift (present_or "serving Xray runtime has no admission port" (sv_running_public_port s));
      mret (Some (revision, internal_port))
  | _ => mret None
  end.

(** [ensure_active_running] *)
Definition restart_active (active : ActiveState) : Act HostError unit :=
  _ ← stop_runtime;
  candidate ← load_candidate (as_revision active);
  _ ← lift (ensure (bool_decide (vc_config_digest candidate = as_config_digest active)
              && bool_decide (runtime_to_string (vc_binary_digest candidate) = as_binary_digest active))
        (Bail "active Xray pointer does not match its verified candidate"));
  _ ← failing_with af_error (start_proven_candidate candidate);
  write (fun db => record_active_restart db (as_revision active)).
Definition ensure_active_running : Act HostError unit :=
  active ← query load_active_state;
  match active with
  | None =>
      s ← supervisor;
      if bool_decide (is_Some (sv_child s)) || bool_decide (is_Some (sv_admission s))
      then stop_runtime else mret tt
  | Some active =>
      s ← supervisor;
      if bool_decide (sv_running_revision s = Some (as_revision active)) then
        state ← observe_runtime_state;
        if is_live state then mret tt else restart_active active
      else restart_active active
  end.

(** [restore_after_commit_failure] *)
Definition restore_after_commit_failure (previous : option ValidatedXrayCandidate) : Act HostError unit :=
  _ ← in_context "uncommitted candidate runtime could not be stopped" stop_runtime;
  match previous with
  | None => mret tt
  | Some previous =>
      in_context "previous runtime could not be restored after commit failure"
        (failing_with af_error (start_proven_candidate previous))
  end.

(** [resolve_commit_failure] *)
Definition durable_revision (db : Db) : host_result (option Z) :=
  active ← load_active_state db; Ok (option_map as_revision active).
Definition resolve_commit_failure (candidate : ValidatedXrayCandidate) (previous : option ValidatedXrayCandidate)
    (commit_error : HostError) : Act HostError unit :=
  durable ← attempt (query durable_revision);
  match durable with
  | Err state_error =>
      cleanup ← attempt stop_runtime;
      _ ← lift (context "unconfirmed candidate runtime could not be stopped safely" cleanup);
      fail (WrapWith "candidate commit failed and durable state cannot be confirmed" commit_error state_error)
  | Ok durable_revision =>
      if bool_decide (durable_revision = Some (vc_revision candidate)) then
        _ ← mark_running candidate;
        fail (Wrap "candidate commit returned an error but durable state confirms it applied" commit_error)
      else if bool_decide (durable_revision = vc_revision <$> previous) then
        restored ← attempt (restore_after_commit_failure previous);
        match restored with
        | Err restore_error =>
            _ ← mark_recovery_required (vc_revision candidate) RollbackFailed;
            fail (WrapWith "candidate durable commit also failed before rollback" commit_error restore_error)
        | Ok _ => fail (Wrap "candidate durable commit failed; previous runtime restored" commit_error)
        end
      else
        cleanup ← attempt stop_runtime;
        _ ← mark_recovery_required (vc_revision candidate) StateConflict;
        _ ← lift (context "inconsistent post-commit runtime could not be stopped" cleanup);
        fail (Wrap "candidate commit left an unexpected durable active revision" commit_error)
  end.

(** [handle_activation_failure] *)
Definition handle_activation_failure (candidate : ValidatedXrayCandidate)
    (previous : option ValidatedXrayCandidate) (attempts : Z) (failure : ActivationFailure) : Act HostError unit :=
  stopped ← attempt stop_runtime;
  match stopped with
  | Err error =>
      _ ← mark_recovery_required (vc_revision candidate) RollbackFailed;
      fail (Wrap "failed node runtime could not be stopped safely" error)
  | Ok _ =>
      match previous with
      | Some previous =>
          restarted ← attempt (start_proven_candidate previous);
          match restarted with
          | Err _ =>
              cleanup ← attempt stop_runtime;
              _ ← mark_recovery_required (vc_revision candidate) RollbackFailed;
              _ ← lift (context "failed rollback runtime could not be cleaned up" cleanup);
              fail (Bail "previous runtime failed rollback health checks")
          | Ok _ =>
              _ ← in_context "previous runtime restored but rollback journal update failed"
                    (write (fun db => update_journal_phase db (vc_revision candidate) JRollingBack
                                        (Some (af_code failure))));
              j ← query (fun db => load_journal db (vc_revision candidate));
              _ ← finalize_rolled_back j previous (af_code failure);
              write (fun db => record_active_restart db (vc_revision previous))
          end
      | None =>
          if MAX_ACTIVATION_ATTEMPTS_WITHOUT_PREDECESSOR <=? attempts then
            j ← query (fun db => load_journal db (vc_revision candidate));
            finalize_rejected j (af_code failure)
          else
            _ ← write (fun db => update_journal_phase db (vc_revision candidate) JRetryPending
                                   (Some (af_code failure)));
            fail (Wrap "initial Xray activation failed; retry scheduled" (af_error failure))
      end
  end.

(** [stabilize_and_commit_candidate] *)
Definition stabilize_and_commit_candidate (candidate : ValidatedXrayCandidate)
    (previous : option ValidatedXrayCandidate) (attempts : Z) : Act HostError unit :=
  journaled ← attempt (write (fun db => update_journal_phase db (vc_revision candidate) JStabilizing None));
  match journaled with
  | Err journal_error =>
      restored ← attempt (restore_after_commit_failure previous);
      match restored with
      | Err restore_error =>
          _ ← mark_recovery_required (vc_revision candidate) RollbackFailed;
          fail (WrapWith "candidate journal transition also failed before rollback" journal_error restore_error)
      | Ok _ => fail (Wrap "candidate journal transition failed; previous runtime restored" journal_error)
      end
  | Ok _ =>
      activation_result ← attempt (_ ← prove_owned_child_healthy (vc_listen_port candidate); start_admission candidate);
      match activation_result with
      | Ok _ =>
          committed ← attempt (finalize_applied candidate);
          match committed with
          | Err commit_error => resolve_commit_failure candidate previous commit_error
          | Ok _ => mark_running candidate
          end
      | Err failure => handle_activation_failure candidate previous attempts failure
      end
  end.

(** [reconcile] *)
Definition activate (candidate : ValidatedXrayCandidate) (previous : option ValidatedXrayCandidate)
    (attempts : Z) : Act HostError unit :=
  stopped ← attempt stop_runtime;
  match stopped with
  | Err error =>
      _ ← mark_recovery_required (vc_revision candidate) RollbackFailed;
      fail (Wrap "existing node runtime could not be stopped safely" error)
  | Ok _ =>
      spawned ← attempt (spawn_candidate candidate);
      match spawned with
      | Err failure => handle_activation_failure candidate previous attempts failure
      | Ok child =>
          _ ← own_child child;
          stabilize_and_commit_candidate candidate previous attempts
      end
  end.
Definition reconcile : Act HostError unit :=
  _ ← ensure_active_running;
  pending_revision ← query load_pending_revision;
  active ← query load_active_state;
  match pending_revision with
  | None => mret tt
  | Some revision =>
      if bool_decide (option_map as_revision active = Some revision) then mret tt
      else
        incomplete ← query load_incomplete_journal;
        _ ← match incomplete with
            | Some j => if aj_revision j =? revision then mret tt else resolve_superseded_journal j
            | None => mret tt
            end;
        candidate ← load_candidate revision;
        previous ← match active with
                   | Some state => p ← load_candidate (as_revision state); mret (Some p)
                   | None => mret None
                   end;
        now ← unix_timestamp;
        attempts ← transact (fun db => begin_activation db revision (option_map vc_revision previous) now);
        activate candidate previous attempts
  end.

(** [recover_interrupted], [recover] *)
Definition recover_interrupted (active : option ActiveState) (j : ActivationJournal) : Act HostError unit :=
  if phase_is_terminal (aj_phase j)
  then fail (Bail "terminal Xray activation journal cannot enter recovery")
  else
    match aj_previous_revision j with
    | Some previous_revision =>
        active ← lift (present_or "activation journal predecessor has no active-state pointer" active);
        if negb (as_revision active =? previous_revision) then
          _ ← mark_recovery_required (aj_revision j) RollbackFailed;
          fail (Bail "activation journal predecessor does not match active state")
        else
          running ← attempt ensure_active_running;
          match running with
          | Err recovery_error =>
              cleanup ← attempt stop_runtime;
              _ ← mark_recovery_required (aj_revision j) RollbackFailed;
              _ ← lift (context "failed recovery runtime could not be cleaned up" cleanup);
              fail (Wrap "activation predecessor could not be restored during recovery" recovery_error)
          | Ok _ =>
              previous ← load_candidate previous_revision;
              finalize_rolled_back j previous XrayUnhealthy
          end
    | None =>
        if MAX_ACTIVATION_ATTEMPTS_WITHOUT_PREDECESSOR <=? aj_attempt_count j
        then finalize_rejected j XrayStartFailed
        else write (fun db => update_journal_phase db (aj_revision j) JRetryPending (Some XrayStartFailed))
    end.
Definition recover : Act HostError unit :=
  active ← query load_active_state;
  interrupted ← query load_incomplete_journal;
  _ ← match interrupted with Some j => recover_interrupted active j | None => mret tt end;
  ensure_active_running.

(** [admission_probe_is_due], [poll], [shutdown] *)
Definition admission_probe_is_due {E} : Act E bool :=
  s ← supervisor;
  match sv_last_admission_probe s with
  | Some last_probe => now ← instant_now; mret (RUNTIME_ADMISSION_PROBE_INTERVAL <=? now - last_probe)
  | None => mret true
  end.
Definition poll : Act HostError unit :=
  state ← observe_runtime_state;
  if is_live state then
    due ← (if bool_decide (state = RunServing) then admission_probe_is_due else mret false);
    if due : bool then
      s ← supervisor;
      _ ← lift (present_or "serving runtime lost admission ownership" (sv_admission s));
      probe ← attempt outside;
      match probe with
      | Err probe_error =>
          cleanup ← attempt stop_runtime;
          _ ← lift (context "unhealthy admission runtime could not be stopped" cleanup);
          fail (Wrap "applied admission backend failed its runtime health check" probe_error)
      | Ok _ =>
          now ← instant_now;
          update (fun s => set_running (sv_running_revision s) (sv_running_public_port s) (Some now) s)
      end
    else mret tt
  else ensure_active_running.
Definition shutdown : Act HostError unit := stop_runtime.
End Supervisor.
