(* ===== verification/NodeHostSync.v ===== *)
(** * Desired state on a node host

    [src/node-host/src/sync.rs] and [xray.rs]: a signed desired state is
    verified, stored, rendered and tested, and every result is reported to
    the controller. What a request to the controller returns and what Xray
    says are answers of the outside; [semver] is a parameter. *)
From stdpp Require Import sorting.
From S2P Require Import Prelude Text Clock ProtoTypes ProtoAuth ProtoNode ProtoSigned NodeHostDb NodeHostRuntime.
Open Scope Z_scope.

(** The [semver] crate *)
Class Semver : Type := {
  Version : Type;
  version_parse : string -> option Version;
  version_lt : Version -> Version -> bool;
}.

(** [SyncRegistration] *)
Record SyncRegistration : Type := mkRegistration {
  sg_network : NetworkId;
  sg_node : NodeId;
  sg_controller_instance : ControllerInstanceId;
  sg_controller_signing_public_key : string;
}.

Definition SUPPORTED_DESIRED_SCHEMAS : list Z := [1; 2].
Definition CARGO_PKG_VERSION : string := "0.1.0".
Definition MAX_PENDING_REPORTS_PER_SYNC : nat := 64.

Section Sync.
Context `{U : UuidText} `{R : Rfc3339} `{B : Base64} `{Sha : Sha256} `{Ed : Ed25519}.
Context `{Json : NodeJson} `{Sv : Semver} (env : nat -> Answer).

(** ** Receiving *)

(** The checks [persist_verified_desired_state] and
    [verify_persisted_desired_state] share, under their own messages *)
Definition check_envelope (registration : SyncRegistration) (last_seen : option Z) (prefix : string)
    (envelope : SignedDesiredState) : host_result unit :=
  let document := sd_document envelope in
  _ ← validated (String.append prefix " desired-state document failed validation")
        (signed_validate_for envelope (sg_network registration) (sg_node registration)
           (sg_controller_instance registration) last_seen SUPPORTED_DESIRED_SCHEMAS);
  key_id ← map_err (fun _ => Bail "pinned controller signing public key is invalid")
             (ed25519_signing_key_id (sg_controller_signing_public_key registration));
  _ ← ensure (bool_decide (ds_signing_key_id document = key_id))
        (Bail (String.append prefix " desired-state signing key identity is invalid"));
  map_err (fun _ => Bail (String.append prefix " desired-state signature is invalid"))
    (verify_desired_state_signature document (sd_signature envelope)
       (sg_controller_signing_public_key registration)).

(** [persist_verified_desired_state] *)
Definition persist_verified_desired_state (registration : SyncRegistration) (previous_revision_cursor : Z)
    (body : list byte) : Act HostError SignedDesiredState :=
  envelope ← lift (ok_or (envelope_from_slice body)
               (Wrap "controller returned invalid desired-state JSON" Serde));
  previous_revision ←
    lift (if previous_revision_cursor =? 0 then Ok None
          else r ← map_err (fun _ => Bail "stored desired revision cursor is invalid")
                     (positive_new previous_revision_cursor);
               Ok (Some r));
  _ ← lift (check_envelope registration previous_revision "controller" envelope);
  canonical_envelope ← lift (ok_or (envelope_to_string envelope)
                         (Wrap "failed to encode desired-state artifact" Serde));
  transcript ← lift (map_err (fun _ => Bail "failed to encode desired-state transcript")
                 (desired_state_transcript (sd_document envelope)));
  now ← unix_timestamp env;
  timestamp ← lift (timestamp_from_unix now);
  let result := mkResult RsReceived None timestamp timestamp None None in
  let revision := ds_revision (sd_document envelope) in
  _ ← lift (validated "generated revision result is invalid" (result_validate result revision));
  report_json ← lift (ok_or (report_to_string result) (Wrap "failed to encode revision result" Serde));
  _ ← write env (fun db => commit_desired_state db previous_revision_cursor revision
        (mkArtifact canonical_envelope (protocol_digest (as_bytes canonical_envelope)) (protocol_digest transcript))
        report_json (protocol_digest (as_bytes report_json)));
  mret envelope.

(** [verify_persisted_desired_state] *)
Definition highest_artifact (db : Db) : Z := default 0 (highest ((map_to_list (artifacts db)).*1)).
Definition verify_persisted_desired_state (registration : SyncRegistration) (cursor : Z)
    : Act HostError (option SignedDesiredState) :=
  highest ← query env (fun db => Ok (highest_artifact db));
  _ ← lift (ensure (highest =? cursor)
        (Bail "stored desired-state cursor does not match its immutable artifact"));
  if cursor =? 0 then mret None
  else
    stored ← query env (fun db => present_or "stored desired-state artifact is missing" (artifacts db !! cursor));
    envelope ← lift (ok_or (envelope_from_str (ar_envelope_json stored))
                 (Wrap "stored desired-state artifact is invalid" Serde));
    _ ← lift (ensure (ds_revision (sd_document envelope) =? cursor)
          (Bail "stored desired-state artifact revision is inconsistent"));
    _ ← lift (check_envelope registration None "stored" envelope);
    transcript ← lift (map_err (fun _ => Bail "stored desired-state transcript is invalid")
                   (desired_state_transcript (sd_document envelope)));
    _ ← lift (ensure (bool_decide (protocol_digest (as_bytes (ar_envelope_json stored)) = ar_envelope_digest stored)
                && bool_decide (protocol_digest transcript = ar_transcript_digest stored))
          (Bail "stored desired-state artifact digest is invalid"));
    mret (Some envelope).

(** ** Validation *)

(** [minimum_agent_version_error] *)
Definition minimum_agent_version_error (required : string) : host_result (option ApiErrorCode) :=
  current ← present_or "Node Host package version is not semantic" (version_parse CARGO_PKG_VERSION);
  match version_parse required with
  | None => Ok (Some SchemaUnsupported)
  | Some required => Ok (if version_lt current required then Some SchemaUnsupported else None)
  end.

(** [validation_is_complete] *)
Definition validation_is_complete (revision : Z) : Act HostError bool :=
  reports ← query env (fun db => load_revision_results db revision);
  first ← lift (present_or "desired-state revision is missing its received result" (snd <$> head reports));
  _ ← lift (ensure (bool_decide (rr_state first = RsReceived))
        (Bail "desired-state revision result history does not begin with received"));
  _ ← lift (valid_history reports.*2);
  latest ← lift (present_or "received result exists" (snd <$> last reports));
  match rr_state latest with
  | RsReceived => mret false
  | RsValidated | RsApplied => _ ← verify_rendered_config env revision latest; mret true
  | RsRejected | RsRolledBack => mret true
  end.

(** [append_rejected_result], [append_validated_result]; the wall clock is read
    as [OffsetDateTime::now_utc] *)
Definition now_utc : Act HostError OffsetDateTime :=
  a ← ask env; mret (timestamp_from_datetime (mkTime (an_wall a) 0)).
Definition append_rejected_result (revision : Z) (started_at : OffsetDateTime) (error_code : ApiErrorCode)
    : Act HostError unit :=
  completed_at ← now_utc;
  write env (fun db => insert_revision_result db revision
    (mkResult RsRejected None started_at completed_at (Some error_code) None)).
Definition append_validated_result (revision : Z) (started_at : OffsetDateTime)
    (relative_path config_digest binary_digest : string) : Act HostError unit :=
  completed_at ← now_utc;
  write env (fun db => commit_validated db revision relative_path config_digest binary_digest
    (mkResult RsValidated (Some config_digest) started_at completed_at None None)).

(** [validate_desired_state]; the answers are those of the pinned binary's
    verification, the REALITY identity, [render_desired_config],
    [test_config] and [persist_immutable_config] *)
Definition validate_desired_state (envelope : SignedDesiredState) : Act HostError unit :=
  let revision := ds_revision (sd_document envelope) in
  complete ← validation_is_complete revision;
  if complete : bool then mret tt
  else
    runtime ← query env (fun db => Ok (runtime db));
    match runtime with
    | None => mret tt
    | Some runtime =>
        started_at ← now_utc;
        too_old ← lift (minimum_agent_version_error (ds_min_agent_version (sd_document envelope)));
        match too_old with
        | Some error_code => append_rejected_result revision started_at error_code
        | None =>
            _ ← lift (present_or "stored Xray runtime checksum is invalid"
                  (runtime_from_hex (rt_expected_sha256 runtime)));
            _ ← in_context "pinned Xray binary verification failed" (outside env);
            _ ← in_context "stored REALITY identity is unavailable" (outside env);
            a ← ask env;
            match an_rendered a with
            | None => append_rejected_result revision started_at ValidationFailed
            | Some config =>
                t ← ask env;
                match an_test t (rt_expected_sha256 runtime) config with
                | TestRejected => append_rejected_result revision started_at ValidationFailed
                | TestFailed => fail (Wrap "pinned Xray config test failed" System)
                | TestPassed =>
                    let config_digest := protocol_digest config in
                    _ ← in_context "failed to persist immutable rendered Xray config" (outside env);
                    append_validated_result revision started_at (config_relative_path revision)
                      config_digest (rt_expected_sha256 runtime)
                end
            end
        end
    end.

(** [configure_xray]: the digest is normalised, the binary verified and
    queried, and the identity made before the row is written *)
Definition configure_xray (binary_path expected_sha256 version : string) (stats_api_port : Z) (replace : bool)
    : Act HostError unit :=
  digest ← lift (present_or "expected Xray SHA-256 must contain 64 hexadecimal characters"
             (runtime_from_hex expected_sha256));
  _ ← in_context "Xray binary verification failed" (outside env);
  _ ← in_context "Xray version probe failed" (outside env);
  _ ← in_context "failed to create REALITY identity" (outside env);
  write env (fun db => commit_runtime db binary_path (runtime_to_string digest) version stats_api_port replace).

(** ** Reporting *)

Inductive ReportScope : Type :=
| ReceivedFor (revision : Z) | ForRevision (revision : Z) | AllReports.

(** [load_unreported_results]: the rows by revision, then as [result_order] *)
Definition reported_revisions (db : Db) : list Z :=
  merge_sort Z.le (remove_dups ((map_to_list (results db)).*1.*1)).
Definition in_scope (scope : ReportScope) (revision : Z) (state : RevisionResultState) : bool :=
  match scope with
  | ReceivedFor r => (revision =? r) && bool_decide (state = RsReceived)
  | ForRevision r => revision =? r
  | AllReports => true
  end.
Definition load_unreported_results (db : Db) (scope : ReportScope)
    : list (Z * (RevisionResultState * ResultRow)) :=
  take MAX_PENDING_REPORTS_PER_SYNC
    (filter (fun r => rw_reported_at r.2.2 = None /\ in_scope scope r.1 r.2.1 = true)
       (reported_revisions db ≫= fun revision => (fun row => (revision, row)) <$> rows_of db revision)).

(** [report_unreported_results]; the answer to a request is its success *)
Fixpoint report_each (reports : list (Z * (RevisionResultState * ResultRow))) : Act HostError unit :=
  match reports with
  | [] => mret tt
  | (revision_value, (_, row)) :: reports =>
      revision ← lift (map_err (fun _ => Wrap "stored revision result has invalid revision" System)
                   (positive_new revision_value));
      report ← lift (ok_or (report_from_str (rw_report_json row)) (Wrap "stored revision result is invalid" Serde));
      _ ← lift (validated "stored revision result failed validation" (result_validate report revision));
      _ ← lift (ensure (bool_decide (protocol_digest (as_bytes (rw_report_json row)) = rw_report_digest row))
            (Bail "stored revision result digest is invalid"));
      _ ← in_context "controller revision-result request failed" (outside env);
      now ← unix_timestamp env;
      _ ← write env (fun db => mark_reported db revision_value (rr_state report) now);
      report_each reports
  end.
Definition report_unreported_results (scope : ReportScope) : Act HostError unit :=
  reports ← query env (fun db => Ok (load_unreported_results db scope));
  report_each reports.

(** [ensure_received_result_reported], [ensure_revision_results_reported] *)
Definition ensure_received_result_reported (revision : Z) : Act HostError unit :=
  row ← query env (fun db => present_or "desired-state revision is missing its received result"
          (results db !! (revision, RsReceived)));
  lift (ensure (bool_decide (is_Some (rw_reported_at row)))
         (Bail "current desired-state receipt has not been acknowledged by the controller")).
Definition ensure_revision_results_reported (revision : Z) : Act HostError unit :=
  rows ← query env (fun db => Ok (rows_of db revision));
  lift (ensure (forallb (fun row => bool_decide (is_Some (rw_reported_at row.2))) rows)
         (Bail "current desired-state results have not been acknowledged by the controller")).

(** [validate_and_report], [resume_local_state], and what
    [fetch_and_process_desired] does with the controller's answer, [None] for
    204 No Content *)
Definition validate_and_report (envelope : SignedDesiredState) : Act HostError unit :=
  let revision := ds_revision (sd_document envelope) in
  _ ← report_unreported_results (ReceivedFor revision);
  _ ← ensure_received_result_reported revision;
  _ ← validate_desired_state envelope;
  _ ← report_unreported_results (ForRevision revision);
  _ ← ensure_revision_results_reported revision;
  report_unreported_results AllReports.
Definition resume_local_state (registration : SyncRegistration) : Act HostError unit :=
  cursor ← query env (fun db => Ok (desired_revision_cursor db));
  persisted ← verify_persisted_desired_state registration cursor;
  match persisted with Some envelope => validate_and_report envelope | None => mret tt end.
Definition process_desired (registration : SyncRegistration) (cursor : Z) (desired_body : option (list byte))
    : Act HostError unit :=
  match desired_body with
  | None => mret tt
  | Some body =>
      envelope ← persist_verified_desired_state registration cursor body;
      validate_and_report envelope
  end.

(** [optional_revision], and the revisions of [current_heartbeat_with_relay] *)
Definition optional_revision (value : Z) : host_result (option Z) :=
  if value =? 0 then Ok None
  else r ← map_err (fun _ => Bail "stored revision is invalid") (positive_new value); Ok (Some r).
Definition received_revision_value (db : Db) : Z := default 0 (highest ((map_to_list (results db)).*1.*1)).
Definition validated_revision_value (db : Db) : Z :=
  default 0 (highest (filter (fun k => k.2 = RsValidated \/ k.2 = RsApplied) ((map_to_list (results db)).*1)).*1).
Definition load_progress (db : Db) (cursor : Z) : host_result RevisionProgress :=
  _ ← ensure (received_revision_value db =? cursor)
        (Bail "stored received revision does not match the desired-state cursor");
  desired ← optional_revision cursor;
  received ← optional_revision (received_revision_value db);
  validated_revision ← optional_revision (validated_revision_value db);
  applied ← optional_revision (default 0 (ac_applied_revision (active db)));
  Ok (mkProgress desired received validated_revision applied).
Definition heartbeat_progress (db : Db) (cursor : Z) : host_result RevisionProgress :=
  p ← load_progress db cursor;
  _ ← validated "generated node heartbeat is invalid" (progress_validate p);
  Ok p.
End Sync.
