(* ===== verification/NodeHostFacts.v ===== *)
(** * What the node host's database always satisfies

    [consistent] is the invariant of the tables of [NodeHostDb], [db_step] what
    the host does to them, one transaction at a time. Every [db_step] preserves
    the invariant. *)
From S2P Require Import Prelude Text Clock ProtoTypes ProtoAuth ProtoNode NodeHostDb NodeHostRuntime NodeHostSync.
Open Scope Z_scope.

(** Which desired states the controller of this node signed, with the digest of
    the transcript the signature covers, and which configurations passed the
    test of the Xray binary of a digest *)
Class Trusted : Type := mkTrusted {
  trusted : SignedDesiredState -> string -> Prop;
  tested : string -> list byte -> Prop;
}.

Section Facts.
Context `{Sha : Sha256} `{Json : NodeJson} {JsonLaws : NodeJsonLaws Json} {T : Trusted}.

(** ** The invariant *)

Definition row_holds (revision : Z) (st : RevisionResultState) (row : ResultRow) (rep : RevisionResult) : Prop :=
  protocol_digest (as_bytes (rw_report_json row)) = rw_report_digest row /\
  report_from_str (rw_report_json row) = Some rep /\
  rr_state rep = st /\ result_validate rep revision = Ok tt.

(** The error codes of this program; [Unknown] is for those of others. *)
Definition known_code (r : RevisionResult) : Prop := forall code, rr_error_code r <> Some (Unknown code).

(** The terminal result a finished activation comes with *)
Definition outcome (p : JournalPhase) : option RevisionResultState :=
  match p with
  | JApplied => Some RsApplied
  | JRolledBack => Some RsRolledBack
  | JRejected => Some RsRejected
  | _ => None
  end.
Definition terminal_result (db : Db) (revision : Z) (st : RevisionResultState) : Prop :=
  is_terminal st = true /\ is_Some (results db !! (revision, st)).

(** An artifact is stored under its own digest and that of its transcript. *)
Definition artifact_holds (a : ArtifactRow) (e : SignedDesiredState) : Prop :=
  protocol_digest (as_bytes (ar_envelope_json a)) = ar_envelope_digest a /\ trusted e (ar_transcript_digest a).

Definition rendered_holds (db : Db) (revision : Z) (rd : RenderedConfigRow) : Prop :=
  rd_relative_path rd = config_relative_path revision /\
  digest_from_str (rd_config_digest rd) = Ok (rd_config_digest rd) /\
  (exists d, runtime_from_hex (rd_binary_digest rd) = Some d) /\
  (exists rt, runtime db = Some rt /\ rt_expected_sha256 rt = rd_binary_digest rd) /\
  (forall st row rep, (st = RsValidated \/ st = RsApplied) -> results db !! (revision, st) = Some row ->
     row_holds revision st row rep -> rr_config_digest rep = Some (rd_config_digest rd)).

Definition active_holds (db : Db) : Prop :=
  match ac_applied_revision (active db) with
  | None => ac_config_digest (active db) = None /\ ac_binary_digest (active db) = None
  | Some r =>
      exists j rd d, journal db !! r = Some j /\ jn_phase j = JApplied /\ rendered db !! r = Some rd /\
        runtime_from_hex (rd_binary_digest rd) = Some d /\
        ac_config_digest (active db) = Some (rd_config_digest rd) /\
        ac_binary_digest (active db) = Some (runtime_to_string d)
  end.

Record consistent (db : Db) : Prop := mkConsistent {
  c_cursor : 0 <= desired_revision_cursor db;
  c_cursor_artifact : desired_revision_cursor db <> 0 -> is_Some (artifacts db !! desired_revision_cursor db);
  c_artifacts : forall r a, artifacts db !! r = Some a -> 0 < r <= desired_revision_cursor db /\
    exists e, envelope_from_str (ar_envelope_json a) = Some e /\ ds_revision (sd_document e) = r /\ artifact_holds a e;
  c_received : forall r, is_Some (artifacts db !! r) -> is_Some (results db !! (r, RsReceived));
  c_rows : forall r st row, results db !! (r, st) = Some row ->
    is_Some (artifacts db !! r) /\ exists rep, row_holds r st row rep;
  c_validated : forall r, is_Some (results db !! (r, RsValidated)) <-> is_Some (rendered db !! r);
  c_rendered : forall r rd, rendered db !! r = Some rd -> rendered_holds db r rd;
  c_tested : forall r rd, rendered db !! r = Some rd ->
    exists config, protocol_digest config = rd_config_digest rd /\ tested (rd_binary_digest rd) config;
  c_terminal : forall r st1 st2, terminal_result db r st1 -> terminal_result db r st2 -> st1 = st2;
  c_journal : forall r j, journal db !! r = Some j ->
    is_Some (rendered db !! r) /\ 0 < jn_attempt_count j /\
    (forall p, jn_previous_revision j = Some p -> 0 < p < r) /\
    (forall st, terminal_result db r st <-> outcome (jn_phase j) = Some st);
  c_applied : forall r, is_Some (results db !! (r, RsApplied)) -> is_Some (journal db !! r);
  c_one : forall r1 r2 j1 j2, journal db !! r1 = Some j1 -> journal db !! r2 = Some j2 ->
    incomplete j1 -> incomplete j2 -> r1 = r2;
  c_previous : forall r j, journal db !! r = Some j -> incomplete j ->
    jn_previous_revision j = ac_applied_revision (active db);
  c_active : active_holds db;
  c_newest : forall r j, journal db !! r = Some j -> jn_phase j = JApplied ->
    exists a, ac_applied_revision (active db) = Some a /\ r <= a;
}.

Lemma fresh_consistent : consistent fresh_db.
Proof.
  split; unfold terminal_result, active_holds; cbn; try done;
    try (intros *; rewrite !lookup_empty; intros; split; by intros [? [=]]);
    try (intros *; rewrite !lookup_empty; by first [intros [? [=]] | intros [_ [? [=]]] | intros [=]]).
Qed.

(** ** Rows *)

Lemma rows_of_lookup db r st row :
  (st, row) ∈ rows_of db r <-> results db !! (r, st) = Some row.
Proof.
  unfold rows_of. rewrite list_elem_of_omap. split.
  - intros (st' & _ & H). destruct (results db !! (r, st')) eqn:E; [|done]. by injection H as -> ->.
  - intros H. exists st. split; [|by rewrite H]. destruct st; cbn; set_solver.
Qed.

(** The last row of a revision has the highest rank. *)
Lemma rows_of_last db r st row :
  last (rows_of db r) = Some (st, row) ->
  results db !! (r, st) = Some row /\
  forall st' row', results db !! (r, st') = Some row' -> rank st' <= rank st /\
    (is_terminal st = false -> st' = st \/ rank st' < rank st).
Proof.
  intros H. split.
  { apply last_Some_elem_of in H. by apply rows_of_lookup. }
  intros st' row' H'. revert H. unfold rows_of, result_order. cbn.
  destruct (results db !! (r, RsReceived)) eqn:?, (results db !! (r, RsValidated)) eqn:?,
    (results db !! (r, RsApplied)) eqn:?, (results db !! (r, RsRejected)) eqn:?, (results db !! (r, RsRolledBack)) eqn:?;
    cbn; intros [= <- <-]; destruct st'; cbn; simplify_eq; try (split; [lia|]; intros; first [done|by left|right; lia]).
Qed.

Lemma last_row db r st row : results db !! (r, st) = Some row -> exists l, last (rows_of db r) = Some l.
Proof.
  intros H%rows_of_lookup. destruct (last (rows_of db r)) eqn:E; [by eexists|].
  apply last_None in E. rewrite E in H. by apply not_elem_of_nil in H.
Qed.

Definition rows_hold (db : Db) : Prop :=
  forall r st row, results db !! (r, st) = Some row -> exists rep, row_holds r st row rep.
Lemma consistent_rows db : consistent db -> rows_hold db.
Proof. intros C r st row H. by apply C in H as [_ H]. Qed.

Lemma read_report_holds r row p :
  read_report r row = Ok p <-> exists st, row_holds r st row p.2 /\ p.1 = rw_report_digest row.
Proof.
  unfold read_report, row_holds, validated. validates. destruct p as [d rep]; cbn. split.
  - intros (Hd & E). apply bind_Ok in E as (rep' & Hr & E). validates in E. inv_ok.
    destruct E as [Hv E]. inv_ok. simplify_eq. by exists (rr_state rep).
  - intros (st & (Hd & Hr & Hs & Hv) & ->). split; [done|]. rewrite Hr. cbn. by rewrite Hv.
Qed.

(** Reading the reports of a revision gives one per row. *)
Lemma load_revision_results_holds db r reports :
  rows_hold db -> load_revision_results db r = Ok reports ->
  Forall2 (fun row report => row_holds r row.1 row.2 report.2) (rows_of db r) reports.
Proof.
  intros H E. apply mapM_Ok in E. unfold load_revision_results in *.
  assert (Forall (fun row => results db !! (r, row.1) = Some row.2) (rows_of db r)) as Hrows.
  { apply Forall_forall. intros [st row] Hin. by apply rows_of_lookup. }
  revert Hrows. induction E as [|[st row] report rows reports Er E IH]; constructor; [|by apply IH; inversion Hrows].
  inversion Hrows as [|?? Hl _]; subst. cbn in *. apply H in Hl as [rep Hl].
  apply read_report_holds in Er as (st' & Hr & _).
  destruct Hl as (? & Hd & Hs & ?), Hr as (? & Hd' & ? & ?). by rewrite Hd in Hd'; injection Hd' as <-.
Qed.
Lemma load_revision_results_Ok db r :
  rows_hold db -> exists reports, load_revision_results db r = Ok reports.
Proof.
  intros H. unfold load_revision_results.
  assert (Forall (fun row => exists y, read_report r row.2 = Ok y) (rows_of db r)) as Hrows.
  { apply Forall_forall. intros [st row] Hin%rows_of_lookup. apply H in Hin as [rep Hin].
    exists (rw_report_digest row, rep). apply read_report_holds. by exists st. }
  induction Hrows as [|row rows [y Hy] Hrows [ys Hys]]; [by eexists|].
  exists (y :: ys). cbn. by rewrite Hy, Hys.
Qed.

(** The latest report is that of the last row. *)
Lemma latest_report db r reports :
  rows_hold db -> load_revision_results db r = Ok reports ->
  match last (rows_of db r), last reports with
  | Some (st, row), Some report => row_holds r st row report.2
  | None, None => True
  | _, _ => False
  end.
Proof.
  intros H E%load_revision_results_holds; [|done]. clear H.
  induction E as [|row report rows reports Hr E IH]; [done|].
  destruct E as [|row' report' rows reports Hr' E]; [by destruct row|]. exact IH.
Qed.

(** What an accepted insertion did: the row is new, reads back, and outranks
    every earlier result of the revision. *)
Lemma insert_revision_result_Ok db r result db' :
  rows_hold db -> known_code result -> insert_revision_result db r result = Ok db' ->
  exists row, db' = set_results (<[(r, rr_state result) := row]> (results db)) db /\
    row_holds r (rr_state result) row result /\ rw_reported_at row = None /\
    is_Some (artifacts db !! r) /\ results db !! (r, rr_state result) = None /\
    forall st, is_Some (results db !! (r, st)) -> rank st < rank (rr_state result) /\ is_terminal st = false.
Proof.
  intros Hrows Hk E. unfold insert_revision_result, validated in E. inv_ok.
  match goal with H : report_to_string _ = Some ?j |- _ => rename H into Hj; rename j into json end.
  bool_props. match goal with H : is_Some (artifacts _ !! _), H' : results _ !! _ = None |- _ =>
    rename H into Ha; rename H' into Hnew end.
  eexists; split; [done|]. split_and!; try done.
  { split_and!; try done. by apply report_read_back. }
  unfold validate_result_transition, validated in *. inv_ok.
  match goal with H : load_revision_results _ _ = Ok _ |- _ =>
    apply (latest_report db r) in H; [|done]; rename H into Hlast end.
  intros st [row Hst]. destruct (last_row _ _ _ _ Hst) as [[stl rowl] El]. rewrite El in Hlast.
  match goal with H : validate_transition_from _ (snd <$> ?l) = _ |- _ =>
    destruct l as [[d rep]|] eqn:?; [|done]; cbn in H; rename H into Ht end. cbn in Hlast.
  apply rows_of_last in El as [El Hmax]. pose proof (Hmax _ _ Hst) as [Hle Hmon].
  destruct Hlast as (_ & _ & Hs & _). unfold validate_transition_from in Ht.
  case_bool_decide as Heq; [subst; by rewrite El in Hnew|]. case_match eqn:Hc; [done|]. bool_props.
  rewrite Hs in *. split; [lia|]. destruct (Hmon ltac:(done)) as [->|Hlt]; [done|]. by destruct st, stl.
Qed.

(** ** What the host does to its tables *)

Inductive db_step : Db -> Db -> Prop :=
| step_begin db r now attempts db' :
    begin_activation db r (ac_applied_revision (active db)) now = Ok (attempts, db') ->
    (forall r' j, journal db !! r' = Some j -> incomplete j -> r' = r) ->
    (forall st, ~ terminal_result db r st) ->
    db_step db db'
| step_phase db r phase code db' :
    update_journal_phase db r phase code = Ok db' -> db_step db db'
| step_applied db c result now db' rd :
    rendered db !! vc_revision c = Some rd -> vc_config_digest c = rd_config_digest rd ->
    runtime_from_hex (rd_binary_digest rd) = Some (vc_binary_digest c) ->
    rr_state result = RsApplied -> rr_config_digest result = Some (vc_config_digest c) ->
    known_code result -> commit_applied db c result now = Ok db' -> db_step db db'
| step_rolled_back db r result code now db' :
    rr_state result = RsRolledBack -> rr_rollback_revision result = ac_applied_revision (active db) ->
    known_code result -> commit_rolled_back db r result code now = Ok db' -> db_step db db'
| step_rejected db r result code now db' :
    rr_state result = RsRejected -> ac_applied_revision (active db) = None ->
    known_code result -> commit_rejected db r result code now = Ok db' -> db_step db db'
| step_recovery db r code now db' :
    commit_recovery_required db r code now = Ok db' -> db_step db db'
| step_restart db r db' :
    record_active_restart db r = Ok db' -> db_step db db'
| step_validated db r config digest binary rt result db' :
    protocol_digest config = digest -> tested binary config ->
    rr_state result = RsValidated -> rr_config_digest result = Some digest ->
    digest_from_str digest = Ok digest -> runtime db = Some rt -> rt_expected_sha256 rt = binary ->
    is_Some (runtime_from_hex binary) -> known_code result ->
    commit_validated db r (config_relative_path r) digest binary result = Ok db' -> db_step db db'
| step_refused db r result db' :
    rr_state result = RsRejected -> known_code result -> rendered db !! r = None ->
    insert_revision_result db r result = Ok db' -> db_step db db'
| step_received db r artifact e json rep db' :
    desired_revision_cursor db < r ->
    envelope_from_str (ar_envelope_json artifact) = Some e -> ds_revision (sd_document e) = r -> artifact_holds artifact e ->
    row_holds r RsReceived (mkResultRow json (protocol_digest (as_bytes json)) None) rep ->
    commit_desired_state db (desired_revision_cursor db) r artifact json (protocol_digest (as_bytes json)) = Ok db' ->
    db_step db db'
| step_reported db r st now db' :
    mark_reported db r st now = Ok db' -> db_step db db'
| step_runtime db path sha version port replace db' :
    commit_runtime db path sha version port replace = Ok db' -> db_step db db'.

(** ** The invariant is preserved *)

(** Fields of the invariant about tables that did not change *)
Ltac keep C :=
  try first
    [ exact (c_cursor _ C) | exact (c_cursor_artifact _ C) | exact (c_artifacts _ C) | exact (c_received _ C)
    | exact (c_rows _ C) | exact (c_validated _ C) | exact (c_rendered _ C) | exact (c_tested _ C) | exact (c_terminal _ C)
    | exact (c_journal _ C) | exact (c_applied _ C) | exact (c_one _ C) | exact (c_previous _ C)
    | exact (c_active _ C) | exact (c_newest _ C) ].

Lemma active_journal db r : consistent db -> ac_applied_revision (active db) = Some r ->
  exists j, journal db !! r = Some j /\ jn_phase j = JApplied.
Proof.
  intros C E. pose proof (c_active _ C) as H. unfold active_holds in H. rewrite E in H.
  destruct H as (j & _ & _ & Hj & Hp & _). eauto.
Qed.

Lemma row_range db r st : consistent db -> is_Some (results db !! (r, st)) -> 0 < r <= desired_revision_cursor db.
Proof. intros C [row H]. apply (c_rows _ C) in H as [[a Ha] _]. by apply (c_artifacts _ C) in Ha as [? _]. Qed.
Lemma rendered_range db r : consistent db -> is_Some (rendered db !! r) -> 0 < r <= desired_revision_cursor db.
Proof. intros C H%(c_validated _ C). by eapply row_range. Qed.

(** A row of the journal is written and not finished: it is new, or it was not
    finished before. *)
Lemma journal_row_written db r j' :
  consistent db ->
  (forall j, journal db !! r = Some j -> incomplete j) ->
  is_Some (rendered db !! r) -> 0 < jn_attempt_count j' ->
  (forall p, jn_previous_revision j' = Some p -> 0 < p < r) ->
  (forall st, ~ terminal_result db r st) -> outcome (jn_phase j') = None ->
  (incomplete j' -> jn_previous_revision j' = ac_applied_revision (active db) /\
     forall r2 j, journal db !! r2 = Some j -> incomplete j -> r2 = r) ->
  consistent (set_journal (<[r := j']> (journal db)) db).
Proof.
  intros C Hold Hr Ha Hp Ht Ho Hi.
  assert (forall r2 j, journal db !! r2 = Some j -> jn_phase j = JApplied -> r2 <> r) as Hne.
  { intros r2 j Hj Hph ->. apply Hold in Hj. unfold incomplete in Hj. by rewrite Hph in Hj. }
  split; keep C; cbn.
  - intros r2 j [[<- <-]|[Hne2 Hj]]%lookup_insert_Some; [|by apply (c_journal _ C)].
    split_and!; try done. intros st. rewrite Ho. split; [by intros []%Ht|done].
  - intros r2 H. apply (c_applied _ C) in H. destruct (decide (r = r2)) as [->|];
      [by rewrite lookup_insert_eq|by rewrite lookup_insert_ne].
  - intros r1 r2 j1 j2 [[<- <-]|[Hn1 H1]]%lookup_insert_Some [[<- <-]|[Hn2 H2]]%lookup_insert_Some I1 I2;
      [done| | |by eapply (c_one _ C)].
    + symmetry. by eapply Hi.
    + by eapply Hi.
  - intros r2 j [[<- <-]|[Hn2 Hj]]%lookup_insert_Some I; [by apply Hi|by eapply (c_previous _ C)].
  - pose proof (c_active _ C) as A. unfold active_holds in *. cbn.
    destruct (ac_applied_revision (active db)) as [a|]; [|done].
    destruct A as (j & rd & d & Hj & Hph & A). exists j, rd, d. rewrite lookup_insert_ne; [done|].
    intros <-. by eapply Hne.
  - intros r2 j [[<- <-]|[Hn2 Hj]]%lookup_insert_Some Hph; [by rewrite Hph in Ho|by eapply (c_newest _ C)].
Qed.

(** What an unfinished row of the journal says *)
Lemma incomplete_row db r j :
  consistent db -> journal db !! r = Some j -> incomplete j ->
  (forall st, ~ terminal_result db r st) /\ outcome (jn_phase j) = None /\
  jn_previous_revision j = ac_applied_revision (active db) /\
  is_Some (rendered db !! r) /\ 0 < jn_attempt_count j /\
  (forall p, jn_previous_revision j = Some p -> 0 < p < r) /\
  forall r2 j2, journal db !! r2 = Some j2 -> incomplete j2 -> r2 = r.
Proof.
  intros C Hj Hi. pose proof (c_journal _ C _ _ Hj) as (Hr & Ha & Hp & Ht).
  assert (outcome (jn_phase j) = None) as Ho by (unfold incomplete in Hi; by destruct (jn_phase j)).
  split_and!; try done.
  - intros st H. apply Ht in H. by rewrite Ho in H.
  - by eapply (c_previous _ C).
  - intros r2 j2 H2 I2. by eapply (c_one _ C).
Qed.

(** A statement that updates an unfinished row *)
Lemma finish_journal_Ok db r phase code now db' :
  finish_journal db r phase code now = Ok db' ->
  phase_is_terminal phase = true /\ exists j, journal db !! r = Some j /\ incomplete j /\
    db' = set_journal (<[r := mkJournal (jn_previous_revision j) phase (jn_attempt_count j) (jn_started_at j)
            (Some now) (api_as_str <$> code)]> (journal db)) db.
Proof.
  unfold finish_journal, incomplete. intros E. inv_ok. split; [done|].
  destruct (journal db !! r) as [j|]; [|done]. exists j.
  destruct (phase_is_terminal (jn_phase j)); [done|]. by inv_ok.
Qed.
Lemma update_journal_phase_Ok db r phase code db' :
  update_journal_phase db r phase code = Ok db' ->
  phase_is_terminal phase = false /\ exists j, journal db !! r = Some j /\ incomplete j /\
    db' = set_journal (<[r := mkJournal (jn_previous_revision j) phase (jn_attempt_count j) (jn_started_at j)
            (jn_completed_at j) (api_as_str <$> code)]> (journal db)) db.
Proof.
  unfold update_journal_phase, incomplete. intros E. inv_ok. bool_props. split; [done|].
  destruct (journal db !! r) as [j|]; [|done]. exists j.
  destruct (phase_is_terminal (jn_phase j)); [done|]. by inv_ok.
Qed.

Lemma begin_preserves db r now attempts db' :
  consistent db -> begin_activation db r (ac_applied_revision (active db)) now = Ok (attempts, db') ->
  (forall r' j, journal db !! r' = Some j -> incomplete j -> r' = r) ->
  (forall st, ~ terminal_result db r st) -> consistent db'.
Proof.
  intros C E Hone Ht. unfold begin_activation, present_or in E. destruct (journal db !! r) as [j|] eqn:Ej; inv_ok; bool_props.
  - match goal with H : checked_next _ = Some ?a |- _ => rename H into Ha; rename a into n end.
    assert (incomplete j) as Hi by done.
    destruct (incomplete_row _ _ _ C Ej Hi) as (_ & _ & Hp & Hr & Hpos & Hprev & _). simplify_eq.
    apply journal_row_written; try done.
    + intros j0 Hj0. rewrite Ej in Hj0. by simplify_eq.
    + cbn. unfold checked_next, checked_add in Ha. case_match; simplify_eq. lia.
  - simplify_eq. apply journal_row_written; try done; cbn.
    + intros j0 Hj0. by rewrite Ej in Hj0.
    + intros p Hp. rewrite Hp in *. bool_props.
      match goal with H : is_Some (rendered db !! p) |- _ => apply (rendered_range _ _ C) in H end. lia.
Qed.

Lemma terminal_inserted db r st row r2 st2 :
  terminal_result (set_results (<[(r, st) := row]> (results db)) db) r2 st2 <->
  is_terminal st2 = true /\ ((r2 = r /\ st2 = st) \/ is_Some (results db !! (r2, st2))).
Proof.
  unfold terminal_result. cbn. rewrite lookup_insert_is_Some'. naive_solver.
Qed.
Lemma some_inserted `{Countable K} {A} (m : gmap K A) i x j : is_Some (m !! j) -> is_Some (<[i := x]> m !! j).
Proof. intros. apply lookup_insert_is_Some'. by right. Qed.

(** The pointer to the active revision after an activation with this outcome *)
Definition active_after (db : Db) (r : Z) (phase : JournalPhase) (rep : RevisionResult) (a : ActiveRow) : Prop :=
  if decide (phase = JApplied) then
    exists rd d, rendered db !! r = Some rd /\ runtime_from_hex (rd_binary_digest rd) = Some d /\
      rr_config_digest rep = Some (rd_config_digest rd) /\
      ac_applied_revision a = Some r /\ ac_config_digest a = Some (rd_config_digest rd) /\
      ac_binary_digest a = Some (runtime_to_string d)
  else a = active db.

Section Finished.
Context (db : Db) (r : Z) (j j' : JournalRow) (st : RevisionResultState) (row : ResultRow) (rep : RevisionResult)
  (a : ActiveRow).
Context (C : consistent db) (Hj : journal db !! r = Some j) (Hi : incomplete j)
  (Hprev : jn_previous_revision j' = jn_previous_revision j) (Hatt : jn_attempt_count j' = jn_attempt_count j)
  (Hout : outcome (jn_phase j') = Some st) (Hrow : row_holds r st row rep)
  (Hact : active_after db r (jn_phase j') rep a).
Let db' := set_journal (<[r := j']> (journal db)) (set_active a (set_results (<[(r, st) := row]> (results db)) db)).

Local Lemma finished_terminal r2 st2 : terminal_result db' r2 st2 <->
  (r2 = r /\ st2 = st) \/ (r2 <> r /\ terminal_result db r2 st2).
Proof.
  destruct (incomplete_row _ _ _ C Hj Hi) as (Ht & _).
  change (terminal_result (set_results (<[(r, st) := row]> (results db)) db) r2 st2 <->
    (r2 = r /\ st2 = st) \/ (r2 <> r /\ terminal_result db r2 st2)).
  rewrite terminal_inserted. unfold terminal_result in *. split.
  - intros [Hs [?|H]]; [by left|]. destruct (decide (r2 = r)) as [->|]; [|by right].
    by destruct (Ht st2).
  - intros [[-> ->]|(? & ? & ?)]; [|by eauto]. split; [by destruct (jn_phase j'); simplify_eq/=|by left].
Qed.
Local Lemma finished_no_incomplete r2 j2 : <[r := j']> (journal db) !! r2 = Some j2 -> incomplete j2 -> False.
Proof.
  intros [[<- <-]|[Hn H2]]%lookup_insert_Some I2.
  - unfold incomplete in I2. by destruct (jn_phase j').
  - by apply Hn; symmetry; eapply (c_one _ C).
Qed.
Local Lemma finished_phase_applied : jn_phase j' = JApplied <-> st = RsApplied.
Proof. by destruct (jn_phase j'); naive_solver. Qed.
Local Lemma finished_rendered r2 rd : rendered db !! r2 = Some rd -> rendered_holds db' r2 rd.
Proof.
  intros Hrd. destruct (c_rendered _ C _ _ Hrd) as (Hp & Hd & Hb & Hrt & Hv). split_and!; try done.
  intros st2 row2 rep2 Hst Hl Hr2. cbn in Hl.
  apply lookup_insert_Some in Hl as [[[= <- <-] <-]|[Hn H2]]; [|by eapply Hv].
  assert (rep2 = rep) as -> by (destruct Hrow as (_ & H1 & _), Hr2 as (_ & H2 & _); congruence).
  unfold active_after in Hact. rewrite decide_True in Hact.
  - destruct Hact as (rd' & d & Hrd' & _ & He & _). by rewrite Hrd in Hrd'; simplify_eq.
  - apply finished_phase_applied. destruct Hst as [->| ->]; [|done]. by destruct (jn_phase j').
Qed.
Local Lemma finished_active : active_holds db'.
Proof.
  unfold active_holds. cbn. unfold active_after in Hact. case_decide as Hph.
  - destruct Hact as (rd & d & Hrd & Hd & _ & -> & -> & ->). exists j', rd, d. by rewrite lookup_insert_eq.
  - subst a. pose proof (c_active _ C) as A. unfold active_holds in A.
    destruct (ac_applied_revision (active db)) as [x|]; [|done].
    destruct A as (jx & rd & d & Hjx & Hpx & A). exists jx, rd, d. rewrite lookup_insert_ne; [done|].
    intros <-. rewrite Hj in Hjx. simplify_eq. unfold incomplete in Hi. by rewrite Hpx in Hi.
Qed.
Local Lemma finished_newest r2 j2 : <[r := j']> (journal db) !! r2 = Some j2 -> jn_phase j2 = JApplied ->
  exists x, ac_applied_revision a = Some x /\ r2 <= x.
Proof.
  destruct (incomplete_row _ _ _ C Hj Hi) as (_ & _ & Hpa & _ & _ & Hlt & _).
  intros [[<- <-]|[Hn H2]]%lookup_insert_Some Hph; unfold active_after in Hact.
  - rewrite decide_True in Hact by done. destruct Hact as (rd & d & _ & _ & _ & -> & _). by exists r.
  - destruct (c_newest _ C _ _ H2 Hph) as (x & Hx & Hle). case_decide; [|by subst a; exists x].
    destruct Hact as (rd & d & _ & _ & _ & -> & _). exists r. split; [done|].
    rewrite Hx in Hpa. apply Hlt in Hpa. lia.
Qed.

Lemma activation_finished : consistent db'.
Proof.
  destruct (incomplete_row _ _ _ C Hj Hi) as (Ht & Ho & Hpa & Hr & Hat & Hlt & Hone).
  split; keep C; cbn.
  - intros r2 H. apply some_inserted. by apply (c_received _ C).
  - intros r2 st2 row2 [[[= <- <-] <-]|[Hn H]]%lookup_insert_Some; [|by apply (c_rows _ C)].
    split; [|by exists rep]. apply (c_validated _ C) in Hr as [rowv Hv]. by apply (c_rows _ C) in Hv as [? _].
  - intros r2. rewrite <- (c_validated _ C). rewrite lookup_insert_ne; [done|].
    intros [= _ ->]. by destruct (jn_phase j').
  - exact finished_rendered.
  - intros r2 st1 st2 [[-> ->]|[Hn1 H1]]%finished_terminal [[? ->]|[Hn2 H2]]%finished_terminal; try done.
    by eapply (c_terminal _ C).
  - intros r2 j2 [[<- <-]|[Hn H2]]%lookup_insert_Some.
    + split_and!; [done|by rewrite Hatt|by rewrite Hprev|]. intros st2. rewrite finished_terminal, Hout. naive_solver.
    + destruct (c_journal _ C _ _ H2) as (? & ? & ? & Ht2). split_and!; try done.
      intros st2. rewrite finished_terminal, <- Ht2. naive_solver.
  - intros r2. rewrite !lookup_insert_is_Some'. intros [[= <- _]|H]; [by left|].
    right. by apply (c_applied _ C).
  - intros r1 r2 j1 j2 H1 _ I1 _. by destruct (finished_no_incomplete _ _ H1 I1).
  - intros r2 j2 H2 I2. by destruct (finished_no_incomplete _ _ H2 I2).
  - exact finished_active.
  - exact finished_newest.
Qed.
End Finished.

Lemma commit_finished db r result phase code now a db' :
  consistent db -> known_code result -> outcome phase = Some (rr_state result) ->
  (db ← insert_revision_result db r result; finish_journal (set_active a db) r phase code now) = Ok db' ->
  active_after db r phase result a -> consistent db'.
Proof.
  intros C Hk Ho E Ha. apply bind_Ok in E as (db1 & E1 & E2).
  apply insert_revision_result_Ok in E1 as (row & -> & Hrow & _); [|by apply consistent_rows|done].
  apply finish_journal_Ok in E2 as (_ & j & Hj & Hi & ->). by eapply (activation_finished db r j _ _ row result).
Qed.
Lemma same_active db1 db2 r result : insert_revision_result db1 r result = Ok db2 -> set_active (active db1) db2 = db2.
Proof. unfold insert_revision_result. intros E. by inv_ok. Qed.

Lemma commit_applied_preserves db c result now db' rd :
  consistent db -> rendered db !! vc_revision c = Some rd -> vc_config_digest c = rd_config_digest rd ->
  runtime_from_hex (rd_binary_digest rd) = Some (vc_binary_digest c) ->
  rr_state result = RsApplied -> rr_config_digest result = Some (vc_config_digest c) ->
  known_code result -> commit_applied db c result now = Ok db' -> consistent db'.
Proof.
  intros C Hrd Hc Hb Hs Hd Hk E. unfold commit_applied in E. apply bind_Ok in E as (db1 & E1 & E).
  apply bind_Ok in E as (_ & _ & E).
  eapply commit_finished; [done|done| |rewrite E1; exact E|].
  - by rewrite Hs.
  - unfold active_after. rewrite decide_True by done. exists rd, (vc_binary_digest c).
    cbn. rewrite Hd, Hc. done.
Qed.
Lemma commit_rolled_back_preserves db r result code now db' :
  consistent db -> rr_state result = RsRolledBack -> known_code result ->
  commit_rolled_back db r result code now = Ok db' -> consistent db'.
Proof.
  intros C Hs Hk E. unfold commit_rolled_back in E. apply bind_Ok in E as (db1 & E1 & E).
  apply (commit_finished db r result JRolledBack (Some code) now (active db)); try done; [by rewrite Hs|].
  rewrite E1. cbn. by rewrite (same_active _ _ _ _ E1).
Qed.
Lemma commit_rejected_preserves db r result code now db' :
  consistent db -> rr_state result = RsRejected -> known_code result ->
  commit_rejected db r result code now = Ok db' -> consistent db'.
Proof.
  intros C Hs Hk E. unfold commit_rejected in E. apply bind_Ok in E as (db1 & E1 & E).
  apply (commit_finished db r result JRejected (Some code) now (active db)); try done; [by rewrite Hs|].
  rewrite E1. cbn. by rewrite (same_active _ _ _ _ E1).
Qed.

(** An unfinished row changes its phase but has no outcome yet. *)
Lemma phase_changed_preserves db r j j' :
  consistent db -> journal db !! r = Some j -> incomplete j ->
  jn_previous_revision j' = jn_previous_revision j -> jn_attempt_count j' = jn_attempt_count j ->
  outcome (jn_phase j') = None -> consistent (set_journal (<[r := j']> (journal db)) db).
Proof.
  intros C Hj Hi Hp Ha Ho. destruct (incomplete_row _ _ _ C Hj Hi) as (Ht & _ & Hpa & Hr & Hat & Hlt & Hone).
  apply journal_row_written; try done.
  - intros j2 H2. rewrite Hj in H2. by simplify_eq.
  - by rewrite Ha.
  - by rewrite Hp.
  - intros _. by rewrite Hp.
Qed.

Lemma restart_preserves db r db' : consistent db -> record_active_restart db r = Ok db' -> consistent db'.
Proof.
  intros C E. unfold record_active_restart in E. case_bool_decide; inv_ok. split; keep C.
Qed.

(** A result that is not the outcome of an activation: the revision was never
    activated, and an applied one has been. *)
Lemma result_added_preserves db r row rep :
  consistent db -> is_Some (artifacts db !! r) -> results db !! (r, RsRejected) = None ->
  row_holds r RsRejected row rep -> rendered db !! r = None ->
  (forall st, is_Some (results db !! (r, st)) -> is_terminal st = false) ->
  consistent (set_results (<[(r, RsRejected) := row]> (results db)) db).
Proof.
  intros C Ha Hn Hrow Hr Hnt. split; keep C; cbn.
  - intros r2 H. apply some_inserted. by apply (c_received _ C).
  - intros r2 st2 row2 [[[= <- <-] <-]|[_ H]]%lookup_insert_Some; [by eauto|by apply (c_rows _ C)].
  - intros r2. rewrite <- (c_validated _ C), lookup_insert_ne by done. done.
  - intros r2 rd Hrd. destruct (c_rendered _ C _ _ Hrd) as (Hp & Hd & Hb & Hrt & Hv). split_and!; try done.
    intros st2 row2 rep2 Hst Hl. cbn in Hl. apply lookup_insert_Some in Hl as [[[= <- <-] <-]|[_ Hl]];
      [by destruct Hst|by eapply Hv].
  - intros r2 st1 st2. rewrite !terminal_inserted. intros [T1 [[-> ->]|H1]] [T2 [[E ->]|H2]]; try done.
    + apply Hnt in H2. congruence.
    + subst. apply Hnt in H1. congruence.
    + by eapply (c_terminal _ C).
  - intros r2 j Hj. destruct (c_journal _ C _ _ Hj) as (Hrd & ? & ? & Ht). split_and!; try done.
    intros st2. rewrite terminal_inserted, <- Ht. unfold terminal_result. split; [|naive_solver].
    intros [? [[-> _]|?]]; [|done]. rewrite Hr in Hrd. by destruct Hrd.
  - intros r2. rewrite lookup_insert_ne by done. by apply (c_applied _ C).
Qed.

Lemma terminal_unchanged db db2 : (forall r st, is_terminal st = true ->
    is_Some (results db2 !! (r, st)) <-> is_Some (results db !! (r, st))) ->
  forall r st, terminal_result db2 r st <-> terminal_result db r st.
Proof. intros H r st. unfold terminal_result. split; intros [? ?]; (split; [done|]); by apply H. Qed.

Lemma validated_preserves db r config digest binary rt result db' :
  consistent db -> protocol_digest config = digest -> tested binary config -> rr_state result = RsValidated -> rr_config_digest result = Some digest ->
  digest_from_str digest = Ok digest -> runtime db = Some rt -> rt_expected_sha256 rt = binary ->
  is_Some (runtime_from_hex binary) -> known_code result ->
  commit_validated db r (config_relative_path r) digest binary result = Ok db' -> consistent db'.
Proof.
  intros C Hcd Htest Hs Hd Hc Hrt Hbin Hhex Hk E. unfold commit_validated in E. inv_ok. bool_props.
  match goal with H : rendered db !! r = None, H' : insert_revision_result _ _ _ = _ |- _ =>
    rename H into Hnr; apply insert_revision_result_Ok in H' as (row & -> & Hrow & _ & Ha & Hnew & Hlow);
    [|exact (consistent_rows _ C)|done] end.
  rewrite Hs in *. cbn in Ha, Hnew, Hlow |- *.
  set (rd := mkRendered (config_relative_path r) digest binary).
  match goal with |- consistent ?d => set (db2 := d) end.
  assert (forall r2 st, terminal_result db2 r2 st <-> terminal_result db r2 st) as Ht.
  { apply terminal_unchanged. intros r2 st H. cbn. rewrite lookup_insert_ne; [done|]. by intros [= _ <-]. }
  split; keep C; cbn.
  - intros r2 H. apply some_inserted. by apply (c_received _ C).
  - intros r2 st2 row2 [[[= <- <-] <-]|[_ H]]%lookup_insert_Some; [by eauto|by apply (c_rows _ C)].
  - intros r2. rewrite !lookup_insert_is_Some', (c_validated _ C). naive_solver.
  - intros r2 rd2 [[<- <-]|[Hne H2]]%lookup_insert_Some.
    + split_and!; try done; [by exists rt|].
      intros st row2 rep2 [->| ->] Hl Hh; cbn in Hl.
      * rewrite lookup_insert_eq in Hl. simplify_eq.
        destruct Hrow as (_ & Hx & _), Hh as (_ & Hy & _). rewrite Hx in Hy. by simplify_eq.
      * rewrite lookup_insert_ne in Hl by done. by destruct (Hlow RsApplied); [eauto|].
    + destruct (c_rendered _ C _ _ H2) as (Hp & Hd2 & Hb & Hrt2 & Hv). split_and!; try done.
      intros st row2 rep2 Hst Hl. cbn in Hl. apply lookup_insert_Some in Hl as [[[= <- <-] <-]|[_ Hl]]; [done|].
      by eapply Hv.
  - intros r2 rd2 [[<- <-]|[Hne H2]]%lookup_insert_Some; [by exists config|by apply (c_tested _ C) in H2].
  - intros r2 st1 st2. rewrite !Ht. apply (c_terminal _ C).
  - intros r2 j Hj. destruct (c_journal _ C _ _ Hj) as (? & ? & ? & Hx). split_and!; try done.
    + by apply some_inserted.
    + intros st. rewrite Ht. apply Hx.
  - intros r2. rewrite lookup_insert_ne by done. by apply (c_applied _ C).
  - pose proof (c_active _ C) as A. unfold active_holds in *. cbn.
    destruct (ac_applied_revision (active db)) as [x|]; [|done].
    destruct A as (j & rd2 & d & Hj & Hph & Hrd & A). exists j, rd2, d. rewrite lookup_insert_ne; [done|].
    intros <-. congruence.
Qed.

Lemma received_preserves db r artifact e json rep db' :
  consistent db -> desired_revision_cursor db < r ->
  envelope_from_str (ar_envelope_json artifact) = Some e -> ds_revision (sd_document e) = r -> artifact_holds artifact e ->
  row_holds r RsReceived (mkResultRow json (protocol_digest (as_bytes json)) None) rep ->
  commit_desired_state db (desired_revision_cursor db) r artifact json (protocol_digest (as_bytes json)) = Ok db' ->
  consistent db'.
Proof.
  intros C Hlt He Hr Htr Hrow E. revert Hr. unfold commit_desired_state in E. inv_ok. intros Hr. bool_props.
  set (row := mkResultRow _ _ _) in *. set (db2 := set_cursor _ _).
  assert (forall r2 st, terminal_result db2 r2 st <-> terminal_result db r2 st) as Ht.
  { apply terminal_unchanged. intros r2 st Hst. cbn. rewrite lookup_insert_ne; [done|]. by intros [= _ <-]. }
  pose proof (c_cursor _ C). assert (forall st, ~ is_Some (results db !! (r, st))) as Hno.
  { intros st Hst%row_range; [lia|done]. }
  split; keep C; cbn.
  - lia.
  - intros _. by rewrite lookup_insert_eq.
  - intros r2 a [[<- <-]|[_ Hx2]]%lookup_insert_Some; [split; [lia|by exists e]|].
    apply (c_artifacts _ C) in Hx2 as [? ?]. split; [lia|done].
  - intros r2. rewrite !lookup_insert_is_Some'. intros [->|Hx2]; [by left|]. right. by apply (c_received _ C).
  - intros r2 st2 row2 [[[= <- <-] <-]|[_ Hx2]]%lookup_insert_Some; [by rewrite lookup_insert_eq; eauto|].
    apply (c_rows _ C) in Hx2 as [? ?]. split; [by apply some_inserted|done].
  - intros r2. rewrite lookup_insert_ne by done. apply (c_validated _ C).
  - intros r2 rd Hx2. destruct (c_rendered _ C _ _ Hx2) as (Hp & Hd2 & Hb & Hrt2 & Hv). split_and!; try done.
    intros st row2 rep2 Hst Hl. cbn in Hl. apply lookup_insert_Some in Hl as [[[= <- <-] <-]|[_ Hl]];
      [by destruct Hst|by eapply Hv].
  - intros r2 st1 st2. rewrite !Ht. apply (c_terminal _ C).
  - intros r2 j Hj. destruct (c_journal _ C _ _ Hj) as (? & ? & ? & Hx). split_and!; try done.
    intros st. rewrite Ht. apply Hx.
  - intros r2. rewrite lookup_insert_ne by done. by apply (c_applied _ C).
Qed.

Lemma reported_preserves db r st now db' : consistent db -> mark_reported db r st now = Ok db' -> consistent db'.
Proof.
  intros C E. unfold mark_reported in E. destruct (results db !! (r, st)) as [row|] eqn:Hrow; [|done].
  case_bool_decide; [|done]. inv_ok. set (db2 := set_results _ _).
  assert (forall r2 st2 row2, results db2 !! (r2, st2) = Some row2 -> exists row1,
    results db !! (r2, st2) = Some row1 /\ rw_report_json row2 = rw_report_json row1 /\
    rw_report_digest row2 = rw_report_digest row1) as Hback.
  { intros r2 st2 row2 Hl. cbn in Hl. apply lookup_insert_Some in Hl as [[[= <- <-] <-]|[_ Hl]]; eauto. }
  assert (forall r2 st2, is_Some (results db2 !! (r2, st2)) <-> is_Some (results db !! (r2, st2))) as Hsome.
  { intros r2 st2. cbn. rewrite lookup_insert_is_Some'. split; [|by right]. intros [[= <- <-]|]; eauto. }
  assert (forall r2 st2, terminal_result db2 r2 st2 <-> terminal_result db r2 st2) as Ht
    by (apply terminal_unchanged; auto).
  split; keep C.
  - intros r2. rewrite Hsome. apply (c_received _ C).
  - intros r2 st2 row2 (row1 & H1 & Ej & Ed)%Hback. apply (c_rows _ C) in H1 as [? (rep & Hh)].
    split; [done|]. exists rep. unfold row_holds in *. by rewrite Ej, Ed.
  - intros r2. rewrite Hsome. apply (c_validated _ C).
  - intros r2 rd H2. destruct (c_rendered _ C _ _ H2) as (Hp & Hd2 & Hb & Hrt2 & Hv). split_and!; try done.
    intros st2 row2 rep2 Hst (row1 & H1 & Ej & Ed)%Hback Hh. eapply Hv; [done..|].
    unfold row_holds in *. by rewrite Ej, Ed in Hh.
  - intros r2 st1 st2. rewrite !Ht. apply (c_terminal _ C).
  - intros r2 j Hj. destruct (c_journal _ C _ _ Hj) as (? & ? & ? & Hx). split_and!; try done.
    intros st2. rewrite Ht. apply Hx.
  - intros r2. rewrite Hsome. apply (c_applied _ C).
Qed.

Lemma runtime_preserves db path sha version port replace db' :
  consistent db -> commit_runtime db path sha version port replace = Ok db' -> consistent db'.
Proof.
  intros C E. unfold commit_runtime in E. inv_ok.
  assert (forall rt, (forall r rd, rendered db !! r = Some rd -> rt_expected_sha256 rt = rd_binary_digest rd) ->
    consistent (set_runtime (Some rt) db)) as Hset.
  { intros rt Hrt. split; keep C. intros r rd Hrd. destruct (c_rendered _ C _ _ Hrd) as (? & ? & ? & ? & ?).
    split_and!; try done. exists rt. by split; [|eapply Hrt]. }
  destruct (runtime db) as [s|] eqn:Ers.
  - destruct (bool_decide _ && bool_decide _ && bool_decide _); inv_ok; [done|]. apply Hset. intros r rd Hrd. cbn.
    bool_props. destruct (c_rendered _ C _ _ Hrd) as (_ & _ & _ & (rt & Hrt & Hexp) & _).
    rewrite Ers in Hrt. simplify_eq.
    match goal with H : negb (bool_decide (rt_expected_sha256 rt = sha)) = false \/ _ |- _ =>
      destruct H as [H|H]; bool_props; [congruence|] end.
    match goal with H : rendered db = ∅ |- _ => rewrite H in Hrd end. by rewrite lookup_empty in Hrd.
  - inv_ok. apply Hset. intros r rd Hrd. destruct (c_rendered _ C _ _ Hrd) as (_ & _ & _ & (rt & Hrt & _) & _).
    congruence.
Qed.

(** Everything the host does to its tables preserves the invariant. *)
Lemma db_step_preserves db db' : consistent db -> db_step db db' -> consistent db'.
Proof.
  intros C Hstep. revert C. destruct Hstep; intros C.
  - by eapply begin_preserves.
  - match goal with H : update_journal_phase _ _ _ _ = _ |- _ =>
      apply update_journal_phase_Ok in H as (Hp & j & Hj & Hi & ->) end.
    eapply phase_changed_preserves; try done. cbn. by destruct phase.
  - by eapply commit_applied_preserves.
  - by eapply commit_rolled_back_preserves.
  - by eapply commit_rejected_preserves.
  - match goal with H : commit_recovery_required _ _ _ _ = _ |- _ =>
      apply finish_journal_Ok in H as (_ & j & Hj & Hi & ->) end.
    by eapply phase_changed_preserves.
  - by eapply restart_preserves.
  - by eapply validated_preserves.
  - match goal with H : insert_revision_result _ _ _ = _, K : rr_state _ = _ |- _ =>
      apply insert_revision_result_Ok in H as (row & -> & Hrow & _ & Ha & Hnew & Hlow);
      [|by apply consistent_rows|done]; rewrite K in * end.
    eapply result_added_preserves; try done. intros st Hst. by apply Hlow in Hst as [_ ?].
  - by eapply received_preserves.
  - by eapply reported_preserves.
  - by eapply runtime_preserves.
Qed.

(** What was rendered for a revision stays. *)
Lemma db_step_rendered db db' : db_step db db' -> rendered db ⊆ rendered db'.
Proof.
  assert (forall db1 db2 r result, insert_revision_result db1 r result = Ok db2 -> rendered db2 = rendered db1) as Hins.
  { unfold insert_revision_result. intros db1 db2 r result E. by inv_ok. }
  assert (forall db1 db2 r phase code now, finish_journal db1 r phase code now = Ok db2 ->
    rendered db2 = rendered db1) as Hfin.
  { by intros db1 db2 r phase code now (_ & j & _ & _ & ->)%finish_journal_Ok. }
  destruct 1 as [? ? ? ? ? E|? ? ? ? ? E|? ? ? ? ? ? _ _ _ _ _ _ E|? ? ? ? ? ? _ _ _ E|? ? ? ? ? ? _ _ _ E|? ? ? ? ? E
    |? ? ? E|? ? ? ? ? ? ? ? _ _ _ _ _ _ _ _ _ E|? ? ? ? _ _ _ E|? ? ? ? ? ? ? _ _ _ _ _ E|? ? ? ? ? E|? ? ? ? ? ? ? E].
  - unfold begin_activation in E. case_match; by inv_ok.
  - by apply update_journal_phase_Ok in E as (_ & j & _ & _ & ->).
  - unfold commit_applied in E. apply bind_Ok in E as (db1 & E1 & E). apply bind_Ok in E as (_ & _ & E).
    apply Hfin in E as ->. cbn. by rewrite (Hins _ _ _ _ E1).
  - apply bind_Ok in E as (db1 & E1%Hins & E%Hfin). by rewrite E, E1.
  - apply bind_Ok in E as (db1 & E1%Hins & E%Hfin). by rewrite E, E1.
  - by rewrite (Hfin _ _ _ _ _ _ E).
  - unfold record_active_restart in E. case_match; by inv_ok.
  - unfold commit_validated in E. apply bind_Ok in E as ([] & Hn & E%Hins). apply ensure_Ok in Hn. bool_props.
    rewrite E. cbn. by apply insert_subseteq.
  - by rewrite (Hins _ _ _ _ E).
  - unfold commit_desired_state in E. by inv_ok.
  - unfold mark_reported in E. repeat case_match; by inv_ok.
  - unfold commit_runtime in E. inv_ok. repeat case_match; by inv_ok.
Qed.

(** ** What is stored can be read back *)

Lemma positive_new_Ok n m : positive_new n = Ok m <-> 0 < n /\ m = n.
Proof. unfold positive_new. destruct (Z.ltb_spec 0 n); intuition (try congruence; try lia). Qed.
Lemma load_active_state_ok db : consistent db -> exists a, load_active_state db = Ok a.
Proof.
  intros C. pose proof (c_active _ C) as A. unfold active_holds, load_active_state in *.
  destruct (ac_applied_revision (active db)) as [r|] eqn:Er.
  - destruct A as (j & rd & d & Hj & _ & _ & _ & Hc & Hb). apply (c_journal _ C) in Hj as (Hr & _).
    apply (rendered_range _ _ C) in Hr. rewrite (proj2 (positive_new_Ok r r)) by lia. rewrite Hc, Hb. by eexists.
  - destruct A as [Hc Hb]. rewrite Hc, Hb. by eexists.
Qed.
Lemma at_most_one {A} (m : gmap Z A) :
  (forall i j x y, m !! i = Some x -> m !! j = Some y -> i = j) -> (length (map_to_list m) <= 1)%nat.
Proof.
  intros H. pose proof (NoDup_fst_map_to_list m) as Hnd. assert (forall i x, (i, x) ∈ map_to_list m -> m !! i = Some x) as Hin
    by (intros; by apply elem_of_map_to_list).
  destruct (map_to_list m) as [|[i x] [|[j y] l]]; cbn; try lia. exfalso. cbn in Hnd.
  apply NoDup_cons in Hnd as [Hni _]. apply Hni. rewrite (H i j x y); [by left| |]; apply Hin; set_solver.
Qed.
Lemma load_incomplete_journal_ok db : consistent db -> exists res, load_incomplete_journal db = Ok res.
Proof.
  intros C. unfold load_incomplete_journal. set (m := filter _ _).
  assert (Forall (fun row => exists j, journal_from_row row = Ok j) (map_to_list m)) as Hrows.
  { apply Forall_forall. intros [r j] [Hj Hi]%elem_of_map_to_list%map_lookup_filter_Some. cbn in Hi.
    destruct (incomplete_row _ _ _ C Hj Hi) as (_ & _ & _ & Hr & _ & Hp & _). apply (rendered_range _ _ C) in Hr.
    unfold journal_from_row. rewrite (proj2 (positive_new_Ok r r)) by lia. cbn.
    destruct (jn_previous_revision j) as [p|]; [|by eexists]. specialize (Hp p eq_refl).
    rewrite (proj2 (positive_new_Ok p p)) by lia. by eexists. }
  assert (exists rows, mapM (M := result HostError) journal_from_row (map_to_list m) = Ok rows) as [rows Hm].
  { clear -Hrows. induction Hrows as [|row l [y Hy] _ [ys Hys]]; [by eexists|]. exists (y :: ys). cbn. by rewrite Hy, Hys. }
  rewrite Hm. rsimpl. apply mapM_Ok, Forall2_length in Hm.
  assert (length (map_to_list m) <= 1)%nat as Hone.
  { apply at_most_one. intros r1 r2 j1 j2 [H1 I1]%map_lookup_filter_Some [H2 I2]%map_lookup_filter_Some.
    by eapply (c_one _ C). }
  unfold zlen. rewrite (proj2 (Z.leb_le _ _)) by lia. by eexists.
Qed.
End Facts.
