(* ===== verification/NodeHostLogic.v ===== *)
(** * Reasoning about the supervisor

    Weakest preconditions for the monad of [NodeHostRuntime], the invariant
    [sound] of the worlds a run passes through, and the rules for the calls of
    the outside: whatever they answer, they change nothing but the clock. *)
From S2P Require Import Prelude Text Clock ProtoTypes ProtoAuth ProtoNode NodeHostDb NodeHostRuntime.
From S2P Require Import NodeHostSync NodeHostFacts.
Open Scope Z_scope.

(** ** Weakest preconditions *)

Definition wp {E A} (m : Act E A) (Q : result E A -> World -> Prop) (w : World) : Prop :=
  let '(r, w') := m w in Q r w'.

Section Rules.
Context {E : Type}.

Lemma wp_mono {A} (m : Act E A) (P Q : result E A -> World -> Prop) w :
  wp m P w -> (forall r w', P r w' -> Q r w') -> wp m Q w.
Proof. unfold wp. destruct (m w) as [r w']. auto. Qed.
Lemma wp_conj {A} (m : Act E A) (P Q : result E A -> World -> Prop) w :
  wp m P w -> wp m Q w -> wp m (fun r w' => P r w' /\ Q r w') w.
Proof. unfold wp. destruct (m w). auto. Qed.
Lemma wp_bind {A B} (m : Act E A) (f : A -> Act E B) (Q : result E B -> World -> Prop) w :
  wp m (fun r w' => match r with Ok a => wp (f a) Q w' | Err e => Q (Err e) w' end) w -> wp (m ≫= f) Q w.
Proof. unfold wp, mbind, act_bind. destruct (m w) as [[a|e] w']; auto. Qed.
Lemma wp_ret {A} (a : A) (Q : result E A -> World -> Prop) w : Q (Ok a) w -> wp (mret a) Q w.
Proof. done. Qed.
Lemma wp_fail {A} (e : E) (Q : result E A -> World -> Prop) w : Q (Err e) w -> wp (fail e) Q w.
Proof. done. Qed.
Lemma wp_lift {A} (r : result E A) (Q : result E A -> World -> Prop) w : Q r w -> wp (lift r) Q w.
Proof. done. Qed.
Lemma wp_gets {A} (f : World -> A) (Q : result E A -> World -> Prop) w : Q (Ok (f w)) w -> wp (gets f) Q w.
Proof. done. Qed.
Lemma wp_modify (f : World -> World) (Q : result E unit -> World -> Prop) w : Q (Ok tt) (f w) -> wp (modify f) Q w.
Proof. done. Qed.
Lemma wp_attempt {F A} (m : Act F A) (Q : result E (result F A) -> World -> Prop) w :
  wp m (fun r w' => Q (Ok r) w') w -> wp (attempt m) Q w.
Proof. unfold wp, attempt. by destruct (m w). Qed.
Lemma wp_failing_with {F A} (f : F -> E) (m : Act F A) (Q : result E A -> World -> Prop) w :
  wp m (fun r w' => Q (map_err f r) w') w -> wp (failing_with f m) Q w.
Proof. unfold wp, failing_with. by destruct (m w). Qed.

(** A check that fails leaves the world as it is. *)
Lemma wp_check {A B} (r : result E A) (f : A -> Act E B) (Q : result E B -> World -> Prop) w :
  (forall a, r = Ok a -> wp (f a) Q w) -> (forall e, r = Err e -> Q (Err e) w) -> wp (lift r ≫= f) Q w.
Proof. intros Hok Herr. apply wp_bind, wp_lift. destruct r; auto. Qed.
End Rules.

(** ** Calls of the outside *)

(** The world is as it was, but for the clock. *)
Record quiet (w w' : World) : Prop := mkQuiet {
  q_db : w_db w' = w_db w;
  q_supervisor : w_supervisor w' = w_supervisor w;
  q_processes : w_processes w' = w_processes w;
  q_log : w_log w' = w_log w;
  q_now : w_now w <= w_now w';
}.
#[export] Instance quiet_refl : Reflexive quiet.
Proof. by split. Qed.
#[export] Instance quiet_trans : Transitive quiet.
Proof. intros w1 w2 w3 [] []. split; try congruence. lia. Qed.

Section Outside.
Context `{Sha : Sha256} `{Json : NodeJson} (env : nat -> Answer).

Lemma wp_ask {E} (Q : result E Answer -> World -> Prop) w :
  (forall a w', quiet w w' -> Q (Ok a) w') -> wp (ask env) Q w.
Proof. intros H. apply H. split; try done. cbn. lia. Qed.
Lemma wp_ask_env {E} (Q : result E Answer -> World -> Prop) w :
  (forall w', quiet w w' -> Q (Ok (env (w_asked w))) w') -> wp (ask env) Q w.
Proof. intros H. apply H. split; try done. cbn. lia. Qed.
Lemma wp_outside Q w : (forall r w', quiet w w' -> r = Ok tt \/ r = Err System -> Q r w') -> wp (outside env) Q w.
Proof. intros H. apply wp_bind, wp_ask. intros a w' Hq. case_match; apply H; auto. Qed.
Lemma wp_instant_now {E} (Q : result E Z -> World -> Prop) w :
  (forall w', quiet w w' -> Q (Ok (w_now w')) w') -> wp (instant_now env) Q w.
Proof. intros H. apply wp_bind, wp_ask. intros a w' Hq. by apply H. Qed.
Lemma wp_sleep {E} d (Q : result E unit -> World -> Prop) w :
  0 <= d -> (forall w', quiet w w' -> w_now w + d <= w_now w' -> Q (Ok tt) w') -> wp (sleep env d) Q w.
Proof.
  intros Hd H. apply wp_bind, wp_modify, wp_bind, wp_ask. intros a w' Hq. apply wp_ret, H.
  - destruct Hq as [? ? ? ? Hn]. split; try done. cbn in Hn. lia.
  - by destruct Hq.
Qed.
Lemma wp_unix_timestamp Q w : (forall r w', quiet w w' -> Q r w') -> wp (unix_timestamp env) Q w.
Proof.
  intros H. apply wp_bind, wp_ask. intros a w' Hq. apply wp_check; [intros ? _|auto].
  apply wp_check; [intros ? _|auto]. by apply H.
Qed.

Lemma wp_query {A} (f : Db -> host_result A) Q w :
  (forall a w', quiet w w' -> f (w_db w) = Ok a -> Q (Ok a) w') ->
  (forall e w', quiet w w' -> Q (Err e) w') -> wp (query env f) Q w.
Proof.
  intros Hok Herr. apply wp_bind, wp_ask. intros a w' Hq. case_match; [|by apply Herr].
  apply wp_bind, wp_gets, wp_lift. rewrite (q_db _ _ Hq). destruct (f (w_db w)) eqn:Ef; [by apply Hok|by apply Herr].
Qed.
Lemma wp_transact {A} (f : Db -> host_result (A * Db)) Q w :
  (forall e w', quiet w w' -> Q (Err e) w') ->
  (forall a db' w', quiet w w' -> f (w_db w) = Ok (a, db') ->
     Q (Ok a) (on_db db' w') /\ Q (Err Sqlite) (on_db db' w')) ->
  wp (transact env f) Q w.
Proof.
  intros Herr Hok. apply wp_bind, wp_ask. intros a w' Hq. case_match; [|by apply Herr].
  apply wp_bind, wp_gets, wp_bind, wp_lift. rewrite (q_db _ _ Hq).
  destruct (f (w_db w)) as [[b db']|e] eqn:Ef; [|by apply Herr].
  destruct (Hok b db' w' Hq eq_refl). case_match; [by apply wp_bind, wp_modify|by apply Herr|by apply wp_bind, wp_modify].
Qed.
Lemma wp_write (f : Db -> host_result Db) Q w :
  (forall e w', quiet w w' -> Q (Err e) w') ->
  (forall db' w', quiet w w' -> f (w_db w) = Ok db' ->
     Q (Ok tt) (on_db db' w') /\ Q (Err Sqlite) (on_db db' w')) ->
  wp (write env f) Q w.
Proof.
  intros Herr Hok. apply wp_transact; [done|]. intros [] db' w' Hq E.
  apply bind_Ok in E as (db2 & E & [= ->]). by apply Hok.
Qed.
End Outside.

(** ** Histories *)

(** How far the candidate that is running has been proven: started, its
    listener seen, seen again after the stabilization period, and its gate
    seen, at which points the log says so *)
Inductive Health : Type :=
| HNone
| HStarted (c : ValidatedXrayCandidate)
| HListening (c : ValidatedXrayCandidate) (since : Z)
| HStable (c : ValidatedXrayCandidate)
| HGated (c : ValidatedXrayCandidate).
Definition health_step (period : Z) (h : Health) (e : Event) : Health :=
  match e, h with
  | EvSpawned _ c, _ => HStarted c
  | EvReaped _, _ => HNone
  | EvListening p t, HStarted c => if p =? vc_listen_port c then HListening c t else h
  | EvListening p t, HListening c since => if (p =? vc_listen_port c) && (since + period <=? t) then HStable c else h
  | EvGateReady p, HStable c => if bool_decide (vc_public_port c = Some p) then HGated c else h
  | _, _ => h
  end.
Definition health (period : Z) (log : list Event) : Health := foldr (fun e h => health_step period h e) HNone log.
(** A revision is proven if it needs no gate and is stable, or its gate is up. *)
Definition proven (h : Health) (r : Z) : Prop :=
  match h with
  | HStable c => vc_revision c = r /\ vc_public_port c = None
  | HGated c => vc_revision c = r
  | _ => False
  end.

Fixpoint last_db (start : Db) (log : list Event) : Db :=
  match log with
  | [] => start
  | EvDurable db :: _ => db
  | _ :: log => last_db start log
  end.
Definition applied (db : Db) : option Z := ac_applied_revision (active db).

(** A candidate that was rendered and validated for a revision *)
Definition candidate_of (db : Db) (r : Z) (c : ValidatedXrayCandidate) : Prop :=
  vc_revision c = r /\ exists rd, rendered db !! r = Some rd /\ vc_config_digest c = rd_config_digest rd /\
    runtime_from_hex (rd_binary_digest rd) = Some (vc_binary_digest c).

Lemma candidate_grows db db' r c : rendered db ⊆ rendered db' -> candidate_of db r c -> candidate_of db' r c.
Proof. intros Hs (Hr & rd & Hrd & H). split; [done|]. exists rd. split; [by eapply lookup_weaken|done]. Qed.

Section History.
Context `{Sha : Sha256} `{Json : NodeJson} {JsonLaws : NodeJsonLaws Json} {Tr : Trusted}.
Context (start : Db) (period : Z).

(** Every durable state follows from the one before by a [db_step], and the
    active revision changes only to one that is proven. *)
Inductive history : list Event -> Prop :=
| history_start : history []
| history_durable db log :
    history log -> db_step (last_db start log) db ->
    (applied db = applied (last_db start log) \/ exists r, applied db = Some r /\ proven (health period log) r) ->
    history (EvDurable db :: log)
| history_other e log : history log -> (forall db, e <> EvDurable db) -> history (e :: log).

Lemma history_tail newer older : history (newer ++ older) -> history older.
Proof. induction newer as [|e newer IH]; [done|]. cbn. inversion 1; subst; auto. Qed.
Lemma history_durable_inv db log : history (EvDurable db :: log) ->
  applied db = applied (last_db start log) \/ exists r, applied db = Some r /\ proven (health period log) r.
Proof. inversion 1 as [|? ? ? ? Hp|? ? ? He]; subst; [done|]. by destruct (He db). Qed.

Definition owned (s : XraySupervisor) : gset nat := match sv_child s with Some pid => {[pid]} | None => ∅ end.
Record sound (w : World) : Prop := mkSound {
  s_history : history (w_log w);
  s_db : w_db w = last_db start (w_log w);
  s_consistent : consistent (w_db w);
  s_processes : w_processes w = owned (w_supervisor w);
  s_running : forall r, sv_running_revision (w_supervisor w) = Some r ->
    applied (w_db w) = Some r /\ is_Some (sv_child (w_supervisor w));
  s_period : op_stabilization_duration (sv_options (w_supervisor w)) = period;
  s_interval : 0 < op_probe_interval (sv_options (w_supervisor w));
  s_spawned : forall pid c, EvSpawned pid c ∈ w_log w -> candidate_of (w_db w) (vc_revision c) c;
}.

Lemma sound_quiet w w' : quiet w w' -> sound w -> sound w'.
Proof. intros [Hd Hs Hp Hl _] []. split; rewrite ?Hd, ?Hs, ?Hp, ?Hl; done. Qed.

Lemma sound_durable w db' :
  sound w -> db_step (w_db w) db' ->
  (applied db' = applied (w_db w) \/
   (exists r, applied db' = Some r /\ proven (health period (w_log w)) r) /\
   sv_running_revision (w_supervisor w) = None) ->
  sound (on_db db' w).
Proof.
  intros [Hh Hd Hc Hp Hr Hs Hi Hsp] Hstep Ha. split; cbn; try done.
  - constructor; [done|by rewrite <- Hd|]. rewrite <- Hd. destruct Ha as [?|[? _]]; auto.
  - by eapply db_step_preserves.
  - intros r E. destruct (Hr _ E) as [? ?]. split; [|done]. destruct Ha as [->|[_ Hn]]; congruence.
  - intros pid c [[=]|Hin]%elem_of_cons. eapply candidate_grows; [by apply db_step_rendered|eauto].
Qed.

(** Events that are not durable states *)
Lemma sound_event w e :
  sound w -> (forall db, e <> EvDurable db) ->
  (forall pid c, e = EvSpawned pid c -> candidate_of (w_db w) (vc_revision c) c) -> sound (on_log e w).
Proof.
  intros [Hh Hd Hc Hp Hr Hs Hi Hsp] He Hc'. split; cbn; try done.
  - by constructor.
  - destruct e; try done. by destruct (He db).
  - intros pid c [<-|Hin]%elem_of_cons; eauto.
Qed.
Lemma sound_supervisor w f :
  sound w -> w_processes w = owned (f (w_supervisor w)) ->
  (forall r, sv_running_revision (f (w_supervisor w)) = Some r ->
     applied (w_db w) = Some r /\ is_Some (sv_child (f (w_supervisor w)))) ->
  op_stabilization_duration (sv_options (f (w_supervisor w))) = period ->
  0 < op_probe_interval (sv_options (f (w_supervisor w))) ->
  sound (on_supervisor f w).
Proof. intros [] Hp Hr Hs Hi. by split. Qed.
End History.
