(* ===== verification/NodeHostSafety.v ===== *)
(** * Every function of the supervisor is sound

    For each function of [NodeHostRuntime] and [NodeHostSync] what it does to
    a sound world, whatever the outside answers: the world stays sound, and
    what the callers rely on. *)
From S2P Require Import Prelude Text Clock ProtoTypes ProtoAuth ProtoNode ProtoSigned NodeHostDb NodeHostRuntime.
From S2P Require Import NodeHostSync NodeHostFacts NodeHostLogic.
Open Scope Z_scope.

Ltac wp_step :=
  lazymatch goal with
  | |- wp (mbind _ _) _ _ => apply wp_bind
  | |- wp (mret _) _ _ => apply wp_ret
  | |- wp (fail _) _ _ => apply wp_fail
  | |- wp (lift _) _ _ => apply wp_lift
  | |- wp (gets _) _ _ => apply wp_gets
  | |- wp supervisor _ _ => apply wp_gets
  | |- wp (modify _) _ _ => apply wp_modify
  | |- wp (update _) _ _ => apply wp_modify
  | |- wp clear_running_marker _ _ => apply wp_modify
  | |- wp (attempt _) _ _ => apply wp_attempt
  | |- wp (failing_with _ _) _ _ => apply wp_failing_with
  | |- wp (in_context _ _) _ _ => apply wp_failing_with
  end; cbv beta; cbn [map_err].
Ltac wp_steps := repeat wp_step.

(** The codes of this program *)
Definition known_failure (f : ActivationFailure) : Prop := forall code, af_code f <> Unknown code.

Section Safety.
Context `{Sha : Sha256} `{Json : NodeJson} {JsonLaws : NodeJsonLaws Json} {Tr : Trusted} (env : nat -> Answer).
Context (start : Db) (period : Z).
Abbreviation sound := (sound start period).
Abbreviation health := (health period).

(** ** The child process *)

(** A process that is gone is no longer owned. *)
Lemma sound_reaped w pid f :
  sound w -> sv_child (w_supervisor w) = Some pid ->
  sv_child (f (w_supervisor w)) = None -> sv_running_revision (f (w_supervisor w)) = None ->
  sv_options (f (w_supervisor w)) = sv_options (w_supervisor w) ->
  sound (on_supervisor f (on_log (EvReaped pid) (on_processes (w_processes w ∖ {[pid]}) w))).
Proof.
  intros S Hc Hf Hr Ho. destruct S as [Hh Hd Hcons Hp Hrun Hs Hi Hsp]. split; cbn; try done.
  - by apply history_other.
  - rewrite Hp. unfold owned. rewrite Hc, Hf. set_solver.
  - intros r E. congruence.
  - by rewrite Ho.
  - by rewrite Ho.
  - intros pid' c [[=]|Hin]%elem_of_cons; eauto.
Qed.
Lemma sound_cleared w : sound w -> sound (on_supervisor (set_running None None None) w).
Proof. intros S. apply sound_supervisor; try by destruct S. Qed.

Definition stopped (w w' : World) (r : host_result unit) : Prop :=
  sound w' /\ w_db w' = w_db w /\ sv_running_revision (w_supervisor w') = None /\
  sv_admission (w_supervisor w') = None /\ (r = Ok tt -> sv_child (w_supervisor w') = None) /\
  sv_options (w_supervisor w') = sv_options (w_supervisor w) /\ r <> Err Diverges.

(** Nothing runs, the child is still owned. *)
Definition idle (w w' : World) : Prop :=
  sound w' /\ w_db w' = w_db w /\ sv_running_revision (w_supervisor w') = None /\
  sv_child (w_supervisor w') = sv_child (w_supervisor w) /\
  sv_options (w_supervisor w') = sv_options (w_supervisor w).
Lemma idle_quiet w w1 w2 : idle w w1 -> quiet w1 w2 -> idle w w2.
Proof.
  intros (S & Hd & Hr & Hc & Ho) Hq. split; [by eapply sound_quiet|]. destruct Hq as [-> -> _ _ _]. done.
Qed.
Lemma idle_supervisor w w1 f :
  idle w w1 -> sv_child (f (w_supervisor w1)) = sv_child (w_supervisor w1) ->
  sv_running_revision (f (w_supervisor w1)) = None ->
  sv_options (f (w_supervisor w1)) = sv_options (w_supervisor w1) -> idle w (on_supervisor f w1).
Proof.
  intros (S & Hd & Hr & Hc & Ho) H1 H2 H3. split_and!; cbn; try congruence.
  apply sound_supervisor; rewrite ?H3; try by destruct S.
  - unfold owned. rewrite H1. by destruct S.
  - intros r. congruence.
Qed.

Lemma stop_gate_spec {E} w w1 : idle w w1 ->
  wp (stop_gate env (E := E)) (fun r w' => (exists e, r = Ok e /\ e <> Some Diverges) /\ idle w w') w1.
Proof.
  intros I1. unfold stop_gate. wp_step. wp_step. destruct (sv_admission (w_supervisor w1)) as [gate|]; [|by wp_step; eauto].
  wp_step. apply wp_ask. intros a w2 Hq. wp_step. wp_step. wp_step. wp_step. apply wp_outside. intros r w3 Hq3 Hr.
  wp_step. split; [destruct Hr as [->| ->]; eauto|]. eapply idle_quiet; [|exact Hq3].
  pose proof (idle_quiet _ _ _ I1 Hq) as I2. apply idle_supervisor; try done. by destruct I2 as (_ & _ & ? & _).
Qed.
Lemma stop_child_spec e w w1 : idle w w1 ->
  wp (stop_child env e) (fun r w' => sv_admission (w_supervisor w') = sv_admission (w_supervisor w1) /\
    match r with Ok _ => sound (on_supervisor (set_child None) w') /\ w_db w' = w_db w /\
                         sv_running_revision (w_supervisor w') = None /\
                         sv_options (w_supervisor w') = sv_options (w_supervisor w)
               | Err e => idle w w' /\ e <> Diverges end) w1.
Proof.
  intros I1. unfold stop_child. wp_step. wp_step.
  destruct (sv_child (w_supervisor w1)) as [pid|] eqn:Hp; wp_step.
  - unfold kill_and_wait. wp_step. apply wp_ask. intros a w2 Hq.
    pose proof (idle_quiet _ _ _ I1 Hq) as I2. rewrite <- (q_supervisor _ _ Hq) in Hp.
    destruct (an_succeeds a); wp_step; cbn [map_err]; (split; [cbn; by rewrite (q_supervisor _ _ Hq)|]);
      [|split; [done|by destruct e]].
    destruct I2 as (S & Hd & Hr & Hc & Ho). split_and!; [|done..]. by apply sound_reaped.
  - split; [done|]. destruct I1 as (S & Hd & Hr & Hc & Ho). split_and!; try done.
    apply sound_supervisor; cbn; try by destruct S.
    + rewrite (s_processes _ _ _ S). unfold owned. cbn. by rewrite Hp.
    + intros r. congruence.
Qed.
Lemma stop_runtime_spec w : sound w -> wp (stop_runtime env) (fun r w' => stopped w w' r) w.
Proof.
  intros S. unfold stop_runtime. wp_step. wp_step. wp_step.
  eapply wp_mono; [apply (stop_gate_spec w)|].
  { split; [by apply sound_cleared|done]. }
  intros _ w1 [(e & -> & He) I1]. wp_step. wp_step. wp_step.
  eapply wp_mono; [apply (stop_child_spec _ w)|].
  { apply idle_supervisor; try done. by destruct I1 as (_ & _ & ? & _). }
  intros [[]|e2] w2 [Ha H]; cbn in Ha.
  - destruct H as (S2 & Hd & Hr & Ho). wp_step. wp_step. destruct e; wp_step; split_and!; try done. congruence.
  - destruct H as ((S2 & Hd & Hr & _ & Ho) & Hne). split_and!; try done. congruence.
Qed.

(** [owned_child_status]: the child is alive, or it is gone and forgotten. *)
Definition child_seen (w w' : World) (r : host_result bool) : Prop :=
  sound w' /\ w_db w' = w_db w /\ w_now w <= w_now w' /\
  sv_options (w_supervisor w') = sv_options (w_supervisor w) /\
  sv_admission (w_supervisor w') = sv_admission (w_supervisor w) /\
  match r with
  | Ok true => sv_child (w_supervisor w') = None /\ sv_running_revision (w_supervisor w') = None
  | Ok false => w_supervisor w' = w_supervisor w /\ is_Some (sv_child (w_supervisor w)) /\
                health (w_log w') = health (w_log w)
  | Err e => w_supervisor w' = w_supervisor w /\ e <> Diverges
  end.
Lemma try_wait_spec w pid :
  sound w -> sv_child (w_supervisor w) = Some pid ->
  wp (try_wait env pid) (fun r w' =>
    match r with
    | Ok true => exists w1, quiet w w1 /\
        w' = on_log (EvReaped pid) (on_processes (w_processes w1 ∖ {[pid]}) w1)
    | Ok false => exists w1, quiet w w1 /\ w' = on_log (EvAlive pid) w1
    | Err e => quiet w w' /\ e <> Diverges
    end) w.
Proof.
  intros S Hc. unfold try_wait. wp_step. apply wp_ask. intros a w1 Hq.
  destruct (an_succeeds a); [|by wp_step]. destruct (an_exited a); wp_step; wp_step; wp_step; eauto.
Qed.
Lemma alive_seen w w1 pid : sound w -> sv_child (w_supervisor w) = Some pid -> quiet w w1 ->
  child_seen w (on_log (EvAlive pid) w1) (Ok false).
Proof.
  intros S Hc Hq. unfold child_seen, NodeHostLogic.health. cbn.
  rewrite (q_db _ _ Hq), (q_supervisor _ _ Hq), (q_log _ _ Hq), Hc.
  split_and!; try done; [|by destruct Hq]. apply sound_event; [by eapply sound_quiet|done..].
Qed.
Lemma gone_seen w w1 pid : sound w -> sv_child (w_supervisor w) = Some pid -> quiet w w1 ->
  child_seen w (on_supervisor (set_running None None None) (on_supervisor (set_child None)
    (on_log (EvReaped pid) (on_processes (w_processes w1 ∖ {[pid]}) w1)))) (Ok true).
Proof.
  intros S Hc Hq. unfold child_seen. cbn. rewrite (q_db _ _ Hq), (q_supervisor _ _ Hq).
  split_and!; try done; [|by destruct Hq]. pose proof (sound_quiet _ _ _ _ Hq S) as S1.
  apply (sound_reaped w1 pid (fun s => set_running None None None (set_child None s))); try done.
  by rewrite (q_supervisor _ _ Hq).
Qed.
Lemma owned_child_status_spec w : sound w -> wp (owned_child_status env) (fun r w' => child_seen w w' r) w.
Proof.
  intros S. assert (forall w1 e, quiet w w1 -> e <> Diverges -> child_seen w w1 (Err e)) as Herr.
  { intros w1 e Hq He. unfold child_seen. rewrite (q_db _ _ Hq), (q_supervisor _ _ Hq).
    split_and!; try done; [by eapply sound_quiet|by destruct Hq]. }
  unfold owned_child_status. wp_step. wp_step. apply wp_check.
  2: { intros e He. apply Herr; [done|]. unfold present_or, ok_or in He. by case_match; simplify_eq. }
  intros pid Hc. apply ok_or_Ok in Hc. wp_step. eapply wp_mono; [by apply try_wait_spec|].
  intros [[]|e] w1 H; [| |by apply Herr; destruct H].
  - destruct H as (w2 & Hq & ->). wp_step. wp_step. wp_step. wp_step. wp_step. by apply gone_seen.
  - destruct H as (w2 & Hq & ->). wp_step. by apply alive_seen.
Qed.

(** ** Health checks *)

(** A check that failed: nothing is marked as running, and the code is known. *)
Definition failed (w w' : World) (f : ActivationFailure) : Prop :=
  sound w' /\ w_db w' = w_db w /\ sv_running_revision (w_supervisor w') = None /\ known_failure f /\
  af_error f <> Diverges.
Lemma stop_after_health_failure_spec {E} w0 w f :
  sound w -> w_db w = w_db w0 -> known_failure f -> af_error f <> Diverges ->
  wp (stop_after_health_failure env f (E := E)) (fun r w' => exists f', r = Ok f' /\ failed w0 w' f') w.
Proof.
  intros S Hd Hk Hf. unfold stop_after_health_failure. wp_step. wp_step.
  eapply wp_mono; [by apply stop_runtime_spec|]. intros r w' (S' & Hd' & Hr & _ & _ & _ & He). wp_step.
  eexists; split; [done|]. split_and!; try done; [congruence|by destruct r|]. destruct r as [?|e]; [done|].
  cbn. congruence.
Qed.

(** The candidate [c] is up to what [h] says, and nothing is marked as running. *)
Definition trying (w0 w : World) (h : Health) : Prop :=
  sound w /\ w_db w = w_db w0 /\ sv_running_revision (w_supervisor w) = None /\
  sv_options (w_supervisor w) = sv_options (w_supervisor w0) /\ health (w_log w) = h /\
  is_Some (sv_child (w_supervisor w)).
Lemma trying_quiet w0 w w' h : trying w0 w h -> quiet w w' -> trying w0 w' h.
Proof.
  intros (S & Hd & Hr & Ho & Hh & Hc) Hq. split; [by eapply sound_quiet|].
  by rewrite (q_db _ _ Hq), (q_supervisor _ _ Hq), (q_log _ _ Hq).
Qed.
(** The child was looked at. *)
Lemma trying_seen w0 w w' h r :
  trying w0 w h -> child_seen w w' r ->
  match r with
  | Ok false => trying w0 w' h
  | Ok true => forall f, known_failure f -> af_error f <> Diverges -> failed w0 w' f
  | Err e => forall f, known_failure f -> af_error f = e -> failed w0 w' f
  end.
Proof.
  intros (S & Hd & Hr & Ho & Hh & Hc) (S' & Hd' & Hn & Ho' & _ & H). destruct r as [[]|e].
  - intros f Hk He. split_and!; try done; [congruence|by destruct H].
  - destruct H as (Hs & _ & Hl). split_and!; try done; congruence.
  - intros f Hk He. destruct H as [Hs Hne]. split_and!; try done; congruence.
Qed.

Lemma wait_until_listening_spec fuel deadline w0 w c :
  trying w0 w (HStarted c) ->
  deadline <= w_now w + Z.of_nat fuel * op_probe_interval (sv_options (w_supervisor w0)) ->
  wp (wait_until_listening env (S fuel) (vc_listen_port c) deadline) (fun r w' =>
    match r with
    | Ok _ => exists t, trying w0 w' (HListening c t) /\ t <= w_now w'
    | Err f => failed w0 w' f
    end) w.
Proof.
  revert w. induction fuel as [fuel IH] using lt_wf_ind; intros w T Hdl.
  cbn [wait_until_listening]. wp_step. wp_step.
  eapply wp_mono; [by apply owned_child_status_spec; destruct T|]. intros r w1 Hs.
  pose proof (trying_seen _ _ _ _ _ T Hs) as Hseen. destruct r as [[]|e]; cbn [map_err].
  { wp_step. by apply Hseen. }
  2: { by apply Hseen. }
  assert (w_now w <= w_now w1) as Hn1 by apply Hs. wp_step. unfold listener_is_ready. wp_step.
  apply wp_ask. intros a w2 Hq. pose proof (trying_quiet _ _ _ _ Hseen Hq) as T2.
  destruct (an_succeeds a); wp_step; wp_step.
  - wp_step. wp_step. exists (w_now w2). split; [|done]. destruct T2 as (S2 & Hd & Hr & Ho & Hh & Hc).
    split_and!; try done; [by apply sound_event|]. unfold NodeHostLogic.health in *. cbn. by rewrite Hh; cbn; rewrite Z.eqb_refl.
  - apply wp_instant_now. intros w3 Hq3. pose proof (trying_quiet _ _ _ _ T2 Hq3) as T3.
    assert (w_now w <= w_now w3) as Hn3 by (destruct Hq, Hq3; lia).
    destruct (Z.leb_spec deadline (w_now w3)) as [Hl|Hl].
    + wp_step. eapply wp_mono; [apply (stop_after_health_failure_spec w0); try by destruct T3|].
      { by apply T3. }
      intros _ w4 (f & -> & Hf). by wp_step.
    + destruct T3 as (S3 & Hd & Hr & Ho & Hh & Hc). wp_step. wp_step. wp_step. pose proof (s_interval _ _ _ S3) as Hi.
      apply wp_sleep; [lia|]. intros w4 Hq4 Hn4. destruct fuel as [|fuel]; [lia|].
      rewrite Ho in *. apply IH; [lia|by apply (trying_quiet _ w3)|lia].
Qed.

Lemma stabilize_spec fuel deadline w0 w h :
  trying w0 w h ->
  deadline <= w_now w + Z.of_nat fuel * op_probe_interval (sv_options (w_supervisor w0)) ->
  wp (stabilize env (S fuel) deadline) (fun r w' =>
    match r with
    | Ok _ => trying w0 w' h /\ deadline <= w_now w'
    | Err f => failed w0 w' f
    end) w.
Proof.
  revert w. induction fuel as [fuel IH] using lt_wf_ind; intros w T Hdl.
  cbn [stabilize]. wp_step. apply wp_instant_now. intros w1 Hq1. pose proof (trying_quiet _ _ _ _ T Hq1) as T1.
  destruct (Z.ltb_spec (w_now w1) deadline) as [Hl|Hl]; [|by wp_step]. wp_step. wp_step.
  eapply wp_mono; [by apply owned_child_status_spec; destruct T1|]. intros r w2 Hs.
  pose proof (trying_seen _ _ _ _ _ T1 Hs) as Hseen. destruct r as [[]|e]; cbn [map_err].
  { wp_step. by apply Hseen. }
  2: { by apply Hseen. }
  assert (w_now w <= w_now w2) as Hn2 by (destruct Hq1, Hs as (_ & _ & ? & _); lia).
  destruct Hseen as (S2 & Hd & Hr & Ho & Hh & Hc). wp_step. wp_step. wp_step. pose proof (s_interval _ _ _ S2) as Hi.
  apply wp_sleep; [lia|]. intros w3 Hq3 Hn3. destruct fuel as [|fuel]; [destruct Hq1; lia|].
  rewrite Ho in *. apply IH; [lia|by apply (trying_quiet _ w2)|lia].
Qed.

Lemma rounds_enough duration interval : 0 < interval ->
  duration <= Z.of_nat (S (Z.to_nat (duration / interval))) * interval.
Proof. intros Hi. pose proof (Z.mul_succ_div_gt duration interval Hi). destruct (Z.leb_spec 0 (duration / interval)); nia. Qed.

Lemma prove_owned_child_healthy_spec w0 w c :
  trying w0 w (HStarted c) ->
  wp (prove_owned_child_healthy env (vc_listen_port c)) (fun r w' =>
    match r with Ok _ => trying w0 w' (HStable c) | Err f => failed w0 w' f end) w.
Proof.
  intros T. assert (0 < op_probe_interval (sv_options (w_supervisor w))) as Hi by (destruct T as ([] & _); done).
  assert (op_stabilization_duration (sv_options (w_supervisor w)) = period) as Hp by (destruct T as ([] & _); done).
  assert (sv_options (w_supervisor w) = sv_options (w_supervisor w0)) as Ho by apply T.
  unfold prove_owned_child_healthy. wp_step. wp_step. wp_step. apply wp_instant_now. intros w1 Hq1. wp_step.
  eapply wp_mono; [eapply wait_until_listening_spec; [by eapply trying_quiet|]|].
  { pose proof (rounds_enough (op_startup_timeout (sv_options (w_supervisor w))) _ Hi). rewrite <- Ho. lia. }
  intros [[]|f] w2 H; [|done]. destruct H as (t & T2 & Ht). wp_step. apply wp_instant_now. intros w3 Hq3. wp_step.
  eapply wp_mono; [eapply stabilize_spec; [by eapply trying_quiet|]|].
  { pose proof (rounds_enough (op_stabilization_duration (sv_options (w_supervisor w))) _ Hi). rewrite <- Ho. lia. }
  intros [[]|f] w4 H; [|done]. destruct H as [T4 H4]. wp_step. unfold listener_is_ready. wp_step.
  apply wp_ask. intros a w5 Hq5. pose proof (trying_quiet _ _ _ _ T4 Hq5) as T5.
  destruct (an_succeeds a); wp_step; wp_step.
  - wp_step. wp_step. destruct T5 as (S5 & Hd & Hr & Ho5 & Hh & Hc).
    split_and!; try done; [by apply sound_event|]. unfold NodeHostLogic.health in *. cbn. rewrite Hh. cbn.
    rewrite Z.eqb_refl. rewrite Hp in H4. destruct Hq3, Hq5. by destruct (Z.leb_spec (t + period) (w_now w5)); [|lia].
  - eapply wp_mono; [apply (stop_after_health_failure_spec w0); try by destruct T5|]; [by apply T5|].
    intros _ w6 (f & -> & Hf). by wp_step.
Qed.

Lemma trying_supervisor w0 w h f :
  trying w0 w h -> sv_child (f (w_supervisor w)) = sv_child (w_supervisor w) ->
  sv_running_revision (f (w_supervisor w)) = None ->
  sv_options (f (w_supervisor w)) = sv_options (w_supervisor w) -> trying w0 (on_supervisor f w) h.
Proof.
  intros (S & Hd & Hr & Ho & Hh & Hc) H1 H2 H3. split_and!; cbn; try done; try congruence.
  apply sound_supervisor; rewrite ?H3; try by destruct S.
  - unfold owned. rewrite H1. by destruct S.
  - intros r. congruence.
Qed.
Lemma trying_failed w0 w h f : trying w0 w h -> known_failure f -> af_error f <> Diverges -> failed w0 w f.
Proof. intros (S & Hd & Hr & _) Hk He. by split_and!. Qed.

Lemma ensure_then_Err {E A} b (e x : E) (m : result E A) :
  (_ ← ensure b e; m) = Err x -> x = e \/ m = Err x.
Proof. destruct b; cbn; [by right|]. intros [= ->]. by left. Qed.
Lemma gate_start_spec public backend options w :
  wp (gate_start env public backend options) (fun r w' => quiet w w' /\ r <> Err Diverges) w.
Proof.
  unfold gate_start. apply wp_check; [intros _ _|intros e He; unfold ensure in He; by case_match; simplify_eq].
  apply wp_check.
  - intros o _. wp_step. apply wp_outside. intros r w' Hq [->| ->]; [by wp_step|done].
  - intros e He. split; [done|]. intros [= ->]. unfold admission_validate, gate_delay in He.
    repeat (apply ensure_then_Err in He as [He|He]; [done|]). done.
Qed.
Lemma start_admission_spec w0 w c :
  trying w0 w (HStable c) ->
  wp (start_admission env c) (fun r w' =>
    match r with
    | Ok _ => exists h, trying w0 w' h /\ proven h (vc_revision c)
    | Err f => failed w0 w' f
    end) w.
Proof.
  intros T. unfold start_admission. destruct (vc_public_port c) as [port|] eqn:Hport.
  2: { wp_step. by exists (HStable c). }
  wp_step. wp_step. wp_step. wp_step. eapply wp_mono; [apply gate_start_spec|].
  intros [gate|e] w1 [Hq He]; cbn [map_err].
  2: { eapply trying_failed; [by eapply trying_quiet|done|]. cbn. congruence. }
  pose proof (trying_quiet _ _ _ _ T Hq) as T1. wp_step. wp_step. wp_step. wp_step.
  set (w2 := on_supervisor _ _). assert (trying w0 w2 (HStable c)) as T2.
  { apply trying_supervisor; try done; [|by apply T1]. apply trying_supervisor; try done. by apply T1. }
  clearbody w2. wp_step. wp_step. wp_step. apply wp_outside. intros r w3 Hq3 Hr.
  pose proof (trying_quiet _ _ _ _ T2 Hq3) as T3.
  destruct Hr as [->| ->]; [|by eapply trying_failed]. wp_step. wp_step. wp_step.
  assert (trying w0 (on_log (EvGateReady port) w3) (HGated c)) as T4.
  { destruct T3 as (S3 & Hd & Hrr & Ho & Hh & Hc). split_and!; try done; [by apply sound_event|].
    unfold NodeHostLogic.health in *. cbn. rewrite Hh. cbn. by rewrite Hport, bool_decide_eq_true_2. }
  eapply wp_mono; [by apply owned_child_status_spec; destruct T4|]. intros r w5 Hs.
  pose proof (trying_seen _ _ _ _ _ T4 Hs) as Hseen. destruct r as [[]|e]; cbn [map_err]; try wp_step.
  - by apply Hseen.
  - by exists (HGated c).
  - by apply Hseen.
Qed.
End Safety.
