(* ===== verification/NodeHostSupervisor.v ===== *)
(** * The supervisor is sound

    What [reconcile], [recover] and the other entry points of the supervisor
    do to a sound world, from the parts specified in [NodeHostSafety]. *)
From S2P Require Import Prelude Text Clock ProtoTypes ProtoAuth ProtoNode ProtoSigned NodeHostDb NodeHostRuntime.
From S2P Require Import NodeHostSync NodeHostFacts NodeHostLogic NodeHostSafety.
Open Scope Z_scope.

Section Supervisor.
Context `{Sha : Sha256} `{Json : NodeJson} {JsonLaws : NodeJsonLaws Json} {Tr : Trusted} (env : nat -> Answer).
Context (start : Db) (period : Z).
Abbreviation sound := (sound start period).
Abbreviation health := (health period).
Abbreviation stopped := (stopped start period).
Abbreviation failed := (failed start period).
Abbreviation trying := (trying start period).

(** ** Starting a candidate *)

Lemma spawn_candidate_spec w c :
  wp (spawn_candidate env c) (fun r w' =>
    match r with
    | Ok pid => exists w1, quiet w w1 /\ w' = on_log (EvSpawned pid c) (on_processes ({[pid]} ∪ w_processes w1) w1)
    | Err f => quiet w w' /\ known_failure f /\ af_error f <> Diverges
    end) w.
Proof.
  unfold spawn_candidate.
  apply wp_check; [intros hex _|intros f E; unfold ok_or in E; case_match; by simplify_eq].
  apply wp_check; [intros d _|intros f E; unfold ok_or in E; case_match; by simplify_eq].
  apply wp_check; [intros [] _|intros f E; unfold ensure in E; case_match; by simplify_eq].
  apply wp_check; [intros [] _|intros f E; unfold ensure in E; case_match; by simplify_eq].
  wp_step. wp_step. apply wp_outside. intros r w1 Hq1 [->| ->]; cbn [map_err]; [|done].
  wp_step. apply wp_ask. intros a w2 Hq2. assert (quiet w w2) as Hq by (by etrans).
  destruct (an_succeeds a); [|by wp_step]. wp_step. wp_step. wp_step. wp_step. wp_step. eauto.
Qed.
Lemma own_child_spec {E} w w1 pid c :
  sound w -> sv_child (w_supervisor w) = None -> candidate_of (w_db w) (vc_revision c) c -> quiet w w1 ->
  wp (own_child pid (E := E)) (fun r w' => r = Ok tt /\ trying w w' (HStarted c))
    (on_log (EvSpawned pid c) (on_processes ({[pid]} ∪ w_processes w1) w1)).
Proof.
  intros S Hc Hcand Hq. unfold own_child. wp_step. wp_step. wp_step. split; [done|].
  pose proof (sound_quiet _ _ _ _ Hq S) as [Hh Hd Hcons Hp Hrun Hs Hi Hsp].
  split_and!; cbn; try done; [|by destruct Hq|by rewrite (q_supervisor _ _ Hq)].
  split; cbn; try done.
  - by apply history_other.
  - rewrite Hp. unfold owned. cbn. rewrite (q_supervisor _ _ Hq), Hc. set_solver.
  - rewrite (q_db _ _ Hq) in *. intros pid' c' [[= -> ->]|Hin]%elem_of_cons; eauto.
Qed.
Lemma mark_running_spec {E} w0 w h c :
  trying w0 w h -> applied (w_db w) = Some (vc_revision c) ->
  wp (mark_running env c (E := E)) (fun r w' => r = Ok tt /\ sound w' /\ w_db w' = w_db w0 /\
    sv_running_revision (w_supervisor w') = Some (vc_revision c) /\
    sv_options (w_supervisor w') = sv_options (w_supervisor w0)) w.
Proof.
  intros T Ha. unfold mark_running. wp_step. apply wp_instant_now. intros w1 Hq. wp_step.
  pose proof (trying_quiet _ _ _ _ _ _ T Hq) as (S & Hd & Hr & Ho & Hh & Hc). split_and!; try done.
  apply sound_supervisor; cbn; try by destruct S. intros r [= <-].
  by rewrite (q_db _ _ Hq).
Qed.

(** The active revision is started again. *)
Definition restarted (w w' : World) (r : Z) (ok : bool) : Prop :=
  sound w' /\ w_db w' = w_db w /\
  sv_running_revision (w_supervisor w') = (if ok then Some r else None) /\
  (ok = true -> sv_options (w_supervisor w') = sv_options (w_supervisor w)).
Lemma start_proven_candidate_spec w c :
  sound w -> sv_child (w_supervisor w) = None -> sv_running_revision (w_supervisor w) = None ->
  applied (w_db w) = Some (vc_revision c) -> candidate_of (w_db w) (vc_revision c) c ->
  wp (start_proven_candidate env c) (fun r w' => restarted w w' (vc_revision c) (is_ok r)) w.
Proof.
  intros S Hc Hr Ha Hcand. unfold start_proven_candidate. wp_step.
  assert (forall f w1, failed w w1 f ->
    wp (failure ← stop_after_health_failure env f; fail failure)
      (fun (r : result ActivationFailure unit) w' => restarted w w' (vc_revision c) (is_ok r)) w1) as Hfail.
  { intros f w1 (S1 & Hd & Hr1 & Hk & He). wp_step.
    eapply wp_mono; [by apply (stop_after_health_failure_spec env start period w)|].
    intros _ w2 (f' & -> & S2 & Hd2 & Hr2 & _). wp_step. by split_and!. }
  eapply wp_mono; [apply spawn_candidate_spec|]. intros [pid|f] w1 H.
  2: { destruct H as (Hq & _). split_and!; [by eapply sound_quiet|by destruct Hq| |done].
       cbn. by rewrite (q_supervisor _ _ Hq). }
  destruct H as (w2 & Hq & ->). wp_step. eapply wp_mono; [by apply own_child_spec|].
  intros _ w3 [-> T3]. wp_step. wp_step. eapply wp_mono; [by apply prove_owned_child_healthy_spec|].
  intros [[]|f] w4 T4; [|by apply Hfail]. wp_step. wp_step. eapply wp_mono; [by apply start_admission_spec|].
  intros [[]|f] w5 H5; [|by apply Hfail]. destruct H5 as (h & T5 & _).
  eapply wp_mono; [eapply mark_running_spec; [done|]|].
  - destruct T5 as (_ & -> & _). done.
  - intros _ w6 (-> & S6 & Hd & Hr6 & Ho6). by split_and!.
Qed.

(** ** Reading a candidate *)

Lemma verify_config_file_spec path digest w :
  wp (verify_config_file env path digest) (fun _ w' => quiet w w') w.
Proof.
  unfold verify_config_file. wp_step. apply wp_ask. intros a w1 Hq.
  repeat (apply wp_check; [intros ? _|done]). by wp_step.
Qed.
Lemma verify_rendered_config_spec r report w :
  wp (verify_rendered_config env r report) (fun _ w' => quiet w w') w.
Proof.
  unfold verify_rendered_config. wp_step. apply wp_query; [|done]. intros stored w1 Hq _.
  repeat (apply wp_check; [intros ? _|done]).
  eapply wp_mono; [apply verify_config_file_spec|]. intros res w2 Hq2. by etrans.
Qed.
Lemma load_candidate_spec r w :
  wp (load_candidate env r) (fun res w' => quiet w w' /\
    match res with Ok c => candidate_of (w_db w) r c | Err _ => True end) w.
Proof.
  unfold load_candidate. wp_step. apply wp_query; [|done]. intros reports w1 Hq1 _.
  apply wp_check; [intros latest _|done]. apply wp_check; [intros _ _|done].
  wp_step. eapply wp_mono; [apply verify_rendered_config_spec|]. intros res w2 Hq2.
  assert (quiet w w2) as Hq by (by etrans). destruct res as [[]|e]; [|done]. clear Hq1 Hq2.
  wp_step. apply wp_query; [|intros ? ? ?; split; [by etrans|done]]. intros row w3 Hq3 Hrow.
  wp_step. apply wp_query; [|intros ? ? ?; split; [by do 2 etrans|done]]. intros rt w4 Hq4 _.
  assert (quiet w w4) as Hq' by (by do 2 etrans). rewrite (q_db _ _ Hq) in Hrow. apply ok_or_Ok in Hrow.
  clear Hq Hq3 Hq4. apply wp_check; [intros _ _|done].
  apply wp_check; [intros config Hconfig|done]. apply wp_check; [intros binary Hbinary|done].
  apply wp_check; [intros _ _|done]. wp_step. wp_step. apply wp_ask. intros a w5 Hq5.
  assert (quiet w w5) as Hq by (by etrans). clear Hq' Hq5.
  destruct (an_succeeds a); wp_step; [|done].
  wp_step. apply wp_query; [|intros ? ? ?; split; [by etrans|done]]. intros artifact w6 Hq6 _.
  assert (quiet w w6) as Hq' by (by etrans).
  apply wp_check; [intros envelope _|done]. apply wp_check; [intros _ _|done]. wp_step. split; [done|].
  split; [done|]. exists row. split_and!; [done| |by apply ok_or_Ok in Hbinary].
  cbn. apply map_err_Ok in Hconfig. unfold digest_from_str in Hconfig. inv_ok. by inv_ok.
Qed.

(** ** Writing *)

(** The database took steps, the active revision and the supervisor are as
    before. *)
Definition wrote (w w' : World) : Prop :=
  sound w' /\ w_supervisor w' = w_supervisor w /\ applied (w_db w') = applied (w_db w) /\
  rendered (w_db w) ⊆ rendered (w_db w').
Lemma wrote_quiet w w1 w' : quiet w w1 -> wrote w1 w' -> wrote w w'.
Proof.
  intros Hq (S & Hs & Ha & Hr). rewrite (q_db _ _ Hq) in Ha, Hr. rewrite (q_supervisor _ _ Hq) in Hs. by split_and!.
Qed.
Lemma quiet_wrote w w' : sound w -> quiet w w' -> wrote w w'.
Proof.
  intros S Hq. split; [by eapply sound_quiet|]. by rewrite (q_db _ _ Hq), (q_supervisor _ _ Hq).
Qed.
(** One transaction, which takes a step and makes [P] true, or fails *)
Lemma write_spec (P : Db -> Prop) f w : sound w ->
  (forall db', f (w_db w) = Ok db' -> db_step (w_db w) db' /\ applied db' = applied (w_db w) /\ P db') ->
  wp (write env f) (fun r w' => wrote w w' /\ (r <> Ok tt /\ w_db w' = w_db w \/ P (w_db w'))) w.
Proof.
  intros S H. apply wp_write.
  - intros e w' Hq. split; [by apply quiet_wrote|]. left. by destruct Hq.
  - intros db' w' Hq (Hstep & Ha & HP)%H. pose proof (sound_quiet _ _ _ _ Hq S) as S'.
    assert (wrote w (on_db db' w')); [|by auto]. split_and!; cbn; [|by destruct Hq|done|by apply db_step_rendered].
    apply sound_durable; rewrite ?(q_db _ _ Hq); auto.
Qed.

Lemma finish_journal_active db r phase code now db' :
  finish_journal db r phase code now = Ok db' -> active db' = active db.
Proof. by intros (_ & j & _ & _ & ->)%finish_journal_Ok. Qed.
Lemma insert_revision_result_active db r result db' :
  insert_revision_result db r result = Ok db' -> active db' = active db.
Proof. unfold insert_revision_result. intros E. by inv_ok. Qed.

Lemma mark_recovery_required_spec r code w : sound w ->
  wp (mark_recovery_required env r code) (fun _ w' => wrote w w') w.
Proof.
  intros S. unfold mark_recovery_required. wp_step. apply wp_unix_timestamp. intros [now|e] w1 Hq.
  2: { by apply quiet_wrote. }
  eapply wp_mono; [apply (write_spec (fun _ => True)); [by eapply sound_quiet|]|intros res w2 [H2 _]; by eapply wrote_quiet].
  intros db' E. split_and!; [by eapply step_recovery| |done]. unfold applied.
  by rewrite (finish_journal_active _ _ _ _ _ _ E).
Qed.
Lemma update_journal_phase_spec r phase code w : sound w ->
  wp (write env (fun db => update_journal_phase db r phase code))
    (fun _ w' => wrote w w' /\ rendered (w_db w') = rendered (w_db w)) w.
Proof.
  intros S. eapply wp_mono; [apply (write_spec (fun db => rendered db = rendered (w_db w))); [done|]|].
  - intros db' E. split; [by eapply step_phase|]. by apply update_journal_phase_Ok in E as (_ & j & _ & _ & ->).
  - intros res w' [Hw [[_ ->]| ->]]; done.
Qed.
(** At most the counters of the active state changed. *)
Definition restarts (db db' : Db) : Prop := applied db' = applied db /\ db' = set_active (active db') db.
Lemma restarts_eq db db' : db' = db -> restarts db db'.
Proof. intros ->. split; [done|]. by destruct db. Qed.
Lemma record_active_restart_spec r w : sound w ->
  wp (write env (fun db => record_active_restart db r))
    (fun _ w' => wrote w w' /\ restarts (w_db w) (w_db w')) w.
Proof.
  intros S. eapply wp_mono; [apply (write_spec (restarts (w_db w))); [done|]|].
  - intros db' E. split; [by eapply step_restart|]. unfold record_active_restart in E.
    case_bool_decide; [|done]. by inv_ok.
  - intros res w' [Hw [[_ Hd]|Hr]]; split; auto using restarts_eq.
Qed.

(** The activation of [r] is finished, and that of no other revision changed. *)
Definition decided (db db' : Db) (r : Z) : Prop :=
  (forall r' st, r' <> r -> results db' !! (r', st) = results db !! (r', st)) /\
  (forall r', r' <> r -> journal db' !! r' = journal db !! r') /\
  (forall j, journal db' !! r = Some j -> ~ incomplete j) /\
  desired_revision_cursor db' = desired_revision_cursor db.
Lemma insert_finish_decided db r result phase code now db1 db' :
  insert_revision_result db r result = Ok db1 -> finish_journal db1 r phase code now = Ok db' -> decided db db' r.
Proof.
  intros E1 (Hp & j & _ & _ & ->)%finish_journal_Ok. unfold insert_revision_result in E1. inv_ok.
  split_and!; cbn.
  - intros r' st Hne. rewrite lookup_insert_ne; [done|congruence].
  - intros r' Hne. by rewrite lookup_insert_ne.
  - intros j' Hj. rewrite lookup_insert_eq in Hj. injection Hj as <-. unfold incomplete. cbn. congruence.
  - done.
Qed.
Definition finalized (w w' : World) (r : Z) (res : host_result unit) : Prop :=
  wrote w w' /\ (res <> Ok tt /\ w_db w' = w_db w \/ decided (w_db w) (w_db w') r).
Lemma finalized_quiet w w1 w' r res : quiet w w1 -> finalized w1 w' r res -> finalized w w' r res.
Proof. intros Hq [Hw H]. split; [by eapply wrote_quiet|]. by rewrite (q_db _ _ Hq) in H. Qed.
Lemma quiet_finalized w w' r e : sound w -> quiet w w' -> finalized w w' r (Err e).
Proof. intros S Hq. split; [by apply quiet_wrote|]. left. by destruct Hq. Qed.

Lemma finalize_rolled_back_spec j previous code w :
  sound w -> applied (w_db w) = Some (vc_revision previous) -> (forall c, code <> Unknown c) ->
  wp (finalize_rolled_back env j previous code) (fun res w' => finalized w w' (aj_revision j) res) w.
Proof.
  intros S Ha Hk. unfold finalize_rolled_back. wp_step. apply wp_unix_timestamp. intros [now|e] w1 Hq.
  2: { by apply quiet_finalized. }
  apply wp_check; [intros started _|by intros; apply quiet_finalized].
  apply wp_check; [intros completed _|by intros; apply quiet_finalized].
  eapply wp_mono; [apply (write_spec (fun db => decided (w_db w1) db (aj_revision j))); [by eapply sound_quiet|]
                  |intros res w2 H2; by eapply finalized_quiet].
  rewrite (q_db _ _ Hq). intros db' E. split.
  - eapply step_rolled_back; [..|exact E]; cbn; try done. intros c [= Hc]. by eapply Hk.
  - unfold commit_rolled_back in E. apply bind_Ok in E as (db1 & E1 & E2). unfold applied.
    rewrite (finish_journal_active _ _ _ _ _ _ E2), (insert_revision_result_active _ _ _ _ E1).
    split; [done|]. by eapply insert_finish_decided.
Qed.
Lemma finalize_rejected_spec j code w :
  sound w -> applied (w_db w) = None -> (forall c, code <> Unknown c) ->
  wp (finalize_rejected env j code) (fun res w' => finalized w w' (aj_revision j) res) w.
Proof.
  intros S Ha Hk. unfold finalize_rejected. wp_step. apply wp_unix_timestamp. intros [now|e] w1 Hq.
  2: { by apply quiet_finalized. }
  apply wp_check; [intros started _|by intros; apply quiet_finalized].
  apply wp_check; [intros completed _|by intros; apply quiet_finalized].
  eapply wp_mono; [apply (write_spec (fun db => decided (w_db w1) db (aj_revision j))); [by eapply sound_quiet|]
                  |intros res w2 H2; by eapply finalized_quiet].
  rewrite (q_db _ _ Hq). intros db' E. split.
  - eapply step_rejected; [..|exact E]; cbn; try done. intros c [= Hc]. by eapply Hk.
  - unfold commit_rejected in E. apply bind_Ok in E as (db1 & E1 & E2). unfold applied.
    rewrite (finish_journal_active _ _ _ _ _ _ E2), (insert_revision_result_active _ _ _ _ E1).
    split; [done|]. by eapply insert_finish_decided.
Qed.

(** The commit of a candidate that is proven: it is active afterwards, also
    when the commit could not be confirmed and became durable. *)
Lemma finalize_applied_spec w0 w h c :
  trying w0 w h -> proven h (vc_revision c) -> candidate_of (w_db w) (vc_revision c) c ->
  wp (finalize_applied env c) (fun r w' => trying w' w' h /\
    (applied (w_db w') = Some (vc_revision c) \/ r <> Ok tt /\ w_db w' = w_db w)) w.
Proof.
  intros T Hp (_ & rd & Hrd & Hc & Hb).
  assert (forall w', quiet w w' -> trying w' w' h) as Hq0.
  { intros w' Hq. pose proof (trying_quiet _ _ _ _ _ _ T Hq) as (S & _ & Hr & _ & Hh & Hch). by split_and!. }
  assert (forall w' (r : host_result unit), quiet w w' -> r <> Ok tt ->
    trying w' w' h /\ (applied (w_db w') = Some (vc_revision c) \/ r <> Ok tt /\ w_db w' = w_db w)) as Hq.
  { intros w' r H. split; [by apply Hq0|]. right. by destruct H. }
  unfold finalize_applied. wp_step. apply wp_unix_timestamp. intros [now|e] w1 Hq1; [|by apply Hq].
  apply wp_check; [intros timestamp _|by intros; apply Hq].
  wp_step. apply wp_query; [|by intros; apply Hq; [by etrans|]]. intros started w2 Hq2 _.
  assert (quiet w w2) as Hq3 by (by etrans). apply wp_check; [intros st _|by intros; apply Hq].
  apply wp_write; [by intros; apply Hq; [by etrans|]|]. intros db' w3 Hq4 E.
  assert (quiet w w3) as Hq5 by (by etrans). rewrite (q_db _ _ Hq3) in E.
  assert (applied db' = Some (vc_revision c)) as Ha.
  { unfold commit_applied in E. apply bind_Ok in E as (db1 & _ & E). apply bind_Ok in E as (_ & _ & E).
    unfold applied. by rewrite (finish_journal_active _ _ _ _ _ _ E). }
  assert (trying (on_db db' w3) (on_db db' w3) h); [|by auto].
  destruct (Hq0 _ Hq5) as (S & _ & Hr & _ & Hh & Hch). split_and!; try done.
  apply sound_durable; [done| |right; split; [exists (vc_revision c); by rewrite Hh|done]].
  rewrite (q_db _ _ Hq5). eapply step_applied; [..|exact E]; done.
Qed.
End Supervisor.
