(* ===== verification/NodeHostEntry.v ===== *)
(** * The entry points of the supervisor

    What [recover], [reconcile], [poll] and the other public functions of
    activation.rs do to a sound world, whatever the outside answers. *)
From S2P Require Import Prelude Text Clock ProtoTypes ProtoAuth ProtoNode ProtoSigned NodeHostDb NodeHostRuntime.
From S2P Require Import NodeHostSync NodeHostFacts NodeHostLogic NodeHostSafety NodeHostSupervisor.
Open Scope Z_scope.

(** What [load_active_state] reads *)
Lemma load_active_state_applied `{Json : NodeJson} db a :
  load_active_state db = Ok a -> option_map as_revision a = applied db.
Proof.
  unfold load_active_state, applied. destruct (ac_applied_revision (active db)) as [r|]; intros E; inv_ok; [|done].
  cbn. match goal with H : positive_new _ = Ok _ |- _ => by apply positive_new_Ok in H as [_ ->] end.
Qed.

Section Entry.
Context `{Sha : Sha256} `{Json : NodeJson} {JsonLaws : NodeJsonLaws Json} {Tr : Trusted} (env : nat -> Answer).
Context (start : Db) (period : Z).
Abbreviation sound := (sound start period).
Abbreviation health := (health period).
Abbreviation stopped := (stopped start period).
Abbreviation failed := (failed start period).
Abbreviation trying := (trying start period).
Abbreviation wrote := (wrote start period).
Abbreviation finalized := (finalized start period).

Definition kept (w w' : World) : Prop := sound w' /\ restarts (w_db w) (w_db w').

(** ** Watching the runtime *)

Definition observed (w : World) (r : host_result NodeRuntimeState) (w' : World) : Prop :=
  sound w' /\ w_db w' = w_db w /\
  match r with
  | Ok RunServing => w_supervisor w' = w_supervisor w /\
      is_Some (sv_running_revision (w_supervisor w)) /\ is_Some (sv_running_public_port (w_supervisor w))
  | Ok RunDegraded => w_supervisor w' = w_supervisor w /\ is_Some (sv_running_revision (w_supervisor w))
  | Ok _ => sv_running_revision (w_supervisor w') = None
  | Err _ => w_supervisor w' = w_supervisor w
  end.
Lemma observe_runtime_state_spec w : sound w -> wp (observe_runtime_state env) (observed w) w.
Proof.
  intros S. unfold observe_runtime_state. wp_step. wp_step.
  destruct (sv_child (w_supervisor w)) as [pid|] eqn:Hc.
  2: { wp_step. wp_step. wp_step. split_and!; try done. by apply sound_cleared. }
  wp_step. eapply wp_mono; [by apply (try_wait_spec _ start period)|]. intros [[]|e] w1 H.
  - destruct H as (w2 & Hq & ->). wp_step. wp_step. wp_step. wp_step. wp_step.
    pose proof (gone_seen _ _ _ _ _ S Hc Hq) as (S' & Hd & _). split_and!; done.
  - destruct H as (w2 & Hq & ->).
    pose proof (alive_seen _ _ _ _ _ S Hc Hq) as (S' & Hd & _ & _ & _ & Hs & _). cbn in Hs.
    destruct (sv_running_revision (w_supervisor w)) as [r|] eqn:Hr.
    2: { wp_step. split_and!; try done. cbn. congruence. }
    destruct (sv_running_public_port (w_supervisor w)) as [p|] eqn:Hp.
    2: { wp_step. by split_and!. }
    destruct (sv_admission (w_supervisor w)) as [g|].
    2: { wp_step. wp_step. wp_step. split_and!; try done. by apply sound_cleared. }
    wp_step. apply wp_ask. intros a w3 Hq3. pose proof (sound_quiet _ _ _ _ Hq3 S') as S3.
    assert (w_db w3 = w_db w /\ w_supervisor w3 = w_supervisor w) as [Hd3 Hs3].
    { rewrite (q_db _ _ Hq3), (q_supervisor _ _ Hq3). done. }
    destruct (an_running a).
    + wp_step. unfold observed. rewrite Hr, Hp, Hs3. split_and!; eauto.
    + wp_step. wp_step. wp_step. split_and!; try done. by apply sound_cleared.
  - destruct H as [Hq _]. split_and!; [by eapply sound_quiet|by destruct Hq..].
Qed.

(** ** Keeping the active revision running *)

Lemma stopped_kept w w' r : stopped w w' r -> kept w w'.
Proof. intros (S & Hd & _). split; [done|]. by apply restarts_eq. Qed.

Definition ensured (w : World) (r : host_result unit) (w' : World) : Prop :=
  kept w w' /\ (r = Ok tt -> sv_running_revision (w_supervisor w') = applied (w_db w')).
Lemma restart_active_spec a w :
  sound w -> applied (w_db w) = Some (as_revision a) -> wp (restart_active env a) (ensured w) w.
Proof.
  intros S Ha. unfold restart_active. wp_step. eapply wp_mono; [by apply stop_runtime_spec|].
  intros [[]|e] w1 H1; [|split; [by eapply stopped_kept|done]].
  destruct H1 as (S1 & Hd1 & Hr1 & _ & Hc1 & _). specialize (Hc1 eq_refl).
  wp_step. eapply wp_mono; [apply load_candidate_spec|]. intros res w2 [Hq Hcand].
  pose proof (sound_quiet _ _ _ _ Hq S1) as S2.
  assert (w_db w2 = w_db w) as Hd2 by (destruct Hq; congruence).
  assert (forall e, ensured w (Err e) w2) as Herr by (intros e; split; [split; [done|by apply restarts_eq]|done]).
  destruct res as [c|e]; [|done]. apply wp_check; [intros _ _|done].
  pose proof (proj1 Hcand) as Hrev. wp_step. wp_step.
  eapply wp_mono; [apply (start_proven_candidate_spec _ start period); try done|].
  1,2: by rewrite (q_supervisor _ _ Hq).
  { by rewrite Hd2, Hrev. }
  { rewrite Hrev. by rewrite (q_db _ _ Hq). }
  intros [[]|f] w3 (S3 & Hd3 & Hr3 & _); cbn [map_err is_ok] in *.
  2: { split; [|done]. split; [done|]. apply restarts_eq. congruence. }
  eapply wp_mono; [by apply (record_active_restart_spec _ start period)|]. intros res w4 [(S4 & Hs4 & Ha4 & _) Hre].
  split; [split; [done|by rewrite Hd3, Hd2 in Hre]|]. intros _. rewrite Hs4, Ha4, Hr3, Hd3, Hd2, Ha. by rewrite Hrev.
Qed.
Lemma ensure_active_running_spec w : sound w -> wp (ensure_active_running env) (ensured w) w.
Proof.
  intros S. unfold ensure_active_running. wp_step.
  assert (forall w' e, quiet w w' -> ensured w (Err e) w') as Herr.
  { intros w' e Hq. split; [|done]. split; [by eapply sound_quiet|apply restarts_eq, Hq]. }
  apply wp_query; [|by auto]. intros active w1 Hq E%load_active_state_applied.
  pose proof (sound_quiet _ _ _ _ Hq S) as S1. rewrite <- (q_db _ _ Hq) in E.
  assert (forall r w', ensured w1 r w' -> ensured w r w') as Hlift.
  { unfold ensured, kept. by rewrite (q_db _ _ Hq). }
  destruct active as [a|]; cbn in E; wp_step; wp_step.
  - case_bool_decide as Hrun; [|eapply wp_mono; [by apply restart_active_spec|auto]].
    wp_step. eapply wp_mono; [by apply observe_runtime_state_spec|]. intros [st|e] w2 (S2 & Hd2 & H2).
    2: { apply Hlift. split; [|done]. split; [done|by apply restarts_eq]. }
    destruct (is_live st) eqn:Hl.
    + wp_step. apply Hlift. split; [split; [done|by apply restarts_eq]|]. intros _.
      assert (w_supervisor w2 = w_supervisor w1) as -> by (destruct st; try done; apply H2).
      by rewrite Hrun, Hd2.
    + eapply wp_mono; [apply restart_active_spec; [done|by rewrite Hd2]|].
      intros r w3 [[S3 Ha3] Hr3]. apply Hlift. split; [|done]. split; [done|by rewrite Hd2 in Ha3].
  - destruct (_ || _) eqn:Hb.
    + eapply wp_mono; [by apply stop_runtime_spec|]. intros r w2 H. apply Hlift. split; [eapply stopped_kept, H|].
      intros _. destruct H as (_ & Hd & Hr & _). by rewrite Hr, Hd, <- E.
    + wp_step. apply Hlift. split; [by split; [|apply restarts_eq]|]. intros _. rewrite <- E.
      destruct (sv_running_revision (w_supervisor w1)) as [r|] eqn:Hr; [|done].
      apply (s_running _ _ _ S1) in Hr as [_ Hc]. by rewrite (bool_decide_eq_true_2 _ Hc) in Hb.
Qed.

(** ** Giving up on a candidate *)

(** The predecessor a reconciliation works with is the active revision. *)
Definition predecessor (db : Db) (previous : option ValidatedXrayCandidate) : Prop :=
  option_map vc_revision previous = applied db /\
  forall p, previous = Some p -> candidate_of db (vc_revision p) p.
Lemma predecessor_wrote w w' previous : wrote w w' -> predecessor (w_db w) previous -> predecessor (w_db w') previous.
Proof.
  intros (_ & _ & Ha & Hr) [Hp Hc]. split; [congruence|]. intros p ->. eapply candidate_grows; eauto.
Qed.

Lemma recovery_then_fail {A} r code (m : Act HostError A) w :
  sound w -> (forall w', sound w' -> wp m (fun _ => sound) w') ->
  wp (_ ← mark_recovery_required env r code; m) (fun _ => sound) w.
Proof.
  intros S H. wp_step. eapply wp_mono; [by apply mark_recovery_required_spec|].
  intros [[]|e] w' (S' & _); auto.
Qed.

Lemma restore_after_commit_failure_spec previous w :
  sound w -> predecessor (w_db w) previous ->
  wp (restore_after_commit_failure env previous) (fun _ => sound) w.
Proof.
  intros S Hp. unfold restore_after_commit_failure. wp_step. wp_step.
  eapply wp_mono; [by apply stop_runtime_spec|]. intros [[]|e] w1 (S1 & Hd1 & Hr1 & _ & Hc1 & _); [|done].
  cbn [map_err]. rewrite <- Hd1 in Hp. destruct Hp as [Hp Hcand]. destruct previous as [c|]; [|by wp_step]. wp_step. wp_step.
  eapply wp_mono; [apply (start_proven_candidate_spec _ start period); auto|].
  by intros [[]|f] w2 (S2 & _).
Qed.

Lemma resolve_commit_failure_spec c previous e h w :
  trying w w h -> applied (w_db w) = Some (vc_revision c) \/ predecessor (w_db w) previous ->
  wp (resolve_commit_failure env c previous e) (fun _ => sound) w.
Proof.
  intros T Ha. unfold resolve_commit_failure. wp_step. wp_step.
  eapply (wp_mono _ (fun r w' => quiet w w' /\ forall d, r = Ok d -> d = applied (w_db w'))).
  { apply wp_query; [|by intros; split]. intros d w' Hq E. split; [done|]. intros d' [= <-].
    rewrite (q_db _ _ Hq). unfold durable_revision in E.
    by apply bind_Ok in E as (a & E%load_active_state_applied & [= <-]). }
  intros r w' [Hq Hr]. pose proof (trying_quiet _ _ _ _ _ _ T Hq) as T'. pose proof (proj1 T') as S'.
  rewrite <- (q_db _ _ Hq) in Ha. destruct r as [d|state_error].
  2: { wp_step. wp_step. eapply wp_mono; [by apply stop_runtime_spec|]. intros r w1 (S1 & _).
       apply wp_check; [intros [] _; by wp_step|done]. }
  rewrite (Hr d) by done. case_bool_decide as H1; [|destruct Ha as [|Hp]; [done|case_bool_decide as H2]].
  - wp_step. eapply wp_mono; [by eapply mark_running_spec|]. intros _ w1 (-> & S1 & _). by wp_step.
  - wp_step. wp_step. eapply wp_mono; [by apply restore_after_commit_failure_spec|].
    intros [[]|e'] w1 S1; [by wp_step|]. apply recovery_then_fail; [done|]. intros. by wp_step.
  - wp_step. wp_step. eapply wp_mono; [by apply stop_runtime_spec|]. intros r w1 (S1 & _).
    apply recovery_then_fail; [done|]. intros w2 S2. apply wp_check; [intros [] _; by wp_step|done].
Qed.

Lemma wrote_sound {A} (m : Act HostError A) (f : A -> Act HostError unit) w :
  wp m (fun _ w' => wrote w w') w ->
  (forall a w', wrote w w' -> wp (f a) (fun _ => sound) w') -> wp (m ≫= f) (fun _ => sound) w.
Proof. intros Hm Hf. wp_step. eapply wp_mono; [done|]. intros [a|e] w' Hw; [by apply Hf|apply Hw]. Qed.

Lemma handle_activation_failure_spec c previous attempts f w :
  sound w -> predecessor (w_db w) previous -> known_failure f ->
  wp (handle_activation_failure env c previous attempts f) (fun _ => sound) w.
Proof.
  intros S Hp Hk. unfold handle_activation_failure. wp_step. wp_step.
  eapply wp_mono; [by apply stop_runtime_spec|]. intros [[]|e] w1 (S1 & Hd1 & Hr1 & _ & Hc1 & _).
  2: { apply recovery_then_fail; [done|]. intros. by wp_step. }
  rewrite <- Hd1 in Hp. clear w Hd1 S. destruct previous as [p|]; destruct Hp as [Hp Hcand]; cbn in Hp.
  - wp_step. wp_step. eapply wp_mono; [apply (start_proven_candidate_spec _ start period); auto|].
    intros [[]|e] w2 (S2 & Hd2 & _); rewrite <- Hd2 in Hp.
    2: { wp_step. wp_step. eapply wp_mono; [by apply stop_runtime_spec|]. intros r w3 (S3 & _).
         apply recovery_then_fail; [done|]. intros w4 S4. apply wp_check; [intros [] _; by wp_step|done]. }
    apply wrote_sound.
    { wp_step. eapply wp_mono; [by apply (update_journal_phase_spec _ start period)|]. by intros r w' []. }
    intros [] w3 (S3 & _ & Ha3 & _). wp_step. apply wp_query; [|by intros; eapply sound_quiet].
    intros j w4 Hq4 _. pose proof (sound_quiet _ _ _ _ Hq4 S3) as S4. apply wrote_sound.
    { eapply wp_mono; [apply (finalize_rolled_back_spec _ start period); try done|by intros r w' []].
      rewrite (q_db _ _ Hq4). congruence. }
    intros [] w5 (S5 & _). eapply wp_mono; [by apply (record_active_restart_spec _ start period)|]. by intros r w' [[] _].
  - destruct (_ <=? attempts).
    + wp_step. apply wp_query; [|by intros; eapply sound_quiet]. intros j w2 Hq _.
      eapply wp_mono; [apply (finalize_rejected_spec _ start period); try done|by intros r w' [[] _]].
      * by eapply sound_quiet.
      * by rewrite (q_db _ _ Hq).
    + apply wrote_sound; [|intros [] w' (S' & _); by wp_step].
      eapply wp_mono; [by apply (update_journal_phase_spec _ start period)|]. by intros r w' [].
Qed.

Lemma trying_wrote w w' h : trying w w h -> wrote w w' -> health (w_log w') = health (w_log w) -> trying w' w' h.
Proof.
  intros (S & _ & Hr & _ & Hh & Hc) (S' & Hs & _) Hl. split_and!; try done; rewrite ?Hs; try done. congruence.
Qed.
Lemma write_health f w : wp (write env f) (fun _ w' => health (w_log w') = health (w_log w)) w.
Proof.
  apply wp_write.
  - intros e w' Hq. by rewrite (q_log _ _ Hq).
  - intros db' w' Hq _. unfold NodeHostLogic.health. cbn. by rewrite (q_log _ _ Hq).
Qed.

Lemma stabilize_and_commit_candidate_spec c previous attempts w :
  trying w w (HStarted c) -> predecessor (w_db w) previous -> candidate_of (w_db w) (vc_revision c) c ->
  wp (stabilize_and_commit_candidate env c previous attempts) (fun _ => sound) w.
Proof.
  intros T Hp Hcand. unfold stabilize_and_commit_candidate. wp_step. wp_step.
  eapply wp_mono; [apply wp_conj; [apply (update_journal_phase_spec _ start period); apply T|apply write_health]|].
  intros r w1 [[Hw Hrd] Hl]. assert (predecessor (w_db w1) previous) as Hp1.
  { by eapply predecessor_wrote. }
  destruct r as [[]|e].
  2: { wp_step. wp_step. eapply wp_mono; [apply restore_after_commit_failure_spec; [apply Hw|done]|].
       intros [[]|e'] w2 S2; [by wp_step|]. apply recovery_then_fail; [done|]. intros. by wp_step. }
  assert (trying w1 w1 (HStarted c)) as T1 by (by eapply trying_wrote).
  assert (candidate_of (w_db w1) (vc_revision c) c) as Hc1 by (unfold candidate_of in *; by rewrite Hrd).
  clear T Hp Hcand Hrd Hw Hl w. wp_step. wp_step.
  eapply (wp_mono _ (fun r w' => match r with
    | Ok _ => exists h, trying w1 w' h /\ proven h (vc_revision c)
    | Err f => failed w1 w' f end)).
  { wp_step. eapply wp_mono; [by apply (prove_owned_child_healthy_spec _ start period)|].
    intros [[]|f] w2 H2; [|done]. by apply start_admission_spec. }
  intros [[]|f] w2 H2.
  2: { destruct H2 as (S2 & Hd2 & _ & Hk & _). apply handle_activation_failure_spec; [done|by rewrite Hd2|done]. }
  destruct H2 as (h & T2 & Hproven). assert (w_db w2 = w_db w1) as Hd2 by apply T2. rewrite <- Hd2 in Hc1, Hp1.
  wp_step. wp_step. eapply wp_mono; [by apply (finalize_applied_spec _ start period w1)|].
  intros r w3 [T3 Ha]. assert (applied (w_db w3) = Some (vc_revision c) \/ predecessor (w_db w3) previous) as Ha3.
  { destruct Ha as [?|[_ ->]]; auto. }
  destruct r as [[]|e]; [|by eapply resolve_commit_failure_spec].
  destruct Ha as [Ha|[[] _]]; [|done]. eapply wp_mono; [by eapply mark_running_spec|]. by intros _ w4 (_ & S4 & _).
Qed.

Lemma activate_spec c previous attempts w :
  sound w -> predecessor (w_db w) previous -> candidate_of (w_db w) (vc_revision c) c ->
  wp (activate env c previous attempts) (fun _ => sound) w.
Proof.
  intros S Hp Hcand. unfold activate. wp_step. wp_step.
  eapply wp_mono; [by apply stop_runtime_spec|]. intros [[]|e] w1 (S1 & Hd1 & Hr1 & _ & Hc1 & _).
  2: { apply recovery_then_fail; [done|]. intros. by wp_step. }
  rewrite <- Hd1 in Hp, Hcand. wp_step. wp_step. eapply wp_mono; [apply spawn_candidate_spec|].
  intros [pid|f] w2 H2.
  2: { destruct H2 as (Hq & Hk & _). apply handle_activation_failure_spec;
         [by eapply sound_quiet|by rewrite (q_db _ _ Hq)|done]. }
  destruct H2 as (w3 & Hq & ->). wp_step.
  eapply wp_mono; [apply (own_child_spec env start period w1); auto|]. intros _ w4 [-> T4].
  assert (w_db w4 = w_db w1) as Hd4 by apply T4.
  apply stabilize_and_commit_candidate_spec; rewrite ?Hd4; try done.
  destruct T4 as (S4 & _ & Hr4 & _ & Hh4 & Hc4). by split_and!.
Qed.

(** ** Reconciliation *)

(** The journal that is not finished, if there is one *)
Lemma load_incomplete_journal_Ok db res :
  consistent db -> load_incomplete_journal db = Ok res ->
  match res with
  | Some a => exists j, journal db !! aj_revision a = Some j /\ incomplete j /\
      aj_previous_revision a = applied db /\ aj_attempt_count a = jn_attempt_count j /\
      aj_phase a = jn_phase j /\ aj_started_at a = jn_started_at j
  | None => forall r j, journal db !! r = Some j -> ~ incomplete j
  end.
Proof.
  intros C E. unfold load_incomplete_journal in E. apply bind_Ok in E as (rows & Hrows%mapM_Ok & E).
  apply bind_Ok in E as (_ & _ & [= <-]).
  assert (forall r j, (r, j) ∈ map_to_list (filter (fun row => incomplete row.2) (journal db)) <->
    journal db !! r = Some j /\ incomplete j) as Hin.
  { intros r j. by rewrite elem_of_map_to_list, map_lookup_filter_Some. }
  destruct Hrows as [|[r j] a l k Ha _]; cbn.
  - intros r j Hj Hi. by apply (not_elem_of_nil (r, j)), Hin.
  - destruct (proj1 (Hin r j)) as [Hj Hi]; [by left|]. clear Hin. exists j.
    pose proof (c_previous _ C _ _ Hj Hi) as Hp. unfold applied. rewrite <- Hp.
    unfold journal_from_row in Ha. destruct (jn_previous_revision j) as [q|]; inv_ok; cbn;
      repeat match goal with H : positive_new _ = Ok _ |- _ => apply positive_new_Ok in H as [_ ->] end; done.
Qed.
Lemma load_pending_revision_Ok db r :
  consistent db -> load_pending_revision db = Ok (Some r) -> forall st, ~ terminal_result db r st.
Proof.
  intros C E st [Ht [row Hrow]]. unfold load_pending_revision in E. case_match; [done|].
  destruct (last (rows_of db (desired_revision_cursor db))) as [[[] row']|] eqn:El; try done.
  destruct (rw_reported_at row'); [|done]. inv_ok.
  match goal with H : positive_new _ = Ok _ |- _ => apply positive_new_Ok in H as [_ ->] end.
  apply rows_of_last in El as [_ Hmax]. apply Hmax in Hrow as [Hrank _]. by destruct st.
Qed.

Lemma resolve_superseded_journal_spec j w :
  sound w -> aj_previous_revision j = applied (w_db w) ->
  wp (resolve_superseded_journal env j) (fun res w' => finalized w w' (aj_revision j) res) w.
Proof.
  intros S Hp. unfold resolve_superseded_journal.
  destruct (aj_previous_revision j) as [p|]; [|by apply finalize_rejected_spec].
  wp_step. apply wp_query; [|by intros; apply quiet_finalized]. intros a w1 Hq1 _.
  apply wp_check; [intros a' _|by intros; apply quiet_finalized].
  apply wp_check; [intros _ _|by intros; apply quiet_finalized].
  wp_step. eapply wp_mono; [apply load_candidate_spec|]. intros res w2 [Hq2 Hc].
  assert (quiet w w2) as Hq by (by etrans). destruct res as [c|e]; [|by apply quiet_finalized].
  destruct Hc as [Hc _]. eapply wp_mono; [apply (finalize_rolled_back_spec _ start period)|].
  - by eapply sound_quiet.
  - by rewrite (q_db _ _ Hq), Hc.
  - done.
  - intros res w3 H. eapply finalized_quiet; [exact Hq|exact H].
Qed.

(** What [reconcile] knows before it begins an activation of [r] *)
Definition ready (db : Db) (r : Z) : Prop :=
  (forall st, ~ terminal_result db r st) /\
  (forall r' j, journal db !! r' = Some j -> incomplete j -> r' = r).
Lemma begin_activation_spec c previous now w :
  sound w -> ready (w_db w) (vc_revision c) -> predecessor (w_db w) previous ->
  candidate_of (w_db w) (vc_revision c) c ->
  wp (attempts ← transact env (fun db => begin_activation db (vc_revision c) (option_map vc_revision previous) now);
      activate env c previous attempts) (fun _ => sound) w.
Proof.
  intros S [Ht Hi] Hp Hc. wp_step. apply wp_transact; [by intros; eapply sound_quiet|].
  intros attempts db' w' Hq E. rewrite (proj1 Hp) in E.
  assert (applied db' = applied (w_db w) /\ rendered db' = rendered (w_db w)) as [Ha Hrd].
  { unfold begin_activation in E. case_match; by inv_ok. }
  assert (sound (on_db db' w')) as S'.
  { apply sound_durable; [by eapply sound_quiet| |left]; rewrite (q_db _ _ Hq); [|done]. by eapply step_begin. }
  split; [|done]. apply activate_spec; cbn; [done| |].
  - destruct Hp as [Hp Hcp]. split; [by rewrite Ha|]. intros p ->. unfold candidate_of in *. rewrite Hrd. by apply Hcp.
  - unfold candidate_of in *. by rewrite Hrd.
Qed.

(** The rest of [reconcile], once no other revision is being tried *)
Definition try_revision (revision : Z) (active : option ActiveState) : Act HostError unit :=
  candidate ← load_candidate env revision;
  previous ← match active with
             | Some state => p ← load_candidate env (as_revision state); mret (Some p)
             | None => mret None
             end;
  now ← unix_timestamp env;
  attempts ← transact env (fun db => begin_activation db revision (option_map vc_revision previous) now);
  activate env candidate previous attempts.
Lemma try_revision_spec revision active w :
  sound w -> ready (w_db w) revision -> option_map as_revision active = applied (w_db w) ->
  wp (try_revision revision active) (fun _ => sound) w.
Proof.
  intros S Hr Ha. unfold try_revision. wp_step. eapply wp_mono; [apply load_candidate_spec|].
  intros [c|e] w1 [Hq1 Hc]; [|by eapply sound_quiet]. destruct (Hc) as [<- _]. wp_step.
  eapply (wp_mono _ (fun res w' => quiet w1 w' /\ forall p, res = Ok p -> predecessor (w_db w) p)).
  - destruct active as [a|]; [|wp_step; split; [done|by intros p [= <-]; split]]. wp_step.
    eapply wp_mono; [apply load_candidate_spec|]. intros [p|e] w2 [Hq2 Hp]; [|done]. wp_step. split; [done|].
    intros q [= <-]. pose proof (proj1 Hp) as Hrev. split; [cbn; by rewrite Hrev, <- Ha|]. intros p' [= <-].
    rewrite Hrev. by rewrite (q_db _ _ Hq1) in Hp.
  - intros res w2 [Hq2 Hp]. assert (quiet w w2) as Hq by (by etrans). destruct res as [p|e]; [|by eapply sound_quiet].
    wp_step. apply wp_unix_timestamp. intros [now|e] w3 Hq3; [|eapply sound_quiet; [|done]; by etrans].
    assert (quiet w w3) as Hq' by (by etrans). apply begin_activation_spec; rewrite ?(q_db _ _ Hq'); auto.
    by eapply sound_quiet.
Qed.

Lemma reconcile_spec w : sound w -> wp (reconcile env) (fun _ => sound) w.
Proof.
  intros S. unfold reconcile. wp_step. eapply wp_mono; [by apply ensure_active_running_spec|].
  intros [[]|e] w1 [[S1 _] _]; [|done]. clear w S.
  wp_step. apply wp_query; [|by intros; eapply sound_quiet]. intros pending w2 Hq2 Hpend.
  wp_step. apply wp_query; [|intros; eapply sound_quiet; [|done]; by etrans]. intros active w3 Hq3 Ha.
  assert (quiet w1 w3) as Hq by (by etrans). rewrite (q_db _ _ Hq2) in Ha. clear Hq2 Hq3.
  apply load_active_state_applied in Ha. pose proof (sound_quiet _ _ _ _ Hq S1) as S3.
  rewrite <- (q_db _ _ Hq) in Ha, Hpend. clear dependent w1. clear w2.
  destruct pending as [revision|]; [|by wp_step]. case_bool_decide; [by wp_step|].
  pose proof (load_pending_revision_Ok _ _ (s_consistent _ _ _ S3) Hpend) as Hnew. clear Hpend.
  wp_step. apply wp_query; [|by intros; eapply sound_quiet]. intros inc w4 Hq4 Hinc.
  apply load_incomplete_journal_Ok in Hinc; [|by destruct S3]. pose proof (sound_quiet _ _ _ _ Hq4 S3) as S4.
  rewrite <- (q_db _ _ Hq4) in *. clear dependent w3.
  enough (wp (match inc with
      | Some j => if aj_revision j =? revision then mret tt else resolve_superseded_journal env j
      | None => mret tt end)
    (fun res w' => sound w' /\ (res = Ok tt -> ready (w_db w') revision /\ applied (w_db w') = applied (w_db w4))) w4) as H1.
  { wp_step. eapply wp_mono; [exact H1|]. intros [[]|e] w5 [S5 H5]; [|done].
    destruct (H5 eq_refl) as [Hr5 Ha5]. apply try_revision_spec; [done..|]. congruence. }
  destruct inc as [j|].
  - destruct Hinc as (row & Hj & Hi & Hp & _). destruct (Z.eqb_spec (aj_revision j) revision) as [<-|Hne].
    + wp_step. split; [done|]. intros _. split; [|done]. split; [done|]. intros r' j' Hj' Hi'.
      by eapply (c_one _ (s_consistent _ _ _ S4)).
    + eapply wp_mono; [by apply resolve_superseded_journal_spec|]. intros res w5 [(S5 & _ & Ha5 & _) H5].
      split; [done|]. intros ->. split; [|done]. destruct H5 as [[[] _]|(Hres & Hjr & Hdone & _)]; [done|]. split.
      * intros st [Ht Hst]. apply (Hnew st). split; [done|]. by rewrite <- Hres.
      * intros r' j' Hj' Hi'. destruct (decide (r' = aj_revision j)) as [->|Hn]; [by destruct (Hdone _ Hj')|].
        rewrite Hjr in Hj' by done. destruct Hn. by eapply (c_one _ (s_consistent _ _ _ S4)).
  - wp_step. split; [done|]. intros _. split; [|done]. split; [done|]. intros r' j' Hj' Hi'. by destruct (Hinc _ _ Hj').
Qed.

(** ** Recovery *)

Lemma recover_interrupted_spec active j w :
  sound w -> option_map as_revision active = applied (w_db w) -> aj_previous_revision j = applied (w_db w) ->
  wp (recover_interrupted env active j) (fun _ => sound) w.
Proof.
  intros S Ha Hp. unfold recover_interrupted. destruct (phase_is_terminal _); [by wp_step|].
  destruct (aj_previous_revision j) as [p|].
  - apply wp_check; [intros a Hact|done]. apply ok_or_Ok in Hact as ->. cbn in Ha.
    destruct (negb _); [apply recovery_then_fail; [done|]; intros; by wp_step|].
    wp_step. wp_step. eapply wp_mono; [by apply ensure_active_running_spec|]. intros [[]|e] w1 [[S1 [Ha1 _]] _].
    + wp_step. eapply wp_mono; [apply load_candidate_spec|]. intros res w2 [Hq Hc].
      pose proof (sound_quiet _ _ _ _ Hq S1) as S2. destruct res as [c|e]; [|done].
      eapply wp_mono; [apply (finalize_rolled_back_spec _ start period); try done|by intros r w' [[] _]].
      destruct Hc as [Hc _]. rewrite (q_db _ _ Hq), Hc. congruence.
    + wp_step. wp_step. eapply wp_mono; [by apply stop_runtime_spec|]. intros r w2 (S2 & _).
      apply recovery_then_fail; [done|]. intros w3 S3. apply wp_check; [intros [] _; by wp_step|done].
  - destruct (_ <=? _).
    + eapply wp_mono; [apply (finalize_rejected_spec _ start period); try done|by intros r w' [[] _]].
    + eapply wp_mono; [by apply (update_journal_phase_spec _ start period)|]. by intros r w' [[] _].
Qed.
Lemma recover_spec w : sound w -> wp (recover env) (fun r w' => sound w' /\
  (r = Ok tt -> sv_running_revision (w_supervisor w') = applied (w_db w'))) w.
Proof.
  intros S. unfold recover. wp_step. apply wp_query; [|by intros; split; [eapply sound_quiet|]].
  intros active w1 Hq1 Ha. apply load_active_state_applied in Ha. wp_step.
  apply wp_query; [|intros; split; [eapply sound_quiet; [|done]; by etrans|done]].
  intros inc w2 Hq2 Hinc. assert (quiet w w2) as Hq by (by etrans). rewrite (q_db _ _ Hq1) in Hinc.
  apply load_incomplete_journal_Ok in Hinc; [|by destruct S]. pose proof (sound_quiet _ _ _ _ Hq S) as S2.
  rewrite <- (q_db _ _ Hq) in *. clear w S w1 Hq1 Hq2 Hq. wp_step.
  eapply (wp_mono _ (fun _ => sound)).
  - destruct inc as [j|]; [|by wp_step]. destruct Hinc as (row & _ & _ & Hp & _). by apply recover_interrupted_spec.
  - intros [[]|e] w3 S3; [|done]. eapply wp_mono; [by apply ensure_active_running_spec|]. by intros r w4 [[] ?].
Qed.
End Entry.
