(* ===== verification/NodeHostSyncFacts.v ===== *)
(** * Synchronisation and the rest of the supervisor are sound

    The functions of [NodeHostSync] and the remaining public functions of the
    supervisor keep the world sound, where [trusted] is what the pinned
    controller signed for this node, and [tested] what Xray accepts. *)
From S2P Require Import Prelude Text Clock ProtoTypes ProtoAuth ProtoNode ProtoSigned NodeHostDb NodeHostRuntime.
From S2P Require Import NodeHostSync NodeHostFacts NodeHostLogic NodeHostSafety NodeHostSupervisor NodeHostEntry.
Open Scope Z_scope.

(** A valid desired state for this network, node and controller epoch, with a
    signature that verifies under the controller's pinned key *)
Definition controller_signed `{UuidText} `{Rfc3339} `{Base64} `{Sha256} `{Ed25519}
    (g : SyncRegistration) (e : SignedDesiredState) : Prop :=
  ds_network_id (sd_document e) = sg_network g /\ ds_node_id (sd_document e) = sg_node g /\
  ds_controller_instance_id (sd_document e) = sg_controller_instance g /\
  xray_validate (ds_xray (sd_document e)) (ds_schema_version (sd_document e)) = Ok tt /\
  ed25519_signing_key_id (sg_controller_signing_public_key g) = Ok (ds_signing_key_id (sd_document e)) /\
  verify_desired_state_signature (sd_document e) (sd_signature e) (sg_controller_signing_public_key g) = Ok tt.

Lemma check_envelope_Ok `{UuidText} `{Rfc3339} `{Base64} `{Sha256} `{Ed25519} g last prefix e :
  check_envelope g last prefix e = Ok tt ->
  controller_signed g e /\ forall l, last = Some l -> l < ds_revision (sd_document e).
Proof.
  unfold check_envelope, validated, signed_validate_for, desired_validate_for, controller_signed. intros E. inv_ok.
  bool_props. subst. split_and!; try done. intros l ->. lia.
Qed.

(** What is stored of a desired state: it passes the checks of
    [verify_persisted_desired_state], and the digest is that of its transcript. *)
Definition signed_under `{UuidText} `{Rfc3339} `{Base64} `{Sha256} `{Ed25519}
    (g : SyncRegistration) (e : SignedDesiredState) (digest : string) : Prop :=
  check_envelope g None "stored" e = Ok tt /\
  exists transcript, desired_state_transcript (sd_document e) = Ok transcript /\ protocol_digest transcript = digest.
Lemma signed_under_controller `{UuidText} `{Rfc3339} `{Base64} `{Sha256} `{Ed25519} g e d :
  signed_under g e d -> controller_signed g e.
Proof. by intros [[? _]%check_envelope_Ok _]. Qed.
Lemma checked_again `{UuidText} `{Rfc3339} `{Base64} `{Sha256} `{Ed25519} g last prefix prefix' e :
  check_envelope g last prefix e = Ok tt -> check_envelope g None prefix' e = Ok tt.
Proof.
  unfold check_envelope, validated, signed_validate_for, desired_validate_for. intros E. inv_ok.
  repeat match goal with H : _ = _ |- _ => rewrite H; clear H; cbn -[bool_decide Z.leb] end. done.
Qed.
(** The environments whose tests pass only what [tested] says; when that is
    everything, all of them *)
Definition truthful {T : Trusted} (env : nat -> Answer) : Prop :=
  forall n binary config, an_test (env n) binary config = TestPassed -> tested binary config.

Lemma protocol_digest_parses `{Sha : Sha256} {ShaLaws : Sha256Laws Sha} l :
  digest_from_str (protocol_digest l) = Ok (protocol_digest l).
Proof.
  unfold protocol_digest, digest_from_str, digest_from_bytes. rewrite as_bytes_of_str.
  rewrite (proj2 (strip_prefix_Some _ _ _)) by done. cbn [ok_or]. rsimpl.
  by rewrite length_hex_pairs, sha256_length, hex_pairs_lower.
Qed.

Section SyncFacts.
Context `{Sha : Sha256} {ShaLaws : Sha256Laws Sha} `{Json : NodeJson} {JsonLaws : NodeJsonLaws Json} {Tr : Trusted}.
Context (env : nat -> Answer) (start : Db) (period : Z) (env_truthful : truthful env).
Abbreviation sound := (sound start period).
Abbreviation wrote := (wrote start period).

Lemma keeps_sound {A} (m : Act HostError A) w :
  sound w -> wp m (fun _ w' => wrote w w') w -> wp m (fun _ => sound) w.
Proof. intros S H. eapply wp_mono; [exact H|]. by intros r w' (S' & _). Qed.

(** ** The other functions of the supervisor *)

Lemma kept_refl w : sound w -> kept start period w w.
Proof. intros S. split; [done|]. by apply restarts_eq. Qed.
Lemma kept_eq w w' : sound w' -> w_db w' = w_db w -> kept start period w w'.
Proof. intros S Hd. split; [done|]. by apply restarts_eq. Qed.
Lemma poll_spec w : sound w -> wp (poll env) (fun _ w' => kept start period w w') w.
Proof.
  intros S. unfold poll. wp_step. eapply wp_mono; [by apply observe_runtime_state_spec|].
  intros [st|e] w1 (S1 & Hd1 & _); [|by apply kept_eq]. destruct (is_live st).
  2: { eapply wp_mono; [by apply ensure_active_running_spec|]. intros r w2 [[S2 Hre] _]. split; [done|].
       by rewrite Hd1 in Hre. }
  wp_step. eapply (wp_mono _ (fun _ w' => quiet w1 w')).
  { case_bool_decide; [|by wp_step]. unfold admission_probe_is_due. wp_step. wp_step. case_match; [|by wp_step].
    wp_step. apply wp_instant_now. intros w2 Hq. by wp_step. }
  intros res w2 Hq. pose proof (sound_quiet _ _ _ _ Hq S1) as S2.
  assert (w_db w2 = w_db w) as Hd2 by (rewrite (q_db _ _ Hq); done).
  destruct res as [[]|e]; [|wp_step; by apply kept_eq|by apply kept_eq].
  wp_step. wp_step. apply wp_check; [intros g _|intros; by apply kept_eq].
  wp_step. wp_step. apply wp_outside. intros r w3 Hq3 _. pose proof (sound_quiet _ _ _ _ Hq3 S2) as S3.
  assert (w_db w3 = w_db w) as Hd3 by (rewrite (q_db _ _ Hq3); done). destruct r as [[]|e].
  - wp_step. apply wp_instant_now. intros w4 Hq4. wp_step. pose proof (sound_quiet _ _ _ _ Hq4 S3) as S4.
    apply kept_eq; [by apply sound_supervisor; cbn; try by destruct S4|]. cbn. by rewrite (q_db _ _ Hq4).
  - wp_step. wp_step. eapply wp_mono; [by apply stop_runtime_spec|]. intros r w4 (S4 & Hd4 & _).
    assert (w_db w4 = w_db w) as Hd5 by congruence.
    apply wp_check; [intros [] _; wp_step|intros]; by apply kept_eq.
Qed.
Lemma configure_admission_limits_spec connections bandwidth w :
  sound w -> wp (configure_admission_limits env connections bandwidth) (fun _ w' => kept start period w w') w.
Proof.
  intros S. unfold configure_admission_limits. wp_step. wp_step.
  apply wp_check; [intros o _|intros; by apply kept_refl].
  case_bool_decide; [wp_step; by apply kept_refl|]. wp_step. wp_step.
  set (w1 := on_supervisor _ _). assert (sound w1) as S1 by (by apply sound_supervisor; cbn; try by destruct S).
  destruct (_ || _); [|wp_step; by apply kept_eq]. eapply wp_mono; [by apply stop_runtime_spec|].
  intros r w2 (S2 & Hd2 & _). by apply kept_eq.
Qed.
Lemma shutdown_spec w : sound w -> wp (shutdown env) (fun _ => sound) w.
Proof. intros S. eapply wp_mono; [by apply stop_runtime_spec|]. by intros r w2 (S2 & _). Qed.

(** ** Validation *)

Lemma validation_is_complete_spec r w :
  consistent (w_db w) ->
  wp (validation_is_complete env r) (fun res w' => quiet w w' /\
    (res = Ok false -> rendered (w_db w) !! r = None)) w.
Proof.
  intros C. unfold validation_is_complete. wp_step. apply wp_query; [|done]. intros reports w1 Hq E.
  apply wp_check; [intros first _|done]. apply wp_check; [intros _ _|done]. apply wp_check; [intros _ _|done].
  apply wp_check; [intros latest Hl|done]. apply ok_or_Ok in Hl.
  assert (forall res, rr_state latest <> RsReceived -> wp (_ ← verify_rendered_config env r latest; mret true)
    (fun res' w' => quiet w w' /\ (res' = Ok false -> res)) w1) as Hverify.
  { intros res _. wp_step. eapply wp_mono; [apply verify_rendered_config_spec|]. intros [[]|e] w2 Hq2;
      [wp_step|]; (split; [by etrans|done]). }
  destruct (rr_state latest) eqn:Hs; try (by apply Hverify); try (by wp_step). wp_step. split; [done|]. intros _.
  apply latest_report in E; [|by apply consistent_rows]. destruct (last reports) as [[d rep]|]; [|done].
  injection Hl as ->. destruct (last (rows_of (w_db w) r)) as [[st row]|] eqn:El; [|done].
  destruct E as (_ & _ & Hst & _). cbn in Hst. apply rows_of_last in El as [_ Hmax].
  apply eq_None_not_Some. intros [row' Hv]%(c_validated _ C). apply Hmax in Hv as [Hrank _].
  by rewrite <- Hst, Hs in Hrank.
Qed.
Lemma now_utc_spec w : wp (now_utc env) (fun res w' => quiet w w') w.
Proof. unfold now_utc. wp_step. apply wp_ask. intros a w' Hq. by wp_step. Qed.

Lemma append_rejected_result_spec r started code w :
  sound w -> rendered (w_db w) !! r = None -> (forall c, code <> Unknown c) ->
  wp (append_rejected_result env r started code) (fun _ => sound) w.
Proof.
  intros S Hr Hk. unfold append_rejected_result. wp_step. eapply wp_mono; [apply now_utc_spec|].
  intros [completed|e] w1 Hq; pose proof (sound_quiet _ _ _ _ Hq S) as S1; [|done].
  eapply wp_mono; [apply (write_spec _ start period (fun _ => True)); [done|]|by intros res w2 [[] _]].
  intros db' E. split_and!; [|unfold applied; by rewrite (insert_revision_result_active _ _ _ _ E)|done].
  eapply step_refused; [..|exact E]; try done; [|by rewrite (q_db _ _ Hq)]. intros c [= Hc]. by eapply Hk.
Qed.
Lemma append_validated_result_spec r started config rt w :
  sound w -> runtime (w_db w) = Some rt -> is_Some (runtime_from_hex (rt_expected_sha256 rt)) ->
  tested (rt_expected_sha256 rt) config ->
  wp (append_validated_result env r started (config_relative_path r) (protocol_digest config)
        (rt_expected_sha256 rt)) (fun _ => sound) w.
Proof.
  intros S Hrt Hhex Htest. unfold append_validated_result. wp_step. eapply wp_mono; [apply now_utc_spec|].
  intros [completed|e] w1 Hq; pose proof (sound_quiet _ _ _ _ Hq S) as S1; [|done].
  eapply wp_mono; [apply (write_spec _ start period (fun _ => True)); [done|]|by intros res w2 [[] _]].
  rewrite (q_db _ _ Hq). intros db' E. split_and!; [| |done].
  - eapply step_validated; [..|exact E]; try done. apply protocol_digest_parses.
  - unfold commit_validated in E. apply bind_Ok in E as (_ & _ & E). unfold applied.
    by rewrite (insert_revision_result_active _ _ _ _ E).
Qed.

Lemma minimum_agent_version_error_known `{Sv : Semver} required code :
  minimum_agent_version_error required = Ok (Some code) -> code = SchemaUnsupported.
Proof. unfold minimum_agent_version_error. intros E. inv_ok. repeat case_match; by simplify_eq. Qed.

(** A call of the outside that may fail *)
Lemma outside_then {B} message (m : Act HostError B) w :
  sound w -> (forall w', quiet w w' -> sound w' -> wp m (fun _ => sound) w') ->
  wp (_ ← in_context message (outside env); m) (fun _ => sound) w.
Proof.
  intros S H. wp_step. wp_step. apply wp_outside. intros r w' Hq Hr.
  pose proof (sound_quiet _ _ _ _ Hq S) as S'. destruct Hr as [->| ->]; cbn; auto.
Qed.
Lemma validate_desired_state_spec `{Sv : Semver} e w :
  sound w -> wp (validate_desired_state env e) (fun _ => sound) w.
Proof.
  intros S. unfold validate_desired_state. wp_step.
  eapply wp_mono; [by apply validation_is_complete_spec; destruct S|]. intros res w1 [Hq1 Hnone].
  pose proof (sound_quiet _ _ _ _ Hq1 S) as S1. destruct res as [[]|err]; [by wp_step| |done].
  specialize (Hnone eq_refl). rewrite <- (q_db _ _ Hq1) in Hnone. clear w S Hq1.
  wp_step. apply wp_query; [|by intros; eapply sound_quiet]. intros rt w2 Hq2 Hrt. injection Hrt as Hrt.
  pose proof (sound_quiet _ _ _ _ Hq2 S1) as S2. destruct rt as [rt|]; [|by wp_step]. rewrite <- (q_db _ _ Hq2) in *.
  clear w1 S1 Hq2. wp_step. eapply wp_mono; [apply now_utc_spec|]. intros res w3 Hq3.
  pose proof (sound_quiet _ _ _ _ Hq3 S2) as S3. destruct res as [started|err]; [|done]. rewrite <- (q_db _ _ Hq3) in *.
  clear w2 S2 Hq3. apply wp_check; [intros too_old Ht|done].
  destruct too_old as [code|].
  { apply minimum_agent_version_error_known in Ht as ->. by apply append_rejected_result_spec. }
  apply wp_check; [intros hex Hhex|done]. apply ok_or_Ok in Hhex. apply outside_then; [done|]. intros w4 Hq4 S4.
  apply outside_then; [done|]. intros w5 Hq5 S5. wp_step. apply wp_ask. intros a w6 Hq6.
  assert (quiet w3 w6) as Hq by (by do 2 etrans). pose proof (sound_quiet _ _ _ _ Hq6 S5) as S6.
  rewrite <- (q_db _ _ Hq) in *. clear dependent w3 w4 w5.
  destruct (an_rendered a) as [config|]; [|by apply append_rejected_result_spec].
  wp_step. apply wp_ask_env. intros w7 Hq7. pose proof (sound_quiet _ _ _ _ Hq7 S6) as S7.
  rewrite <- (q_db _ _ Hq7) in *. destruct (an_test _ _ _) eqn:Ht7; [|by apply append_rejected_result_spec|by wp_step].
  apply outside_then; [done|]. intros w8 Hq8 S8. apply append_validated_result_spec; [done| |done|by eapply env_truthful].
  by rewrite (q_db _ _ Hq8).
Qed.

(** ** Configuration and reports *)

Lemma configure_xray_spec path sha version port replace w :
  sound w -> wp (configure_xray env path sha version port replace) (fun _ => sound) w.
Proof.
  intros S. unfold configure_xray. apply wp_check; [intros d _|done].
  do 3 (apply outside_then; [done|]; intros ? _ ?).
  eapply wp_mono; [apply (write_spec _ start period (fun _ => True)); [done|]|by intros res w2 [[] _]].
  intros db' E. split_and!; [by eapply step_runtime| |done].
  unfold commit_runtime in E. inv_ok. repeat case_match; by inv_ok.
Qed.
Lemma report_each_spec reports w : sound w -> wp (report_each env reports) (fun _ => sound) w.
Proof.
  revert w. induction reports as [|[r [st row]] reports IH]; intros w S; cbn [report_each]; [by wp_step|].
  do 4 (apply wp_check; [intros ? _|done]). apply outside_then; [done|]. intros w1 _ S1.
  wp_step. apply wp_unix_timestamp. intros [now|e] w2 Hq; pose proof (sound_quiet _ _ _ _ Hq S1) as S2; [|done].
  wp_step. eapply wp_mono; [apply (write_spec _ start period (fun _ => True)); [done|]|].
  - intros db' E. split_and!; [by eapply step_reported| |done].
    unfold mark_reported in E. repeat case_match; by inv_ok.
  - intros [[]|e] w3 [(S3 & _) _]; [by apply IH|done].
Qed.
Lemma report_unreported_results_spec scope w : sound w -> wp (report_unreported_results env scope) (fun _ => sound) w.
Proof.
  intros S. unfold report_unreported_results. wp_step. apply wp_query; [|by intros; eapply sound_quiet].
  intros reports w1 Hq _. apply report_each_spec. by eapply sound_quiet.
Qed.
Lemma then_sound {A B} (m : Act HostError A) (f : A -> Act HostError B) w :
  wp m (fun _ => sound) w -> (forall a w', sound w' -> wp (f a) (fun _ => sound) w') ->
  wp (m ≫= f) (fun _ => sound) w.
Proof. intros Hm Hf. wp_step. eapply wp_mono; [exact Hm|]. intros [a|e] w' S'; [by apply Hf|done]. Qed.
Lemma validate_and_report_spec `{Sv : Semver} e w : sound w -> wp (validate_and_report env e) (fun _ => sound) w.
Proof.
  intros S. unfold validate_and_report. apply then_sound; [by apply report_unreported_results_spec|].
  intros [] w1 S1. apply then_sound.
  { unfold ensure_received_result_reported. wp_step. apply wp_query; [|by intros; eapply sound_quiet].
    intros row w2 Hq _. wp_step. by eapply sound_quiet. }
  intros [] w2 S2. apply then_sound; [by apply validate_desired_state_spec|].
  intros [] w3 S3. apply then_sound; [by apply report_unreported_results_spec|].
  intros [] w4 S4. apply then_sound; [|by intros [] w5 S5; apply report_unreported_results_spec].
  unfold ensure_revision_results_reported. wp_step. apply wp_query; [|by intros; eapply sound_quiet].
  intros row w5 Hq _. wp_step. by eapply sound_quiet.
Qed.
End SyncFacts.

(** ** Receiving *)

Section Receiving.
Context `{U : UuidText} `{R : Rfc3339} `{B : Base64} `{Sha : Sha256} {ShaLaws : Sha256Laws Sha} `{Ed : Ed25519}.
Context `{Json : NodeJson} {JsonLaws : NodeJsonLaws Json} `{Sv : Semver} (registration : SyncRegistration).
Context {Tr : Trusted} (signed_trusted : forall e digest, signed_under registration e digest -> trusted e digest).
Context (env : nat -> Answer) (start : Db) (period : Z) (env_truthful : truthful env).
Abbreviation sound := (sound start period).

Lemma received_row r result json :
  known_code result -> result_validate result r = Ok tt -> report_to_string result = Some json ->
  row_holds r (rr_state result) (mkResultRow json (protocol_digest (as_bytes json)) None) result.
Proof. intros Hk Hv Hj. split_and!; try done. by apply report_read_back. Qed.

Lemma persist_verified_desired_state_spec cursor body w :
  sound w -> wp (persist_verified_desired_state env registration cursor body) (fun _ => sound) w.
Proof.
  intros S. unfold persist_verified_desired_state. apply wp_check; [intros e _|done].
  apply wp_check; [intros previous Hprev|done]. apply wp_check; [intros [] Hcheck|done]. pose proof (check_envelope_Ok _ _ _ _ Hcheck) as [_ Hlast].
  apply wp_check; [intros json Hjson|done]. apply ok_or_Ok in Hjson. apply wp_check; [intros transcript Htr|done]. apply map_err_Ok in Htr.
  wp_step. apply wp_unix_timestamp. intros [now|err] w1 Hq; pose proof (sound_quiet _ _ _ _ Hq S) as S1; [|done].
  apply wp_check; [intros timestamp _|done]. apply wp_check; [intros [] Hv|done]. apply map_err_Ok in Hv.
  apply wp_check; [intros report Hreport|done]. apply ok_or_Ok in Hreport.
  apply then_sound; [|by intros [] w2 S2; wp_step].
  eapply wp_mono; [apply (write_spec _ start period (fun _ => True)); [done|]|by intros res w2 [[] _]].
  intros db' E. split_and!; [| |done]; [|unfold commit_desired_state in E; by inv_ok].
  assert (desired_revision_cursor (w_db w1) = cursor /\ 0 < ds_revision (sd_document e)) as [Hc Hpos].
  { unfold commit_desired_state in E. inv_ok. bool_props. lia. }
  rewrite <- Hc in E. eapply step_received; [| | | | |exact E]; cbn.
  - rewrite Hc. destruct (Z.eqb_spec cursor 0) as [->|]; [done|]. inv_ok.
    match goal with H : positive_new _ = Ok _ |- _ => apply positive_new_Ok in H as [_ ->] end. by apply Hlast.
  - by apply envelope_read_back.
  - done.
  - split; [done|]. apply signed_trusted. split; [by eapply checked_again|by exists transcript].
  - by apply (received_row _ (mkResult RsReceived None timestamp timestamp None None)).
Qed.
Lemma process_desired_spec cursor body w : sound w -> wp (process_desired env registration cursor body) (fun _ => sound) w.
Proof.
  intros S. unfold process_desired. destruct body as [body|]; [|by wp_step].
  apply then_sound; [by apply persist_verified_desired_state_spec|]. intros e w1 S1. by apply validate_and_report_spec.
Qed.
Lemma resume_local_state_spec w : sound w -> wp (resume_local_state env registration) (fun _ => sound) w.
Proof.
  intros S. unfold resume_local_state. wp_step. apply wp_query; [|by intros; eapply sound_quiet].
  intros cursor w1 Hq _. pose proof (sound_quiet _ _ _ _ Hq S) as S1. apply then_sound.
  - unfold verify_persisted_desired_state. wp_step. apply wp_query; [|by intros; eapply sound_quiet].
    intros highest w2 Hq2 _. pose proof (sound_quiet _ _ _ _ Hq2 S1) as S2. apply wp_check; [intros _ _|done].
    case_match; [by wp_step|]. wp_step. apply wp_query; [|by intros; eapply sound_quiet].
    intros stored w3 Hq3 _. pose proof (sound_quiet _ _ _ _ Hq3 S2) as S3.
    do 5 (apply wp_check; [intros ? _|done]). by wp_step.
  - intros [e|] w2 S2; [by apply validate_and_report_spec|by wp_step].
Qed.
End Receiving.
