(* ===== verification/NodeHostRuns.v ===== *)
(** * Runs of the node host

    A run starts with the tables an earlier run left durable, at any of its
    commits, and calls the functions of the supervisor and of the
    synchronisation in any order. The theorems say what holds in every world
    such a run passes through, and of every state of the tables a crash can
    leave behind. *)
From S2P Require Import Prelude Text Clock ProtoTypes ProtoAuth ProtoNode ProtoSigned NodeHostDb NodeHostRuntime.
From S2P Require Import NodeHostSync NodeHostFacts NodeHostLogic NodeHostSafety NodeHostSupervisor NodeHostEntry NodeHostSyncFacts.
Open Scope Z_scope.

(** What the service and the command line call *)
Inductive Op : Type :=
| OpRecover | OpReconcile | OpPoll | OpObserve | OpShutdown
| OpLimits (max_connections : Z) (bandwidth_limit_bps : option Z)
| OpConfigure (binary_path expected_sha256 version : string) (stats_api_port : Z) (replace : bool)
| OpResume
| OpDesired (cursor : Z) (body : option (list byte)).

Section Runs.
Context `{U : UuidText} `{R : Rfc3339} `{B : Base64} `{Sha : Sha256} {ShaLaws : Sha256Laws Sha} `{Ed : Ed25519}.
Context `{Json : NodeJson} {JsonLaws : NodeJsonLaws Json} `{Sv : Semver} (registration : SyncRegistration).
(** Which configurations the test of the Xray binary of a digest accepts *)
Context (accepted : string -> list byte -> Prop).

Definition host_trust : Trusted := mkTrusted (signed_under registration) accepted.
#[local] Existing Instance host_trust.

Definition perform (env : nat -> Answer) (op : Op) : Act HostError unit :=
  match op with
  | OpRecover => recover env
  | OpReconcile => reconcile env
  | OpPoll => poll env
  | OpObserve => _ ← router_mapping_target env; mret tt
  | OpShutdown => shutdown env
  | OpLimits n b => configure_admission_limits env n b
  | OpConfigure path sha version port replace => configure_xray env path sha version port replace
  | OpResume => resume_local_state env registration
  | OpDesired cursor body => process_desired env registration cursor body
  end.
(** The operations of a run, whether or not they succeed *)
Fixpoint run (env : nat -> Answer) (ops : list Op) (w : World) : World :=
  match ops with
  | [] => w
  | op :: ops => run env ops (perform env op w).2
  end.
Definition boot (db : Db) (sv : XraySupervisor) : World := mkWorld db sv 0 0 ∅ [].

(** A [Duration] is not negative; a supervisor that was started *)
Definition started (options : ActivationOptions) (sv : XraySupervisor) : Prop :=
  0 <= op_probe_interval options /\ supervisor_new options = Ok sv.

(** The states of the tables a run can leave behind: any that became durable *)
Inductive durable : Db -> Prop :=
| durable_fresh : durable fresh_db
| durable_run db options sv env ops db' :
    durable db -> started options sv -> truthful env ->
    EvDurable db' ∈ w_log (run env ops (boot db sv)) -> durable db'.

(** The worlds a run passes through *)
Inductive live (options : ActivationOptions) : Db -> World -> Prop :=
| live_run db sv env ops :
    durable db -> started options sv -> truthful env -> live options db (run env ops (boot db sv)).

(** ** Every world of a run is sound *)

Lemma router_mapping_target_spec env start period w :
  sound start period w ->
  wp (router_mapping_target env) (fun r w' => sound start period w' /\
    forall rev port, r = Ok (Some (rev, port)) -> applied (w_db w') = Some rev /\ is_Some (sv_child (w_supervisor w'))) w.
Proof.
  intros S. unfold router_mapping_target. wp_step. eapply wp_mono; [by apply observe_runtime_state_spec|].
  intros [st|e] w1 (S1 & _); [|done]. destruct st; try by wp_step. wp_step. wp_step.
  apply wp_check; [intros rev Hrev|done]. apply wp_check; [intros port _|done]. wp_step. split; [done|].
  intros rev' port' [= <- <-]. apply (s_running _ _ _ S1). by apply ok_or_Ok in Hrev.
Qed.
Lemma perform_sound env start period op w :
  truthful env -> sound start period w -> sound start period (perform env op w).2.
Proof.
  intros Ht S. enough (wp (perform env op) (fun _ => sound start period) w) as H.
  { unfold wp in H. by destruct (perform env op w). }
  destruct op; cbn [perform].
  - eapply wp_mono; [by apply recover_spec|]. by intros r w' [].
  - by apply reconcile_spec.
  - eapply wp_mono; [by apply poll_spec|]. by intros r w' [].
  - wp_step. eapply wp_mono; [by apply router_mapping_target_spec|]. intros [t|e] w' []; [by wp_step|done].
  - by apply shutdown_spec.
  - eapply wp_mono; [by apply configure_admission_limits_spec|]. by intros r w' [].
  - by apply configure_xray_spec.
  - by apply resume_local_state_spec.
  - by apply process_desired_spec.
Qed.
Lemma run_sound env start period ops w : truthful env -> sound start period w -> sound start period (run env ops w).
Proof. intros Ht. revert w. induction ops as [|op ops IH]; intros w S; [done|]. cbn. by apply IH, perform_sound. Qed.

Lemma boot_sound db options sv :
  consistent db -> started options sv -> sound db (op_stabilization_duration options) (boot db sv).
Proof.
  intros C [Hi E]. unfold supervisor_new in E. apply bind_Ok in E as (o & E & [= <-]).
  unfold options_validate in E. apply bind_Ok in E as ([] & Hb%ensure_Ok & E). apply bind_Ok in E as (_ & _ & [= <-]).
  bool_props. split; cbn; try done; [constructor|lia|]. by intros pid c []%elem_of_nil.
Qed.
Lemma history_durable_consistent start period log db :
  consistent start -> history start period log -> EvDurable db ∈ log -> consistent db.
Proof.
  intros C H. assert (consistent (last_db start log) /\ (EvDurable db ∈ log -> consistent db)) as [_ ?]; [|done].
  induction H as [|db' log Hh [IH1 IH2] Hstep _|e log Hh [IH1 IH2] He].
  - split; [done|]. by intros ?%elem_of_nil.
  - assert (consistent db') by (by eapply db_step_preserves). split; [done|].
    intros [[= ->]|Hin]%elem_of_cons; auto.
  - split; [destruct e; try done; by destruct (He db0)|].
    intros [<-|Hin]%elem_of_cons; [by destruct (He db)|auto].
Qed.
Lemma durable_invariant db : durable db -> consistent db.
Proof.
  induction 1 as [|db options sv env ops db' _ IH E Ht Hin]; [apply fresh_consistent|].
  eapply history_durable_consistent; [exact IH| |exact Hin].
  by eapply (s_history _ _ _ (run_sound _ _ _ _ _ Ht (boot_sound _ _ _ IH E))).
Qed.
Lemma live_sound options db w : live options db w -> sound db (op_stabilization_duration options) w.
Proof. destruct 1 as [db sv env ops Hd E Ht]. apply run_sound; [done|]. by apply boot_sound; [apply durable_invariant|]. Qed.

(** The tables of a live world are durable themselves. *)
Lemma last_db_durable (start : Db) log : last_db start log = start \/ EvDurable (last_db start log) ∈ log.
Proof. induction log as [|[] log IH]; [by left|right; apply list_elem_of_here|..]; destruct IH; auto using list_elem_of_further. Qed.
Lemma live_durable options db w : live options db w -> durable (w_db w).
Proof.
  intros L. pose proof (live_sound _ _ _ L) as S. rewrite (s_db _ _ _ S).
  destruct L as [db sv env ops Hd Hs Ht]. destruct (last_db_durable db (w_log (run env ops (boot db sv)))) as [->|Hin];
    [done|]. by eapply durable_run.
Qed.
Lemma live_consistent options db w : live options db w -> consistent (w_db w).
Proof. intros L. by apply durable_invariant, (live_durable _ _ _ L). Qed.

(** A rendered revision was signed by the controller. *)
Lemma rendered_signed db r :
  consistent db -> is_Some (rendered db !! r) ->
  exists a e, artifacts db !! r = Some a /\ envelope_from_str (ar_envelope_json a) = Some e /\
    ds_revision (sd_document e) = r /\ controller_signed registration e.
Proof.
  intros C [row Hr]%(c_validated _ C). apply (c_rows _ C) in Hr as [[a Ha] _].
  pose proof (c_artifacts _ C _ _ Ha) as (_ & e & He & Hr & _ & Ht%signed_under_controller). by exists a, e.
Qed.
End Runs.
