(* ===== verification/NodeHostSamples.v ===== *)
(** * A node, for examples

    Concrete documents, a store of documents that stands for [serde_json], and
    environments in which the operations of [NodeHostRuns] succeed or fail. *)
From S2P Require Import Prelude Text Clock ProtoTypes ProtoInstances ProtoAuth ProtoNode ProtoNodeFacts ProtoSigned NodeHostDb.
From S2P Require Import NodeHostRuntime NodeHostSync NodeHostFacts NodeHostLogic NodeHostSyncFacts NodeHostRuns.
Open Scope Z_scope.

#[export] Instance user_eq_dec : EqDecision DesiredUser.
Proof. solve_decision. Defined.
#[export] Instance xray_eq_dec : EqDecision DesiredXrayState.
Proof. solve_decision. Defined.
#[export] Instance desired_eq_dec : EqDecision DesiredStateDocument.
Proof. solve_decision. Defined.
#[export] Instance signed_eq_dec : EqDecision SignedDesiredState.
Proof. solve_decision. Defined.

(** ** Documents *)

Definition sample_key : string := base64_encode (replicate 32 x01).
Definition sample_signing_key_id : Uuid :=
  match ed25519_signing_key_id sample_key with Ok u => u | Err _ => sample_uuid 0 end.
Definition sample_registration : SyncRegistration :=
  mkRegistration (sample_uuid 1) (sample_uuid 2) (sample_uuid 8) sample_key.
Definition sample_document (revision : Z) : DesiredStateDocument :=
  mkDesired 2 (sample_uuid 1) (sample_uuid 2) revision (mkTime 0 0) "0.1.0"
    [mkUser (sample_uuid 3) (sample_uuid 4) (uuid_to_string (sample_uuid 5)) true]
    (mkXray 10443 (Some 443) ["www.example.com"%string] "www.example.com:443")
    sample_signing_key_id (sample_uuid 8).
Definition sample_envelope (revision : Z) : SignedDesiredState :=
  mkSignedDesired (sample_document revision)
    match desired_state_transcript (sample_document revision) with
    | Ok t => base64_encode (be_bytes 64 (byte_sum t))
    | Err _ => EmptyString
    end.
Definition sample_config : list byte := as_bytes "{}".
(** ** Text *)

Definition written {A} `{EqDecision A} (table : list (string * A)) (a : A) : option string :=
  fst <$> List.find (fun p => bool_decide (p.2 = a)) table.
Definition read {A} (table : list (string * A)) (s : string) : option A :=
  snd <$> List.find (fun p => bool_decide (p.1 = s)) table.
Lemma written_read {A} `{EqDecision A} (table : list (string * A)) a s :
  Forall (fun p => read table p.1 = Some p.2) table -> written table a = Some s -> read table s = Some a.
Proof.
  rewrite Forall_forall. unfold written. intros H E. destruct (List.find _ table) as [p|] eqn:Ef; [|done].
  injection E as <-. apply List.find_some in Ef as [Hin <-%bool_decide_eq_true]. apply H, list_elem_of_In, Hin.
Qed.
(** A report is written as the bits of its code. *)
Fixpoint bits (p : positive) : string :=
  match p with
  | xH => EmptyString
  | xO p => String Ascii.zero (bits p)
  | xI p => String Ascii.one (bits p)
  end.
Fixpoint of_bits (s : string) : option positive :=
  match s with
  | EmptyString => Some xH
  | String c s => p ← of_bits s; Some (if bool_decide (c = Ascii.one) then xI p else xO p)
  end.
Lemma of_bits_bits p : of_bits (bits p) = Some p.
Proof. induction p as [p IH|p IH|]; cbn; [by rewrite IH..|done]. Qed.
#[export] Instance code_countable : Countable ApiErrorCode.
Proof.
  refine (inj_countable' (fun c => match c with Unknown s => inl s | c => inr (api_as_str c) end)
    (fun x => match x with inl s => Unknown s | inr s => api_from_wire s end) _).
  intros []; reflexivity.
Defined.
#[export] Instance report_countable : Countable RevisionResult.
Proof.
  refine (inj_countable' (fun r => (rr_state r, rr_config_digest r, (instant (rr_started_at r), offset (rr_started_at r)),
      (instant (rr_completed_at r), offset (rr_completed_at r)), rr_error_code r, rr_rollback_revision r))
    (fun '(st, d, (si, so), (ci, co), code, rb) => mkResult st d (mkTime si so) (mkTime ci co) code rb) _).
  by intros [? ? [] [] ? ?].
Defined.
Definition envelopes_table : list (string * SignedDesiredState) :=
  [("seven", sample_envelope 7); ("eight", sample_envelope 8)]%string.
#[export] Instance table_json : NodeJson := {
  report_to_string r := Some (bits (encode r));
  report_from_str s := p ← of_bits s; decode p;
  envelope_from_slice body := read envelopes_table (str_of_bytes body);
  envelope_to_string := written envelopes_table;
  envelope_from_str := read envelopes_table;
}.
#[export] Instance table_laws : NodeJsonLaws table_json.
Proof.
  split; [|intros e s; apply written_read; repeat constructor].
  intros r s _ [= <-]. cbn. rewrite of_bits_bits. cbn. by rewrite decode_encode.
Qed.

#[export] Instance text_semver : Semver := {
  Version := string;
  version_parse s := Some s;
  version_lt a b := negb (bool_decide (a = b));
}.

(** ** Environments *)

Definition sample_file : FileAnswer := mkFile false true 2 true (Some sample_config).
(** Xray accepts one configuration. *)
Definition sample_accepted (binary : string) (config : list byte) : Prop := config = sample_config.
Definition sample_test (binary : string) (config : list byte) : ConfigTest :=
  if bool_decide (config = sample_config) then TestPassed else TestRejected.
Definition good : Answer :=
  mkAnswer true true CommitDone (1700000000 * NANOS) 1000000 false true default_counters
    (fun _ => Some sample_file) "/data/config.json" (Some sample_config) sample_test.
Definition all_good : nat -> Answer := fun _ => good.
(** The answers at the calls [bad] are [a]. *)
Definition except (bad : nat -> bool) (a : Answer) : nat -> Answer := fun n => if bad n then a else good.
Definition failing : Answer :=
  mkAnswer false true CommitDone (1700000000 * NANOS) 1000000 false true default_counters
    (fun _ => Some sample_file) "/data/config.json" (Some sample_config) sample_test.

Lemma sample_truthful registration env : (forall n, an_test (env n) = sample_test) ->
  truthful (T := host_trust registration sample_accepted) env.
Proof. intros H n binary config Ht. rewrite H in Ht. unfold sample_test in Ht. by case_bool_decide. Qed.

Definition sample_supervisor : XraySupervisor :=
  mkSupervisor None None None None None default_counters default_options.
Definition sample_binary : string := str_of_bytes (concat (replicate 32 (as_bytes "ab"))).
Definition configure : Op := OpConfigure "/opt/xray" sample_binary "1.0" 10085 false.
Definition receive (cursor : Z) (name : string) : Op := OpDesired cursor (Some (as_bytes name)).
(** Revision 7 arrives and is activated. *)
Definition first_activation : list Op := [OpRecover; configure; receive 0 "seven"; OpReconcile].
Definition sample_world : World := run sample_registration all_good first_activation (boot fresh_db sample_supervisor).
Lemma sample_started : started default_options sample_supervisor.
Proof. split; [vm_compute; discriminate|vm_compute; reflexivity]. Qed.
Lemma sample_run_live env ops : (forall n, an_test (env n) = sample_test) ->
  live sample_registration sample_accepted default_options fresh_db (run sample_registration env ops (boot fresh_db sample_supervisor)).
Proof. intros H. constructor; [constructor|apply sample_started|by apply sample_truthful]. Qed.
Lemma except_test bad a : an_test a = sample_test -> forall n, an_test (except bad a n) = sample_test.
Proof. intros H n. unfold except. by destruct (bad n). Qed.
Lemma sample_active : applied (w_db sample_world) = Some 7.
Proof. vm_compute. reflexivity. Qed.
