(* ===== verification/NodeHostTheorems.v ===== *)
(** * What the node host guarantees

    The theorems about runs of the node host, each with an example. *)
From S2P Require Import Prelude Text Clock ProtoTypes ProtoInstances ProtoAuth ProtoNode ProtoSigned NodeHostDb.
From S2P Require Import NodeHostRuntime NodeHostSync NodeHostFacts NodeHostLogic NodeHostEntry NodeHostSyncFacts NodeHostRuns NodeHostSamples.
Open Scope Z_scope.

Lemma sample_live : live sample_registration sample_accepted default_options fresh_db sample_world.
Proof. by apply sample_run_live. Qed.
Lemma sample_durable : durable sample_registration sample_accepted (w_db sample_world).
Proof. by eapply live_durable, sample_live. Qed.

Lemma highest_spec l :
  match highest l with Some m => m ∈ l /\ (forall x, x ∈ l -> x <= m) | None => l = [] end.
Proof.
  induction l as [|x l IH]; [done|].
  change (highest (x :: l)) with (match highest l with Some m => Some (Z.max x m) | None => Some x end).
  destruct (highest l) as [m|].
  - destruct IH as [Hin Hmax]. split.
    + destruct (Z.max_spec x m) as [[_ ->]|[_ ->]]; set_solver.
    + intros y [->|Hy%Hmax]%elem_of_cons; lia.
  - subst. split; [set_solver|]. intros y ->%list_elem_of_singleton. lia.
Qed.
Lemma highest_is l m : m ∈ l -> (forall x, x ∈ l -> x <= m) -> default 0 (highest l) = m.
Proof.
  intros Hin Hmax. pose proof (highest_spec l) as H. destruct (highest l) as [k|]; cbn.
  - destruct H as [Hk Hk']. apply Hmax in Hk. apply Hk' in Hin. lia.
  - subst. by apply not_elem_of_nil in Hin.
Qed.
Lemma highest_between l lo hi :
  (forall x, x ∈ l -> 0 <= x <= hi) -> 0 <= hi -> (lo = 0 \/ lo ∈ l) -> lo <= default 0 (highest l) <= hi.
Proof.
  intros Hl Hhi Hlo. pose proof (highest_spec l) as H. destruct (highest l) as [k|]; cbn.
  - destruct H as [Hk Hk']. pose proof (Hl _ Hk). destruct Hlo as [->|Hlo%Hk']; lia.
  - subst. destruct Hlo as [->|Hlo]; [lia|by apply not_elem_of_nil in Hlo].
Qed.
Lemma result_keys db r st : (r, st) ∈ (map_to_list (results db)).*1 <-> is_Some (results db !! (r, st)).
Proof.
  rewrite list_elem_of_fmap. split.
  - intros ([k row] & -> & H%elem_of_map_to_list). by eexists.
  - intros [row H]. exists ((r, st), row). split; [done|]. by apply elem_of_map_to_list.
Qed.
Lemma optional_revision_Ok v : 0 <= v -> optional_revision v = Ok (if v =? 0 then None else Some v).
Proof.
  intros Hv. unfold optional_revision. destruct (Z.eqb_spec v 0); [done|].
  rewrite (proj2 (positive_new_Ok v v)) by lia. done.
Qed.

Section Progress.
Context `{Sha : Sha256} `{Json : NodeJson} {JsonLaws : NodeJsonLaws Json} {Tr : Trusted}.

Lemma received_is_cursor db : consistent db -> received_revision_value db = desired_revision_cursor db.
Proof.
  intros C. pose proof (c_cursor _ C) as Hcur. unfold received_revision_value.
  destruct (decide (desired_revision_cursor db = 0)) as [H0|H0].
  - rewrite H0 in *. pose proof (highest_spec (map_to_list (results db)).*1.*1) as H.
    destruct (highest _) as [m|]; [|done]. destruct H as [([r st] & -> & Hin%result_keys)%list_elem_of_fmap _].
    apply (row_range _ _ _ C) in Hin. cbn. lia.
  - apply highest_is.
    + apply list_elem_of_fmap. exists (desired_revision_cursor db, RsReceived). split; [done|].
      apply result_keys, (c_received _ C), (c_cursor_artifact _ C), H0.
    + intros x ([r st] & -> & Hin%result_keys)%list_elem_of_fmap. by apply (row_range _ _ _ C) in Hin as [_ ?].
Qed.
Lemma active_result db r : consistent db -> applied db = Some r -> is_Some (results db !! (r, RsApplied)).
Proof.
  intros C E. destruct (active_journal _ _ C E) as (j & Hj & Hph). pose proof (c_journal _ C _ _ Hj) as (_ & _ & _ & Ht).
  destruct (proj2 (Ht RsApplied)) as [_ Hrow]; [by rewrite Hph|done].
Qed.
Lemma applied_bounds db : consistent db ->
  0 <= default 0 (applied db) /\
  default 0 (applied db) <= validated_revision_value db <= desired_revision_cursor db /\
  applied db = if default 0 (applied db) =? 0 then None else Some (default 0 (applied db)).
Proof.
  intros C. assert (forall r, applied db = Some r -> 0 < r) as Hpos.
  { intros r Hr%(active_result _ _ C)%(row_range _ _ _ C). lia. }
  split; [|split].
  - destruct (applied db) as [r|]; cbn; [|lia]. pose proof (Hpos r eq_refl). lia.
  - unfold validated_revision_value. apply highest_between; [|apply C|].
    + intros x ([r st] & -> & [_ Hk%result_keys]%list_elem_of_filter)%list_elem_of_fmap.
      apply (row_range _ _ _ C) in Hk. cbn. lia.
    + destruct (applied db) as [r|] eqn:E; [|by left]. right. apply list_elem_of_fmap. exists (r, RsApplied).
      split; [done|]. apply list_elem_of_filter. split; [by right|]. by apply result_keys, (active_result _ _ C).
  - destruct (applied db) as [r|]; [|done]. cbn. destruct (Z.eqb_spec r 0) as [->|]; [|done]. by specialize (Hpos 0 eq_refl).
Qed.
End Progress.

Section Theorems.
Context `{U : UuidText} `{R : Rfc3339} `{B : Base64} `{Sha : Sha256} {ShaLaws : Sha256Laws Sha} `{Ed : Ed25519}.
Context `{Json : NodeJson} {JsonLaws : NodeJsonLaws Json} `{Sv : Semver} (registration : SyncRegistration).
Context (accepted : string -> list byte -> Prop).
#[local] Instance theorems_trust : Trusted := host_trust registration accepted.

Lemma highest_artifact_cursor db :
  consistent (T := host_trust registration accepted) db -> highest_artifact db = desired_revision_cursor db.
Proof.
  intros C. pose proof (c_cursor _ C) as Hcur. unfold highest_artifact.
  assert (forall r, r ∈ (map_to_list (artifacts db)).*1 -> 0 < r <= desired_revision_cursor db) as Hin.
  { intros r ([k a] & -> & H%elem_of_map_to_list)%list_elem_of_fmap. by apply (c_artifacts _ C) in H as [? _]. }
  destruct (decide (desired_revision_cursor db = 0)) as [H0|H0].
  - pose proof (highest_spec (map_to_list (artifacts db)).*1) as H. destruct (highest _) as [m|]; [|done].
    destruct H as [Hm%Hin _]. lia.
  - apply highest_is; [|intros x Hx%Hin; lia]. destruct (c_cursor_artifact _ C H0) as [a Ha].
    apply list_elem_of_fmap. exists (desired_revision_cursor db, a). split; [done|]. by apply elem_of_map_to_list.
Qed.
(** A stored desired state passes its verification when SQLite can be read. *)
Lemma stored_state_verifies db env w :
  consistent (T := host_trust registration accepted) db -> w_db w = db -> (forall n, an_database (env n) = true) ->
  exists res, (verify_persisted_desired_state env registration (desired_revision_cursor db) w).1 = Ok res /\
    (ds_revision ∘ sd_document) <$> res = if desired_revision_cursor db =? 0 then None else Some (desired_revision_cursor db).
Proof.
  intros C <- Hdb. unfold verify_persisted_desired_state, query, ask, gets, lift, mbind, act_bind, mret, act_ret. cbn.
  rewrite Hdb. cbn. rewrite (highest_artifact_cursor _ C), Z.eqb_refl. cbn.
  destruct (Z.eqb_spec (desired_revision_cursor (w_db w)) 0) as [_|H0]; [by eexists|]. cbn. rewrite Hdb. cbn.
  destruct (c_cursor_artifact _ C H0) as [a Ha].
  destruct (c_artifacts _ C _ _ Ha) as (_ & e & He & Hr & Hd & Hc & transcript & Ht & Htd).
  rewrite Ha. cbn. rewrite He. cbn. rewrite Hr, Z.eqb_refl. cbn. rewrite Hc. cbn. rewrite Ht. cbn.
  rewrite Hd, Htd, !bool_decide_eq_true_2 by done. cbn. exists (Some e). by rewrite <- Hr.
Qed.

(** C25: Whatever SQLite, the operating system, Xray and the controller do, and
    wherever the host crashes, its tables are consistent: at most one
    activation is unfinished and its predecessor is the active revision, and a
    revision has at most one terminal result, which is the one its journal says.
    When SQLite can be read, the newest desired state passes the verification of
    [verify_persisted_desired_state], signature and both digests included, and
    the results of every revision, the active state and the unfinished
    activation are read without an error. *)
Theorem tables_consistent db :
  durable registration accepted db ->
  consistent (T := host_trust registration accepted) db /\
  (forall env w, w_db w = db -> (forall n, an_database (env n) = true) ->
    exists res, (verify_persisted_desired_state env registration (desired_revision_cursor db) w).1 = Ok res /\
      (ds_revision ∘ sd_document) <$> res =
        if desired_revision_cursor db =? 0 then None else Some (desired_revision_cursor db)) /\
  (forall r, exists reports, load_revision_results db r = Ok reports) /\
  (exists state, load_active_state db = Ok state) /\ (exists j, load_incomplete_journal db = Ok j).
Proof.
  intros C%durable_invariant. split; [done|]. split; [intros; by apply stored_state_verifies|].
  split; [intros r; by apply load_revision_results_Ok, consistent_rows|].
  split; [by apply load_active_state_ok|by apply load_incomplete_journal_ok].
Qed.

(** The active revision came from the controller: it is stored with a document
    for this node that the pinned key signed, it is not newer than the last
    revision received, and it was validated and reported as applied. *)
Theorem active_revision_signed db r :
  durable registration accepted db -> applied db = Some r ->
  r <= desired_revision_cursor db /\
  is_Some (results db !! (r, RsValidated)) /\ is_Some (results db !! (r, RsApplied)) /\
  exists a e, artifacts db !! r = Some a /\ envelope_from_str (ar_envelope_json a) = Some e /\
    ds_revision (sd_document e) = r /\ controller_signed registration e.
Proof.
  intros C%durable_invariant Ha. pose proof (c_active _ C) as A. unfold active_holds, applied in *. rewrite Ha in A.
  destruct A as (j & rd & d & Hj & Hph & Hrd & _).
  pose proof (c_journal _ C _ _ Hj) as (Hr & _ & _ & Ht).
  split_and!; [by apply (rendered_range _ _ C)|by apply (c_validated _ C)| |by eapply rendered_signed].
  apply (Ht RsApplied). by rewrite Hph.
Qed.

(** C8: Every process the host ever starts runs, under its digest, the configuration
    that is stored for a revision the controller signed, and that configuration
    passed the test of the very Xray binary that is started, in this run of the
    host or an earlier one: [accepted] is whatever holds of a binary and a
    configuration when the test of Xray passes. *)
Theorem started_only_signed options db w pid c :
  live registration accepted options db w -> EvSpawned pid c ∈ w_log w ->
  (exists rd config, rendered (w_db w) !! vc_revision c = Some rd /\ vc_config_digest c = rd_config_digest rd /\
     runtime_from_hex (rd_binary_digest rd) = Some (vc_binary_digest c) /\
     protocol_digest config = vc_config_digest c /\ accepted (rd_binary_digest rd) config) /\
  exists a e, artifacts (w_db w) !! vc_revision c = Some a /\ envelope_from_str (ar_envelope_json a) = Some e /\
    ds_revision (sd_document e) = vc_revision c /\ controller_signed registration e.
Proof.
  intros L Hin. pose proof (s_spawned _ _ _ (live_sound _ _ _ _ _ L) _ _ Hin) as (_ & rd & Hrd & Hc & H).
  pose proof (live_consistent _ _ _ _ _ L) as C. destruct (c_tested _ C _ _ Hrd) as (config & Hd & Ht).
  split; [|by eapply rendered_signed].
  exists rd, config. rewrite Hc. by split_and!.
Qed.

(** C7: The host never runs two Xray processes: those it started and did not reap
    are the one child it owns, and a revision marked as running is the
    durable active revision and has that child. *)
Theorem one_process_at_a_time options db w :
  live registration accepted options db w ->
  (size (w_processes w) <= 1)%nat /\ w_processes w = owned (w_supervisor w) /\
  forall r, sv_running_revision (w_supervisor w) = Some r ->
    applied (w_db w) = Some r /\ is_Some (sv_child (w_supervisor w)).
Proof.
  intros L. pose proof (live_sound _ _ _ _ _ L) as S. split_and!; [|by destruct S..].
  rewrite (s_processes _ _ _ S). unfold owned. destruct (sv_child (w_supervisor w)); [rewrite size_singleton|rewrite size_empty]; lia.
Qed.

(** C6: A revision becomes active only after its process was started, its listener
    was seen, and was seen again after at least the stabilization period, and
    then, if members reach it through a gate, the gate of its port came up. *)
Theorem active_only_when_proven options db w newer db' older r :
  live registration accepted options db w -> w_log w = newer ++ EvDurable db' :: older ->
  applied db' = Some r -> applied (last_db db older) <> Some r ->
  proven (health (op_stabilization_duration options) older) r.
Proof.
  intros L%live_sound Hlog Ha Hne. pose proof (s_history _ _ _ L) as H. rewrite Hlog in H.
  apply history_tail, history_durable_inv in H as [H|(r' & Hr' & Hp)]; congruence.
Qed.

(** The host can always report its progress: the revisions of a heartbeat are
    consistent with each other and with the cursor, whatever happened before,
    and the one it reports as applied is the active revision. *)
Theorem heartbeat_always_possible db :
  durable registration accepted db ->
  exists p, heartbeat_progress db (desired_revision_cursor db) = Ok p /\
    desired_revision p = received_revision p /\ applied_revision p = applied db /\ progress_validate p = Ok tt.
Proof.
  intros C%durable_invariant. pose proof (c_cursor _ C) as Hcur. pose proof (received_is_cursor _ C) as Hrec.
  pose proof (applied_bounds _ C) as (Hpos & Hval & Happ). set (a := default 0 (applied db)) in *.
  unfold heartbeat_progress, load_progress. rewrite Hrec, Z.eqb_refl. rsimpl. fold (applied db). fold a.
  rewrite !optional_revision_Ok by lia. rsimpl.
  set (p := mkProgress _ _ _ _). assert (progress_validate p = Ok tt) as Hp.
  { unfold progress_validate, validate_revision_pair, p. cbn. clear -Hval Hcur Hpos.
    destruct (Z.eqb_spec (desired_revision_cursor db) 0), (Z.eqb_spec (validated_revision_value db) 0),
      (Z.eqb_spec a 0); try lia; rsimpl; rewrite ?(proj2 (Z.ltb_ge _ _)) by lia; done. }
  exists p. rewrite Hp. by split_and!.
Qed.
End Theorems.
Lemma heartbeat_always_possible_witness :
  exists p, heartbeat_progress (w_db sample_world) 7 = Ok p /\ applied_revision p = Some 7.
Proof.
  destruct (heartbeat_always_possible _ _ _ sample_durable) as (p & Hp & _ & Ha & _).
  exists p. split; [|by rewrite Ha; apply sample_active].
  replace 7 with (desired_revision_cursor (w_db sample_world)) by (vm_compute; reflexivity). exact Hp.
Defined.

Lemma tables_consistent_witness :
  exists res, (verify_persisted_desired_state all_good sample_registration 7 sample_world).1 = Ok res /\
    (ds_revision ∘ sd_document) <$> res = Some 7.
Proof.
  replace 7 with (desired_revision_cursor (w_db sample_world)) by (vm_compute; reflexivity).
  exact (proj1 (proj2 (tables_consistent _ _ _ sample_durable)) all_good sample_world eq_refl (fun _ => eq_refl)).
Defined.
Lemma active_revision_signed_witness :
  exists a e, artifacts (w_db sample_world) !! 7 = Some a /\ envelope_from_str (ar_envelope_json a) = Some e /\
    ds_revision (sd_document e) = 7 /\ controller_signed sample_registration e.
Proof. exact (proj2 (proj2 (proj2 (active_revision_signed _ _ _ _ sample_durable sample_active)))). Defined.
Lemma one_process_at_a_time_witness :
  (size (w_processes sample_world) <= 1)%nat /\ sv_running_revision (w_supervisor sample_world) = Some 7 /\
  is_Some (sv_child (w_supervisor sample_world)).
Proof.
  pose proof (one_process_at_a_time _ _ _ _ _ sample_live) as (H1 & _ & H2).
  assert (sv_running_revision (w_supervisor sample_world) = Some 7) as Hr by (vm_compute; reflexivity).
  split_and!; [exact H1|exact Hr|]. exact (proj2 (H2 7 Hr)).
Defined.
Definition starts (r : Z) (e : Event) : bool :=
  match e with EvSpawned _ c => vc_revision c =? r | _ => false end.
Lemma started_only_signed_witness :
  exists pid c, EvSpawned pid c ∈ w_log sample_world /\ vc_revision c = 7 /\
  vc_config_digest c = protocol_digest sample_config /\
  exists a e, artifacts (w_db sample_world) !! vc_revision c = Some a /\
    envelope_from_str (ar_envelope_json a) = Some e /\
    ds_revision (sd_document e) = vc_revision c /\ controller_signed sample_registration e.
Proof.
  assert (existsb (starts 7) (w_log sample_world) = true) as H by (vm_compute; reflexivity).
  apply List.existsb_exists in H as (e & Hin%list_elem_of_In & H). destruct e as [|pid c| | | |]; try discriminate H.
  exists pid, c. split; [exact Hin|]. split; [by apply Z.eqb_eq|].
  destruct (started_only_signed _ _ _ _ _ _ _ sample_live Hin) as [(rd & config & _ & _ & _ & <- & ->) H'].
  split; [reflexivity|exact H'].
Defined.
(** The commit that made a revision active *)
Lemma became_active (start : Db) log r :
  applied (last_db start log) = Some r -> applied start <> Some r ->
  exists newer db' older, log = newer ++ EvDurable db' :: older /\ applied db' = Some r /\
    applied (last_db start older) <> Some r.
Proof.
  intros H Hs. induction log as [|e log IH]; [done|].
  destruct (decide (applied (last_db start log) = Some r)) as [Hr|Hr].
  - destruct (IH Hr) as (newer & db' & older & -> & Hrest). by exists (e :: newer), db', older.
  - destruct e as [db| | | | |]; try done. by exists [], db, log.
Qed.
Lemma active_only_when_proven_witness :
  exists newer db' older, w_log sample_world = newer ++ EvDurable db' :: older /\
    applied db' = Some 7 /\ proven (health (5 * NANOS) older) 7.
Proof.
  destruct (became_active fresh_db (w_log sample_world) 7) as (newer & db' & older & Hlog & Ha & Hne).
  - vm_compute. reflexivity.
  - discriminate.
  - exists newer, db', older. split; [exact Hlog|]. split; [exact Ha|].
    exact (active_only_when_proven _ _ _ _ _ _ _ _ _ sample_live Hlog Ha Hne).
Defined.
