(* ===== verification/NodeHostTermination.v ===== *)
(** * Every operation of the node host terminates

    The loops of [prove_owned_child_healthy] run on fuel, and an error that
    contains [Diverges] would say that it ran out. No operation returns one,
    whatever the outside answers, so the fuel is always enough: [calm] says
    so of one function, and is closed under the constructs of the monad. *)
From S2P Require Import Prelude Text Clock ProtoTypes ProtoInstances ProtoAuth ProtoNode ProtoSigned NodeHostDb.
From S2P Require Import NodeHostRuntime NodeHostSync NodeHostFacts NodeHostLogic NodeHostSafety NodeHostRuns NodeHostSamples.
Open Scope Z_scope.

(** Whether an error comes from a loop that ran out of fuel *)
Class Failure (E : Type) : Type := diverging : E -> bool.
#[export] Instance host_failure : Failure HostError :=
  fix go e := match e with
  | Diverges => true
  | Wrap _ e => go e
  | WrapWith _ a e => go a || go e
  | _ => false
  end.
#[export] Instance activation_failure : Failure ActivationFailure := fun f => diverging (af_error f).

Definition clean {E A} `{Failure E} (r : result E A) : Prop :=
  match r with Ok _ => True | Err e => diverging e = false end.
(** The times the loops depend on *)
Definition timing (w : World) : Z * Z * Z :=
  let o := sv_options (w_supervisor w) in (op_startup_timeout o, op_stabilization_duration o, op_probe_interval o).
Definition steady (w w' : World) : Prop := timing w' = timing w /\ w_now w <= w_now w'.
Definition good_time (w : World) : Prop := 0 < op_probe_interval (sv_options (w_supervisor w)).
Definition calm {E A} `{Failure E} (m : Act E A) : Prop :=
  forall w, good_time w -> wp m (fun r w' => clean r /\ steady w w') w.

Lemma steady_refl w : steady w w.
Proof. by split. Qed.
Lemma steady_trans w1 w2 w3 : steady w1 w2 -> steady w2 w3 -> steady w1 w3.
Proof. intros [H1 N1] [H2 N2]. split; [congruence|lia]. Qed.
Lemma steady_quiet w w' : quiet w w' -> steady w w'.
Proof. intros []. split; [|done]. unfold timing. congruence. Qed.
Lemma steady_good w w' : steady w w' -> good_time w -> good_time w'.
Proof. intros [[= _ _ Hi] _]. unfold good_time. lia. Qed.
#[export] Hint Resolve steady_refl steady_trans steady_quiet : core.

Section Rules.
Context {E : Type} `{FE : Failure E}.

Lemma calm_ret {A} (a : A) : calm (mret a : Act E A).
Proof. by intros w. Qed.
Lemma calm_fail {A} (e : E) : diverging e = false -> calm (fail e : Act E A).
Proof. by intros H w. Qed.
Lemma calm_lift {A} (r : result E A) : clean r -> calm (lift r).
Proof. by intros H w. Qed.
Lemma calm_gets {A} (f : World -> A) : calm (gets f : Act E A).
Proof. by intros w. Qed.
Lemma calm_supervisor : calm (supervisor : Act E _).
Proof. by intros w. Qed.
Lemma calm_bind {A B} (m : Act E A) (f : A -> Act E B) : calm m -> (forall a, calm (f a)) -> calm (m ≫= f).
Proof.
  intros Hm Hf w Hw. apply wp_bind. eapply wp_mono; [by apply Hm|]. intros [a|e] w1 [Hc Hs]; [|done].
  eapply wp_mono; [by apply Hf; eapply steady_good|]. intros r w2 [Hc2 Hs2]. eauto.
Qed.
(** What was attempted failed with an error of its own. *)
Lemma calm_attempt {F A B} `{Failure F} (m : Act F A) (f : result F A -> Act E B) :
  calm m -> (forall r, clean r -> calm (f r)) -> calm (attempt m ≫= f).
Proof.
  intros Hm Hf w Hw. apply wp_bind, wp_attempt. eapply wp_mono; [by apply Hm|]. intros r w1 [Hc Hs].
  eapply wp_mono; [by apply Hf; [|eapply steady_good]|]. intros r2 w2 [Hc2 Hs2]. eauto.
Qed.
Lemma calm_failing_with {F A} `{Failure F} (f : F -> E) (m : Act F A) :
  (forall e, diverging e = false -> diverging (f e) = false) -> calm m -> calm (failing_with f m).
Proof.
  intros Hf Hm w Hw. apply wp_failing_with. eapply wp_mono; [by apply Hm|]. intros [a|e] w' [Hc Hs]; [done|].
  split; [by apply Hf|done].
Qed.
Lemma calm_modify (f : World -> World) :
  (forall w, timing (f w) = timing w /\ w_now (f w) = w_now w) -> calm (modify f : Act E unit).
Proof. intros Hf w Hw. destruct (Hf w) as [Ht Hn]. split; [done|]. split; [done|]. cbn. lia. Qed.

Lemma clean_ok_or {A} (o : option A) (e : E) : diverging e = false -> clean (ok_or o e).
Proof. by destruct o. Qed.
Lemma clean_ensure b (e : E) : diverging e = false -> clean (ensure b e).
Proof. by destruct b. Qed.
Lemma clean_bind {A B} (r : result E A) (f : A -> result E B) : clean r -> (forall a, clean (f a)) -> clean (r ≫= f).
Proof. destruct r; cbn; auto. Qed.
Lemma clean_map_err {F A} (f : F -> E) (r : result F A) : (forall e, diverging (f e) = false) -> clean (map_err f r).
Proof. destruct r; cbn; auto. Qed.
Lemma clean_try_fold {A B} (f : B -> A -> result E B) b l : (forall b a, clean (f b a)) -> clean (try_fold f b l).
Proof. intros Hf. revert b. induction l as [|a l IH]; intros b; [done|]. cbn. by apply clean_bind. Qed.
Lemma clean_mapM {A B} (f : A -> result E B) l : (forall a, clean (f a)) -> clean (mapM (M := result E) f l).
Proof. intros Hf. induction l as [|a l IH]; [done|]. cbn. apply clean_bind; [done|]. intros b. by apply clean_bind. Qed.
End Rules.
Lemma clean_context {A} message (r : host_result A) : clean r -> clean (context message r).
Proof. by destruct r. Qed.

Ltac calm_done := first [reflexivity | done | (unfold diverging in *; cbn in *; by try apply orb_false_intro)].
Ltac clean_step :=
  lazymatch goal with
  | |- clean (mbind _ _) => apply clean_bind; [|intros ?]
  | |- clean (ensure _ _) => apply clean_ensure; calm_done
  | |- clean (ok_or _ _) => apply clean_ok_or; calm_done
  | |- clean (present_or _ _) => apply clean_ok_or; calm_done
  | |- clean (validated _ _) => apply clean_map_err; intros ?; calm_done
  | |- clean (map_err _ _) => apply clean_map_err; intros ?; calm_done
  | |- clean (context _ _) => apply clean_context
  | |- clean (try_fold _ _ _) => apply clean_try_fold; intros ? ?
  | |- clean (mapM _ _) => apply clean_mapM; intros ?
  | |- clean (Ok _) => exact I
  | |- clean (Err _) => calm_done
  | |- clean (fmap _ ?r) => destruct r eqn:?
  | |- clean (match ?x with _ => _ end) => destruct x
  | |- clean (let '_ := ?x in _) => destruct x
  end.
Ltac clean := repeat first [progress intros | assumption | clean_step | progress cbv zeta | solve [auto with clean]].
Create HintDb clean.

(** ** The tables *)

Section Tables.
Context `{Sha : Sha256} `{Json : NodeJson}.

Lemma clean_load_revision_results db r : clean (load_revision_results db r).
Proof. unfold load_revision_results, read_report. clean. Qed.
Lemma clean_load_rendered_config_row db r : clean (load_rendered_config_row db r).
Proof. unfold load_rendered_config_row. clean. Qed.
Lemma clean_load_active_state db : clean (load_active_state db).
Proof. unfold load_active_state. clean. Qed.
Lemma clean_load_pending_revision db : clean (load_pending_revision db).
Proof. unfold load_pending_revision. clean. Qed.
Lemma clean_journal_from_row row : clean (journal_from_row row).
Proof. unfold journal_from_row. clean. Qed.
Lemma clean_load_incomplete_journal db : clean (load_incomplete_journal db).
Proof. unfold load_incomplete_journal, journal_from_row. clean. Qed.
Lemma clean_load_journal db r : clean (load_journal db r).
Proof. unfold load_journal, journal_from_row. clean. Qed.
Lemma clean_journal_started_at db r : clean (journal_started_at db r).
Proof. unfold journal_started_at. destruct (journal db !! r); done. Qed.
Lemma clean_insert_revision_result db r result : clean (insert_revision_result db r result).
Proof. unfold insert_revision_result, validate_result_transition, load_revision_results, read_report. clean. Qed.
Lemma clean_begin_activation db r previous now : clean (begin_activation db r previous now).
Proof. unfold begin_activation. clean. Qed.
Lemma clean_update_journal_phase db r phase code : clean (update_journal_phase db r phase code).
Proof. unfold update_journal_phase. clean. Qed.
Lemma clean_finish_journal db r phase code now : clean (finish_journal db r phase code now).
Proof. unfold finish_journal. clean. Qed.
#[local] Hint Resolve clean_insert_revision_result clean_finish_journal : clean.
Lemma clean_commit_applied db c result now : clean (commit_applied db c result now).
Proof. unfold commit_applied. clean. Qed.
Lemma clean_commit_rolled_back db r result code now : clean (commit_rolled_back db r result code now).
Proof. unfold commit_rolled_back. clean. Qed.
Lemma clean_commit_rejected db r result code now : clean (commit_rejected db r result code now).
Proof. unfold commit_rejected. clean. Qed.
Lemma clean_commit_recovery_required db r code now : clean (commit_recovery_required db r code now).
Proof. unfold commit_recovery_required. clean. Qed.
Lemma clean_record_active_restart db r : clean (record_active_restart db r).
Proof. unfold record_active_restart. clean. Qed.
Lemma clean_commit_validated db r path digest binary result : clean (commit_validated db r path digest binary result).
Proof. unfold commit_validated. clean. Qed.
Lemma clean_commit_desired_state db cursor r a json digest : clean (commit_desired_state db cursor r a json digest).
Proof. unfold commit_desired_state. clean. Qed.
Lemma clean_mark_reported db r st now : clean (mark_reported db r st now).
Proof. unfold mark_reported. clean. Qed.
Lemma clean_commit_runtime db path sha version port replace : clean (commit_runtime db path sha version port replace).
Proof. unfold commit_runtime. clean. Qed.
Lemma clean_timestamp_from_unix n : clean (timestamp_from_unix n).
Proof. unfold timestamp_from_unix. clean. Qed.
Lemma clean_durable_revision db : clean (durable_revision db).
Proof. unfold durable_revision. apply clean_bind; [apply clean_load_active_state|]. clean. Qed.
Lemma clean_valid_history reports : clean (valid_history reports).
Proof. unfold valid_history. clean. Qed.
Lemma clean_admission_validate o : clean (admission_validate o).
Proof. unfold admission_validate, gate_delay. clean. Qed.
Lemma clean_minimum_agent_version_error `{Sv : Semver} v : clean (minimum_agent_version_error v).
Proof. unfold minimum_agent_version_error. clean. Qed.
Lemma clean_check_envelope `{UuidText} `{Rfc3339} `{Base64} `{Ed25519} g last prefix e :
  clean (check_envelope g last prefix e).
Proof. unfold check_envelope. clean. Qed.
End Tables.
#[export] Hint Resolve clean_load_revision_results clean_load_rendered_config_row clean_load_active_state
  clean_load_pending_revision clean_load_incomplete_journal clean_load_journal clean_journal_started_at
  clean_insert_revision_result clean_begin_activation clean_update_journal_phase clean_commit_applied
  clean_commit_rolled_back clean_commit_rejected clean_commit_recovery_required clean_record_active_restart
  clean_commit_validated clean_commit_desired_state clean_mark_reported clean_commit_runtime
  clean_timestamp_from_unix clean_durable_revision clean_valid_history clean_admission_validate
  clean_minimum_agent_version_error clean_check_envelope : clean.

(** ** The supervisor *)

Create HintDb calm.
Ltac calm_step :=
  lazymatch goal with
  | |- calm (mbind _ (attempt _)) => apply calm_attempt; [|intros [?|?] ?]
  | |- calm (mbind _ _) => apply calm_bind; [|intros ?]
  | |- calm (mret _) => apply calm_ret
  | |- calm (fail _) => apply calm_fail; calm_done
  | |- calm (lift _) => apply calm_lift; clean
  | |- calm (gets _) => apply calm_gets
  | |- calm supervisor => apply calm_supervisor
  | |- calm (modify _) => apply calm_modify; by intros
  | |- calm (update _) => apply calm_modify; by intros
  | |- calm clear_running_marker => apply calm_modify; by intros
  | |- calm (failing_with _ _) => apply calm_failing_with; [intros; calm_done|]
  | |- calm (in_context _ _) => apply calm_failing_with; [intros; calm_done|]
  | |- calm (match ?x with _ => _ end) => destruct x
  end.
Ltac calm := repeat first [assumption | solve [auto with calm] | calm_step].

Section Supervisor.
Context `{Sha : Sha256} `{Json : NodeJson} (env : nat -> Answer).

Lemma calm_ask {E} `{Failure E} : calm (ask env : Act E _).
Proof. intros w Hw. apply wp_ask. intros a w' Hq. split; [done|auto]. Qed.
#[local] Hint Resolve calm_ask : calm.
Lemma calm_outside : calm (outside env).
Proof. unfold outside. calm. Qed.
Lemma calm_instant_now {E} `{Failure E} : calm (instant_now env : Act E _).
Proof. unfold instant_now. calm. Qed.
Lemma calm_unix_timestamp : calm (unix_timestamp env).
Proof. unfold unix_timestamp. calm. Qed.
Lemma calm_query {A} (f : Db -> host_result A) : (forall db, clean (f db)) -> calm (query env f).
Proof. intros Hf. unfold query. calm. Qed.
Lemma calm_transact {A} (f : Db -> host_result (A * Db)) : (forall db, clean (f db)) -> calm (transact env f).
Proof. intros Hf. unfold transact. calm. Qed.
Lemma calm_write (f : Db -> host_result Db) : (forall db, clean (f db)) -> calm (write env f).
Proof. intros Hf. apply calm_transact. intros db. apply clean_bind; [done|]. done. Qed.
#[local] Hint Resolve calm_outside calm_instant_now calm_unix_timestamp : calm.
#[local] Hint Extern 1 (calm (query _ _)) => apply calm_query; clean : calm.
#[local] Hint Extern 1 (calm (transact _ _)) => apply calm_transact; clean : calm.
#[local] Hint Extern 1 (calm (write _ _)) => apply calm_write; clean : calm.

Lemma calm_verify_config_file path digest : calm (verify_config_file env path digest).
Proof. unfold verify_config_file. calm. Qed.
#[local] Hint Resolve calm_verify_config_file : calm.
Lemma calm_verify_rendered_config r report : calm (verify_rendered_config env r report).
Proof. unfold verify_rendered_config. calm. Qed.
#[local] Hint Resolve calm_verify_rendered_config : calm.
Lemma calm_load_candidate r : calm (load_candidate env r).
Proof. unfold load_candidate. calm. Qed.
Lemma calm_finalize_applied c : calm (finalize_applied env c).
Proof. unfold finalize_applied. calm. Qed.
Lemma calm_finalize_rolled_back j p code : calm (finalize_rolled_back env j p code).
Proof. unfold finalize_rolled_back. calm. Qed.
Lemma calm_finalize_rejected j code : calm (finalize_rejected env j code).
Proof. unfold finalize_rejected. calm. Qed.
Lemma calm_mark_recovery_required r code : calm (mark_recovery_required env r code).
Proof. unfold mark_recovery_required. calm. Qed.
#[local] Hint Resolve calm_load_candidate calm_finalize_applied calm_finalize_rolled_back calm_finalize_rejected
  calm_mark_recovery_required : calm.
Lemma calm_resolve_superseded_journal j : calm (resolve_superseded_journal env j).
Proof. unfold resolve_superseded_journal. calm. Qed.
Lemma calm_try_wait pid : calm (try_wait env pid).
Proof. unfold try_wait. calm. Qed.
#[local] Hint Resolve calm_try_wait : calm.
Lemma calm_owned_child_status : calm (owned_child_status env).
Proof. unfold owned_child_status. calm. Qed.
Lemma calm_mark_running {E} `{Failure E} c : calm (mark_running env c : Act E _).
Proof. unfold mark_running. calm. Qed.
Lemma calm_own_child {E} `{Failure E} pid : calm (own_child pid : Act E _).
Proof. unfold own_child. calm. Qed.
Lemma calm_spawn_candidate c : calm (spawn_candidate env c).
Proof. unfold spawn_candidate. calm. Qed.
#[local] Hint Resolve calm_resolve_superseded_journal calm_owned_child_status calm_mark_running calm_own_child
  calm_spawn_candidate : calm.
(** The gate fails with an error of its own. *)
Lemma calm_stop_gate {B} (f : option HostError -> Act HostError B) :
  (forall e, from_option (fun e => diverging e = false) True e -> calm (f e)) -> calm (stop_gate env ≫= f).
Proof.
  intros Hf w Hw. unfold stop_gate. apply wp_bind. wp_step. wp_step.
  destruct (sv_admission (w_supervisor w)) as [gate|]; [|wp_step; by apply Hf].
  wp_step. apply wp_ask. intros a w1 Hq1. wp_step. wp_step. wp_step. wp_step. apply wp_outside. intros r w2 Hq2 Hr.
  wp_step. assert (steady w w2) as Hs.
  { eapply steady_trans; [by apply steady_quiet|]. by eapply steady_trans; [|by apply steady_quiet]. }
  eapply wp_mono; [apply Hf; [by destruct Hr as [->| ->]|by eapply steady_good]|].
  intros res w3 [Hc Hs3]. eauto.
Qed.
Lemma calm_stop_runtime : calm (stop_runtime env).
Proof.
  unfold stop_runtime. apply calm_bind; [calm|]. intros _. apply calm_stop_gate. intros e He.
  unfold stop_child, kill_and_wait. destruct e as [e|]; cbn in He; calm.
Qed.
Lemma calm_stop_after_health_failure {A} f :
  diverging f = false -> calm (failure ← stop_after_health_failure env f; fail failure : Act ActivationFailure A).
Proof.
  intros Hf w Hw. wp_step. unfold stop_after_health_failure. wp_step. wp_step.
  eapply wp_mono; [by apply calm_stop_runtime|]. intros r w' [Hc Hs]. wp_step. wp_step. split; [|done].
  by destruct r.
Qed.
#[local] Hint Resolve calm_stop_runtime : calm.
#[local] Hint Extern 1 (calm (mbind _ (stop_after_health_failure _ _))) =>
  apply calm_stop_after_health_failure; calm_done : calm.

(** The loops: each round sleeps for the probe interval, so their fuel lasts. *)
Definition enough (fuel : nat) (deadline : Z) (w : World) : Prop :=
  deadline <= w_now w + Z.of_nat fuel * op_probe_interval (sv_options (w_supervisor w)).
Lemma enough_sleep fuel deadline w w' :
  enough fuel deadline w -> good_time w -> steady w w' ->
  w_now w + op_probe_interval (sv_options (w_supervisor w)) <= w_now w' -> w_now w < deadline ->
  exists fuel', fuel = S fuel' /\ enough fuel' deadline w'.
Proof.
  unfold enough, good_time. intros He Hg [[= _ _ Hi] _] Hn Hd. destruct fuel as [|fuel]; [lia|].
  exists fuel. split; [done|]. rewrite Hi. lia.
Qed.
Lemma enough_steady fuel deadline w w' : enough fuel deadline w -> steady w w' -> enough fuel deadline w'.
Proof. unfold enough. intros He [[= _ _ Hi] Hn]. rewrite Hi. lia. Qed.

Lemma calm_then {E A B} `{Failure E} (m : Act E A) (f : A -> Act E B) w0 w :
  steady w0 w -> good_time w0 -> calm m ->
  (forall a w', steady w w' -> steady w0 w' -> wp (f a) (fun r w' => clean r /\ steady w0 w') w') ->
  wp (m ≫= f) (fun r w' => clean r /\ steady w0 w') w.
Proof.
  intros Hs Hg Hm Hf. wp_step. eapply wp_mono; [apply Hm; by eapply steady_good|]. intros [a|e] w1 [Hc Hs1]; [|eauto].
  apply Hf; eauto.
Qed.
Lemma wait_until_listening_ends fuel port deadline w0 w :
  steady w0 w -> good_time w0 -> enough fuel deadline w ->
  wp (wait_until_listening env (S fuel) port deadline) (fun r w' => clean r /\ steady w0 w') w.
Proof.
  revert w. induction fuel as [fuel IH] using lt_wf_ind; intros w Hs Hg He. cbn [wait_until_listening].
  apply calm_then; [done..|calm|]. intros exited w1 Hs1 Ht1. destruct exited; [by wp_step|].
  apply calm_then; [done..|unfold listener_is_ready; calm|]. intros ready w2 Hs2 Ht2. destruct ready; [by wp_step|].
  wp_step. apply wp_instant_now. intros w3 Hq3. assert (steady w0 w3) as Ht3 by eauto.
  destruct (Z.leb_spec deadline (w_now w3)).
  - eapply wp_mono; [apply calm_stop_after_health_failure; [done|by eapply steady_good]|].
    intros r w4 [Hc Hs4]. eauto.
  - wp_step. wp_step. wp_step. assert (enough fuel deadline w3) as He3 by (eapply enough_steady; eauto).
    assert (good_time w3) as Hg3 by (by eapply steady_good). apply wp_sleep; [unfold good_time in *; lia|].
    intros w4 Hq4 Hn4. destruct (enough_sleep _ _ _ w4 He3) as (fuel' & -> & He4); eauto.
Qed.
Lemma stabilize_ends fuel deadline w0 w :
  steady w0 w -> good_time w0 -> enough fuel deadline w ->
  wp (stabilize env (S fuel) deadline) (fun r w' => clean r /\ steady w0 w') w.
Proof.
  revert w. induction fuel as [fuel IH] using lt_wf_ind; intros w Hs Hg He. cbn [stabilize].
  wp_step. apply wp_instant_now. intros w1 Hq1. assert (steady w0 w1) as Ht1 by eauto.
  destruct (Z.ltb_spec (w_now w1) deadline); [|by wp_step].
  apply calm_then; [done..|calm|]. intros exited w2 Hs2 Ht2. destruct exited; [by wp_step|].
  wp_step. wp_step. wp_step. assert (enough fuel deadline w2) as He2 by (eapply enough_steady; eauto).
  assert (good_time w2) as Hg2 by (by eapply steady_good). apply wp_sleep; [unfold good_time in *; lia|].
  intros w3 Hq3 Hn3. destruct fuel as [|fuel].
  { unfold enough in He. destruct Hq1. lia. }
  apply IH; eauto. unfold enough, good_time in *. destruct Ht2 as [[= _ _ Hi2] _], Hq3 as [_ Hs3 _ _ _].
  rewrite Hs3. lia.
Qed.

Lemma calm_prove_owned_child_healthy port : calm (prove_owned_child_healthy env port).
Proof.
  intros w Hg. unfold prove_owned_child_healthy. wp_step. wp_step. wp_step. apply wp_instant_now. intros w1 Hq1.
  assert (forall duration w', steady w w' ->
    enough (S (Z.to_nat (duration / op_probe_interval (sv_options (w_supervisor w))))) (w_now w' + duration) w') as He.
  { intros duration w' [[= _ _ Hi] _]. unfold enough. rewrite Hi. pose proof (rounds_enough duration _ Hg). lia. }
  wp_step. eapply wp_mono; [apply (wait_until_listening_ends _ _ _ w); eauto|].
  intros [[]|f] w2 [Hc Hs2]; [|done]. wp_step. apply wp_instant_now. intros w3 Hq3.
  wp_step. eapply wp_mono; [apply (stabilize_ends _ _ w); eauto|].
  intros [[]|f] w4 [Hc4 Hs4]; [|done]. apply calm_then; [done..|unfold listener_is_ready; calm|].
  intros [] w5 Hs5 Ht5; [by wp_step|].
  eapply wp_mono; [apply calm_stop_after_health_failure; [done|by eapply steady_good]|]. intros r w6 [Hc6 Hs6]. eauto.
Qed.
Lemma calm_start_admission c : calm (start_admission env c).
Proof. unfold start_admission, gate_start. calm. Qed.
#[local] Hint Resolve calm_prove_owned_child_healthy calm_start_admission : calm.
Lemma calm_start_proven_candidate c : calm (start_proven_candidate env c).
Proof. unfold start_proven_candidate. calm. Qed.
Lemma calm_observe_runtime_state : calm (observe_runtime_state env).
Proof. unfold observe_runtime_state. calm. Qed.
#[local] Hint Resolve calm_start_proven_candidate calm_observe_runtime_state : calm.
Lemma calm_router_mapping_target : calm (router_mapping_target env).
Proof. unfold router_mapping_target. calm. Qed.
Lemma calm_restart_active a : calm (restart_active env a).
Proof. unfold restart_active. calm. Qed.
#[local] Hint Resolve calm_restart_active : calm.
Lemma calm_ensure_active_running : calm (ensure_active_running env).
Proof. unfold ensure_active_running. calm. Qed.
Lemma calm_restore_after_commit_failure p : calm (restore_after_commit_failure env p).
Proof. unfold restore_after_commit_failure. calm. Qed.
#[local] Hint Resolve calm_ensure_active_running calm_restore_after_commit_failure : calm.
Lemma calm_resolve_commit_failure c p e : diverging e = false -> calm (resolve_commit_failure env c p e).
Proof. intros He. unfold resolve_commit_failure. calm. Qed.
Lemma calm_handle_activation_failure c p n f : diverging f = false -> calm (handle_activation_failure env c p n f).
Proof. intros Hf. unfold handle_activation_failure. calm. Qed.
#[local] Hint Resolve calm_resolve_commit_failure calm_handle_activation_failure : calm.
Lemma calm_stabilize_and_commit_candidate c p n : calm (stabilize_and_commit_candidate env c p n).
Proof. unfold stabilize_and_commit_candidate. calm. Qed.
#[local] Hint Resolve calm_stabilize_and_commit_candidate : calm.
Lemma calm_reconcile : calm (reconcile env).
Proof. unfold reconcile, activate. calm. Qed.
Lemma calm_recover : calm (recover env).
Proof. unfold recover, recover_interrupted. calm. Qed.
Lemma calm_poll : calm (poll env).
Proof. unfold poll, admission_probe_is_due. calm. Qed.
Lemma calm_configure_admission_limits n b : calm (configure_admission_limits env n b).
Proof.
  intros w Hg. unfold configure_admission_limits. wp_step. wp_step. apply wp_check.
  2: { intros e He. split; [|auto].
       assert (clean (Err e : host_result AdmissionOptions)); [|done]. rewrite <- He. apply clean_admission_validate. }
  intros o _. case_bool_decide; [by wp_step|]. wp_step. wp_step. destruct (_ || _); [|by wp_step].
  eapply wp_mono; [by apply calm_stop_runtime|]. by intros r w'.
Qed.
End Supervisor.

(** ** Synchronisation *)

Section Sync.
Context `{U : UuidText} `{R : Rfc3339} `{B : Base64} `{Sha : Sha256} {ShaLaws : Sha256Laws Sha} `{Ed : Ed25519}.
Context `{Json : NodeJson} {JsonLaws : NodeJsonLaws Json} `{Sv : Semver} (registration : SyncRegistration).

#[local] Hint Resolve calm_ask calm_outside calm_unix_timestamp calm_verify_rendered_config : calm.
#[local] Hint Extern 1 (calm (query _ _)) => apply calm_query; clean : calm.
#[local] Hint Extern 1 (calm (write _ _)) => apply calm_write; clean : calm.

Lemma calm_validate_desired_state env e : calm (validate_desired_state env e).
Proof.
  unfold validate_desired_state, validation_is_complete, append_rejected_result, append_validated_result, now_utc.
  calm.
Qed.
Lemma calm_configure_xray env path sha version port replace : calm (configure_xray env path sha version port replace).
Proof. unfold configure_xray. calm. Qed.
Lemma calm_report_unreported_results env scope : calm (report_unreported_results env scope).
Proof.
  assert (forall reports, calm (report_each env reports)) as H.
  { induction reports as [|[r [st row]] reports IH]; cbn [report_each]; calm. }
  unfold report_unreported_results. calm.
Qed.
#[local] Hint Resolve calm_validate_desired_state calm_report_unreported_results : calm.
Lemma calm_validate_and_report env e : calm (validate_and_report env e).
Proof. unfold validate_and_report, ensure_received_result_reported, ensure_revision_results_reported. calm. Qed.
#[local] Hint Resolve calm_validate_and_report : calm.
Lemma calm_process_desired env cursor body : calm (process_desired env registration cursor body).
Proof. unfold process_desired, persist_verified_desired_state. calm. Qed.
Lemma calm_resume_local_state env : calm (resume_local_state env registration).
Proof. unfold resume_local_state, verify_persisted_desired_state. calm. Qed.

#[local] Hint Resolve calm_recover calm_reconcile calm_poll calm_router_mapping_target calm_stop_runtime
  calm_configure_admission_limits calm_configure_xray calm_process_desired calm_resume_local_state : calm.
Lemma calm_perform env op : calm (perform registration env op).
Proof. destruct op; cbn [perform]; unfold shutdown; calm. Qed.

(** C26: Every operation of a running host terminates, in every environment: the
    loops that wait for a listener and for stability are the only ones
    without a structural bound, and no operation fails because the fuel of
    one of them ran out. The times they use never change. *)
Theorem operations_terminate accepted options db w env op :
  live registration accepted options db w ->
  (forall e, (perform registration env op w).1 = Err e -> diverging e = false) /\
  timing (perform registration env op w).2 = timing w.
Proof.
  intros L%live_sound. assert (good_time w) as Hg by apply (s_interval _ _ _ L).
  pose proof (calm_perform env op w Hg) as H. unfold wp in H. destruct (perform registration env op w) as [r w'].
  destruct H as [Hc [Ht _]]. split; [|done]. intros e He. cbn in He. by rewrite He in Hc.
Qed.
End Sync.

Definition unresponsive : nat -> Answer := fun _ => failing.
Lemma operations_terminate_witness :
  exists e, (perform sample_registration unresponsive OpReconcile sample_world).1 = Err e /\ diverging e = false.
Proof.
  destruct (perform sample_registration unresponsive OpReconcile sample_world).1 as [[]|e] eqn:E.
  - vm_compute in E. discriminate E.
  - exists e. split; [reflexivity|].
    assert (live sample_registration sample_accepted default_options fresh_db sample_world) as L by (by apply sample_run_live).
    exact (proj1 (operations_terminate _ _ _ _ _ unresponsive OpReconcile L) e E).
Defined.
