(* ===== verification/NodeHostDeploy.v ===== *)
(** * The host deploys revisions one at a time

    [Deployment] is what a provider needs to know of a node: the revision that
    is active, the one that is being tried and how often, and what became of
    the others. [deploy_step] says how it may change. The tables refine it:
    [deployment] abstracts them, and every transaction of the host is a step
    of the deployment or leaves it alone. *)
From S2P Require Import Prelude Text Clock ProtoTypes ProtoInstances ProtoAuth ProtoNode ProtoSigned NodeHostDb.
From S2P Require Import NodeHostRuntime NodeHostSync NodeHostFacts NodeHostLogic NodeHostRuns NodeHostSamples.
Open Scope Z_scope.

(** ** The specification *)

Inductive Decision : Type := Applied | RolledBackTo (previous : option Z) | Rejected | NeedsRecovery.
Record Deployment : Type := mkDeployment {
  dp_active : option Z;
  dp_trial : option (Z * Z);
  dp_decided : gmap Z Decision;
}.
Definition nothing_deployed : Deployment := mkDeployment None None ∅.

Inductive deploy_step : Deployment -> Deployment -> Prop :=
| deploy_begin s r :
    dp_trial s = None -> dp_decided s !! r = None -> (forall a, dp_active s = Some a -> a < r) ->
    deploy_step s (mkDeployment (dp_active s) (Some (r, 1)) (dp_decided s))
| deploy_retry s r n :
    dp_trial s = Some (r, n) ->
    deploy_step s (mkDeployment (dp_active s) (Some (r, n + 1)) (dp_decided s))
| deploy_commit s r n :
    dp_trial s = Some (r, n) ->
    deploy_step s (mkDeployment (Some r) None (<[r := Applied]> (dp_decided s)))
| deploy_roll_back s r n p :
    dp_trial s = Some (r, n) -> dp_active s = Some p ->
    deploy_step s (mkDeployment (dp_active s) None (<[r := RolledBackTo (Some p)]> (dp_decided s)))
| deploy_reject s r n :
    dp_trial s = Some (r, n) -> dp_active s = None ->
    deploy_step s (mkDeployment (dp_active s) None (<[r := Rejected]> (dp_decided s)))
| deploy_give_up s r n :
    dp_trial s = Some (r, n) ->
    deploy_step s (mkDeployment (dp_active s) None (<[r := NeedsRecovery]> (dp_decided s))).

(** What the specification promises: a decision is final, the active revision
    only grows, and the one that is tried is newer and undecided. *)
Definition deployment_ok (s : Deployment) : Prop :=
  forall r n, dp_trial s = Some (r, n) ->
    dp_decided s !! r = None /\ forall a, dp_active s = Some a -> a < r.
Definition advances (s s' : Deployment) : Prop :=
  dp_decided s ⊆ dp_decided s' /\
  forall a, dp_active s = Some a -> exists b, dp_active s' = Some b /\ a <= b.
Lemma deploy_step_ok s s' : deploy_step s s' -> deployment_ok s -> deployment_ok s' /\ advances s s'.
Proof.
  unfold deployment_ok, advances. intros Hstep Hok. destruct Hstep as [s r Ht Hd Ha|s r n Ht|s r n Ht|s r n p Ht Ha|s r n Ht Ha|s r n Ht];
    cbn; try (destruct (Hok _ _ Ht) as [Hd Hlt]);
    (split; [try done; by intros r' n' [= <- <-]|]); split; try done; try (by apply insert_subseteq); eauto using Z.le_refl.
  intros a Hact. exists r. split; [done|]. apply Hlt in Hact. lia.
Qed.
Lemma deploy_steps_ok s s' : rtc deploy_step s s' -> deployment_ok s -> deployment_ok s' /\ advances s s'.
Proof.
  induction 1 as [s|s1 s2 s3 Hstep _ IH]; intros Hok.
  - split; [done|]. split; [done|]. eauto using Z.le_refl.
  - destruct (deploy_step_ok _ _ Hstep Hok) as [Hok2 [Hd Ha]]. destruct (IH Hok2) as [Hok3 [Hd' Ha']].
    split; [done|]. split; [by etrans|]. intros a (b & Hb & Hab)%Ha. apply Ha' in Hb as (c & Hc & Hbc). exists c. split; [done|lia].
Qed.

(** ** The refinement *)

Definition decision_of (j : JournalRow) : option Decision :=
  match jn_phase j with
  | JApplied => Some Applied
  | JRolledBack => Some (RolledBackTo (jn_previous_revision j))
  | JRejected => Some Rejected
  | JRecoveryRequired => Some NeedsRecovery
  | _ => None
  end.
Definition trial_of (j : gmap Z JournalRow) : option (Z * Z) :=
  (fun row => (row.1, jn_attempt_count row.2)) <$>
    head (map_to_list (filter (fun row => incomplete row.2) j)).
Definition deployment (db : Db) : Deployment :=
  mkDeployment (applied db) (trial_of (journal db)) (omap decision_of (journal db)).

Lemma decision_incomplete j : decision_of j = None <-> incomplete j.
Proof. unfold decision_of, incomplete. by destruct (jn_phase j). Qed.
Lemma trial_none m : (forall r j, m !! r = Some j -> ~ incomplete j) -> trial_of m = None.
Proof.
  intros H. unfold trial_of. replace (filter _ m) with (∅ : gmap Z JournalRow); [done|].
  apply map_eq. intros r. rewrite lookup_empty. symmetry. apply map_lookup_filter_None. right. intros j Hj. by apply (H r).
Qed.
Lemma trial_some m r j :
  m !! r = Some j -> incomplete j -> (forall r' j', m !! r' = Some j' -> incomplete j' -> r' = r) ->
  trial_of m = Some (r, jn_attempt_count j).
Proof.
  intros Hj Hi Hone. unfold trial_of. replace (filter _ m) with ({[r := j]} : gmap Z JournalRow);
    [by rewrite map_to_list_singleton|].
  apply map_eq. intros r'. destruct (decide (r' = r)) as [->|Hne].
  - rewrite lookup_singleton_eq. symmetry. by apply map_lookup_filter_Some.
  - rewrite lookup_singleton_ne by done. symmetry. apply map_lookup_filter_None. right. intros j' Hj' Hi'.
    by apply Hne, (Hone _ j').
Qed.

Section Refinement.
Context `{Sha : Sha256} `{Json : NodeJson} {JsonLaws : NodeJsonLaws Json} {Tr : Trusted}.

(** A transaction that leaves the journal and the active revision alone *)
Lemma deployment_same db db' : journal db' = journal db -> applied db' = applied db -> deployment db' = deployment db.
Proof. unfold deployment. by intros -> ->. Qed.
(** An unfinished row stays unfinished. *)
Lemma deployment_row db r j j' :
  consistent db -> journal db !! r = Some j -> incomplete j -> incomplete j' ->
  deployment (set_journal (<[r := j']> (journal db)) db) =
  mkDeployment (applied db) (Some (r, jn_attempt_count j')) (dp_decided (deployment db)).
Proof.
  intros C Hj Hi Hi'. unfold deployment. cbn. f_equal.
  - apply trial_some; [by rewrite lookup_insert_eq|done|]. intros r2 j2 [[<- <-]|[_ H2]]%lookup_insert_Some I2; [done|].
    by eapply (c_one _ C).
  - rewrite omap_insert_None by (by apply decision_incomplete). apply delete_id.
    rewrite lookup_omap, Hj. by apply decision_incomplete.
Qed.
(** An unfinished row is finished. *)
Lemma deployment_finished db r j j' d a :
  consistent db -> journal db !! r = Some j -> incomplete j -> decision_of j' = Some d ->
  deployment (set_journal (<[r := j']> (journal db)) (set_active a db)) =
  mkDeployment (ac_applied_revision a) None (<[r := d]> (dp_decided (deployment db))).
Proof.
  intros C Hj Hi Hd. unfold deployment. cbn. f_equal; [|by apply omap_insert_Some].
  apply trial_none. intros r2 j2 [[<- <-]|[Hne H2]]%lookup_insert_Some I2.
  - apply decision_incomplete in I2. congruence.
  - destruct Hne. by eapply (c_one _ C).
Qed.
Lemma deployment_trial db r j :
  consistent db -> journal db !! r = Some j -> incomplete j ->
  dp_trial (deployment db) = Some (r, jn_attempt_count j).
Proof. intros C Hj Hi. apply trial_some; [done..|]. intros r' j' Hj' Hi'. by eapply (c_one _ C). Qed.

Lemma begin_refines db r now attempts db' :
  consistent db -> begin_activation db r (ac_applied_revision (active db)) now = Ok (attempts, db') ->
  (forall r' j, journal db !! r' = Some j -> incomplete j -> r' = r) ->
  deploy_step (deployment db) (deployment db').
Proof.
  intros C E Hone. unfold begin_activation in E. destruct (journal db !! r) as [j|] eqn:Hj.
  - inv_ok. assert (incomplete j) as Hi by (unfold incomplete; bool_props; done).
    erewrite deployment_row by done. cbn.
    match goal with H : present_or _ (checked_next _) = Ok _ |- _ =>
      unfold present_or, checked_next, checked_add in H; destruct (_ <=? _); [injection H as <-|done] end.
    by apply (deploy_retry (deployment db)), deployment_trial.
  - assert (forall r' j, journal db !! r' = Some j -> ~ incomplete j) as Hnone.
    { intros r' j Hj' Hi. rewrite (Hone _ _ Hj' Hi) in Hj'. congruence. }
    inv_ok. bool_props. unfold deployment at 2. cbn. erewrite trial_some; [|by rewrite lookup_insert_eq|done|].
    + rewrite omap_insert_None by done. rewrite delete_id by (by rewrite lookup_omap, Hj).
      apply (deploy_begin (deployment db)); cbn; [by apply trial_none|by rewrite lookup_omap, Hj|].
      unfold applied. intros a Ha. rewrite Ha in *. bool_props. lia.
    + intros r' j [[<- _]|[_ Hj']]%lookup_insert_Some Hi; [done|]. by destruct (Hnone _ _ Hj').
Qed.

(** The row of [r] is finished, in tables whose journal is that of [db]. *)
Lemma finish_refines db db1 r phase code now d a db' :
  consistent db -> finish_journal db1 r phase code now = Ok db' ->
  journal db1 = journal db -> active db1 = a ->
  (forall j, journal db !! r = Some j -> incomplete j ->
     decision_of (mkJournal (jn_previous_revision j) phase (jn_attempt_count j) (jn_started_at j) (Some now)
       (api_as_str <$> code)) = Some (d (jn_previous_revision j))) ->
  exists j, journal db !! r = Some j /\ incomplete j /\ dp_trial (deployment db) = Some (r, jn_attempt_count j) /\
    deployment db' = mkDeployment (ac_applied_revision a) None
      (<[r := d (jn_previous_revision j)]> (dp_decided (deployment db))).
Proof.
  intros C (_ & j & Hj & Hi & ->)%finish_journal_Ok Ejr <- Hd. rewrite Ejr in Hj. exists j.
  split_and!; [done..|by apply deployment_trial|]. rewrite <- (deployment_finished db r j _ _ _ C Hj Hi (Hd j Hj Hi)).
  apply deployment_same; [|done]. cbn. by rewrite Ejr.
Qed.
Lemma insert_same db r result db' :
  insert_revision_result db r result = Ok db' -> journal db' = journal db /\ active db' = active db.
Proof. unfold insert_revision_result. intros E. by inv_ok. Qed.

(** A rollback names the revision it goes back to. *)
Lemma rolled_back_names db r result db' :
  rr_state result = RsRolledBack -> insert_revision_result db r result = Ok db' ->
  is_Some (rr_rollback_revision result).
Proof.
  intros Hs E. unfold insert_revision_result, validated, result_validate in E. rewrite Hs in E. inv_ok. by eexists.
Qed.

Lemma step_refines db db' :
  consistent db -> db_step db db' -> deployment db' = deployment db \/ deploy_step (deployment db) (deployment db').
Proof.
  intros C Hstep. destruct Hstep as [db r now n db' E Hone _|db r phase code db' E|db c result now db' rd _ _ _ _ _ _ E
    |db r result code now db' Hs Hrb _ E|db r result code now db' _ Ha _ E|db r code now db' E
    |db r db' E|db r config dg bin rt result db' _ _ _ _ _ _ _ _ _ E|db r result db' _ _ _ E|db r a e json rep db' _ _ _ _ _ E
    |db r st now db' E|db path sha v port rep db' E].
  - right. by eapply begin_refines.
  - left. apply update_journal_phase_Ok in E as (Hp & j & Hj & Hi & ->). erewrite deployment_row; [|done..|done].
    cbn. unfold deployment. f_equal. symmetry. by apply deployment_trial.
  - right. apply bind_Ok in E as (db1 & [Ej Ea]%insert_same & E). apply bind_Ok in E as (_ & _ & E).
    eapply (finish_refines db _ _ _ _ _ (fun _ => Applied)) in E as (j & Hj & Hi & Ht & ->); try done.
    by apply (deploy_commit (deployment db)) with (n := jn_attempt_count j).
  - right. apply bind_Ok in E as (db1 & E1 & E). destruct (rolled_back_names _ _ _ _ Hs E1) as [p Hp].
    apply insert_same in E1 as [Ej Ea].
    eapply (finish_refines db _ _ _ _ _ RolledBackTo) in E as (j & Hj & Hi & Ht & ->); try done.
    rewrite (c_previous _ C _ _ Hj Hi), <- Hrb, Hp.
    replace (Some p) with (dp_active (deployment db)) at 1 by (cbn; unfold applied; congruence).
    apply (deploy_roll_back (deployment db) r (jn_attempt_count j)); [done|]. cbn. unfold applied. congruence.
  - right. apply bind_Ok in E as (db1 & [Ej Ea]%insert_same & E).
    eapply (finish_refines db _ _ _ _ _ (fun _ => Rejected)) in E as (j & Hj & Hi & Ht & ->); try done.
    by apply (deploy_reject (deployment db) r (jn_attempt_count j)).
  - right. eapply (finish_refines db _ _ _ _ _ (fun _ => NeedsRecovery)) in E as (j & Hj & Hi & Ht & ->); try done.
    by apply (deploy_give_up (deployment db) r (jn_attempt_count j)).
  - left. unfold record_active_restart in E. case_bool_decide; [|done]. inv_ok. by apply deployment_same.
  - left. apply bind_Ok in E as (_ & _ & [Ej Ea]%insert_same). apply deployment_same; [done|]. unfold applied. by rewrite Ea.
  - left. apply insert_same in E as [Ej Ea]. apply deployment_same; [done|]. unfold applied. by rewrite Ea.
  - left. unfold commit_desired_state in E. inv_ok. by apply deployment_same.
  - left. unfold mark_reported in E. repeat case_match; try done. inv_ok. by apply deployment_same.
  - left. unfold commit_runtime in E. inv_ok. repeat case_match; inv_ok; by apply deployment_same.
Qed.
Lemma history_refines start period log :
  consistent start -> history start period log ->
  consistent (last_db start log) /\ rtc deploy_step (deployment start) (deployment (last_db start log)).
Proof.
  intros C H. induction H as [|db log Hh [IH1 IH2] Hstep _|e log Hh [IH1 IH2] He].
  - by split.
  - split; [by eapply db_step_preserves|]. cbn. destruct (step_refines _ _ IH1 Hstep) as [->|Hs]; [done|].
    by eapply rtc_r.
  - destruct e; try done. by destruct (He db).
Qed.
End Refinement.

Section Deployments.
Context `{U : UuidText} `{R : Rfc3339} `{B : Base64} `{Sha : Sha256} {ShaLaws : Sha256Laws Sha} `{Ed : Ed25519}.
Context `{Json : NodeJson} {JsonLaws : NodeJsonLaws Json} `{Sv : Semver} (registration : SyncRegistration).
Context (accepted : string -> list byte -> Prop).

Lemma durable_refines db : durable registration accepted db -> rtc deploy_step nothing_deployed (deployment db).
Proof.
  induction 1 as [|db options sv env ops db' Hd IH Hs Ht Hin]; [done|]. etrans; [exact IH|].
  pose proof (durable_invariant _ _ _ Hd) as C. pose proof (run_sound registration _ env _ _ ops _ Ht (boot_sound _ _ _ _ _ C Hs)) as S.
  apply list_elem_of_split in Hin as (newer & older & Hlog). pose proof (s_history _ _ _ S) as H. rewrite Hlog in H.
  apply history_tail in H. by apply (history_refines _ _ _ C) in H as [_ H].
Qed.

(** C5: The tables refine the deployment: whatever happens to a host, over any
    number of crashes and restarts, what they say is the result of steps of
    [deploy_step] from an empty node, so one revision is tried at a time, an
    attempt is committed, rolled back, rejected or given up once, and a
    rollback goes to the revision that was active. *)
Theorem tables_refine_deployment db :
  durable registration accepted db -> rtc deploy_step nothing_deployed (deployment db).
Proof. apply durable_refines. Qed.

(** Nothing goes back: as long as a host runs, a revision that was decided
    keeps its decision and the active revision is only ever replaced by a
    newer one. *)
Theorem decisions_are_final options db w :
  live registration accepted options db w -> advances (deployment db) (deployment (w_db w)).
Proof.
  intros L. pose proof (live_sound _ _ _ _ _ L) as S. destruct L as [db sv env ops Hd Hs _].
  pose proof (durable_invariant _ _ _ Hd) as C. rewrite (s_db _ _ _ S).
  pose proof (s_history _ _ _ S) as H. apply (history_refines _ _ _ C) in H as [_ H].
  apply (deploy_steps_ok _ _ H), (deploy_steps_ok nothing_deployed); [by apply durable_refines|done].
Qed.
End Deployments.

(** Revision 7 is active, the host crashes, and revision 8 arrives. *)
Definition after_crash : World :=
  run sample_registration all_good [receive 7 "eight"; OpReconcile] (boot (w_db sample_world) sample_supervisor).
Lemma sample_world_live : live sample_registration sample_accepted default_options fresh_db sample_world.
Proof. by apply sample_run_live. Qed.
Lemma tables_refine_deployment_witness :
  rtc deploy_step nothing_deployed (deployment (w_db sample_world)) /\
  deployment (w_db sample_world) = mkDeployment (Some 7) None {[7 := Applied]}.
Proof.
  split; [|vm_compute; reflexivity].
  exact (tables_refine_deployment _ _ _ (live_durable _ _ _ _ _ sample_world_live)).
Defined.
Lemma decisions_are_final_witness :
  advances (deployment (w_db sample_world)) (deployment (w_db after_crash)) /\
  applied (w_db after_crash) = Some 8.
Proof.
  split; [|vm_compute; reflexivity].
  assert (live sample_registration sample_accepted default_options (w_db sample_world) after_crash) as L
    by (constructor; [exact (live_durable _ _ _ _ _ sample_world_live)|apply sample_started|by apply sample_truthful]).
  exact (decisions_are_final _ _ _ _ _ L).
Defined.
