(* ===== verification/NodeHostRecovery.v ===== *)
(** * Recovery

    After a crash, a host whose calls of the outside succeed brings the active
    revision back: [fault_free] says what an answer of such an outside is,
    and each function of the supervisor that [recover] calls succeeds. *)
From S2P Require Import Prelude Text Clock ProtoTypes ProtoInstances ProtoAuth ProtoNode ProtoSigned NodeHostDb.
From S2P Require Import NodeHostRuntime NodeHostSync NodeHostFacts NodeHostLogic NodeHostSafety NodeHostSupervisor.
From S2P Require Import NodeHostEntry NodeHostSyncFacts NodeHostRuns NodeHostSamples NodeHostTermination.
Open Scope Z_scope.

Definition absolute (path : string) : Prop := starts_with (as_bytes "/") (as_bytes path) = true.
Definition last_second : Z := 253402300799.

(** An answer in an environment without faults: calls succeed, transactions are
    committed, the child lives, the clock is after the start of an unfinished
    activation, and the configuration files are as they were written *)
Record fault_free `{Sha256} (db : Db) (a : Answer) : Prop := mkFaultFree {
  ff_succeeds : an_succeeds a = true;
  ff_database : an_database a = true;
  ff_commit : an_commit a = CommitDone;
  ff_alive : an_exited a = false;
  ff_wall : 0 <= an_wall a /\ an_wall a / NANOS <= last_second;
  ff_started : forall r j, journal db !! r = Some j -> incomplete j ->
    0 <= jn_started_at j <= an_wall a / NANOS;
  ff_path : absolute (an_path a);
  ff_file : forall r rd, rendered db !! r = Some rd -> exists f content,
    an_file a (config_relative_path r) = Some f /\ fa_symlink f = false /\ fa_regular f = true /\
    0 < fa_len f <= MAX_STORED_CONFIG_BYTES /\ fa_owner_only f = true /\ fa_contents f = Some content /\
    protocol_digest content = rd_config_digest rd;
}.
(** What the tables need for a restart: the path of the binary is absolute, as
    [configure_xray] stores it, and the counters have room. *)
Definition restartable (db : Db) : Prop :=
  (forall rt, runtime db = Some rt -> absolute (rt_binary_path rt)) /\
  ac_generation (active db) + 2 <= i64_max /\ ac_restart_count (active db) + 2 <= i64_max.

(** A candidate that can be started *)
Definition usable (c : ValidatedXrayCandidate) : Prop :=
  digest_from_str (vc_config_digest c) = Ok (vc_config_digest c) /\
  absolute (vc_binary_path c) /\ absolute (vc_config_path c) /\
  forall p, vc_public_port c = Some p -> p <> 0 /\ vc_listen_port c <> 0 /\ p <> vc_listen_port c.

Lemma runtime_pairs_lower hex : forallb is_lower_hex hex = true -> is_Some (runtime_pairs hex).
Proof.
  enough (forall n hex, (length hex <= n)%nat -> forallb is_lower_hex hex = true -> is_Some (runtime_pairs hex)) as H
    by (by apply (H (length hex))).
  assert (forall b, is_lower_hex b = true -> is_Some (runtime_decode_hex b)) as Hd.
  { intros b H. destruct b; first [discriminate H | by eexists]. }
  induction n as [|n IH]; intros [|x [|y l]] Hn Hl; try (by eexists); cbn in Hn; try lia.
  cbn in Hl. apply andb_prop in Hl as [Hx Hl]. apply andb_prop in Hl as [Hy Hl]. cbn.
  apply Hd in Hx as [dx ->], Hy as [dy ->]. destruct (IH l) as [k Hk]; [lia|done|]. cbn. rewrite Hk. by eexists.
Qed.

Section Recovery.
Context `{U : UuidText} `{R : Rfc3339} `{B : Base64} `{Sha : Sha256} {ShaLaws : Sha256Laws Sha} `{Ed : Ed25519}.
Context `{Json : NodeJson} {JsonLaws : NodeJsonLaws Json} (registration : SyncRegistration).
Context (accepted : string -> list byte -> Prop).
Context (start : Db) (env : nat -> Answer) (Hgood : forall n, fault_free start (env n)) (period : Z).
#[local] Instance signed : Trusted := host_trust registration accepted.
Abbreviation sound := (sound start period).
Abbreviation trying := (trying start period).

(** ** Calls of the outside *)

Lemma ff_ask {E} (Q : result E Answer -> World -> Prop) w :
  (forall a w', fault_free start a -> quiet w w' -> Q (Ok a) w') -> wp (ask env) Q w.
Proof. intros H. apply H; [done|]. split; try done. cbn. lia. Qed.
Lemma ff_outside Q w : (forall w', quiet w w' -> Q (Ok tt) w') -> wp (outside env) Q w.
Proof. intros H. unfold outside. wp_step. apply ff_ask. intros a w' Ha Hq. rewrite (ff_succeeds _ _ Ha). by wp_step; apply H. Qed.
Lemma ff_unix_timestamp Q w :
  (forall now w', 0 <= now <= last_second -> (forall r j, journal start !! r = Some j -> incomplete j ->
     0 <= jn_started_at j <= now) -> quiet w w' -> Q (Ok now) w') -> wp (unix_timestamp env) Q w.
Proof.
  intros H. unfold unix_timestamp. wp_step. apply ff_ask. intros a w' Ha Hq. destruct (ff_wall _ _ Ha) as [Hw Hs].
  assert (0 <= an_wall a / NANOS) by (apply Z.div_pos; [done|reflexivity]).
  apply wp_check; [intros _ _|]. 2: { intros e He. unfold ensure in He. case_match eqn:E; [done|]. lia. }
  apply wp_check; [intros _ _|].
  2: { intros e He. unfold ensure in He. case_match eqn:E; [done|]. unfold last_second, i64_max in *. lia. }
  wp_step. apply H; [done| |done]. by apply (ff_started _ _ Ha).
Qed.
Lemma ff_query {A} (f : Db -> host_result A) Q w a :
  f (w_db w) = Ok a -> (forall w', quiet w w' -> Q (Ok a) w') -> wp (query env f) Q w.
Proof.
  intros Hf H. unfold query. wp_step. apply ff_ask. intros x w' Hx Hq. rewrite (ff_database _ _ Hx).
  wp_step. wp_step. wp_step. rewrite (q_db _ _ Hq), Hf. by apply H.
Qed.
Lemma ff_write (f : Db -> host_result Db) Q w db' :
  f (w_db w) = Ok db' -> (forall w', quiet w w' -> Q (Ok tt) (on_db db' w')) -> wp (write env f) Q w.
Proof.
  intros Hf H. unfold write, transact. wp_step. apply ff_ask. intros x w' Hx Hq. rewrite (ff_database _ _ Hx).
  wp_step. wp_step. wp_step. wp_step. rewrite (q_db _ _ Hq), Hf. cbn. rewrite (ff_commit _ _ Hx). wp_step. wp_step. wp_step. by apply H.
Qed.
Lemma ff_check {E A C} (r : result E A) a (f : A -> Act E C) Q w :
  r = Ok a -> wp (f a) Q w -> wp (lift r ≫= f) Q w.
Proof. intros -> H. wp_step. by wp_step. Qed.

(** ** The child *)

Definition same (w w' : World) : Prop := w_supervisor w' = w_supervisor w /\ w_now w <= w_now w'.
Lemma ff_owned_child_status w :
  is_Some (sv_child (w_supervisor w)) ->
  wp (owned_child_status env) (fun r w' => r = Ok false /\ same w w') w.
Proof.
  intros [pid Hc]. unfold owned_child_status. wp_step. wp_step. eapply ff_check; [by rewrite Hc|]. wp_step.
  unfold try_wait. wp_step. apply ff_ask. intros a w' Ha Hq. rewrite (ff_succeeds _ _ Ha), (ff_alive _ _ Ha).
  wp_step. wp_step. wp_step. wp_step. split; [done|]. by destruct Hq.
Qed.
Lemma ff_listener_is_ready {E} port w : wp (listener_is_ready env port (E := E)) (fun r w' => r = Ok true /\ same w w') w.
Proof.
  unfold listener_is_ready. wp_step. apply ff_ask. intros a w' Ha Hq. rewrite (ff_succeeds _ _ Ha).
  wp_step. wp_step. wp_step. split; [done|]. by destruct Hq.
Qed.
Lemma ff_stabilize fuel deadline w :
  is_Some (sv_child (w_supervisor w)) -> good_time w -> enough fuel deadline w ->
  wp (stabilize env (S fuel) deadline) (fun r w' => r = Ok tt /\ same w w') w.
Proof.
  revert w. induction fuel as [fuel IH] using lt_wf_ind; intros w Hc Hg He. cbn [stabilize].
  wp_step. apply wp_instant_now. intros w1 Hq1. assert (same w w1) as [Hs1 Hn1] by (by destruct Hq1).
  destruct (Z.ltb_spec (w_now w1) deadline); [|by wp_step].
  wp_step. wp_step. eapply wp_mono; [apply ff_owned_child_status; by rewrite Hs1|].
  intros _ w2 [-> [Hs2 Hn2]]. cbn [map_err]. wp_step. wp_step. wp_step. unfold enough, good_time in *.
  apply wp_sleep; [rewrite Hs2, Hs1; lia|]. intros w3 Hq3 Hn3.
  assert (w_supervisor w3 = w_supervisor w) as Hs3 by (destruct Hq3; congruence). rewrite Hs2, Hs1 in Hn3.
  destruct fuel as [|fuel]; [lia|].
  eapply wp_mono; [apply IH; rewrite ?Hs3; try done; [lia|]|]; [lia|].
  intros r w4 [-> [Hs4 Hn4]]. split; [done|]. split; [congruence|lia].
Qed.
Lemma ff_prove_owned_child_healthy port w :
  is_Some (sv_child (w_supervisor w)) -> good_time w ->
  wp (prove_owned_child_healthy env port) (fun r w' => r = Ok tt /\ same w w') w.
Proof.
  intros Hc Hg. unfold prove_owned_child_healthy. wp_step. wp_step. wp_step. apply wp_instant_now. intros w1 Hq1.
  assert (same w w1) as [Hs1 Hn1] by (by destruct Hq1). wp_step. unfold rounds at 1. cbn [wait_until_listening].
  wp_step. wp_step. eapply wp_mono; [apply ff_owned_child_status; by rewrite Hs1|]. intros _ w2 [-> [Hs2 Hn2]]. cbn [map_err].
  wp_step. eapply wp_mono; [apply ff_listener_is_ready|]. intros _ w3 [-> [Hs3 Hn3]]. wp_step.
  wp_step. apply wp_instant_now. intros w4 Hq4. assert (w_supervisor w4 = w_supervisor w) as Hs4 by (destruct Hq4; congruence).
  assert (w_now w <= w_now w4) as Hn4 by (destruct Hq4; lia). wp_step. unfold rounds.
  eapply wp_mono; [apply ff_stabilize; [by rewrite Hs4|unfold good_time; by rewrite Hs4|]|].
  { unfold enough. rewrite Hs4. pose proof (rounds_enough (op_stabilization_duration (sv_options (w_supervisor w))) _ Hg). lia. }
  intros _ w5 [-> [Hs5 Hn5]]. wp_step. eapply wp_mono; [apply ff_listener_is_ready|]. intros _ w6 [-> [Hs6 Hn6]].
  wp_step. split; [done|]. split; [congruence|lia].
Qed.

Lemma ff_stop_runtime w : wp (stop_runtime env) (fun r _ => r = Ok tt) w.
Proof.
  unfold stop_runtime. wp_step. wp_step. wp_step.
  eapply (wp_mono _ (fun r _ => r = Ok None)).
  { unfold stop_gate. wp_step. wp_step. destruct (sv_admission _) as [gate|]; [|by wp_step]. wp_step. apply ff_ask.
    intros a w1 Ha Hq. wp_step. wp_step. wp_step. wp_step. apply ff_outside. intros w2 Hq2. by wp_step. }
  intros _ w1 ->. wp_step. wp_step. wp_step. eapply (wp_mono _ (fun r _ => r = Ok tt)).
  { unfold stop_child, kill_and_wait. wp_step. wp_step. destruct (sv_child _); [|by wp_step]. wp_step. wp_step. apply ff_ask.
    intros a w2 Ha Hq. rewrite (ff_succeeds _ _ Ha). by wp_step. }
  intros _ w2 ->. wp_step. wp_step. by wp_step.
Qed.
Lemma ff_spawn_candidate c w : usable c ->
  wp (spawn_candidate env c) (fun r _ => exists pid, r = Ok pid) w.
Proof.
  intros (Hd & Hb & Hp & _). unfold spawn_candidate, digest_from_str in *. inv_ok.
  match goal with H : strip_prefix _ _ = Some ?h, H' : _ && _ = true |- _ =>
    rename h into hex; rename H into Hhex; apply andb_prop in H' as [Hlen Hlow] end.
  eapply ff_check; [by rewrite Hhex|]. destruct (runtime_pairs_lower _ Hlow) as [k Hk].
  eapply ff_check.
  { unfold runtime_from_hex, str_len. rewrite as_bytes_of_str, Hlen, Hk. done. }
  eapply ff_check; [by rewrite Hb|]. eapply ff_check; [by rewrite Hp|]. wp_step. wp_step. apply ff_outside.
  intros w1 Hq1. cbn [map_err]. wp_step. apply ff_ask. intros a w2 Ha Hq2. rewrite (ff_succeeds _ _ Ha).
  wp_step. wp_step. wp_step. wp_step. wp_step. eauto.
Qed.
Definition gate_options (w : World) : Prop :=
  exists o, admission_validate (op_admission (sv_options (w_supervisor w))) = Ok o.
Lemma ff_start_admission c w :
  usable c -> gate_options w -> is_Some (sv_child (w_supervisor w)) ->
  wp (start_admission env c) (fun r _ => r = Ok tt) w.
Proof.
  intros (_ & _ & _ & Hport) [o Ho] Hc. unfold start_admission. destruct (vc_public_port c) as [p|]; [|by wp_step].
  destruct (Hport p eq_refl) as (H1 & H2 & H3). wp_step. wp_step. wp_step. wp_step. unfold gate_start.
  eapply ff_check; [by rewrite !(proj2 (Z.eqb_neq _ _)) by done|]. eapply ff_check; [exact Ho|]. wp_step.
  apply ff_outside. intros w1 Hq1. wp_step. cbn [map_err]. wp_step. wp_step. wp_step. wp_step. wp_step. wp_step. wp_step.
  apply ff_outside. intros w2 Hq2. wp_step. cbn [map_err]. wp_step. wp_step.
  eapply wp_mono; [apply ff_owned_child_status|]. { cbn. rewrite (q_supervisor _ _ Hq2). cbn. by rewrite (q_supervisor _ _ Hq1). }
  intros _ w3 [-> _]. cbn [map_err]. by wp_step.
Qed.
Lemma ff_start_proven_candidate c w :
  sound w -> sv_child (w_supervisor w) = None -> usable c -> gate_options w ->
  candidate_of (w_db w) (vc_revision c) c ->
  wp (start_proven_candidate env c) (fun r _ => r = Ok tt) w.
Proof.
  intros S Hc Hu Hg Hcand. unfold start_proven_candidate. wp_step.
  eapply wp_mono; [apply wp_conj; [apply spawn_candidate_spec|by apply ff_spawn_candidate]|].
  intros res w1 [H1 [pid ->]]. destruct H1 as (w2 & Hq2 & ->). wp_step.
  eapply wp_mono; [by apply (own_child_spec env start period w w2)|]. intros _ w3 [-> T3]. wp_step. wp_step.
  assert (good_time w3) as Hg3 by (destruct T3 as ([] & _); done).
  eapply wp_mono; [apply wp_conj; [by apply (prove_owned_child_healthy_spec _ start period w)|
    apply ff_prove_owned_child_healthy; [apply T3|done]]|].
  intros res w4 [T4 [-> Hsame]]. wp_step. wp_step.
  eapply wp_mono; [apply ff_start_admission; [done| |apply T4]|].
  { unfold gate_options. destruct T4 as (_ & _ & _ & Ho & _). by rewrite Ho. }
  intros _ w5 ->. unfold mark_running. wp_step. apply wp_instant_now. intros w6 Hq6. by wp_step.
Qed.

(** ** Reading the active candidate *)

Lemma applied_latest db r :
  consistent db -> is_Some (results db !! (r, RsApplied)) ->
  exists reports d rep row, load_revision_results db r = Ok reports /\ last reports = Some (d, rep) /\
    results db !! (r, RsApplied) = Some row /\ row_holds r RsApplied row rep.
Proof.
  intros C [row0 Hrow]. destruct (load_revision_results_Ok db r (consistent_rows _ C)) as [reports Hrep].
  pose proof (latest_report _ _ _ (consistent_rows _ C) Hrep) as Hl.
  destruct (last_row _ _ _ _ Hrow) as [[st row] El]. rewrite El in Hl. destruct (last reports) as [[d rep]|] eqn:Er; [|done].
  apply rows_of_last in El as [Hst Hmax]. destruct (Hmax _ _ Hrow) as [Hrank _].
  assert (st = RsApplied) as ->.
  { assert (is_terminal st = true) as Ht by (by destruct st).
    eapply (c_terminal _ C r); split; try done; by eexists. }
  by exists reports, d, rep, row.
Qed.
Lemma ff_verify_config_file r rd w :
  rendered start !! r = Some rd ->
  wp (verify_config_file env (config_relative_path r) (rd_config_digest rd)) (fun res w' => res = Ok tt /\ quiet w w') w.
Proof.
  intros Hrd. unfold verify_config_file. wp_step. apply ff_ask. intros a w1 Ha Hq.
  destruct (ff_file _ _ Ha _ _ Hrd) as (f & content & Hf & Hsym & Hreg & Hlen & Hown & Hcont & Hdig).
  eapply ff_check; [by rewrite Hf|]. eapply ff_check; [by rewrite Hsym, Hreg|].
  eapply ff_check; [by rewrite (proj2 (Z.eqb_neq _ _)), (proj2 (Z.ltb_ge _ _)) by lia|].
  eapply ff_check; [by rewrite Hown|]. eapply ff_check; [by rewrite Hcont|].
  wp_step. split; [|done]. by rewrite bool_decide_eq_true_2.
Qed.
Lemma same_path_refl p : same_path p p = true.
Proof. by apply bool_decide_eq_true_2. Qed.
Lemma ff_verify_rendered_config r rd rep row w :
  consistent (w_db w) -> rendered (w_db w) = rendered start -> rendered start !! r = Some rd ->
  results (w_db w) !! (r, RsApplied) = Some row -> row_holds r RsApplied row rep ->
  wp (verify_rendered_config env r rep) (fun res w' => res = Ok tt /\ quiet w w') w.
Proof.
  intros C Hsame Hrd Hrow Hh. unfold verify_rendered_config. wp_step. rewrite <- Hsame in Hrd.
  pose proof (c_rendered _ C _ _ Hrd) as (Hpath & _ & (d & Hd) & _ & Hv).
  eapply ff_query; [unfold load_rendered_config_row; by rewrite Hrd|]. intros w1 Hq1.
  eapply ff_check; [by rewrite Hpath, same_path_refl|].
  eapply ff_check; [by rewrite bool_decide_eq_true_2 by (by eapply Hv; [right|..])|].
  eapply ff_check; [by rewrite Hd|]. rewrite Hsame in Hrd.
  eapply wp_mono; [by apply ff_verify_config_file|]. intros res w2 [-> Hq2]. split; [done|by etrans].
Qed.

Lemma valid_ports x v : xray_validate x v = Ok tt ->
  forall p, xray_public_port x = Some p -> p <> 0 /\ listen_port x <> 0 /\ p <> listen_port x.
Proof.
  unfold xray_validate. intros E p Hp. apply bind_Ok in E as ([] & Hl & E). apply bind_Ok in E as ([] & Hports & _).
  apply ensure_Ok, negb_true_iff, Z.eqb_neq in Hl. unfold xray_ports_validate in Hports. rewrite Hp in Hports.
  destruct (v =? 1); [done|]. destruct (v =? 2); [|done]. inv_ok. simplify_eq. bool_props. lia.
Qed.
Lemma ff_load_candidate r rd w :
  consistent (w_db w) -> rendered (w_db w) = rendered start -> rendered start !! r = Some rd ->
  is_Some (results (w_db w) !! (r, RsApplied)) ->
  (forall rt, runtime (w_db w) = Some rt -> absolute (rt_binary_path rt)) ->
  wp (load_candidate env r) (fun res _ => exists c, res = Ok c /\ usable c) w.
Proof.
  intros C Hsame Hrd Hres Hbin. destruct (applied_latest _ _ C Hres) as (reports & d & rep & row & E & El & Hrow & Hh).
  pose proof Hrd as Hrd'. rewrite <- Hsame in Hrd'. pose proof (c_rendered _ C _ _ Hrd') as (Hpath & Hdig & (k & Hk) & (rt & Hrt & Hpin) & _).
  assert (is_Some (artifacts (w_db w) !! r)) as [art Hart] by (by eapply (c_rows _ C)).
  pose proof (c_artifacts _ C _ _ Hart) as (_ & e & He & Hrev & _ & Hsig%signed_under_controller).
  unfold load_candidate. wp_step. eapply ff_query; [exact E|]. intros w1 Hq1.
  apply (ff_check _ rep); [by rewrite El|]. eapply ff_check; [by rewrite (proj1 (proj2 (proj2 Hh)))|].
  wp_step. eapply wp_mono; [apply (ff_verify_rendered_config r rd _ row); rewrite ?(q_db _ _ Hq1); done|].
  intros res w2 [-> Hq2]. assert (quiet w w2) as Hq by (by etrans).
  wp_step. eapply ff_query; [unfold load_rendered_config_row; by rewrite (q_db _ _ Hq), Hrd'|]. intros w3 Hq3.
  assert (quiet w w3) as Hq' by (by etrans). wp_step. eapply ff_query; [by rewrite (q_db _ _ Hq'), Hrt|]. intros w4 Hq4.
  assert (quiet w w4) as Hq'' by (by etrans). eapply ff_check; [by rewrite bool_decide_eq_true_2|].
  eapply ff_check; [by rewrite Hdig|]. eapply ff_check; [by rewrite Hk|].
  eapply ff_check; [by rewrite Hpath, same_path_refl|]. wp_step. wp_step. apply ff_ask. intros a w5 Ha Hq5.
  rewrite (ff_succeeds _ _ Ha). wp_step. wp_step.
  eapply ff_query; [by rewrite (q_db _ _ Hq5), (q_db _ _ Hq''), Hart|]. intros w6 Hq6.
  eapply ff_check; [by rewrite He|]. eapply ff_check; [by rewrite Hrev, Z.eqb_refl|]. wp_step. eexists. split; [done|].
  split_and!; cbn; [done|by apply Hbin|by apply (ff_path _ _ Ha)|]. eapply valid_ports, Hsig.
Qed.

(** ** The active revision is restarted *)

(** A world in which [n] restarts have room *)
Record mendable (n : Z) (w : World) : Prop := mkMendable {
  m_sound : sound w;
  m_rendered : rendered (w_db w) = rendered start;
  m_binary : forall rt, runtime (w_db w) = Some rt -> absolute (rt_binary_path rt);
  m_gate : gate_options w;
  m_generation : ac_generation (active (w_db w)) + n <= i64_max;
  m_restarts : ac_restart_count (active (w_db w)) + n <= i64_max;
}.
Lemma mendable_same n w w' :
  sound w' -> w_db w' = w_db w -> sv_options (w_supervisor w') = sv_options (w_supervisor w) ->
  mendable n w -> mendable n w'.
Proof. intros S Hd Ho [_ Hr Hb Hg Hn Hc]. unfold gate_options in Hg. split; unfold gate_options; rewrite ?Hd, ?Ho; done. Qed.

Lemma active_rendered db a :
  consistent db -> load_active_state db = Ok (Some a) ->
  exists rd d, rendered db !! as_revision a = Some rd /\ runtime_from_hex (rd_binary_digest rd) = Some d /\
    as_config_digest a = rd_config_digest rd /\ as_binary_digest a = runtime_to_string d /\
    is_Some (results db !! (as_revision a, RsApplied)).
Proof.
  intros C E. pose proof (load_active_state_applied _ _ E) as Ha. cbn in Ha. pose proof (c_active _ C) as A.
  unfold active_holds, applied in *. unfold load_active_state in E. rewrite <- Ha in A, E.
  destruct A as (j & rd & d & Hj & Hph & Hrd & Hd & Hc & Hb). rewrite Hc, Hb in E. inv_ok. cbn in *.
  exists rd, d. split_and!; try done; try congruence.
  pose proof (c_journal _ C _ _ Hj) as (_ & _ & _ & Ht). apply (Ht RsApplied). by rewrite Hph.
Qed.
Lemma record_active_restart_ok n w r :
  0 < n -> mendable n w -> applied (w_db w) = Some r ->
  exists db', record_active_restart (w_db w) r = Ok db' /\ forall w', quiet w w' -> mendable (n - 1) (on_db db' w').
Proof.
  intros Hn M Ha. pose proof M as [S Hr Hb Hg Hgen Hres]. eexists. split.
  { unfold record_active_restart. rewrite bool_decide_eq_true_2 by done.
    rewrite !(proj2 (Z.ltb_lt _ _)) by lia. done. }
  intros w' Hq. split; cbn; try done; try lia.
  - apply sound_durable; [by eapply sound_quiet| |by left; rewrite (q_db _ _ Hq)]. rewrite (q_db _ _ Hq).
    eapply (step_restart _ r). unfold record_active_restart. rewrite bool_decide_eq_true_2 by done.
    by rewrite !(proj2 (Z.ltb_lt _ _)) by lia.
  - unfold gate_options. cbn. by rewrite (q_supervisor _ _ Hq).
Qed.
Lemma ff_restart_active n a w :
  0 < n -> mendable n w -> load_active_state (w_db w) = Ok (Some a) ->
  wp (restart_active env a) (fun res w' => res = Ok tt /\ mendable (n - 1) w') w.
Proof.
  intros Hn M E. pose proof M as [S Hr Hb Hg _ _]. pose proof (s_consistent _ _ _ S) as C.
  destruct (active_rendered _ _ C E) as (rd & d & Hrd & Hd & Hac & Hab & Hres).
  pose proof (load_active_state_applied _ _ E) as Ha. cbn in Ha. unfold restart_active. wp_step.
  eapply wp_mono; [apply wp_conj; [by apply (stop_runtime_spec _ start period)|apply ff_stop_runtime]|].
  intros res w1 [(S1 & Hd1 & Hr1 & _ & Hc1 & Ho1 & _) ->]. specialize (Hc1 eq_refl).
  pose proof (mendable_same _ _ _ S1 Hd1 Ho1 M) as M1. wp_step. rewrite <- Hd1 in *.
  eapply wp_mono; [apply wp_conj; [apply load_candidate_spec|
    by apply (ff_load_candidate _ rd); [|apply M1|rewrite <- (m_rendered _ _ M1)|..]]|].
  intros res w2 [[Hq Hcand] (c & -> & Hu)]. pose proof (sound_quiet _ _ _ _ Hq S1) as S2.
  destruct Hcand as (Hrev & rd' & Hrd' & Hcd & Hcb). rewrite Hrd in Hrd'. injection Hrd' as <-.
  eapply ff_check.
  { rewrite Hac, Hab, Hcd. rewrite Hd in Hcb. injection Hcb as ->. by rewrite !bool_decide_eq_true_2. }
  assert (candidate_of (w_db w2) (vc_revision c) c) as Hcand.
  { rewrite (q_db _ _ Hq), Hrev. split; [done|]. exists rd. done. }
  pose proof (mendable_same _ _ w2 S2 (q_db _ _ Hq) (f_equal sv_options (q_supervisor _ _ Hq)) M1) as M2.
  assert (applied (w_db w2) = Some (vc_revision c)) as Ha2 by (rewrite (q_db _ _ Hq), Hrev; done).
  rewrite <- (q_supervisor _ _ Hq) in Hc1, Hr1.
  wp_step. wp_step. eapply wp_mono; [apply wp_conj; [by apply (start_proven_candidate_spec _ start period)|
    apply ff_start_proven_candidate; try done; apply M2]|].
  intros res w3 [(S3 & Hd3 & Hr3 & Ho3) ->]. cbn [map_err is_ok] in *. specialize (Ho3 eq_refl).
  pose proof (mendable_same _ _ _ S3 Hd3 Ho3 M2) as M3.
  destruct (record_active_restart_ok n w3 (as_revision a)) as (db' & Hdb & Hmend); [done|done|by rewrite Hd3, Ha2, Hrev|].
  eapply ff_write; [exact Hdb|]. auto.
Qed.

Lemma ff_observe_runtime_state w :
  wp (observe_runtime_state env) (fun res w' => (exists st, res = Ok st) /\
    sv_options (w_supervisor w') = sv_options (w_supervisor w)) w.
Proof.
  unfold observe_runtime_state. wp_step. wp_step. destruct (sv_child (w_supervisor w)) as [pid|].
  2: { wp_step. wp_step. wp_step. eauto. }
  wp_step. unfold try_wait. wp_step. apply ff_ask. intros a w1 Ha Hq.
  rewrite (ff_succeeds _ _ Ha), (ff_alive _ _ Ha). wp_step. wp_step. wp_step.
  assert (sv_options (w_supervisor w1) = sv_options (w_supervisor w)) as Ho by (by rewrite (q_supervisor _ _ Hq)).
  destruct (sv_running_revision _); [|wp_step; eauto]. destruct (sv_running_public_port _); [|wp_step; eauto].
  destruct (sv_admission _); [|wp_step; wp_step; wp_step; eauto]. wp_step. apply ff_ask. intros b w2 Hb Hq2.
  assert (sv_options (w_supervisor w2) = sv_options (w_supervisor w)) as Ho2 by (by rewrite (q_supervisor _ _ Hq2)).
  destruct (an_running b); [wp_step; eauto|]. wp_step. wp_step. wp_step. eauto.
Qed.
Lemma mendable_less n m w : mendable n w -> m <= n -> mendable m w.
Proof. intros [] Hm. split; try done; lia. Qed.
Lemma ff_ensure_active_running n w :
  0 < n -> mendable n w ->
  wp (ensure_active_running env) (fun res w' => res = Ok tt /\ mendable (n - 1) w') w.
Proof.
  intros Hn M. pose proof (m_sound _ _ M) as S. destruct (load_active_state_ok _ (s_consistent _ _ _ S)) as [active E].
  unfold ensure_active_running. wp_step. eapply ff_query; [exact E|]. intros w1 Hq.
  pose proof (sound_quiet _ _ _ _ Hq S) as S1. rewrite <- (q_db _ _ Hq) in E.
  pose proof (mendable_same _ _ _ S1 (q_db _ _ Hq) (f_equal sv_options (q_supervisor _ _ Hq)) M) as M1.
  destruct active as [a|]; wp_step; wp_step.
  - case_bool_decide; [|by apply ff_restart_active]. wp_step.
    eapply wp_mono; [apply wp_conj; [by apply (observe_runtime_state_spec _ start period)|apply ff_observe_runtime_state]|].
    intros res w2 [(S2 & Hd2 & _) [[st ->] Ho2]]. pose proof (mendable_same _ _ _ S2 Hd2 Ho2 M1) as M2.
    destruct (is_live st); [wp_step; split; [done|apply (mendable_less n); [done|lia]]|].
    apply ff_restart_active; [done|done|by rewrite Hd2].
  - destruct (_ || _); [|wp_step; split; [done|apply (mendable_less n); [done|lia]]].
    eapply wp_mono; [apply wp_conj; [by apply (stop_runtime_spec _ start period)|apply ff_stop_runtime]|].
    intros res w2 [(S2 & Hd2 & _ & _ & _ & Ho2 & _) ->]. split; [done|].
    apply (mendable_less n); [by eapply mendable_same|lia].
Qed.

(** ** The interrupted activation is decided *)

Lemma insert_terminal_ok db r result j :
  consistent db -> journal db !! r = Some j -> incomplete j -> is_terminal (rr_state result) = true ->
  result_validate result r = Ok tt -> is_Some (report_to_string result) ->
  exists db', insert_revision_result db r result = Ok db' /\ journal db' = journal db.
Proof.
  intros C Hj Hi Ht Hv [json Hjson]. destruct (incomplete_row _ _ _ C Hj Hi) as (Hno & _ & _ & Hr & _).
  pose proof Hr as [row Hval]%(c_validated _ C).
  destruct (load_revision_results_Ok db r (consistent_rows _ C)) as [reports Hrep].
  pose proof (latest_report _ _ _ (consistent_rows _ C) Hrep) as Hl.
  destruct (last_row _ _ _ _ Hval) as [[st lrow] El]. rewrite El in Hl. destruct (last reports) as [[d rep]|] eqn:Er; [|done].
  apply rows_of_last in El as [Hst Hmax]. destruct (Hmax _ _ Hval) as [Hrank _].
  assert (st = RsValidated) as ->.
  { destruct (is_terminal st) eqn:Hter; [exfalso; apply (Hno st); split; [done|by eexists]|]. by destruct st. }
  destruct Hl as (_ & _ & Hs & _). cbn in Hs.
  exists (set_results (<[(r, rr_state result) := mkResultRow json (protocol_digest (as_bytes json)) None]> (results db)) db).
  split; [|done].
  unfold insert_revision_result, validate_result_transition, validated. rewrite Hv. rsimpl. rewrite Hjson. rsimpl.
  rewrite Hrep. rsimpl. rewrite Er. cbn [fmap option_fmap option_map snd].
  assert (validate_transition_from result (Some rep) = Ok tt) as ->.
  { unfold validate_transition_from. rewrite Hs. destruct (bool_decide (result = rep)); [done|].
    by destruct (rr_state result). }
  assert (is_Some (artifacts db !! r)) as Ha by (by eapply (c_rows _ C)).
  assert (results db !! (r, rr_state result) = None) as Hnone by (apply eq_None_not_Some; intros Hx; by eapply Hno).
  by rewrite (bool_decide_eq_true_2 _ Ha), (bool_decide_eq_true_2 _ Hnone).
Qed.
Lemma finish_journal_ok db r j phase code now :
  phase_is_terminal phase = true -> journal db !! r = Some j -> incomplete j ->
  exists db', finish_journal db r phase code now = Ok db'.
Proof. intros Hp Hj Hi. unfold finish_journal. rewrite Hp. rsimpl. rewrite Hj, Hi. by eexists. Qed.

Lemma timestamp_ok v : 0 <= v <= last_second ->
  timestamp_from_unix v = Ok (timestamp_from_datetime (mkTime (v * NANOS) 0)).
Proof.
  unfold timestamp_from_unix, last_second. intros H.
  rewrite (proj2 (Z.leb_le _ _)), (proj2 (Z.leb_le _ _)) by lia. done.
Qed.
Lemma completes started now : started <= now ->
  time_lt (timestamp_from_datetime (mkTime (now * NANOS) 0)) (timestamp_from_datetime (mkTime (started * NANOS) 0)) = false.
Proof. intros H. unfold time_lt. cbn. apply Z.ltb_ge. unfold NANOS. lia. Qed.

(** What a terminal result and the end of its journal leave alone *)
Definition frame (db db' : Db) : Prop :=
  rendered db' = rendered db /\ runtime db' = runtime db /\ active db' = active db.
Lemma commit_frame db r result phase code now db1 db' :
  insert_revision_result db r result = Ok db1 -> finish_journal db1 r phase code now = Ok db' -> frame db db'.
Proof. intros E (_ & j & _ & _ & ->)%finish_journal_Ok. unfold insert_revision_result in E. by inv_ok. Qed.
Lemma mendable_frame n w w' :
  sound w' -> frame (w_db w) (w_db w') -> w_supervisor w' = w_supervisor w -> mendable n w -> mendable n w'.
Proof.
  intros S (Hr & Hrt & Ha) Hs [_ Hre Hb Hg Hn Hc]. unfold gate_options in Hg.
  split; unfold gate_options; rewrite ?Hr, ?Hrt, ?Ha, ?Hs; done.
Qed.

(** The unfinished row that [recover] read *)
Definition interrupted (w : World) (j : ActivationJournal) (row : JournalRow) : Prop :=
  journal (w_db w) = journal start /\ journal start !! aj_revision j = Some row /\ incomplete row /\
  aj_started_at j = jn_started_at row.
Context (Htotal : forall r, is_Some (report_to_string r)).
Lemma ff_finalize_rolled_back n j row previous w :
  mendable n w -> interrupted w j row -> applied (w_db w) = Some (vc_revision previous) ->
  vc_revision previous < aj_revision j ->
  wp (finalize_rolled_back env j previous XrayUnhealthy) (fun res w' => res = Ok tt /\ frame (w_db w) (w_db w')) w.
Proof.
  intros M (Hjr & Hrow & Hi & Hst) Ha Hlt. pose proof (s_consistent _ _ _ (m_sound _ _ M)) as C.
  unfold finalize_rolled_back. wp_step. apply ff_unix_timestamp. intros now w1 Hnow Hstart Hq.
  specialize (Hstart _ _ Hrow Hi). rewrite Hst.
  eapply ff_check; [apply timestamp_ok; lia|]. eapply ff_check; [apply timestamp_ok; lia|].
  set (result := mkResult _ _ _ _ _ _). rewrite <- Hjr in Hrow.
  destruct (insert_terminal_ok (w_db w) (aj_revision j) result row) as (db1 & E1 & Hj1); [done..| |by apply Htotal|].
  { unfold result_validate. subst result. cbn [rr_completed_at rr_started_at rr_state]. rewrite completes by lia. rsimpl.
    cbn. by rewrite (proj2 (Z.leb_gt _ _)). }
  destruct (finish_journal_ok db1 (aj_revision j) row JRolledBack (Some XrayUnhealthy) now) as [db2 E2];
    [done|by rewrite Hj1|done|].
  eapply ff_write; [rewrite (q_db _ _ Hq); unfold commit_rolled_back; by rewrite E1|].
  intros w2 Hq2. split; [done|]. cbn. by eapply commit_frame.
Qed.
Lemma ff_finalize_rejected n j row w :
  mendable n w -> interrupted w j row ->
  wp (finalize_rejected env j XrayStartFailed) (fun res w' => res = Ok tt /\ frame (w_db w) (w_db w')) w.
Proof.
  intros M (Hjr & Hrow & Hi & Hst). pose proof (s_consistent _ _ _ (m_sound _ _ M)) as C.
  unfold finalize_rejected. wp_step. apply ff_unix_timestamp. intros now w1 Hnow Hstart Hq.
  specialize (Hstart _ _ Hrow Hi). rewrite Hst.
  eapply ff_check; [apply timestamp_ok; lia|]. eapply ff_check; [apply timestamp_ok; lia|].
  set (result := mkResult _ _ _ _ _ _). rewrite <- Hjr in Hrow.
  destruct (insert_terminal_ok (w_db w) (aj_revision j) result row) as (db1 & E1 & Hj1); [done..| |by apply Htotal|].
  { unfold result_validate. subst result. cbn [rr_completed_at rr_started_at rr_state]. by rewrite completes by lia. }
  destruct (finish_journal_ok db1 (aj_revision j) row JRejected (Some XrayStartFailed) now) as [db2 E2];
    [done|by rewrite Hj1|done|].
  eapply ff_write; [rewrite (q_db _ _ Hq); unfold commit_rejected; by rewrite E1|].
  intros w2 Hq2. split; [done|]. cbn. by eapply commit_frame.
Qed.

Lemma active_rendered_applied db p :
  consistent db -> applied db = Some p ->
  exists rd, rendered db !! p = Some rd /\ is_Some (results db !! (p, RsApplied)).
Proof.
  intros C Ha. pose proof (c_active _ C) as A. unfold active_holds, applied in *. rewrite Ha in A.
  destruct A as (j & rd & d & Hj & Hph & Hrd & _). exists rd. split; [done|].
  pose proof (c_journal _ C _ _ Hj) as (_ & _ & _ & Ht). apply (Ht RsApplied). by rewrite Hph.
Qed.
(** The predecessor is running again; the interrupted activation is rolled back. *)
Lemma ff_roll_back n j row p w :
  mendable n w -> interrupted w j row -> applied (w_db w) = Some p ->
  wp (previous ← load_candidate env p; finalize_rolled_back env j previous XrayUnhealthy)
    (fun res w' => res = Ok tt /\ mendable n w' /\ decided (w_db w) (w_db w') (aj_revision j) /\
      applied (w_db w') = applied (w_db w)) w.
Proof.
  intros M Hint Hp. pose proof M as [S Hr Hb _ _ _]. pose proof (s_consistent _ _ _ S) as C.
  destruct Hint as (Hjr & Hrow & Hi & Hst). destruct (active_rendered_applied _ _ C Hp) as (rd & Hrd & Hres).
  assert (p < aj_revision j) as Hlt.
  { rewrite <- Hjr in Hrow. destruct (incomplete_row _ _ _ C Hrow Hi) as (_ & _ & Hprev & _ & _ & Hpr & _).
    unfold applied in Hp. rewrite Hp in Hprev. by destruct (Hpr _ Hprev). }
  wp_step. eapply wp_mono; [apply wp_conj; [apply load_candidate_spec|
    by apply (ff_load_candidate _ rd); [| |rewrite <- Hr|..]]|].
  intros res w1 [[Hq Hcand] (c & -> & _)]. destruct Hcand as [<- _]. pose proof (sound_quiet _ _ _ _ Hq S) as S1.
  pose proof (mendable_same _ _ w1 S1 (q_db _ _ Hq) (f_equal sv_options (q_supervisor _ _ Hq)) M) as M1.
  rewrite <- (q_db _ _ Hq) in *.
  eapply wp_mono; [apply wp_conj; [by apply (finalize_rolled_back_spec _ start period)|
    by apply (ff_finalize_rolled_back n j row)]|].
  intros res w2 [[(S2 & Hs2 & Ha2 & _) Hdec] [-> Hf]]. split_and!; [done|by eapply mendable_frame| |done].
  by destruct Hdec as [[[] _]|].
Qed.
Lemma ff_recover_interrupted n active j row w :
  0 < n -> mendable n w -> interrupted w j row -> phase_is_terminal (aj_phase j) = false ->
  option_map as_revision active = applied (w_db w) -> aj_previous_revision j = applied (w_db w) ->
  wp (recover_interrupted env active j) (fun res w' => res = Ok tt /\ mendable (n - 1) w' /\
    applied (w_db w') = applied (w_db w) /\
    (is_Some (applied (w_db w)) -> forall r j, journal (w_db w') !! r = Some j -> ~ incomplete j)) w.
Proof.
  intros Hn M Hint Hph Ha Hp. pose proof (m_sound _ _ M) as S. pose proof (s_consistent _ _ _ S) as C.
  unfold recover_interrupted. rewrite Hph. destruct (aj_previous_revision j) as [p|].
  - destruct active as [a|]; [|by rewrite <- Hp in Ha]. eapply ff_check; [done|]. cbn in Ha. rewrite <- Hp in Ha.
    injection Ha as ->. rewrite Z.eqb_refl. cbn [negb]. wp_step. wp_step.
    eapply wp_mono; [apply wp_conj; [by apply (ensure_active_running_spec _ start period)|by apply (ff_ensure_active_running n)]|].
    intros res w1 [[[S1 [Ha1 Hd1]] _] [-> M1]]. assert (journal (w_db w1) = journal (w_db w)) as Hj1 by (by rewrite Hd1).
    assert (interrupted w1 j row) as Hint1 by (unfold interrupted in *; by rewrite Hj1).
    eapply wp_mono; [apply (ff_roll_back (n - 1) j row); [done..|congruence]|].
    intros res w2 (-> & M2 & (_ & Hoth & Hdone & _) & Ha2). split_and!; [done|done|congruence|]. intros _ r j' Hj' Hi'.
    destruct (decide (r = aj_revision j)) as [->|Hne]; [by eapply Hdone|]. rewrite Hoth, Hj1 in Hj' by done.
    destruct Hint as (Hjs & Hrow & Hi & _). rewrite <- Hjs in Hrow. by apply Hne, (c_one _ C _ _ _ _ Hj' Hrow).
  - destruct (_ <=? aj_attempt_count j).
    + eapply wp_mono; [apply wp_conj; [by apply (finalize_rejected_spec _ start period)|by apply (ff_finalize_rejected n j row)]|].
      intros res w1 [[(S1 & Hs1 & Ha1 & _) _] [-> Hf]]. rewrite <- Hp. split_and!; [done| |congruence|by intros []].
      apply (mendable_less n); [by eapply mendable_frame|lia].
    + destruct Hint as (Hjs & Hrow & Hi & _). rewrite <- Hjs in Hrow.
      eapply wp_mono; [apply wp_conj; [by apply (update_journal_phase_spec _ start period)|]|].
      { eapply (ff_write _ (fun res w' => res = Ok tt /\ frame (w_db w) (w_db w'))).
        - unfold update_journal_phase. cbn. by rewrite Hrow, Hi.
        - intros w1 Hq. by split. }
      intros res w1 [[(S1 & Hs1 & Ha1 & _) _] [-> Hf]]. rewrite <- Hp. split_and!; [done| |congruence|by intros []].
      apply (mendable_less n); [by eapply mendable_frame|lia].
Qed.

Lemma ff_recover w :
  mendable 2 w -> journal (w_db w) = journal start ->
  wp (recover env) (fun res w' => res = Ok tt /\ applied (w_db w') = applied (w_db w) /\
    sv_running_revision (w_supervisor w') = applied (w_db w') /\
    (is_Some (applied (w_db w)) -> forall r j, journal (w_db w') !! r = Some j -> ~ incomplete j)) w.
Proof.
  intros M Hj. pose proof (m_sound _ _ M) as S. pose proof (s_consistent _ _ _ S) as C.
  destruct (load_active_state_ok _ C) as [active E1], (load_incomplete_journal_ok _ C) as [inc E2].
  unfold recover. wp_step. eapply ff_query; [exact E1|]. intros w1 Hq1. wp_step.
  eapply ff_query; [by rewrite (q_db _ _ Hq1)|]. intros w2 Hq2. assert (quiet w w2) as Hq by (by etrans).
  apply load_active_state_applied in E1. apply (load_incomplete_journal_Ok _ _ C) in E2.
  pose proof (mendable_same _ _ w2 (sound_quiet _ _ _ _ Hq S) (q_db _ _ Hq) (f_equal sv_options (q_supervisor _ _ Hq)) M) as M2.
  rewrite <- (q_db _ _ Hq) in *. clear S C M w Hq w1 Hq1 Hq2. wp_step.
  eapply (wp_mono _ (fun res w' => res = Ok tt /\ mendable 1 w' /\ applied (w_db w') = applied (w_db w2) /\
    (is_Some (applied (w_db w2)) -> forall r j, journal (w_db w') !! r = Some j -> ~ incomplete j))).
  - destruct inc as [j|]; [|wp_step; split_and!; [done|by apply (mendable_less 2)|done|by intros _]].
    destruct E2 as (row & Hrow & Hi & Hp & _ & Hph & Hst). apply (ff_recover_interrupted 2 _ _ row); try done.
    + split_and!; try done. by rewrite <- Hj.
    + rewrite Hph. done.
  - intros res w3 (-> & M3 & Ha3 & Hfin). pose proof (m_sound _ _ M3) as S3.
    eapply wp_mono; [apply wp_conj; [by apply (ensure_active_running_spec _ start period)|by apply (ff_ensure_active_running 1)]|].
    intros res w4 [[[S4 [Ha4 Hd4]] Hrun] [-> _]]. split_and!; [done|congruence|by apply Hrun|].
    intros Hs r j Hrj. rewrite Hd4 in Hrj. by eapply Hfin.
Qed.
End Recovery.

Section Restores.
Context `{U : UuidText} `{R : Rfc3339} `{B : Base64} `{Sha : Sha256} {ShaLaws : Sha256Laws Sha} `{Ed : Ed25519}.
Context `{Json : NodeJson} {JsonLaws : NodeJsonLaws Json} `{Sv : Semver} (registration : SyncRegistration).
Context (accepted : string -> list byte -> Prop).

(** C27: Wherever a host crashed, restarting it in an environment without faults
    brings it back, provided that the stored path of Xray is absolute, that the
    generation and restart counters have room and that results can be written as
    JSON: [recover] succeeds, the active revision is still the
    active one and is running, and an activation the crash interrupted has
    been decided if there was a revision to go back to. *)
Theorem recovery_restores_service db options sv env :
  durable registration accepted db -> started options sv -> (forall n, fault_free db (env n)) -> restartable db ->
  (forall r, is_Some (report_to_string r)) ->
  (recover env (boot db sv)).1 = Ok tt /\
  let w := (recover env (boot db sv)).2 in
  applied (w_db w) = applied db /\ sv_running_revision (w_supervisor w) = applied db /\
  (is_Some (applied db) -> forall r j, journal (w_db w) !! r = Some j -> ~ incomplete j).
Proof.
  intros Hd Hs Hgood (Hbin & Hgen & Hres) Htotal. pose proof (durable_invariant _ _ _ Hd) as C.
  pose proof (boot_sound _ _ _ _ _ C Hs) as S. assert (mendable registration accepted db (op_stabilization_duration options) 2 (boot db sv)) as M.
  { split; try done. destruct Hs as [_ Hs]. unfold supervisor_new in Hs. apply bind_Ok in Hs as (o & Ho & [= <-]).
    unfold options_validate in Ho. apply bind_Ok in Ho as (_ & _ & Ho). apply bind_Ok in Ho as (a & Ha & [= <-]).
    by exists a. }
  pose proof (ff_recover registration accepted db env Hgood _ Htotal _ M eq_refl) as H. unfold wp in H.
  destruct (recover env (boot db sv)) as [res w]. destruct H as (-> & Ha & Hr & Hfin). cbn in *. split_and!; try done. congruence.
Qed.
End Restores.

(** Revision 7 is active, and the host crashes while it activates revision 8. *)
Definition unconfirmed : Answer :=
  mkAnswer true true CommitUnconfirmed (1700000000 * NANOS) 1000000 false true default_counters
    (fun _ => Some sample_file) "/data/config.json" (Some sample_config) sample_test.
Definition crashed_world : World :=
  run sample_registration (except (Nat.eqb 253) unconfirmed) (first_activation ++ [receive 7 "eight"; OpReconcile])
    (boot fresh_db sample_supervisor).
Lemma recovery_restores_service_witness :
  (jn_phase <$> journal (w_db crashed_world) !! 8) = Some JActivating /\
  (recover all_good (boot (w_db crashed_world) sample_supervisor)).1 = Ok tt /\
  sv_running_revision (w_supervisor (recover all_good (boot (w_db crashed_world) sample_supervisor)).2) = Some 7.
Proof.
  assert (live sample_registration sample_accepted default_options fresh_db crashed_world) as L
    by (by apply sample_run_live, except_test).
  assert (applied (w_db crashed_world) = Some 7) as Ha by (vm_compute; reflexivity).
  assert (map_Forall (fun _ rd => rd_config_digest rd = protocol_digest sample_config) (rendered (w_db crashed_world))) as Hrd
    by (apply (bool_decide_unpack _); vm_compute; exact I).
  assert (map_Forall (fun _ j => 0 <= jn_started_at j /\ jn_started_at j <= 1700000000) (journal (w_db crashed_world))) as Hj
    by (apply (bool_decide_unpack _); vm_compute; exact I).
  split; [vm_compute; reflexivity|].
  assert (forall n, fault_free (w_db crashed_world) (all_good n)) as Hff.
  { intros n. split; try reflexivity.
    - split; [vm_compute; discriminate|vm_compute; discriminate].
    - intros r j Hr _. apply Hj in Hr. exact Hr.
    - intros r rd Hr. exists sample_file, sample_config. split_and!; try reflexivity; [vm_compute; discriminate|].
      symmetry. by apply Hrd in Hr. }
  assert (restartable (w_db crashed_world)) as Hre.
  { split; [|split; vm_compute; discriminate]. intros rt Hrt. vm_compute in Hrt. injection Hrt as <-. reflexivity. }
  destruct (recovery_restores_service _ _ _ _ _ all_good (live_durable _ _ _ _ _ L) sample_started Hff Hre) as (H1 & _ & H2 & _).
  - intros r. by eexists.
  - split; [exact H1|]. rewrite <- Ha. exact H2.
Defined.
