(* ===== verification/Transaction.v ===== *)
(** * Transactions

    A statement of SQLite reads and changes tables of type [S] and may fail. A
    computation [Tx S E A] is a sequence of such statements inside one
    transaction: on an error it still says what the statements before it left,
    because the code may go on after a failed call and commit. [transaction]
    is the whole of it: the changes of a computation that fails are rolled
    back. *)
From S2P Require Import Prelude.

Definition Tx (S E A : Type) : Type := S -> result E A * S.
#[export] Instance tx_ret S E : MRet (Tx S E) := fun A a s => (Ok a, s).
#[export] Instance tx_bind S E : MBind (Tx S E) := fun A B f m s =>
  match m s with (Ok a, s) => f a s | (Err e, s) => (Err e, s) end.

Section Tx.
Context {S E : Type}.

(** A value or an error, reading the tables, changing them *)
Definition tx_lift {A} (r : result E A) : Tx S E A := fun s => (r, s).
Definition tx_read {A} (f : S -> A) : Tx S E A := fun s => (Ok (f s), s).
Definition tx_query {A} (f : S -> result E A) : Tx S E A := fun s => (f s, s).
Definition tx_write (f : S -> S) : Tx S E unit := fun s => (Ok tt, f s).
(** A statement whose constraints may refuse it *)
Definition tx_execute (f : S -> result E S) : Tx S E unit := fun s =>
  match f s with Ok s' => (Ok tt, s') | Err e => (Err e, s) end.
(** [m.is_err()] *)
Definition tx_is_ok {A} (m : Tx S E A) : Tx S E bool := fun s =>
  let '(r, s) := m s in (Ok (is_ok r), s).
(** [match self.f().await { Ok(..) => .., Err(..) => .. }] *)
Definition attempt_tx {F A} (m : Tx S F A) : Tx S E (result F A) := fun s => let '(r, s) := m s in (Ok r, s).
(** A loop over a list, which an error ends *)
Fixpoint tx_for_each {A} (f : A -> Tx S E unit) (l : list A) : Tx S E unit :=
  match l with
  | [] => mret tt
  | a :: l => _ ← f a; tx_for_each f l
  end.
Fixpoint tx_fold {A B} (f : B -> A -> Tx S E B) (acc : B) (l : list A) : Tx S E B :=
  match l with
  | [] => mret acc
  | a :: l => acc ← f acc a; tx_fold f acc l
  end.

(** [transaction_with_behavior], the body, [commit]; [working] is whether
    SQLite itself does its part *)
Definition transaction (broken : E) (working : bool) {A} (m : Tx S E A) : Tx S E A := fun s =>
  if working then match m s with (Ok a, s') => (Ok a, s') | (Err e, _) => (Err e, s) end
  else (Err broken, s).

(** ** Reasoning *)

(** [after m s Q]: [Q] holds of what [m] gives on [s]. *)
Definition after {E A} (m : Tx S E A) (s : S) (Q : result E A -> S -> Prop) : Prop := Q (m s).1 (m s).2.

Lemma after_mono {A} (m : Tx S E A) s (P Q : result E A -> S -> Prop) :
  after m s P -> (forall r s', P r s' -> Q r s') -> after m s Q.
Proof. unfold after. eauto. Qed.
Lemma after_ret {A} (a : A) s Q : Q (Ok a) s -> after (mret a : Tx S E A) s Q.
Proof. done. Qed.
Lemma after_bind {A B} (m : Tx S E A) (f : A -> Tx S E B) s Q :
  after m s (fun r s' => match r with Ok a => after (f a) s' Q | Err e => Q (Err e) s' end) ->
  after (m ≫= f) s Q.
Proof. unfold after, mbind, tx_bind. by destruct (m s) as [[a|e] s']. Qed.
Lemma after_lift {A} (r : result E A) s Q : Q r s -> after (tx_lift r) s Q.
Proof. done. Qed.
Lemma after_read {A} (f : S -> A) s Q : Q (Ok (f s)) s -> after (tx_read f) s Q.
Proof. done. Qed.
Lemma after_query {A} (f : S -> result E A) s Q : Q (f s) s -> after (tx_query f) s Q.
Proof. done. Qed.
Lemma after_write (f : S -> S) s Q : Q (Ok tt) (f s) -> after (tx_write f) s Q.
Proof. done. Qed.
Lemma after_execute (f : S -> result E S) s Q :
  (forall s', f s = Ok s' -> Q (Ok tt) s') -> (forall e, f s = Err e -> Q (Err e) s) ->
  after (tx_execute f) s Q.
Proof. unfold after, tx_execute. destruct (f s); eauto. Qed.
Lemma after_is_ok {A} (m : Tx S E A) s (Q : result E bool -> S -> Prop) :
  after m s (fun r s' => Q (Ok (is_ok r)) s') -> after (tx_is_ok m) s Q.
Proof. unfold after, tx_is_ok. by destruct (m s). Qed.
Lemma after_attempt {F A} (m : Tx S F A) s (Q : result E (result F A) -> S -> Prop) :
  after m s (fun r s' => Q (Ok r) s') -> after (attempt_tx m) s Q.
Proof. unfold after, attempt_tx. by destruct (m s). Qed.

(** An invariant of a loop holds at its end, whether or not it ran through. *)
Lemma after_for_each {A} (f : A -> Tx S E unit) (I : list A -> S -> Prop) (F : E -> S -> Prop) l s :
  I l s ->
  (forall a k s, (exists done, l = done ++ a :: k) -> I (a :: k) s ->
     after (f a) s (fun r s' => match r with Ok _ => I k s' | Err e => F e s' end)) ->
  after (tx_for_each f l) s (fun r s' => match r with Ok _ => I [] s' | Err e => F e s' end).
Proof.
  revert s. induction l as [|a l IH]; intros s HI Hf; cbn [tx_for_each]; [done|].
  apply after_bind. eapply after_mono; [apply Hf; [by exists []|done]|].
  intros [[]|e] s' Hs'; [|done]. apply IH; [done|].
  intros b k s1 [pre ->]. apply Hf. by exists (a :: pre).
Qed.

(** What is committed is what the body left, and only when it succeeded. *)
Lemma after_transaction {A} broken working (m : Tx S E A) s (Q : result E A -> S -> Prop) :
  (forall e, Q (Err e) s) -> (forall a s', m s = (Ok a, s') -> Q (Ok a) s') ->
  after (transaction broken working m) s Q.
Proof.
  intros He Ho. unfold after, transaction. destruct working; [|apply He].
  destruct (m s) as [[a|e] s'] eqn:Em; [by apply Ho|apply He].
Qed.
Lemma after_transaction_body {A} broken working (m : Tx S E A) s (Q : result E A -> S -> Prop) :
  (forall e, Q (Err e) s) ->
  after m s (fun r s' => match r with Ok a => Q (Ok a) s' | Err _ => True end) ->
  after (transaction broken working m) s Q.
Proof.
  intros He Hm. apply after_transaction; [done|]. intros a s' E'. unfold after in Hm. by rewrite E' in Hm.
Qed.
End Tx.

(** One step through a computation *)
Ltac tx_step :=
  match goal with
  | |- after (mbind _ _) _ _ => apply after_bind
  | |- after (mret _) _ _ => apply after_ret
  | |- after (tx_lift _) _ _ => apply after_lift
  | |- after (tx_read _) _ _ => apply after_read
  | |- after (tx_query _) _ _ => apply after_query
  | |- after (tx_write _) _ _ => apply after_write
  | |- after (tx_execute _) _ _ => apply after_execute
  | |- after (attempt_tx _) _ _ => apply after_attempt
  | |- after (if ?b then _ else _) _ _ => let H := fresh "Hif" in destruct b eqn:H
  end.

(** ** Runs that succeed *)
Section Runs.
Context {S E : Type}.
Implicit Types s : S.

Lemma run_bind {A B} (m : Tx S E A) (f : A -> Tx S E B) s b s' :
  (m ≫= f) s = (Ok b, s') -> exists a s1, m s = (Ok a, s1) /\ f a s1 = (Ok b, s').
Proof. unfold mbind, tx_bind. destruct (m s) as [[a|e] s1]; [by eauto|done]. Qed.
Lemma run_ret {A} (a b : A) s s' : (mret a : Tx S E A) s = (Ok b, s') -> b = a /\ s' = s.
Proof. intros H. by injection H as <- <-. Qed.
Lemma run_lift {A} (r : result E A) b s s' : tx_lift r s = (Ok b, s') -> r = Ok b /\ s' = s.
Proof. intros H. by injection H as -> <-. Qed.
Lemma run_read {A} (f : S -> A) b s s' : (tx_read f : Tx S E A) s = (Ok b, s') -> b = f s /\ s' = s.
Proof. intros H. by injection H as <- <-. Qed.
Lemma run_query {A} (f : S -> result E A) b s s' : tx_query f s = (Ok b, s') -> f s = Ok b /\ s' = s.
Proof. intros H. by injection H as -> <-. Qed.
Lemma run_write (f : S -> S) u s s' : (tx_write f : Tx S E unit) s = (Ok u, s') -> s' = f s.
Proof. intros H. by injection H as _ <-. Qed.
Lemma run_execute (f : S -> result E S) u s s' : tx_execute f s = (Ok u, s') -> f s = Ok s'.
Proof. unfold tx_execute. destruct (f s); intros H; [by injection H as _ <-|done]. Qed.
Lemma run_transaction {A} broken working (m : Tx S E A) a s s' :
  transaction broken working m s = (Ok a, s') -> m s = (Ok a, s').
Proof. unfold transaction. destruct working; [|done]. by destruct (m s) as [[]]. Qed.
Lemma transaction_rolled_back {A} broken working (m : Tx S E A) e s s' :
  transaction broken working m s = (Err e, s') -> s' = s.
Proof. unfold transaction. destruct working; [destruct (m s) as [[]]|]; intros H; by inversion H. Qed.
Lemma failed_lift {A B} (r : result E A) (f : A -> Tx S E B) e s s' :
  (tx_lift r ≫= f) s = (Err e, s') -> (forall a, f a s = (Err e, s') -> s' = s) -> s' = s.
Proof. unfold mbind, tx_bind, tx_lift. destruct r; intros H Hf; [by eapply Hf|by injection H]. Qed.

(** A loop that ran through: what each round keeps of what was done *)
Lemma run_fold {A B} (f : B -> A -> Tx S E B) (I : list A -> B -> S -> Prop) l acc s r s' :
  tx_fold f acc l s = (Ok r, s') -> I [] acc s ->
  (forall done a rest acc s acc' s', l = done ++ a :: rest -> I done acc s -> f acc a s = (Ok acc', s') -> I (done ++ [a]) acc' s') ->
  I l r s'.
Proof.
  intros H H0 Hf. assert (forall rest done acc s, l = done ++ rest -> I done acc s -> tx_fold f acc rest s = (Ok r, s') -> I l r s') as G.
  { induction rest as [|a rest IH]; intros d acc1 s1 El Hd Hr; cbn [tx_fold] in Hr.
    - apply run_ret in Hr as [-> ->]. by rewrite El, app_nil_r.
    - apply run_bind in Hr as (acc2 & s2 & Ha & Hr). eapply (IH (d ++ [a])); [by rewrite <- app_assoc| |done]. by eapply Hf. }
  by eapply (G l []).
Qed.
Lemma run_for_each {A} (f : A -> Tx S E unit) (I : list A -> S -> Prop) l u s s' :
  tx_for_each f l s = (Ok u, s') -> I [] s ->
  (forall done a rest s u s', l = done ++ a :: rest -> I done s -> f a s = (Ok u, s') -> I (done ++ [a]) s') -> I l s'.
Proof.
  intros H H0 Hf. assert (forall rest done s, l = done ++ rest -> I done s -> tx_for_each f rest s = (Ok u, s') -> I l s') as G.
  { induction rest as [|a rest IH]; intros d s1 El Hd Hr; cbn [tx_for_each] in Hr.
    - apply run_ret in Hr as [_ ->]. by rewrite El, app_nil_r.
    - apply run_bind in Hr as (u1 & s2 & Ha & Hr). eapply (IH (d ++ [a])); [by rewrite <- app_assoc| |done]. by eapply Hf. }
  by eapply (G l []).
Qed.
End Runs.

(** From a run that succeeded to the runs of its statements *)
Ltac tx_inv :=
  repeat match goal with
  | H : mbind _ _ _ = (Ok _, _) |- _ => apply run_bind in H as (? & ? & ? & H)
  | H : mret _ _ = (Ok _, _) |- _ => apply run_ret in H as [? ?]; simplify_eq
  | H : tx_lift _ _ = (Ok _, _) |- _ => apply run_lift in H as [? ?]; simplify_eq
  | H : tx_read _ _ = (Ok _, _) |- _ => apply run_read in H as [? ?]; simplify_eq
  | H : tx_query _ _ = (Ok _, _) |- _ => apply run_query in H as [? ?]; simplify_eq
  | H : tx_write _ _ = (Ok _, _) |- _ => apply run_write in H; simplify_eq
  | H : tx_execute _ _ = (Ok _, _) |- _ => apply run_execute in H
  | H : transaction _ _ _ _ = (Ok _, _) |- _ => apply run_transaction in H
  | H : mbind _ _ = Ok _ |- _ => apply bind_Ok in H as (? & ? & ?)
  | H : ensure _ _ = Ok _ |- _ => apply ensure_Ok in H
  | H : ok_or _ _ = Ok _ |- _ => apply ok_or_Ok in H
  | H : map_err _ _ = Ok _ |- _ => apply map_err_Ok in H
  | H : Ok _ = Ok _ |- _ => injection H as H; simplify_eq
  end.

(** A call that is some checks and then one transaction changes nothing when it fails *)
Ltac fails_cleanly :=
  repeat match goal with
  | |- forall _, _ => intro
  | H : mbind _ (tx_lift _) _ = (Err _, _) |- _ => apply (failed_lift _ _ _ _ _ H); clear H
  | H : transaction _ _ _ _ = (Err _, _) |- _ => exact (transaction_rolled_back _ _ _ _ _ _ H)
  end.
