(* ===== verification/NodePolicy.v ===== *)
(** * The provider's policy

    [src/node-host/src/policy.rs]: the limits a provider sets on their own node
    (pause, weekly schedule, monthly transfer cap), the month's usage with its
    clock that never goes back, and the manual endpoint. The tables are those
    of migration 16 in [src/node-host/src/lib.rs]; every operation is a
    transaction on them. The fields of a date come from the [time] crate and
    are parameters, as is [serde_json]. *)
From S2P Require Import Prelude Text Clock ProtoTypes ProtoAuth ProtoNode ProtoTelemetry NodeHostDb NodeHostRuntime Transaction.
From stdpp Require Import pretty.
Open Scope Z_scope.

(** ** Dates *)

Inductive Weekday : Type := Monday | Tuesday | Wednesday | Thursday | Friday | Saturday | Sunday.

(** [OffsetDateTime::weekday], [hour], [minute] *)
Class DayFields : Type := {
  weekday : OffsetDateTime -> Weekday;
  hour : OffsetDateTime -> Z;
  minute : OffsetDateTime -> Z;
}.

(** [iso_weekday], [next_weekday] *)
Definition iso_weekday (day : Weekday) : Z :=
  match day with
  | Monday => 1 | Tuesday => 2 | Wednesday => 3 | Thursday => 4 | Friday => 5 | Saturday => 6 | Sunday => 7
  end.
Definition next_weekday (day : Z) : Z := if day =? 7 then 1 else day + 1.

(** The UTC day and time of an instant; 1970-01-01 was a Thursday. *)
Definition unix_day (t : OffsetDateTime) : Z := instant t / NANOS_PER_DAY.
Class DayFieldsLaws (D : DayFields) : Prop := {
  weekday_utc t : offset t = 0 -> iso_weekday (weekday t) = (unix_day t + 3) mod 7 + 1;
  hour_utc t : offset t = 0 -> hour t = instant t / (3600 * NANOS) mod 24;
  minute_utc t : offset t = 0 -> minute t = instant t / (60 * NANOS) mod 60;
}.

(** [OffsetDateTime::from_unix_timestamp] and [unix_timestamp] *)
Definition from_unix_timestamp (value : Z) : host_result OffsetDateTime :=
  _ ← ensure ((-377705116800 <=? value) && (value <=? 253402300799)) System;
  Ok (mkTime (value * NANOS) 0).
Definition to_unix (t : OffsetDateTime) : Z := instant t / NANOS.

(** [{:04}] and [{:02}] *)
Definition zero_padded (width : nat) (n : Z) : list byte :=
  if n <? 0 then
    let digits := as_bytes (pretty (Z.to_N (- n))) in
    "-"%byte :: replicate (width - 1 - length digits) "0"%byte ++ digits
  else
    let digits := as_bytes (pretty (Z.to_N n)) in
    replicate (width - length digits) "0"%byte ++ digits.

(** [<] on [String]: bytes, compared from the first *)
Fixpoint bytes_lt (a b : list byte) : bool :=
  match a, b with
  | _, [] => false
  | [], _ :: _ => true
  | x :: a, y :: b =>
      if byte_to_Z x <? byte_to_Z y then true
      else if byte_to_Z y <? byte_to_Z x then false
      else bytes_lt a b
  end.
Definition string_lt (a b : string) : bool := bytes_lt (as_bytes a) (as_bytes b).

(** ** The policy *)

Definition PROVIDER_POLICY_SCHEMA_VERSION : Z := 1.
Definition MAX_SCHEDULE_WINDOWS : Z := 64.
Definition MAX_CONCURRENT_SESSIONS : Z := 4096.
Definition MIN_MONTHLY_CAP_BYTES : Z := 1024 * 1024.
Definition MAX_BANDWIDTH_LIMIT_BPS : Z := 10000000000.
Definition MIN_BANDWIDTH_LIMIT_BPS : Z := 8000.
Definition MIN_MANUAL_ENDPOINT_TTL_SECONDS : Z := 60.
Definition MAX_MANUAL_ENDPOINT_TTL_SECONDS : Z := 30 * 24 * 60 * 60.
Definition USAGE_COVERAGE : string := "xrayObservedLowerBound".

Record WeeklyScheduleWindow : Type := mkWindow {
  ws_weekday : Z;
  ws_start_minute : Z;
  ws_end_minute : Z;
}.
Record ProviderPolicy : Type := mkPolicy {
  pp_schema_version : Z;
  pp_paused : bool;
  pp_weekly_schedule : list WeeklyScheduleWindow;
  pp_monthly_transfer_cap_bytes : option Z;
  pp_max_concurrent_sessions : Z;
  pp_bandwidth_limit_bps : option Z;
}.
Definition default_policy : ProviderPolicy :=
  mkPolicy PROVIDER_POLICY_SCHEMA_VERSION false [] (Some (100 * 1024 * 1024 * 1024)) 16 (Some 20000000).

(** [WeeklyScheduleWindow::validate] *)
Definition window_validate (w : WeeklyScheduleWindow) : host_result unit :=
  _ ← ensure ((1 <=? ws_weekday w) && (ws_weekday w <=? 7))
        (Bail "weekly schedule weekday must be between 1 and 7");
  _ ← ensure (negb ((1439 <? ws_start_minute w) || (1439 <? ws_end_minute w)))
        (Bail "weekly schedule minutes must be between 0 and 1439");
  ensure (negb (ws_start_minute w =? ws_end_minute w))
    (Bail "weekly schedule window cannot have equal start and end minutes").

(** [Option::is_some_and] *)
Definition some_and {A} (o : option A) (f : A -> bool) : bool := match o with Some a => f a | None => false end.

(** [ProviderPolicy::validate] *)
Definition policy_validate (p : ProviderPolicy) : host_result unit :=
  _ ← ensure (pp_schema_version p =? PROVIDER_POLICY_SCHEMA_VERSION)
        (Bail "unsupported provider policy schema version");
  _ ← ensure (zlen (pp_weekly_schedule p) <=? MAX_SCHEDULE_WINDOWS)
        (Bail "provider policy has too many weekly schedule windows");
  _ ← try_for_each window_validate (pp_weekly_schedule p);
  _ ← ensure (negb (some_and (pp_monthly_transfer_cap_bytes p)
                      (fun cap => negb ((MIN_MONTHLY_CAP_BYTES <=? cap) && (cap <=? i64_max)))))
        (Bail "monthly transfer cap must be at least 1 MiB and fit local counters");
  _ ← ensure (negb ((pp_max_concurrent_sessions p =? 0)
                    || (MAX_CONCURRENT_SESSIONS <? pp_max_concurrent_sessions p)))
        (Bail "maximum concurrent sessions must be between 1 and 4096");
  ensure (negb (some_and (pp_bandwidth_limit_bps p)
                  (fun limit => negb ((MIN_BANDWIDTH_LIMIT_BPS <=? limit) && (limit <=? MAX_BANDWIDTH_LIMIT_BPS)))))
    (Bail "bandwidth limit must be between 8000 and 10000000000 bits per second").

(** ** Status *)

Inductive ProviderAvailability : Type := Available | ProviderPaused | OutsideSchedule | TransferCapReached.
#[export] Instance ProviderAvailability_eq_dec : EqDecision ProviderAvailability.
Proof. solve_decision. Defined.

Record ProviderMonthUsage : Type := mkMonthUsage {
  mu_utc_month : string;
  mu_observed_bytes : Z;
  mu_cap_bytes : option Z;
  mu_remaining_bytes : option Z;
  mu_coverage : string;
  mu_last_observed_at : option OffsetDateTime;
}.
Record ManualEndpointStatus : Type := mkManualStatus {
  me_configured : bool;
  me_current : bool;
  me_applied_revision : option Z;
  me_expires_at : option OffsetDateTime;
}.
Record ProviderPolicyStatus : Type := mkStatus {
  st_policy : ProviderPolicy;
  st_generation : Z;
  st_updated_at : OffsetDateTime;
  st_availability : ProviderAvailability;
  st_month_usage : ProviderMonthUsage;
  st_manual_endpoint : ManualEndpointStatus;
}.

(** [ProviderPolicyStatus::validate] *)
Definition status_validate (s : ProviderPolicyStatus) : host_result unit :=
  let usage := st_month_usage s in
  let manual := st_manual_endpoint s in
  _ ← policy_validate (st_policy s);
  _ ← ensure (negb ((st_generation s =? 0)
                    || negb (str_len (mu_utc_month usage) =? 7)
                    || negb (bool_decide (as_bytes (mu_utc_month usage) !! 4%nat = Some "-"%byte))
                    || negb (bool_decide (mu_coverage usage = USAGE_COVERAGE))))
        (Bail "provider policy status metadata is invalid");
  let expected_remaining := (fun cap => saturating_sub cap (mu_observed_bytes usage)) <$> mu_cap_bytes usage in
  ensure (negb (negb (bool_decide (mu_cap_bytes usage = pp_monthly_transfer_cap_bytes (st_policy s)))
                || negb (bool_decide (mu_remaining_bytes usage = expected_remaining))
                || (me_current manual && negb (me_configured manual))
                || negb (Bool.eqb (me_configured manual) (bool_decide (is_Some (me_applied_revision manual))))
                || negb (Bool.eqb (me_configured manual) (bool_decide (is_Some (me_expires_at manual))))))
    (Bail "provider policy status is inconsistent").

(** ** The manual endpoint's address *)

Definition ipv4_of (octets : list Z) : Ipv4Addr :=
  match octets with [a; b; c; d] => mkIpv4 a b c d | _ => mkIpv4 0 0 0 0 end.
(** [Ipv6Addr::to_ipv4_mapped] *)
Definition to_ipv4_mapped (segments : list Z) : option Ipv4Addr :=
  match segments with
  | [0; 0; 0; 0; 0; 0xffff; ab; cd] => Some (mkIpv4 (ab / 256) (ab mod 256) (cd / 256) (cd mod 256))
  | _ => None
  end.
(** [is_public_ip] *)
Definition is_public_v4 (a : Ipv4Addr) : bool :=
  negb (v4_is_private a || v4_is_loopback a || v4_is_link_local a || v4_is_broadcast a
        || v4_is_documentation a || v4_is_unspecified a
        || (oct0 a =? 0) || (224 <=? oct0 a)
        || ((oct0 a =? 100) && v4_between 64 (oct1 a) 127)
        || ((oct0 a =? 192) && (oct1 a =? 0) && (oct2 a =? 0))
        || ((oct0 a =? 192) && (oct1 a =? 88) && (oct2 a =? 99))
        || ((oct0 a =? 198) && v4_between 18 (oct1 a) 19)).
Definition segment (segments : list Z) (i : nat) : Z := default 0 (segments !! i).
Definition is_public_v6 (s : list Z) : bool :=
  negb (is_loopback (V6 s)
        || bool_decide (s = replicate 8 0)
        || (Z.land (segment s 0) 0xfe00 =? 0xfc00)
        || (Z.land (segment s 0) 0xffc0 =? 0xfe80)
        || (segment s 0 / 256 =? 0xff)
        || ((segment s 0 =? 0x2001) && (segment s 1 =? 0x0db8))
        || (Z.land (segment s 0) 0xffc0 =? 0xfec0)).
Definition is_public_ip (ip : IpAddr) : bool :=
  match ip with
  | V4 octets => is_public_v4 (ipv4_of octets)
  | V6 segments =>
      match to_ipv4_mapped segments with
      | Some ipv4 => is_public_v4 ipv4
      | None => is_public_v6 segments
      end
  end.

(** [eq_ignore_ascii_case("local")] *)
Definition to_ascii_lowercase (b : byte) : byte :=
  if is_ascii_uppercase b then byte_of_Z (byte_to_Z b + 32) else b.
Definition host_label (label : list byte) : bool :=
  negb (bool_decide (label = [])) && (zlen label <=? 63)
  && negb (starts_with ["-"%byte] label) && negb (ends_with ["-"%byte] label)
  && forallb (fun b => is_ascii_alphanumeric b || bool_decide (b = "-"%byte)) label.

(** [validate_endpoint_address] *)
Definition validate_endpoint_address (address : string) : host_result unit :=
  let l := as_bytes address in
  _ ← ensure (negb (bool_decide (l = []) || (253 <? zlen l) || contains_byte "/"%byte l
                    || existsb is_whitespace (chars l)))
        (Bail "manual endpoint address must be a hostname or unbracketed IP address");
  match parse_ip l with
  | Some ip => ensure (is_public_ip ip) (Bail "manual endpoint IP address must be publicly routable")
  | None =>
      let labels := split_on "."%byte l in
      ensure (negb (contains_byte ":"%byte l || ends_with ["."%byte] l || (zlen labels <? 2)
                    || some_and (last labels)
                         (fun label => bool_decide (to_ascii_lowercase <$> label = as_bytes "local"))
                    || negb (forallb host_label labels)))
        (Bail "manual endpoint hostname is invalid")
  end.

Record ManualEndpointInput : Type := mkManualInput {
  mi_address : string;
  mi_public_port : Z;
  mi_forwarded_local_port : Z;
  mi_ttl_seconds : Z;
}.
(** [ManualEndpointInput::validate] *)
Definition input_validate (i : ManualEndpointInput) : host_result unit :=
  _ ← validate_endpoint_address (mi_address i);
  _ ← ensure (negb ((mi_public_port i =? 0) || (mi_forwarded_local_port i =? 0)))
        (Bail "manual endpoint ports must be non-zero");
  ensure ((MIN_MANUAL_ENDPOINT_TTL_SECONDS <=? mi_ttl_seconds i)
          && (mi_ttl_seconds i <=? MAX_MANUAL_ENDPOINT_TTL_SECONDS))
    (Bail "manual endpoint TTL must be between 60 seconds and 30 days").

(** ** Tables *)

(** [provider_policy], [provider_month_usage], [provider_manual_endpoint] *)
Record PolicyRow : Type := mkPolicyRow {
  po_policy_json : string;
  po_generation : Z;
  po_updated_at : Z;
}.
Record UsageRow : Type := mkUsageRow {
  us_utc_month : string;
  us_observed_bytes : Z;
  us_clock_high_watermark : Z;
  us_last_observed_at : option Z;
}.
Record ManualRow : Type := mkManualRow {
  ma_endpoint_id : string;
  ma_address : string;
  ma_public_port : Z;
  ma_forwarded_local_port : Z;
  ma_applied_revision : Z;
  ma_observed_at : Z;
  ma_expires_at : Z;
}.
Record Provider : Type := mkProvider {
  pv_policy : option PolicyRow;
  pv_usage : option UsageRow;
  pv_manual : option ManualRow;
}.
Definition set_policy r p := mkProvider r (pv_usage p) (pv_manual p).
Definition set_usage r p := mkProvider (pv_policy p) r (pv_manual p).
Definition set_manual r p := mkProvider (pv_policy p) (pv_usage p) r.

(** [unix_timestamp], given what the system clock shows in nanoseconds *)
Definition unix_seconds (wall : Z) : host_result Z :=
  _ ← ensure (0 <=? wall) (Wrap "system clock is before the Unix epoch" System);
  _ ← ensure (wall / NANOS <=? i64_max) (Wrap "current timestamp does not fit SQLite INTEGER" System);
  Ok (wall / NANOS).

(** One call into the operating system: whether SQLite works, and the time the
    system clock shows *)
Record Outside : Type := mkOutside { ot_database : bool; ot_wall : Z }.
Definition now_utc (o : Outside) : OffsetDateTime := mkTime (ot_wall o) 0.

(** [serde_json] on the policy *)
Class PolicyJson : Type := {
  policy_to_string : ProviderPolicy -> option string;
  policy_from_str : string -> option ProviderPolicy;
}.
Class PolicyJsonLaws (J : PolicyJson) : Prop := {
  policy_read_back p s : policy_to_string p = Some s -> policy_from_str s = Some p;
}.

Section Policy.
Context `{Cal : Calendar} `{Day : DayFields} `{Json : PolicyJson} `{Ids : UuidText}.

(** [month_key] *)
Definition month_key (t : OffsetDateTime) : string :=
  str_of_bytes (zero_padded 4 (year t) ++ "-"%byte :: zero_padded 2 (month t)).

(** [WeeklyScheduleWindow::contains], [ProviderPolicy::schedule_allows] *)
Definition window_contains (w : WeeklyScheduleWindow) (now : OffsetDateTime) : bool :=
  let day := iso_weekday (weekday now) in
  let at_minute := hour now * 60 + minute now in
  if ws_start_minute w <? ws_end_minute w then
    (day =? ws_weekday w) && (ws_start_minute w <=? at_minute) && (at_minute <? ws_end_minute w)
  else
    ((day =? ws_weekday w) && (ws_start_minute w <=? at_minute))
    || ((day =? next_weekday (ws_weekday w)) && (at_minute <? ws_end_minute w)).
Definition schedule_allows (p : ProviderPolicy) (now : OffsetDateTime) : bool :=
  bool_decide (length (pp_weekly_schedule p) = 0%nat)
  || existsb (fun window => window_contains window now) (pp_weekly_schedule p).

(** ** Reading the tables *)

(** [load_usage_row] *)
Definition load_usage_row (p : Provider) : host_result UsageRow :=
  ok_or (pv_usage p) (Wrap "provider month usage state is missing" Sqlite).

(** [current_applied_revision] *)
Definition current_applied_revision (db : Db) : host_result (option Z) :=
  match ac_applied_revision (active db) with
  | None => Ok None
  | Some r => r ← map_err (fun _ => Wrap "stored applied revision is invalid" System) (positive_new r); Ok (Some r)
  end.

(** [load_manual_status] *)
Definition load_manual_status (p : Provider) (applied_revision : option Z) (now : Z)
    : host_result ManualEndpointStatus :=
  match pv_manual p with
  | None => Ok (mkManualStatus false false None None)
  | Some row =>
      revision ← map_err (fun _ => Wrap "stored manual endpoint revision is invalid" System)
                   (positive_new (ma_applied_revision row));
      expires_at ← timestamp_from_unix (ma_expires_at row);
      Ok (mkManualStatus true
            (bool_decide (applied_revision = Some revision) && (now <? ma_expires_at row))
            (Some revision) (Some expires_at))
  end.

(** The chain of conditions in [load_status_components] *)
Definition availability (policy : ProviderPolicy) (effective_now : OffsetDateTime) (observed_bytes : Z)
    : ProviderAvailability :=
  if pp_paused policy then ProviderPaused
  else if negb (schedule_allows policy effective_now) then OutsideSchedule
  else if some_and (pp_monthly_transfer_cap_bytes policy) (fun cap => cap <=? observed_bytes) then TransferCapReached
  else Available.

(** [load_status_components] *)
Definition load_status_components (db : Db) (p : Provider) (effective_now : OffsetDateTime) (month_name : string)
    (bytes : Z) (last_observed_at : option Z) : host_result ProviderPolicyStatus :=
  row ← ok_or (pv_policy p) Sqlite;
  policy ← ok_or (policy_from_str (po_policy_json row)) (Wrap "stored provider policy is invalid" Serde);
  _ ← policy_validate policy;
  observed_bytes ← ok_or (try_from u64_max bytes) (Wrap "stored provider usage is invalid" System);
  let open := availability policy effective_now observed_bytes in
  let cap := pp_monthly_transfer_cap_bytes policy in
  applied_revision ← current_applied_revision db;
  manual ← load_manual_status p applied_revision (to_unix effective_now);
  let manual :=
    if bool_decide (open = Available) then manual
    else mkManualStatus (me_configured manual) false (me_applied_revision manual) (me_expires_at manual) in
  generation ← ok_or (try_from u64_max (po_generation row)) (Wrap "stored policy generation is invalid" System);
  updated_at ← timestamp_from_unix (po_updated_at row);
  last ← match last_observed_at with
         | None => Ok None
         | Some at_ => t ← timestamp_from_unix at_; Ok (Some t)
         end;
  let status := mkStatus policy generation updated_at open
    (mkMonthUsage month_name observed_bytes cap
       ((fun value => saturating_sub value observed_bytes) <$> cap) USAGE_COVERAGE last) manual in
  _ ← status_validate status;
  Ok status.

(** The month and the bytes a stored row stands for at a time *)
Definition usage_at (row : UsageRow) (effective_month : string) : string * Z :=
  if bool_decide (us_utc_month row = EmptyString) || string_lt (us_utc_month row) effective_month
  then (effective_month, 0) else (us_utc_month row, us_observed_bytes row).

(** [load_status_at] *)
Definition load_status_at (db : Db) (p : Provider) (observed_now : OffsetDateTime)
    : host_result ProviderPolicyStatus :=
  row ← load_usage_row p;
  effective_now ← from_unix_timestamp (Z.max (to_unix observed_now) (us_clock_high_watermark row));
  let '(month_name, bytes) := usage_at row (month_key effective_now) in
  load_status_components db p effective_now month_name bytes (us_last_observed_at row).

(** [allows_advertising]; a database without the tables is [None] *)
Definition allows_advertising (db : Db) (tables : option Provider) (observed_now : OffsetDateTime)
    : host_result bool :=
  match tables with
  | None => Ok true
  | Some p => status ← load_status_at db p observed_now; Ok (bool_decide (st_availability status = Available))
  end.

(** ** Transactions *)

(** [UPDATE provider_month_usage], with the constraints of the table *)
Definition update_usage (row : UsageRow) (p : Provider) : host_result Provider :=
  _ ← ensure (bool_decide (us_utc_month row = EmptyString) || (str_len (us_utc_month row) =? 7)) Sqlite;
  _ ← ensure (0 <=? us_observed_bytes row) Sqlite;
  _ ← ensure (0 <=? us_clock_high_watermark row) Sqlite;
  Ok (match pv_usage p with Some _ => set_usage (Some row) p | None => p end).

(** [evaluate_and_checkpoint] *)
Definition evaluate_and_checkpoint (db : Db) (working : bool) (observed_now : OffsetDateTime)
    : Tx Provider HostError ProviderPolicyStatus :=
  transaction Sqlite working
    (row ← tx_query load_usage_row;
     let effective_unix := Z.max (to_unix observed_now) (us_clock_high_watermark row) in
     effective_now ← tx_lift (from_unix_timestamp effective_unix);
     let '(month_name, bytes) := usage_at row (month_key effective_now) in
     _ ← tx_execute (update_usage (mkUsageRow month_name bytes effective_unix (us_last_observed_at row)));
     tx_query (fun p => load_status_components db p effective_now month_name bytes (us_last_observed_at row))).

(** [evaluate], [provider_policy_status] *)
Definition evaluate (db : Db) (o : Outside) : Tx Provider HostError ProviderPolicyStatus :=
  evaluate_and_checkpoint db (ot_database o) (now_utc o).

(** [configure_provider_policy]; the clock is read once more for the answer *)
Definition configure_provider_policy (db : Db) (o later : Outside) (policy : ProviderPolicy)
    : Tx Provider HostError ProviderPolicyStatus :=
  _ ← tx_lift (policy_validate policy);
  now ← tx_lift (unix_seconds (ot_wall o));
  policy_json ← tx_lift (ok_or (policy_to_string policy) Serde);
  _ ← transaction Sqlite (ot_database o)
        (row ← tx_query (fun p => ok_or (pv_policy p) (Bail "provider policy is missing"));
         tx_execute (fun p =>
           generation ← ok_or (checked_next (po_generation row)) Sqlite;
           Ok (set_policy (Some (mkPolicyRow policy_json generation now)) p)));
  evaluate db later.

(** [set_pause], which [pause_provider] and [resume_provider] call *)
Definition set_pause (db : Db) (before o later : Outside) (paused : bool)
    : Tx Provider HostError ProviderPolicyStatus :=
  current ← evaluate db before;
  let policy := st_policy current in
  configure_provider_policy db o later
    (mkPolicy (pp_schema_version policy) paused (pp_weekly_schedule policy)
       (pp_monthly_transfer_cap_bytes policy) (pp_max_concurrent_sessions policy) (pp_bandwidth_limit_bps policy)).

(** [record_usage_delta_in_transaction] *)
Definition record_usage_delta (delta_bytes observed_at : Z) : Tx Provider HostError unit :=
  _ ← tx_lift (ensure (0 <=? delta_bytes) (Bail "provider usage delta cannot be negative"));
  row ← tx_query load_usage_row;
  let effective_unix := Z.max observed_at (us_clock_high_watermark row) in
  effective_now ← tx_lift (from_unix_timestamp effective_unix);
  let effective_month := month_key effective_now in
  let base := (usage_at row effective_month).2 in
  total ← tx_lift (ok_or (checked_add i64_max base delta_bytes) (Bail "provider monthly usage counter overflow"));
  tx_execute (update_usage (mkUsageRow effective_month total effective_unix (Some observed_at))).

(** ** The manual endpoint *)

(** The constraints of [provider_manual_endpoint] *)
Definition manual_row_ok (db : Db) (row : ManualRow) : bool :=
  (str_len (ma_endpoint_id row) =? 36)
  && (1 <=? zlen (chars (as_bytes (ma_address row)))) && (zlen (chars (as_bytes (ma_address row))) <=? 253)
  && (1 <=? ma_public_port row) && (ma_public_port row <=? 65535)
  && (1 <=? ma_forwarded_local_port row) && (ma_forwarded_local_port row <=? 65535)
  && bool_decide (is_Some (artifacts db !! ma_applied_revision row))
  && (ma_observed_at row <? ma_expires_at row).

(** [current_admission_target], [admission_forward_port] *)
Definition current_admission_target (db : Db) (load_validated_candidate : Z -> host_result ValidatedXrayCandidate)
    : host_result (Z * Z) :=
  applied_revision ← current_applied_revision db;
  revision ← present_or "manual endpoint requires a current applied revision" applied_revision;
  candidate ← load_validated_candidate revision;
  Ok (revision, vc_listen_port candidate).

(** [configure_manual_endpoint]; [new_id] is what [EndpointId::new] draws *)
Definition configure_manual_endpoint (db : Db) (load_validated_candidate : Z -> host_result ValidatedXrayCandidate)
    (o : Outside) (new_id : Uuid) (input : ManualEndpointInput) : Tx Provider HostError ManualEndpointStatus :=
  _ ← tx_lift (input_validate input);
  target ← tx_lift (current_admission_target db load_validated_candidate);
  _ ← tx_lift (ensure (mi_forwarded_local_port input =? target.2)
        (Bail "manual forwarding local port does not match the current applied revision"));
  now ← tx_lift (unix_seconds (ot_wall o));
  expires_at ← tx_lift (present_or "manual endpoint expiry overflow" (checked_add i64_max now (mi_ttl_seconds input)));
  let row := mkManualRow (uuid_to_string new_id) (mi_address input) (mi_public_port input)
               (mi_forwarded_local_port input) target.1 now expires_at in
  _ ← transaction Sqlite (ot_database o)
        (tx_execute (fun p => _ ← ensure (manual_row_ok db row) Sqlite; Ok (set_manual (Some row) p)));
  tx_query (fun p => load_manual_status p (Some target.1) now).

(** [clear_manual_endpoint] *)
Definition clear_manual_endpoint (o : Outside) : Tx Provider HostError unit :=
  transaction Sqlite (ot_database o) (tx_write (set_manual None)).

(** [carry_manual_endpoint_forward] *)
Definition carry_manual_endpoint_forward (db : Db) (o : Outside) (new_id : Uuid)
    (applied_revision forwarded_local_port : Z) : Tx Provider HostError bool :=
  _ ← tx_lift (ensure (negb (forwarded_local_port =? 0)) (Bail "manual forwarding local port must be non-zero"));
  now ← tx_lift (unix_seconds (ot_wall o));
  transaction Sqlite (ot_database o)
    (existing ← tx_read pv_manual;
     match existing with
     | None => mret false
     | Some row =>
         if (ma_applied_revision row =? applied_revision) || negb (ma_forwarded_local_port row =? forwarded_local_port)
            || (ma_expires_at row <=? now)
         then mret false
         else
           let row' := mkManualRow (uuid_to_string new_id) (ma_address row) (ma_public_port row)
                         (ma_forwarded_local_port row) applied_revision now (ma_expires_at row) in
           _ ← tx_execute (fun p => _ ← ensure (manual_row_ok db row') Sqlite; Ok (set_manual (Some row') p));
           mret true
     end).

(** [load_manual_candidate]; a database without the tables is [None] *)
Definition load_manual_candidate (db : Db) (tables : option Provider) (o : Outside) (applied_revision : Z)
    : host_result (option EndpointCandidate) :=
  match tables with
  | None => Ok None
  | Some p =>
      allowed ← allows_advertising db tables (now_utc o);
      if negb allowed then Ok None
      else
        now ← unix_seconds (ot_wall o);
        match pv_manual p with
        | Some row =>
            if (ma_applied_revision row =? applied_revision) && (now <? ma_expires_at row) then
              endpoint_id ← map_err (fun _ => Wrap "stored manual endpoint identity is invalid" System)
                              (id_from_str (ma_endpoint_id row));
              port ← ok_or (try_from u16_max (ma_public_port row))
                       (Wrap "stored manual endpoint port is invalid" System);
              revision ← map_err (fun _ => Wrap "stored manual endpoint revision is invalid" System)
                           (positive_new (ma_applied_revision row));
              observed_at ← timestamp_from_unix (ma_observed_at row);
              expires_at ← timestamp_from_unix (ma_expires_at row);
              Ok (Some (ProtoNode.mkCandidate endpoint_id EmDirect EsManual (ma_address row) port revision
                          observed_at (Some expires_at)))
            else Ok None
        | None => Ok None
        end
  end.
End Policy.
