(* ===== verification/NodeHostStuck.v ===== *)
(** * Activations that need a hand

    A revision whose activation was marked [recoveryRequired] has no terminal
    result, so it stays the pending revision, and its journal cannot be
    retried. The service loop reconciles before it synchronises. *)
From S2P Require Import Prelude Text Clock ProtoTypes ProtoInstances ProtoAuth ProtoNode ProtoSigned NodeHostDb.
From S2P Require Import NodeHostRuntime NodeHostSync NodeHostFacts NodeHostLogic NodeHostSafety NodeHostSupervisor.
From S2P Require Import NodeHostEntry NodeHostSyncFacts NodeHostRuns NodeHostSamples Transaction NodePolicy.
Open Scope Z_scope.

(** ** The service's cycle *)

Section Cycle.
Context `{Sha : Sha256} `{Json : NodeJson} (env : nat -> Answer).

(** [withdraw_data_paths] of service.rs; the router mapping and the relay are
    components of their own, their reconciliations calls of the outside *)
Definition withdraw_data_paths : Act HostError unit :=
  mapping ← attempt (outside env);
  relay ← attempt (outside env);
  runtime ← attempt (shutdown env);
  _ ← lift (context "provider policy could not withdraw router mapping" mapping);
  _ ← lift (context "provider policy could not withdraw relay candidate" relay);
  lift (context "provider policy could not stop member traffic" runtime).

(** [policy_is_available] *)
Definition policy_is_available (status : ProviderPolicyStatus) : bool := bool_decide (st_availability status = Available).

(** As what the node synchronises: paused by its provider, or with its runtime *)
Inductive Synchronising : Type := AsPaused | AsRunning.

(** [run_cycle] up to where it synchronises with the controller, given what the
    two evaluations of the provider's policy return *)
Definition synchronise_paused : Act HostError Synchronising := _ ← withdraw_data_paths; mret AsPaused.
Definition cycle_before_sync (evaluated again : host_result ProviderPolicyStatus) : Act HostError Synchronising :=
  match evaluated with
  | Err error => _ ← withdraw_data_paths; fail (Wrap "provider policy failed closed" error)
  | Ok policy =>
      if negb (policy_is_available policy) then synchronise_paused
      else
        _ ← configure_admission_limits env (pp_max_concurrent_sessions (st_policy policy))
              (pp_bandwidth_limit_bps (st_policy policy));
        _ ← poll env;
        _ ← reconcile env;
        target ← router_mapping_target env;
        _ ← match target with Some _ => outside env | None => mret tt end;
        _ ← attempt (E := HostError) (outside env);
        _ ← attempt (E := HostError) (outside env);
        state ← observe_runtime_state env;
        _ ← (if is_live state then _ ← attempt (E := HostError) (outside env); mret tt else mret tt);
        policy ← lift again;
        if negb (policy_is_available policy) then synchronise_paused
        else _ ← outside env; mret AsRunning
  end.

(** Cycles one after the other: how far each comes, and the world after them *)
Fixpoint cycles (evaluations : list (host_result ProviderPolicyStatus * host_result ProviderPolicyStatus)) (w : World)
    : list (host_result Synchronising) * World :=
  match evaluations with
  | [] => ([], w)
  | (evaluated, again) :: rest =>
      let '(r, w) := cycle_before_sync evaluated again w in
      let '(rs, w) := cycles rest w in (r :: rs, w)
  end.
End Cycle.

(** The revision [r] is pending, and its activation was given up. *)
Definition stuck (r : Z) (db : Db) : Prop :=
  load_pending_revision db = Ok (Some r) /\
  exists j, journal db !! r = Some j /\ jn_phase j = JRecoveryRequired.

Lemma stuck_restarts r db db' : restarts db db' -> stuck r db -> stuck r db'.
Proof. by intros [_ ->]. Qed.
Lemma stuck_decided r r' db db' : decided db db' r' -> r' <> r -> stuck r db -> stuck r db'.
Proof.
  intros (Hres & Hj & _ & Hc) Hne [Hp (j & Hr & Hph)]. split.
  - assert (desired_revision_cursor db = r) as Hcur.
    { unfold load_pending_revision in Hp. case_match; [done|]. repeat (case_match; try done). inv_ok.
      match goal with H : positive_new _ = Ok _ |- _ => apply positive_new_Ok in H as [_ ->] end. done. }
    rewrite <- Hp. unfold load_pending_revision, rows_of, result_order. rewrite Hc, Hcur. cbn. by rewrite !Hres.
  - exists j. rewrite Hj by done. done.
Qed.

Section Stuck.
Context `{Sha : Sha256} `{Json : NodeJson} {JsonLaws : NodeJsonLaws Json} {Tr : Trusted}.
Context (env : nat -> Answer) (start : Db) (period : Z).
Abbreviation sound := (sound start period).

Definition blocked (r : Z) (res : host_result unit) (w' : World) : Prop := res <> Ok tt /\ stuck r (w_db w').
Lemma try_stuck_revision r active w :
  stuck r (w_db w) -> wp (try_revision env r active) (blocked r) w.
Proof.
  intros Hs. assert (forall w' e, quiet w w' -> blocked r (Err e) w') as Hq.
  { intros w' e Hq. split; [done|]. by rewrite (q_db _ _ Hq). }
  unfold try_revision. wp_step. eapply wp_mono; [apply load_candidate_spec|]. intros res w1 [Hq1 _].
  destruct res as [c|e]; [|by apply Hq]. wp_step. eapply (wp_mono _ (fun res w' => quiet w1 w')).
  { destruct active; [|by wp_step]. wp_step. eapply wp_mono; [apply load_candidate_spec|].
    intros [p|e] w2 [Hq2 _]; by try wp_step. }
  intros res w2 Hq2. assert (quiet w w2) as Hq12 by (by etrans). destruct res as [p|e]; [|by apply Hq].
  wp_step. apply wp_unix_timestamp. intros res w3 Hq3. assert (quiet w w3) as Hq13 by (by etrans).
  destruct res as [now|e]; [|by apply Hq]. wp_step.
  apply wp_transact; [intros e w4 Hq4; apply Hq; by etrans|]. intros attempts db' w4 Hq4 E. exfalso.
  destruct Hs as [_ (j & Hj & Hph)]. rewrite (q_db _ _ Hq13) in E. unfold begin_activation in E.
  rewrite Hj, Hph in E. by inv_ok.
Qed.
Lemma reconcile_stuck r w : sound w -> stuck r (w_db w) -> wp (reconcile env) (blocked r) w.
Proof.
  intros S Hs. unfold reconcile. wp_step. eapply wp_mono; [by apply (ensure_active_running_spec _ start period)|].
  intros res w1 [[S1 Hre] _]. apply (stuck_restarts r) in Hre; [|done]. clear w S Hs. rename Hre into Hs.
  assert (forall w' e, quiet w1 w' -> blocked r (Err e) w') as Herr.
  { intros w' e Hq. split; [done|]. by rewrite (q_db _ _ Hq). }
  destruct res as [[]|e]; [|by apply Herr].
  wp_step. apply wp_query; [|by auto]. intros pending w2 Hq2 Hp. rewrite (proj1 Hs) in Hp. injection Hp as <-.
  wp_step. apply wp_query; [|intros; apply Herr; by etrans]. intros active w3 Hq3 Ha.
  assert (quiet w1 w3) as Hq by (by etrans). rewrite (q_db _ _ Hq2) in Ha. apply load_active_state_applied in Ha.
  pose proof (s_consistent _ _ _ S1) as C. destruct Hs as [Hpend (row & Hrow & Hph)].
  assert (stuck r (w_db w1)) as Hs by (split; eauto).
  case_bool_decide as Hact.
  { rewrite Hact in Ha. symmetry in Ha. apply (active_journal _ _ C) in Ha as (j & Hj & Hph'). congruence. }
  wp_step. apply wp_query; [|intros; apply Herr; by etrans]. intros inc w4 Hq4 Hinc.
  rewrite (q_db _ _ Hq) in Hinc. apply (load_incomplete_journal_Ok _ _ C) in Hinc.
  assert (quiet w1 w4) as Hq14 by (by etrans). pose proof (sound_quiet _ _ _ _ Hq14 S1) as S4.
  wp_step. eapply (wp_mono _ (fun (_ : host_result unit) w' => stuck r (w_db w'))).
  - destruct inc as [j|]; [|wp_step; by rewrite (q_db _ _ Hq14)].
    destruct Hinc as (row' & Hj & Hi & Hprev & _). assert (aj_revision j <> r) as Hne.
    { intros Heq. rewrite Heq in Hj. unfold incomplete in Hi. rewrite Hrow in Hj. injection Hj as <-. by rewrite Hph in Hi. }
    rewrite (proj2 (Z.eqb_neq _ _) Hne).
    eapply wp_mono; [apply (resolve_superseded_journal_spec _ start period); [done|by rewrite (q_db _ _ Hq14)]|].
    intros res w5 [_ Hfin]. rewrite (q_db _ _ Hq14) in Hfin.
    destruct Hfin as [[_ Hd]|Hd]; [by rewrite Hd|by eapply stuck_decided].
  - intros res w5 Hs5. destruct res as [[]|e]; [by apply try_stuck_revision|done].
Qed.
(** Parts of a cycle that leave the tables alone *)
Lemma withdraw_kept w : sound w -> wp (withdraw_data_paths env) (fun _ w' => kept start period w w') w.
Proof.
  intros S. unfold withdraw_data_paths. wp_step. wp_step. apply wp_outside. intros r1 w1 Hq1 _.
  wp_step. wp_step. apply wp_outside. intros r2 w2 Hq2 _. assert (quiet w w2) as Hq by (by etrans).
  pose proof (sound_quiet _ _ _ _ Hq S) as S2. wp_step. wp_step. unfold shutdown.
  eapply wp_mono; [by apply (stop_runtime_spec _ start period)|]. intros r w3 (S3 & Hd3 & _).
  assert (kept start period w w3) as K by (apply kept_eq; [done|]; by rewrite Hd3, (q_db _ _ Hq)).
  do 2 (apply wp_check; [intros _ _|done]). by wp_step.
Qed.
Lemma paused_kept w : sound w -> wp (synchronise_paused env) (fun _ w' => kept start period w w') w.
Proof.
  intros S. unfold synchronise_paused. wp_step. eapply wp_mono; [by apply withdraw_kept|].
  intros [[]|e] w' K; [by wp_step|done].
Qed.
(** What a cycle does before it synchronises *)
Lemma cycle_stuck r evaluated again w : sound w -> stuck r (w_db w) ->
  wp (cycle_before_sync env evaluated again) (fun res w' => sound w' /\ stuck r (w_db w') /\
    forall status, evaluated = Ok status -> policy_is_available status = true -> exists e, res = Err e) w.
Proof.
  intros S Hs. assert (forall w' res, kept start period w w' ->
    (forall status, evaluated = Ok status -> policy_is_available status = true -> exists e : HostError, res = Err e) ->
    sound w' /\ stuck r (w_db w') /\
    forall status, evaluated = Ok status -> policy_is_available status = true -> exists e, res = @Err _ Synchronising e) as Hkept.
  { intros w' res [S' Hre] Hres. split_and!; [done|by eapply stuck_restarts|done]. }
  unfold cycle_before_sync. destruct evaluated as [status|error].
  2: { wp_step. eapply wp_mono; [by apply withdraw_kept|]. intros [[]|e] w' K; [wp_step|]; by apply Hkept. }
  destruct (policy_is_available status) eqn:Hav; cbn [negb].
  2: { eapply wp_mono; [by apply paused_kept|]. intros res w' K. apply Hkept; [done|]. intros ? [= <-]. congruence. }
  wp_step. eapply wp_mono; [by apply (configure_admission_limits_spec _ start period)|].
  intros res w1 [S1 Hs1%(stuck_restarts r)]; [|done]. destruct res as [[]|e]; [|split_and!; by eauto].
  wp_step. eapply wp_mono; [by apply (poll_spec _ start period)|].
  intros res w2 [S2 Hs2%(stuck_restarts r)]; [|done]. destruct res as [[]|e]; [|split_and!; by eauto].
  wp_step. eapply wp_mono; [apply wp_conj; [by apply (reconcile_spec _ start period)|by apply reconcile_stuck]|].
  intros [[]|e] w3 [S3 [Hne Hs3]]; [done|]. split_and!; by eauto.
Qed.
End Stuck.

Section Blocked.
Context `{U : UuidText} `{R : Rfc3339} `{B : Base64} `{Sha : Sha256} {ShaLaws : Sha256Laws Sha} `{Ed : Ed25519}.
Context `{Json : NodeJson} {JsonLaws : NodeJsonLaws Json} `{Sv : Semver} (registration : SyncRegistration).
Context (accepted : string -> list byte -> Prop).

Definition fails {A} (r : host_result A) : Prop := exists e, r = Err e.
Definition available (e : host_result ProviderPolicyStatus * host_result ProviderPolicyStatus) : Prop :=
  exists status, e.1 = Ok status /\ policy_is_available status = true.
(** C36: Once the activation of the pending revision needs recovery, a cycle of the
    service in which the provider's policy makes the node available fails before
    it synchronises, whatever the outside answers, and so do all further ones:
    the service sends no heartbeat and receives no newer revision until the
    policy makes the node unavailable. Nothing a cycle does before it
    synchronises decides the revision, whatever the policy says. *)
Theorem recovery_required_blocks_cycles options db w r env evaluations :
  live registration accepted options db w -> stuck r (w_db w) ->
  stuck r (w_db (cycles env evaluations w).2) /\
  (Forall available evaluations -> Forall fails (cycles env evaluations w).1).
Proof.
  intros L%live_sound Hs. revert w L Hs. induction evaluations as [|[evaluated again] rest IH]; intros w S Hs; [done|].
  pose proof (cycle_stuck env _ _ r evaluated again w S Hs) as H. unfold wp in H. cbn [cycles].
  destruct (cycle_before_sync env evaluated again w) as [res w']. destruct H as (S' & Hs' & Hf).
  specialize (IH w' S' Hs'). destruct (cycles env rest w') as [rs w2]. destruct IH as [H1 H2]. split; [done|].
  intros [(status & Ha & Hav) Hrest]%Forall_cons. constructor; [by eapply Hf|by apply H2].
Qed.
End Blocked.

(** Revision 8 arrives while 7 is active, and Xray cannot be stopped. *)
Definition unkillable : nat -> Answer := except (Nat.eqb 256) failing.
Definition stuck_world : World :=
  run sample_registration unkillable (first_activation ++ [receive 7 "eight"; OpReconcile]) (boot fresh_db sample_supervisor).
Definition open_status : ProviderPolicyStatus :=
  mkStatus (mkPolicy PROVIDER_POLICY_SCHEMA_VERSION false [] None 16 None) 1 (mkTime 0 0) Available
    (mkMonthUsage EmptyString 0 None None EmptyString None) (mkManualStatus false false None None).
Definition open_cycle : host_result ProviderPolicyStatus * host_result ProviderPolicyStatus := (Ok open_status, Ok open_status).
Lemma recovery_required_blocks_cycles_witness :
  stuck 8 (w_db stuck_world) /\ Forall fails (cycles all_good [open_cycle; open_cycle] stuck_world).1.
Proof.
  assert (stuck 8 (w_db stuck_world)) as Hs.
  { split; [vm_compute; reflexivity|]. eexists. split; [vm_compute; reflexivity|reflexivity]. }
  split; [exact Hs|].
  assert (live sample_registration sample_accepted default_options fresh_db stuck_world) as L
    by (by apply sample_run_live, except_test).
  apply (recovery_required_blocks_cycles _ _ _ _ _ 8 all_good [open_cycle; open_cycle] L Hs).
  repeat constructor; (exists open_status; split; reflexivity).
Defined.
