(* ===== verification/NodeTelemetry.v ===== *)
(** * The node's telemetry

    [src/node-host/src/telemetry.rs]: the counters Xray reports become traffic
    deltas, the deltas become events of a bounded spool, and the spool is
    uploaded in batches that the controller acknowledges; with the exchange
    [sync_telemetry] of [src/node-host/src/sync.rs]. The tables are those of
    migrations 13, 15 and 16 in [src/node-host/src/lib.rs]; columns that nothing
    reads back are left out, and the columns that hold the text of an identifier
    hold the identifier. [serde_json] on events, the answers of Xray and of the
    controller are parameters. *)
From S2P Require Import Prelude Text Clock ProtoTypes ProtoAuth ProtoNode ProtoTelemetry NodeHostDb NodeHostRuntime Transaction NodePolicy.
From stdpp Require Import sorting.
Open Scope Z_scope.

Definition MAX_UNACKNOWLEDGED_EVENTS : Z := 10000.
Definition MAX_TOTAL_EVENTS : Z := 100000.
Definition MAX_SPOOL_BYTES : Z := 64 * 1024 * 1024.
Definition MAX_UPLOAD_EVENTS : nat := 512.
Definition ACKNOWLEDGED_RETENTION_SECONDS : Z := 7 * 24 * 60 * 60.
Definition MAX_TELEMETRY_BATCH_BYTES : Z := 256 * 1024.
Definition TELEMETRY_SCHEMA_VERSION : Z := 1.
Definition MAX_TELEMETRY_BATCHES_PER_SYNC : nat := 8.
Definition STATUS_UNAVAILABLE : string := "xray_stats_unavailable".
Definition STATUS_INVALID : string := "xray_stats_invalid_output".
Definition STATUS_RESTARTED : string := "xray_stats_restarted".
Definition STATUS_COUNTER_RESET : string := "xray_stats_counter_reset".

(** ** Tables *)

(** [telemetry_spool], by sequence *)
Record SpoolRow : Type := mkSpoolRow {
  sr_event_json : string;
  sr_event_sha256 : string;
  sr_created_at : Z;
  sr_acknowledged_at : option Z;
}.
(** [provider_pending_traffic_delta], by user *)
Record PendingRow : Type := mkPending {
  pd_bytes_up : Z;
  pd_bytes_down : Z;
  pd_observed_at : Z;
}.
(** With [telemetry_spool_state], [xray_traffic_collection_state],
    [xray_user_traffic_counters] and the provider's tables *)
Record Telemetry : Type := mkTelemetry {
  tl_spool : gmap Z SpoolRow;
  tl_next_sequence : Z;
  tl_acknowledged_sequence : Z;
  tl_runtime_generation : option Z;
  tl_last_status_code : option string;
  tl_counters : gmap Uuid (Z * Z);
  tl_pending : gmap Uuid PendingRow;
  tl_provider : Provider;
}.
Definition set_spool x t := mkTelemetry x (tl_next_sequence t) (tl_acknowledged_sequence t) (tl_runtime_generation t)
  (tl_last_status_code t) (tl_counters t) (tl_pending t) (tl_provider t).
Definition set_next_sequence x t := mkTelemetry (tl_spool t) x (tl_acknowledged_sequence t) (tl_runtime_generation t)
  (tl_last_status_code t) (tl_counters t) (tl_pending t) (tl_provider t).
Definition set_acknowledged_sequence x t := mkTelemetry (tl_spool t) (tl_next_sequence t) x (tl_runtime_generation t)
  (tl_last_status_code t) (tl_counters t) (tl_pending t) (tl_provider t).
Definition set_collection g c t := mkTelemetry (tl_spool t) (tl_next_sequence t) (tl_acknowledged_sequence t) g c
  (tl_counters t) (tl_pending t) (tl_provider t).
Definition set_counters x t := mkTelemetry (tl_spool t) (tl_next_sequence t) (tl_acknowledged_sequence t)
  (tl_runtime_generation t) (tl_last_status_code t) x (tl_pending t) (tl_provider t).
Definition set_pending x t := mkTelemetry (tl_spool t) (tl_next_sequence t) (tl_acknowledged_sequence t)
  (tl_runtime_generation t) (tl_last_status_code t) (tl_counters t) x (tl_provider t).
Definition set_provider x t := mkTelemetry (tl_spool t) (tl_next_sequence t) (tl_acknowledged_sequence t)
  (tl_runtime_generation t) (tl_last_status_code t) (tl_counters t) (tl_pending t) x.
(** What the migrations leave *)
Definition fresh_telemetry (p : Provider) : Telemetry := mkTelemetry ∅ 1 0 None None ∅ ∅ p.

Definition on_provider {A} (m : Tx Provider HostError A) : Tx Telemetry HostError A := fun t =>
  let '(r, p) := m (tl_provider t) in (r, set_provider p t).

(** [serde_json] on events *)
Class EventJson : Type := {
  event_to_string : TelemetryEvent -> option string;
  event_from_str : string -> option TelemetryEvent;
}.
(** What the code relies on: an event it wrote, with a timestamp in UTC, is
    read back. *)
Class EventJsonLaws (J : EventJson) : Prop := {
  event_read_back e s : offset (ev_occurred_at e) = 0 -> event_to_string e = Some s -> event_from_str s = Some e;
}.

(** [StatsQueryTarget] and [CollectedUserCounter] *)
Record StatsQueryTarget : Type := mkTarget {
  sq_revision : Z;
  sq_runtime_generation : Z;
  sq_binary_path : string;
  sq_binary_digest : list byte;
  sq_endpoint_port : Z;
  sq_users_by_email : gmap string Uuid;
}.
Record CollectedUserCounter : Type := mkCollected {
  cc_email : string;
  cc_uplink : Z;
  cc_downlink : Z;
}.

Section Telemetry.
Context `{Sha : Sha256} `{Cal : Calendar} `{Ids : UuidText} `{NJson : NodeJson} `{Json : EventJson}.
(** What [NodeId::new] draws for the batch that validates one event; nothing
    looks at it. *)
Context (new_node_id : Uuid).
Abbreviation Spooling := (Tx Telemetry HostError).

(** ** The spool *)

(** [purge_acknowledged] *)
Definition retained (now : Z) (row : SpoolRow) : bool :=
  match sr_acknowledged_at row with
  | Some at_ => negb (at_ <? Z.max i64_min (now - ACKNOWLEDGED_RETENTION_SECONDS))
  | None => true
  end.
Definition purge_acknowledged (now : Z) : Spooling unit :=
  tx_write (fun t => set_spool (filter (fun row => retained now row.2 = true) (tl_spool t)) t).

(** SQLite's [length] counts characters. *)
Definition text_length (s : string) : Z := zlen (chars (as_bytes s)).
Definition spool_is_full (spool : gmap Z SpoolRow) : bool :=
  let rows := (map_to_list spool).*2 in
  (MAX_UNACKNOWLEDGED_EVENTS <=? zlen (List.filter (fun row => bool_decide (sr_acknowledged_at row = None)) rows))
  || (MAX_TOTAL_EVENTS <=? zlen rows)
  || (MAX_SPOOL_BYTES <=? foldr (fun row sum => text_length (sr_event_json row) + sum) 0 rows).

(** [INSERT INTO telemetry_spool], with the constraints of the table *)
Definition insert_event (sequence : Z) (row : SpoolRow) (t : Telemetry) : host_result Telemetry :=
  _ ← ensure (bool_decide (tl_spool t !! sequence = None)) Sqlite;
  _ ← ensure (0 <? sequence) Sqlite;
  _ ← ensure ((2 <=? text_length (sr_event_json row)) && (text_length (sr_event_json row) <=? 16384)) Sqlite;
  Ok (set_spool (<[sequence := row]> (tl_spool t)) t).

(** [enqueue_in_transaction] *)
Definition enqueue_in_transaction (kind : TelemetryEventKind) (occurred_at : OffsetDateTime) (now : Z) : Spooling Z :=
  spool ← tx_read tl_spool;
  _ ← tx_lift (ensure (negb (spool_is_full spool))
        (Bail "bounded telemetry spool is full; no unacknowledged event was discarded"));
  next_sequence ← tx_read tl_next_sequence;
  sequence ← tx_lift (map_err (fun _ => Wrap "telemetry sequence is invalid" System) (non_negative_new next_sequence));
  _ ← tx_lift (ensure (negb (sequence =? 0)) (Bail "telemetry event sequence zero is reserved"));
  let event := mkEvent sequence occurred_at kind in
  _ ← tx_lift (validated "telemetry event failed protocol validation"
        (batch_validate (mkBatch TELEMETRY_SCHEMA_VERSION new_node_id sequence sequence [event])
           [TELEMETRY_SCHEMA_VERSION]));
  event_json ← tx_lift (ok_or (event_to_string event) Serde);
  _ ← tx_execute (insert_event sequence
        (mkSpoolRow event_json (protocol_digest (as_bytes event_json)) now None));
  next ← tx_lift (ok_or (checked_add i64_max next_sequence 1) (Bail "telemetry sequence space is exhausted"));
  _ ← tx_write (set_next_sequence next);
  mret sequence.

(** [enqueue], [record_telemetry_event]; [occurred] is what the clock shows when
    the event is made *)
Definition occurred_at (occurred : Z) : OffsetDateTime := timestamp_from_datetime (mkTime occurred 0).
Definition record_telemetry_event (o : Outside) (kind : TelemetryEventKind) (occurred : Z) : Spooling Z :=
  now ← tx_lift (unix_seconds (ot_wall o));
  transaction Sqlite (ot_database o)
    (_ ← purge_acknowledged now;
     enqueue_in_transaction kind (occurred_at occurred) now).

(** ** Collecting counters *)

(** [load_stats_query_target] *)
Definition load_stats_query_target (db : Db) : host_result (option StatsQueryTarget) :=
  match ac_applied_revision (active db) with
  | None => Ok None
  | Some applied_revision =>
      revision ← map_err (fun _ => Wrap "stored applied revision is invalid" System) (positive_new applied_revision);
      _ ← ensure (0 <? ac_generation (active db)) (Bail "active Xray runtime generation is invalid");
      row ← ok_or (runtime db) Sqlite;
      port ← ok_or (try_from u16_max (rt_stats_api_port row)) (Wrap "stored Stats API port is invalid" System);
      _ ← ensure (negb (port =? 0)) (Bail "stored Stats API port is invalid");
      artifact ← ok_or (artifacts db !! revision) Sqlite;
      envelope ← ok_or (envelope_from_str (ar_envelope_json artifact)) (Wrap "stored desired state is invalid" Serde);
      let document := sd_document envelope in
      _ ← ensure (ds_revision document =? revision) (Bail "stored desired state revision is inconsistent");
      let users_by_email :=
        foldl (fun users user => <[String.append "user-" (uuid_to_string (du_user_id user)) := du_user_id user]> users)
          ∅ (List.filter du_enabled (ds_users document)) in
      binary_digest ← ok_or (runtime_from_hex (rt_expected_sha256 row))
                        (Wrap "stored Xray checksum is invalid" System);
      Ok (Some (mkTarget revision (ac_generation (active db)) (rt_binary_path row) binary_digest port users_by_email))
  end.

(** [normalize_snapshot] *)
Definition observe_counter (users : gmap string Uuid) (acc : gmap Uuid (Z * Z) * gset string)
    (counter : CollectedUserCounter) : host_result (gmap Uuid (Z * Z) * gset string) :=
  let '(snapshot, observed) := acc in
  _ ← ensure (negb ((cc_uplink counter <? 0) || (cc_downlink counter <? 0)
                    || bool_decide (cc_email counter ∈ observed)))
        (Bail "Xray Stats response contains invalid or duplicate counters");
  user_id ← present_or "Xray Stats response contains an unknown user" (users !! cc_email counter);
  Ok (<[user_id := (cc_uplink counter, cc_downlink counter)]> snapshot, {[cc_email counter]} ∪ observed).
Definition normalize_snapshot (target : StatsQueryTarget) (counters : list CollectedUserCounter)
    : host_result (gmap Uuid (Z * Z)) :=
  let users := sq_users_by_email target in
  let snapshot := list_to_map ((fun user => (user, (0, 0))) <$> (map_to_list users).*2) in
  result ← try_fold (observe_counter users) (snapshot, ∅) counters;
  Ok result.1.

(** A map of the source ordered by identifier, as a list *)
Definition uuid_order {A} (a b : Uuid * A) : Prop := be_value (uuid_bytes a.1) <= be_value (uuid_bytes b.1).
#[export] Instance uuid_order_dec {A} : RelDecision (@uuid_order A).
Proof. intros a b. unfold uuid_order. apply _. Defined.
Definition by_user {A} (m : gmap Uuid A) : list (Uuid * A) := merge_sort uuid_order (map_to_list m).

(** [record_status_transition] *)
Definition enqueue_status (code : option string) (recovered : bool) (occurred : OffsetDateTime) (now : Z) : Spooling unit :=
  match code with
  | Some code => _ ← enqueue_in_transaction (CollectionStatus code recovered) occurred now; mret tt
  | None => mret tt
  end.
Definition record_status_transition (previous current : option string) (occurred : OffsetDateTime) (now : Z)
    : Spooling unit :=
  if bool_decide (previous = current) then mret tt
  else
    _ ← enqueue_status previous true occurred now;
    enqueue_status current false occurred now.

(** [UPDATE xray_traffic_collection_state], with its constraints *)
Definition update_collection (generation : option Z) (code : option string) (t : Telemetry) : host_result Telemetry :=
  _ ← ensure (match generation with Some g => 0 <? g | None => true end) Sqlite;
  _ ← ensure (match code with Some c => (1 <=? text_length c) && (text_length c <=? 64) | None => true end) Sqlite;
  Ok (set_collection generation code t).

(** [persist_collection_failure] *)
Definition persist_collection_failure (o : Outside) (occurred : Z) (code : string) : Spooling unit :=
  now ← tx_lift (unix_seconds (ot_wall o));
  transaction Sqlite (ot_database o)
    (_ ← purge_acknowledged now;
     previous ← tx_read tl_last_status_code;
     if bool_decide (previous = Some code) then mret tt
     else
       _ ← record_status_transition previous (Some code) (occurred_at occurred) now;
       tx_execute (fun t => update_collection (tl_runtime_generation t) (Some code) t)).

(** [accumulate_pending_traffic] *)
Definition accumulate_pending_traffic (user_id : Uuid) (bytes_up bytes_down observed_at : Z) : Spooling unit :=
  pending ← tx_read tl_pending;
  let '(previous_up, previous_down) :=
    match pending !! user_id with Some row => (pd_bytes_up row, pd_bytes_down row) | None => (0, 0) end in
  total_up ← tx_lift (present_or "pending provider upload delta overflow" (checked_add i64_max previous_up bytes_up));
  total_down ← tx_lift (present_or "pending provider download delta overflow"
                          (checked_add i64_max previous_down bytes_down));
  tx_execute (fun t =>
    _ ← ensure ((0 <=? total_up) && (0 <=? total_down)) Sqlite;
    Ok (set_pending (<[user_id := mkPending total_up total_down observed_at]> (tl_pending t)) t)).

(** The deltas of a snapshot on the previous one, in the order of the users; a
    counter that went back starts a new baseline *)
Definition counter_went_back (previous : gmap Uuid (Z * Z)) (user : Uuid * (Z * Z)) : bool :=
  match previous !! user.1 with
  | Some before => (user.2.1 <? before.1) || (user.2.2 <? before.2)
  | None => false
  end.
Definition add_user_delta (previous : gmap Uuid (Z * Z)) (now : Z) (delta : Z) (user : Uuid * (Z * Z)) : Spooling Z :=
  match previous !! user.1 with
  | None => mret delta
  | Some before =>
      if (user.2.1 <? before.1) || (user.2.2 <? before.2) then mret delta
      else
        let bytes_up := user.2.1 - before.1 in
        let bytes_down := user.2.2 - before.2 in
        if (bytes_up =? 0) && (bytes_down =? 0) then mret delta
        else
          _ ← accumulate_pending_traffic user.1 bytes_up bytes_down now;
          tx_lift (present_or "provider usage delta overflow"
            (with_up ← checked_add i64_max delta bytes_up; checked_add i64_max with_up bytes_down))
  end.

(** [DELETE FROM xray_user_traffic_counters] and the insertions after it *)
Definition replace_counters (generation : Z) (snapshot : gmap Uuid (Z * Z)) (t : Telemetry) : host_result Telemetry :=
  _ ← ensure (forallb (fun user => (0 <? generation) && (0 <=? user.2.1) && (0 <=? user.2.2)) (map_to_list snapshot))
        Sqlite;
  Ok (set_counters snapshot t).

(** The transaction of [apply_counter_snapshot] *)
Definition record_snapshot (db : Db) (o : Outside) (occurred : Z) (target : StatsQueryTarget)
    (snapshot : gmap Uuid (Z * Z)) : Spooling unit :=
  now ← tx_lift (unix_seconds (ot_wall o));
  transaction Sqlite (ot_database o)
    (_ ← purge_acknowledged now;
     _ ← tx_lift (ensure (bool_decide (ac_applied_revision (active db) = Some (sq_revision target))
                          && (ac_generation (active db) =? sq_runtime_generation target))
           (Bail "Xray runtime changed while traffic counters were being collected"));
     previous_generation ← tx_read tl_runtime_generation;
     previous_status ← tx_read tl_last_status_code;
     previous_counters ← tx_read tl_counters;
     let generation_changed :=
       some_and previous_generation (fun generation => negb (generation =? sq_runtime_generation target)) in
     let same_generation := bool_decide (previous_generation = Some (sq_runtime_generation target)) in
     let counter_reset := same_generation && existsb (counter_went_back previous_counters) (by_user snapshot) in
     let current_status :=
       if generation_changed then Some STATUS_RESTARTED
       else if counter_reset then Some STATUS_COUNTER_RESET else None in
     _ ← record_status_transition previous_status current_status (occurred_at occurred) now;
     provider_usage_delta ←
       (if same_generation then tx_fold (add_user_delta previous_counters now) 0 (by_user snapshot) else mret 0);
     _ ← on_provider (record_usage_delta provider_usage_delta now);
     _ ← tx_execute (replace_counters (sq_runtime_generation target) snapshot);
     tx_execute (update_collection (Some (sq_runtime_generation target)) current_status)).

(** [flush_pending_traffic]: one pending delta, until the spool refuses one *)
Fixpoint flush_rows (fallback : OffsetDateTime) (now : Z) (rows : list (Uuid * PendingRow)) : Spooling unit :=
  match rows with
  | [] => mret tt
  | (user_id, row) :: rows =>
      let occurred := match timestamp_from_unix (pd_observed_at row) with Ok t => t | Err _ => fallback end in
      bytes_up ← tx_lift (map_err (fun _ => System) (non_negative_new (pd_bytes_up row)));
      bytes_down ← tx_lift (map_err (fun _ => System) (non_negative_new (pd_bytes_down row)));
      enqueued ← tx_is_ok (enqueue_in_transaction (TrafficDelta user_id bytes_up bytes_down 0) occurred now);
      if enqueued : bool then
        _ ← tx_write (fun t => set_pending (delete user_id (tl_pending t)) t);
        flush_rows fallback now rows
      else mret tt
  end.
Definition flush_pending_traffic (o : Outside) (fallback : OffsetDateTime) : Spooling unit :=
  now ← tx_lift (unix_seconds (ot_wall o));
  transaction Sqlite (ot_database o)
    (_ ← purge_acknowledged now;
     rows ← tx_read (fun t => take 64 (by_user (tl_pending t)));
     flush_rows fallback now rows).

(** [apply_counter_snapshot] *)
Definition apply_counter_snapshot (db : Db) (o later : Outside) (occurred : Z) (target : StatsQueryTarget)
    (snapshot : gmap Uuid (Z * Z)) : Spooling unit :=
  _ ← record_snapshot db o occurred target snapshot;
  flush_pending_traffic later (occurred_at occurred).

(** [collect_target_with], [collect_xray_traffic_with]; [answer] is what the
    Stats query returns for a target *)
Definition collect_target (db : Db) (o later : Outside) (occurred : Z) (target : StatsQueryTarget)
    (answer : host_result (list CollectedUserCounter)) : Spooling unit :=
  match answer with
  | Err _ => persist_collection_failure o occurred STATUS_UNAVAILABLE
  | Ok counters =>
      match normalize_snapshot target counters with
      | Err _ => persist_collection_failure o occurred STATUS_INVALID
      | Ok snapshot => apply_counter_snapshot db o later occurred target snapshot
      end
  end.
Definition collect_xray_traffic (db : Db) (o later : Outside) (occurred : Z)
    (executor : StatsQueryTarget -> host_result (list CollectedUserCounter)) : Spooling unit :=
  target ← tx_lift (load_stats_query_target db);
  match target with
  | None => mret tt
  | Some target => collect_target db o later occurred target (executor target)
  end.

(** ** Uploading *)

(** [highest_sequence]; a database without the table is [None] *)
Definition highest_sequence (tables : option Telemetry) : host_result Z :=
  match tables with
  | None => map_err (fun _ => Wrap "zero telemetry sequence must be valid" System) (non_negative_new 0)
  | Some t => map_err (fun _ => Wrap "stored telemetry sequence is invalid" System)
                (non_negative_new (Z.max i64_min (tl_next_sequence t - 1)))
  end.

(** The sequences of the spool in their order *)
Definition sequences (spool : gmap Z SpoolRow) : list Z := merge_sort Z.le (map_to_list spool).*1.

(** The loop of [batch_from]: events so far and their bytes *)
Fixpoint read_events (rows : list (Z * SpoolRow)) (events : list TelemetryEvent) (bytes : Z)
    : host_result (list TelemetryEvent) :=
  match rows with
  | [] => Ok events
  | (sequence, row) :: rows =>
      _ ← ensure (bool_decide (protocol_digest (as_bytes (sr_event_json row)) = sr_event_sha256 row))
            (Bail "stored telemetry event digest is invalid");
      bytes ← present_or "telemetry batch size overflow"
                (checked_add usize_max bytes (str_len (sr_event_json row)));
      if (MAX_TELEMETRY_BATCH_BYTES / 2 <? bytes) && negb (bool_decide (length events = 0%nat)) then Ok events
      else
        event ← ok_or (event_from_str (sr_event_json row)) (Wrap "stored telemetry event is invalid" Serde);
        _ ← ensure (ev_sequence event =? sequence) (Bail "stored telemetry event sequence is inconsistent");
        read_events rows (events ++ [event]) bytes
  end.

(** [batch_from] *)
Definition batch_from (node_id : Uuid) (expected : Z) (t : Telemetry) : host_result (option TelemetryBatch) :=
  _ ← ensure (negb (expected =? 0)) (Bail "controller telemetry cursor cannot expect sequence zero");
  if expected =? tl_next_sequence t then Ok None
  else
    _ ← ensure (negb (tl_next_sequence t <? expected))
          (Bail "controller telemetry cursor is ahead of the local durable spool");
    _ ← ensure (match head (sequences (tl_spool t)) with Some first => negb (expected <? first) | None => false end)
          (Bail "controller requests telemetry that is no longer retained locally");
    let rows := omap (fun sequence => (fun row => (sequence, row)) <$> tl_spool t !! sequence)
                  (take MAX_UPLOAD_EVENTS (List.filter (fun sequence => expected <=? sequence) (sequences (tl_spool t)))) in
    events ← read_events rows [] 0;
    first_sequence ← present_or "retained telemetry range is unexpectedly empty" (ev_sequence <$> head events);
    last_sequence ← present_or "retained telemetry range is unexpectedly empty" (ev_sequence <$> last events);
    let batch := mkBatch TELEMETRY_SCHEMA_VERSION node_id first_sequence last_sequence events in
    _ ← validated "stored telemetry batch is not contiguous" (batch_validate batch [TELEMETRY_SCHEMA_VERSION]);
    Ok (Some batch).

(** [UPDATE telemetry_spool SET acknowledged_at = COALESCE(acknowledged_at, ?1)],
    with the constraint that an event is not acknowledged before it was made *)
Definition mark (now : Z) (row : SpoolRow) : SpoolRow :=
  mkSpoolRow (sr_event_json row) (sr_event_sha256 row) (sr_created_at row)
    (Some (default now (sr_acknowledged_at row))).
Definition mark_acknowledged (acknowledged now : Z) (t : Telemetry) : host_result Telemetry :=
  _ ← ensure (forallb (fun row => negb (row.1 <=? acknowledged)
                        || (sr_created_at row.2 <=? default now (sr_acknowledged_at row.2))) (map_to_list (tl_spool t)))
        Sqlite;
  Ok (set_spool (map_imap (fun sequence row => Some (if sequence <=? acknowledged then mark now row else row))
                   (tl_spool t)) t).

(** [acknowledge] *)
Definition acknowledge (o : Outside) (a : TelemetryBatchAcknowledgement) : Spooling unit :=
  _ ← tx_lift (validated "controller telemetry acknowledgement is invalid" (ack_validate a));
  now ← tx_lift (unix_seconds (ot_wall o));
  transaction Sqlite (ot_database o)
    (next ← tx_read tl_next_sequence;
     previous ← tx_read tl_acknowledged_sequence;
     let acknowledged := ack_acknowledged_sequence a in
     _ ← tx_lift (ensure (negb (next <=? acknowledged))
           (Bail "controller acknowledged telemetry that was never persisted locally"));
     _ ← (if previous <? acknowledged then
            _ ← tx_execute (mark_acknowledged acknowledged now);
            tx_write (set_acknowledged_sequence acknowledged)
          else mret tt);
     purge_acknowledged now).

(** ** The exchange with the controller *)

Section Sync.
(** The controller's state, and its answers to the two requests *)
Context {Ctl : Type}.
Context (get_cursor : Ctl -> host_result TelemetryCursor * Ctl).
Context (put_batch : TelemetryBatch -> Ctl -> host_result TelemetryBatchAcknowledgement * Ctl).
Context (node_id : Uuid).
Abbreviation Syncing := (Tx (Telemetry * Ctl) HostError).

Definition locally {A} (m : Spooling A) : Syncing A := fun '(t, c) => let '(r, t) := m t in (r, (t, c)).
Definition remotely {A} (m : Ctl -> host_result A * Ctl) : Syncing A := fun '(t, c) => let '(r, c) := m c in (r, (t, c)).

(** The loop of [sync_telemetry]; [o] is the outside at each acknowledgement *)
Fixpoint upload_batches (rounds : nat) (o : nat -> Outside) (expected : Z) : Syncing unit :=
  match rounds with
  | O => mret tt
  | S rounds' =>
      batch ← locally (tx_query (batch_from node_id expected));
      match batch with
      | None => mret tt
      | Some batch =>
          acknowledgement ← remotely (put_batch batch);
          _ ← tx_lift (validated "controller telemetry acknowledgement is inconsistent" (ack_validate acknowledgement));
          _ ← tx_lift (ensure (ack_acknowledged_sequence acknowledgement =? tb_last_sequence batch)
                (Bail "controller telemetry acknowledgement does not match the uploaded batch"));
          _ ← locally (acknowledge (o rounds) acknowledgement);
          upload_batches rounds' o (ack_expected_sequence acknowledgement)
      end
  end.

(** [sync_telemetry] *)
Definition sync_telemetry (o : nat -> Outside) : Syncing unit :=
  cursor ← remotely get_cursor;
  _ ← tx_lift (validated "controller telemetry cursor is inconsistent" (cursor_validate cursor));
  upload_batches MAX_TELEMETRY_BATCHES_PER_SYNC o (cu_expected_sequence cursor).
End Sync.
End Telemetry.
