(* ===== verification/ControlTelemetry.v ===== *)
(** * Telemetry at the controller

    [src/control-server/src/db.rs]: the cursor of each node, the ingestion of a
    batch with its hourly and daily aggregates, the queries on them and the
    retention. The tables are those of migration 13; the database holds one
    network (its singleton index), so keys leave it out, and digests of events,
    which nothing reads back, are left out. *)
From S2P Require Import Prelude Text Clock ProtoTypes ProtoAuth ProtoNode ProtoTelemetry NodeHostDb NodeHostRuntime Transaction.
From S2P Require Import NodePolicy NodeTelemetry.
From stdpp Require Import sorting.
Open Scope Z_scope.

Definition TELEMETRY_HEALTH_RETENTION_DAYS : Z := 30.
Definition TELEMETRY_HOURLY_RETENTION_DAYS : Z := 90.
Definition TELEMETRY_DAILY_RETENTION_DAYS : Z := 365.

(** [DatabaseError], as far as the operations modelled return it *)
Inductive DatabaseError : Type :=
| CtlSqlite
| CtlJson
| CtlClock
| TimestampOverflow
| NetworkMissing
| NodeNotFound
| NodeRevoked
| StoredProtocolValue
| ProtocolValidation (v : ProtocolValidationError)
| TelemetryNodeMismatch
| TelemetrySequenceGap (expected : Z)
| TelemetrySequenceExhausted
| TelemetryUserNotAssigned
| TelemetryClockSkew
| InvalidTelemetryQuery
| CtlTimestampRange
| CtlIdentity
| CtlDesiredState
| NodeRequestClockSkew
| NodeAuthenticationFailed
| InvalidNodeRequestSignature
| NodeRequestNonceReplayed
| NodeHeartbeatStale
| NodeHeartbeatConflict
| NodeProgressRegressed
| NodeProgressConflict
| EndpointCandidateConflict
| EndpointCandidateRevisionConflict
| RevisionTargetNotFound
| RevisionResultConflict
| StoredRevisionResultCorrupt
| ProbeClaimNotFound
| ProbeClaimConflict
| InvalidProbeSchedule
| ProbeResultOverflow.

(** ** Tables *)

(** [nodes.status] *)
Inductive NodeStatus : Type := NodePending | NodeActive | NodeDisabled | NodeWithdrawn.
#[export] Instance NodeStatus_eq_dec : EqDecision NodeStatus.
Proof. solve_decision. Defined.

(** [node_telemetry_events] *)
Inductive EventType : Type := EtTrafficDelta | EtConnection | EtCollectionStatus | EtQuotaState.
#[export] Instance EventType_eq_dec : EqDecision EventType.
Proof. solve_decision. Defined.
Inductive Disposition : Type := Stored | DroppedPolicy.
Record EventRow : Type := mkEventRow {
  er_event_type : EventType;
  er_user_id : option Uuid;
  er_occurred_at : Z;
  er_received_at : Z;
  er_disposition : Disposition;
  er_protocol : option NetworkProtocol;
  er_destination_host : option string;
  er_destination_port : option Z;
  er_client_identifier : option string;
  er_status_code : option string;
}.
(** [traffic_hourly_aggregates] and [traffic_daily_aggregates], by user, node and bucket *)
Record AggregateRow : Type := mkAggregateRow {
  ag_bytes_up : Z;
  ag_bytes_down : Z;
  ag_connection_count : Z;
}.
Abbreviation Aggregates := (gmap (Uuid * Uuid * Z) AggregateRow) (only parsing).

(** [TelemetryRetentionResult] *)
Record TelemetryRetentionResult : Type := mkRetention {
  tt_traffic_events_deleted : Z;
  tt_detailed_events_deleted : Z;
  tt_health_events_deleted : Z;
  tt_hourly_aggregates_deleted : Z;
  tt_daily_aggregates_deleted : Z;
}.

(** With [node_telemetry_cursors], [user_node_assignments], [telemetry_policy] and
    the entries of [audit_events] the retention writes *)
Record Control : Type := mkControl {
  ct_network : option Uuid;
  ct_nodes : gmap Uuid NodeStatus;
  ct_assignments : gset (Uuid * Uuid);
  ct_detailed_enabled : bool;
  ct_detailed_retention_days : Z;
  ct_cursors : gmap Uuid Z;
  ct_events : gmap (Uuid * Z) EventRow;
  ct_hourly : Aggregates;
  ct_daily : Aggregates;
  ct_audit : list (Z * TelemetryRetentionResult);
}.
Definition set_cursors x c := mkControl (ct_network c) (ct_nodes c) (ct_assignments c) (ct_detailed_enabled c)
  (ct_detailed_retention_days c) x (ct_events c) (ct_hourly c) (ct_daily c) (ct_audit c).
Definition set_events x c := mkControl (ct_network c) (ct_nodes c) (ct_assignments c) (ct_detailed_enabled c)
  (ct_detailed_retention_days c) (ct_cursors c) x (ct_hourly c) (ct_daily c) (ct_audit c).
Definition set_hourly x c := mkControl (ct_network c) (ct_nodes c) (ct_assignments c) (ct_detailed_enabled c)
  (ct_detailed_retention_days c) (ct_cursors c) (ct_events c) x (ct_daily c) (ct_audit c).
Definition set_daily x c := mkControl (ct_network c) (ct_nodes c) (ct_assignments c) (ct_detailed_enabled c)
  (ct_detailed_retention_days c) (ct_cursors c) (ct_events c) (ct_hourly c) x (ct_audit c).
Definition set_audit x c := mkControl (ct_network c) (ct_nodes c) (ct_assignments c) (ct_detailed_enabled c)
  (ct_detailed_retention_days c) (ct_cursors c) (ct_events c) (ct_hourly c) (ct_daily c) x.

Section Control.
Context `{Json : EventJson}.
Abbreviation Handling := (Tx Control DatabaseError).
Abbreviation db_result := (result DatabaseError).

(** [unix_timestamp] *)
Definition control_seconds (wall : Z) : db_result Z :=
  _ ← ensure (0 <=? wall) CtlClock;
  _ ← ensure (wall / NANOS <=? i64_max) TimestampOverflow;
  Ok (wall / NANOS).

(** [load_network] *)
Definition load_network (c : Control) : db_result Uuid := ok_or (ct_network c) NetworkMissing.

(** [telemetry_cursor_from_acknowledged], [load_telemetry_cursor] *)
Definition telemetry_cursor_from_acknowledged (acknowledged : Z) : db_result TelemetryCursor :=
  acknowledged_sequence ← map_err (fun _ => StoredProtocolValue) (non_negative_new acknowledged);
  expected_sequence ← ok_or (checked_next acknowledged_sequence) TelemetrySequenceExhausted;
  let cursor := mkCursor acknowledged_sequence expected_sequence in
  _ ← map_err ProtocolValidation (cursor_validate cursor);
  Ok cursor.
Definition load_telemetry_cursor (node_id : Uuid) (c : Control) : db_result TelemetryCursor :=
  _ ← load_network c;
  _ ← ensure (match ct_nodes c !! node_id with Some (NodePending | NodeActive) => true | _ => false end) NodeRevoked;
  telemetry_cursor_from_acknowledged (default 0 (ct_cursors c !! node_id)).

(** [validate_telemetry_user] *)
Definition validate_telemetry_user (c : Control) (node_id user_id : Uuid) : db_result unit :=
  ensure (bool_decide ((node_id, user_id) ∈ ct_assignments c)) TelemetryUserNotAssigned.

(** [upsert_traffic_aggregate]: what the statement does to one of the two
    tables. A sum that leaves 64 bits is not an integer any more, and the
    column takes no other. *)
Definition upsert_traffic_aggregate (width : Z) (user_id node_id : Uuid) (bucket_start bytes_up bytes_down
    connection_count : Z) (table : Aggregates) : db_result Aggregates :=
  let before := default (mkAggregateRow 0 0 0) (table !! (user_id, node_id, bucket_start)) in
  _ ← ensure ((0 <=? bucket_start) && (Z.rem bucket_start width =? 0)) CtlSqlite;
  up ← ok_or (checked_add i64_max (ag_bytes_up before) bytes_up) CtlSqlite;
  down ← ok_or (checked_add i64_max (ag_bytes_down before) bytes_down) CtlSqlite;
  connections ← ok_or (checked_add i64_max (ag_connection_count before) connection_count) CtlSqlite;
  _ ← ensure ((0 <=? up) && (0 <=? down) && (0 <=? connections)) CtlSqlite;
  Ok (<[(user_id, node_id, bucket_start) := mkAggregateRow up down connections]> table).

(** The row [persist_telemetry_event] stores for an event *)
Definition event_row (c : Control) (node_id : Uuid) (event : TelemetryEvent) (detailed_enabled : bool)
    (occurred received_at : Z) : db_result EventRow :=
  match ev_kind event with
  | TrafficDelta user_id _ _ _ =>
      _ ← validate_telemetry_user c node_id user_id;
      Ok (mkEventRow EtTrafficDelta (Some user_id) occurred received_at Stored None None None None None)
  | Connection user_id protocol destination_host destination_port client_identifier =>
      _ ← validate_telemetry_user c node_id user_id;
      Ok (if detailed_enabled then
            mkEventRow EtConnection (Some user_id) occurred received_at Stored (Some protocol)
              (Some destination_host) (Some destination_port) client_identifier None
          else
            mkEventRow EtConnection (Some user_id) occurred received_at DroppedPolicy None None None None None)
  | CollectionStatus code _ =>
      Ok (mkEventRow EtCollectionStatus None occurred received_at Stored None None None None (Some code))
  | QuotaState user_id _ _ =>
      _ ← validate_telemetry_user c node_id user_id;
      Ok (mkEventRow EtQuotaState (Some user_id) occurred received_at Stored None None None None None)
  end.

(** The constraints of [node_telemetry_events] *)
Definition length_within (hi : Z) (s : option string) : bool :=
  match s with Some s => (1 <=? text_length s) && (text_length s <=? hi) | None => true end.
Definition event_row_ok (row : EventRow) : bool :=
  length_within 253 (er_destination_host row) && length_within 128 (er_client_identifier row)
  && length_within 64 (er_status_code row)
  && match er_destination_port row with Some p => (1 <=? p) && (p <=? 65535) | None => true end.
Definition insert_event_row (node_id : Uuid) (sequence : Z) (row : EventRow) (c : Control) : db_result Control :=
  _ ← ensure (0 <? sequence) CtlSqlite;
  _ ← ensure (event_row_ok row) CtlSqlite;
  _ ← ensure (bool_decide (ct_events c !! (node_id, sequence) = None)) CtlSqlite;
  Ok (set_events (<[(node_id, sequence) := row]> (ct_events c)) c).

(** [occurred_at - occurred_at.rem_euclid(width)] *)
Definition bucket (width occurred : Z) : Z := occurred - occurred mod width.

(** [persist_telemetry_event] *)
Definition persist_telemetry_event (node_id : Uuid) (detailed_enabled : bool) (received_at : Z)
    (event : TelemetryEvent) : Handling unit :=
  let occurred := to_unix (ev_occurred_at event) in
  _ ← tx_lift (ensure (negb (Z.min i64_max (received_at + 86400) <? occurred)) TelemetryClockSkew);
  _ ← tx_lift (ok_or (event_to_string event) CtlJson);
  row ← tx_query (fun c => event_row c node_id event detailed_enabled occurred received_at);
  _ ← tx_execute (insert_event_row node_id (ev_sequence event) row);
  match ev_kind event with
  | TrafficDelta user_id bytes_up bytes_down connection_count =>
      _ ← tx_execute (fun c =>
            hourly ← upsert_traffic_aggregate 3600 user_id node_id (bucket 3600 occurred)
                       bytes_up bytes_down connection_count (ct_hourly c);
            Ok (set_hourly hourly c));
      tx_execute (fun c =>
        daily ← upsert_traffic_aggregate 86400 user_id node_id (bucket 86400 occurred)
                  bytes_up bytes_down connection_count (ct_daily c);
        Ok (set_daily daily c))
  | _ => mret tt
  end.

(** The transaction of [ingest_telemetry]; its result is the acknowledged
    sequence *)
Definition ingest_batch (now : Z) (node_id : Uuid) (batch : TelemetryBatch) : Handling Z :=
  _ ← tx_query load_network;
  status ← tx_query (fun c => ok_or (ct_nodes c !! node_id) NodeNotFound);
  _ ← tx_lift (ensure (match status with NodeDisabled | NodeWithdrawn => false | _ => true end) NodeRevoked);
  _ ← tx_write (fun c => match ct_cursors c !! node_id with
                         | Some _ => c
                         | None => set_cursors (<[node_id := 0]> (ct_cursors c)) c
                         end);
  acknowledged ← tx_query (fun c => ok_or (ct_cursors c !! node_id) CtlSqlite);
  if tb_last_sequence batch <=? acknowledged then mret acknowledged
  else
    expected ← tx_lift (ok_or (checked_add i64_max acknowledged 1) TelemetrySequenceExhausted);
    _ ← tx_lift (ensure (tb_first_sequence batch =? expected) (TelemetrySequenceGap expected));
    detailed_enabled ← tx_read ct_detailed_enabled;
    _ ← tx_for_each (persist_telemetry_event node_id detailed_enabled now) (tb_events batch);
    _ ← tx_write (fun c => set_cursors (<[node_id := tb_last_sequence batch]> (ct_cursors c)) c);
    mret (tb_last_sequence batch).

(** [Database::ingest_telemetry] and the function of the same name *)
Definition ingest_telemetry (o : Outside) (node_id : Uuid) (batch : TelemetryBatch)
    : Handling TelemetryBatchAcknowledgement :=
  _ ← tx_lift (map_err ProtocolValidation (batch_validate batch [TELEMETRY_SCHEMA_VERSION]));
  _ ← tx_lift (ensure (bool_decide (tb_node_id batch = node_id)) TelemetryNodeMismatch);
  now ← tx_lift (control_seconds (ot_wall o));
  acknowledged ← transaction CtlSqlite (ot_database o) (ingest_batch now node_id batch);
  cursor ← tx_lift (telemetry_cursor_from_acknowledged acknowledged);
  mret (mkAck (cu_acknowledged_sequence cursor) (cu_expected_sequence cursor)).

(** ** Queries *)

Definition bucket_order (a b : (Uuid * Uuid * Z) * AggregateRow) : Prop :=
  a.1.2 < b.1.2 \/ (a.1.2 = b.1.2 /\
    (be_value (uuid_bytes a.1.1.1) < be_value (uuid_bytes b.1.1.1) \/
     (be_value (uuid_bytes a.1.1.1) = be_value (uuid_bytes b.1.1.1) /\
      be_value (uuid_bytes a.1.1.2) <= be_value (uuid_bytes b.1.1.2)))).
#[export] Instance bucket_order_dec : RelDecision bucket_order.
Proof. intros a b. unfold bucket_order. apply _. Defined.

(** [load_traffic_aggregates] *)
Definition load_traffic_aggregates (bucket_seconds : Z) (user_id node_id : option Uuid) (since : Z) (c : Control)
    : db_result (list TrafficAggregate) :=
  _ ← ensure (negb (negb ((bucket_seconds =? 3600) || (bucket_seconds =? 86400)) || (since <? 0)))
        InvalidTelemetryQuery;
  let table := if bucket_seconds =? 3600 then ct_hourly c else ct_daily c in
  _ ← load_network c;
  let rows := List.filter (fun row : (Uuid * Uuid * Z) * AggregateRow => (since <=? row.1.2)
      && match user_id with Some u => bool_decide (row.1.1.1 = u) | None => true end
      && match node_id with Some n => bool_decide (row.1.1.2 = n) | None => true end) (map_to_list table) in
  mapM (M := db_result) (fun row : (Uuid * Uuid * Z) * AggregateRow =>
    bytes_up ← map_err (fun _ => StoredProtocolValue) (non_negative_new (ag_bytes_up row.2));
    bytes_down ← map_err (fun _ => StoredProtocolValue) (non_negative_new (ag_bytes_down row.2));
    connection_count ← map_err (fun _ => StoredProtocolValue) (non_negative_new (ag_connection_count row.2));
    let aggregate := mkAggregate row.1.1.1 row.1.1.2 row.1.2 bucket_seconds bytes_up bytes_down connection_count in
    _ ← map_err ProtocolValidation (aggregate_validate aggregate);
    Ok aggregate)
    (take (Z.to_nat 10000) (merge_sort bucket_order rows)).

(** ** Retention *)

(** [aligned_retention_cutoff] *)
Definition retention_cutoff (now days : Z) : Z := Z.max i64_min (now - Z.min i64_max (days * 86400)).
Definition aligned_retention_cutoff (now retention_days bucket_seconds : Z) : Z :=
  bucket bucket_seconds (retention_cutoff now retention_days).

(** [DELETE] of the events of some types, of the buckets before a time *)
Definition expired (types : list EventType) (before : Z) (row : EventRow) : bool :=
  bool_decide (er_event_type row ∈ types) && (er_received_at row <? before).
Definition delete_expired (types : list EventType) (before : Z) (events : gmap (Uuid * Z) EventRow)
    : Z * gmap (Uuid * Z) EventRow :=
  let kept := filter (fun row => expired types before row.2 = false) events in
  (Z.of_nat (size events) - Z.of_nat (size kept), kept).
Definition delete_buckets (before : Z) (table : Aggregates) : Z * Aggregates :=
  let kept : Aggregates := filter (fun row => before <= row.1.2) table in
  (Z.of_nat (size table) - Z.of_nat (size kept), kept).

(** [enforce_telemetry_retention_at] *)
Definition enforce_telemetry_retention (o : Outside) : Handling TelemetryRetentionResult :=
  now ← tx_lift (control_seconds (ot_wall o));
  transaction CtlSqlite (ot_database o)
    (days ← tx_read ct_detailed_retention_days;
     c ← tx_read id;
     let '(detailed, events) := delete_expired [EtConnection] (retention_cutoff now days) (ct_events c) in
     let '(traffic, events) :=
       delete_expired [EtTrafficDelta] (retention_cutoff now TELEMETRY_HOURLY_RETENTION_DAYS) events in
     let '(health, events) := delete_expired [EtCollectionStatus; EtQuotaState]
       (retention_cutoff now TELEMETRY_HEALTH_RETENTION_DAYS) events in
     let '(hours, hourly) :=
       delete_buckets (aligned_retention_cutoff now TELEMETRY_HOURLY_RETENTION_DAYS 3600) (ct_hourly c) in
     let '(days_, daily) :=
       delete_buckets (aligned_retention_cutoff now TELEMETRY_DAILY_RETENTION_DAYS 86400) (ct_daily c) in
     let result := mkRetention traffic detailed health hours days_ in
     _ ← tx_query load_network;
     _ ← tx_write (fun c => set_audit (ct_audit c ++ [(now, result)]) (set_daily daily (set_hourly hourly (set_events events c))));
     mret result).
End Control.
