(* ===== verification/NodeTelemetryFacts.v ===== *)
(** * What the spool holds

    Facts on [NodeTelemetry]. The log of a node is the list of all events it
    ever enqueued; [spool_ok] says how the tables hold it, and every operation
    keeps it: events are numbered as they come, an event stays in the spool
    until the controller has acknowledged it, and what is read back for an
    upload is a slice of the log. *)
From S2P Require Import Prelude Text Clock ProtoTypes ProtoAuth ProtoNode ProtoTelemetry NodeHostDb NodeHostRuntime Transaction.
From S2P Require Import NodePolicy NodeTelemetry.
From stdpp Require Import sorting.
Open Scope Z_scope.

Lemma non_negative_new_Ok n m : non_negative_new n = Ok m <-> 0 <= n /\ m = n.
Proof. unfold non_negative_new. destruct (Z.leb_spec 0 n); naive_solver lia. Qed.
Lemma checked_add_Some max a b c : checked_add max a b = Some c <-> c = a + b /\ a + b <= max.
Proof. unfold checked_add. destruct (Z.leb_spec (a + b) max); naive_solver lia. Qed.
Lemma present_or_Ok {A} m (o : option A) a : present_or m o = Ok a <-> o = Some a.
Proof. unfold present_or. apply ok_or_Ok. Qed.
Lemma ensure_true {E} (c : bool) (e : E) : c = true -> ensure c e = Ok tt.
Proof. by intros ->. Qed.
Lemma numbered_singleton n e : ev_sequence e = n -> event_kind_validate (ev_kind e) = Ok tt -> numbered n [e].
Proof. intros H1 H2 [|i] x Hx; [injection Hx as <-; split; [lia|done]|done]. Qed.
Lemma zlen_snoc {A} (l : list A) a : zlen (l ++ [a]) = zlen l + 1.
Proof. by rewrite zlen_app. Qed.
Lemma lookup_zlen {A} (l : list A) k : 1 <= k -> k <= zlen l <-> is_Some (l !! Z.to_nat (k - 1)).
Proof. intros. rewrite lookup_lt_is_Some. unfold zlen. lia. Qed.
Lemma lookup_seq_app {A} (l : list A) a k :
  0 < k -> (l ++ [a]) !! Z.to_nat (k - 1) = if decide (k = zlen l + 1) then Some a else l !! Z.to_nat (k - 1).
Proof.
  intros. destruct (decide (k = zlen l + 1)) as [->|].
  - rewrite lookup_app_r by (unfold zlen; lia).
    by replace (Z.to_nat (zlen l + 1 - 1) - length l)%nat with 0%nat by (unfold zlen; lia).
  - destruct (decide (k <= zlen l)); [apply lookup_app_l; unfold zlen in *; lia|].
    rewrite !lookup_ge_None_2; [done|unfold zlen in *; lia|rewrite length_app; unfold zlen in *; cbn; lia].
Qed.

Section Spool.
Context `{Sha : Sha256} `{Json : EventJson} {Laws : EventJsonLaws Json} (new_node_id : Uuid).

(** ** The invariant *)

(** An event as it was written *)
Definition event_written (k : Z) (e : TelemetryEvent) (row : SpoolRow) : Prop :=
  ev_sequence e = k /\ event_to_string e = Some (sr_event_json row) /\
  sr_event_sha256 row = protocol_digest (as_bytes (sr_event_json row)) /\
  text_length (sr_event_json row) <= 16384.
Definition event_fit (k : Z) (e : TelemetryEvent) : Prop :=
  ev_sequence e = k /\ offset (ev_occurred_at e) = 0 /\ event_kind_validate (ev_kind e) = Ok tt /\
  is_Some (event_to_string e).

Record spool_ok (t : Telemetry) (log : list TelemetryEvent) : Prop := {
  so_next : tl_next_sequence t = zlen log + 1;
  so_log k e : 0 < k -> log !! Z.to_nat (k - 1) = Some e -> event_fit k e;
  so_row k row : tl_spool t !! k = Some row ->
    0 < k /\ exists e, log !! Z.to_nat (k - 1) = Some e /\ event_written k e row;
  so_acknowledged : 0 <= tl_acknowledged_sequence t < tl_next_sequence t;
  so_kept k : tl_acknowledged_sequence t < k < tl_next_sequence t ->
    exists row, tl_spool t !! k = Some row /\ sr_acknowledged_at row = None;
}.

Lemma spool_fresh p : spool_ok (fresh_telemetry p) [].
Proof. split; try done; cbn; try lia. Qed.

Lemma so_bound t log k row : spool_ok t log -> tl_spool t !! k = Some row -> 0 < k < tl_next_sequence t.
Proof.
  intros S Hr. destruct (so_row _ _ S _ _ Hr) as [Hk (e & He & _)]. split; [done|].
  rewrite (so_next _ _ S). assert (k <= zlen log); [|lia]. by apply lookup_zlen; [lia|eexists].
Qed.
Lemma so_read t log k row : spool_ok t log -> tl_spool t !! k = Some row ->
  exists e, log !! Z.to_nat (k - 1) = Some e /\ event_from_str (sr_event_json row) = Some e /\
    protocol_digest (as_bytes (sr_event_json row)) = sr_event_sha256 row /\ ev_sequence e = k /\
    text_length (sr_event_json row) <= 16384.
Proof.
  intros S Hr. destruct (so_row _ _ S _ _ Hr) as [Hk (e & He & Hs & Hw & Hd & Hl)].
  exists e. split_and!; try done. apply event_read_back; [|done]. by destruct (so_log _ _ S _ _ Hk He) as (_ & ? & _).
Qed.

(** Operations that leave the numbering and what is not acknowledged alone *)
Lemma spool_ok_shrink t t' log :
  spool_ok t log -> tl_next_sequence t' = tl_next_sequence t ->
  tl_acknowledged_sequence t <= tl_acknowledged_sequence t' < tl_next_sequence t ->
  (forall k row', tl_spool t' !! k = Some row' -> exists row, tl_spool t !! k = Some row /\
     sr_event_json row' = sr_event_json row /\ sr_event_sha256 row' = sr_event_sha256 row) ->
  (forall k row, tl_acknowledged_sequence t' < k -> tl_spool t !! k = Some row -> sr_acknowledged_at row = None ->
     tl_spool t' !! k = Some row) ->
  spool_ok t' log.
Proof.
  intros S Hn Ha Hsub Hkeep. pose proof (so_acknowledged _ _ S). split.
  - rewrite Hn. apply (so_next _ _ S).
  - apply (so_log _ _ S).
  - intros k row' (row & Hr & Hj & Hd)%Hsub. destruct (so_row _ _ S _ _ Hr) as [Hk (e & He & Hs & Hw & Hh & Hl)].
    split; [done|]. exists e. unfold event_written. rewrite Hj, Hd. by split_and!.
  - lia.
  - intros k Hk. destruct (so_kept _ _ S k ltac:(lia)) as (row & Hr & Hnone).
    exists row. split; [apply Hkeep; [lia|done..]|done].
Qed.
(** The tables behind the spool do not matter. *)
Lemma spool_ok_same t t' log :
  spool_ok t log -> tl_spool t' = tl_spool t -> tl_next_sequence t' = tl_next_sequence t ->
  tl_acknowledged_sequence t' = tl_acknowledged_sequence t -> spool_ok t' log.
Proof.
  intros S Hs Hn Ha. pose proof (so_acknowledged _ _ S).
  apply (spool_ok_shrink t); [done|done|rewrite Ha; lia| |]; rewrite Hs; eauto.
Qed.

(** ** Purging *)

Definition purged (now : Z) (t : Telemetry) : Telemetry :=
  set_spool (filter (fun row => retained now row.2 = true) (tl_spool t)) t.
Lemma purged_lookup now t k row :
  tl_spool (purged now t) !! k = Some row <-> tl_spool t !! k = Some row /\ retained now row = true.
Proof. cbn. by rewrite map_lookup_filter_Some. Qed.
Lemma retained_unacknowledged now row : sr_acknowledged_at row = None -> retained now row = true.
Proof. unfold retained. by intros ->. Qed.
Lemma spool_ok_purged now t log : spool_ok t log -> spool_ok (purged now t) log.
Proof.
  intros S. pose proof (so_acknowledged _ _ S).
  apply (spool_ok_shrink t); [done|done|cbn; lia| |].
  - intros k row' [Hr _]%purged_lookup. eauto.
  - intros k row _ Hr Hn. apply purged_lookup. split; [done|by apply retained_unacknowledged].
Qed.
Lemma after_purge now t Q : Q (Ok tt) (purged now t) -> after (purge_acknowledged now) t Q.
Proof. done. Qed.

(** ** Enqueueing *)

Definition with_event (k : Z) (row : SpoolRow) (t : Telemetry) : Telemetry :=
  set_next_sequence (k + 1) (set_spool (<[k := row]> (tl_spool t)) t).

Lemma spool_ok_event t log row e :
  spool_ok t log -> event_fit (tl_next_sequence t) e -> event_written (tl_next_sequence t) e row ->
  sr_acknowledged_at row = None ->
  spool_ok (with_event (tl_next_sequence t) row t) (log ++ [e]).
Proof.
  intros S Hf Hw Hn. pose proof (so_next _ _ S) as Hnext. pose proof (so_acknowledged _ _ S) as Ha. split; cbn.
  - rewrite zlen_snoc. lia.
  - intros k e' Hk. rewrite lookup_seq_app by done. rewrite <- Hnext.
    destruct (decide (k = tl_next_sequence t)) as [->|]; [by intros [= <-]|by apply (so_log _ _ S)].
  - intros k row'. destruct (decide (k = tl_next_sequence t)) as [->|Hk].
    + rewrite lookup_insert_eq. intros [= <-]. split; [lia|]. exists e. split; [|done].
      rewrite lookup_seq_app, decide_True by lia. done.
    + rewrite lookup_insert_ne by done. intros Hr. destruct (so_row _ _ S _ _ Hr) as [Hp (e' & He & Hw')].
      split; [done|]. exists e'. split; [|done]. rewrite lookup_seq_app, decide_False by lia. done.
  - lia.
  - intros k Hk. destruct (decide (k = tl_next_sequence t)) as [->|].
    + exists row. by rewrite lookup_insert_eq.
    + rewrite lookup_insert_ne by done. apply (so_kept _ _ S). lia.
Qed.

(** Nothing happens, or the event is the next of the log. *)
Lemma enqueue_spec t log kind occurred now :
  spool_ok t log -> offset occurred = 0 -> tl_next_sequence t < i64_max ->
  after (enqueue_in_transaction new_node_id kind occurred now) t (fun r t' =>
    match r with
    | Ok k => k = tl_next_sequence t /\ exists row, t' = with_event k row t /\
        sr_created_at row = now /\ spool_ok t' (log ++ [mkEvent k occurred kind])
    | Err _ => t' = t
    end).
Proof.
  intros S Ho Hmax. pose proof (so_next _ _ S) as Hnext. pose proof (zlen_nonneg log).
  unfold enqueue_in_transaction. repeat tx_step.
  destruct (ensure (negb (spool_is_full (tl_spool t))) _); [|done]. repeat tx_step.
  destruct (map_err _ _) as [k|e] eqn:Ek; [|done]. apply map_err_Ok, non_negative_new_Ok in Ek as [_ ->]. repeat tx_step.
  destruct (ensure (negb (_ =? 0)) _); [|done]. repeat tx_step.
  destruct (validated _ _) as [[]|] eqn:Ev; [|done]. apply map_err_Ok in Ev. repeat tx_step.
  apply batch_validate_exact in Ev as (_ & _ & _ & Hb & _); [|cbn; lia]. cbn in Hb.
  destruct (Hb 0%nat _ eq_refl) as [_ Hkind]. cbn in Hkind.
  destruct (event_to_string _) as [json|] eqn:Ej; cbn [ok_or]; [|done]. repeat tx_step; [intros t' Hi|done].
  unfold insert_event in Hi. inv_ok. repeat tx_step.
  assert (checked_add i64_max (tl_next_sequence t) 1 = Some (tl_next_sequence t + 1)) as ->
    by (apply checked_add_Some; lia). cbn [ok_or]. repeat tx_step.
  split; [done|]. eexists. split; [reflexivity|]. split; [done|].
  bool_props. apply spool_ok_event; [done|by split_and!; eauto|by split_and!|done].
Qed.

(** ** Traffic *)

Inductive Direction : Type := Upload | Download.
Definition pick (d : Direction) (up down : Z) : Z := match d with Upload => up | Download => down end.
Definition event_bytes (d : Direction) (u : Uuid) (e : TelemetryEvent) : Z :=
  match ev_kind e with
  | TrafficDelta user up down _ => if decide (user = u) then pick d up down else 0
  | _ => 0
  end.
Definition sum_of {A} (f : A -> Z) (l : list A) : Z := foldr (fun a s => f a + s) 0 l.
(** What a log says a user transferred, and what waits to be put in it *)
Definition traffic (d : Direction) (u : Uuid) (log : list TelemetryEvent) : Z := sum_of (event_bytes d u) log.
Definition pending_bytes (d : Direction) (u : Uuid) (t : Telemetry) : Z :=
  match tl_pending t !! u with Some row => pick d (pd_bytes_up row) (pd_bytes_down row) | None => 0 end.

Lemma sum_of_app {A} (f : A -> Z) l k : sum_of f (l ++ k) = sum_of f l + sum_of f k.
Proof. induction l as [|a l IH]; cbn; [done|]. unfold sum_of in *. cbn. rewrite IH. lia. Qed.
Lemma traffic_app d u l k : traffic d u (l ++ k) = traffic d u l + traffic d u k.
Proof. apply sum_of_app. Qed.
Lemma traffic_snoc d u l e : traffic d u (l ++ [e]) = traffic d u l + event_bytes d u e.
Proof. rewrite traffic_app. unfold traffic, sum_of at 2. cbn. lia. Qed.

(** The tables beside the spool *)
Definition beside (t : Telemetry) :=
  (tl_acknowledged_sequence t, tl_runtime_generation t, tl_last_status_code t, tl_counters t, tl_pending t, tl_provider t).
(** [t'] continues [t] by the events [evs]. *)
Definition continues (log : list TelemetryEvent) (t : Telemetry) (evs : list TelemetryEvent) (t' : Telemetry) : Prop :=
  spool_ok t' (log ++ evs) /\ beside t' = beside t.
Lemma continues_nil log t : spool_ok t log -> continues log t [] t.
Proof. intros. split; [by rewrite app_nil_r|done]. Qed.
Lemma continues_app log t evs t' evs' t'' :
  continues log t evs t' -> continues (log ++ evs) t' evs' t'' -> continues log t (evs ++ evs') t''.
Proof. intros [_ H1] [H2 H3]. split; [by rewrite app_assoc|congruence]. Qed.
Lemma continues_next log t evs t' :
  spool_ok t log -> continues log t evs t' -> tl_next_sequence t' = tl_next_sequence t + zlen evs.
Proof. intros S [S' _]. rewrite (so_next _ _ S), (so_next _ _ S'), zlen_app. lia. Qed.

(** Room for the events of one operation *)
Definition roomy (t : Telemetry) : Prop := tl_next_sequence t + 100 < i64_max.

Definition quiet_events (evs : list TelemetryEvent) : Prop := forall d u, traffic d u evs = 0.
Lemma quiet_app l k : quiet_events l -> quiet_events k -> quiet_events (l ++ k).
Proof. intros H1 H2 d u. by rewrite traffic_app, H1, H2. Qed.

Lemma enqueue_status_spec t log code recovered occurred now :
  spool_ok t log -> offset occurred = 0 -> tl_next_sequence t < i64_max ->
  after (enqueue_status new_node_id code recovered occurred now) t (fun r t' =>
    match r with
    | Ok _ => exists evs, continues log t evs t' /\ quiet_events evs /\ zlen evs <= 1
    | Err _ => True
    end).
Proof.
  intros S Ho Hm. unfold enqueue_status. destruct code as [code|]; repeat tx_step.
  - eapply after_mono; [by apply (enqueue_spec t log)|]. intros [k|e] t'; [|done].
    intros (-> & row & -> & _ & S'). repeat tx_step. eexists. split; [by split|]. split; [|done].
    intros d u. done.
  - exists []. split; [by apply continues_nil|done].
Qed.

Lemma status_transition_spec t log previous current occurred now :
  spool_ok t log -> offset occurred = 0 -> roomy t ->
  after (record_status_transition new_node_id previous current occurred now) t (fun r t' =>
    match r with
    | Ok _ => exists evs, continues log t evs t' /\ quiet_events evs /\ zlen evs <= 2
    | Err _ => True
    end).
Proof.
  unfold roomy. intros S Ho Hm. unfold record_status_transition.
  destruct (bool_decide (previous = current)); repeat tx_step.
  { exists []. split; [by apply continues_nil|done]. }
  eapply after_mono; [apply (enqueue_status_spec t log); [done|done|lia]|].
  intros [[]|e] t1; [|done]. intros (evs & Hc & Hq & Hl). pose proof (continues_next _ _ _ _ S Hc).
  eapply after_mono; [apply (enqueue_status_spec t1 (log ++ evs)); [apply Hc|done|lia]|].
  intros [[]|e] t2; [|done]. intros (evs' & Hc' & Hq' & Hl'). exists (evs ++ evs').
  split; [by eapply continues_app|]. split; [by apply quiet_app|]. rewrite zlen_app. lia.
Qed.

(** ** Deltas *)

(** What a user's new counters add to the old ones *)
Definition user_delta (previous : gmap Uuid (Z * Z)) (user : Uuid * (Z * Z)) : Z * Z :=
  match previous !! user.1 with
  | Some before =>
      if (user.2.1 <? before.1) || (user.2.2 <? before.2) then (0, 0)
      else (user.2.1 - before.1, user.2.2 - before.2)
  | None => (0, 0)
  end.
Definition delta_for (d : Direction) (u : Uuid) (previous : gmap Uuid (Z * Z)) (user : Uuid * (Z * Z)) : Z :=
  if decide (user.1 = u) then pick d (user_delta previous user).1 (user_delta previous user).2 else 0.
Definition delta_total (previous : gmap Uuid (Z * Z)) (user : Uuid * (Z * Z)) : Z :=
  (user_delta previous user).1 + (user_delta previous user).2.

(** [t'] is [t] with more waiting traffic. *)
Definition set_waiting (t t' : Telemetry) : Prop := exists p, t' = set_pending p t.
Lemma set_waiting_refl t : set_waiting t t.
Proof. exists (tl_pending t). by destruct t. Qed.
Lemma set_waiting_trans t t' t'' : set_waiting t t' -> set_waiting t' t'' -> set_waiting t t''.
Proof. intros [p ->] [q ->]. by exists q. Qed.
#[local] Hint Resolve set_waiting_refl set_waiting_trans : core.

Lemma accumulate_spec t u up down now :
  after (accumulate_pending_traffic u up down now) t (fun r t' =>
    match r with
    | Ok _ => set_waiting t t' /\
        forall d v, pending_bytes d v t' = pending_bytes d v t + if decide (u = v) then pick d up down else 0
    | Err _ => True
    end).
Proof.
  unfold accumulate_pending_traffic. repeat tx_step.
  destruct (match tl_pending t !! u with Some row => (pd_bytes_up row, pd_bytes_down row) | None => (0, 0) end)
    as [a b] eqn:Ep. repeat tx_step.
  destruct (present_or _ (checked_add _ a up)) as [x|] eqn:Ex; [|done].
  apply present_or_Ok, checked_add_Some in Ex as [-> _]. repeat tx_step.
  destruct (present_or _ (checked_add _ b down)) as [y|] eqn:Ey; [|done].
  apply present_or_Ok, checked_add_Some in Ey as [-> _]. repeat tx_step; [|done].
  intros t' Ht. inv_ok. split; [by eexists|]. intros d v. unfold pending_bytes. cbn.
  destruct (decide (u = v)) as [<-|Hne].
  - rewrite lookup_insert_eq. destruct (tl_pending t !! u); injection Ep as <- <-; by destruct d.
  - rewrite lookup_insert_ne by done. lia.
Qed.

Lemma add_user_delta_spec previous now t acc user :
  after (add_user_delta previous now acc user) t (fun r t' =>
    match r with
    | Ok total => total = acc + delta_total previous user /\ set_waiting t t' /\
        forall d v, pending_bytes d v t' = pending_bytes d v t + delta_for d v previous user
    | Err _ => True
    end).
Proof.
  unfold add_user_delta, delta_total, delta_for, user_delta.
  destruct (previous !! user.1) as [before|].
  2:{ tx_step. cbn. split; [lia|]. split; [done|]. intros [] v; case_decide; cbn; lia. }
  tx_step.
  { tx_step. cbn. split; [lia|]. split; [done|]. intros [] v; case_decide; cbn; lia. }
  repeat tx_step.
  { apply andb_true_iff in Hif0 as [H1%Z.eqb_eq H2%Z.eqb_eq]. cbn. split; [lia|]. split; [done|].
    intros [] v; case_decide; cbn; lia. }
  eapply after_mono; [apply accumulate_spec|]. intros [[]|e] t'; [|done]. intros [Hw Hp]. repeat tx_step.
  destruct (present_or _ _) as [total|] eqn:Et; [|done]. apply present_or_Ok in Et.
  destruct (checked_add i64_max acc _) as [x|] eqn:Ex; [|done].
  apply checked_add_Some in Ex as [-> _]. apply checked_add_Some in Et as [-> _].
  split; [cbn; lia|]. split; [done|]. intros d v. rewrite Hp. by case_decide.
Qed.

Lemma add_deltas_spec previous now l t acc :
  after (tx_fold (add_user_delta previous now) acc l) t (fun r t' =>
    match r with
    | Ok total => total = acc + sum_of (delta_total previous) l /\ set_waiting t t' /\
        forall d v, pending_bytes d v t' = pending_bytes d v t + sum_of (delta_for d v previous) l
    | Err _ => True
    end).
Proof.
  revert t acc. induction l as [|user l IH]; intros t acc; cbn [tx_fold]; repeat tx_step.
  { split; [cbn; lia|]. split; [done|]. intros. cbn. lia. }
  eapply after_mono; [apply add_user_delta_spec|]. intros [a|e] t1; [|done]. intros (-> & Hw & Hp).
  eapply after_mono; [apply IH|]. intros [b|e] t2; [|done]. intros (-> & Hw' & Hp').
  split; [unfold sum_of; cbn; lia|]. split; [by eapply set_waiting_trans|].
  intros d v. rewrite Hp', Hp. unfold sum_of. cbn. lia.
Qed.

(** Over a map, the sum for one user is that user's delta. *)
Lemma by_user_keys {A} (m : gmap Uuid A) : NoDup (by_user m).*1.
Proof. unfold by_user. rewrite (merge_sort_Permutation uuid_order (map_to_list m)). apply NoDup_fst_map_to_list. Qed.
Lemma by_user_elem {A} (m : gmap Uuid A) u a : (u, a) ∈ by_user m <-> m !! u = Some a.
Proof. unfold by_user. by rewrite (merge_sort_Permutation uuid_order (map_to_list m)), elem_of_map_to_list. Qed.
Lemma sum_for_user {A} (f : Uuid * A -> Z) u l :
  NoDup l.*1 -> sum_of (fun x => if decide (x.1 = u) then f x else 0) l =
    match list_find (fun x => x.1 = u) l with Some (_, x) => f x | None => 0 end.
Proof.
  induction l as [|[v a] l IH]; intros Hn; [done|]. cbn in Hn. apply NoDup_cons in Hn as [Hv Hn].
  unfold sum_of in *. cbn [foldr list_find fst]. destruct (decide (v = u)) as [<-|Hne].
  - rewrite IH by done. destruct (list_find _ l) as [[i [w b]]|] eqn:El; [|lia].
    apply list_find_Some in El as (El & Hw & _). cbn in Hw. subst w. destruct Hv.
    apply list_elem_of_fmap. exists (v, b). split; [done|]. by eapply list_elem_of_lookup_2.
  - rewrite IH by done. by destruct (list_find _ l) as [[i x]|].
Qed.
Lemma sum_by_user {A} (f : Uuid * A -> Z) u (m : gmap Uuid A) :
  sum_of (fun x => if decide (x.1 = u) then f x else 0) (by_user m) =
    match m !! u with Some a => f (u, a) | None => 0 end.
Proof.
  rewrite sum_for_user by apply by_user_keys. destruct (list_find _ _) as [[i [v a]]|] eqn:El.
  - apply list_find_Some in El as (El & Hv & _). cbn in Hv. subst v.
    apply list_elem_of_lookup_2, by_user_elem in El. by rewrite El.
  - destruct (m !! u) as [a|] eqn:Em; [|done]. apply list_find_None in El. rewrite Forall_forall in El.
    apply by_user_elem in Em. by specialize (El _ Em).
Qed.

(** ** A snapshot of the counters *)

Context `{Cal : Calendar}.

Definition same_generation (t : Telemetry) (target : StatsQueryTarget) : bool :=
  bool_decide (tl_runtime_generation t = Some (sq_runtime_generation target)).
(** What a snapshot adds for a user, and in all *)
Definition snapshot_delta (d : Direction) (u : Uuid) (t : Telemetry) (target : StatsQueryTarget)
    (snapshot : gmap Uuid (Z * Z)) : Z :=
  if same_generation t target then
    match snapshot !! u with
    | Some now => pick d (user_delta (tl_counters t) (u, now)).1 (user_delta (tl_counters t) (u, now)).2
    | None => 0
    end
  else 0.
Definition snapshot_total (t : Telemetry) (target : StatsQueryTarget) (snapshot : gmap Uuid (Z * Z)) : Z :=
  if same_generation t target then sum_of (delta_total (tl_counters t)) (by_user snapshot) else 0.

Lemma after_on_provider {A} (m : Tx Provider HostError A) t (Q : host_result A -> Telemetry -> Prop) :
  (forall r p, m (tl_provider t) = (r, p) -> Q r (set_provider p t)) -> after (on_provider m) t Q.
Proof. intros H. unfold after, on_provider. destruct (m (tl_provider t)) as [r p] eqn:Em. by apply H. Qed.

(** [log] is that of the node before; the events are status changes. *)
Definition snapshot_taken (log : list TelemetryEvent) (t : Telemetry) (target : StatsQueryTarget)
    (snapshot : gmap Uuid (Z * Z)) (now : Z) (t' : Telemetry) : Prop :=
  exists evs, spool_ok t' (log ++ evs) /\ quiet_events evs /\ zlen evs <= 2 /\
    tl_acknowledged_sequence t' = tl_acknowledged_sequence t /\
    (forall d u, pending_bytes d u t' = pending_bytes d u t + snapshot_delta d u t target snapshot) /\
    record_usage_delta (snapshot_total t target snapshot) now (tl_provider t) = (Ok tt, tl_provider t') /\
    tl_counters t' = snapshot /\ tl_runtime_generation t' = Some (sq_runtime_generation target).

Lemma beside_eq t t' : beside t' = beside t ->
  tl_acknowledged_sequence t' = tl_acknowledged_sequence t /\ tl_runtime_generation t' = tl_runtime_generation t /\
  tl_last_status_code t' = tl_last_status_code t /\ tl_counters t' = tl_counters t /\
  tl_pending t' = tl_pending t /\ tl_provider t' = tl_provider t.
Proof. unfold beside. naive_solver. Qed.

Lemma deltas_spec t target snapshot now :
  after (if same_generation t target then tx_fold (add_user_delta (tl_counters t) now) 0 (by_user snapshot) else mret 0)
    t (fun r t' => match r with
      | Ok total => total = snapshot_total t target snapshot /\ set_waiting t t' /\
          forall d u, pending_bytes d u t' = pending_bytes d u t + snapshot_delta d u t target snapshot
      | Err _ => True
      end).
Proof.
  unfold snapshot_total, snapshot_delta. destruct (same_generation t target).
  - eapply after_mono; [apply add_deltas_spec|]. intros [total|e] t'; [|done]. intros (-> & Hw & Hp).
    split; [lia|]. split; [done|]. intros d u. rewrite Hp. f_equal.
    apply (sum_by_user (fun user => pick d (user_delta (tl_counters t) user).1 (user_delta (tl_counters t) user).2)).
  - repeat tx_step. split; [done|]. split; [done|]. intros. lia.
Qed.

Lemma record_snapshot_spec db o occurred target snapshot t log :
  spool_ok t log -> roomy t ->
  after (record_snapshot new_node_id db o occurred target snapshot) t (fun r t' =>
    match r with
    | Ok _ => exists now, unix_seconds (ot_wall o) = Ok now /\ snapshot_taken log t target snapshot now t'
    | Err _ => t' = t
    end).
Proof.
  intros S Hm. unfold record_snapshot. repeat tx_step. destruct (unix_seconds (ot_wall o)) as [now|]; [|done].
  apply after_transaction_body; [done|]. tx_step. apply after_purge. repeat tx_step.
  apply (spool_ok_purged now) in S. destruct (ensure _ _); [|done]. repeat tx_step.
  eapply after_mono; [by apply (status_transition_spec (purged now t) log)|].
  intros [[]|e] t1; [|done]. intros (evs & [S1 Hb] & Hq & Hl). apply beside_eq in Hb as (Ha & Hg & _ & Hc & Hp & Hv).
  tx_step. eapply after_mono.
  { pose proof (deltas_spec t1 target snapshot now) as H. unfold same_generation in H. rewrite Hg, Hc in H. exact H. }
  intros [total|e] t2; [|done]. intros (-> & [p ->] & Hd). repeat tx_step.
  apply after_on_provider. intros [[]|e] pv Hpv; [|done]. repeat tx_step; [|done]. intros t3 H3. unfold replace_counters in H3. inv_ok.
  repeat tx_step; [|done]. intros t4 H4. unfold update_collection in H4. inv_ok.
  exists now. split; [done|]. exists evs. split_and!; try done.
  - by eapply spool_ok_same.
  - intros d u. specialize (Hd d u). unfold pending_bytes, snapshot_delta, same_generation in *. cbn in *.
    rewrite Hg, Hc, Hp in Hd. exact Hd.
  - unfold snapshot_total, same_generation in *. cbn in *. rewrite Hg, Hc, Hv in Hpv. exact Hpv.
Qed.

(** ** Flushing *)

(** Waiting traffic moved to the log. *)
Definition flushed (log : list TelemetryEvent) (t t' : Telemetry) : Prop :=
  exists evs, spool_ok t' (log ++ evs) /\
    tl_acknowledged_sequence t' = tl_acknowledged_sequence t /\
    tl_runtime_generation t' = tl_runtime_generation t /\ tl_counters t' = tl_counters t /\
    tl_provider t' = tl_provider t /\
    forall d u, traffic d u evs + pending_bytes d u t' = pending_bytes d u t.
Lemma flushed_refl log t t' :
  spool_ok t' log -> beside t' = beside t -> flushed log t t'.
Proof.
  intros S Hb. apply beside_eq in Hb as (? & ? & _ & ? & Hp & ?). exists [].
  split_and!; try done; [by rewrite app_nil_r|]. intros d u. unfold pending_bytes. rewrite Hp. done.
Qed.

Definition moved (u : Uuid) (t : Telemetry) : Telemetry := set_pending (delete u (tl_pending t)) t.
Lemma timestamp_offset v t : timestamp_from_unix v = Ok t -> offset t = 0.
Proof. unfold timestamp_from_unix. intros. by inv_ok. Qed.

Lemma flush_rows_spec fallback now rows t log :
  spool_ok t log -> offset fallback = 0 -> tl_next_sequence t + zlen rows < i64_max ->
  NoDup rows.*1 -> (forall u row, (u, row) ∈ rows -> tl_pending t !! u = Some row) ->
  after (flush_rows new_node_id fallback now rows) t (fun r t' =>
    match r with Ok _ => flushed log t t' | Err _ => True end).
Proof.
  revert t log. induction rows as [|[u row] rows IH]; intros t log S Ho Hm Hd Hp; cbn [flush_rows]; repeat tx_step.
  { by apply flushed_refl. }
  destruct (map_err _ (non_negative_new (pd_bytes_up row))) as [up|] eqn:Eu; [|done].
  apply map_err_Ok, non_negative_new_Ok in Eu as [_ ->]. repeat tx_step.
  destruct (map_err _ (non_negative_new (pd_bytes_down row))) as [down|] eqn:Ed; [|done].
  apply map_err_Ok, non_negative_new_Ok in Ed as [_ ->]. repeat tx_step.
  assert (zlen ((u, row) :: rows) = zlen rows + 1) as Hz by (unfold zlen; cbn; lia). pose proof (zlen_nonneg rows).
  assert (tl_pending t !! u = Some row) as Hu by (apply Hp; left).
  apply after_is_ok. eapply after_mono; [apply (enqueue_spec t log); [done| |lia]|].
  { destruct (timestamp_from_unix _) eqn:Et; [by eapply timestamp_offset|done]. }
  intros [k|e] t1; cbn [is_ok]; [|intros ->; by apply flushed_refl].
  intros (-> & srow & -> & _ & S1). repeat tx_step. cbn [fmap list_fmap fst] in Hd. apply NoDup_cons in Hd as [Hu' Hd].
  match type of S1 with spool_ok _ (log ++ [?e]) => set (ev := e) in * end.
  set (t2 := moved u (with_event (tl_next_sequence t) srow t)).
  eapply after_mono; [apply (IH t2 (log ++ [ev]))|].
  - by eapply spool_ok_same.
  - done.
  - cbn. lia.
  - done.
  - intros v row' Hv. cbn. rewrite lookup_delete_ne; [apply Hp; by right|].
    intros <-. apply Hu', list_elem_of_fmap. by exists (u, row').
  - intros [[]|e] t'; [|done]. intros (evs & S' & Ha & Hg & Hc & Hv & Ht). exists (ev :: evs).
    split_and!; try done; [by rewrite <- app_assoc in S'|]. intros d v.
    assert (event_bytes d v ev + pending_bytes d v t2 = pending_bytes d v t) as <-.
    { unfold event_bytes, pending_bytes, ev. cbn. destruct (decide (u = v)) as [<-|Hne].
      - rewrite lookup_delete_eq, Hu. lia.
      - rewrite lookup_delete_ne by done. lia. }
    rewrite <- Ht. unfold traffic, sum_of. cbn. lia.
Qed.

Lemma flush_spec o fallback t log :
  spool_ok t log -> roomy t -> offset fallback = 0 ->
  after (flush_pending_traffic new_node_id o fallback) t (fun r t' =>
    match r with Ok _ => flushed log t t' | Err _ => t' = t end).
Proof.
  unfold roomy. intros S Hm Ho. unfold flush_pending_traffic. repeat tx_step.
  destruct (unix_seconds (ot_wall o)) as [now|]; [|done].
  apply after_transaction_body; [done|]. tx_step. apply after_purge. repeat tx_step.
  eapply after_mono; [apply (flush_rows_spec _ _ _ (purged now t) log)|].
  - by apply spool_ok_purged.
  - done.
  - cbn. unfold zlen. rewrite length_take. lia.
  - rewrite fmap_take. eapply sublist_NoDup; [apply (by_user_keys (tl_pending t))|apply sublist_take].
  - intros u row Hr. apply by_user_elem. apply elem_of_take in Hr as (i & Hi & _). by eapply list_elem_of_lookup_2.
  - by intros [[]|e] t'.
Qed.

(** ** Other operations on the spool *)

Lemma record_event_spec o kind occurred t log :
  spool_ok t log -> roomy t ->
  after (record_telemetry_event new_node_id o kind occurred) t (fun r t' =>
    match r with
    | Ok k => k = tl_next_sequence t /\ continues log t [mkEvent k (occurred_at occurred) kind] t'
    | Err _ => t' = t
    end).
Proof.
  unfold roomy. intros S Hm. unfold record_telemetry_event. repeat tx_step.
  destruct (unix_seconds (ot_wall o)) as [now|]; [|done].
  apply after_transaction_body; [done|]. tx_step. apply after_purge.
  eapply after_mono; [apply (enqueue_spec (purged now t) log); [by apply spool_ok_purged|done|cbn; lia]|].
  intros [k|e] t'; [|done]. intros (-> & row & -> & _ & S'). split; [done|]. by split.
Qed.

Lemma failure_spec o occurred code t log :
  spool_ok t log -> roomy t ->
  after (persist_collection_failure new_node_id o occurred code) t (fun r t' =>
    match r with
    | Ok _ => exists evs, spool_ok t' (log ++ evs) /\ quiet_events evs /\
        tl_acknowledged_sequence t' = tl_acknowledged_sequence t /\ tl_pending t' = tl_pending t /\
        tl_counters t' = tl_counters t /\ tl_runtime_generation t' = tl_runtime_generation t /\
        tl_provider t' = tl_provider t
    | Err _ => t' = t
    end).
Proof.
  unfold roomy. intros S Hm. unfold persist_collection_failure. repeat tx_step.
  destruct (unix_seconds (ot_wall o)) as [now|]; [|done].
  apply after_transaction_body; [done|]. tx_step. apply after_purge. apply (spool_ok_purged now) in S. repeat tx_step.
  { exists []. rewrite app_nil_r. by split_and!. }
  eapply after_mono; [by apply (status_transition_spec (purged now t) log)|].
  intros [[]|e] t1; [|done]. intros (evs & [S1 Hb] & Hq & _). apply beside_eq in Hb as (? & ? & _ & ? & ? & ?).
  tx_step; [|done]. intros t2 Hu. unfold update_collection in Hu. inv_ok.
  exists evs. split_and!; try done. by eapply spool_ok_same.
Qed.

(** Acknowledging drops nothing that is not acknowledged. *)
Lemma mark_acknowledged_lookup k acknowledged now t t' :
  mark_acknowledged acknowledged now t = Ok t' ->
  tl_spool t' !! k = (fun row => if k <=? acknowledged then mark now row else row) <$> tl_spool t !! k.
Proof.
  unfold mark_acknowledged. intros H. inv_ok. cbn. rewrite map_lookup_imap. by destruct (tl_spool t !! k).
Qed.
Definition acknowledged_to (t : Telemetry) (a : Z) (t' : Telemetry) : Prop :=
  tl_acknowledged_sequence t' = Z.max a (tl_acknowledged_sequence t) /\ a < tl_next_sequence t /\
  tl_next_sequence t' = tl_next_sequence t /\ tl_pending t' = tl_pending t /\ tl_counters t' = tl_counters t /\
  tl_runtime_generation t' = tl_runtime_generation t /\ tl_provider t' = tl_provider t.
Lemma acknowledge_spec o a t log :
  spool_ok t log ->
  after (acknowledge o a) t (fun r t' =>
    match r with
    | Ok _ => spool_ok t' log /\ acknowledged_to t (ack_acknowledged_sequence a) t' /\
        ack_expected_sequence a = ack_acknowledged_sequence a + 1
    | Err _ => t' = t
    end).
Proof.
  intros S. unfold acknowledge. repeat tx_step. destruct (validated _ _) as [[]|] eqn:Ev; [|done].
  unfold validated, ack_validate in Ev. apply map_err_Ok, ensure_Ok, bool_decide_eq_true, checked_next_Some in Ev.
  repeat tx_step. destruct (unix_seconds (ot_wall o)) as [now|]; [|done].
  apply after_transaction_body; [done|]. repeat tx_step. destruct (ensure _ _) as [[]|] eqn:En; [|done].
  apply ensure_Ok, negb_true_iff, Z.leb_gt in En. pose proof (so_acknowledged _ _ S) as Ha. repeat tx_step; try done.
  - intros t1 H1. apply Z.ltb_lt in Hif.
    assert (exists spool, t1 = set_spool spool t) as [spool ->] by (unfold mark_acknowledged in H1; inv_ok; by eexists).
    apply after_purge. split; [|split; [|lia]].
    + apply spool_ok_purged. apply (spool_ok_shrink t); [done|done|cbn; lia| |].
      * intros k row' Hr. cbn in Hr. pose proof (mark_acknowledged_lookup k _ _ _ _ H1) as Hk. cbn in Hk.
        rewrite Hr in Hk. destruct (tl_spool t !! k) as [row|]; [|done]. injection Hk as ->.
        exists row. split; [done|]. by case_match.
      * cbn. intros k row Hk Hr Hnone. pose proof (mark_acknowledged_lookup k _ _ _ _ H1) as Hl. cbn in Hl.
        rewrite Hl, Hr. cbn. by destruct (Z.leb_spec k (ack_acknowledged_sequence a)); [lia|].
    + split_and!; try done. cbn. lia.
  - apply after_purge. apply Z.ltb_ge in Hif. split; [by apply spool_ok_purged|]. split; [|lia].
    split_and!; try done. cbn. lia.
Qed.
End Spool.
