(* ===== verification/TelemetryUpload.v ===== *)
(** * Uploading the spool

    What [batch_from] reads is a slice of the log, and as long as the controller
    asks for an event that it has not acknowledged yet there is one: the batch
    starts at the event that is asked for, and its acknowledgement is accepted
    unless the clock of the node has gone back. *)
From S2P Require Import Prelude Text Clock ProtoTypes ProtoAuth ProtoNode ProtoTelemetry NodeHostDb NodeHostRuntime Transaction.
From S2P Require Import NodePolicy NodeTelemetry NodeTelemetryFacts.
From stdpp Require Import sorting list_numbers.
Open Scope Z_scope.

(** A character takes at most four bytes. *)
Lemma chars_bytes l : zlen l <= 4 * zlen (chars l) + 3.
Proof.
  remember (length l) as n eqn:Hn. revert l Hn. induction (lt_wf n) as [n _ IH]. intros l ->.
  destruct l as [|b0 l]; [unfold zlen; cbn; lia|]. cbn [chars].
  assert (forall b (k : list byte), zlen (b :: k) = zlen k + 1) as Hc by (intros; unfold zlen; cbn; lia).
  assert (forall (c : Z) k, zlen (c :: k) = zlen k + 1) as Hz by (intros; unfold zlen; cbn; lia).
  pose proof (fun k H => IH (length k) H k eq_refl) as IHl. cbn [length] in IHl.
  destruct (byte_to_Z b0 <=? 0x7F); [|destruct (byte_to_Z b0 <=? 0xDF); [|destruct (byte_to_Z b0 <=? 0xEF)]].
  - rewrite Hc, Hz. specialize (IHl l ltac:(lia)). lia.
  - destruct l as [|b1 l]; [unfold zlen; cbn; lia|]. rewrite !Hc, Hz. cbn [length] in IHl. specialize (IHl l ltac:(lia)). lia.
  - destruct l as [|b1 [|b2 l]]; [unfold zlen; cbn; lia..|]. rewrite !Hc, Hz. cbn [length] in IHl. specialize (IHl l ltac:(lia)). lia.
  - destruct l as [|b1 [|b2 [|b3 l]]]; [unfold zlen; cbn; lia..|]. rewrite !Hc, Hz. cbn [length] in IHl.
    specialize (IHl l ltac:(lia)). lia.
Qed.

(** ** Sorted ranges *)

Lemma sorted_filter (f : Z -> bool) l : StronglySorted Z.le l -> StronglySorted Z.le (List.filter f l).
Proof.
  induction 1 as [|a l Hs IH Hf]; cbn; [constructor|]. destruct (f a); [|done]. constructor; [done|].
  rewrite Forall_forall in Hf |- *. intros x Hx%list_elem_of_In. apply filter_In in Hx as [Hx _].
  by apply Hf, list_elem_of_In.
Qed.
Lemma sorted_seqZ (n : nat) m : StronglySorted Z.le (seqZ m (Z.of_nat n)).
Proof.
  revert m. induction n as [|n IH]; intros m; [constructor|].
  rewrite seqZ_cons by lia. replace (Z.pred (Z.of_nat (S n))) with (Z.of_nat n) by lia. constructor; [apply IH|].
  apply Forall_forall. intros x Hx%elem_of_seqZ. lia.
Qed.
Lemma range_of_spool {A} (m : gmap Z A) first next :
  first <= next -> (forall k, first <= k < next -> is_Some (m !! k)) -> (forall k, is_Some (m !! k) -> k < next) ->
  List.filter (fun k => first <=? k) (merge_sort Z.le (map_to_list m).*1) = seqZ first (next - first).
Proof.
  intros Hle Hin Hout. apply (StronglySorted_unique Z.le).
  - apply sorted_filter, StronglySorted_merge_sort; apply _.
  - rewrite <- (Z2Nat.id (next - first)) by lia. apply sorted_seqZ.
  - apply NoDup_Permutation.
    + apply NoDup_ListNoDup, List.NoDup_filter, NoDup_ListNoDup.
      rewrite (merge_sort_Permutation Z.le (map_to_list m).*1). apply NoDup_fst_map_to_list.
    + apply NoDup_seqZ.
    + intros k. rewrite elem_of_seqZ, list_elem_of_In, filter_In, <- list_elem_of_In, Z.leb_le.
      rewrite (merge_sort_Permutation Z.le (map_to_list m).*1), list_elem_of_fmap. split.
      * intros [([j a] & -> & Hj%elem_of_map_to_list) Hk]. cbn in *. specialize (Hout j (mk_is_Some _ _ Hj)). lia.
      * intros Hk. destruct (Hin k ltac:(lia)) as [a Ha]. split; [|lia]. exists (k, a). split; [done|].
        by apply elem_of_map_to_list.
Qed.
Lemma head_sorted l a : StronglySorted Z.le l -> a ∈ l -> exists b, head l = Some b /\ b <= a.
Proof.
  intros Hs Ha. destruct l as [|b l]; [by apply not_elem_of_nil in Ha|]. exists b. split; [done|].
  apply StronglySorted_inv in Hs as [_ Hf]. rewrite Forall_forall in Hf.
  apply elem_of_cons in Ha as [->|Ha]; [lia|by apply Hf].
Qed.

Section Upload.
Context `{Sha : Sha256} `{Json : EventJson} {Laws : EventJsonLaws Json}.

(** ** Slices of the log *)

Record slice (log : list TelemetryEvent) (b : TelemetryBatch) : Prop := {
  sl_valid : batch_validate b [TELEMETRY_SCHEMA_VERSION] = Ok tt;
  sl_first : 1 <= tb_first_sequence b;
  sl_some : tb_events b <> [];
  sl_last : tb_last_sequence b = tb_first_sequence b + zlen (tb_events b) - 1;
  sl_events i e : tb_events b !! i = Some e -> log !! (Z.to_nat (tb_first_sequence b - 1) + i)%nat = Some e;
}.
Lemma batch_slice_app log evs b : slice log b -> slice (log ++ evs) b.
Proof. intros [H1 H2 H3 H4 H5]. split; try done. intros i e He. by apply lookup_app_l_Some, H5. Qed.
Lemma slice_is_part log b : slice log b ->
  tb_events b = take (length (tb_events b)) (drop (Z.to_nat (tb_first_sequence b - 1)) log).
Proof.
  intros Hs. pose proof (sl_events _ _ Hs) as H. apply list_eq. intros i. destruct (tb_events b !! i) as [e|] eqn:E.
  - rewrite lookup_take_lt by (by eapply lookup_lt_Some). by rewrite lookup_drop, (H _ _ E).
  - apply lookup_ge_None in E. by rewrite lookup_take_ge.
Qed.
Lemma slice_bound log b : slice log b -> tb_first_sequence b <= tb_last_sequence b <= zlen log.
Proof.
  intros [_ H1 H2 H3 H4]. destruct (last (tb_events b)) as [e|] eqn:El; [|by apply last_None in El].
  rewrite last_lookup in El. pose proof (lookup_lt_Some _ _ _ El) as Hl. specialize (H4 _ _ El).
  apply lookup_lt_Some in H4. unfold zlen in *. lia.
Qed.
(** The log up to the end of a slice *)
Lemma slice_take log b :
  slice log b -> take (Z.to_nat (tb_last_sequence b)) log
    = take (Z.to_nat (tb_first_sequence b - 1)) log ++ tb_events b.
Proof.
  intros S. pose proof (slice_bound _ _ S). destruct S as [_ Hf Hs Hl He].
  assert (0 < zlen (tb_events b)) by (destruct (tb_events b); [done|unfold zlen; cbn; lia]).
  replace (Z.to_nat (tb_last_sequence b)) with (Z.to_nat (tb_first_sequence b - 1) + length (tb_events b))%nat
    by (unfold zlen in *; lia).
  apply list_eq. intros i.
  destruct (decide (i < Z.to_nat (tb_first_sequence b - 1))%nat).
  - rewrite lookup_take_lt by lia. rewrite lookup_app_l by (rewrite length_take; unfold zlen in *; lia).
    by rewrite lookup_take_lt.
  - rewrite lookup_app_r by (rewrite length_take; lia). rewrite length_take.
    rewrite Nat.min_l by (unfold zlen in *; lia).
    destruct (decide (i < Z.to_nat (tb_first_sequence b - 1) + length (tb_events b))%nat).
    + rewrite lookup_take_lt by done. destruct (lookup_lt_is_Some_2 (tb_events b) (i - Z.to_nat (tb_first_sequence b - 1))%nat)
        as [e Hi]; [lia|]. rewrite Hi. apply He in Hi. rewrite <- Hi. f_equal. lia.
    + rewrite lookup_take_ge by lia. symmetry. apply lookup_ge_None. lia.
Qed.

(** ** Reading *)

Definition read_rows (t : Telemetry) (ks : list Z) : list (Z * SpoolRow) :=
  omap (fun k => (fun row => (k, row)) <$> tl_spool t !! k) ks.
Lemma read_rows_elem t ks k row : (k, row) ∈ read_rows t ks -> tl_spool t !! k = Some row.
Proof.
  unfold read_rows. intros (j & _ & Hj)%list_elem_of_omap.
  destruct (tl_spool t !! j) as [r|] eqn:Er; [|done]. cbn in Hj. by injection Hj as -> ->.
Qed.

Definition logged (log : list TelemetryEvent) (e : TelemetryEvent) : Prop :=
  0 < ev_sequence e /\ log !! Z.to_nat (ev_sequence e - 1) = Some e.
Lemma read_events_logged t log rows acc bytes evs :
  spool_ok t log -> (forall k row, (k, row) ∈ rows -> tl_spool t !! k = Some row) -> Forall (logged log) acc ->
  read_events rows acc bytes = Ok evs -> Forall (logged log) evs.
Proof.
  intros S. revert acc bytes. induction rows as [|[k row] rows IH]; intros acc bytes Hr Ha; cbn [read_events].
  { by intros [= <-]. }
  intros H. apply bind_Ok in H as ([] & _ & H). apply bind_Ok in H as (x & _ & H). case_match; [by injection H as <-|].
  apply bind_Ok in H as (e & He & H). apply bind_Ok in H as ([] & _ & H). apply ok_or_Ok in He.
  assert (tl_spool t !! k = Some row) as Hrow by (apply Hr; left).
  destruct (so_read _ _ _ _ S Hrow) as (e' & Hl & He' & _ & Hk & _). rewrite He in He'. injection He' as <-.
  pose proof (so_bound _ _ _ _ S Hrow).
  eapply IH; [intros j r Hj; apply Hr; by right| |done]. apply Forall_app. split; [done|].
  constructor; [|done]. unfold logged. rewrite Hk. split; [lia|done].
Qed.

Lemma logged_slice log n evs first last_ :
  zlen log <= i64_max -> Forall (logged log) evs -> ev_sequence <$> head evs = Some first ->
  ev_sequence <$> last evs = Some last_ ->
  batch_validate (mkBatch TELEMETRY_SCHEMA_VERSION n first last_ evs) [TELEMETRY_SCHEMA_VERSION] = Ok tt ->
  slice log (mkBatch TELEMETRY_SCHEMA_VERSION n first last_ evs).
Proof.
  intros Hm Hf Hh Hl Hv. pose proof Hv as Hok. rewrite Forall_forall in Hf.
  assert (last_ <= i64_max).
  { destruct (last evs) as [e|] eqn:El; [|done]. injection Hl as <-. apply last_Some_elem_of in El.
    destruct (Hf _ El) as [Hp He]. apply lookup_lt_Some in He. unfold zlen in *. lia. }
  apply batch_validate_exact in Hok as (_ & _ & _ & Hn & Hlast); [|done]. cbn in *.
  destruct (head evs) as [e0|] eqn:Eh; [|done]. cbn in Hh. injection Hh as <-.
  assert (e0 ∈ evs) as H0 by (destruct evs; [done|injection Eh as ->; left]).
  split; cbn; try done.
  - destruct (Hf _ H0). lia.
  - by intros ->.
  - intros i e He. destruct (Hn _ _ He) as [Hs _]. destruct (Hf _ (list_elem_of_lookup_2 _ _ _ He)) as [Hp Hlk].
    destruct (Hf _ H0). rewrite <- Hlk. f_equal. lia.
Qed.

(** What is read for an upload is a slice of the log. *)
Lemma batch_from_slice t log n expected b :
  spool_ok t log -> roomy t -> batch_from n expected t = Ok (Some b) -> slice log b /\ tb_node_id b = n.
Proof.
  intros S Hm H. unfold roomy in Hm. pose proof (so_next _ _ S). unfold batch_from in H.
  apply bind_Ok in H as ([] & _ & H). case_match; [done|].
  apply bind_Ok in H as ([] & _ & H). apply bind_Ok in H as ([] & _ & H).
  apply bind_Ok in H as (evs & He & H). apply bind_Ok in H as (first & Hf & H). apply bind_Ok in H as (last_ & Hl & H).
  apply bind_Ok in H as ([] & Hv & H). injection H as <-. apply present_or_Ok in Hf, Hl. apply map_err_Ok in Hv.
  split; [|done]. apply logged_slice; try done; [lia|].
  eapply read_events_logged; [done| |by constructor|done]. intros k row. apply read_rows_elem.
Qed.

(** ** An upload is possible *)

(** Rows from [k] on, one after the other *)
Fixpoint rows_from (t : Telemetry) (k : Z) (rows : list (Z * SpoolRow)) : Prop :=
  match rows with
  | [] => True
  | (j, row) :: rows => j = k /\ tl_spool t !! k = Some row /\ rows_from t (k + 1) rows
  end.
Lemma read_rows_from t (n : nat) k :
  (forall j, k <= j < k + Z.of_nat n -> is_Some (tl_spool t !! j)) ->
  rows_from t k (read_rows t (seqZ k (Z.of_nat n))) /\ length (read_rows t (seqZ k (Z.of_nat n))) = n.
Proof.
  revert k. induction n as [|n IH]; intros k Hin; [done|]. rewrite seqZ_cons by lia.
  replace (Z.pred (Z.of_nat (S n))) with (Z.of_nat n) by lia. replace (Z.succ k) with (k + 1) by lia.
  destruct (Hin k ltac:(lia)) as [row Hr]. unfold read_rows in *. cbn [omap list_omap]. rewrite Hr. cbn.
  destruct (IH (k + 1)) as [H1 H2]; [intros j Hj; apply Hin; lia|]. rewrite H2. by split.
Qed.

(** Reading goes on until there are no rows or too many bytes. *)
Lemma read_events_from t log rows acc bytes first :
  spool_ok t log -> rows_from t (first + zlen acc) rows -> numbered first acc ->
  0 <= bytes <= MAX_TELEMETRY_BATCH_BYTES / 2 -> (acc = [] -> bytes = 0) ->
  exists evs, read_events rows acc bytes = Ok evs /\ numbered first evs /\
    zlen acc <= zlen evs <= zlen acc + zlen rows /\ (rows <> [] -> acc = [] -> evs <> []).
Proof.
  intros S. revert acc bytes. induction rows as [|[j row] rows IH]; intros acc bytes Hr Hn Hb H0; cbn [read_events].
  { exists acc. split_and!; try done; change (zlen (@nil (Z * SpoolRow))) with 0; lia. }
  destruct Hr as (-> & Hrow & Hrest). destruct (so_read _ _ _ _ S Hrow) as (e & Hl & He & Hd & Hk & Hlen).
  assert (zlen ((first + zlen acc, row) :: rows) = zlen rows + 1) as Hz by (unfold zlen; cbn; lia).
  pose proof (zlen_nonneg rows) as Hr0. pose proof (zlen_nonneg acc) as Ha0.
  assert (0 <= str_len (sr_event_json row) <= 65539) as Hbytes.
  { unfold str_len. split; [apply zlen_nonneg|]. pose proof (chars_bytes (as_bytes (sr_event_json row))).
    unfold text_length in Hlen. lia. }
  assert (checked_add usize_max bytes (str_len (sr_event_json row)) = Some (bytes + str_len (sr_event_json row))) as Hc.
  { apply checked_add_Some. change (MAX_TELEMETRY_BATCH_BYTES / 2) with 131072 in Hb. split; [done|]. ulia. }
  rewrite ensure_true by (by apply bool_decide_eq_true_2). rewrite Hc. cbn -[Z.add Z.div].
  destruct ((_ <? _) && _) eqn:Hstop.
  { exists acc. split_and!; try done; try lia. intros _ ->. by rewrite bool_decide_eq_true_2, andb_false_r in Hstop. }
  rewrite He. cbn -[Z.add]. rewrite Hk, Z.eqb_refl. cbn -[Z.add].
  destruct (so_log _ _ S (first + zlen acc) e) as (_ & _ & Hkind & _); [apply (so_bound _ _ _ _ S Hrow)|done|].
  destruct (IH (acc ++ [e]) (bytes + str_len (sr_event_json row))) as (evs & Hread & Hnum & Hbound & _).
  - by rewrite zlen_snoc, Z.add_assoc.
  - intros i x Hx. apply lookup_app_Some in Hx as [Hx|[Hi Hx]]; [by apply Hn|].
    apply list_lookup_singleton_Some in Hx as [Hi' <-]. split; [|done]. unfold zlen in Hk. lia.
  - split; [lia|]. destruct (decide (acc = [])) as [->|Hne].
    + rewrite H0 by done. unfold MAX_TELEMETRY_BATCH_BYTES. change (256 * 1024 / 2) with 131072. lia.
    + rewrite (bool_decide_eq_false_2 (length acc = 0%nat)), andb_true_r in Hstop by (by destruct acc).
      apply Z.ltb_ge in Hstop. exact Hstop.
  - intros Hnil. by destruct acc.
  - rewrite zlen_snoc in Hbound. exists evs. split_and!; try done; try lia.
    intros _ -> ->. change (zlen (@nil TelemetryEvent)) with 0 in *. lia.
Qed.

(** The events that go into one upload *)
Definition upload_count (t : Telemetry) (expected : Z) : nat :=
  Nat.min MAX_UPLOAD_EVENTS (Z.to_nat (tl_next_sequence t - expected)).
Definition upload_rows (t : Telemetry) (expected : Z) : list (Z * SpoolRow) :=
  read_rows t (take MAX_UPLOAD_EVENTS (List.filter (fun sequence => expected <=? sequence) (sequences (tl_spool t)))).
Lemma retained_from t log expected k :
  spool_ok t log -> tl_acknowledged_sequence t < expected -> expected <= k < tl_next_sequence t -> is_Some (tl_spool t !! k).
Proof.
  intros S He Hk. pose proof (so_acknowledged _ _ S).
  destruct (so_kept _ _ S k ltac:(lia)) as (row & Hr & _). by eexists.
Qed.
Lemma first_retained t expected : is_Some (tl_spool t !! expected) ->
  exists first, head (sequences (tl_spool t)) = Some first /\ first <= expected.
Proof.
  intros [row Hr]. apply head_sorted.
  - apply StronglySorted_merge_sort; apply _.
  - unfold sequences. rewrite (merge_sort_Permutation Z.le).
    apply list_elem_of_fmap. exists (expected, row). split; [done|]. by apply elem_of_map_to_list.
Qed.
Lemma upload_rows_range t log expected :
  spool_ok t log -> tl_acknowledged_sequence t < expected <= tl_next_sequence t ->
  upload_rows t expected = read_rows t (seqZ expected (Z.of_nat (upload_count t expected))).
Proof.
  intros S He. unfold upload_rows, sequences.
  rewrite (range_of_spool (tl_spool t) expected (tl_next_sequence t)); [| lia | |].
  - f_equal. apply list_eq. intros i. apply option_eq. intros x. rewrite lookup_take_Some, !lookup_seqZ.
    unfold upload_count, MAX_UPLOAD_EVENTS. lia.
  - intros k Hk. eapply retained_from; [done|apply He|done].
  - intros k [row Hr]. apply (so_bound _ _ _ _ S Hr).
Qed.
Lemma upload_events t log expected :
  spool_ok t log -> tl_acknowledged_sequence t < expected < tl_next_sequence t ->
  exists evs, read_events (upload_rows t expected) [] 0 = Ok evs /\ numbered expected evs /\
    1 <= zlen evs <= Z.min 512 (tl_next_sequence t - expected).
Proof.
  intros S He. rewrite (upload_rows_range t log) by (done || lia).
  destruct (read_rows_from t (upload_count t expected) expected) as [Hrows Hlen].
  { intros j Hj. unfold upload_count in Hj. eapply retained_from; [done|apply He|lia]. }
  assert (0 < Z.of_nat (upload_count t expected) <= Z.min 512 (tl_next_sequence t - expected))
    by (unfold upload_count, MAX_UPLOAD_EVENTS; lia).
  destruct (read_events_from t log (read_rows t (seqZ expected (Z.of_nat (upload_count t expected)))) [] 0 expected)
    as (evs & Hread & Hnum & Hbound & Hne); try done.
  { change (zlen (@nil TelemetryEvent)) with 0. by rewrite Z.add_0_r. }
  exists evs. split; [done|]. split; [done|].
  change (zlen (@nil TelemetryEvent)) with 0 in Hbound. unfold zlen at 3 in Hbound. rewrite Hlen in Hbound.
  assert (evs <> []) as Hevs.
  { apply Hne; [|done]. intros E'. apply (f_equal length) in E'. rewrite Hlen in E'.
    change (upload_count t expected = 0%nat) in E'. lia. }
  split; [|lia]. destruct evs; [done|]. unfold zlen. cbn. lia.
Qed.
(** A batch made of what was read passes its own validation. *)
Lemma batch_from_read t n expected evs :
  0 < expected < tl_next_sequence t -> tl_next_sequence t <= i64_max -> is_Some (tl_spool t !! expected) ->
  read_events (upload_rows t expected) [] 0 = Ok evs -> numbered expected evs -> 1 <= zlen evs <= 512 ->
  expected + zlen evs - 1 <= i64_max ->
  batch_from n expected t = Ok (Some (mkBatch TELEMETRY_SCHEMA_VERSION n expected (expected + zlen evs - 1) evs)).
Proof.
  intros He Hm Hin Hread Hnum Hlen Hlast. destruct (first_retained t expected Hin) as (first & Hfirst & Hle).
  unfold batch_from. rewrite (proj2 (Z.eqb_neq expected 0)) by lia. cbn [negb ensure mbind result_bind].
  rewrite (proj2 (Z.eqb_neq _ _)) by lia. rewrite (proj2 (Z.ltb_ge (tl_next_sequence t) expected)) by lia.
  cbn [negb ensure mbind result_bind]. rewrite Hfirst, (proj2 (Z.ltb_ge expected first)) by lia.
  cbn [negb ensure mbind result_bind]. unfold upload_rows, read_rows in Hread. rewrite Hread. cbn [mbind result_bind].
  destruct evs as [|e0 evs]; [unfold zlen in Hlen; cbn in Hlen; lia|].
  destruct (last (e0 :: evs)) as [e1|] eqn:El; [|by apply last_None in El]. cbn [head fmap option_fmap option_map present_or ok_or mbind result_bind].
  rewrite (numbered_last _ _ _ Hnum El).
  assert (ev_sequence e0 = expected) as -> by (destruct (Hnum 0%nat e0 eq_refl); lia).
  enough (batch_validate (mkBatch TELEMETRY_SCHEMA_VERSION n expected (expected + zlen (e0 :: evs) - 1) (e0 :: evs))
    [TELEMETRY_SCHEMA_VERSION] = Ok tt) as -> by done.
  apply batch_validate_exact; [cbn -[zlen]; lia|]. split_and!; try done; cbn -[zlen]; unfold MAX_TELEMETRY_BATCH_EVENTS; try lia. left.
Qed.

(** As long as something is missing, there is a batch that starts with it. *)
Lemma batch_from_next t log n expected :
  spool_ok t log -> roomy t -> tl_acknowledged_sequence t < expected < tl_next_sequence t ->
  exists b, batch_from n expected t = Ok (Some b) /\ slice log b /\ tb_node_id b = n /\
    tb_first_sequence b = expected.
Proof.
  intros S Hm He. pose proof (so_acknowledged _ _ S) as Ha. pose proof Hm as Hm'. unfold roomy in Hm'.
  destruct (upload_events t log expected S He) as (evs & Hread & Hnum & Hlen).
  pose proof (batch_from_read t n expected evs ltac:(lia) ltac:(lia)
    (retained_from t log expected expected S (proj1 He) ltac:(lia)) Hread Hnum ltac:(lia) ltac:(lia)) as Hb.
  eexists. split; [exact Hb|]. destruct (batch_from_slice _ _ _ _ _ S Hm Hb). by split_and!.
Qed.
End Upload.
