(* ===== verification/NodePolicyFacts.v ===== *)
(** * Facts on the provider's policy

    Weekly windows are intervals of the week; month names compare as months; the
    usage row follows a clock that never goes back, so that a month's bytes only
    grow until the month is over. *)
From S2P Require Import Prelude Text Clock ProtoTypes ProtoAuth ProtoTranscript ProtoNode ProtoTelemetry NodeHostDb NodeHostRuntime Transaction.
From S2P Require Import NodePolicy NodeTelemetryFacts.
Open Scope Z_scope.

(** ** Windows *)

(** Minutes since the Monday before 1970, and a window's place in its week *)
Definition MINUTES_PER_WEEK : Z := 7 * 1440.
Definition monday_minutes (t : OffsetDateTime) : Z := instant t / (60 * NANOS) + 3 * 1440.
Definition window_start (w : WeeklyScheduleWindow) : Z := (ws_weekday w - 1) * 1440 + ws_start_minute w.
Definition window_length (w : WeeklyScheduleWindow) : Z := (ws_end_minute w - ws_start_minute w) mod 1440.

(** The fields have their types. *)
Definition window_typed (w : WeeklyScheduleWindow) : Prop := 0 <= ws_start_minute w /\ 0 <= ws_end_minute w.
Lemma window_validate_Ok w :
  window_validate w = Ok tt <->
  1 <= ws_weekday w <= 7 /\ ws_start_minute w <= 1439 /\ ws_end_minute w <= 1439 /\ ws_start_minute w <> ws_end_minute w.
Proof. unfold window_validate. validates. lia. Qed.

Section Window.
Context `{Day : DayFields} {DayLaws : DayFieldsLaws Day}.

Lemma day_fields t :
  offset t = 0 ->
  hour t * 60 + minute t = monday_minutes t mod 1440 /\ iso_weekday (weekday t) = monday_minutes t / 1440 mod 7 + 1.
Proof.
  intros Ho. rewrite hour_utc, minute_utc, weekday_utc by done. unfold monday_minutes, unix_day, NANOS_PER_DAY, NANOS.
  set (m := instant t / (60 * 1000000000)).
  assert (instant t / (3600 * 1000000000) = m / 60) as -> by (unfold m; rewrite Z.div_div by lia; f_equal; lia).
  assert (instant t / (86400 * 1000000000) = m / 1440) as -> by (unfold m; rewrite Z.div_div by lia; f_equal; lia).
  clearbody m. split; Z.div_mod_to_equations; lia.
Qed.

(** Time since the window last opened *)
Lemma window_mod x s : 0 <= x < MINUTES_PER_WEEK -> 0 <= s < MINUTES_PER_WEEK ->
  (x - s) mod MINUTES_PER_WEEK = if s <=? x then x - s else x - s + MINUTES_PER_WEEK.
Proof.
  unfold MINUTES_PER_WEEK. intros Hx Hs. destruct (Z.leb_spec s x).
  - apply Z.mod_small. lia.
  - rewrite <- (Z_mod_plus_full _ 1). apply Z.mod_small. lia.
Qed.
Lemma window_contains_interval w t :
  window_typed w -> window_validate w = Ok tt -> offset t = 0 ->
  window_contains w t = true <->
  (monday_minutes t - window_start w) mod MINUTES_PER_WEEK < window_length w.
Proof.
  intros [Hs0 He0] (Hwd & Hs & He & Hne)%window_validate_Ok Ho. destruct (day_fields t Ho) as [Hmin Hday].
  unfold window_contains, window_start, window_length. rewrite Hmin, Hday. set (m := monday_minutes t).
  rewrite <- (Zminus_mod_idemp_l m). assert (m mod MINUTES_PER_WEEK = m / 1440 mod 7 * 1440 + m mod 1440) as ->.
  { unfold MINUTES_PER_WEEK. rewrite (Z.mul_comm 7), Z.rem_mul_r by lia. lia. }
  pose proof (Z.mod_pos_bound (m / 1440) 7 ltac:(lia)). pose proof (Z.mod_pos_bound m 1440 ltac:(lia)).
  rewrite window_mod by (unfold MINUTES_PER_WEEK; lia).
  assert ((ws_end_minute w - ws_start_minute w) mod 1440 =
    if ws_start_minute w <? ws_end_minute w then ws_end_minute w - ws_start_minute w
    else ws_end_minute w - ws_start_minute w + 1440) as ->.
  { destruct (Z.ltb_spec (ws_start_minute w) (ws_end_minute w)); [apply Z.mod_small; lia|].
    rewrite <- (Z_mod_plus_full _ 1). apply Z.mod_small. lia. }
  unfold next_weekday, MINUTES_PER_WEEK. set (d := m / 1440 mod 7) in *. set (k := m mod 1440) in *. clearbody d k.
  destruct (Z.ltb_spec (ws_start_minute w) (ws_end_minute w)), (Z.leb_spec ((ws_weekday w - 1) * 1440 + ws_start_minute w) (d * 1440 + k)),
    (Z.eqb_spec (ws_weekday w) 7);
    rewrite ?orb_true_iff, !andb_true_iff, !Z.eqb_eq, !Z.leb_le, !Z.ltb_lt; lia.
Qed.
End Window.

(** ** Names of months *)

Lemma bytes_lt_cons x y a b :
  bytes_lt (x :: a) (y :: b) = true <->
  byte_to_Z x < byte_to_Z y \/ byte_to_Z x = byte_to_Z y /\ bytes_lt a b = true.
Proof. cbn. destruct (Z.ltb_spec (byte_to_Z x) (byte_to_Z y)), (Z.ltb_spec (byte_to_Z y) (byte_to_Z x)); intuition (try lia; done). Qed.
Lemma bytes_lt_trans a b c : bytes_lt a b = true -> bytes_lt b c = true -> bytes_lt a c = true.
Proof.
  revert b c. induction a as [|x a IH]; intros [|y b] [|z c]; try done.
  rewrite !bytes_lt_cons. intros [?|[? ?]] [?|[? ?]]; [left; lia..|right; eauto with lia].
Qed.
Lemma bytes_lt_irrefl a : bytes_lt a a = false.
Proof. induction a; [done|]. cbn. by rewrite !Z.ltb_irrefl. Qed.
Lemma string_lt_trans a b c : string_lt a b = true -> string_lt b c = true -> string_lt a c = true.
Proof. apply bytes_lt_trans. Qed.
Lemma string_lt_irrefl a : string_lt a a = false.
Proof. apply bytes_lt_irrefl. Qed.

(** Numbers written at one width compare as numbers. *)
Definition padded_ok (width : nat) (n : Z) : bool :=
  bool_decide (length (zero_padded width n) = width)
  && bytes_lt (zero_padded width n) (zero_padded width (n + 1)).
Lemma years_padded : forallb (padded_ok 4) (seqZ 0 9999) = true.
Proof. vm_compute. reflexivity. Qed.
Lemma months_padded : forallb (padded_ok 2) (seqZ 0 99) = true.
Proof. vm_compute. reflexivity. Qed.

Section Padded.
Context (width : nat) (last : Z) (Hok : forallb (padded_ok width) (seqZ 0 last) = true)
  (Hlast : length (zero_padded width last) = width).

Lemma padded_succ n : 0 <= n < last ->
  length (zero_padded width n) = width /\ bytes_lt (zero_padded width n) (zero_padded width (n + 1)) = true.
Proof.
  intros Hn. rewrite forallb_forall in Hok. specialize (Hok n).
  rewrite <- list_elem_of_In, elem_of_seqZ in Hok. specialize (Hok ltac:(lia)).
  unfold padded_ok in Hok. rewrite andb_true_iff, bool_decide_eq_true in Hok. done.
Qed.
Lemma padded_length n : 0 <= n <= last -> length (zero_padded width n) = width.
Proof. intros Hn. destruct (decide (n = last)) as [->|]; [done|]. apply padded_succ. lia. Qed.
Lemma padded_lt n m : 0 <= n < m -> m <= last -> bytes_lt (zero_padded width n) (zero_padded width m) = true.
Proof.
  intros Hn Hm. replace m with (n + Z.of_nat (Z.to_nat (m - n - 1)) + 1) by lia.
  assert (n + Z.of_nat (Z.to_nat (m - n - 1)) + 1 <= last) as Hb by lia. revert Hb.
  induction (Z.to_nat (m - n - 1)) as [|k IH]; intros Hb.
  - rewrite Z.add_0_r in *. apply padded_succ. lia.
  - eapply bytes_lt_trans; [apply IH; lia|]. replace (n + Z.of_nat (S k)) with (n + Z.of_nat k + 1) in * by lia.
    apply padded_succ. lia.
Qed.
Lemma padded_order n m : 0 <= n <= last -> 0 <= m <= last ->
  (bytes_lt (zero_padded width n) (zero_padded width m) = true <-> n < m)
  /\ (zero_padded width n = zero_padded width m <-> n = m).
Proof.
  intros Hn Hm. destruct (Z.lt_trichotomy n m) as [H|[->|H]].
  - pose proof (padded_lt n m ltac:(lia) ltac:(lia)) as E. split; [by split|].
    split; [|lia]. intros En. rewrite En, bytes_lt_irrefl in E. done.
  - rewrite bytes_lt_irrefl. split; split; (done || lia).
  - pose proof (padded_lt m n ltac:(lia) ltac:(lia)) as E. split; (split; [|lia]); intros Hlt.
    + pose proof (bytes_lt_trans _ _ _ Hlt E) as C. by rewrite bytes_lt_irrefl in C.
    + rewrite Hlt, bytes_lt_irrefl in E. done.
Qed.
End Padded.

Lemma bytes_lt_app a a' b b' : length a = length a' ->
  bytes_lt (a ++ b) (a' ++ b') = true <-> bytes_lt a a' = true \/ a = a' /\ bytes_lt b b' = true.
Proof.
  revert a'. induction a as [|x a IH]; intros [|y a'] Hl; try done; cbn [app].
  - cbn. intuition done.
  - injection Hl as Hl. rewrite !bytes_lt_cons, IH by done. split.
    + intros [?|[Hxy [?|[-> ?]]]]; [by left; left|by left; right|].
      right. split; [|done]. f_equal. by apply byte_to_Z_inj.
    + intros [[?|[? ?]]|[[= -> ->] ?]]; [by left|by right; split; [|left]|by right; split; [|right]].
Qed.

(** The first and the last second a clock can show *)
Class CalendarRange (C : Calendar) : Prop := {
  first_year : year (mkTime 0 0) = 1970;
  last_year : year (mkTime (253402300799 * NANOS) 0) = 9999;
}.
#[export] Instance gregorian_range : CalendarRange gregorian.
Proof. by split; vm_compute. Qed.

Definition at_unix (seconds : Z) : OffsetDateTime := mkTime (seconds * NANOS) 0.
Definition clock_range (seconds : Z) : Prop := 0 <= seconds <= 253402300799.

Section Months.
Context `{Cal : Calendar} {Laws : CalendarLaws Cal} {Range : CalendarRange Cal}.

Lemma year_range s : clock_range s -> 1970 <= year (at_unix s) <= 9999.
Proof.
  intros [H0 H1]. pose proof (month_mono (mkTime 0 0) (at_unix s) eq_refl eq_refl) as A.
  pose proof (month_mono (at_unix s) (mkTime (253402300799 * NANOS) 0) eq_refl eq_refl) as B.
  rewrite key_le_spec in A, B. cbn in A, B. rewrite first_year in A. rewrite last_year in B.
  unfold NANOS in *. specialize (A ltac:(lia)). specialize (B ltac:(lia)). lia.
Qed.
Lemma month_key_lt s t : clock_range s -> clock_range t ->
  string_lt (month_key (at_unix s)) (month_key (at_unix t)) = true <->
  key_lt (year (at_unix s), month (at_unix s)) (year (at_unix t), month (at_unix t)) = true.
Proof.
  intros Hs%year_range Ht%year_range. pose proof (month_range (at_unix s)). pose proof (month_range (at_unix t)).
  unfold string_lt, month_key. rewrite !as_bytes_of_str.
  pose proof (padded_length 4 9999 years_padded eq_refl) as L4.
  destruct (padded_order 4 9999 years_padded eq_refl (year (at_unix s)) (year (at_unix t))) as [Y Y']; [lia..|].
  destruct (padded_order 2 99 months_padded eq_refl (month (at_unix s)) (month (at_unix t))) as [M _]; [lia..|].
  rewrite bytes_lt_app, bytes_lt_cons, key_lt_spec, Y, Y', M by (rewrite !L4; lia). cbn [fst snd]. lia.
Qed.
Lemma month_key_length s : clock_range s -> str_len (month_key (at_unix s)) = 7.
Proof.
  intros Hs%year_range. pose proof (month_range (at_unix s)). unfold str_len, month_key, zlen.
  rewrite as_bytes_of_str, length_app. cbn [length].
  rewrite (padded_length 4 9999 years_padded eq_refl), (padded_length 2 99 months_padded eq_refl) by lia. done.
Qed.

(** A later time is in the same month or in one with a greater name. *)
Lemma month_key_later s t : clock_range s -> clock_range t -> s <= t ->
  month_key (at_unix s) = month_key (at_unix t) \/ string_lt (month_key (at_unix s)) (month_key (at_unix t)) = true.
Proof.
  intros Hs Ht Hle. rewrite month_key_lt, key_lt_spec by done.
  pose proof (month_mono (at_unix s) (at_unix t) eq_refl eq_refl) as A. rewrite key_le_spec in A.
  cbn [fst snd instant at_unix] in *. specialize (A ltac:(unfold NANOS; lia)).
  destruct A as [?|[Ey ?]]; [by right; left|].
  destruct (decide (month (at_unix s) = month (at_unix t))) as [Em|]; [|right; lia].
  left. unfold month_key. by rewrite Ey, Em.
Qed.
End Months.

(** ** Usage *)

Section Usage.
Context `{Cal : Calendar} {Laws : CalendarLaws Cal} {Range : CalendarRange Cal}
  `{Day : DayFields} `{Json : PolicyJson} `{Ids : UuidText}.
Implicit Types (p : Provider) (row : UsageRow) (n : Z) (db : Db) (o : Outside).

(** The row of a fresh database, or one that names the month of its clock *)
Definition usage_row_ok row : Prop :=
  clock_range (us_clock_high_watermark row) /\ 0 <= us_observed_bytes row /\
  (us_utc_month row = EmptyString /\ us_observed_bytes row = 0
   \/ us_utc_month row = month_key (at_unix (us_clock_high_watermark row))).
Definition usage_ok p : Prop := exists row, pv_usage p = Some row /\ usage_row_ok row.

(** [n] bytes later: the clock has not gone back, and the month has its [n]
    bytes more unless a later month has begun. *)
Definition usage_grows n row row' : Prop :=
  us_clock_high_watermark row <= us_clock_high_watermark row' /\
  (us_utc_month row' = us_utc_month row /\ us_observed_bytes row' = us_observed_bytes row + n
   \/ string_lt (us_utc_month row) (us_utc_month row') = true /\ us_observed_bytes row' <= n).
Definition usage_moves n p p' : Prop :=
  exists row row', pv_usage p = Some row /\ pv_usage p' = Some row' /\ usage_row_ok row' /\ usage_grows n row row'.

Lemma usage_moves_refl p : usage_ok p -> usage_moves 0 p p.
Proof. intros (row & E & Hok). exists row, row. unfold usage_grows. split_and!; [done..|lia|left; split; [done|lia]]. Qed.
Lemma usage_moves_trans n m p q r : 0 <= n -> 0 <= m -> usage_moves n p q -> usage_moves m q r -> usage_moves (n + m) p r.
Proof.
  intros Hn Hm (a & b & Ea & Eb & _ & Hw & Hab) (b' & c & Eb' & Ec & Hc & Hw' & Hbc).
  rewrite Eb in Eb'. injection Eb' as <-. exists a, c. split; [done|]. split; [done|]. split; [done|].
  split; [lia|]. destruct Hab as [[E1 ?]|[E1 ?]], Hbc as [[E2 ?]|[E2 ?]].
  - left. split; [congruence|lia].
  - right. rewrite <- E1. split; [done|lia].
  - right. rewrite E2. split; [done|lia].
  - right. split; [by eapply string_lt_trans|lia].
Qed.
Lemma usage_moves_ok n p p' : usage_moves n p p' -> usage_ok p'.
Proof. intros (? & row' & _ & E & H & _). by exists row'. Qed.

(** The row a time at or after the watermark gives *)
Lemma usage_at_later row s : usage_row_ok row -> clock_range s -> us_clock_high_watermark row <= s ->
  (usage_at row (month_key (at_unix s))).1 = month_key (at_unix s) /\ 0 <= (usage_at row (month_key (at_unix s))).2 /\
  forall n last, 0 <= n ->
    let row' := mkUsageRow (month_key (at_unix s)) ((usage_at row (month_key (at_unix s))).2 + n) s last in
    usage_row_ok row' /\ usage_grows n row row'.
Proof.
  intros (Hw & Hb & Hm) Hs Hle. unfold usage_at, usage_grows, usage_row_ok.
  destruct Hm as [[Hm _]|Hm].
  - rewrite bool_decide_eq_true_2 by done. cbn. split_and!; [done..|]. intros n last Hn. split_and!; [done|lia|by right|lia|].
    right. split; [|lia]. rewrite Hm. unfold string_lt. pose proof (month_key_length s Hs) as L. unfold str_len in L.
    destruct (as_bytes (month_key (at_unix s))); [done|reflexivity].
  - assert (us_utc_month row <> EmptyString) as Hne.
    { intros E. pose proof (month_key_length _ Hw) as L. rewrite <- Hm, E in L. done. }
    rewrite bool_decide_eq_false_2 by done. rewrite orb_false_l.
    destruct (string_lt (us_utc_month row) (month_key (at_unix s))) eqn:Hlt; cbn.
    + split_and!; [done..|]. intros n last Hn. split_and!; [done|lia|by right|lia|]. right. split; [done|lia].
    + destruct (month_key_later _ s Hw Hs Hle) as [E|E]; [|rewrite <- Hm in E; congruence]. rewrite <- Hm in E.
      split_and!; [done..|]. intros n last Hn. split_and!; [done|lia|by right|lia|]. left. split; [done|lia].
Qed.

Lemma from_unix_timestamp_Ok s t : from_unix_timestamp s = Ok t -> s <= 253402300799 /\ t = at_unix s.
Proof. unfold from_unix_timestamp. intros H. inv_ok. bool_props. done. Qed.
Lemma update_usage_Ok row p row0 : pv_usage p = Some row0 ->
  (us_utc_month row = EmptyString \/ str_len (us_utc_month row) = 7) -> 0 <= us_observed_bytes row ->
  0 <= us_clock_high_watermark row -> update_usage row p = Ok (set_usage (Some row) p).
Proof.
  intros E Hm Hb Hw. unfold update_usage. rewrite E.
  rewrite !ensure_true by (rewrite ?orb_true_iff, ?bool_decide_eq_true, ?Z.eqb_eq, ?Z.leb_le; done). done.
Qed.

Definition usage_row p : UsageRow := default (mkUsageRow EmptyString 0 0 None) (pv_usage p).
(** The manual endpoint's address passed its validation when it was given. *)
Definition manual_ok p : Prop :=
  forall endpoint, pv_manual p = Some endpoint -> validate_endpoint_address (ma_address endpoint) = Ok tt.

Lemma components_usage db p now m b last st :
  load_status_components db p now m b last = Ok st ->
  mu_utc_month (st_month_usage st) = m /\ mu_observed_bytes (st_month_usage st) = b /\
  st_availability st = availability (st_policy st) now b.
Proof. unfold load_status_components. intros H. inv_ok. by match goal with E : try_from _ b = Some _ |- _ => apply try_from_Some in E as [-> _] end. Qed.

(** Reading the status on the side is reading it with the checkpoint. *)
Lemma checkpoint_run db now p row : pv_usage p = Some row -> usage_row_ok row ->
  exists row', usage_row_ok row' /\ usage_grows 0 row row' /\
    evaluate_and_checkpoint db true now p =
      match load_status_at db p now with Ok st => (Ok st, set_usage (Some row') p) | Err e => (Err e, p) end /\
    forall st, load_status_at db p now = Ok st ->
      us_utc_month row' = mu_utc_month (st_month_usage st) /\
      us_observed_bytes row' = mu_observed_bytes (st_month_usage st) /\ us_utc_month row' <> EmptyString /\
      exists now', st_availability st = availability (st_policy st) now' (us_observed_bytes row').
Proof.
  intros Er Hrow. unfold evaluate_and_checkpoint, load_status_at, load_usage_row.
  unfold transaction, mbind, tx_bind, tx_query at 1. rewrite Er. cbn -[NANOS].
  destruct (from_unix_timestamp _) as [now'|e] eqn:Et; cbn -[NANOS].
  2: { exists row. split; [done|]. split; [split; [lia|left; split; [done|lia]]|]. done. }
  apply from_unix_timestamp_Ok in Et as [Hmax ->]. set (s := Z.max (to_unix now) (us_clock_high_watermark row)) in *.
  assert (clock_range s) as Hs by (unfold clock_range, s in *; destruct Hrow as [[] _]; lia).
  destruct (usage_at_later row s Hrow Hs ltac:(lia)) as (Em & Hb & Hgrow).
  destruct (usage_at row (month_key (at_unix s))) as [m b]. cbn in Em, Hb, Hgrow. subst m.
  destruct (Hgrow 0 (us_last_observed_at row) ltac:(lia)) as [Hok Hg]. rewrite Z.add_0_r in Hok, Hg.
  eexists. split; [exact Hok|]. split; [exact Hg|]. unfold tx_execute.
  rewrite (update_usage_Ok _ _ row Er); [|by right; apply month_key_length|done|cbn; unfold clock_range in Hs; lia].
  split.
  - unfold tx_query. change (load_status_components db (set_usage _ p)) with (load_status_components db p).
    by destruct (load_status_components _ _ _ _ _ _).
  - intros st (-> & -> & ?)%components_usage. split_and!; [done..| |eauto]. cbn. intros E.
    pose proof (month_key_length s Hs) as L. by rewrite E in L.
Qed.

(** ** Every operation *)

(** What an operation that records [n] bytes keeps *)
Definition provider_kept n p p' : Prop := usage_moves n p p' /\ (manual_ok p -> manual_ok p').
Lemma provider_kept_refl p : usage_ok p -> provider_kept 0 p p.
Proof. intros H. split; [by apply usage_moves_refl|done]. Qed.
Lemma provider_kept_trans n m p q r : 0 <= n -> 0 <= m -> provider_kept n p q -> provider_kept m q r -> provider_kept (n + m) p r.
Proof. intros Hn Hm [A B] [C D]. split; [by eapply usage_moves_trans|auto]. Qed.
Lemma provider_kept_ok n p p' : provider_kept n p p' -> usage_ok p'.
Proof. intros [H _]. by eapply usage_moves_ok. Qed.
Lemma provider_kept_elsewhere p p' : usage_ok p -> pv_usage p' = pv_usage p -> (manual_ok p -> manual_ok p') -> provider_kept 0 p p'.
Proof.
  intros (row & E & Hok) Eu Hm. split; [|done]. destruct (usage_moves_refl p) as (r & r' & H); [by exists row|].
  exists r, r'. by rewrite Eu.
Qed.

Lemma evaluate_kept db o p : usage_ok p -> after (evaluate db o) p (fun _ p' => provider_kept 0 p p').
Proof.
  intros Hok. pose proof Hok as (row & Er & Hrow). unfold after, evaluate.
  destruct (ot_database o); [|by apply provider_kept_refl].
  destruct (checkpoint_run db (now_utc o) p row Er Hrow) as (row' & Hok' & Hg & -> & _).
  destruct (load_status_at _ _ _); [|by apply provider_kept_refl]. split; [|done]. by exists row, row'.
Qed.
Lemma configure_kept db o later policy p : usage_ok p ->
  after (configure_provider_policy db o later policy) p (fun _ p' => provider_kept 0 p p').
Proof.
  intros Hok. unfold configure_provider_policy.
  do 3 (tx_step; tx_step; case_match; [|by apply provider_kept_refl]). tx_step.
  apply after_transaction; [intros; by apply provider_kept_refl|]. intros [] p' E.
  assert (provider_kept 0 p p') as K.
  { unfold mbind, tx_bind, tx_query, tx_execute in E. destruct (pv_policy p); [|done]. cbn in E.
    destruct (checked_next _); [|done]. injection E as <-. by apply provider_kept_elsewhere. }
  eapply after_mono; [apply evaluate_kept; by eapply provider_kept_ok|]. intros r q Hq. by apply (provider_kept_trans 0 0 p p').
Qed.
Lemma set_pause_kept db before o later paused p : usage_ok p ->
  after (set_pause db before o later paused) p (fun _ p' => provider_kept 0 p p').
Proof.
  intros Hok. unfold set_pause. tx_step. eapply after_mono; [by apply evaluate_kept|].
  intros [st|e] p' K; [|done]. eapply after_mono; [apply configure_kept; by eapply provider_kept_ok|].
  intros r q Hq. by apply (provider_kept_trans 0 0 p p').
Qed.
Lemma record_kept n at_ p : usage_ok p ->
  after (record_usage_delta n at_) p (fun r p' => is_ok r -> 0 <= n /\ provider_kept n p p').
Proof.
  intros Hok. pose proof Hok as (row & Er & Hrow). unfold record_usage_delta.
  tx_step. tx_step. destruct (ensure _ _) eqn:En; [|done]. apply ensure_Ok, Z.leb_le in En.
  tx_step. tx_step. unfold load_usage_row. rewrite Er. cbn [ok_or].
  tx_step. tx_step. destruct (from_unix_timestamp _) as [now'|e] eqn:Et; [|done].
  apply from_unix_timestamp_Ok in Et as [Hmax ->]. set (s := Z.max at_ (us_clock_high_watermark row)) in *.
  assert (clock_range s) as Hs by (unfold clock_range, s in *; destruct Hrow as [[] _]; lia).
  destruct (usage_at_later row s Hrow Hs ltac:(lia)) as (_ & Hb & Hgrow).
  tx_step. tx_step. destruct (ok_or _ _) as [total|e] eqn:Ec; [|done]. apply ok_or_Ok, checked_add_Some in Ec as [-> Hc].
  destruct (Hgrow n (Some at_) En) as [Hok' Hg].
  tx_step; [|done]. intros p'. rewrite (update_usage_Ok _ _ row Er); [|by right; apply month_key_length|cbn; lia|cbn; unfold clock_range in Hs; lia].
  intros [= <-] _. split; [done|]. split; [|done]. by eexists row, _.
Qed.
Lemma clear_kept o p : usage_ok p -> after (clear_manual_endpoint o) p (fun _ p' => provider_kept 0 p p').
Proof.
  intros Hok. unfold clear_manual_endpoint. apply after_transaction; [intros; by apply provider_kept_refl|].
  intros [] p' [= <-]. by apply provider_kept_elsewhere.
Qed.

Lemma manual_written db (row : ManualRow) p p' : usage_ok p -> (manual_ok p -> validate_endpoint_address (ma_address row) = Ok tt) ->
  (_ ← ensure (manual_row_ok db row) Sqlite; Ok (set_manual (Some row) p)) = Ok p' -> provider_kept 0 p p'.
Proof.
  intros Hok Ha H. inv_ok. apply provider_kept_elsewhere; [done..|]. intros Hm r [= <-]. auto.
Qed.
Lemma manual_configure_kept db load o id input p : usage_ok p ->
  after (configure_manual_endpoint db load o id input) p (fun _ p' => provider_kept 0 p p').
Proof.
  intros Hok. unfold configure_manual_endpoint.
  tx_step. tx_step. destruct (input_validate input) as [[]|] eqn:Ei; [|by apply provider_kept_refl].
  do 4 (tx_step; tx_step; case_match; [|by apply provider_kept_refl]).
  tx_step. apply after_transaction_body; [intros; by apply provider_kept_refl|].
  tx_step; [|done]. intros p' E. tx_step. eapply manual_written; [done| |exact E].
  intros _. unfold input_validate in Ei. inv_ok. done.
Qed.
Lemma carry_kept db o id revision port p : usage_ok p ->
  after (carry_manual_endpoint_forward db o id revision port) p (fun _ p' => provider_kept 0 p p').
Proof.
  intros Hok. unfold carry_manual_endpoint_forward.
  do 2 (tx_step; tx_step; case_match; [|by apply provider_kept_refl]).
  apply after_transaction_body; [intros; by apply provider_kept_refl|].
  tx_step. tx_step. destruct (pv_manual p) as [row|] eqn:Em; [|tx_step; by apply provider_kept_refl].
  tx_step; [tx_step; by apply provider_kept_refl|]. tx_step. tx_step; [|done]. intros p' E. tx_step.
  eapply manual_written; [done| |exact E]. intros Hm. by apply (Hm row).
Qed.

(** One call of an operation, at whatever time the clock shows; [n] is the
    bytes it recorded *)
Inductive policy_step : Z -> Provider -> Provider -> Prop :=
  | StepEvaluate db o p : policy_step 0 p (evaluate db o p).2
  | StepConfigure db o later policy p : policy_step 0 p (configure_provider_policy db o later policy p).2
  | StepPause db before o later paused p : policy_step 0 p (set_pause db before o later paused p).2
  | StepRecord n at_ p p' : record_usage_delta n at_ p = (Ok tt, p') -> policy_step n p p'
  | StepManual db load o id input p : policy_step 0 p (configure_manual_endpoint db load o id input p).2
  | StepClear o p : policy_step 0 p (clear_manual_endpoint o p).2
  | StepCarry db o id revision port p :
      policy_step 0 p (carry_manual_endpoint_forward db o id revision port p).2.
Inductive policy_steps : Z -> Provider -> Provider -> Prop :=
  | StepsNone p : policy_steps 0 p p
  | StepsMore n m p q r : policy_step n p q -> policy_steps m q r -> policy_steps (n + m) p r.

Lemma step_kept n p p' : usage_ok p -> policy_step n p p' -> 0 <= n /\ provider_kept n p p'.
Proof.
  intros Hok H. destruct H as [db o p|db o l pol p|db b o l pa p|n at_ p p' E|db ld o i inp p|o p|db o i r pt p].
  4: { pose proof (record_kept n at_ p Hok) as K. unfold after in K. rewrite E in K. by apply K. }
  all: split; [lia|].
  all: first [by apply evaluate_kept|by apply configure_kept|by apply set_pause_kept|
    by apply manual_configure_kept|by apply clear_kept|by apply carry_kept].
Qed.
Lemma steps_kept n p p' : usage_ok p -> policy_steps n p p' -> 0 <= n /\ provider_kept n p p'.
Proof.
  intros Hok H. induction H as [p|n m p q r S _ IH]; [split; [lia|by apply provider_kept_refl]|].
  destruct (step_kept n p q Hok S) as [Hn K]. destruct (IH ltac:(by eapply provider_kept_ok)) as [Hm K'].
  split; [lia|by eapply provider_kept_trans].
Qed.

(** What an evaluation says is what the row it leaves holds. *)
Lemma evaluate_status db o p st p' : usage_ok p -> evaluate db o p = (Ok st, p') ->
  exists row, pv_usage p' = Some row /\ usage_row_ok row /\ us_utc_month row <> EmptyString /\
    us_utc_month row = mu_utc_month (st_month_usage st) /\ us_observed_bytes row = mu_observed_bytes (st_month_usage st) /\
    exists now, st_availability st = availability (st_policy st) now (us_observed_bytes row).
Proof.
  intros (row & Er & Hrow). unfold evaluate. destruct (ot_database o); [|done].
  destruct (checkpoint_run db (now_utc o) p row Er Hrow) as (row' & Hok' & Hg & -> & Hst).
  destruct (load_status_at _ _ _) as [st'|]; [|done]. intros [= -> <-].
  destruct (Hst st eq_refl) as (? & ? & ? & ?). by exists row'.
Qed.
Lemma availability_open policy now bytes : availability policy now bytes = Available ->
  pp_paused policy = false /\ schedule_allows policy now = true /\
  forall cap, pp_monthly_transfer_cap_bytes policy = Some cap -> bytes < cap.
Proof.
  unfold availability. destruct (pp_paused policy), (schedule_allows policy now); try done. cbn.
  destruct (some_and _ _) eqn:E; [done|]. intros _. split_and!; [done..|]. intros cap Ec. rewrite Ec in E. by apply Z.leb_gt.
Qed.

(** The provider lets the node serve at a time [now], in seconds: the stored policy
    is not paused, and at the effective time, the later of [now] and the latest
    time the tables have seen, its schedule is open and its cap is above what the
    stored row says of that month. *)
Definition provider_open (p : Provider) (now : Z) : Prop :=
  exists stored policy row, pv_policy p = Some stored /\ policy_from_str (po_policy_json stored) = Some policy /\
    load_usage_row p = Ok row /\ pp_paused policy = false /\
    let effective := at_unix (Z.max now (us_clock_high_watermark row)) in
    schedule_allows policy effective = true /\
    forall cap, pp_monthly_transfer_cap_bytes policy = Some cap -> (usage_at row (month_key effective)).2 < cap.
Lemma status_open db p now st : load_status_at db p now = Ok st -> st_availability st = Available ->
  provider_open p (to_unix now).
Proof.
  unfold load_status_at, load_status_components. intros H Ha. inv_ok.
  match goal with E : from_unix_timestamp _ = _ |- _ => apply from_unix_timestamp_Ok in E as [_ ->] end.
  fold (at_unix (Z.max (to_unix now) (us_clock_high_watermark x))) in *.
  destruct (usage_at x _) as [m b] eqn:Eu. inv_ok. cbn in Ha. apply availability_open in Ha as (? & ? & Hcap).
  match goal with E : try_from _ b = Some _ |- _ => apply try_from_Some in E as [-> _] end.
  eexists _, _, x. do 4 (split; [done|]). cbv zeta. by rewrite Eu.
Qed.
End Usage.
