(* ===== verification/PolicyTheorems.v ===== *)
(** * The provider's limits hold

    What [NodePolicy] promises the provider: the weekly schedule is the set of
    minutes it describes, consumed transfer is never forgotten before the month
    is over, whatever the clock does, and an endpoint the provider forwarded is
    advertised only while the limits allow it. *)
From S2P Require Import Prelude Text Clock ProtoTypes ProtoInstances ProtoAuth ProtoTranscript ProtoNode ProtoTelemetry.
From S2P Require Import ProtoNodeFacts NodeHostDb NodeHostRuntime NodeHostFacts Transaction NodePolicy NodePolicyFacts.
Open Scope Z_scope.

(** ** Instances of the parameters *)

Definition weekday_of_iso (n : Z) : Weekday :=
  if n =? 1 then Monday else if n =? 2 then Tuesday else if n =? 3 then Wednesday
  else if n =? 4 then Thursday else if n =? 5 then Friday else if n =? 6 then Saturday else Sunday.
#[export] Instance civil_day : DayFields := {
  weekday t := weekday_of_iso (((instant t + offset t * NANOS) / NANOS_PER_DAY + 3) mod 7 + 1);
  hour t := (instant t + offset t * NANOS) / (3600 * NANOS) mod 24;
  minute t := (instant t + offset t * NANOS) / (60 * NANOS) mod 60;
}.
Lemma weekday_of_iso_inverse n : 1 <= n <= 7 -> iso_weekday (weekday_of_iso n) = n.
Proof.
  intros H. assert (n = 1 \/ n = 2 \/ n = 3 \/ n = 4 \/ n = 5 \/ n = 6 \/ n = 7) as Hn by lia.
  by repeat destruct Hn as [->|Hn]; [..|rewrite Hn].
Qed.
#[export] Instance civil_day_laws : DayFieldsLaws civil_day.
Proof.
  split; intros t Ho; unfold unix_day; cbn; rewrite Ho, Z.mul_0_l, Z.add_0_r; try done.
  apply weekday_of_iso_inverse. pose proof (Z.mod_pos_bound (instant t / NANOS_PER_DAY + 3) 7). lia.
Qed.

#[export] Instance window_eq_dec : EqDecision WeeklyScheduleWindow.
Proof. solve_decision. Defined.
#[export] Instance policy_eq_dec : EqDecision ProviderPolicy.
Proof. solve_decision. Defined.
(** A serialiser that knows one policy *)
Definition one_policy_json (policy : ProviderPolicy) : PolicyJson := {|
  policy_to_string p := if bool_decide (p = policy) then Some "policy"%string else None;
  policy_from_str s := if bool_decide (s = "policy"%string) then Some policy else None;
|}.
Lemma one_policy_json_laws policy : PolicyJsonLaws (one_policy_json policy).
Proof.
  split. intros p s. cbn. case_bool_decide; [|done]. intros [= <-]. by subst.
Qed.

Section Theorems.
Context `{Cal : Calendar} {Laws : CalendarLaws Cal} {Range : CalendarRange Cal}
  `{Day : DayFields} {DayLaws : DayFieldsLaws Day} `{Json : PolicyJson} `{Ids : UuidText}.

(** a schedule that passed validation allows exactly the minutes it
    describes: every minute when it is empty, and otherwise the minutes that lie,
    counting round the week, in a window of [start, start + length); windows that
    run past midnight, and past the end of Sunday, included. *)
Theorem schedule_exact policy t :
  Forall window_typed (pp_weekly_schedule policy) -> policy_validate policy = Ok tt -> offset t = 0 ->
  schedule_allows policy t = true <->
  pp_weekly_schedule policy = [] \/
  Exists (fun w => (monday_minutes t - window_start w) mod MINUTES_PER_WEEK < window_length w) (pp_weekly_schedule policy).
Proof.
  intros Ht Hv Ho. unfold policy_validate in Hv. validates in Hv. destruct Hv as (_ & _ & Hv & _).
  unfold schedule_allows. rewrite orb_true_iff, bool_decide_eq_true, length_zero_iff_nil.
  apply or_iff_compat_l. rewrite existsb_exists, Exists_exists.
  rewrite Forall_forall in Ht, Hv.
  split; intros (w & Hw & Hc); rewrite ?list_elem_of_In in *; exists w; (split; [by rewrite ?list_elem_of_In in *|]);
    rewrite <- ?list_elem_of_In in Hw; by apply (window_contains_interval w t (Ht w Hw) (Hv w Hw) Ho).
Qed.

(** C14: whatever is called in between and whatever the system clock shows at each
    call, forwards or back: a later status shows the month of an earlier one with
    exactly the bytes recorded in between added, so that a cap that was reached
    stays reached; or it shows a month that comes later in the calendar, with no
    more than the bytes recorded in between. *)
Theorem consumed_quota_stays_consumed db o p st p1 n p2 db' o' st' p3 :
  usage_ok p ->
  evaluate db o p = (Ok st, p1) -> policy_steps n p1 p2 -> evaluate db' o' p2 = (Ok st', p3) ->
  let shown s := mu_utc_month (st_month_usage s) in
  let bytes s := mu_observed_bytes (st_month_usage s) in
  shown st' = shown st /\ bytes st' = bytes st + n /\
    (forall cap, pp_monthly_transfer_cap_bytes (st_policy st') = Some cap -> cap <= bytes st ->
       st_availability st' <> Available)
  \/ bytes st' <= n /\
     exists s s', clock_range s /\ clock_range s' /\ s <= s' /\ shown st = month_key (at_unix s) /\ shown st' = month_key (at_unix s') /\
       key_lt (year (at_unix s), month (at_unix s)) (year (at_unix s'), month (at_unix s')) = true.
Proof.
  intros Hok E1 Hs E2 shown bytes. destruct (evaluate_status _ _ _ _ _ Hok E1) as (r1 & R1 & K1 & N1 & M1 & B1 & _).
  destruct (steps_kept n p1 p2 ltac:(by exists r1) Hs) as [Hn K].
  pose proof (provider_kept_ok _ _ _ K) as Hok2. pose proof (evaluate_kept db' o' p2 Hok2) as K'. unfold after in K'.
  destruct (evaluate_status _ _ _ _ _ Hok2 E2) as (r3 & R3 & K3 & N3 & M3 & B3 & now & Ha). rewrite E2 in K'. cbn in K'.
  destruct (provider_kept_trans n 0 _ _ _ Hn ltac:(lia) K K') as [(a & b & Ea & Eb & _ & Hw & Hg) _]. rewrite Z.add_0_r in Hg.
  simplify_eq. unfold shown, bytes. rewrite <- M1, <- M3, <- B1, <- B3.
  destruct Hg as [[Em Eb']|[Hlt Hle]]; [left|right].
  - split_and!; [done..|]. intros cap Hc Hcap Hav. rewrite Ha in Hav.
    destruct (availability_open _ _ _ Hav) as (_ & _ & Hopen). specialize (Hopen cap Hc). lia.
  - split; [done|]. destruct K1 as (C1 & _ & [[? _]|X1]), K3 as (C3 & _ & [[? _]|X3]); [done..|].
    exists (us_clock_high_watermark r1), (us_clock_high_watermark r3). split_and!; [done..|].
    by rewrite <- month_key_lt, <- X1, <- X3 by done.
Qed.

(** the status read without a write, which decides what is advertised, is the
    status the checkpointing evaluation gives: the same value and the same error,
    for every state the operations leave and every clock. *)
Theorem advertised_status_is_evaluated db o p n q :
  usage_ok p -> policy_steps n p q -> ot_database o = true ->
  (evaluate db o q).1 = load_status_at db q (now_utc o) /\
  allows_advertising db (Some q) (now_utc o)
  = (st ← (evaluate db o q).1; Ok (bool_decide (st_availability st = Available))).
Proof.
  intros Hok Hs Ho. destruct (steps_kept n p q Hok Hs) as [_ K]. destruct (provider_kept_ok _ _ _ K) as (row & Er & Hrow).
  unfold evaluate, allows_advertising. rewrite Ho.
  destruct (checkpoint_run db (now_utc o) q row Er Hrow) as (row' & _ & _ & -> & _).
  by destruct (load_status_at _ _ _).
Qed.

(** a manual endpoint that is handed out to clients is one for the revision
    asked about, has an address that passed validation, has not expired by the
    system clock, and is handed out only while the provider is neither paused nor
    outside the schedule nor over the cap. *)
Theorem manual_endpoint_respects_limits db p n q o revision c :
  usage_ok p -> manual_ok p -> policy_steps n p q ->
  load_manual_candidate db (Some q) o revision = Ok (Some c) ->
  ec_applied_revision c = revision /\ 0 < revision /\ 0 <= ec_port c <= u16_max /\
  validate_endpoint_address (ec_address c) = Ok tt /\
  (exists expires, ec_expires_at c = Some (at_unix expires) /\ ot_wall o / NANOS < expires) /\
  provider_open q (ot_wall o / NANOS).
Proof.
  intros Hok Hm Hs H. destruct (steps_kept n p q Hok Hs) as [_ [_ K]]. specialize (K Hm).
  unfold load_manual_candidate, allows_advertising in H. cbn [mbind] in H. inv_ok.
  destruct (bool_decide _) eqn:Ha; [|done]. apply bool_decide_eq_true in Ha. cbn [negb] in H0. inv_ok.
  destruct (pv_manual q) as [row|] eqn:Em; [|done]. destruct (_ && _) eqn:Hif; [|done].
  apply andb_true_iff in Hif as [Hr%Z.eqb_eq Hx%Z.ltb_lt]. unfold unix_seconds, timestamp_from_unix in *. inv_ok.
  match goal with E : positive_new _ = _ |- _ => apply positive_new_Ok in E as [Hpos ->] end.
  match goal with E : try_from _ _ = Some _ |- _ => apply try_from_Some in E as [-> Hp] end.
  cbn -[NANOS validate_endpoint_address u16_max]. split; [done|]. split; [lia|]. split; [done|].
  split; [by apply K|]. split; [by eexists|].
  exact (status_open _ _ _ _ H Ha).
Qed.
End Theorems.

(** ** Witnesses *)

Definition sample_policy : ProviderPolicy :=
  mkPolicy PROVIDER_POLICY_SCHEMA_VERSION false [mkWindow 7 1380 60; mkWindow 1 540 1020] (Some (1024 * 1024)) 16 None.
#[local] Instance sample_json : PolicyJson := one_policy_json sample_policy.

(** Half past midnight on Monday 2026-07-20, and 23:30 on Sunday 2026-06-14 *)
Definition in_july : Outside := mkOutside true (1784507400 * NANOS).
Definition in_june : Outside := mkOutside true (1781479800 * NANOS).

Lemma schedule_exact_witness : schedule_allows sample_policy (now_utc in_july) = true.
Proof.
  apply (schedule_exact sample_policy (now_utc in_july)); [|reflexivity..|].
  - repeat constructor; cbn; lia.
  - right. apply Exists_cons_hd. vm_compute. reflexivity.
Defined.

(** Migration 16 with the sample policy configured *)
Definition sample_provider : Provider :=
  mkProvider (Some (mkPolicyRow "policy" 1 0)) (Some (mkUsageRow EmptyString 0 0 None)) None.
Lemma sample_usage_ok : usage_ok sample_provider.
Proof. eexists. split; [reflexivity|]. unfold usage_row_ok, clock_range. cbn. split_and!; [lia..|by left]. Qed.
Lemma sample_manual_ok : manual_ok sample_provider.
Proof. done. Qed.

Definition evaluated : Provider := (evaluate fresh_db in_july sample_provider).2.
Lemma evaluated_usage_ok : usage_ok evaluated.
Proof. eapply provider_kept_ok, (evaluate_kept fresh_db in_july), sample_usage_ok. Qed.
Definition consumed : Provider := (record_usage_delta (2 * 1024 * 1024) 1784507400 evaluated).2.
Lemma consumed_steps : policy_steps (2 * 1024 * 1024 + 0) evaluated consumed.
Proof. eapply StepsMore; [apply (StepRecord _ 1784507400)|apply StepsNone]. vm_compute. reflexivity. Qed.

(** The cap is reached in July; setting the clock back to June opens nothing. *)
Definition status_of (r : host_result ProviderPolicyStatus * Provider) : option ProviderPolicyStatus :=
  match r.1 with Ok st => Some st | Err _ => None end.
Definition month_of_status (r : host_result ProviderPolicyStatus * Provider) : option string :=
  (fun st => mu_utc_month (st_month_usage st)) <$> status_of r.
Lemma month_of_status_run r m : month_of_status r = Some m ->
  exists st, r = (Ok st, r.2) /\ mu_utc_month (st_month_usage st) = m.
Proof. destruct r as [[st|] p]; [|done]. cbn. intros [= <-]. by exists st. Qed.
Lemma july_month : month_of_status (evaluate fresh_db in_july sample_provider) = Some "2026-07"%string.
Proof. vm_compute. reflexivity. Qed.
Lemma june_month : month_of_status (evaluate fresh_db in_june consumed) = Some "2026-07"%string.
Proof. vm_compute. reflexivity. Qed.
Lemma consumed_quota_stays_consumed_witness :
  exists before st, evaluate fresh_db in_july sample_provider = (Ok before, evaluated) /\
    (evaluate fresh_db in_june consumed).1 = Ok st /\
    mu_observed_bytes (st_month_usage st) = mu_observed_bytes (st_month_usage before) + (2 * 1024 * 1024 + 0).
Proof.
  destruct (month_of_status_run _ _ july_month) as (before & E1 & J). destruct (month_of_status_run _ _ june_month) as (st & E2 & J').
  exists before, st. split; [exact E1|]. split; [exact (f_equal fst E2)|].
  destruct (consumed_quota_stays_consumed fresh_db in_july sample_provider before evaluated _ consumed fresh_db in_june st _
    sample_usage_ok E1 consumed_steps E2) as [(_ & B & _)|(_ & s & s' & Hs & Hs' & _ & M & M' & L)]; [exact B|].
  exfalso. clear E1 E2. cbn in M, M'. rewrite J in M. rewrite J' in M'.
  rewrite <- month_key_lt, <- M, <- M' in L by done. vm_compute in L. discriminate.
Defined.

Lemma advertised_status_is_evaluated_witness :
  allows_advertising fresh_db (Some consumed) (now_utc in_june)
  = (st ← (evaluate fresh_db in_june consumed).1; Ok (bool_decide (st_availability st = Available))).
Proof.
  apply (advertised_status_is_evaluated fresh_db in_june evaluated (2 * 1024 * 1024 + 0) consumed);
    [exact evaluated_usage_ok|exact consumed_steps|reflexivity].
Defined.

(** Revision 1 is applied and listens on port 443; the provider forwards it. *)
Definition applied_db : Db :=
  set_active (mkActive (Some 1) None None 1 0) (set_artifacts {[ 1 := mkArtifact EmptyString EmptyString EmptyString ]} fresh_db).
Definition forwarded : Provider :=
  (configure_manual_endpoint applied_db
     (fun revision => Ok (NodeHostDb.mkCandidate revision EmptyString EmptyString EmptyString [] 443 None))
     in_july (sample_uuid 9) (mkManualInput "node.example.org" 443 443 3600) sample_provider).2.
Lemma forwarded_steps : policy_steps (0 + 0) sample_provider forwarded.
Proof. eapply StepsMore; [apply StepManual|apply StepsNone]. Qed.
Lemma offered_candidate (r : host_result (option EndpointCandidate)) :
  match r with Ok (Some _) => true | _ => false end = true -> exists c, r = Ok (Some c).
Proof. destruct r as [[c|]|]; [by exists c|done..]. Qed.
Lemma forwarded_offered : exists c, load_manual_candidate applied_db (Some forwarded) in_july 1 = Ok (Some c).
Proof. apply offered_candidate. vm_compute. reflexivity. Qed.
Lemma manual_endpoint_respects_limits_witness :
  exists c, load_manual_candidate applied_db (Some forwarded) in_july 1 = Ok (Some c) /\
    validate_endpoint_address (ec_address c) = Ok tt.
Proof.
  destruct forwarded_offered as [c E]. exists c. split; [exact E|].
  destruct (manual_endpoint_respects_limits applied_db sample_provider (0 + 0) forwarded in_july 1 c
    sample_usage_ok sample_manual_ok forwarded_steps E) as (_ & _ & _ & A & _). exact A.
Defined.
