(* ===== verification/ControlTelemetryFacts.v ===== *)
(** * What the controller counts

    Facts on [ControlTelemetry]: ingesting a batch either changes nothing that
    counts, or moves the node's cursor over exactly the events of the batch and
    adds each of them once to its hour and its day. *)
From S2P Require Import Prelude Text Clock ProtoTypes ProtoAuth ProtoNode ProtoTelemetry NodeHostDb NodeHostRuntime Transaction.
From S2P Require Import NodePolicy NodeTelemetry ControlTelemetry NodeTelemetryFacts TelemetryUpload.
Open Scope Z_scope.

(** ** Columns of the aggregates *)

Inductive Column : Type := BytesUp | BytesDown | Connections.
Definition column (x : Column) (row : AggregateRow) : Z :=
  match x with BytesUp => ag_bytes_up row | BytesDown => ag_bytes_down row | Connections => ag_connection_count row end.
Definition no_traffic : AggregateRow := mkAggregateRow 0 0 0.
(** The number a table shows *)
Definition shown (x : Column) (n u : Uuid) (b : Z) (table : gmap (Uuid * Uuid * Z) AggregateRow) : Z :=
  column x (default no_traffic (table !! (u, n, b))).
(** The part of an event that belongs to a user's bucket *)
Definition share (width : Z) (x : Column) (u : Uuid) (b : Z) (e : TelemetryEvent) : Z :=
  match ev_kind e with
  | TrafficDelta user up down connections =>
      if bool_decide (user = u /\ bucket width (to_unix (ev_occurred_at e)) = b)
      then match x with BytesUp => up | BytesDown => down | Connections => connections end
      else 0
  | _ => 0
  end.
Definition cursor (c : Control) (n : Uuid) : Z := default 0 (ct_cursors c !! n).

Lemma upsert_shown width u n b up down connections table table' :
  upsert_traffic_aggregate width u n b up down connections table = Ok table' ->
  forall x n' u' b', shown x n' u' b' table' = shown x n' u' b' table +
    if bool_decide (u = u' /\ n = n' /\ b = b')
    then match x with BytesUp => up | BytesDown => down | Connections => connections end else 0.
Proof.
  unfold upsert_traffic_aggregate. intros H x n' u' b'. inv_ok.
  repeat match goal with H : checked_add _ _ _ = Some _ |- _ => apply checked_add_Some in H as [-> _] end.
  unfold shown. case_bool_decide as Hk.
  - destruct Hk as (-> & -> & ->). rewrite lookup_insert_eq. cbn. by destruct x.
  - rewrite lookup_insert_ne by (intros [= -> -> ->]; by apply Hk). lia.
Qed.
Lemma upsert_bucket width u n b up down connections table table' :
  upsert_traffic_aggregate width u n b up down connections table = Ok table' -> 0 <= b.
Proof. unfold upsert_traffic_aggregate. intros H. inv_ok. bool_props. lia. Qed.

Section Control.
Context `{Json : EventJson}.

(** Tables that only the administration changes, the cursors, and the node whose
    events are being added *)
Definition settings (c : Control) :=
  (ct_network c, ct_nodes c, ct_assignments c, ct_detailed_enabled c, ct_detailed_retention_days c).
Definition counted (n : Uuid) (evs : list TelemetryEvent) (c c' : Control) : Prop :=
  settings c' = settings c /\ ct_cursors c' = ct_cursors c /\
  (forall m i, is_Some (ct_events c' !! (m, i)) ->
     is_Some (ct_events c !! (m, i)) \/ (m = n /\ i ∈ ev_sequence <$> evs)) /\
  (forall x n' u b, shown x n' u b (ct_hourly c') = shown x n' u b (ct_hourly c) +
     if bool_decide (n = n') then sum_of (share 3600 x u b) evs else 0) /\
  (forall x n' u b, shown x n' u b (ct_daily c') = shown x n' u b (ct_daily c) +
     if bool_decide (n = n') then sum_of (share 86400 x u b) evs else 0).
Lemma counted_nil n c : counted n [] c c.
Proof. split_and!; try done; [by left|..]; intros; cbn; case_bool_decide; lia. Qed.
Lemma counted_cons n e evs c c1 c' :
  counted n [e] c c1 -> counted n evs c1 c' -> counted n (e :: evs) c c'.
Proof.
  intros (H1 & H3 & He & H4 & H5) (K1 & K3 & Ke & K4 & K5).
  split_and!; [congruence..| | |].
  { intros m i [[Hi|[-> Hi]]%He|[-> Hi]]%Ke; [by left|right..]; (split; [done|]); cbn in *; set_solver. }
  all: intros x n' u b; rewrite ?K4, ?H4, ?K5, ?H5; unfold sum_of; cbn;
    case_bool_decide; lia.
Qed.

Lemma insert_is_Some {A} (events : gmap (Uuid * Z) A) n k row m i :
  is_Some (<[(n, k) := row]> events !! (m, i)) -> is_Some (events !! (m, i)) \/ (m = n /\ i ∈ [k]).
Proof.
  destruct (decide ((n, k) = (m, i))) as [[= -> ->]|Hne]; [right; split; [done|left]|].
  rewrite lookup_insert_ne by done. by left.
Qed.
Lemma persist_spec n detailed now e c :
  after (persist_telemetry_event n detailed now e) c (fun r c' =>
    match r with Ok _ => counted n [e] c c' | Err _ => True end).
Proof.
  unfold persist_telemetry_event. repeat tx_step.
  destruct (ensure _ _); [|done]. repeat tx_step. destruct (ok_or _ _); [|done]. repeat tx_step.
  destruct (event_row _ _ _ _ _ _) as [row|]; [|done]. repeat tx_step; [|done].
  intros c1 H1. unfold insert_event_row in H1. inv_ok.
  destruct (ev_kind e) as [user up down connections| | |] eqn:Ek.
  2,3,4: repeat tx_step; split_and!; try done; [intros m i; by apply insert_is_Some|..]; intros x n' u b; unfold sum_of, share; cbn; rewrite Ek;
    destruct (bool_decide (n = n')); lia.
  repeat tx_step; [|done]. intros c2 H2. apply bind_Ok in H2 as (hourly & Hh & H2). injection H2 as <-.
  repeat tx_step; [|done]. intros c3 H3. apply bind_Ok in H3 as (daily & Hd & H3). injection H3 as <-.
  split_and!; try done; [intros m i; by apply insert_is_Some|..]; intros x n' u b; cbn.
  - rewrite (upsert_shown _ _ _ _ _ _ _ _ _ Hh). unfold sum_of, share. cbn. rewrite Ek.
    repeat case_bool_decide; naive_solver lia.
  - rewrite (upsert_shown _ _ _ _ _ _ _ _ _ Hd). unfold sum_of, share. cbn. rewrite Ek.
    repeat case_bool_decide; naive_solver lia.
Qed.

Lemma persist_all_spec n detailed now evs c :
  after (tx_for_each (persist_telemetry_event n detailed now) evs) c (fun r c' =>
    match r with Ok _ => counted n evs c c' | Err _ => True end).
Proof.
  revert c. induction evs as [|e evs IH]; intros c; cbn [tx_for_each]; repeat tx_step; [apply counted_nil|].
  eapply after_mono; [apply persist_spec|]. intros [[]|err] c1 H1; [|done].
  eapply after_mono; [apply IH|]. intros [[]|err] c2 H2; [|done]. by eapply counted_cons.
Qed.

(** A batch is taken as a whole or not at all. *)
Definition ingested (n : Uuid) (b : TelemetryBatch) (c : Control) (k : Z) (c' : Control) : Prop :=
  k = cursor c' n /\ settings c' = settings c /\ (forall m, m <> n -> cursor c' m = cursor c m) /\
  (forall m i, is_Some (ct_events c' !! (m, i)) -> is_Some (ct_events c !! (m, i)) \/
     (m = n /\ k = tb_last_sequence b /\ i ∈ ev_sequence <$> tb_events b)) /\
  ((tb_last_sequence b <= cursor c n /\ k = cursor c n /\ ct_hourly c' = ct_hourly c /\ ct_daily c' = ct_daily c) \/
   (tb_first_sequence b = cursor c n + 1 /\ k = tb_last_sequence b /\
    (forall x n' u b', shown x n' u b' (ct_hourly c') = shown x n' u b' (ct_hourly c) +
       if bool_decide (n = n') then sum_of (share 3600 x u b') (tb_events b) else 0) /\
    (forall x n' u b', shown x n' u b' (ct_daily c') = shown x n' u b' (ct_daily c) +
       if bool_decide (n = n') then sum_of (share 86400 x u b') (tb_events b) else 0))).

Lemma cursor_insert c n k m : cursor (set_cursors (<[n := k]> (ct_cursors c)) c) m = if decide (n = m) then k else cursor c m.
Proof.
  unfold cursor. cbn. destruct (decide (n = m)) as [<-|]; [by rewrite lookup_insert_eq|by rewrite lookup_insert_ne].
Qed.

(** The row the transaction makes sure of does not move the cursor. *)
Definition with_cursor (n : Uuid) (c : Control) : Control :=
  match ct_cursors c !! n with Some _ => c | None => set_cursors (<[n := 0]> (ct_cursors c)) c end.
Lemma with_cursor_same n c :
  (forall m, cursor (with_cursor n c) m = cursor c m) /\ settings (with_cursor n c) = settings c /\ ct_events (with_cursor n c) = ct_events c /\ ct_cursors (with_cursor n c) !! n = Some (cursor c n) /\
  ct_hourly (with_cursor n c) = ct_hourly c /\ ct_daily (with_cursor n c) = ct_daily c.
Proof.
  unfold with_cursor. destruct (ct_cursors c !! n) as [k|] eqn:Ek.
  - unfold cursor. by rewrite Ek.
  - split_and!; try done.
    + intros m. rewrite cursor_insert. destruct (decide (n = m)) as [<-|]; [|done]. unfold cursor. by rewrite Ek.
    + cbn. rewrite lookup_insert_eq. unfold cursor. by rewrite Ek.
Qed.

Lemma ingest_batch_spec now n b c :
  after (ingest_batch now n b) c (fun r c' => match r with Ok k => ingested n b c k c' | Err _ => True end).
Proof.
  unfold ingest_batch. repeat tx_step. destruct (load_network c); [|done]. repeat tx_step.
  destruct (ok_or (ct_nodes c !! n) _) as [status|]; [|done]. repeat tx_step. destruct (ensure _ _); [|done].
  repeat tx_step. fold (with_cursor n c). destruct (with_cursor_same n c) as (Hc & Hsame & Hevents & Hn & Hh & Hd).
  rewrite Hn. cbn [ok_or]. repeat tx_step.
  { apply Z.leb_le in Hif. unfold ingested. rewrite Hc, Hh, Hd, Hevents, Hsame. split_and!; try done; by left. }
  destruct (ok_or (checked_add _ _ _) _) as [k|] eqn:Ek; [|done]. apply ok_or_Ok, checked_add_Some in Ek as [-> _].
  repeat tx_step. destruct (ensure (_ =? _) _) as [[]|] eqn:Ef; [|done]. apply ensure_Ok, Z.eqb_eq in Ef. repeat tx_step.
  eapply after_mono; [apply persist_all_spec|]. intros [[]|e] c2; [|done]. intros (Hset & Hcur & Hev & Hhour & Hday).
  repeat tx_step. split; [by rewrite cursor_insert, decide_True|]. split; [cbn; by rewrite <- Hsame, <- Hset|]. split; [|split].
  - intros m Hm. rewrite cursor_insert, decide_False by done. unfold cursor. rewrite Hcur. apply Hc.
  - intros m i [Hi|[-> Hi]]%Hev; [left; by rewrite Hevents in Hi|by right].
  - right. split_and!; try done; intros x n' u b'; cbn.
    + by rewrite Hhour, Hh.
    + by rewrite Hday, Hd.
Qed.

Lemma ingest_spec o n b c :
  after (ingest_telemetry o n b) c (fun r c' =>
    match r with
    | Ok a => ingested n b c (ack_acknowledged_sequence a) c' /\
        ack_expected_sequence a = ack_acknowledged_sequence a + 1 /\ tb_node_id b = n
    | Err _ => c' = c \/ (exists k, ingested n b c k c' /\ tb_node_id b = n)
    end).
Proof.
  unfold ingest_telemetry. repeat tx_step. destruct (map_err _ _); [|by left]. repeat tx_step.
  destruct (ensure _ _) as [[]|] eqn:En; [|by left]. apply ensure_Ok, bool_decide_eq_true in En. repeat tx_step.
  destruct (control_seconds _) as [now|]; [|by left]. repeat tx_step. apply after_transaction_body; [by left|].
  eapply after_mono; [apply ingest_batch_spec|]. intros [k|e] c' Hi; [|done]. repeat tx_step.
  destruct (telemetry_cursor_from_acknowledged k) as [cu|] eqn:Ec; repeat tx_step; [|right; eauto].
  unfold telemetry_cursor_from_acknowledged in Ec. inv_ok. cbn.
  repeat match goal with
  | H : non_negative_new _ = Ok _ |- _ => apply non_negative_new_Ok in H as [_ ->]
  | H : checked_next _ = Some _ |- _ => apply checked_next_Some in H as [-> _]
  end. done.
Qed.

(** ** Retention *)

Lemma delete_buckets_shown before table x n u b :
  before <= b -> shown x n u b (delete_buckets before table).2 = shown x n u b table.
Proof.
  intros Hb. unfold delete_buckets, shown. cbn. f_equal.
  destruct (table !! (u, n, b)) as [row|] eqn:Er.
  - by rewrite (map_lookup_filter_Some_2 _ _ _ _ Er).
  - rewrite map_lookup_filter_None_2; [done|by left].
Qed.
Lemma delete_expired_sub types before events k kept n i :
  delete_expired types before events = (k, kept) -> is_Some (kept !! (n, i)) -> is_Some (events !! (n, i)).
Proof. intros [= _ <-] [row Hr]. apply map_lookup_filter_Some in Hr as [Hr _]. by eexists. Qed.
(** Retention only removes what is older than its classes allow. *)
Lemma retention_spec o c :
  after (enforce_telemetry_retention o) c (fun r c' =>
    match r with
    | Ok _ => exists now, control_seconds (ot_wall o) = Ok now /\ ct_cursors c' = ct_cursors c /\
        (forall n i, is_Some (ct_events c' !! (n, i)) -> is_Some (ct_events c !! (n, i))) /\
        (forall x n u b, aligned_retention_cutoff now TELEMETRY_HOURLY_RETENTION_DAYS 3600 <= b ->
           shown x n u b (ct_hourly c') = shown x n u b (ct_hourly c)) /\
        (forall x n u b, aligned_retention_cutoff now TELEMETRY_DAILY_RETENTION_DAYS 86400 <= b ->
           shown x n u b (ct_daily c') = shown x n u b (ct_daily c))
    | Err _ => c' = c
    end).
Proof.
  unfold enforce_telemetry_retention. repeat tx_step. destruct (control_seconds _) as [now|]; [|done].
  apply after_transaction_body; [done|]. repeat tx_step.
  destruct (delete_expired [EtConnection] _ _) as [detailed evs1] eqn:E1.
  destruct (delete_expired [EtTrafficDelta] _ _) as [tr evs2] eqn:E2.
  destruct (delete_expired _ _ evs2) as [health evs3] eqn:E3.
  assert (forall n i, is_Some (evs3 !! (n, i)) -> is_Some (ct_events c !! (n, i))) as He.
  { intros n i Hi. apply (delete_expired_sub _ _ _ _ _ _ _ E1), (delete_expired_sub _ _ _ _ _ _ _ E2).
    by apply (delete_expired_sub _ _ _ _ _ _ _ E3). }
  pose proof (delete_buckets_shown (aligned_retention_cutoff now TELEMETRY_HOURLY_RETENTION_DAYS 3600) (ct_hourly c)) as Hh.
  pose proof (delete_buckets_shown (aligned_retention_cutoff now TELEMETRY_DAILY_RETENTION_DAYS 86400) (ct_daily c)) as Hd.
  unfold id. destruct (delete_buckets _ (ct_hourly c)) as [hours hourly]. destruct (delete_buckets _ (ct_daily c)) as [days daily].
  repeat tx_step. destruct (load_network c); [|done]. repeat tx_step. exists now.
  by split_and!.
Qed.
End Control.
