(* ===== verification/TelemetryPipeline.v ===== *)
(** * From the counters to the controller's books

    Nodes and the controller together: nodes take snapshots of their counters,
    spool and upload events, the controller ingests, acknowledges, enforces its
    retention and is administered, in any order. A batch that was sent may be
    delivered late, again, or never, and so may an answer; every transaction may
    fail. Two things are remembered beside the tables: the log of each node, all
    events it ever enqueued, and what its counters showed. *)
From S2P Require Import Prelude Text Clock ProtoTypes ProtoAuth ProtoNode ProtoTelemetry NodeHostDb NodeHostRuntime Transaction.
From S2P Require Import NodePolicy NodeTelemetry ControlTelemetry NodeTelemetryFacts TelemetryUpload ControlTelemetryFacts.
From stdpp Require Import sorting list_numbers.
Open Scope Z_scope.

(** ** The system *)

Record System : Type := mkSystem {
  sy_node : Uuid -> Telemetry;
  sy_log : Uuid -> list TelemetryEvent;
  sy_seen : Uuid -> Direction -> Uuid -> Z;
  sy_sent : list TelemetryBatch;
  sy_answers : list (Uuid * TelemetryBatchAcknowledgement);
  sy_control : Control;
  sy_hourly_from : Z;
  sy_daily_from : Z;
}.
Definition upd {A} (n : Uuid) (a : A) (f : Uuid -> A) : Uuid -> A := fun m => if decide (m = n) then a else f m.

Section Pipeline.
Context `{Sha : Sha256} `{Cal : Calendar} `{Ids : UuidText} `{Json : EventJson} (new_node_id : Uuid).

(** The events whose sequences [t'] has and [t] has not *)
Definition enqueued (t t' : Telemetry) : list TelemetryEvent :=
  omap (fun k => row ← tl_spool t' !! k; event_from_str (sr_event_json row))
    (seqZ (tl_next_sequence t) (tl_next_sequence t' - tl_next_sequence t)).

(** Node [n] went on to [t'], and its counters showed [seen] more. *)
Definition node_moves (n : Uuid) (t' : Telemetry) (seen : Direction -> Uuid -> Z) (s : System) : System :=
  mkSystem (upd n t' (sy_node s)) (upd n (sy_log s n ++ enqueued (sy_node s n) t') (sy_log s))
    (upd n (fun d u => sy_seen s n d u + seen d u) (sy_seen s))
    (sy_sent s) (sy_answers s) (sy_control s) (sy_hourly_from s) (sy_daily_from s).
Definition nothing_seen : Direction -> Uuid -> Z := fun _ _ => 0.
Definition control_moves (c : Control) (answers : list (Uuid * TelemetryBatchAcknowledgement)) (s : System) : System :=
  mkSystem (sy_node s) (sy_log s) (sy_seen s) (sy_sent s) (answers ++ sy_answers s) c (sy_hourly_from s) (sy_daily_from s).
Definition sends (b : TelemetryBatch) (s : System) : System :=
  mkSystem (sy_node s) (sy_log s) (sy_seen s) (b :: sy_sent s) (sy_answers s) (sy_control s) (sy_hourly_from s) (sy_daily_from s).
Definition retains (c : Control) (now : Z) (s : System) : System :=
  mkSystem (sy_node s) (sy_log s) (sy_seen s) (sy_sent s) (sy_answers s) c
    (Z.max (sy_hourly_from s) (aligned_retention_cutoff now TELEMETRY_HOURLY_RETENTION_DAYS 3600))
    (Z.max (sy_daily_from s) (aligned_retention_cutoff now TELEMETRY_DAILY_RETENTION_DAYS 86400)).

(** One operation. The nodes have room for more events: a sequence has 63 bits. *)
Inductive step (s : System) : System -> Prop :=
| step_snapshot n db o occurred target snapshot r t' :
    roomy (sy_node s n) ->
    record_snapshot new_node_id db o occurred target snapshot (sy_node s n) = (r, t') ->
    step s (node_moves n t'
      (fun d u => if is_ok r then snapshot_delta d u (sy_node s n) target snapshot else 0) s)
| step_flush n o occurred r t' :
    roomy (sy_node s n) ->
    flush_pending_traffic new_node_id o (occurred_at occurred) (sy_node s n) = (r, t') ->
    step s (node_moves n t' nothing_seen s)
| step_failure n o occurred code r t' :
    roomy (sy_node s n) ->
    persist_collection_failure new_node_id o occurred code (sy_node s n) = (r, t') ->
    step s (node_moves n t' nothing_seen s)
| step_event n o kind occurred r t' :
    roomy (sy_node s n) ->
    record_telemetry_event new_node_id o kind occurred (sy_node s n) = (r, t') ->
    step s (node_moves n t'
      (fun d u => if is_ok r then event_bytes d u (mkEvent 0 (occurred_at occurred) kind) else 0) s)
| step_send n expected b :
    roomy (sy_node s n) ->
    batch_from n expected (sy_node s n) = Ok (Some b) -> step s (sends b s)
| step_ingest n o b r c' :
    b ∈ sy_sent s ->
    ingest_telemetry o n b (sy_control s) = (r, c') ->
    step s (control_moves c' (match r with Ok a => [(n, a)] | Err _ => [] end) s)
| step_acknowledge n o a r t' :
    (n, a) ∈ sy_answers s ->
    acknowledge o a (sy_node s n) = (r, t') ->
    step s (node_moves n t' nothing_seen s)
| step_retention o r c' now :
    control_seconds (ot_wall o) = Ok now ->
    enforce_telemetry_retention o (sy_control s) = (r, c') ->
    step s (retains c' now s)
| step_administer network nodes assignments detailed days :
    let c := sy_control s in
    step s (control_moves (mkControl network nodes assignments detailed days
      (ct_cursors c) (ct_events c) (ct_hourly c) (ct_daily c) (ct_audit c)) [] s).

(** Everything starts empty. *)
Definition initial (providers : Uuid -> Provider) (c : Control) : System :=
  mkSystem (fun n => fresh_telemetry (providers n)) (fun _ => []) (fun _ _ _ => 0) [] [] c 0 0.
Definition unused (c : Control) : Prop := ct_cursors c = ∅ /\ ct_events c = ∅ /\ ct_hourly c = ∅ /\ ct_daily c = ∅.
Inductive reachable : System -> Prop :=
| reach_initial providers c : unused c -> reachable (initial providers c)
| reach_step s s' : reachable s -> step s s' -> reachable s'.

(** ** The invariant *)

(** What the controller has taken of a node's log *)
Definition taken (s : System) (n : Uuid) : list TelemetryEvent :=
  take (Z.to_nat (cursor (sy_control s) n)) (sy_log s n).
Record balanced (s : System) : Prop := {
  ba_spool n : spool_ok (sy_node s n) (sy_log s n);
  ba_seen n d u : traffic d u (sy_log s n) + pending_bytes d u (sy_node s n) = sy_seen s n d u;
  ba_cursor n : tl_acknowledged_sequence (sy_node s n) <= cursor (sy_control s) n <= zlen (sy_log s n);
  ba_answers n a : (n, a) ∈ sy_answers s -> ack_acknowledged_sequence a <= cursor (sy_control s) n;
  ba_events n i : is_Some (ct_events (sy_control s) !! (n, i)) -> i <= cursor (sy_control s) n;
  ba_sent b : b ∈ sy_sent s -> slice (sy_log s (tb_node_id b)) b;
  ba_hourly n x u b : sy_hourly_from s <= b ->
    shown x n u b (ct_hourly (sy_control s)) = sum_of (share 3600 x u b) (taken s n);
  ba_daily n x u b : sy_daily_from s <= b ->
    shown x n u b (ct_daily (sy_control s)) = sum_of (share 86400 x u b) (taken s n);
}.

Lemma balanced_initial providers c : unused c -> balanced (initial providers c).
Proof.
  intros (Hc & He & Hh & Hd). assert (forall n, cursor c n = 0) as H0 by (intros n; unfold cursor; by rewrite Hc).
  split; cbn; intros *; rewrite ?H0; try done; try (by intros ?%not_elem_of_nil).
  - apply spool_fresh.
  - rewrite He. by intros [row Hr].
  - unfold shown, taken. cbn. rewrite Hh, H0. done || (intros _; by destruct x).
  - unfold shown, taken. cbn. rewrite Hd, H0. done || (intros _; by destruct x).
Qed.

(** ** Its preservation *)

Context {Laws : EventJsonLaws Json}.

Lemma upd_eq {A} n (a : A) f : upd n a f n = a.
Proof. unfold upd. by rewrite decide_True. Qed.
Lemma upd_ne {A} n m (a : A) f : m <> n -> upd n a f m = f m.
Proof. intros. unfold upd. by rewrite decide_False. Qed.

Lemma omap_range {A} (f : Z -> option A) l k :
  (forall i a, l !! i = Some a -> f (k + Z.of_nat i) = Some a) -> omap f (seqZ k (zlen l)) = l.
Proof.
  revert k. induction l as [|a l IH]; intros k Hl; [done|].
  assert (zlen (a :: l) = zlen l + 1) as -> by (unfold zlen; cbn; lia). pose proof (zlen_nonneg l).
  rewrite seqZ_cons by lia. replace (Z.pred (zlen l + 1)) with (zlen l) by lia. cbn [omap list_omap].
  replace k with (k + Z.of_nat 0) at 1 by lia. rewrite (Hl 0%nat a) by done. f_equal. apply IH.
  intros i b Hi. replace (Z.succ k + Z.of_nat i) with (k + Z.of_nat (S i)) by lia. by apply Hl.
Qed.
Lemma enqueued_eq t t' log evs :
  spool_ok t log -> spool_ok t' (log ++ evs) -> tl_acknowledged_sequence t' < tl_next_sequence t -> enqueued t t' = evs.
Proof.
  intros S S' Ha. pose proof (so_next _ _ S) as Hn. pose proof (so_next _ _ S') as Hn'. rewrite zlen_app in Hn'.
  unfold enqueued. replace (tl_next_sequence t' - tl_next_sequence t) with (zlen evs) by lia.
  apply omap_range. intros i e He. pose proof (lookup_lt_Some _ _ _ He). pose proof (zlen_nonneg log).
  destruct (so_kept _ _ S' (tl_next_sequence t + Z.of_nat i)) as (row & Hr & _); [unfold zlen in *; lia|].
  rewrite Hr. cbn. destruct (so_read _ _ _ _ S' Hr) as (e' & Hl & Hf & _). rewrite Hf, <- Hl, <- He.
  rewrite lookup_app_r by (unfold zlen in *; lia). f_equal. unfold zlen in *. lia.
Qed.

(** A node's own step *)
Lemma balanced_node s n t' evs seen :
  balanced s -> spool_ok t' (sy_log s n ++ evs) ->
  tl_acknowledged_sequence t' <= cursor (sy_control s) n ->
  (forall d u, traffic d u evs + pending_bytes d u t' = pending_bytes d u (sy_node s n) + seen d u) ->
  balanced (node_moves n t' seen s).
Proof.
  intros B S' Ha Hp. pose proof (ba_cursor _ B n) as Hc. pose proof (so_next _ _ (ba_spool _ B n)) as Hn.
  assert (enqueued (sy_node s n) t' = evs) as He by (eapply enqueued_eq; [apply B|done|lia]).
  assert (forall m, taken (node_moves n t' seen s) m = taken s m) as Ht.
  { intros m. unfold taken. cbn. rewrite He. destruct (decide (m = n)) as [->|]; [|by rewrite upd_ne].
    rewrite upd_eq, take_app_le; [done|]. unfold zlen in *. lia. }
  split; cbn [sy_node sy_log sy_seen sy_sent sy_answers sy_control sy_hourly_from sy_daily_from node_moves]; rewrite ?He.
  - intros m. destruct (decide (m = n)) as [->|]; [by rewrite !upd_eq|rewrite !upd_ne by done; apply B].
  - intros m d u. destruct (decide (m = n)) as [->|]; [|rewrite !upd_ne by done; apply B].
    rewrite !upd_eq, traffic_app, <- (ba_seen _ B), <- Z.add_assoc, Hp. lia.
  - intros m. destruct (decide (m = n)) as [->|]; [|rewrite !upd_ne by done; apply B].
    rewrite !upd_eq, zlen_app. pose proof (zlen_nonneg evs). lia.
  - apply B.
  - apply B.
  - intros b Hb. destruct (decide (tb_node_id b = n)) as [<-|]; [|rewrite !upd_ne by done; by apply B].
    rewrite upd_eq. by apply batch_slice_app, B.
  - intros m x u b Hb. rewrite Ht. by apply (ba_hourly _ B).
  - intros m x u b Hb. rewrite Ht. by apply (ba_daily _ B).
Qed.
Lemma balanced_still s n seen :
  balanced s -> (forall d u, seen d u = 0) -> balanced (node_moves n (sy_node s n) seen s).
Proof.
  intros B Hs. apply (balanced_node _ _ _ []); [done|rewrite app_nil_r; apply B|apply (ba_cursor _ B)|].
  intros d u. rewrite Hs. cbn. lia.
Qed.

Lemma at_result {S E A} (m : Tx S E A) x (Q : result E A -> S -> Prop) r x' : after m x Q -> m x = (r, x') -> Q r x'.
Proof. unfold after. intros H E0. by rewrite E0 in H. Qed.

Lemma snapshot_balanced s n db o occurred target snapshot r t' :
  balanced s -> roomy (sy_node s n) ->
  record_snapshot new_node_id db o occurred target snapshot (sy_node s n) = (r, t') ->
  balanced (node_moves n t' (fun d u => if is_ok r then snapshot_delta d u (sy_node s n) target snapshot else 0) s).
Proof.
  intros B Hm E. pose proof (at_result _ _ _ _ _ (record_snapshot_spec new_node_id db o occurred target snapshot
    _ _ (ba_spool _ B n) Hm) E) as H. destruct r as [[]|e]; cbn [is_ok]; [|subst t'; by apply balanced_still].
  destruct H as (now & _ & evs & S' & Hq & _ & Ha & Hp & _). apply (balanced_node _ _ _ evs); try done.
  - rewrite Ha. apply B.
  - intros d u. rewrite Hq, Hp. lia.
Qed.
Lemma flush_balanced s n o occurred r t' :
  balanced s -> roomy (sy_node s n) ->
  flush_pending_traffic new_node_id o (occurred_at occurred) (sy_node s n) = (r, t') ->
  balanced (node_moves n t' nothing_seen s).
Proof.
  intros B Hm E. pose proof (at_result _ _ _ _ _ (flush_spec new_node_id o (occurred_at occurred) _ _
    (ba_spool _ B n) Hm eq_refl) E) as H. destruct r as [[]|e]; [|subst t'; by apply balanced_still].
  destruct H as (evs & S' & Ha & _ & _ & _ & Hp). apply (balanced_node _ _ _ evs); try done.
  - rewrite Ha. apply B.
  - intros d u. rewrite Hp. unfold nothing_seen. lia.
Qed.
Lemma failure_balanced s n o occurred code r t' :
  balanced s -> roomy (sy_node s n) ->
  persist_collection_failure new_node_id o occurred code (sy_node s n) = (r, t') ->
  balanced (node_moves n t' nothing_seen s).
Proof.
  intros B Hm E. pose proof (at_result _ _ _ _ _ (failure_spec new_node_id o occurred code _ _
    (ba_spool _ B n) Hm) E) as H. destruct r as [[]|e]; [|subst t'; by apply balanced_still].
  destruct H as (evs & S' & Hq & Ha & Hp & _). apply (balanced_node _ _ _ evs); try done.
  - rewrite Ha. apply B.
  - intros d u. unfold pending_bytes. rewrite Hq, Hp. unfold nothing_seen. lia.
Qed.
Lemma event_balanced s n o kind occurred r t' :
  balanced s -> roomy (sy_node s n) ->
  record_telemetry_event new_node_id o kind occurred (sy_node s n) = (r, t') ->
  balanced (node_moves n t' (fun d u => if is_ok r then event_bytes d u (mkEvent 0 (occurred_at occurred) kind) else 0) s).
Proof.
  intros B Hm E. pose proof (at_result _ _ _ _ _ (record_event_spec new_node_id o kind occurred _ _
    (ba_spool _ B n) Hm) E) as H. destruct r as [k|e]; cbn [is_ok]; [|subst t'; by apply balanced_still].
  destruct H as (_ & S' & Hb). apply beside_eq in Hb as (Ha & _ & _ & _ & Hp & _). eapply balanced_node; try done.
  - rewrite Ha. apply B.
  - intros d u. unfold pending_bytes, traffic, sum_of, event_bytes. rewrite Hp. cbn. lia.
Qed.
Lemma acknowledge_balanced s n o a r t' :
  balanced s -> (n, a) ∈ sy_answers s -> acknowledge o a (sy_node s n) = (r, t') ->
  balanced (node_moves n t' nothing_seen s).
Proof.
  intros B Hin E. pose proof (at_result _ _ _ _ _ (acknowledge_spec o a _ _ (ba_spool _ B n)) E) as H.
  destruct r as [[]|e]; [|subst t'; by apply balanced_still].
  destruct H as (S' & (Ha & _ & _ & Hp & _) & _). apply (balanced_node _ _ _ []); try done.
  - by rewrite app_nil_r.
  - rewrite Ha. pose proof (ba_answers _ B _ _ Hin). pose proof (ba_cursor _ B n). lia.
  - intros d u. unfold pending_bytes. rewrite Hp. unfold nothing_seen. cbn. lia.
Qed.

(** The controller's steps *)
Lemma balanced_control s c' answers :
  balanced s -> (forall n, cursor (sy_control s) n <= cursor c' n <= zlen (sy_log s n)) ->
  (forall n a, (n, a) ∈ answers -> ack_acknowledged_sequence a <= cursor c' n) ->
  (forall n i, is_Some (ct_events c' !! (n, i)) -> i <= cursor c' n) ->
  (forall n x u b, sy_hourly_from s <= b ->
     shown x n u b (ct_hourly c') = sum_of (share 3600 x u b) (take (Z.to_nat (cursor c' n)) (sy_log s n))) ->
  (forall n x u b, sy_daily_from s <= b ->
     shown x n u b (ct_daily c') = sum_of (share 86400 x u b) (take (Z.to_nat (cursor c' n)) (sy_log s n))) ->
  balanced (control_moves c' answers s).
Proof.
  intros B Hc Ha He Hh Hd. split; cbn; try apply B; try done.
  - intros n. pose proof (ba_cursor _ B n). pose proof (Hc n). lia.
  - intros n a [Hin|Hin]%elem_of_app; [by apply Ha|]. pose proof (ba_answers _ B _ _ Hin). pose proof (Hc n). lia.
Qed.

Lemma slice_sequence t log b i : spool_ok t log -> slice log b -> i ∈ ev_sequence <$> tb_events b -> i <= tb_last_sequence b.
Proof.
  intros S Hs (e & -> & He)%list_elem_of_fmap. apply list_elem_of_lookup in He as [j Hj].
  pose proof (sl_first _ _ Hs). pose proof (sl_last _ _ Hs). pose proof (lookup_lt_Some _ _ _ Hj).
  destruct (so_log _ _ S (tb_first_sequence b + Z.of_nat j) e) as [-> _]; [lia| |unfold zlen in *; lia].
  rewrite <- (sl_events _ _ Hs j e Hj). f_equal. lia.
Qed.
(** The books of one column follow the cursor over a batch. *)
Lemma books_follow (log : Uuid -> list TelemetryEvent) n b k (cur cur' : Uuid -> Z) f (old new : Z) m :
  slice (log n) b -> (m <> n -> cur' m = cur m) -> cur' n = k -> tb_first_sequence b = cur n + 1 ->
  k = tb_last_sequence b -> old = sum_of f (take (Z.to_nat (cur m)) (log m)) ->
  new = old + (if bool_decide (n = m) then sum_of f (tb_events b) else 0) ->
  new = sum_of f (take (Z.to_nat (cur' m)) (log m)).
Proof.
  intros Hs Hother Hk Hf Hl -> ->. destruct (decide (m = n)) as [->|Hm].
  - rewrite bool_decide_eq_true_2, Hk, Hl by done. rewrite (slice_take _ _ Hs), sum_of_app.
    by replace (tb_first_sequence b - 1) with (cur n) by lia.
  - rewrite bool_decide_eq_false_2, Hother by done. lia.
Qed.
(** A batch moves the books as far as the cursor. *)
Lemma ingested_balanced s n b k c' answers :
  balanced s -> slice (sy_log s n) b -> ingested n b (sy_control s) k c' ->
  (forall m a, (m, a) ∈ answers -> m = n /\ ack_acknowledged_sequence a = k) ->
  balanced (control_moves c' answers s).
Proof.
  intros B Hs (Hk & _ & Hother & Hevents & Hcase) Hans. pose proof (slice_bound _ _ Hs) as Hb. pose proof (ba_cursor _ B n) as Hcn.
  pose proof (so_acknowledged _ _ (ba_spool _ B n)) as H0. pose proof (sl_first _ _ Hs) as Hf.
  assert (forall m, cursor (sy_control s) m <= cursor c' m <= zlen (sy_log s m)) as Hcur.
  { intros m. destruct (decide (m = n)) as [->|Hm]; [|rewrite Hother by done; pose proof (ba_cursor _ B m); lia].
    rewrite <- Hk. destruct Hcase as [(? & ? & _)|(? & ? & _)]; lia. }
  apply balanced_control; [done|done| | | |].
  - intros m a [-> ->]%Hans. lia.
  - intros m i [Hi|(-> & Hl & Hi)]%Hevents; [pose proof (ba_events _ B _ _ Hi); pose proof (Hcur m); lia|].
    apply (slice_sequence _ _ _ _ (ba_spool _ B n) Hs) in Hi. lia.
  - intros m x u b' Hb'. pose proof (ba_hourly _ B m x u b' Hb') as H. unfold taken in H.
    destruct Hcase as [(_ & Hkn & Hh & _)|(Hfirst & Hlast & Hh & _)].
    + rewrite Hh, H. destruct (decide (m = n)) as [->|Hm]; [by rewrite <- Hk, Hkn|by rewrite Hother].
    + by eapply (books_follow (sy_log s) n b k (cursor (sy_control s)) (cursor c')); eauto.
  - intros m x u b' Hb'. pose proof (ba_daily _ B m x u b' Hb') as H. unfold taken in H.
    destruct Hcase as [(_ & Hkn & _ & Hd)|(Hfirst & Hlast & _ & Hd)].
    + rewrite Hd, H. destruct (decide (m = n)) as [->|Hm]; [by rewrite <- Hk, Hkn|by rewrite Hother].
    + by eapply (books_follow (sy_log s) n b k (cursor (sy_control s)) (cursor c')); eauto.
Qed.
Lemma balanced_same s c' : balanced s -> ct_cursors c' = ct_cursors (sy_control s) ->
  ct_events c' = ct_events (sy_control s) ->
  ct_hourly c' = ct_hourly (sy_control s) -> ct_daily c' = ct_daily (sy_control s) -> balanced (control_moves c' [] s).
Proof.
  intros B Hc He Hh Hd. assert (forall n, cursor c' n = cursor (sy_control s) n) as Hcur by (intros; unfold cursor; by rewrite Hc).
  apply balanced_control; [done|..].
  - intros n. rewrite Hcur. pose proof (ba_cursor _ B n). lia.
  - by intros n a ?%not_elem_of_nil.
  - intros n i. rewrite He, Hcur. apply B.
  - intros n x u b Hb. rewrite Hh, Hcur. by apply B.
  - intros n x u b Hb. rewrite Hd, Hcur. by apply B.
Qed.

Lemma ingest_balanced s n o b r c' :
  balanced s -> b ∈ sy_sent s -> ingest_telemetry o n b (sy_control s) = (r, c') ->
  balanced (control_moves c' (match r with Ok a => [(n, a)] | Err _ => [] end) s).
Proof.
  intros B Hin E. pose proof (at_result _ _ _ _ _ (ingest_spec o n b _) E) as H. pose proof (ba_sent _ B _ Hin) as Hs.
  destruct r as [a|e].
  - destruct H as (Hi & _ & Hn). rewrite Hn in Hs. eapply ingested_balanced; try done.
    by intros m a' [= -> ->]%list_elem_of_singleton.
  - destruct H as [->|(k & Hi & Hn)]; [by apply balanced_same|]. rewrite Hn in Hs.
    eapply ingested_balanced; try done. by intros m a' ?%not_elem_of_nil.
Qed.
Lemma retention_balanced s o r c' now :
  balanced s -> control_seconds (ot_wall o) = Ok now ->
  enforce_telemetry_retention o (sy_control s) = (r, c') -> balanced (retains c' now s).
Proof.
  intros B Hnow E. pose proof (at_result _ _ _ _ _ (retention_spec o _) E) as H. destruct r as [res|e].
  - destruct H as (now' & Hnow' & Hc & He & Hh & Hd). rewrite Hnow in Hnow'. injection Hnow' as <-.
    assert (forall n, cursor c' n = cursor (sy_control s) n) as Hcur by (intros; unfold cursor; by rewrite Hc).
    split; cbn; try apply B.
    + intros n. rewrite Hcur. apply B.
    + intros n a. rewrite Hcur. apply B.
    + intros n i Hi. rewrite Hcur. apply B. by apply He.
    + intros n x u b Hb. unfold taken. cbn. rewrite Hcur, Hh by lia. apply B. lia.
    + intros n x u b Hb. unfold taken. cbn. rewrite Hcur, Hd by lia. apply B. lia.
  - subst c'. split; cbn; try apply B; intros n x u b Hb; apply B; lia.
Qed.

Lemma step_balanced s s' : balanced s -> step s s' -> balanced s'.
Proof.
  intros B. destruct 1.
  - by eapply snapshot_balanced.
  - by eapply flush_balanced.
  - by eapply failure_balanced.
  - by eapply event_balanced.
  - split; cbn; try apply B. intros b' [->|Hb]%elem_of_cons; [|by apply B].
    destruct (batch_from_slice _ _ _ _ _ (ba_spool _ B n) H H0) as [Hs ->]. done.
  - by eapply ingest_balanced.
  - by eapply acknowledge_balanced.
  - by eapply retention_balanced.
  - by apply balanced_same.
Qed.
Lemma steps_balanced s s' : balanced s -> rtc step s s' -> balanced s'.
Proof. intros B H. revert B. induction H as [|s s1 s' Hs _ IH]; [done|]. intros B. apply IH. by eapply step_balanced. Qed.
Lemma reachable_balanced s : reachable s -> balanced s.
Proof. induction 1; [by apply balanced_initial|by eapply step_balanced]. Qed.
End Pipeline.
