(* ===== verification/TelemetryExchange.v ===== *)
(** * The exchange, as steps of the pipeline

    [collect_xray_traffic] and [sync_telemetry], as the service calls them, are
    sequences of the steps of [TelemetryPipeline], whatever the network does to
    their requests; and an exchange that nothing disturbs brings the events to
    the controller. *)
From S2P Require Import Prelude Text Clock ProtoTypes ProtoAuth ProtoNode ProtoTelemetry NodeHostDb NodeHostRuntime Transaction.
From S2P Require Import NodePolicy NodeTelemetry ControlTelemetry NodeTelemetryFacts TelemetryUpload ControlTelemetryFacts TelemetryPipeline.
From stdpp Require Import sorting list_numbers.
Open Scope Z_scope.

(** ** The network *)

(** What becomes of a request: it is lost, it is handled but the answer is lost,
    or it is answered; [o] is the controller's clock and database *)
Inductive Fate : Type := Lost | ReplyLost (o : Outside) | Replied (o : Outside).
Record Net : Type := mkNet { nt_control : Control; nt_requests : nat }.

Section Exchange.
Context `{Sha : Sha256} `{Cal : Calendar} `{Ids : UuidText} `{Json : EventJson} {Laws : EventJsonLaws Json}.
Context (new_node_id : Uuid) (fates : nat -> Fate).

Definition next_fate (net : Net) : Fate * Net :=
  (fates (nt_requests net), mkNet (nt_control net) (S (nt_requests net))).
(** [GET .../telemetry/cursor] *)
Definition request_cursor (n : Uuid) (net : Net) : host_result TelemetryCursor * Net :=
  let '(fate, net) := next_fate net in
  match fate with
  | Replied o =>
      (map_err (fun _ => Bail "controller telemetry cursor request failed") (load_telemetry_cursor n (nt_control net)), net)
  | _ => (Err (Bail "controller telemetry cursor request failed"), net)
  end.
(** [PUT .../telemetry] *)
Definition request_upload (n : Uuid) (b : TelemetryBatch) (net : Net)
    : host_result TelemetryBatchAcknowledgement * Net :=
  let '(fate, net) := next_fate net in
  match fate with
  | Lost => (Err (Bail "controller telemetry upload failed"), net)
  | ReplyLost o =>
      let '(_, c) := ingest_telemetry o n b (nt_control net) in
      (Err (Bail "controller telemetry upload failed"), mkNet c (nt_requests net))
  | Replied o =>
      let '(r, c) := ingest_telemetry o n b (nt_control net) in
      (map_err (fun _ => Bail "controller telemetry upload failed") r, mkNet c (nt_requests net))
  end.
Definition sync_over_network (n : Uuid) (o : nat -> Outside) : Tx (Telemetry * Net) HostError unit :=
  sync_telemetry (request_cursor n) (request_upload n) n o.

(** [s'] is [s] with the state of node [n] and of the controller given. *)
Definition reaches (s : System) (n : Uuid) (t : Telemetry) (c : Control) : Prop :=
  exists s', rtc (step new_node_id) s s' /\ sy_node s' n = t /\ sy_control s' = c.
Lemma reaches_trans s s1 n t c : rtc (step new_node_id) s s1 -> reaches s1 n t c -> reaches s n t c.
Proof. intros H (s' & H1 & H2). exists s'. split; [by etrans|done]. Qed.

(** ** Collecting *)

Lemma collect_target_steps s n db o later occurred target answer r t' :
  balanced s -> tl_next_sequence (sy_node s n) + 102 < i64_max ->
  collect_target new_node_id db o later occurred target answer (sy_node s n) = (r, t') ->
  reaches s n t' (sy_control s).
Proof.
  intros B Hmax H. assert (roomy (sy_node s n)) as Hm by (unfold roomy; lia). unfold collect_target in H.
  assert (forall r0 t0 code, persist_collection_failure new_node_id o occurred code (sy_node s n) = (r0, t0) ->
    reaches s n t0 (sy_control s)) as Hfail.
  { intros r0 t0 code Hf. eexists. split; [apply rtc_once; by eapply step_failure|]. cbn. by rewrite upd_eq. }
  destruct answer as [counters|e]; [|by eapply Hfail].
  destruct (normalize_snapshot target counters) as [snapshot|e]; [|by eapply Hfail].
  unfold apply_counter_snapshot, mbind, tx_bind in H.
  destruct (record_snapshot new_node_id db o occurred target snapshot (sy_node s n)) as [r1 t1] eqn:E1.
  pose proof (at_result _ _ _ _ _ (record_snapshot_spec new_node_id db o occurred target snapshot
    _ _ (ba_spool _ B n) Hm) E1) as Hspec.
  pose proof (step_snapshot new_node_id s n db o occurred target snapshot r1 t1 Hm E1) as Hs1.
  set (s1 := node_moves _ _ _ _) in *. assert (sy_node s1 n = t1) as Hn1 by (cbn; by rewrite upd_eq).
  destruct r1 as [[]|e]; [|injection H as <- <-; exists s1; split; [by apply rtc_once|done]].
  eapply reaches_trans; [by apply rtc_once|]. destruct Hspec as (now & _ & evs & S1 & _ & Hl & _).
  assert (roomy (sy_node s1 n)) as Hm1.
  { rewrite Hn1. unfold roomy. rewrite (so_next _ _ S1), zlen_app. pose proof (so_next _ _ (ba_spool _ B n)). lia. }
  rewrite <- Hn1 in H. eexists. split; [apply rtc_once; by eapply step_flush|]. cbn. by rewrite upd_eq.
Qed.

(** ** Uploading *)

(** Whatever becomes of a request, the controller takes a step or none. *)
Lemma request_upload_steps s n b net r net' :
  b ∈ sy_sent s -> nt_control net = sy_control s -> request_upload n b net = (r, net') ->
  exists s', rtc (step new_node_id) s s' /\ sy_node s' = sy_node s /\ sy_control s' = nt_control net' /\
    (forall a, r = Ok a -> (n, a) ∈ sy_answers s').
Proof.
  intros Hb Hc H. unfold request_upload in H. destruct (next_fate net) as [fate net1] eqn:Ef.
  assert (nt_control net1 = sy_control s) as Hc1
    by (by injection Ef as _ <-).
  rewrite Hc1 in H. destruct fate as [|o|o].
  { injection H as <- <-. exists s. by split_and!. }
  all: destruct (ingest_telemetry o n b (sy_control s)) as [r0 c0] eqn:Ei; injection H as <- <-.
  all: pose proof (step_ingest new_node_id s n o b r0 c0 Hb Ei) as Hs.
  all: eexists; split; [by apply rtc_once|]; split_and!; try done.
  intros a Ha. destruct r0 as [a'|]; [|done]. injection Ha as ->. cbn. left.
Qed.

(** One round brings a batch to the controller and its answer back, or stops. *)
Lemma upload_steps n o rounds s t' net net' expected r :
  balanced s -> roomy (sy_node s n) -> nt_control net = sy_control s ->
  upload_batches (request_upload n) n rounds o expected (sy_node s n, net) = (r, (t', net')) ->
  reaches s n t' (nt_control net').
Proof.
  revert s net expected. induction rounds as [|rounds IH]; intros s net expected B Hm Hc H.
  { injection H as <- <- <-. rewrite Hc. exists s. by split. }
  cbn [upload_batches] in H. unfold mbind at 1, tx_bind at 1, locally at 1, tx_query at 1 in H.
  destruct (batch_from n expected (sy_node s n)) as [[b|]|e] eqn:Eb.
  2,3: injection H as <- <- <-; rewrite Hc; exists s; by split.
  pose proof (step_send new_node_id s n expected b Hm Eb) as Hs1.
  pose proof (step_balanced _ _ _ B Hs1) as B1.
  unfold mbind at 1, tx_bind at 1, remotely at 1 in H.
  destruct (request_upload n b net) as [r1 net1] eqn:Er.
  destruct (request_upload_steps (sends b s) n b net r1 net1) as (s2 & Hs2 & Hn2 & Hc2 & Ha2); [left|done|done|].
  assert (rtc (step new_node_id) s s2) as Hs by (etrans; [by apply rtc_once|done]).
  assert (balanced s2) as B2 by (by eapply steps_balanced).
  eapply reaches_trans; [done|]. assert (sy_node s2 n = sy_node s n) as Hsame by (by rewrite Hn2).
  assert (reaches s2 n (sy_node s n) (nt_control net1)) as Hstop by (exists s2; by split_and!).
  destruct r1 as [a|e]; [|by injection H as <- <- <-].
  unfold mbind at 1, tx_bind at 1, tx_lift at 1 in H. destruct (validated _ _); [|by injection H as <- <- <-].
  unfold mbind at 1, tx_bind at 1, tx_lift at 1 in H. destruct (ensure _ _); [|by injection H as <- <- <-].
  unfold mbind at 1, tx_bind at 1, locally at 1 in H. rewrite <- Hsame in H.
  destruct (acknowledge (o (S rounds)) a (sy_node s2 n)) as [r3 t3] eqn:Ea.
  pose proof (step_acknowledge new_node_id s2 n _ a r3 t3 (Ha2 _ eq_refl) Ea) as Hs3.
  pose proof (step_balanced _ _ _ B2 Hs3) as B3. eapply reaches_trans; [by apply rtc_once|].
  set (s3 := node_moves n t3 nothing_seen s2) in *. assert (sy_node s3 n = t3) as Hn3 by (cbn; by rewrite upd_eq).
  pose proof (at_result _ _ _ _ _ (acknowledge_spec _ a _ _ (ba_spool _ B2 n)) Ea) as Hspec.
  destruct r3 as [[]|e]; [|injection H as <- <- <-; exists s3; by split_and!].
  destruct Hspec as (_ & (_ & _ & Hnext & _) & _). rewrite <- Hn3 in H. eapply IH; [done| |symmetry; exact Hc2|exact H].
  rewrite Hn3. unfold roomy. by rewrite Hnext, Hsame.
Qed.

Lemma sync_steps s n o k r t' net' :
  balanced s -> roomy (sy_node s n) ->
  sync_over_network n o (sy_node s n, mkNet (sy_control s) k) = (r, (t', net')) ->
  reaches s n t' (nt_control net').
Proof.
  intros B Hm H. unfold sync_over_network, sync_telemetry in H.
  unfold mbind at 1, tx_bind at 1, remotely at 1, request_cursor at 1 in H.
  destruct (next_fate _) as [fate net1] eqn:Ef.
  assert (nt_control net1 = sy_control s) as Hc1
    by (by injection Ef as _ <-).
  assert (reaches s n (sy_node s n) (nt_control net1)) as Hstop by (rewrite Hc1; exists s; by split_and!).
  destruct fate as [|o'|o']; [by injection H as <- <- <-..|].
  destruct (map_err _ _) as [cu|]; [|by injection H as <- <- <-].
  unfold mbind at 1, tx_bind at 1, tx_lift at 1 in H. destruct (validated _ _); [|by injection H as <- <- <-].
  by eapply upload_steps.
Qed.

(** ** Delivery *)

(** What the controller needs of an event of node [n]: its member is assigned to
    the node, its time is not too far ahead, its text fits *)
Definition acceptable (c : Control) (n : Uuid) (now : Z) (e : TelemetryEvent) : Prop :=
  to_unix (ev_occurred_at e) <= Z.min i64_max (now + 86400) /\
  (exists row, event_row c n e (ct_detailed_enabled c) (to_unix (ev_occurred_at e)) now = Ok row /\
     event_row_ok row = true) /\
  match ev_kind e with
  | TrafficDelta _ up down connections =>
      0 <= to_unix (ev_occurred_at e) /\ 0 <= up /\ 0 <= down /\ 0 <= connections
  | _ => True
  end.
Lemma acceptable_settings c c' n now e : settings c' = settings c -> acceptable c n now e -> acceptable c' n now e.
Proof.
  unfold settings. intros [= Hn Hns Ha Hd Hr] (H1 & (row & H2 & H3) & H4). split; [done|]. split; [|done].
  exists row. split; [|done]. rewrite <- H2. unfold event_row, validate_telemetry_user. by rewrite Ha, Hd.
Qed.
(** The events of [p] are in the books of node [n]; [from] is where the books begin. *)
Definition books (n : Uuid) (hours days : Z) (p : list TelemetryEvent) (c : Control) : Prop :=
  (forall x u b, hours <= b -> shown x n u b (ct_hourly c) = sum_of (share 3600 x u b) p) /\
  (forall x u b, days <= b -> shown x n u b (ct_daily c) = sum_of (share 86400 x u b) p).
(** No sum of the log leaves 64 bits. *)
Definition countable (log : list TelemetryEvent) : Prop :=
  forall width x u b p q, log = p ++ q -> 0 <= sum_of (share width x u b) p <= i64_max.
Definition recent (hours days : Z) (e : TelemetryEvent) : Prop :=
  hours <= bucket 3600 (to_unix (ev_occurred_at e)) /\ days <= bucket 86400 (to_unix (ev_occurred_at e)).

Lemma bucket_ok width occurred : 0 < width -> 0 <= occurred -> 0 <= bucket width occurred /\ Z.rem (bucket width occurred) width = 0.
Proof.
  intros Hw Ho. unfold bucket. pose proof (Z.mod_pos_bound occurred width Hw). pose proof (Z.mod_le occurred width Ho Hw).
  split; [lia|]. rewrite Z.rem_mod_nonneg by lia. rewrite Zminus_mod, Z.mod_mod by lia. by rewrite Z.sub_diag, Z.mod_0_l by lia.
Qed.
Lemma upsert_ok width n u occurred up down connections table :
  0 < width -> 0 <= occurred ->
  (forall x, 0 <= shown x n u (bucket width occurred) table +
     match x with BytesUp => up | BytesDown => down | Connections => connections end <= i64_max) ->
  exists table', upsert_traffic_aggregate width u n (bucket width occurred) up down connections table = Ok table'.
Proof.
  intros Hw Ho Hs. destruct (bucket_ok width occurred Hw Ho) as [Hb Hr]. eexists. unfold upsert_traffic_aggregate.
  pose proof (Hs BytesUp) as H1. pose proof (Hs BytesDown) as H2. pose proof (Hs Connections) as H3.
  unfold shown, no_traffic in H1, H2, H3. cbn in H1, H2, H3.
  rewrite ensure_true by (rewrite Hr; apply andb_true_iff; split; [by apply Z.leb_le|done]).
  repeat (erewrite (proj2 (checked_add_Some _ _ _ _)) by (split; [reflexivity|lia])). cbn -[Z.add].
  rewrite ensure_true; [reflexivity|]. rewrite !andb_true_iff, !Z.leb_le. lia.
Qed.

Lemma share_self width x e u up down connections :
  ev_kind e = TrafficDelta u up down connections ->
  share width x u (bucket width (to_unix (ev_occurred_at e))) e =
    match x with BytesUp => up | BytesDown => down | Connections => connections end.
Proof. intros He. unfold share. rewrite He. by rewrite bool_decide_eq_true_2. Qed.
Lemma sum_snoc {A} (f : A -> Z) l a : sum_of f (l ++ [a]) = sum_of f l + f a.
Proof. rewrite sum_of_app. unfold sum_of at 2. cbn. lia. Qed.
(** Adding an event's share to the books stays within 64 bits. *)
Lemma share_fits width log p e rest x u up down connections old :
  countable log -> log = p ++ e :: rest -> ev_kind e = TrafficDelta u up down connections ->
  old = sum_of (share width x u (bucket width (to_unix (ev_occurred_at e)))) p ->
  0 <= old + match x with BytesUp => up | BytesDown => down | Connections => connections end <= i64_max.
Proof.
  intros Hc Hl He ->. rewrite <- (share_self width x e u up down connections He), <- sum_snoc.
  apply (Hc _ _ _ _ _ rest). by rewrite <- app_assoc.
Qed.

Lemma persist_ok n now hours days p e rest log c :
  books n hours days p c -> log = p ++ e :: rest -> countable log -> recent hours days e ->
  acceptable c n now e -> is_Some (event_to_string e) -> 0 < ev_sequence e ->
  ct_events c !! (n, ev_sequence e) = None ->
  exists c', persist_telemetry_event n (ct_detailed_enabled c) now e c = (Ok tt, c').
Proof.
  intros [Hh Hd] Hlog Hc [Hrh Hrd] (Hskew & (row & Hrow & Hfit) & Hkind) [json Hj] Hseq Hfresh.
  unfold persist_telemetry_event, mbind, tx_bind, tx_lift, tx_query, tx_execute, insert_event_row.
  rewrite ensure_true by (by apply negb_true_iff, Z.ltb_ge). rewrite Hj. cbn [ok_or]. rewrite Hrow.
  rewrite (ensure_true (0 <? ev_sequence e)) by (by apply Z.ltb_lt). cbn [mbind result_bind]. rewrite Hfit. cbn [ensure mbind result_bind].
  rewrite Hfresh, bool_decide_eq_true_2 by done. cbn [ensure mbind result_bind].
  destruct (ev_kind e) as [u up down connections| | |] eqn:Ek; [|by eexists..].
  destruct Hkind as (Ho & _).
  destruct (upsert_ok 3600 n u (to_unix (ev_occurred_at e)) up down connections (ct_hourly c)) as [th Hth]; [done|done| |].
  { intros x. eapply share_fits; eauto. }
  destruct (upsert_ok 86400 n u (to_unix (ev_occurred_at e)) up down connections (ct_daily c)) as [td Htd]; [done|done| |].
  { intros x. eapply share_fits; eauto. }
  cbn [ct_hourly ct_daily set_events]. rewrite Hth. cbn [mbind result_bind ct_daily set_hourly set_events].
  rewrite Htd. by eexists.
Qed.

Lemma books_snoc n hours days p e c c' :
  books n hours days p c -> counted n [e] c c' -> books n hours days (p ++ [e]) c'.
Proof.
  intros [Hh Hd] (_ & _ & _ & Ch & Cd).
  split; intros x u b Hb; rewrite ?Ch, ?Cd, bool_decide_eq_true_2, ?Hh, ?Hd, sum_of_app by done; done.
Qed.

(** A whole slice is accepted. *)
Lemma persist_all_ok n now hours days evs : forall p rest log c k,
  books n hours days p c -> log = p ++ evs ++ rest -> countable log -> Forall (recent hours days) evs ->
  Forall (acceptable c n now) evs -> Forall (fun e => is_Some (event_to_string e)) evs ->
  (forall i e, evs !! i = Some e -> ev_sequence e = k + Z.of_nat i) -> 0 < k ->
  (forall i, is_Some (ct_events c !! (n, i)) -> i < k) ->
  exists c', tx_for_each (persist_telemetry_event n (ct_detailed_enabled c) now) evs c = (Ok tt, c').
Proof.
  induction evs as [|e evs IH]; intros p rest log c k Hb Hlog Hc Hr Ha Hj Hseq Hk Hfresh; [by eexists|].
  apply Forall_cons in Hr as [Hr Hrs], Ha as [Ha Has], Hj as [Hj Hjs]. pose proof (Hseq 0%nat e eq_refl) as Hs0.
  destruct (persist_ok n now hours days p e (evs ++ rest) log c) as [c1 H1]; try done; [lia| |].
  { apply eq_None_not_Some. intros Hi%Hfresh. lia. }
  cbn [tx_for_each]. unfold mbind, tx_bind. rewrite H1.
  pose proof (at_result _ _ _ _ _ (persist_spec n (ct_detailed_enabled c) now e c) H1) as Hcount.
  pose proof Hcount as (Hset & Hcur & Hev & _).
  assert (ct_detailed_enabled c1 = ct_detailed_enabled c) as <- by (by injection Hset).
  apply (IH (p ++ [e]) rest log c1 (k + 1)); try done.
  - by eapply books_snoc.
  - by rewrite Hlog, <- app_assoc.
  - eapply Forall_impl; [exact Has|]. intros e'. by apply acceptable_settings.
  - intros i e' He. rewrite (Hseq (S i) e' He). lia.
  - lia.
  - intros i [Hi%Hfresh|[_ Hi]]%Hev; [lia|]. apply list_elem_of_singleton in Hi as ->. cbn. lia.
Qed.

(** The controller knows the node and can take its events; the node's clock is not
    behind the events it has made. *)
Record favourable (s : System) (n : Uuid) (control_now now : Z) : Prop := {
  fv_network : is_Some (ct_network (sy_control s));
  fv_node : ct_nodes (sy_control s) !! n = Some NodePending \/ ct_nodes (sy_control s) !! n = Some NodeActive;
  fv_events : Forall (fun e => acceptable (sy_control s) n control_now e /\ recent (sy_hourly_from s) (sy_daily_from s) e)
                (drop (Z.to_nat (cursor (sy_control s) n)) (sy_log s n));
  fv_countable : countable (sy_log s n);
  fv_clock k row : tl_spool (sy_node s n) !! k = Some row -> sr_created_at row <= default now (sr_acknowledged_at row);
  fv_roomy : roomy (sy_node s n);
}.

Lemma slice_split log b :
  slice log b -> log = take (Z.to_nat (tb_first_sequence b - 1)) log ++ tb_events b ++ drop (Z.to_nat (tb_last_sequence b)) log.
Proof. intros Hs. rewrite app_assoc, <- (slice_take _ _ Hs). by rewrite take_drop. Qed.

(** The events of a slice that starts at the cursor can be taken. *)
Lemma slice_accepted s n b now_c now :
  balanced s -> favourable s n now_c now -> slice (sy_log s n) b ->
  tb_first_sequence b = cursor (sy_control s) n + 1 ->
  exists c', tx_for_each (persist_telemetry_event n (ct_detailed_enabled (with_cursor n (sy_control s))) now_c) (tb_events b)
    (with_cursor n (sy_control s)) = (Ok tt, c').
Proof.
  intros B F Hs Hf. set (c := sy_control s) in *. pose proof (slice_bound _ _ Hs) as Hb.
  pose proof (so_acknowledged _ _ (ba_spool _ B n)) as Hack. pose proof (ba_cursor _ B n) as Hcur. fold c in Hcur.
  destruct (with_cursor_same n c) as (_ & Hset & Hwe & _ & Hwh & Hwd).
  pose proof (slice_split _ _ Hs) as Hsplit. pose proof (fv_events _ _ _ _ F) as Hev. fold c in Hev.
  rewrite Hf in Hsplit. replace (cursor c n + 1 - 1) with (cursor c n) in Hsplit by lia.
  assert (Forall (fun e => acceptable c n now_c e /\ recent (sy_hourly_from s) (sy_daily_from s) e) (tb_events b)) as Hevb.
  { rewrite Hsplit, drop_app_ge in Hev by (rewrite length_take; lia). rewrite length_take in Hev.
    replace (Z.to_nat (cursor c n) - _)%nat with 0%nat in Hev by (unfold zlen in Hcur; lia). rewrite drop_0 in Hev.
    by apply Forall_app in Hev as [Hev _]. }
  assert (forall i e, tb_events b !! i = Some e -> event_fit (tb_first_sequence b + Z.of_nat i) e) as Hfit.
  { intros i e He. apply (so_log _ _ (ba_spool _ B n)); [lia|]. rewrite <- (sl_events _ _ Hs i e He). f_equal. lia. }
  apply (persist_all_ok n now_c (sy_hourly_from s) (sy_daily_from s) (tb_events b)
    (take (Z.to_nat (cursor c n)) (sy_log s n)) (drop (Z.to_nat (tb_last_sequence b)) (sy_log s n)) (sy_log s n)
    (with_cursor n c) (cursor c n + 1)); try done.
  - split; intros x u b' Hb'; [rewrite Hwh; by apply B|rewrite Hwd; by apply B].
  - apply F.
  - eapply Forall_impl; [exact Hevb|]. by intros e [].
  - eapply Forall_impl; [exact Hevb|]. intros e [He _]. by eapply acceptable_settings.
  - apply Forall_lookup. intros i e He. by destruct (Hfit _ _ He) as (_ & _ & _ & ?).
  - intros i e He. destruct (Hfit _ _ He) as [-> _]. lia.
  - lia.
  - intros i. rewrite Hwe. intros Hi. pose proof (ba_events _ B n i Hi) as Hle. fold c in Hle. lia.
Qed.
Lemma ingest_batch_ok now n b c c2 st :
  is_Some (ct_network c) -> ct_nodes c !! n = Some st ->
  match st with NodeDisabled | NodeWithdrawn => false | _ => true end = true ->
  cursor c n < tb_last_sequence b -> cursor c n + 1 <= i64_max -> tb_first_sequence b = cursor c n + 1 ->
  tx_for_each (persist_telemetry_event n (ct_detailed_enabled (with_cursor n c)) now) (tb_events b) (with_cursor n c)
    = (Ok tt, c2) ->
  exists c', ingest_batch now n b c = (Ok (tb_last_sequence b), c').
Proof.
  intros [net Hnet] Hst Hok Hl Hm Hf Hall. destruct (with_cursor_same n c) as (_ & _ & _ & Hwn & _).
  eexists. unfold ingest_batch, mbind, tx_bind, tx_query at 1, load_network. rewrite Hnet. cbn [ok_or].
  unfold tx_query at 1. rewrite Hst. cbn [ok_or]. unfold tx_lift at 1. rewrite Hok. cbn [ensure].
  unfold tx_write at 1. fold (with_cursor n c). unfold tx_query at 1. rewrite Hwn. cbn [ok_or].
  rewrite (proj2 (Z.leb_gt _ _)) by lia. unfold tx_lift at 1.
  rewrite (proj2 (checked_add_Some i64_max (cursor c n) 1 (cursor c n + 1))) by lia. cbn [ok_or].
  unfold tx_lift at 1. rewrite Hf, Z.eqb_refl. cbn [ensure]. unfold tx_read at 1. rewrite Hall. reflexivity.
Qed.
Lemma ingest_ok s n b o now_c now :
  balanced s -> favourable s n now_c now -> slice (sy_log s n) b -> tb_node_id b = n ->
  tb_first_sequence b = cursor (sy_control s) n + 1 -> ot_database o = true -> control_seconds (ot_wall o) = Ok now_c ->
  exists c', ingest_telemetry o n b (sy_control s) = (Ok (mkAck (tb_last_sequence b) (tb_last_sequence b + 1)), c').
Proof.
  intros B F Hs Hn Hf Ho Hnow. pose proof (slice_bound _ _ Hs) as Hb.
  pose proof (so_acknowledged _ _ (ba_spool _ B n)) as Hack. pose proof (ba_cursor _ B n) as Hcur.
  pose proof (so_next _ _ (ba_spool _ B n)) as Hnext. pose proof (fv_roomy _ _ _ _ F) as Hroom. unfold roomy in Hroom.
  destruct (slice_accepted _ _ _ _ _ B F Hs Hf) as [c2 Hall].
  assert (exists st, ct_nodes (sy_control s) !! n = Some st /\
    match st with NodeDisabled | NodeWithdrawn => false | _ => true end = true) as (st & Hst & Hok)
    by (destruct (fv_node _ _ _ _ F); eauto).
  destruct (ingest_batch_ok now_c n b (sy_control s) c2 st (fv_network _ _ _ _ F) Hst Hok) as [c' Hi]; [lia|lia|done|done|].
  exists c'. unfold ingest_telemetry, mbind, tx_bind, tx_lift, transaction. rewrite (sl_valid _ _ Hs). cbn [map_err].
  rewrite Hn, bool_decide_eq_true_2, Hnow, Ho, Hi by done. cbn [ensure].
  unfold telemetry_cursor_from_acknowledged. rewrite (proj2 (non_negative_new_Ok _ _)) by (split; [|reflexivity]; lia).
  cbn. assert (checked_next (tb_last_sequence b) = Some (tb_last_sequence b + 1)) as Hn1 by (apply checked_next_Some; lia).
  rewrite Hn1. cbn. unfold cursor_validate, ack_validate. cbn. by rewrite Hn1, bool_decide_eq_true_2.
Qed.

(** ** The acknowledgement *)

Lemma acknowledge_ok o now a t log :
  spool_ok t log -> ot_database o = true -> unix_seconds (ot_wall o) = Ok now -> a < tl_next_sequence t -> a + 1 <= i64_max ->
  (forall k row, tl_spool t !! k = Some row -> sr_created_at row <= default now (sr_acknowledged_at row)) ->
  exists t', acknowledge o (mkAck a (a + 1)) t = (Ok tt, t') /\
    (forall k row, tl_spool t' !! k = Some row -> sr_created_at row <= default now (sr_acknowledged_at row)).
Proof.
  intros S Ho Hnow Ha Hm Hclock.
  assert (exists t1, (if tl_acknowledged_sequence t <? a
      then _ ← tx_execute (mark_acknowledged a now); tx_write (set_acknowledged_sequence a) else mret tt) t = (Ok tt, t1) /\
    forall k row, tl_spool t1 !! k = Some row -> sr_created_at row <= default now (sr_acknowledged_at row)) as (t1 & H1 & Hc1).
  { destruct (tl_acknowledged_sequence t <? a); [|by eexists]. unfold mbind, tx_bind, tx_execute.
    destruct (mark_acknowledged a now t) as [t0|e] eqn:Em.
    - eexists. split; [reflexivity|]. cbn. intros k row. rewrite (mark_acknowledged_lookup k _ _ _ _ Em).
      destruct (tl_spool t !! k) as [r|] eqn:Er; [|done]. intros [= <-]. specialize (Hclock _ _ Er). case_match; done.
    - exfalso. unfold mark_acknowledged in Em. rewrite ensure_true in Em; [done|].
      apply forallb_forall. intros [k row] Hin%list_elem_of_In%elem_of_map_to_list. cbn. apply orb_true_iff. right.
      apply Z.leb_le. by eapply Hclock. }
  eexists. split.
  - unfold acknowledge, mbind, tx_bind, tx_lift, transaction. unfold validated, ack_validate. cbn [ack_acknowledged_sequence ack_expected_sequence].
    rewrite (proj2 (checked_next_Some a (a + 1))), bool_decide_eq_true_2 by (done || lia). cbn [ensure map_err].
    rewrite Hnow, Ho. unfold tx_read at 1. unfold tx_read at 1. rewrite (proj2 (Z.leb_gt _ _)) by lia. cbn [negb ensure].
    unfold mbind, tx_bind in H1. rewrite H1. reflexivity.
  - intros k row [Hr _]%purged_lookup. by eapply Hc1.
Qed.

(** ** An exchange that nothing disturbs *)

Section Undisturbed.
Context (n : Uuid) (oc o : Outside) (now_c now : Z).
Context (Hoc : ot_database oc = true) (Hnow_c : control_seconds (ot_wall oc) = Ok now_c).
Context (Ho : ot_database o = true) (Hnow : unix_seconds (ot_wall o) = Ok now).

(** The state after a batch that was taken and acknowledged *)
Definition exchanged (b : TelemetryBatch) (c' : Control) (t' : Telemetry) (s : System) : System :=
  node_moves n t' nothing_seen
    (control_moves c' [(n, mkAck (tb_last_sequence b) (tb_last_sequence b + 1))] (sends b s)).

Lemma exchanged_favourable b c' t' s :
  balanced s -> favourable s n now_c now -> settings c' = settings (sy_control s) ->
  cursor (sy_control s) n <= cursor c' n -> enqueued (sy_node s n) t' = [] ->
  tl_next_sequence t' = tl_next_sequence (sy_node s n) ->
  (forall k row, tl_spool t' !! k = Some row -> sr_created_at row <= default now (sr_acknowledged_at row)) ->
  favourable (exchanged b c' t' s) n now_c now /\ sy_log (exchanged b c' t' s) n = sy_log s n.
Proof.
  intros B F Hset Hcur He Hn Hclock. unfold exchanged, node_moves, control_moves, sends. cbn.
  pose proof Hset as Hset'. unfold settings in Hset'. injection Hset' as H1 H2 H3 H4 H5.
  rewrite upd_eq, He, app_nil_r. split; [|done]. pose proof (so_acknowledged _ _ (ba_spool _ B n)).
  pose proof (ba_cursor _ B n). split; cbn; rewrite ?upd_eq, ?He, ?app_nil_r, ?H1, ?H2.
  - apply F.
  - apply F.
  - pose proof (fv_events _ _ _ _ F) as Hev.
    replace (Z.to_nat (cursor c' n)) with
      (Z.to_nat (cursor (sy_control s) n) + (Z.to_nat (cursor c' n) - Z.to_nat (cursor (sy_control s) n)))%nat by lia.
    rewrite <- drop_drop. apply Forall_drop. eapply Forall_impl; [exact Hev|]. intros e [Ha Hr].
    split; [by eapply acceptable_settings|done].
  - apply F.
  - exact Hclock.
  - unfold roomy. rewrite Hn. apply F.
Qed.

Lemma round_ok s :
  balanced s -> favourable s n now_c now -> cursor (sy_control s) n < zlen (sy_log s n) ->
  exists b c' t', batch_from n (cursor (sy_control s) n + 1) (sy_node s n) = Ok (Some b) /\
    ingest_telemetry oc n b (sy_control s) = (Ok (mkAck (tb_last_sequence b) (tb_last_sequence b + 1)), c') /\
    acknowledge o (mkAck (tb_last_sequence b) (tb_last_sequence b + 1)) (sy_node s n) = (Ok tt, t') /\
    rtc (step new_node_id) s (exchanged b c' t' s) /\ favourable (exchanged b c' t' s) n now_c now /\
    sy_log (exchanged b c' t' s) n = sy_log s n /\
    cursor (sy_control s) n < cursor c' n /\ cursor c' n = tb_last_sequence b /\
    tl_acknowledged_sequence t' = tb_last_sequence b /\ tl_next_sequence t' = tl_next_sequence (sy_node s n).
Proof.
  intros B F Hlt. pose proof (ba_cursor _ B n) as Hcur. pose proof (so_next _ _ (ba_spool _ B n)) as Hnext.
  destruct (batch_from_next (sy_node s n) (sy_log s n) n (cursor (sy_control s) n + 1)) as (b & Hb & Hs & Hn & Hf);
    [apply B|apply F|lia|].
  pose proof (slice_bound _ _ Hs) as Hbound. pose proof (fv_roomy _ _ _ _ F) as Hroom. pose proof Hroom as Hroom'. unfold roomy in Hroom'.
  destruct (ingest_ok _ _ _ oc _ _ B F Hs Hn Hf Hoc Hnow_c) as [c' Hi].
  destruct (acknowledge_ok o now (tb_last_sequence b) _ _ (ba_spool _ B n) Ho Hnow) as (t' & Ha & Hclock);
    [lia|lia|apply F|].
  pose proof (step_send new_node_id s n _ b Hroom Hb) as S1.
  pose proof (step_ingest new_node_id (sends b s) n oc b _ c' ltac:(left) Hi) as S2. cbn [app] in S2.
  pose proof (step_acknowledge new_node_id (control_moves c' [(n, mkAck (tb_last_sequence b) (tb_last_sequence b + 1))]
    (sends b s)) n o (mkAck (tb_last_sequence b) (tb_last_sequence b + 1)) _ t' ltac:(cbn; left) Ha) as S3.
  pose proof (at_result _ _ _ _ _ (ingest_spec oc n b _) Hi) as ((Hk & Hset & _ & _ & Hcase) & _). cbn in Hk.
  pose proof (at_result _ _ _ _ _ (acknowledge_spec o _ _ _ (ba_spool _ B n)) Ha) as (St & (Hack & _ & Hnn & _) & _).
  cbn in Hack. assert (enqueued (sy_node s n) t' = []) as He.
  { unfold enqueued. by rewrite Hnn, Z.sub_diag. }
  destruct (exchanged_favourable b c' t' s B F Hset) as [F' Hlog]; [lia|done|done|done|].
  exists b, c', t'. split_and!; try done; try lia.
  eapply rtc_l; [exact S1|]. eapply rtc_l; [exact S2|]. apply rtc_once. exact S3.
Qed.

Context (Hfates : forall i, fates i = Replied oc).

(** What has been achieved *)
Definition delivered (s : System) (rounds : nat) (t' : Telemetry) (c' : Control) : Prop :=
  exists s', rtc (step new_node_id) s s' /\ sy_node s' n = t' /\ sy_control s' = c' /\ sy_log s' n = sy_log s n /\
    favourable s' n now_c now /\
    Z.min (zlen (sy_log s n)) (cursor (sy_control s) n + Z.of_nat rounds) <= cursor c' n /\
    (tl_acknowledged_sequence (sy_node s n) = cursor (sy_control s) n \/
       (cursor (sy_control s) n < zlen (sy_log s n) /\ rounds <> 0%nat) ->
     tl_acknowledged_sequence t' = cursor c' n).

Lemma delivered_none s rounds :
  favourable s n now_c now -> rounds = 0%nat \/ cursor (sy_control s) n = zlen (sy_log s n) ->
  balanced s -> delivered s rounds (sy_node s n) (sy_control s).
Proof.
  intros F Hr B. pose proof (ba_cursor _ B n). exists s. split_and!; try done; [lia|]. intros [?|[? ?]]; [done|].
  destruct Hr; [done|lia].
Qed.
Lemma delivered_more b c' t' s rounds t2 c2 :
  balanced s -> sy_node (exchanged b c' t' s) n = t' -> sy_control (exchanged b c' t' s) = c' ->
  rtc (step new_node_id) s (exchanged b c' t' s) -> sy_log (exchanged b c' t' s) n = sy_log s n ->
  cursor (sy_control s) n < cursor c' n -> tl_acknowledged_sequence t' = cursor c' n ->
  delivered (exchanged b c' t' s) rounds t2 c2 -> delivered s (S rounds) t2 c2.
Proof.
  intros B Hn Hc Hsteps Hlog Hlt Hack (s2 & Hs2 & Hn2 & Hc2 & Hlog2 & F2 & Hprog & Hack2).
  rewrite Hn, Hc, Hlog in *. exists s2. split_and!; try done; [by etrans|lia|]. intros _. apply Hack2. by left.
Qed.

Lemma upload_delivers rounds s k :
  balanced s -> favourable s n now_c now ->
  exists t' k' c', upload_batches (request_upload n) n rounds (fun _ => o) (cursor (sy_control s) n + 1)
      (sy_node s n, mkNet (sy_control s) k) = (Ok tt, (t', mkNet c' k')) /\ delivered s rounds t' c'.
Proof.
  revert s k. induction rounds as [|rounds IH]; intros s k B F.
  { eexists _, _, _. split; [reflexivity|]. apply delivered_none; eauto. }
  pose proof (ba_cursor _ B n) as Hcur. pose proof (so_next _ _ (ba_spool _ B n)) as Hnext.
  pose proof (so_acknowledged _ _ (ba_spool _ B n)) as Hack0.
  cbn [upload_batches]. unfold mbind at 1, tx_bind at 1, locally at 1, tx_query at 1.
  destruct (decide (cursor (sy_control s) n = zlen (sy_log s n))) as [Hall|Hmore].
  { assert (batch_from n (cursor (sy_control s) n + 1) (sy_node s n) = Ok None) as ->.
    { unfold batch_from. rewrite (proj2 (Z.eqb_neq _ 0)) by lia. cbn [negb ensure mbind result_bind].
      by rewrite (proj2 (Z.eqb_eq _ _)) by lia. }
    eexists _, _, _. split; [reflexivity|]. apply delivered_none; eauto. }
  destruct (round_ok s B F ltac:(lia)) as (b & c' & t' & Hb & Hi & Ha & Hsteps & F' & Hlog & Hlt & Hc' & Hat & Hnn).
  rewrite Hb. unfold mbind at 1, tx_bind at 1, remotely at 1, request_upload at 1, next_fate. rewrite Hfates.
  cbn [nt_control nt_requests]. rewrite Hi. cbn [map_err]. set (a := mkAck (tb_last_sequence b) (tb_last_sequence b + 1)) in *.
  assert (balanced (exchanged b c' t' s)) as B1 by (by eapply steps_balanced).
  assert (sy_node (exchanged b c' t' s) n = t') as Hn1 by (cbn; by rewrite upd_eq).
  unfold mbind at 1, tx_bind at 1, tx_lift at 1. assert (ack_validate a = Ok tt) as ->.
  { unfold ack_validate, a. cbn. rewrite (proj2 (checked_next_Some _ (tb_last_sequence b + 1))), bool_decide_eq_true_2; try done.
    pose proof (fv_roomy _ _ _ _ F) as Hr. unfold roomy in Hr. pose proof (ba_cursor _ B1 n) as Hx. rewrite Hlog in Hx.
    cbn in Hx. lia. }
  cbn [validated map_err]. unfold mbind at 1, tx_bind at 1, tx_lift at 1. cbn [ack_acknowledged_sequence a].
  rewrite Z.eqb_refl. cbn [ensure]. unfold mbind at 1, tx_bind at 1, locally at 1. rewrite Ha. cbn [ack_expected_sequence a].
  destruct (IH (exchanged b c' t' s) (S k) B1 F') as (t2 & k2 & c2 & Hup & Hd).
  rewrite Hn1 in Hup. cbn [sy_control exchanged node_moves control_moves] in Hup. rewrite Hc' in Hup.
  eexists _, _, _. split; [exact Hup|]. eapply delivered_more; eauto. congruence.
Qed.

Lemma sync_delivers s k :
  balanced s -> favourable s n now_c now ->
  exists t' k' c', sync_over_network n (fun _ => o) (sy_node s n, mkNet (sy_control s) k) = (Ok tt, (t', mkNet c' k')) /\
    delivered s MAX_TELEMETRY_BATCHES_PER_SYNC t' c'.
Proof.
  intros B F. destruct (upload_delivers MAX_TELEMETRY_BATCHES_PER_SYNC s (S k) B F) as (t' & k' & c' & Hup & Hd).
  exists t', k', c'. split; [|done]. pose proof (ba_cursor _ B n) as Hcur. pose proof (so_acknowledged _ _ (ba_spool _ B n)).
  pose proof (so_next _ _ (ba_spool _ B n)). pose proof (fv_roomy _ _ _ _ F) as Hr. unfold roomy in Hr.
  unfold sync_over_network, sync_telemetry, mbind at 1, tx_bind at 1, remotely at 1, request_cursor at 1, next_fate.
  rewrite Hfates. cbn [nt_control nt_requests]. unfold load_telemetry_cursor, load_network.
  destruct (fv_network _ _ _ _ F) as [net ->]. cbn [ok_or mbind result_bind].
  rewrite ensure_true by (by destruct (fv_node _ _ _ _ F) as [-> | ->]). cbn [mbind result_bind].
  fold (cursor (sy_control s) n). unfold telemetry_cursor_from_acknowledged.
  rewrite (proj2 (non_negative_new_Ok _ (cursor (sy_control s) n))) by lia. cbn [map_err mbind result_bind].
  assert (checked_next (cursor (sy_control s) n) = Some (cursor (sy_control s) n + 1)) as Hn by (apply checked_next_Some; lia).
  rewrite Hn. cbn [ok_or mbind result_bind]. unfold cursor_validate, ack_validate at 1. cbn [cu_acknowledged_sequence cu_expected_sequence ack_acknowledged_sequence ack_expected_sequence].
  rewrite Hn, bool_decide_eq_true_2 by done. cbn [ensure map_err mbind result_bind].
  unfold mbind at 1, tx_bind at 1, tx_lift at 1, cursor_validate, ack_validate at 1.
  cbn [cu_acknowledged_sequence cu_expected_sequence ack_acknowledged_sequence ack_expected_sequence].
  rewrite Hn, bool_decide_eq_true_2 by done. cbn [ensure validated map_err]. exact Hup.
Qed.

(** Exchange after exchange *)
Fixpoint syncs (times : nat) : Tx (Telemetry * Net) HostError unit :=
  match times with
  | O => mret tt
  | S times => _ ← sync_over_network n (fun _ => o); syncs times
  end.
Lemma syncs_deliver times : forall s k,
  balanced s -> favourable s n now_c now ->
  exists t' k' c', syncs times (sy_node s n, mkNet (sy_control s) k) = (Ok tt, (t', mkNet c' k')) /\
    delivered s (times * MAX_TELEMETRY_BATCHES_PER_SYNC) t' c'.
Proof.
  induction times as [|times IH]; intros s k B F.
  { eexists _, _, _. split; [reflexivity|]. apply delivered_none; eauto. }
  destruct (sync_delivers s k B F) as (t1 & k1 & c1 & H1 & s1 & Hs1 & Hn1 & Hc1 & Hlog1 & F1 & Hp1 & Ha1).
  assert (balanced s1) as B1 by (by eapply steps_balanced).
  destruct (IH s1 k1 B1 F1) as (t2 & k2 & c2 & H2 & s2 & Hs2 & Hn2 & Hc2 & Hlog2 & F2 & Hp2 & Ha2).
  exists t2, k2, c2. split.
  - cbn [syncs]. unfold mbind, tx_bind. rewrite H1, <- Hn1, <- Hc1. exact H2.
  - pose proof (ba_cursor _ B1 n) as Hx. rewrite Hn1, Hc1, Hlog1 in *. exists s2. split_and!; try done; [by etrans| |].
    + unfold MAX_TELEMETRY_BATCHES_PER_SYNC in *. lia.
    + intros Hor. apply Ha2. left. apply Ha1. destruct Hor as [?|[? _]]; [by left|right; by split].
Qed.
End Undisturbed.
End Exchange.
