(* ===== verification/TelemetryTheorems.v ===== *)
(** * Telemetry, from the counters to the controller

    The properties of the telemetry pipeline, with a node and a controller on
    which they can be evaluated. *)
From S2P Require Import Prelude Text Clock ProtoTypes ProtoInstances ProtoAuth ProtoNode ProtoNodeFacts ProtoTelemetry NodeHostDb NodeHostRuntime.
From S2P Require Import NodeHostRuns NodeHostSamples Transaction NodePolicy NodeTelemetry ControlTelemetry NodeTelemetryFacts.
From S2P Require Import TelemetryUpload ControlTelemetryFacts TelemetryPipeline TelemetryExchange.
From stdpp Require Import sorting list_numbers.
Open Scope Z_scope.

(** ** Examples *)

#[export] Instance protocol_eq_dec : EqDecision NetworkProtocol.
Proof. solve_decision. Defined.
#[export] Instance protocol_countable : Countable NetworkProtocol.
Proof.
  refine (inj_countable' (fun p => match p with Tcp => true | Udp => false end)
    (fun b : bool => if b then Tcp else Udp) _). by intros [].
Defined.
#[export] Instance quota_eq_dec : EqDecision QuotaStatus.
Proof. solve_decision. Defined.
#[export] Instance quota_countable : Countable QuotaStatus.
Proof.
  refine (inj_countable' (fun q => match q with QsNormal => None | QsNearingLimit => Some true | QsExceeded => Some false end)
    (fun o => match o with None => QsNormal | Some true => QsNearingLimit | Some false => QsExceeded end) _). by intros [].
Defined.
#[export] Instance kind_eq_dec : EqDecision TelemetryEventKind.
Proof. solve_decision. Defined.
#[export] Instance kind_countable : Countable TelemetryEventKind.
Proof.
  refine (inj_countable' (fun k => match k with
      | TrafficDelta u up down n => inl (inl (u, up, down, n))
      | Connection u p h port i => inl (inr (u, p, h, port, i))
      | CollectionStatus code r => inr (inl (code, r))
      | QuotaState u q r => inr (inr (u, q, r)) end)
    (fun x => match x with
      | inl (inl (u, up, down, n)) => TrafficDelta u up down n
      | inl (inr (u, p, h, port, i)) => Connection u p h port i
      | inr (inl (code, r)) => CollectionStatus code r
      | inr (inr (u, q, r)) => QuotaState u q r end) _).
  by intros [].
Defined.
#[export] Instance event_eq_dec : EqDecision TelemetryEvent.
Proof. solve_decision. Defined.
#[export] Instance event_countable : Countable TelemetryEvent.
Proof.
  refine (inj_countable' (fun e => (ev_sequence e, (instant (ev_occurred_at e), offset (ev_occurred_at e)), ev_kind e))
    (fun '(k, (i, o), kind) => mkEvent k (mkTime i o) kind) _).
  by intros [? [] ?].
Defined.
(** An event is written as the bits of its code. *)
#[export] Instance bits_json : EventJson := {
  event_to_string e := Some (bits (encode e));
  event_from_str s := p ← of_bits s; decode p;
}.
#[export] Instance bits_laws : EventJsonLaws bits_json.
Proof. split. intros e s _ [= <-]. cbn. rewrite of_bits_bits. cbn. by rewrite decode_encode. Qed.

Definition node_a : Uuid := sample_uuid 2.
Definition user_a : Uuid := sample_uuid 3.
Definition at_second (k : Z) : Outside := mkOutside true (k * NANOS).
Definition start : Z := 1700000000.
Definition month_start : Provider :=
  mkProvider None (Some (mkUsageRow EmptyString 0 0 None)) None.
Definition running_db : Db := set_active (mkActive (Some 7) None None 1 0) fresh_db.
Definition target_a : StatsQueryTarget :=
  mkTarget 7 1 "/opt/xray" [] 10085 {[ "user-a"%string := user_a ]}.
Definition counters_a (up down : Z) : gmap Uuid (Z * Z) := {[ user_a := (up, down) ]}.
Definition control_a : Control :=
  mkControl (Some (sample_uuid 1)) {[ node_a := NodeActive ]} {[ (node_a, user_a) ]} false 30 ∅ ∅ ∅ ∅ [].

(** Steps, as functions *)
Definition do_snapshot (k up down : Z) (s : System) : System :=
  let '(r, t') := record_snapshot node_a running_db (at_second k) (k * NANOS) target_a (counters_a up down) (sy_node s node_a) in
  node_moves node_a t' (fun d u => if is_ok r then snapshot_delta d u (sy_node s node_a) target_a (counters_a up down) else 0) s.
Definition do_flush (k : Z) (s : System) : System :=
  node_moves node_a (flush_pending_traffic node_a (at_second k) (occurred_at (k * NANOS)) (sy_node s node_a)).2 nothing_seen s.
Lemma reach_snapshot k up down s :
  reachable node_a s -> roomy (sy_node s node_a) -> reachable node_a (do_snapshot k up down s).
Proof.
  intros H Hm. unfold do_snapshot. destruct (record_snapshot _ _ _ _ _ _ _) as [r t'] eqn:E.
  eapply reach_step; [exact H|]. by eapply step_snapshot.
Qed.
Lemma reach_flush k s : reachable node_a s -> roomy (sy_node s node_a) -> reachable node_a (do_flush k s).
Proof.
  intros H Hm. unfold do_flush. eapply reach_step; [exact H|]. eapply step_flush; [done|]. apply surjective_pairing.
Qed.
(** A baseline, 50 bytes up and 60 down, and the event for them *)
Definition sample_system : System :=
  do_flush (start + 2) (do_snapshot (start + 1) 150 260 (do_snapshot start 100 200 (initial (fun _ => month_start) control_a))).
Lemma sample_reachable : reachable node_a sample_system.
Proof.
  apply reach_flush; [apply reach_snapshot; [apply reach_snapshot; [by apply reach_initial|]|]|]; vm_compute; reflexivity.
Qed.
Lemma sample_log : length (sy_log sample_system node_a) = 1%nat.
Proof. vm_compute. reflexivity. Qed.

(** ** Properties *)

Section Theorems.
Context `{Sha : Sha256} `{Cal : Calendar} `{Ids : UuidText} `{NJson : NodeJson} `{Json : EventJson} {Laws : EventJsonLaws Json}.
Context (new_node_id : Uuid).

(** C13: Every byte is counted once. However requests and answers are lost,
    repeated or delayed and whichever transactions fail, the controller's hourly
    and daily figures are exactly the sums over the events its cursor has passed
    (from the buckets its retention keeps), and these events, those still on
    their way and the traffic still waiting at the node add up to what the node's
    counters showed. *)
Theorem bytes_counted_once (s : System) (n : Uuid) :
  reachable new_node_id s ->
  (forall x u b, sy_hourly_from s <= b ->
     shown x n u b (ct_hourly (sy_control s)) = sum_of (share 3600 x u b) (taken s n)) /\
  (forall x u b, sy_daily_from s <= b ->
     shown x n u b (ct_daily (sy_control s)) = sum_of (share 86400 x u b) (taken s n)) /\
  (forall d u, traffic d u (taken s n) + traffic d u (drop (Z.to_nat (cursor (sy_control s) n)) (sy_log s n))
     + pending_bytes d u (sy_node s n) = sy_seen s n d u).
Proof.
  intros R. pose proof (reachable_balanced _ _ R) as B. split; [apply (ba_hourly _ B)|split; [apply (ba_daily _ B)|]]. intros d u.
  unfold taken. rewrite <- traffic_app, take_drop. apply B.
Qed.

Lemma enqueue_full t kind occurred now :
  spool_is_full (tl_spool t) = true -> exists e, enqueue_in_transaction new_node_id kind occurred now t = (Err e, t).
Proof. intros H. eexists. unfold enqueue_in_transaction, mbind, tx_bind, tx_read, tx_lift. rewrite H. reflexivity. Qed.

(** C15: The node discards no event the controller has not taken. Whatever was
    written to the log and is not taken yet is in the node's spool, unacknowledged
    and readable; a full spool refuses new events and leaves those it has alone,
    where NODE_HOST.md says that the oldest are dropped; and while sequence numbers
    have room, the node can make a batch that starts with the first event the
    controller is missing. The controller's cursor does not go back in such a run:
    a restore of its database is not part of it. *)
Theorem untaken_events_kept (s : System) (n : Uuid) (i : nat) (e : TelemetryEvent) :
  reachable new_node_id s -> sy_log s n !! i = Some e -> cursor (sy_control s) n <= Z.of_nat i ->
  (exists row, tl_spool (sy_node s n) !! (Z.of_nat i + 1) = Some row /\ sr_acknowledged_at row = None /\
     event_from_str (sr_event_json row) = Some e) /\
  (spool_is_full (tl_spool (sy_node s n)) = true -> forall kind occurred now, exists error,
     enqueue_in_transaction new_node_id kind occurred now (sy_node s n) = (Err error, sy_node s n)) /\
  (roomy (sy_node s n) -> exists b, batch_from n (cursor (sy_control s) n + 1) (sy_node s n) = Ok (Some b) /\
     head (tb_events b) = sy_log s n !! Z.to_nat (cursor (sy_control s) n)).
Proof.
  intros R He Hi. pose proof (reachable_balanced _ _ R) as B. pose proof (ba_cursor _ B n) as Hc. pose proof (ba_spool _ B n) as S.
  pose proof (so_next _ _ S) as Hn. pose proof (so_acknowledged _ _ S) as Ha. pose proof (lookup_lt_Some _ _ _ He) as Hl.
  split; [|split; [intros; by apply enqueue_full|]].
  - destruct (so_kept _ _ S (Z.of_nat i + 1)) as (row & Hr & Hnone); [unfold zlen in *; lia|]. exists row.
    split; [done|]. split; [done|]. destruct (so_read _ _ _ _ S Hr) as (e' & Hl' & Hf & _). rewrite Hf, <- Hl', <- He.
    f_equal. lia.
  - intros Hroom. destruct (batch_from_next _ _ n (cursor (sy_control s) n + 1) S Hroom) as (b & Hb & Hs & _ & Hf);
      [unfold zlen in *; lia|]. exists b. split; [done|].
    destruct (tb_events b) as [|e0 evs] eqn:Ee; [by destruct (sl_some _ _ Hs)|].
    pose proof (sl_events _ _ Hs 0%nat e0) as H0. rewrite Ee in H0. specialize (H0 eq_refl). cbn [head]. rewrite <- H0. f_equal. lia.
Qed.

(** C31: What is stored and what is sent has its type. Every row of every spool
    is a document of at most 16384 characters under its own digest that decodes to
    a valid event numbered like the row; every batch that ever went out passes the
    controller's validation and its events are a gapless part of the log of its
    node, from the batch's first to its last sequence; and a node's
    acknowledgement never passes what it wrote. *)
Theorem stored_telemetry_well_formed (s : System) (n : Uuid) :
  reachable new_node_id s ->
  (forall k row, tl_spool (sy_node s n) !! k = Some row ->
     protocol_digest (as_bytes (sr_event_json row)) = sr_event_sha256 row /\ text_length (sr_event_json row) <= 16384 /\
     exists e, event_from_str (sr_event_json row) = Some e /\ ev_sequence e = k /\ offset (ev_occurred_at e) = 0 /\
       event_kind_validate (ev_kind e) = Ok tt) /\
  (forall b, b ∈ sy_sent s -> batch_validate b [TELEMETRY_SCHEMA_VERSION] = Ok tt /\ tb_events b <> [] /\
     1 <= tb_first_sequence b /\ tb_last_sequence b = tb_first_sequence b + zlen (tb_events b) - 1 /\
     tb_last_sequence b <= zlen (sy_log s (tb_node_id b)) /\
     tb_events b = take (length (tb_events b)) (drop (Z.to_nat (tb_first_sequence b - 1)) (sy_log s (tb_node_id b)))) /\
  0 <= tl_acknowledged_sequence (sy_node s n) < tl_next_sequence (sy_node s n).
Proof.
  intros R. pose proof (reachable_balanced _ _ R) as B. pose proof (ba_spool _ B n) as S. split_and!.
  - intros k row Hr. destruct (so_read _ _ _ _ S Hr) as (e & Hl & Hf & Hd & Hk & Hlen). split; [done|]. split; [done|].
    exists e. destruct (so_log _ _ S k e) as (_ & ? & ? & _); [apply (so_bound _ _ _ _ S Hr)|done|]. done.
  - intros b Hb. pose proof (ba_sent _ B b Hb) as Hs. destruct (slice_bound _ _ Hs).
    pose proof (slice_is_part _ _ Hs). by destruct Hs.
  - apply (so_acknowledged _ _ S).
  - apply (so_acknowledged _ _ S).
Qed.

(** Collecting counters and exchanging telemetry, as the service calls them,
    are sequences of steps of the pipeline, whatever Xray answers and whatever the
    network does to each request. *)
Theorem operations_are_steps (s : System) (n : Uuid) :
  reachable new_node_id s -> tl_next_sequence (sy_node s n) + 102 < i64_max ->
  (forall db o later occurred executor,
     exists s', reachable new_node_id s' /\ sy_control s' = sy_control s /\
       sy_node s' n = (collect_xray_traffic new_node_id db o later occurred executor (sy_node s n)).2) /\
  (forall fates o k,
     let after := (sync_over_network fates n o (sy_node s n, mkNet (sy_control s) k)).2 in
     exists s', reachable new_node_id s' /\ sy_node s' n = after.1 /\ sy_control s' = nt_control after.2).
Proof.
  intros R Hm. pose proof (reachable_balanced _ _ R) as B. assert (roomy (sy_node s n)) as Hroom by (unfold roomy; lia).
  assert (forall s', rtc (step new_node_id) s s' -> reachable new_node_id s') as Hreach.
  { intros s' H. revert R. clear -H. induction H; [done|]. intros R. apply IHrtc. by eapply reach_step. }
  split.
  - intros db o later occurred executor. unfold collect_xray_traffic, mbind, tx_bind, tx_lift.
    destruct (load_stats_query_target db) as [[target|]|e]; [|by exists s..].
    destruct (collect_target new_node_id db o later occurred target (executor target) (sy_node s n)) as [r t'] eqn:E.
    destruct (collect_target_steps new_node_id _ _ _ _ _ _ _ _ _ _ B Hm E) as (s' & Hs & Hn & Hc). exists s'. by split_and!; eauto.
  - intros fates o k. destruct (sync_over_network fates n o _) as [r [t' net']] eqn:E.
    destruct (sync_steps new_node_id fates _ _ _ _ _ _ _ B Hroom E) as (s' & Hs & Hn & Hc). exists s'. by split_and!; eauto.
Qed.

(** C16: Everything arrives. If requests are answered, the node's clock is not behind
    the events it made, and the controller knows the node and can take its events,
    then any number of exchanges succeeds, and when no more than eight events for
    each of them were missing, the controller has all of them in the end and the
    node has the acknowledgement for all. *)
Theorem telemetry_arrives (s : System) (n : Uuid) (fates : nat -> Fate) (oc o : Outside) (now_c now : Z) (times : nat) :
  reachable new_node_id s -> favourable s n now_c now -> (forall i, fates i = Replied oc) ->
  ot_database oc = true -> control_seconds (ot_wall oc) = Ok now_c ->
  ot_database o = true -> unix_seconds (ot_wall o) = Ok now ->
  cursor (sy_control s) n < zlen (sy_log s n) <= cursor (sy_control s) n + 8 * Z.of_nat times ->
  exists t' net', syncs fates n o times (sy_node s n, mkNet (sy_control s) 0) = (Ok tt, (t', net')) /\
    cursor (nt_control net') n = zlen (sy_log s n) /\ tl_acknowledged_sequence t' = zlen (sy_log s n).
Proof.
  intros R F Hf Hoc Hc Ho Hn Ht. pose proof (reachable_balanced _ _ R) as B.
  destruct (syncs_deliver new_node_id fates n oc o now_c now Hoc Hc Ho Hn Hf times s 0 B F)
    as (t' & k' & c' & H & s' & Hs & Hn' & Hc' & Hlog & _ & Hp & Ha).
  assert (balanced s') as B' by (by eapply steps_balanced). pose proof (ba_cursor _ B' n) as Hx.
  rewrite Hc', Hlog in Hx. unfold MAX_TELEMETRY_BATCHES_PER_SYNC in *.
  exists t', (mkNet c' k'). split; [done|]. cbn. assert (cursor c' n = zlen (sy_log s n)) as Heq by lia. split; [done|].
  rewrite <- Heq. apply Ha. right. split; [lia|]. destruct times; [lia|done].
Qed.
End Theorems.

(** ** What stops the accounting *)

Section Stops.
Context `{Sha : Sha256} `{Cal : Calendar} `{Json : EventJson} {Laws : EventJsonLaws Json} (new_node_id : Uuid).

(** One attempt to take a snapshot of the counters *)
Record Attempt : Type := mkAttempt {
  tt_db : Db;
  tt_now : Outside;
  tt_later : Outside;
  tt_occurred : Z;
  tt_target : StatsQueryTarget;
  tt_snapshot : gmap Uuid (Z * Z);
}.
Definition attempt_snapshot (t : Telemetry) (a : Attempt) : Telemetry :=
  (apply_counter_snapshot new_node_id (tt_db a) (tt_now a) (tt_later a) (tt_occurred a) (tt_target a) (tt_snapshot a) t).2.

(** Nothing acknowledged for so long that the spool is full *)
Definition full_and_silent (t : Telemetry) : Prop :=
  MAX_UNACKNOWLEDGED_EVENTS <= Z.of_nat (size (tl_spool t)) /\
  map_Forall (fun _ row => sr_acknowledged_at row = None) (tl_spool t).

Lemma filter_all {A} (f : A -> bool) l : (forall a, a ∈ l -> f a = true) -> List.filter f l = l.
Proof.
  induction l as [|a l IH]; intros H; [done|]. cbn. rewrite H by left. f_equal. apply IH. intros b Hb. apply H. by right.
Qed.
Lemma silent_full t : full_and_silent t -> spool_is_full (tl_spool t) = true.
Proof.
  intros [Hsize Hall]. unfold spool_is_full. apply orb_true_iff. left. apply orb_true_iff. left. apply Z.leb_le.
  rewrite filter_all.
  - unfold zlen. rewrite length_fmap, length_map_to_list. done.
  - intros row ([k r] & -> & Hr%elem_of_map_to_list)%list_elem_of_fmap. by apply bool_decide_eq_true, (Hall k).
Qed.
Lemma silent_purged now t : full_and_silent t -> purged now t = t.
Proof.
  intros [_ Hall]. unfold purged. rewrite map_filter_id; [by destruct t|].
  intros k row Hr. by apply retained_unacknowledged, (Hall k).
Qed.
Lemma transition_full t previous code occurred now :
  spool_is_full (tl_spool t) = true -> previous <> Some code ->
  exists e, record_status_transition new_node_id previous (Some code) occurred now t = (Err e, t).
Proof.
  intros H Hne. unfold record_status_transition. rewrite bool_decide_eq_false_2 by done.
  unfold mbind, tx_bind, enqueue_status. destruct previous as [p|].
  - destruct (enqueue_full new_node_id t (CollectionStatus p true) occurred now H) as [e He]. exists e.
    unfold mbind, tx_bind. by rewrite He.
  - destruct (enqueue_full new_node_id t (CollectionStatus code false) occurred now H) as [e He]. exists e.
    cbn. unfold mbind, tx_bind. by rewrite He.
Qed.

(** C40: A full spool stops the provider's accounting. When the spool is full of
    events that were never acknowledged, and the last status the node recorded is
    not that of a restart, then after a restart of Xray no attempt records a
    snapshot, whatever the counters show: the change of status cannot be enqueued,
    and with it the whole snapshot is undone. The tables stay as they are, the
    month's usage of the provider among them. *)
Theorem full_spool_stops_accounting (t : Telemetry) (generation : Z) (attempts : list Attempt) :
  full_and_silent t -> tl_runtime_generation t = Some generation -> tl_last_status_code t <> Some STATUS_RESTARTED ->
  Forall (fun a => sq_runtime_generation (tt_target a) <> generation) attempts ->
  foldl attempt_snapshot t attempts = t /\ tl_provider (foldl attempt_snapshot t attempts) = tl_provider t.
Proof.
  intros Hfull Hg Hs Ha. enough (foldl attempt_snapshot t attempts = t) as -> by done.
  induction Ha as [|a l Hne _ IH]; [done|]. cbn [foldl].
  enough (attempt_snapshot t a = t) as -> by done. unfold attempt_snapshot, apply_counter_snapshot, mbind, tx_bind.
  enough (exists e, record_snapshot new_node_id (tt_db a) (tt_now a) (tt_occurred a) (tt_target a) (tt_snapshot a) t = (Err e, t))
    as [e ->] by done.
  unfold record_snapshot, mbind, tx_bind, tx_lift at 1. destruct (unix_seconds _) as [now|e]; [|by eexists].
  unfold transaction. destruct (ot_database (tt_now a)); [|by eexists].
  unfold purge_acknowledged, tx_write. fold (purged now t). rewrite (silent_purged now t Hfull).
  unfold tx_lift at 1. destruct (ensure _ _) as [[]|e]; [|by eexists]. unfold tx_read. rewrite Hg. cbn [some_and].
  rewrite (proj2 (Z.eqb_neq _ _)) by congruence. cbn [negb].
  destruct (transition_full t (tl_last_status_code t) STATUS_RESTARTED (occurred_at (tt_occurred a)) now (silent_full _ Hfull) Hs)
    as [e ->]. by eexists.
Qed.

(** A clock that was set back stops the exchange. While the oldest event the
    controller has not acknowledged carries a time ahead of the node's clock, an
    exchange that has anything to upload fails, whatever the controller answers, and
    acknowledges nothing. *)
Theorem clock_behind_stops_exchange {Ctl : Type} (get_cursor : Ctl -> host_result TelemetryCursor * Ctl)
    (put_batch : TelemetryBatch -> Ctl -> host_result TelemetryBatchAcknowledgement * Ctl)
    (t : Telemetry) (log : list TelemetryEvent) (n : Uuid) (c c' : Ctl) (o : Outside) (now : Z)
    (row : SpoolRow) (position : Z) :
  spool_ok t log -> roomy t -> unix_seconds (ot_wall o) = Ok now ->
  tl_spool t !! (tl_acknowledged_sequence t + 1) = Some row -> sr_acknowledged_at row = None -> now < sr_created_at row ->
  get_cursor c = (Ok (mkCursor position (position + 1)), c') ->
  tl_acknowledged_sequence t <= position < zlen log ->
  exists e c'', sync_telemetry get_cursor put_batch n (fun _ => o) (t, c) = (Err e, (t, c'')).
Proof.
  intros S Hroom Hnow Hr Hnone Hclock Hget Hp. pose proof (so_next _ _ S) as Hn. pose proof Hroom as Hm. unfold roomy in Hm.
  unfold sync_telemetry, mbind at 1, tx_bind at 1, remotely at 1. rewrite Hget.
  unfold mbind at 1, tx_bind at 1, tx_lift at 1. destruct (validated _ _) as [[]|]; [|by eexists _, _].
  cbn [cu_expected_sequence]. unfold MAX_TELEMETRY_BATCHES_PER_SYNC. cbn [upload_batches].
  unfold mbind at 1, tx_bind at 1, locally at 1, tx_query at 1.
  destruct (batch_from_next t log n (position + 1) S Hroom ltac:(lia)) as (b & -> & Hs & _ & Hf).
  pose proof (slice_bound _ _ Hs).
  unfold mbind at 1, tx_bind at 1, remotely at 1. destruct (put_batch b c') as [[a|e] c1]; [|by eexists _, _].
  unfold mbind at 1, tx_bind at 1, tx_lift at 1. destruct (validated _ _) as [[]|] eqn:Ev; [|by eexists _, _].
  unfold mbind at 1, tx_bind at 1, tx_lift at 1. destruct (ensure _ _) as [[]|] eqn:Ea; [|by eexists _, _].
  apply ensure_Ok, Z.eqb_eq in Ea. unfold mbind at 1, tx_bind at 1, locally at 1.
  enough (exists e, acknowledge o a t = (Err e, t)) as [e ->] by (by eexists _, _).
  pose proof (acknowledge_spec o a t log S) as Hspec. unfold after in Hspec.
  destruct (acknowledge o a t) as [[[]|e] t'] eqn:Ek; [|cbn in Hspec; subst; by eexists].
  exfalso. unfold acknowledge, mbind, tx_bind, tx_lift, transaction in Ek.
  destruct (validated "controller telemetry acknowledgement is invalid" (ack_validate a)); [|done]. rewrite Hnow in Ek. destruct (ot_database o); [|by simplify_eq/=].
  unfold tx_read in Ek. rewrite Ea in Ek. destruct (ensure _ _); [|by simplify_eq/=].
  rewrite (proj2 (Z.ltb_lt _ _)) in Ek by lia. unfold tx_execute, mark_acknowledged in Ek.
  destruct (ensure (forallb _ _) Sqlite) as [[]|] eqn:Ef; [|by simplify_eq/=]. apply ensure_Ok in Ef. rewrite forallb_forall in Ef.
  specialize (Ef (tl_acknowledged_sequence t + 1, row)). rewrite <- list_elem_of_In, elem_of_map_to_list in Ef.
  specialize (Ef Hr). cbn in Ef. rewrite Hnone in Ef. cbn in Ef. bool_props. destruct Ef; bool_props; lia.
Qed.
End Stops.

(** ** Witnesses *)

Lemma bytes_counted_once_witness :
  sy_seen sample_system node_a Upload user_a = 50 /\
  traffic Upload user_a (taken sample_system node_a)
    + traffic Upload user_a (drop (Z.to_nat (cursor (sy_control sample_system) node_a)) (sy_log sample_system node_a))
    + pending_bytes Upload user_a (sy_node sample_system node_a) = sy_seen sample_system node_a Upload user_a.
Proof.
  split; [vm_compute; reflexivity|].
  exact (proj2 (proj2 (bytes_counted_once node_a sample_system node_a sample_reachable)) Upload user_a).
Defined.

Definition sample_event : TelemetryEvent :=
  mkEvent 1 (mkTime ((start + 1) * NANOS) 0) (TrafficDelta user_a 50 60 0).
Lemma sample_events : sy_log sample_system node_a = [sample_event].
Proof. vm_compute. reflexivity. Qed.
Lemma stored_telemetry_well_formed_witness :
  exists row e, tl_spool (sy_node sample_system node_a) !! 1 = Some row /\
    event_from_str (sr_event_json row) = Some e /\ ev_sequence e = 1.
Proof.
  destruct (tl_spool (sy_node sample_system node_a) !! 1) as [row|] eqn:Er; [|vm_compute in Er; discriminate].
  destruct (proj1 (stored_telemetry_well_formed node_a sample_system node_a sample_reachable) 1 row Er) as (_ & _ & e & He & Hk & _).
  exists row, e. split_and!; [done|exact He|exact Hk].
Defined.
Lemma sample_roomy : roomy (sy_node sample_system node_a).
Proof. vm_compute. reflexivity. Qed.
Lemma untaken_events_kept_witness :
  exists b, batch_from node_a (cursor (sy_control sample_system) node_a + 1) (sy_node sample_system node_a) = Ok (Some b) /\
    head (tb_events b) = Some sample_event.
Proof.
  refine (proj2 (proj2 (untaken_events_kept node_a sample_system node_a 0 sample_event sample_reachable _ _)) sample_roomy).
  - vm_compute. reflexivity.
  - vm_compute. discriminate.
Defined.

Lemma operations_are_steps_witness :
  let fates := fun _ : nat => Replied (at_second (start + 5)) in
  exists s', reachable node_a s' /\ cursor (sy_control s') node_a = 1.
Proof.
  intros fates.
  assert (tl_next_sequence (sy_node sample_system node_a) + 102 < i64_max) as Hm by (vm_compute; reflexivity).
  destruct (proj2 (operations_are_steps node_a sample_system node_a sample_reachable Hm) fates
    (fun _ => at_second (start + 5)) 0%nat) as (s' & R & _ & Hc).
  exists s'. split; [exact R|]. rewrite Hc. vm_compute. reflexivity.
Defined.

Lemma sample_favourable : favourable sample_system node_a (start + 10) (start + 10).
Proof.
  split.
  - vm_compute. by eexists.
  - right. vm_compute. reflexivity.
  - rewrite sample_events. replace (Z.to_nat (cursor (sy_control sample_system) node_a)) with 0%nat by (vm_compute; reflexivity).
    constructor; [|done]. split; [|split; vm_compute; discriminate]. split; [vm_compute; discriminate|]. split.
    + exists (mkEventRow EtTrafficDelta (Some user_a) (start + 1) (start + 10) Stored None None None None None).
      split; vm_compute; reflexivity.
    + split_and!; vm_compute; discriminate.
  - rewrite sample_events. intros width x u b p q Hpq. assert (p = [] \/ p = [sample_event]) as [-> | ->].
    { destruct p as [|e p]; [by left|right]. injection Hpq as <- Hpq. by destruct p. }
    + split; vm_compute; discriminate.
    + unfold sum_of, share. cbn -[bool_decide Z.add]. case_bool_decide; [|vm_compute; split; discriminate].
      destruct x; vm_compute; split; discriminate.
  - refine (bool_decide_unpack (map_Forall
      (fun _ row => sr_created_at row <= default (start + 10) (sr_acknowledged_at row))
      (tl_spool (sy_node sample_system node_a))) _). vm_compute. exact I.
  - apply sample_roomy.
Qed.
Lemma telemetry_arrives_witness :
  exists t' net', syncs (fun _ => Replied (at_second (start + 10))) node_a (at_second (start + 10)) 1
      (sy_node sample_system node_a, mkNet (sy_control sample_system) 0) = (Ok tt, (t', net')) /\
    cursor (nt_control net') node_a = zlen (sy_log sample_system node_a) /\
    tl_acknowledged_sequence t' = zlen (sy_log sample_system node_a).
Proof.
  apply (telemetry_arrives node_a sample_system node_a (fun _ => Replied (at_second (start + 10)))
    (at_second (start + 10)) (at_second (start + 10)) (start + 10) (start + 10) 1 sample_reachable sample_favourable);
    try reflexivity. split; vm_compute; [reflexivity|discriminate].
Defined.

(** A spool of 10000 events that nobody has acknowledged *)
Definition silent_row : SpoolRow := mkSpoolRow "{}" "" 0 None.
Definition silent_spool (n : Z) : gmap Z SpoolRow := list_to_map ((fun k => (k, silent_row)) <$> seqZ 1 n).
Definition silent_node : Telemetry := mkTelemetry (silent_spool 10000) 10001 0 (Some 1) None ∅ ∅ month_start.
Definition restarted_attempt (up down : Z) : Attempt :=
  mkAttempt (set_active (mkActive (Some 7) None None 2 0) fresh_db) (at_second start) (at_second start) (start * NANOS)
    (mkTarget 7 2 "/opt/xray" [] 10085 {[ "user-a"%string := user_a ]}) (counters_a up down).
Lemma silent_spool_size n : 0 <= n -> Z.of_nat (size (silent_spool n)) = n.
Proof.
  intros Hn. unfold silent_spool. rewrite <- length_map_to_list, map_to_list_to_map.
  - rewrite length_fmap, length_seqZ. lia.
  - rewrite <- list_fmap_compose. assert (fst ∘ (fun k => (k, silent_row)) <$> seqZ 1 n = seqZ 1 n) as -> by apply list_fmap_id.
    apply NoDup_seqZ.
Qed.
Lemma silent_spool_rows n : map_Forall (fun _ row => sr_acknowledged_at row = None) (silent_spool n).
Proof.
  intros k row Hr. apply elem_of_list_to_map_2, list_elem_of_fmap in Hr as (j & [= _ ->] & _). reflexivity.
Qed.
Lemma silent_node_full : full_and_silent silent_node.
Proof.
  split; [|apply (silent_spool_rows 10000)]. unfold silent_node, MAX_UNACKNOWLEDGED_EVENTS. cbn [tl_spool].
  rewrite silent_spool_size by lia. lia.
Qed.
Lemma full_spool_stops_accounting_witness :
  foldl (attempt_snapshot node_a) silent_node [restarted_attempt 0 0; restarted_attempt 1000000 2000000] = silent_node.
Proof.
  refine (proj1 (full_spool_stops_accounting node_a silent_node 1
    [restarted_attempt 0 0; restarted_attempt 1000000 2000000] silent_node_full eq_refl _ _)).
  - discriminate.
  - repeat constructor; discriminate.
Defined.

Lemma clock_behind_stops_exchange_witness :
  let get_cursor := fun c : unit => (Ok (mkCursor 0 1) : host_result TelemetryCursor, c) in
  let put_batch := fun b (c : unit) => (Ok (mkAck (tb_last_sequence b) (tb_last_sequence b + 1)) : host_result _, c) in
  exists e c, sync_telemetry get_cursor put_batch node_a (fun _ => at_second start) (sy_node sample_system node_a, tt)
    = (Err e, (sy_node sample_system node_a, c)).
Proof.
  intros get_cursor put_batch.
  pose proof (ba_spool _ (reachable_balanced _ _ sample_reachable) node_a) as S.
  destruct (tl_spool (sy_node sample_system node_a) !! 1) as [row|] eqn:Er; [|vm_compute in Er; discriminate].
  apply (clock_behind_stops_exchange get_cursor put_batch _ _ node_a tt tt (at_second start) start row 0 S sample_roomy).
  - reflexivity.
  - exact Er.
  - vm_compute in Er. injection Er as <-. reflexivity.
  - vm_compute in Er. injection Er as <-. vm_compute. reflexivity.
  - reflexivity.
  - vm_compute. split; [discriminate|reflexivity].
Defined.
