(* ===== verification/RouterProtocol.v ===== *)
(** * Router protocols

    [src/node-host/src/router_protocol.rs]: asking the home router for a TCP
    mapping by PCP, NAT-PMP or UPnP, renewing it and giving it back. The crates
    that speak to the router ([crab_nat], [igd_next], [netdev]) and the random
    generator answer from [env], one answer per call; the calls are logged. A
    timeout may end an operation at any of its calls. *)
From S2P Require Import Prelude Text Clock ProtoTypes ProtoAuth ProtoNode ProtoTelemetry NodeHostDb NodeHostRuntime Transaction NodePolicy.
From stdpp Require Import pretty.
Open Scope Z_scope.

Definition LEASE_SECONDS : Z := 60 * 60.
Definition MAX_ACCEPTED_LEASE_SECONDS : Z := 24 * 60 * 60.
Definition MAX_UPNP_ENTRIES : nat := 64.

(** ** Failures *)

Inductive MappingFailureCode : Type :=
| RouteUnavailable | PrivateAddressUnavailable | ProtocolUnavailable | Unauthorized | Timeout | InvalidResponse
| NonPublicAddress | PermanentLeaseUnsupported | OwnershipLost | TopologyChanged | ReleaseFailed.
#[export] Instance MappingFailureCode_eq_dec : EqDecision MappingFailureCode.
Proof. solve_decision. Defined.

(** [MappingFailureCode::as_str] *)
Definition failure_as_str (c : MappingFailureCode) : string :=
  match c with
  | RouteUnavailable => "mapping_route_unavailable"
  | PrivateAddressUnavailable => "mapping_private_address_unavailable"
  | ProtocolUnavailable => "mapping_protocol_unavailable"
  | Unauthorized => "mapping_unauthorized"
  | Timeout => "mapping_timeout"
  | InvalidResponse => "mapping_invalid_response"
  | NonPublicAddress => "mapping_non_public_address"
  | PermanentLeaseUnsupported => "mapping_permanent_lease_unsupported"
  | OwnershipLost => "mapping_ownership_lost"
  | TopologyChanged => "mapping_topology_changed"
  | ReleaseFailed => "mapping_release_failed"
  end.

(** [select_failure] *)
Definition preferred_failures : list MappingFailureCode :=
  [NonPublicAddress; PermanentLeaseUnsupported; Unauthorized; OwnershipLost; TopologyChanged; Timeout;
   InvalidResponse; PrivateAddressUnavailable; RouteUnavailable; ProtocolUnavailable].
Definition select_failure (failures : list MappingFailureCode) : MappingFailureCode :=
  default ProtocolUnavailable (List.find (fun preferred => bool_decide (preferred ∈ failures)) preferred_failures).

(** ** Mappings *)

Record MappingRequest : Type := mkRequest {
  mr_node_id : Uuid;
  mr_revision : Z;
  mr_internal_port : Z;
}.
Record DurableMapping : Type := mkDurable {
  dm_source : EndpointSource;
  dm_gateway_address : IpAddr;
  dm_internal_address : IpAddr;
  dm_internal_port : Z;
  dm_external_address : IpAddr;
  dm_external_port : Z;
  dm_pcp_nonce : option (list byte);
  dm_upnp_description : option string;
  dm_gateway_epoch : option Z;
  dm_lifetime_seconds : Z;
  dm_topology_fingerprint : option (list byte);
}.
Record CreatedMapping : Type := mkCreated {
  cm_source : EndpointSource;
  cm_gateway_address : IpAddr;
  cm_internal_address : IpAddr;
  cm_internal_port : Z;
  cm_external_address : IpAddr;
  cm_external_port : Z;
  cm_pcp_nonce : option (list byte);
  cm_upnp_description : option string;
  cm_gateway_epoch : option Z;
  cm_lifetime_seconds : Z;
  cm_topology_fingerprint : list byte;
}.
(** [DurableMapping::from] *)
Definition durable_from (m : CreatedMapping) : DurableMapping :=
  mkDurable (cm_source m) (cm_gateway_address m) (cm_internal_address m) (cm_internal_port m)
    (cm_external_address m) (cm_external_port m) (cm_pcp_nonce m) (cm_upnp_description m)
    (cm_gateway_epoch m) (cm_lifetime_seconds m) (Some (cm_topology_fingerprint m)).

(** ** Addresses *)

Definition ip_v4 (a : Ipv4Addr) : IpAddr := V4 [oct0 a; oct1 a; oct2 a; oct3 a].

(** [valid_finite_lifetime], [is_private_router_address] *)
Definition valid_finite_lifetime (seconds : Z) : bool := (0 <? seconds) && (seconds <=? MAX_ACCEPTED_LEASE_SECONDS).
Definition is_private_router_address (a : Ipv4Addr) : bool :=
  v4_is_private a && negb (v4_is_loopback a) && negb (v4_is_link_local a) && negb (v4_is_unspecified a)
  && negb (v4_is_multicast a).
(** [is_publishable_ipv4], [is_publishable_external_address] *)
Definition is_publishable_ipv4 (a : Ipv4Addr) : bool :=
  negb (v4_is_private a) && negb (v4_is_loopback a) && negb (v4_is_link_local a) && negb (v4_is_unspecified a)
  && negb (v4_is_multicast a) && negb (v4_is_broadcast a) && negb (v4_is_documentation a)
  && negb ((oct0 a =? 100) && v4_between 64 (oct1 a) 127)
  && negb ((oct0 a =? 192) && (oct1 a =? 0) && (oct2 a =? 0))
  && negb ((oct0 a =? 198) && ((oct1 a =? 18) || (oct1 a =? 19)))
  && negb (oct0 a =? 0) && (oct0 a <? 240).
Definition is_publishable_external_address (ip : IpAddr) : bool :=
  match ip with V4 octets => is_publishable_ipv4 (ipv4_of octets) | V6 _ => false end.

(** [nonzero] *)
Definition nonzero (port : Z) : result MappingFailureCode Z := _ ← ensure (negb (port =? 0)) InvalidResponse; Ok port.

(** [nonce_to_bytes], [nonce_from_bytes]; a nonce is three 32-bit numbers *)
Definition nonce_to_bytes (nonce : list Z) : list byte := concat (be_bytes 4 <$> nonce).
Definition nonce_from_bytes (bytes : list byte) : list Z :=
  [be_value (take 4 bytes); be_value (take 4 (drop 4 bytes)); be_value (take 4 (drop 8 bytes))].

(** ** What the crates say *)

(** [netdev::Interface], [Device], [Ipv4Net] *)
Record Network : Type := mkNetwork { nw_addr : Ipv4Addr; nw_prefix_len : Z; nw_contains : Ipv4Addr -> bool }.
Record GatewayDevice : Type := mkGatewayDevice { gd_ipv4 : list Ipv4Addr; gd_mac : list byte }.
Record Interface : Type := mkInterface {
  if_index : Z;
  if_name : string;
  if_up : bool;
  if_running : bool;
  if_loopback : bool;
  if_point_to_point : bool;
  if_tun : bool;
  if_gateway : option GatewayDevice;
  if_ipv4 : list Network;
}.

(** [crab_nat]: the failures and a mapping that was made *)
Inductive PcpResultCode : Type :=
| PcpNotAuthorized | PcpUnsupportedVersion | PcpUnsupportedOpcode | PcpUnsupportedOption | PcpUnsupportedProtocol | PcpOther.
Inductive PcpFailure : Type := PcpTimeout | PcpSocket | PcpNonce | PcpInvalidResponse | PcpResult (c : PcpResultCode).
Inductive NatPmpResultCode : Type := NpNotAuthorized | NpUnsupportedVersion | NpUnsupportedOpcode | NpOther.
Inductive NatPmpFailure : Type := NpTimeout | NpSocket | NpInvalidResponse | NpResult (c : NatPmpResultCode).
Inductive PortMappingType : Type := TypePcp (nonce : list Z) (external_ip : IpAddr) | TypeNatPmp.
Record PortMapping : Type := mkPortMapping {
  pm_gateway : IpAddr;
  pm_internal_port : Z;
  pm_external_port : Z;
  pm_lifetime : Z;
  pm_gateway_epoch : Z;
  pm_type : PortMappingType;
}.

(** [igd_next] *)
Inductive SearchError : Type := NoResponseWithinTimeout | SearchInvalidResponse | SearchUtf8 | SearchXml | SearchOther.
Inductive AddPortError : Type :=
| ApNotAuthorized | ApOnlyPermanent | ApPortInUse | ApSamePortRequired | ApInternalZero | ApExternalZero
| ApDescriptionTooLong | ApRequest.
Inductive AddAnyPortError : Type :=
| AaNotAuthorized | AaOnlyPermanent | AaNoPorts | AaExternalInUse | AaInternalZero | AaDescriptionTooLong | AaRequest.
Record UpnpEntry : Type := mkEntry {
  ue_tcp : bool;
  ue_external_port : Z;
  ue_internal_client : string;
  ue_internal_port : Z;
  ue_description : string;
  ue_enabled : bool;
  ue_remote_host : string;
  ue_lease_duration : Z;
}.
Inductive EntryAnswer : Type := EntryIs (e : UpnpEntry) | EntryIndexInvalid | EntryFailed.
Inductive RemoveAnswer : Type := PortRemoved | NoSuchPortMapping | RemoveFailed.

(** [classify_pcp_failure], [classify_nat_pmp_failure], [classify_search_error],
    [classify_add_port_error], [classify_add_any_error] *)
Definition classify_pcp_failure (e : PcpFailure) : MappingFailureCode :=
  match e with
  | PcpTimeout => Timeout
  | PcpSocket => RouteUnavailable
  | PcpNonce | PcpInvalidResponse => InvalidResponse
  | PcpResult PcpNotAuthorized => Unauthorized
  | PcpResult (PcpUnsupportedVersion | PcpUnsupportedOpcode | PcpUnsupportedOption | PcpUnsupportedProtocol) =>
      ProtocolUnavailable
  | PcpResult PcpOther => InvalidResponse
  end.
Definition classify_nat_pmp_failure (e : NatPmpFailure) : MappingFailureCode :=
  match e with
  | NpTimeout => Timeout
  | NpSocket => RouteUnavailable
  | NpResult NpNotAuthorized => Unauthorized
  | NpResult (NpUnsupportedVersion | NpUnsupportedOpcode) => ProtocolUnavailable
  | NpInvalidResponse | NpResult NpOther => InvalidResponse
  end.
Definition classify_search_error (e : SearchError) : MappingFailureCode :=
  match e with
  | NoResponseWithinTimeout => Timeout
  | SearchInvalidResponse | SearchUtf8 | SearchXml => InvalidResponse
  | SearchOther => ProtocolUnavailable
  end.
Definition classify_add_port_error (e : AddPortError) : MappingFailureCode :=
  match e with
  | ApNotAuthorized => Unauthorized
  | ApOnlyPermanent => PermanentLeaseUnsupported
  | ApPortInUse | ApSamePortRequired => ProtocolUnavailable
  | ApInternalZero | ApExternalZero | ApDescriptionTooLong | ApRequest => InvalidResponse
  end.
Definition classify_add_any_error (e : AddAnyPortError) : MappingFailureCode :=
  match e with
  | AaNotAuthorized => Unauthorized
  | AaOnlyPermanent => PermanentLeaseUnsupported
  | AaNoPorts | AaExternalInUse => ProtocolUnavailable
  | AaInternalZero | AaDescriptionTooLong | AaRequest => InvalidResponse
  end.

(** One answer: of every crate, and whether the two timeouts have run out *)
Record RouterAnswer : Type := mkRouterAnswer {
  ra_in_time : bool;
  ra_cleaned_in_time : bool;
  ra_interface : option Interface;
  ra_nonce : list Z;
  ra_token : list byte;
  ra_pcp : result PcpFailure PortMapping;
  ra_nat_pmp : result NatPmpFailure PortMapping;
  ra_external_address : result NatPmpFailure Ipv4Addr;
  ra_dropped : bool;
  ra_gateway : result SearchError IpAddr;
  ra_external_ip : option IpAddr;
  ra_add_port : result AddPortError unit;
  ra_add_any : result AddAnyPortError Z;
  ra_entry : EntryAnswer;
  ra_remove : RemoveAnswer;
}.

(** What was asked *)
Inductive RouterCall : Type :=
| AskInterface | AskRandom | AskExternalAddress | AskSearch | AskExternalIp
| AskPcp (internal_port : Z) (nonce : list Z) (external_ip : option IpAddr) (external_port : option Z)
    (answer : result PcpFailure PortMapping)
| AskNatPmp (internal_port : Z) (external_port : option Z) (answer : result NatPmpFailure PortMapping)
| AskAddPort (external_port : Z) (description : string)
| AskAddAny (description : string)
| AskEntry (index : Z) (answer : EntryAnswer)
| AskRemove (external_port : Z)
| AskDrop (m : PortMapping)
| AskDropPcp (internal_port : Z) (nonce : list Z)
| AskDropNatPmp (internal_port : Z).
Record RouterState : Type := mkRouterState { rs_asked : nat; rs_log : list RouterCall }.
Abbreviation Asking A := (Tx RouterState MappingFailureCode A).

Section Router.
Context `{Sha : Sha256} `{Ids : UuidText} (env : nat -> RouterAnswer).

Definition ask_router (call : RouterAnswer -> RouterCall) : Asking RouterAnswer := fun s =>
  let a := env (rs_asked s) in (Ok a, mkRouterState (S (rs_asked s)) (call a :: rs_log s)).
(** A call under [PROTOCOL_TIMEOUT] *)
Definition bounded (call : RouterAnswer -> RouterCall) : Asking RouterAnswer :=
  a ← ask_router call;
  _ ← tx_lift (ensure (ra_in_time a) Timeout);
  mret a.

(** ** The route *)

Record Route : Type := mkRoute {
  ro_gateway : Ipv4Addr;
  ro_client : Ipv4Addr;
  ro_topology_fingerprint : list byte;
}.
Definition octets (a : Ipv4Addr) : list byte := byte_of_Z <$> [oct0 a; oct1 a; oct2 a; oct3 a].

(** [topology_fingerprint] *)
Definition topology_transcript (interface_index : Z) (interface_name : string) (gateway client : Ipv4Addr)
    (prefix_length : Z) (gateway_mac : option (list byte)) : list byte :=
  as_bytes "friend-node/router-topology/v1" ++ ["000"%byte] ++ be_bytes 4 interface_index
  ++ be_bytes 8 (str_len interface_name) ++ as_bytes interface_name ++ octets gateway ++ octets client
  ++ [byte_of_Z prefix_length]
  ++ match gateway_mac with Some address => "001"%byte :: address | None => ["000"%byte] end.
Definition topology_fingerprint (interface_index : Z) (interface_name : string) (gateway client : Ipv4Addr)
    (prefix_length : Z) (gateway_mac : option (list byte)) : list byte :=
  sha256 (topology_transcript interface_index interface_name gateway client prefix_length gateway_mac).

(** [discover_default_route] *)
Definition discover_default_route : Asking Route :=
  a ← ask_router (fun _ => AskInterface);
  interface ← tx_lift (ok_or (ra_interface a) RouteUnavailable);
  _ ← tx_lift (ensure (negb (negb (if_up interface) || negb (if_running interface) || if_loopback interface
                             || if_point_to_point interface || if_tun interface)) RouteUnavailable);
  gateway_device ← tx_lift (ok_or (if_gateway interface) RouteUnavailable);
  gateway ← tx_lift (ok_or (address ← head (gd_ipv4 gateway_device);
                            if is_private_router_address address then Some address else None) RouteUnavailable);
  let private network := is_private_router_address (nw_addr network) in
  network ← tx_lift (ok_or
    match List.find (fun network => nw_contains network gateway && private network) (if_ipv4 interface) with
    | Some network => Some network
    | None => List.find private (if_ipv4 interface)
    end PrivateAddressUnavailable);
  let mac := if bool_decide (gd_mac gateway_device = replicate 6 "000"%byte) then None else Some (gd_mac gateway_device) in
  mret (mkRoute gateway (nw_addr network)
    (topology_fingerprint (if_index interface) (if_name interface) gateway (nw_addr network) (nw_prefix_len network) mac)).

(** [mapping_route] *)
Definition mapping_route (mapping : DurableMapping) : Asking Route :=
  gateway ← tx_lift (match dm_gateway_address mapping with V4 o => Ok (ipv4_of o) | V6 _ => Err RouteUnavailable end);
  client ← tx_lift (match dm_internal_address mapping with V4 o => Ok (ipv4_of o) | V6 _ => Err PrivateAddressUnavailable end);
  _ ← tx_lift (ensure (is_private_router_address gateway && is_private_router_address client) TopologyChanged);
  current ← discover_default_route;
  _ ← tx_lift (ensure (negb (negb (bool_decide (ro_gateway current = gateway))
                             || negb (bool_decide (ro_client current = client))
                             || some_and (dm_topology_fingerprint mapping)
                                  (fun fingerprint => negb (bool_decide (fingerprint = ro_topology_fingerprint current)))))
        TopologyChanged);
  mret current.

(** [SystemMappingBackend::topology_matches] *)
Definition topology_matches (mapping : DurableMapping) : Asking bool := tx_is_ok (mapping_route mapping).

(** ** PCP and NAT-PMP *)

(** [cleanup_failure_or] *)
Definition cleanup_failure_or (mapping : PortMapping) (intended : MappingFailureCode) : Asking MappingFailureCode :=
  a ← ask_router (fun _ => AskDrop mapping);
  mret (if ra_cleaned_in_time a && ra_dropped a then intended else ReleaseFailed).

(** [build_crab_mapping] *)
Definition build_crab_mapping (mapping : PortMapping) (source : EndpointSource) (internal_address external_address : IpAddr)
    (nonce : option (list Z)) (fingerprint : list byte) : Asking CreatedMapping :=
  let lifetime := pm_lifetime mapping in
  if negb (valid_finite_lifetime lifetime) || negb (is_publishable_external_address external_address) then
    let code := if (lifetime =? 0) || (MAX_ACCEPTED_LEASE_SECONDS <? lifetime) then InvalidResponse else NonPublicAddress in
    code ← cleanup_failure_or mapping code;
    tx_lift (Err code)
  else
    mret (mkCreated source (pm_gateway mapping) internal_address (pm_internal_port mapping) external_address
            (pm_external_port mapping) (nonce_to_bytes <$> nonce) None (Some (pm_gateway_epoch mapping)) lifetime fingerprint).

(** [create_pcp] *)
Definition create_pcp (route : Route) (internal_port : Z) (nonce : list Z) (external_ip : option IpAddr)
    (external_port : option Z) : Asking CreatedMapping :=
  a ← bounded (fun a => AskPcp internal_port nonce external_ip external_port (ra_pcp a));
  mapping ← tx_lift (map_err classify_pcp_failure (ra_pcp a));
  match pm_type mapping with
  | TypePcp nonce external_ip =>
      build_crab_mapping mapping EsPcp (ip_v4 (ro_client route)) external_ip (Some nonce) (ro_topology_fingerprint route)
  | TypeNatPmp => code ← cleanup_failure_or mapping InvalidResponse; tx_lift (Err code)
  end.

(** [create_nat_pmp] *)
Definition create_nat_pmp (route : Route) (internal_port : Z) (external_port : option Z)
    (known_external_address : option Ipv4Addr) : Asking CreatedMapping :=
  a ← bounded (fun a => AskNatPmp internal_port external_port (ra_nat_pmp a));
  mapping ← tx_lift (map_err classify_nat_pmp_failure (ra_nat_pmp a));
  external_ip ← match known_external_address with
    | Some address => mret address
    | None =>
        a ← ask_router (fun _ => AskExternalAddress);
        if ra_in_time a then
          match ra_external_address a with
          | Ok address => mret address
          | Err error => code ← cleanup_failure_or mapping (classify_nat_pmp_failure error); tx_lift (Err code)
          end
        else code ← cleanup_failure_or mapping Timeout; tx_lift (Err code)
    end;
  build_crab_mapping mapping EsNatPmp (ip_v4 (ro_client route)) (ip_v4 external_ip) None (ro_topology_fingerprint route).

(** [release_pcp], [release_nat_pmp] *)
Definition release_pcp (mapping : DurableMapping) : Asking unit :=
  _ ← mapping_route mapping;
  nonce ← tx_lift (ok_or (nonce_from_bytes <$> dm_pcp_nonce mapping) OwnershipLost);
  internal_port ← tx_lift (nonzero (dm_internal_port mapping));
  a ← bounded (fun _ => AskDropPcp internal_port nonce);
  tx_lift (ensure (ra_dropped a) ReleaseFailed).
Definition release_nat_pmp (mapping : DurableMapping) : Asking unit :=
  _ ← mapping_route mapping;
  internal_port ← tx_lift (nonzero (dm_internal_port mapping));
  a ← bounded (fun _ => AskDropNatPmp internal_port);
  tx_lift (ensure (ra_dropped a) ReleaseFailed).

(** ** UPnP *)

(** [discover_upnp_gateway] *)
Definition discover_upnp_gateway (route : Route) : Asking IpAddr :=
  a ← bounded (fun _ => AskSearch);
  gateway ← tx_lift (map_err classify_search_error (ra_gateway a));
  _ ← tx_lift (ensure (bool_decide (gateway = ip_v4 (ro_gateway route))) ProtocolUnavailable);
  mret gateway.

Inductive OwnedUpnp : Type := Owned (lease_seconds : Z) | Absent | Foreign.

(** What makes an entry of the router this node's *)
Definition entry_matches (external_port : Z) (internal_address : Ipv4Addr) (internal_port : Z) (description : string)
    (entry : UpnpEntry) : bool :=
  bool_decide (parse_ip (as_bytes (ue_internal_client entry)) = Some (ip_v4 internal_address))
  && (ue_internal_port entry =? internal_port) && bool_decide (ue_description entry = description)
  && ue_enabled entry && bool_decide (ue_remote_host entry = EmptyString).

(** [inspect_upnp_ownership] *)
Fixpoint inspect_from (index : Z) (rounds : nat) (external_port : Z) (internal_address : Ipv4Addr) (internal_port : Z)
    (description : string) (foreign_port : bool) : Asking OwnedUpnp :=
  let done := mret (if foreign_port then Foreign else Absent) in
  match rounds with
  | O => done
  | S rounds =>
      a ← bounded (fun a => AskEntry index (ra_entry a));
      match ra_entry a with
      | EntryIndexInvalid => done
      | EntryFailed => tx_lift (Err OwnershipLost)
      | EntryIs entry =>
          let next := inspect_from (index + 1) rounds external_port internal_address internal_port description in
          if negb (ue_tcp entry) || negb (ue_external_port entry =? external_port) then next foreign_port
          else if entry_matches external_port internal_address internal_port description entry
          then mret (Owned (ue_lease_duration entry))
          else next true
      end
  end.
Definition inspect_upnp_ownership (external_port : Z) (internal_address : Ipv4Addr) (internal_port : Z)
    (description : string) : Asking OwnedUpnp :=
  inspect_from 0 MAX_UPNP_ENTRIES external_port internal_address internal_port description false.

(** [upnp_cleanup_failure_or] *)
Definition upnp_cleanup_failure_or (external_port : Z) (intended : MappingFailureCode) : Asking MappingFailureCode :=
  a ← bounded (fun _ => AskRemove external_port);
  mret (if ra_cleaned_in_time a then
          match ra_remove a with PortRemoved | NoSuchPortMapping => intended | RemoveFailed => ReleaseFailed end
        else ReleaseFailed).

(** An external address, which has to be public *)
Definition upnp_external_address : Asking IpAddr :=
  a ← bounded (fun _ => AskExternalIp);
  address ← tx_lift (ok_or (ra_external_ip a) ProtocolUnavailable);
  _ ← tx_lift (ensure (is_publishable_external_address address) NonPublicAddress);
  mret address.

(** [create_upnp] *)
Definition create_upnp (route : Route) (internal_port requested_external_port : Z) (description : string)
    : Asking CreatedMapping :=
  gateway ← discover_upnp_gateway route;
  external_address ← upnp_external_address;
  a ← bounded (fun _ => AskAddPort requested_external_port description);
  external_port ← match ra_add_port a with
    | Ok _ => mret requested_external_port
    | Err ApPortInUse =>
        a ← bounded (fun _ => AskAddAny description);
        tx_lift (map_err classify_add_any_error (ra_add_any a))
    | Err error => tx_lift (Err (classify_add_port_error error))
    end;
  inspected ← (fun s => match inspect_upnp_ownership external_port (ro_client route) internal_port description s with
                        | (Err Timeout, s) => (Err Timeout, s)
                        | (Err _, s) => (Err ReleaseFailed, s)
                        | ok => ok
                        end);
  match inspected with
  | Owned lease_seconds =>
      if lease_seconds =? 0 then
        code ← upnp_cleanup_failure_or external_port PermanentLeaseUnsupported; tx_lift (Err code)
      else if negb (valid_finite_lifetime lease_seconds) then
        code ← upnp_cleanup_failure_or external_port InvalidResponse; tx_lift (Err code)
      else
        mret (mkCreated EsUpnp gateway (ip_v4 (ro_client route)) internal_port external_address external_port None
                (Some description) None lease_seconds (ro_topology_fingerprint route))
  | Absent | Foreign => tx_lift (Err ReleaseFailed)
  end.

(** [renew_upnp] *)
Definition renew_upnp (mapping : DurableMapping) : Asking CreatedMapping :=
  route ← mapping_route mapping;
  description ← tx_lift (ok_or (dm_upnp_description mapping) OwnershipLost);
  gateway ← discover_upnp_gateway route;
  _ ← tx_lift (ensure (bool_decide (gateway = dm_gateway_address mapping)) OwnershipLost);
  external_address ← upnp_external_address;
  let inspect := inspect_upnp_ownership (dm_external_port mapping) (ro_client route) (dm_internal_port mapping) description in
  before ← inspect;
  _ ← tx_lift (ensure (match before with Owned _ => true | _ => false end) OwnershipLost);
  a ← bounded (fun _ => AskAddPort (dm_external_port mapping) description);
  _ ← tx_lift (map_err classify_add_port_error (ra_add_port a));
  renewed ← inspect;
  lease_seconds ← tx_lift (match renewed with Owned lease_seconds => Ok lease_seconds | _ => Err OwnershipLost end);
  _ ← tx_lift (ensure (valid_finite_lifetime lease_seconds)
        (if lease_seconds =? 0 then PermanentLeaseUnsupported else InvalidResponse));
  mret (mkCreated EsUpnp gateway (ip_v4 (ro_client route)) (dm_internal_port mapping) external_address
          (dm_external_port mapping) None (Some description) None lease_seconds (ro_topology_fingerprint route)).

(** [release_upnp] *)
Definition release_upnp (mapping : DurableMapping) : Asking unit :=
  route ← mapping_route mapping;
  description ← tx_lift (ok_or (dm_upnp_description mapping) OwnershipLost);
  gateway ← discover_upnp_gateway route;
  _ ← tx_lift (ensure (bool_decide (gateway = dm_gateway_address mapping)) OwnershipLost);
  owned ← inspect_upnp_ownership (dm_external_port mapping) (ro_client route) (dm_internal_port mapping) description;
  match owned with
  | Absent => mret tt
  | Foreign => tx_lift (Err OwnershipLost)
  | Owned _ =>
      a ← bounded (fun _ => AskRemove (dm_external_port mapping));
      tx_lift (match ra_remove a with PortRemoved | NoSuchPortMapping => Ok tt | RemoveFailed => Err ReleaseFailed end)
  end.

(** ** The backend *)

(** [mapping_description_with_token] *)
Definition hex_byte (b : byte) : list byte := [hex_digit (byte_to_Z b / 16); hex_digit (byte_to_Z b mod 16)].
Definition mapping_description_with_token (node_id : Uuid) (revision : Z) (token : list byte) : string :=
  str_of_bytes (as_bytes "FriendNode-" ++ take 8 (as_bytes (uuid_to_string node_id)) ++ as_bytes "-r"
                ++ as_bytes (pretty (Z.to_N revision)) ++ as_bytes "-" ++ concat (hex_byte <$> token)).

(** [SystemMappingBackend::create] *)
Definition create (request : MappingRequest) : Asking CreatedMapping :=
  route ← discover_default_route;
  internal_port ← tx_lift (nonzero (mr_internal_port request));
  drawn ← ask_router (fun _ => AskRandom);
  pcp ← attempt_tx (create_pcp route internal_port (ra_nonce drawn) None (Some internal_port));
  match pcp with
  | Ok mapping => mret mapping
  | Err pcp_code =>
      nat_pmp ← attempt_tx (create_nat_pmp route internal_port (Some internal_port) None);
      match nat_pmp with
      | Ok mapping => mret mapping
      | Err nat_pmp_code =>
          drawn ← ask_router (fun _ => AskRandom);
          let description := mapping_description_with_token (mr_node_id request) (mr_revision request) (ra_token drawn) in
          upnp ← attempt_tx (create_upnp route (mr_internal_port request) (mr_internal_port request) description);
          match upnp with
          | Ok mapping => mret mapping
          | Err upnp_code => tx_lift (Err (select_failure [pcp_code; nat_pmp_code; upnp_code]))
          end
      end
  end.

(** [SystemMappingBackend::renew] *)
Definition renew (mapping : DurableMapping) : Asking CreatedMapping :=
  match dm_source mapping with
  | EsPcp =>
      route ← mapping_route mapping;
      nonce ← tx_lift (ok_or (nonce_from_bytes <$> dm_pcp_nonce mapping) OwnershipLost);
      internal_port ← tx_lift (nonzero (dm_internal_port mapping));
      external_port ← tx_lift (nonzero (dm_external_port mapping));
      create_pcp route internal_port nonce (Some (dm_external_address mapping)) (Some external_port)
  | EsNatPmp =>
      external_address ← tx_lift (match dm_external_address mapping with
                                  | V4 o => Ok (ipv4_of o) | V6 _ => Err InvalidResponse end);
      route ← mapping_route mapping;
      internal_port ← tx_lift (nonzero (dm_internal_port mapping));
      external_port ← tx_lift (nonzero (dm_external_port mapping));
      create_nat_pmp route internal_port (Some external_port) (Some external_address)
  | EsUpnp => renew_upnp mapping
  | EsManual | EsRelay => tx_lift (Err InvalidResponse)
  end.

(** [SystemMappingBackend::release] *)
Definition release (mapping : DurableMapping) : Asking unit :=
  match dm_source mapping with
  | EsPcp => release_pcp mapping
  | EsNatPmp => release_nat_pmp mapping
  | EsUpnp => release_upnp mapping
  | EsManual | EsRelay => tx_lift (Err ReleaseFailed)
  end.
End Router.
