(* ===== verification/RouterMapping.v ===== *)
(** * The router mapping of a node host

    [src/node-host/src/mapping.rs]: the supervisor that asks the router for a
    finite mapping of the port of the applied revision, renews it at half its
    lifetime, and gives it back when the provider withdraws. The tables are
    those of migrations 9 and 10 in [src/node-host/src/lib.rs].

    The router protocols are an interface: [MappingBackend] is what the trait of
    that name answers to one call, and [BackendLaws] what the supervisor relies
    on. Every statement is its own transaction, at its own time. *)
From S2P Require Import Prelude Text Clock ProtoTypes ProtoAuth ProtoNode ProtoTelemetry NodeHostDb NodeHostRuntime Transaction NodePolicy.
From S2P Require Import RouterProtocol.
From stdpp Require Import pretty sorting.
Open Scope Z_scope.

Definition MIN_RETRY_DELAY : Z := 30 * NANOS.
Definition MAX_RETRY_DELAY : Z := 15 * 60 * NANOS.

(** ** Addresses as text *)

(** [Display] of [IpAddr] *)
Definition display_v4 (octets : list Z) : list byte :=
  match octets with
  | [a; b; c; d] =>
      let n x := as_bytes (pretty (Z.to_N x)) in
      n a ++ "."%byte :: n b ++ "."%byte :: n c ++ "."%byte :: n d
  | _ => []
  end.
(** [{:x}] of a 16-bit number *)
Definition hex_segment (z : Z) : list byte :=
  let digits := [hex_digit (z / 4096 mod 16); hex_digit (z / 256 mod 16); hex_digit (z / 16 mod 16)] in
  (fix trim (l : list byte) := match l with b :: l' => if bool_decide (b = "0"%byte) then trim l' else l | [] => [] end) digits
  ++ [hex_digit (z mod 16)].
Fixpoint join (sep : list byte) (parts : list (list byte)) : list byte :=
  match parts with
  | [] => []
  | [part] => part
  | part :: parts => part ++ sep ++ join sep parts
  end.
(** The first longest run of zero segments, as its start and length *)
Fixpoint zero_runs (i start len : nat) (best : nat * nat) (segments : list Z) : nat * nat :=
  match segments with
  | [] => best
  | 0 :: segments =>
      let start := if bool_decide (len = 0%nat) then i else start in
      let len := S len in
      zero_runs (S i) start len (if bool_decide (best.2 < len)%nat then (start, len) else best) segments
  | _ :: segments => zero_runs (S i) 0 0 best segments
  end.
Definition display_v6 (segments : list Z) : list byte :=
  match to_ipv4_mapped segments with
  | Some v4 => as_bytes "::ffff:" ++ display_v4 [oct0 v4; oct1 v4; oct2 v4; oct3 v4]
  | None =>
      let '(start, len) := zero_runs 0 0 0 (0, 0)%nat segments in
      let written segments := join [":"%byte] (hex_segment <$> segments) in
      if bool_decide (1 < len)%nat then written (take start segments) ++ as_bytes "::" ++ written (drop (start + len) segments)
      else written segments
  end.
Definition ip_to_string (ip : IpAddr) : string :=
  str_of_bytes match ip with V4 octets => display_v4 octets | V6 segments => display_v6 segments end.

(** ** Tables *)

(** [provider_network_policy] *)
Record RouterMappingPolicy : Type := mkNetworkPolicy {
  np_enabled : bool;
  np_consented_at : option Z;
  np_last_error_code : option string;
  np_last_attempt_at : option Z;
}.
(** [router_mapping_leases]; the constraint of the [state] column admits these
    five words *)
Inductive LeaseState : Type := LeaseActive | LeaseReleasing | LeaseReleased | LeaseFailed | LeaseAbandoned.
#[export] Instance LeaseState_eq_dec : EqDecision LeaseState.
Proof. solve_decision. Defined.
Record LeaseRow : Type := mkLease {
  le_mapping_id : string;
  le_endpoint_id : string;
  le_applied_revision : Z;
  le_source : string;
  le_gateway_address : string;
  le_internal_address : string;
  le_internal_port : Z;
  le_external_address : string;
  le_external_port : Z;
  le_pcp_nonce : option (list byte);
  le_upnp_description : option string;
  le_gateway_epoch : option Z;
  le_topology_fingerprint : option (list byte);
  le_lease_started_at : Z;
  le_lease_expires_at : Z;
  le_state : LeaseState;
  le_failure_code : option string;
  le_ended_at : option Z;
  le_created_at : Z;
  le_updated_at : Z;
}.
Definition with_state (state : LeaseState) (failure_code : option string) (ended_at : option Z) (now : Z) (r : LeaseRow)
    : LeaseRow :=
  mkLease (le_mapping_id r) (le_endpoint_id r) (le_applied_revision r) (le_source r) (le_gateway_address r)
    (le_internal_address r) (le_internal_port r) (le_external_address r) (le_external_port r) (le_pcp_nonce r)
    (le_upnp_description r) (le_gateway_epoch r) (le_topology_fingerprint r) (le_lease_started_at r)
    (le_lease_expires_at r) state failure_code ended_at (le_created_at r) now.

(** Constraints *)
Definition text_within (lo hi : Z) (s : string) : bool :=
  (lo <=? zlen (chars (as_bytes s))) && (zlen (chars (as_bytes s)) <=? hi).
Definition option_within {A} (f : A -> bool) (o : option A) : bool := match o with Some a => f a | None => true end.
Definition is_current (state : LeaseState) : bool :=
  match state with LeaseActive | LeaseReleasing => true | _ => false end.
Definition lease_row_ok (r : LeaseRow) : bool :=
  text_within 36 36 (le_mapping_id r) && text_within 36 36 (le_endpoint_id r)
  && bool_decide (le_source r ∈ ["pcp"; "natPmp"; "upnp"]%string)
  && text_within 1 64 (le_gateway_address r) && text_within 1 64 (le_internal_address r)
  && (1 <=? le_internal_port r) && (le_internal_port r <=? 65535)
  && text_within 1 253 (le_external_address r)
  && (1 <=? le_external_port r) && (le_external_port r <=? 65535)
  && option_within (fun nonce => zlen nonce =? 12) (le_pcp_nonce r)
  && option_within (text_within 1 64) (le_upnp_description r)
  && option_within (fun epoch => 0 <=? epoch) (le_gateway_epoch r)
  && option_within (fun fingerprint => zlen fingerprint =? 32) (le_topology_fingerprint r)
  && option_within (text_within 1 64) (le_failure_code r)
  && (le_lease_started_at r <? le_lease_expires_at r)
  && match le_pcp_nonce r, le_upnp_description r with
     | Some _, None => bool_decide (le_source r = "pcp"%string)
     | None, None => bool_decide (le_source r = "natPmp"%string)
     | None, Some _ => bool_decide (le_source r = "upnp"%string)
     | _, _ => false
     end
  && Bool.eqb (is_current (le_state r)) (bool_decide (le_ended_at r = None))
  && negb (bool_decide (le_state r = LeaseActive) && bool_decide (is_Some (le_failure_code r)))
  && option_within (fun ended => le_lease_started_at r <=? ended) (le_ended_at r)
  && (le_created_at r <=? le_updated_at r).

(** ** The supervisor *)

Record MappingTarget : Type := mkMappingTarget { mt_revision : Z; mt_internal_port : Z }.
Record StoredMapping : Type := mkStored {
  sm_mapping_id : string;
  sm_applied_revision : Z;
  sm_material : DurableMapping;
  sm_lease_started_at : Z;
  sm_lease_expires_at : Z;
  sm_releasing : bool;
}.
Inductive ReleaseOutcome : Type := Released | Abandoned | RetryPending (code : MappingFailureCode).

(** The trait [MappingBackend]: what it answers to one call *)
Record MappingBackend : Type := mkBackend {
  mb_topology_matches : DurableMapping -> bool;
  mb_create : MappingRequest -> result MappingFailureCode CreatedMapping;
  mb_renew : DurableMapping -> result MappingFailureCode CreatedMapping;
  mb_release : DurableMapping -> result MappingFailureCode unit;
}.
(** What the outside answers to one call: whether SQLite works and what the other
    tables hold, the two clocks, the random identifiers, and the router *)
Record MappingAnswer : Type := mkMappingAnswer {
  mw_database : bool;
  mw_db : Db;
  mw_node_id : option string;
  mw_wall : Z;
  mw_instant : Z;
  mw_mapping_id : Uuid;
  mw_endpoint_id : Uuid;
  mw_backend : MappingBackend;
}.

(** The calls of the router that change something, for the theorems *)
Inductive BackendCall : Type :=
| CalledCreate (r : MappingRequest) (made : option CreatedMapping)
| CalledRenew (m : DurableMapping) (made : option CreatedMapping)
| CalledRelease (m : DurableMapping).

(** The tables and the supervisor *)
Record Mapper : Type := mkMapper {
  mp_policy : option RouterMappingPolicy;
  mp_leases : list LeaseRow;
  mp_consecutive_failures : Z;
  mp_next_attempt : option Z;
  mp_asked : nat;
  mp_calls : list BackendCall;
}.
Definition set_network_policy x m := mkMapper x (mp_leases m) (mp_consecutive_failures m) (mp_next_attempt m) (mp_asked m) (mp_calls m).
Definition set_leases x m := mkMapper (mp_policy m) x (mp_consecutive_failures m) (mp_next_attempt m) (mp_asked m) (mp_calls m).
Definition set_backoff f n m := mkMapper (mp_policy m) (mp_leases m) f n (mp_asked m) (mp_calls m).
Definition answered m := mkMapper (mp_policy m) (mp_leases m) (mp_consecutive_failures m) (mp_next_attempt m) (S (mp_asked m)) (mp_calls m).
Definition called c m := mkMapper (mp_policy m) (mp_leases m) (mp_consecutive_failures m) (mp_next_attempt m) (mp_asked m) (c :: mp_calls m).
Abbreviation Mapping A := (Tx Mapper HostError A).

(** [source_wire], [parse_source] *)
Definition source_wire (source : EndpointSource) : host_result string :=
  match source with
  | EsPcp => Ok "pcp"%string
  | EsNatPmp => Ok "natPmp"%string
  | EsUpnp => Ok "upnp"%string
  | EsManual | EsRelay => Err (Bail "router backend returned a non-mapping endpoint source")
  end.
Definition parse_source (value : string) : host_result EndpointSource :=
  if bool_decide (value = "pcp"%string) then Ok EsPcp
  else if bool_decide (value = "natPmp"%string) then Ok EsNatPmp
  else if bool_decide (value = "upnp"%string) then Ok EsUpnp
  else Err (Bail "stored router mapping source is invalid").

(** [load_policy] *)
Definition load_policy (m : Mapper) : host_result RouterMappingPolicy :=
  ok_or (mp_policy m) (Wrap "provider network policy is missing" Sqlite).

(** A blob that becomes an array *)
Definition array_of (size : Z) (message : string) (o : option (list byte)) : host_result (option (list byte)) :=
  match o with
  | Some value => _ ← ensure (zlen value =? size) (Bail message); Ok (Some value)
  | None => Ok None
  end.
Definition address_of (message : string) (s : string) : host_result IpAddr := ok_or (parse_ip (as_bytes s)) (Wrap message System).

(** [i64::checked_sub] *)
Definition i64_checked_sub (a b : Z) : option Z :=
  if (i64_min <=? a - b) && (a - b <=? i64_max) then Some (a - b) else None.

(** [load_current_mapping] *)
Definition stored_mapping (row : LeaseRow) : host_result StoredMapping :=
  lifetime_seconds ← present_or "stored router mapping lifetime is invalid"
    (difference ← i64_checked_sub (le_lease_expires_at row) (le_lease_started_at row);
     value ← try_from u32_max difference;
     if 0 <? value then Some value else None);
  pcp_nonce ← array_of 12 "stored PCP nonce is invalid" (le_pcp_nonce row);
  topology_fingerprint ← array_of 32 "stored router topology fingerprint is invalid" (le_topology_fingerprint row);
  applied_revision ← map_err (fun _ => Wrap "stored router mapping revision is invalid" System)
                       (positive_new (le_applied_revision row));
  source ← parse_source (le_source row);
  gateway_address ← address_of "stored router gateway address is invalid" (le_gateway_address row);
  internal_address ← address_of "stored router internal address is invalid" (le_internal_address row);
  internal_port ← ok_or (try_from u16_max (le_internal_port row)) (Wrap "stored router internal port is invalid" System);
  external_address ← address_of "stored router external address is invalid" (le_external_address row);
  external_port ← ok_or (try_from u16_max (le_external_port row)) (Wrap "stored router external port is invalid" System);
  gateway_epoch ← match le_gateway_epoch row with
                  | Some value => v ← ok_or (try_from u32_max value) (Wrap "stored gateway epoch is invalid" System); Ok (Some v)
                  | None => Ok None
                  end;
  Ok (mkStored (le_mapping_id row) applied_revision
        (mkDurable source gateway_address internal_address internal_port external_address external_port pcp_nonce
           (le_upnp_description row) gateway_epoch lifetime_seconds topology_fingerprint)
        (le_lease_started_at row) (le_lease_expires_at row) (bool_decide (le_state row = LeaseReleasing))).
Definition current_rows (m : Mapper) : list LeaseRow := List.filter (fun row => is_current (le_state row)) (mp_leases m).
Definition load_current_mapping (m : Mapper) : host_result (option StoredMapping) :=
  match head (current_rows m) with
  | None => Ok None
  | Some row => stored ← stored_mapping row; Ok (Some stored)
  end.

(** [renewal_is_due] *)
Definition renewal_is_due (mapping : StoredMapping) (now : Z) : host_result bool :=
  lifetime ← present_or "stored router mapping lifetime is invalid"
    (value ← i64_checked_sub (sm_lease_expires_at mapping) (sm_lease_started_at mapping);
     if 0 <? value then Some value else None);
  renewal_at ← present_or "stored router mapping renewal time overflowed"
    (checked_add i64_max (sm_lease_started_at mapping) (lifetime / 2));
  Ok (renewal_at <=? now).

(** [renewal_failure_invalidates_candidate] *)
Definition renewal_failure_invalidates_candidate (code : MappingFailureCode) : bool :=
  match code with Timeout | ProtocolUnavailable | Unauthorized => false | _ => true end.

Section Supervisor.
Context `{Ids : UuidText} (env : nat -> MappingAnswer).

Definition ask_mapping : Mapping MappingAnswer := fun m => (Ok (env (mp_asked m)), answered m).
(** [unix_timestamp], [Instant::now] *)
Definition wall_clock : Mapping Z := a ← ask_mapping; tx_lift (unix_seconds (mw_wall a)).
Definition monotonic_clock : Mapping Z := a ← ask_mapping; mret (mw_instant a).
(** [open_database], then [unix_timestamp] *)
Definition open_now : Mapping Z :=
  a ← ask_mapping;
  _ ← tx_lift (ensure (mw_database a) Sqlite);
  tx_lift (unix_seconds (mw_wall a)).

(** [UPDATE provider_network_policy ... WHERE singleton = 1] *)
Definition update_policy (f : RouterMappingPolicy -> RouterMappingPolicy) (m : Mapper) : host_result Mapper :=
  match mp_policy m with
  | None => Err (Bail "provider network policy is missing")
  | Some policy =>
      let policy := f policy in
      _ ← ensure (negb (np_enabled policy) || bool_decide (is_Some (np_consented_at policy))) Sqlite;
      _ ← ensure (option_within (text_within 1 64) (np_last_error_code policy)) Sqlite;
      Ok (set_network_policy (Some policy) m)
  end.
(** [UPDATE router_mapping_leases ... WHERE mapping_id = ... AND ...], which has to
    change one row *)
Definition update_lease (missing : string) (mapping_id : string) (selects : LeaseState -> bool)
    (f : LeaseRow -> LeaseRow) (m : Mapper) : host_result Mapper :=
  let chosen row := bool_decide (le_mapping_id row = mapping_id) && selects (le_state row) in
  _ ← ensure (forallb (fun row => negb (chosen row) || lease_row_ok (f row)) (mp_leases m)) Sqlite;
  _ ← ensure (zlen (List.filter chosen (mp_leases m)) =? 1) (Bail missing);
  Ok (set_leases ((fun row => if chosen row then f row else row) <$> mp_leases m) m).

(** [configure_bootstrap_policy] *)
Definition configure_bootstrap_policy (enabled : bool) : Mapping unit :=
  now ← open_now;
  tx_execute (update_policy (fun policy =>
    mkNetworkPolicy enabled
      (if enabled then Some (default now (np_consented_at policy)) else np_consented_at policy) None None)).

(** [record_attempt_started], [persist_mapping_error] *)
Definition record_attempt_started : Mapping unit :=
  now ← open_now;
  tx_execute (update_policy (fun policy =>
    mkNetworkPolicy (np_enabled policy) (np_consented_at policy) (np_last_error_code policy) (Some now))).
Definition persist_mapping_error (error_code : string) : Mapping unit :=
  now ← open_now;
  tx_execute (update_policy (fun policy =>
    mkNetworkPolicy (np_enabled policy) (np_consented_at policy) (Some error_code) (Some now))).

(** [mark_releasing], [finish_release], [abandon_without_release], [record_release_failure] *)
Definition mark_releasing (mapping_id : string) : Mapping unit :=
  now ← open_now;
  tx_execute (update_lease "current router mapping is missing" mapping_id is_current
    (fun row => with_state LeaseReleasing None (le_ended_at row) now row)).
Definition is_releasing (state : LeaseState) : bool := bool_decide (state = LeaseReleasing).
Definition finish_release (mapping_id : string) (terminal_state : LeaseState) (error_code : option string) : Mapping unit :=
  _ ← tx_lift (ensure (match terminal_state with LeaseReleased | LeaseAbandoned => true | _ => false end)
        (Bail "invalid terminal router mapping state"));
  now ← open_now;
  _ ← tx_execute (update_lease "releasing router mapping is missing" mapping_id is_releasing
        (with_state terminal_state error_code (Some now) now));
  tx_execute (fun m =>
    match mp_policy m with
    | None => Ok m
    | Some _ => update_policy (fun policy =>
        mkNetworkPolicy (np_enabled policy) (np_consented_at policy) None (np_last_attempt_at policy)) m
    end).
Definition abandon_without_release (mapping_id error_code : string) : Mapping unit :=
  now ← open_now;
  tx_execute (update_lease "router mapping changed before it could be withdrawn" mapping_id is_current
    (with_state LeaseAbandoned (Some error_code) (Some now) now)).
Definition record_release_failure (mapping_id error_code : string) : Mapping unit :=
  now ← open_now;
  tx_execute (update_lease "releasing router mapping is missing" mapping_id is_releasing
    (fun row => with_state (le_state row) (Some error_code) (le_ended_at row) now row)).

(** [INSERT INTO router_mapping_leases] with its keys and its unique index *)
Definition insert_lease (db : Db) (row : LeaseRow) (m : Mapper) : host_result Mapper :=
  _ ← ensure (lease_row_ok row) Sqlite;
  _ ← ensure (bool_decide (is_Some (rendered db !! le_applied_revision row))) Sqlite;
  _ ← ensure (bool_decide (le_mapping_id row ∉ (le_mapping_id <$> mp_leases m))) Sqlite;
  _ ← ensure (bool_decide (le_endpoint_id row ∉ (le_endpoint_id <$> mp_leases m))) Sqlite;
  _ ← ensure (negb (is_current (le_state row)) || bool_decide (current_rows m = [])) Sqlite;
  Ok (set_leases (mp_leases m ++ [row]) m).

(** [persist_mapping] *)
Definition lease_of (target : MappingTarget) (created : CreatedMapping) (source mapping_id endpoint_id : string)
    (now expires_at : Z) : LeaseRow :=
  mkLease mapping_id endpoint_id (mt_revision target) source (ip_to_string (cm_gateway_address created))
    (ip_to_string (cm_internal_address created)) (cm_internal_port created) (ip_to_string (cm_external_address created))
    (cm_external_port created) (cm_pcp_nonce created) (cm_upnp_description created) (cm_gateway_epoch created)
    (Some (cm_topology_fingerprint created)) now expires_at LeaseActive None None now now.
Definition persist_mapping (target : MappingTarget) (created : CreatedMapping) (predecessor : option string) : Mapping unit :=
  _ ← tx_lift (ensure (negb ((cm_lifetime_seconds created =? 0) || (24 * 60 * 60 <? cm_lifetime_seconds created)))
        (Bail "router returned an invalid finite mapping lifetime"));
  _ ← tx_lift (ensure (cm_internal_port created =? mt_internal_port target)
        (Bail "router returned a mapping for the wrong internal port"));
  now ← wall_clock;
  expires_at ← tx_lift (present_or "router mapping expiry overflowed" (checked_add i64_max now (cm_lifetime_seconds created)));
  a ← ask_mapping;
  transaction Sqlite (mw_database a)
    (_ ← match predecessor with
         | Some predecessor =>
             tx_execute (update_lease "router mapping changed while its renewal was committing" predecessor
               (fun state => bool_decide (state = LeaseActive)) (with_state LeaseReleased None (Some now) now))
         | None => mret tt
         end;
     source ← tx_lift (source_wire (cm_source created));
     _ ← tx_execute (insert_lease (mw_db a) (lease_of target created source (uuid_to_string (mw_mapping_id a))
           (uuid_to_string (mw_endpoint_id a)) now expires_at));
     tx_execute (fun m =>
       match mp_policy m with
       | None => Ok m
       | Some _ => update_policy (fun policy =>
           mkNetworkPolicy (np_enabled policy) (np_consented_at policy) None (Some now)) m
       end)).

(** [load_supervision_state] *)
Definition load_supervision_state : Mapping (RouterMappingPolicy * option StoredMapping * option Uuid) :=
  a ← ask_mapping;
  _ ← tx_lift (ensure (mw_database a) Sqlite);
  policy ← tx_query load_policy;
  current ← tx_query load_current_mapping;
  node_id ← tx_lift (match mw_node_id a with
                     | None => Ok None
                     | Some value =>
                         id ← map_err (fun _ => Wrap "stored enrolled node identity is invalid" System) (id_from_str value);
                         Ok (Some id)
                     end);
  mret (policy, current, node_id).

(** [reset_backoff], [attempt_is_due], [record_failure] *)
Definition reset_backoff : Mapping unit := tx_write (set_backoff 0 None).
Definition attempt_is_due (policy : RouterMappingPolicy) (now : Z) : Mapping bool :=
  next_attempt ← tx_read mp_next_attempt;
  waiting ← match next_attempt with
            | Some deadline => instant ← monotonic_clock; mret (instant <? deadline)
            | None => mret false
            end;
  mret (negb waiting
        && (bool_decide (np_last_error_code policy = None)
            || match np_last_attempt_at policy with
               | None => true
               | Some last => 30 <=? Z.max i64_min (Z.min i64_max (now - last))
               end)).
Definition retry_delay (consecutive_failures : Z) : Z :=
  let shift := Z.min 10 (Z.max 0 (consecutive_failures - 1)) in
  Z.min (MIN_RETRY_DELAY * 2 ^ shift) MAX_RETRY_DELAY.
Definition record_failure (code : MappingFailureCode) : Mapping unit :=
  _ ← persist_mapping_error (failure_as_str code);
  failures ← tx_read mp_consecutive_failures;
  let failures := saturating_add u32_max failures 1 in
  _ ← tx_write (fun m => set_backoff failures (mp_next_attempt m) m);
  now ← monotonic_clock;
  tx_write (set_backoff failures (Some (now + retry_delay failures))).

(** [release_current] *)
Definition release_current (current : StoredMapping) : Mapping ReleaseOutcome :=
  _ ← mark_releasing (sm_mapping_id current);
  _ ← record_attempt_started;
  a ← ask_mapping;
  _ ← tx_write (called (CalledRelease (sm_material current)));
  match mb_release (mw_backend a) (sm_material current) with
  | Ok _ =>
      _ ← finish_release (sm_mapping_id current) LeaseReleased None;
      _ ← reset_backoff;
      mret Released
  | Err code =>
      now ← wall_clock;
      if (sm_lease_expires_at current <=? now) || bool_decide (code = TopologyChanged) then
        _ ← finish_release (sm_mapping_id current) LeaseAbandoned (Some (failure_as_str code));
        _ ← reset_backoff;
        mret Abandoned
      else
        _ ← record_release_failure (sm_mapping_id current) (failure_as_str code);
        _ ← record_failure code;
        mret (RetryPending code)
  end.

(** [MappingSupervisor::reconcile]: a mapping on a network that is no longer there *)
Definition drop_foreign (current : option StoredMapping) : Mapping (option StoredMapping) :=
  match current with
  | None => mret None
  | Some mapping =>
      a ← ask_mapping;
      if mb_topology_matches (mw_backend a) (sm_material mapping) then mret current
      else
        _ ← abandon_without_release (sm_mapping_id mapping) (failure_as_str TopologyChanged);
        _ ← reset_backoff;
        mret None
  end.
(** One that has to go; [None] when the cycle ends here *)
Definition fits (target : option MappingTarget) (mapping : StoredMapping) : bool :=
  match target with
  | Some target => (mt_revision target =? sm_applied_revision mapping)
                   && (mt_internal_port target =? dm_internal_port (sm_material mapping))
  | None => false
  end.
Definition drop_unwanted (policy : RouterMappingPolicy) (target : option MappingTarget) (current : option StoredMapping)
    : Mapping (option (option StoredMapping)) :=
  match current with
  | None => mret (Some None)
  | Some mapping =>
      must_release ←
        (if sm_releasing mapping || negb (np_enabled policy) || negb (fits target mapping) then mret true
         else now ← wall_clock; mret (sm_lease_expires_at mapping <=? now));
      if negb must_release then mret (Some current)
      else
        wait ← (if sm_releasing mapping then now ← wall_clock; due ← attempt_is_due policy now; mret (negb due)
                else mret false);
        if wait : bool then mret None
        else
          outcome ← release_current mapping;
          mret (match outcome with RetryPending _ => None | _ => Some None end)
  end.
(** Renewing the mapping there is *)
Definition renew_current (target : MappingTarget) (current : StoredMapping) : Mapping unit :=
  now ← wall_clock;
  due ← tx_lift (renewal_is_due current now);
  if negb due then mret tt
  else
    _ ← record_attempt_started;
    a ← ask_mapping;
    let renewed := mb_renew (mw_backend a) (sm_material current) in
    _ ← tx_write (called (CalledRenew (sm_material current) (match renewed with Ok made => Some made | Err _ => None end)));
    match renewed with
    | Ok created =>
        persisted ← attempt_tx (persist_mapping target created (Some (sm_mapping_id current)));
        match persisted with
        | Err error =>
            _ ← mark_releasing (sm_mapping_id current);
            tx_lift (Err (Wrap "renewed router mapping could not be committed and was withdrawn" error))
        | Ok _ => reset_backoff
        end
    | Err code =>
        if renewal_failure_invalidates_candidate code then
          _ ← abandon_without_release (sm_mapping_id current) (failure_as_str code);
          reset_backoff
        else record_failure code
    end.
(** Asking for a new one *)
Definition create_mapping (target : MappingTarget) (node_id : option Uuid) : Mapping unit :=
  node_id ← tx_lift (present_or "enrolled node identity is missing" node_id);
  _ ← record_attempt_started;
  a ← ask_mapping;
  let request := mkRequest node_id (mt_revision target) (mt_internal_port target) in
  let made := mb_create (mw_backend a) request in
  _ ← tx_write (called (CalledCreate request (match made with Ok made => Some made | Err _ => None end)));
  match made with
  | Ok created =>
      persisted ← attempt_tx (persist_mapping target created None);
      match persisted with
      | Err error =>
          a ← ask_mapping;
          let material := durable_from created in
          _ ← tx_write (called (CalledRelease material));
          tx_lift (Err (Wrap "new router mapping could not be committed" error))
      | Ok _ => reset_backoff
      end
  | Err code => record_failure code
  end.
Definition reconcile (target : option MappingTarget) : Mapping unit :=
  loaded ← load_supervision_state;
  let '(policy, current, node_id) := loaded in
  current ← drop_foreign current;
  kept ← drop_unwanted policy target current;
  match kept with
  | None => mret tt
  | Some current =>
      match (if np_enabled policy then target else None) with
      | None => reset_backoff
      | Some target =>
          if bool_decide (current = None) && bool_decide (np_last_error_code policy = Some (failure_as_str ReleaseFailed))
          then mret tt
          else
            now ← wall_clock;
            due ← attempt_is_due policy now;
            if negb due then mret tt
            else match current with
                 | Some current => renew_current target current
                 | None => create_mapping target node_id
                 end
      end
  end.

(** [MappingSupervisor::shutdown] *)
Definition shutdown : Mapping unit :=
  loaded ← load_supervision_state;
  let '(_, current, _) := loaded in
  match current with
  | None => mret tt
  | Some mapping =>
      a ← ask_mapping;
      if negb (mb_topology_matches (mw_backend a) (sm_material mapping)) then
        abandon_without_release (sm_mapping_id mapping) (failure_as_str TopologyChanged)
      else
        outcome ← release_current mapping;
        match outcome with
        | RetryPending code => tx_lift (Err (Bail (String.append "router mapping shutdown failed: " (failure_as_str code))))
        | _ => mret tt
        end
  end.
End Supervisor.

(** ** Reading for others *)

Inductive RouterMappingState : Type := MapDisabled | MapWaiting | MapActive | MapExpired | MapReleasing | MapFailed.
Record RouterMappingStatus : Type := mkMappingStatus {
  ms_enabled : bool;
  ms_state : RouterMappingState;
  ms_source : option EndpointSource;
  ms_external_address : option string;
  ms_external_port : option Z;
  ms_lease_expires_at : option OffsetDateTime;
  ms_last_error_code : option string;
}.
(** [empty_status] *)
Definition empty_status (enabled : bool) (state : RouterMappingState) : RouterMappingStatus :=
  mkMappingStatus enabled state None None None None None.

(** [ORDER BY CASE WHEN state IN ('active', 'releasing') THEN 0 ELSE 1 END, created_at DESC, mapping_id DESC] *)
Definition row_before (a b : LeaseRow) : bool :=
  match is_current (le_state a), is_current (le_state b) with
  | true, false => true
  | false, true => false
  | _, _ => (le_created_at b <? le_created_at a)
            || ((le_created_at a =? le_created_at b) && string_lt (le_mapping_id b) (le_mapping_id a))
  end.
Definition first_row (rows : list LeaseRow) : option LeaseRow :=
  foldl (fun best row => match best with
                         | Some first => Some (if row_before row first then row else first)
                         | None => Some row
                         end) None rows.

(** [load_status] *)
Definition load_status (o : Outside) (m : Mapper) : host_result RouterMappingStatus :=
  policy ← load_policy m;
  if negb (np_enabled policy) then Ok (empty_status false MapDisabled)
  else
    let failed := bool_decide (is_Some (np_last_error_code policy)) in
    match first_row (mp_leases m) with
    | None =>
        Ok (mkMappingStatus true (if failed then MapFailed else MapWaiting) None None None None (np_last_error_code policy))
    | Some row =>
        now ← unix_seconds (ot_wall o);
        let lifecycle :=
          match le_state row with
          | LeaseActive => if now <? le_lease_expires_at row then MapActive else MapExpired
          | LeaseReleasing => MapReleasing
          | LeaseFailed | LeaseAbandoned => MapFailed
          | LeaseReleased => if failed then MapFailed else MapWaiting
          end in
        let last_error := match np_last_error_code policy with Some code => Some code | None => le_failure_code row end in
        match lifecycle with
        | MapActive | MapReleasing =>
            source ← parse_source (le_source row);
            port ← ok_or (try_from u16_max (le_external_port row)) (Wrap "stored external port is invalid" System);
            expires_at ← timestamp_from_unix (le_lease_expires_at row);
            Ok (mkMappingStatus true lifecycle (Some source) (Some (le_external_address row)) (Some port) (Some expires_at)
                  last_error)
        | _ => Ok (mkMappingStatus true lifecycle None None None None last_error)
        end
    end.

(** [load_heartbeat_candidates] *)
Definition candidate_of_lease `{UuidText} (row : LeaseRow) : host_result EndpointCandidate :=
  endpoint_id ← map_err (fun _ => Wrap "stored router endpoint identity is invalid" System) (id_from_str (le_endpoint_id row));
  source ← parse_source (le_source row);
  port ← ok_or (try_from u16_max (le_external_port row)) (Wrap "stored router external port is invalid" System);
  revision ← map_err (fun _ => Wrap "stored router mapping revision is invalid" System) (positive_new (le_applied_revision row));
  observed_at ← context "stored router mapping observation time is invalid" (timestamp_from_unix (le_lease_started_at row));
  expires_at ← context "stored router mapping expiry is invalid" (timestamp_from_unix (le_lease_expires_at row));
  Ok (ProtoNode.mkCandidate endpoint_id EmDirect source (le_external_address row) port revision observed_at (Some expires_at)).
Definition endpoint_order (a b : LeaseRow) : Prop := string_lt (le_endpoint_id b) (le_endpoint_id a) = false.
#[export] Instance endpoint_order_dec : RelDecision endpoint_order.
Proof. unfold endpoint_order. solve_decision. Defined.
Fixpoint try_map {E A B} (f : A -> result E B) (l : list A) : result E (list B) :=
  match l with
  | [] => Ok []
  | a :: l => b ← f a; bs ← try_map f l; Ok (b :: bs)
  end.
Section Candidates.
Context `{Cal : Calendar} `{Day : DayFields} `{Json : PolicyJson} `{Ids : UuidText}.
Definition load_heartbeat_candidates (db : Db) (tables : option Provider) (o : Outside) (m : Mapper)
    (applied_revision : option Z) : host_result (list EndpointCandidate) :=
  match applied_revision with
  | None => Ok []
  | Some applied_revision =>
      manual ← load_manual_candidate db tables o applied_revision;
      let candidates := match manual with Some c => [c] | None => [] end in
      policy ← load_policy m;
      if negb (np_enabled policy) then Ok candidates
      else
        now ← unix_seconds (ot_wall o);
        let rows := merge_sort endpoint_order (List.filter (fun row =>
          bool_decide (le_state row = LeaseActive) && (le_applied_revision row =? applied_revision)
          && (now <? le_lease_expires_at row)) (mp_leases m)) in
        mapped ← try_map candidate_of_lease rows;
        Ok (candidates ++ mapped)
  end.
End Candidates.
