(* ===== verification/RouterMappingFacts.v ===== *)
(** * Facts on the router mapping

    What the supervisor relies on ([BackendLaws]), the lifecycle of a lease as a
    step relation on the table, and that every operation is a sequence of such
    steps that keeps the invariant [mapper_ok], whatever the outside answers. *)
From S2P Require Import Prelude Text Clock ProtoTypes ProtoAuth ProtoTranscript ProtoNode ProtoTelemetry NodeHostDb NodeHostRuntime.
From S2P Require Import Transaction NodePolicy NodeTelemetryFacts RouterProtocol RouterMapping.
Open Scope Z_scope.

(** ** Two rules *)

Lemma after_any {S E A} (m : Tx S E A) s (Q : result E A -> S -> Prop) : (forall r s', Q r s') -> after m s Q.
Proof. intros H. apply H. Qed.
Lemma after_both {S E A} (m : Tx S E A) s (P Q : result E A -> S -> Prop) :
  after m s P -> after m s Q -> after m s (fun r s' => P r s' /\ Q r s').
Proof. done. Qed.

(** ** The interface *)

(** A mapping that may be published *)
Record made_ok (c : CreatedMapping) : Prop := {
  mo_lifetime : valid_finite_lifetime (cm_lifetime_seconds c) = true;
  mo_address : is_publishable_external_address (cm_external_address c) = true;
}.
Class BackendLaws (b : MappingBackend) : Prop := {
  create_made r c : mb_create b r = Ok c -> made_ok c;
  renew_made m c : mb_renew b m = Ok c -> made_ok c;
}.

(** ** The table *)

(** The states a lease may move to *)
Definition state_moves (a b : LeaseState) : Prop :=
  match a, b with
  | LeaseActive, (LeaseReleasing | LeaseReleased | LeaseAbandoned) => True
  | LeaseReleasing, (LeaseReleasing | LeaseReleased | LeaseAbandoned) => True
  | _, _ => False
  end.
(** Everything but state, failure and times stays. *)
Definition lease_step (row row' : LeaseRow) : Prop :=
  state_moves (le_state row) (le_state row') /\ exists code ended now, row' = with_state (le_state row') code ended now row.
Inductive table_step : list LeaseRow -> list LeaseRow -> Prop :=
| table_change l1 row row' l2 : lease_step row row' -> table_step (l1 ++ row :: l2) (l1 ++ row' :: l2)
| table_insert l row :
    Forall (fun r => is_current (le_state r) = false) l -> le_state row = LeaseActive -> table_step l (l ++ [row]).

(** Mappings the router was asked for and gave *)
Definition made (calls : list BackendCall) : list CreatedMapping :=
  omap (fun call => match call with CalledCreate _ c | CalledRenew _ c => c | CalledRelease _ => None end) calls.
(** The stored row of a mapping, and what proves that it is this node's *)
Definition row_of (c : CreatedMapping) (row : LeaseRow) : Prop :=
  source_wire (cm_source c) = Ok (le_source row) /\ le_internal_port row = cm_internal_port c /\
  le_external_address row = ip_to_string (cm_external_address c) /\ le_external_port row = cm_external_port c /\
  le_pcp_nonce row = cm_pcp_nonce c /\ le_upnp_description row = cm_upnp_description c /\
  le_gateway_epoch row = cm_gateway_epoch c /\ le_topology_fingerprint row = Some (cm_topology_fingerprint c) /\
  le_lease_expires_at row - le_lease_started_at row = cm_lifetime_seconds c.
Definition owned (c : CreatedMapping) (d : DurableMapping) : Prop :=
  dm_source d = cm_source c /\ dm_internal_port d = cm_internal_port c /\ dm_external_port d = cm_external_port c /\
  dm_pcp_nonce d = cm_pcp_nonce c /\ dm_upnp_description d = cm_upnp_description c /\
  dm_topology_fingerprint d = Some (cm_topology_fingerprint c).
Definition ours (calls : list BackendCall) (d : DurableMapping) : Prop := exists c, c ∈ made calls /\ owned c d.
(** Only what was made before is renewed or released. *)
Fixpoint calls_ok (calls : list BackendCall) : Prop :=
  match calls with
  | [] => True
  | CalledCreate _ _ :: earlier => calls_ok earlier
  | (CalledRenew d _ | CalledRelease d) :: earlier => ours earlier d /\ calls_ok earlier
  end.

Record mapper_ok (m : Mapper) : Prop := {
  mk_rows row : row ∈ mp_leases m -> lease_row_ok row = true /\
    exists c, c ∈ made (mp_calls m) /\ made_ok c /\ row_of c row;
  mk_one : (length (current_rows m) <= 1)%nat;
  mk_calls : calls_ok (mp_calls m);
  mk_consent policy : mp_policy m = Some policy -> np_enabled policy = true -> is_Some (np_consented_at policy);
}.

(** What any part of an operation does *)
Record moved (m m' : Mapper) : Prop := {
  mv_ok : mapper_ok m -> mapper_ok m';
  mv_table : rtc table_step (mp_leases m) (mp_leases m');
  mv_calls : exists new, mp_calls m' = new ++ mp_calls m;
}.
#[export] Instance moved_preorder : PreOrder moved.
Proof.
  split.
  - intros m. split; [done|apply rtc_refl|by exists []].
  - intros a b c [A1 A2 [n1 A3]] [B1 B2 [n2 B3]]. split; [auto|by etrans|].
    exists (n2 ++ n1). by rewrite B3, A3, app_assoc.
Qed.

Lemma made_app l k : made (l ++ k) = made l ++ made k.
Proof. unfold made. apply omap_app. Qed.
Lemma ours_moved m m' d : moved m m' -> ours (mp_calls m) d -> ours (mp_calls m') d.
Proof.
  intros [_ _ [new ->]] (c & Hc & Ho). exists c. split; [|done]. rewrite made_app. apply elem_of_app. by right.
Qed.

(** ** One statement *)

Lemma filter_one {A} (f : A -> bool) l : zlen (List.filter f l) = 1 ->
  exists l1 a l2, l = l1 ++ a :: l2 /\ f a = true /\ List.filter f l1 = [] /\ List.filter f l2 = [].
Proof.
  induction l as [|a l IH]; [done|]. cbn. destruct (f a) eqn:Ef.
  - intros H. exists [], a, l. split_and!; try done.
    destruct (List.filter f l); [done|]. unfold zlen in H. cbn in H. lia.
  - intros (l1 & x & l2 & -> & ? & ? & ?)%IH. exists (a :: l1), x, l2. split_and!; try done. cbn. by rewrite Ef.
Qed.
Lemma fmap_untouched {A} (f : A -> bool) (g : A -> A) l :
  List.filter f l = [] -> (fun a => if f a then g a else a) <$> l = l.
Proof. induction l as [|a l IH]; [done|]. cbn. destruct (f a); [done|]. intros H. f_equal. by apply IH. Qed.

Lemma update_lease_Ok missing id selects f m m' :
  update_lease missing id selects f m = Ok m' ->
  exists l1 row l2, mp_leases m = l1 ++ row :: l2 /\ le_mapping_id row = id /\ selects (le_state row) = true /\
    lease_row_ok (f row) = true /\ m' = set_leases (l1 ++ f row :: l2) m.
Proof.
  unfold update_lease. set (chosen := fun row : LeaseRow => bool_decide _ && _). intros H. inv_ok. apply Z.eqb_eq in H0.
  destruct (filter_one _ _ H0) as (l1 & row & l2 & E & Hc & H1 & H2). exists l1, row, l2.
  rewrite E in *. pose proof Hc as Hc'. unfold chosen in Hc'. apply andb_true_iff in Hc' as [Hid%bool_decide_eq_true Hs].
  split_and!; try done.
  - rewrite forallb_forall in H. specialize (H row ltac:(rewrite <- list_elem_of_In; apply elem_of_app; right; left)).
    change (negb (chosen row) || lease_row_ok (f row) = true) in H. by rewrite Hc in H.
  - f_equal. rewrite fmap_app, fmap_cons, (fmap_untouched _ _ _ H1), (fmap_untouched _ _ _ H2).
    by rewrite (bool_decide_eq_true_2 _ Hid), Hs.
Qed.

Lemma current_app l k : List.filter (fun row => is_current (le_state row)) (l ++ k)
  = List.filter (fun row => is_current (le_state row)) l ++ List.filter (fun row => is_current (le_state row)) k.
Proof. apply List.filter_app. Qed.
Lemma row_of_state c row state code ended now : row_of c row -> row_of c (with_state state code ended now row).
Proof. done. Qed.

(** A change of one row along its lifecycle *)
Lemma moved_change m l1 row row' l2 :
  mp_leases m = l1 ++ row :: l2 -> lease_step row row' -> lease_row_ok row' = true ->
  moved m (set_leases (l1 ++ row' :: l2) m).
Proof.
  intros El Hs Hok. split; [|rewrite El; by apply rtc_once, table_change|by exists []].
  intros [Hr Ho Hc Hn]. split; try done.
  - intros x [Hx|Hx]%elem_of_app.
    + apply Hr. rewrite El. apply elem_of_app. by left.
    + apply elem_of_cons in Hx as [->|Hx]; [|apply Hr; rewrite El; apply elem_of_app; right; by right].
      split; [done|]. destruct (Hr row) as (_ & c & ? & ? & ?); [rewrite El; apply elem_of_app; right; left|].
      exists c. destruct Hs as [_ (code & ended & now & ->)]. by split_and!; [..|apply row_of_state].
  - unfold current_rows in *. cbn. rewrite El, current_app in Ho. rewrite current_app. cbn in *.
    destruct Hs as [Hs _]. rewrite length_app in *.
    destruct (le_state row), (le_state row'); cbn in *; lia || done.
Qed.
Lemma moved_policy m policy :
  (np_enabled policy = true -> is_Some (np_consented_at policy)) -> moved m (set_network_policy (Some policy) m).
Proof.
  intros Hp. split; [|apply rtc_refl|by exists []]. intros [? ? ? ?]. split; try done.
  intros p' [= <-]. done.
Qed.
Lemma update_policy_moved f m m' : update_policy f m = Ok m' -> moved m m'.
Proof.
  unfold update_policy. destruct (mp_policy m) as [policy|]; [|done]. intros H. inv_ok.
  apply moved_policy. intros He. rewrite He in H. by apply bool_decide_eq_true in H.
Qed.
Lemma update_lease_moved missing id selects f m m' :
  (forall row, selects (le_state row) = true -> lease_step row (f row)) ->
  update_lease missing id selects f m = Ok m' -> moved m m'.
Proof. intros Hf (l1 & row & l2 & El & _ & Hs & Hok & ->)%update_lease_Ok. eapply moved_change; eauto. Qed.

(** ** Operations *)

(** A relation that every statement but the insertion of a lease keeps to *)
Class Kept (R : relation Mapper) : Prop := {
  kept_preorder :: PreOrder R;
  kept_answered m : R m (answered m);
  kept_policy f m m' : update_policy f m = Ok m' -> R m m';
  kept_backoff f n m : R m (set_backoff f n m);
  kept_lease missing id selects f m m' :
    (forall row, selects (le_state row) = true -> lease_step row (f row)) ->
    update_lease missing id selects f m = Ok m' -> R m m';
}.
#[export] Instance moved_kept : Kept moved.
Proof.
  split; [apply _|..].
  - intros m. split; [|apply rtc_refl|by exists []]. by intros [? ? ? ?].
  - intros f m m'. apply update_policy_moved.
  - intros f n m. split; [|apply rtc_refl|by exists []]. by intros [? ? ? ?].
  - intros missing id selects f m m'. apply update_lease_moved.
Qed.
(** No lease is active: what is left of one is being released or over. *)
Definition inactive (m : Mapper) : Prop := Forall (fun row => le_state row <> LeaseActive) (mp_leases m).
Definition stays_inactive (m m' : Mapper) : Prop := inactive m -> inactive m'.
#[export] Instance stays_inactive_kept : Kept stays_inactive.
Proof.
  split.
  - split; [intros m H; exact H|]. intros a b c H1 H2 H. exact (H2 (H1 H)).
  - intros m H. exact H.
  - intros f m m'. unfold update_policy. destruct (mp_policy m); [|done]. intros H. inv_ok. intros Hm. exact Hm.
  - intros f n m H. exact H.
  - intros missing id selects f m m' Hf (l1 & row & l2 & El & _ & Hs & _ & ->)%update_lease_Ok. unfold stays_inactive, inactive.
    cbn [mp_leases set_leases]. rewrite El, !Forall_app, !Forall_cons. intros (H1 & H2 & H3). split; [done|]. split; [|done]. destruct (Hf row Hs) as [Hm _].
    intros E. rewrite E in Hm. by destruct (le_state row).
Qed.

(** From any state with [P], whatever happens, what is left was reached by [R]. *)
Definition moving (R : relation Mapper) {A} (P : Mapper -> Prop) (op : Mapping A) : Prop :=
  forall m, P m -> after op m (fun _ m' => R m m').
Class Stable (R : relation Mapper) (P : Mapper -> Prop) : Prop := stable m m' : R m m' -> P m -> P m'.
Definition anywhere : Mapper -> Prop := fun _ => True.
#[export] Instance anywhere_stable R : Stable R anywhere.
Proof. done. Qed.
Definition holding (d : DurableMapping) : Mapper -> Prop := fun m => ours (mp_calls m) d.
#[export] Instance holding_stable d : Stable moved (holding d).
Proof. intros m m'. apply ours_moved. Qed.

Create HintDb moving.
#[export] Hint Resolve moved_kept stays_inactive_kept : moving.
Section Moving.
Context {R : relation Mapper} `{!Kept R} {P : Mapper -> Prop} `{!Stable R P}.

Lemma moving_bind {A B} (op : Mapping A) (f : A -> Mapping B) :
  moving R P op -> (forall a, moving R P (f a)) -> moving R P (op ≫= f).
Proof.
  intros H1 H2 m Hm. apply after_bind. eapply after_mono; [by apply H1|]. intros [a|e] m' Hm'; [|done].
  eapply after_mono; [apply H2; by eapply (stable (R:=R))|]. intros r m'' Hm''. by etrans.
Qed.
Lemma moving_pure {A} (op : Mapping A) : (forall m, (op m).2 = m) -> moving R P op.
Proof. intros H m _. unfold after. rewrite H. reflexivity. Qed.
Lemma moving_write f : (forall m, P m -> R m (f m)) -> moving R P (tx_write f).
Proof. intros H m Hm. by apply H. Qed.
Lemma moving_execute f : (forall m m', P m -> f m = Ok m' -> R m m') -> moving R P (tx_execute f).
Proof. intros H m Hm. apply after_execute; [eauto|]. intros e _. reflexivity. Qed.
Lemma moving_attempt {F A} (op : Tx Mapper F A) :
  (forall m, P m -> after op m (fun _ m' => R m m')) -> moving R P (attempt_tx op).
Proof. intros H m Hm. apply after_attempt. by apply H. Qed.
Lemma moving_transaction {A} broken working (op : Mapping A) : moving R P op -> moving R P (transaction broken working op).
Proof.
  intros H m Hm. apply after_transaction; [intros; reflexivity|]. intros a m' E.
  specialize (H m Hm). unfold after in H. by rewrite E in H.
Qed.
Lemma moving_if {A} (b : bool) (x y : Mapping A) : moving R P x -> moving R P y -> moving R P (if b then x else y).
Proof. by destruct b. Qed.
End Moving.
Lemma moving_weaken {A} R P (op : Mapping A) : moving R anywhere op -> moving R P op.
Proof. intros H m _. by apply H. Qed.

Ltac moving_step :=
  match goal with
  | |- moving _ _ (mbind _ _) => apply moving_bind; [|intros ?]
  | |- moving _ _ (mret _) => by apply moving_pure
  | |- moving _ _ (tx_lift _) => by apply moving_pure
  | |- moving _ _ (tx_read _) => by apply moving_pure
  | |- moving _ _ (tx_query _) => by apply moving_pure
  | |- moving _ _ (if _ then _ else _) => apply moving_if
  | |- moving _ _ (attempt_tx _) => apply moving_attempt
  | |- moving _ _ (transaction _ _ _) => apply moving_transaction
  | |- moving _ _ (match ?x with _ => _ end) => destruct x
  | |- moving _ _ (let '(_, _) := ?x in _) => destruct x
  | |- moving _ _ _ => solve [auto with moving | apply moving_weaken; auto with moving]
  end.
Ltac moving := repeat (cbv zeta; moving_step).

Section Operations.
Context `{Ids : UuidText} (env : nat -> MappingAnswer).

Section Statements.
Context {R : relation Mapper} `{!Kept R}.
Lemma ask_moving : moving R anywhere (ask_mapping env).
Proof. intros m _. apply kept_answered. Qed.
#[local] Hint Resolve ask_moving : moving.
Lemma open_moving : moving R anywhere (open_now env).
Proof. unfold open_now. moving. Qed.
Lemma wall_moving : moving R anywhere (wall_clock env).
Proof. unfold wall_clock. moving. Qed.
Lemma monotonic_moving : moving R anywhere (monotonic_clock env).
Proof. unfold monotonic_clock. moving. Qed.
#[local] Hint Resolve open_moving wall_moving monotonic_moving : moving.
Lemma policy_moving f : moving R anywhere (tx_execute (update_policy f)).
Proof. apply moving_execute. intros m m' _. apply kept_policy. Qed.
Lemma backoff_moving f n : moving R anywhere (tx_write (fun m => set_backoff (f m) (n m) m)).
Proof. apply moving_write. intros m _. apply kept_backoff. Qed.
Lemma reset_moving : moving R anywhere reset_backoff.
Proof. apply (backoff_moving (fun _ => 0) (fun _ => None)). Qed.
#[local] Hint Resolve policy_moving reset_moving : moving.
Lemma attempt_started_moving : moving R anywhere (record_attempt_started env).
Proof. unfold record_attempt_started. moving. Qed.
Lemma error_moving code : moving R anywhere (persist_mapping_error env code).
Proof. unfold persist_mapping_error. moving. Qed.
Lemma bootstrap_moving enabled : moving R anywhere (configure_bootstrap_policy env enabled).
Proof. unfold configure_bootstrap_policy. moving. Qed.
Lemma due_moving policy now : moving R anywhere (attempt_is_due env policy now).
Proof. unfold attempt_is_due. moving. Qed.
#[local] Hint Resolve attempt_started_moving error_moving due_moving : moving.
Lemma failure_moving code : moving R anywhere (record_failure env code).
Proof.
  unfold record_failure. moving.
  - apply (backoff_moving (fun _ => saturating_add u32_max a0 1) mp_next_attempt).
  - apply (backoff_moving (fun _ => saturating_add u32_max a0 1) (fun _ => Some (a2 + retry_delay (saturating_add u32_max a0 1)))).
Qed.
#[local] Hint Resolve failure_moving : moving.

Lemma lease_moving missing id selects f :
  (forall row, selects (le_state row) = true -> lease_step row (f row)) ->
  moving R anywhere (tx_execute (update_lease missing id selects f)).
Proof. intros Hf. apply moving_execute. intros m m' _. by apply kept_lease. Qed.
Lemma step_with_state row state code ended now :
  state_moves (le_state row) state -> lease_step row (with_state state code ended now row).
Proof. intros H. split; [done|by exists code, ended, now]. Qed.
Lemma is_current_moves state next :
  is_current state = true -> next = LeaseReleasing \/ next = LeaseReleased \/ next = LeaseAbandoned -> state_moves state next.
Proof. destruct state; try done; intros _ [->|[->| ->]]; done. Qed.

Lemma mark_moving id : moving R anywhere (mark_releasing env id).
Proof. unfold mark_releasing. moving. apply lease_moving. intros row H. apply step_with_state, is_current_moves; auto. Qed.
Lemma finish_moving id state code : moving R anywhere (finish_release env id state code).
Proof.
  unfold finish_release. intros m Hm. tx_step. tx_step. destruct (ensure _ _) as [[]|] eqn:Es; [|reflexivity]. apply ensure_Ok in Es.
  revert m Hm. change (moving R anywhere (now ← open_now env;
    _ ← tx_execute (update_lease "releasing router mapping is missing" id is_releasing (with_state state code (Some now) now));
    tx_execute (fun m => match mp_policy m with None => Ok m | Some _ => update_policy (fun policy =>
      mkNetworkPolicy (np_enabled policy) (np_consented_at policy) None (np_last_attempt_at policy)) m end))).
  moving.
  - apply lease_moving. intros row H%bool_decide_eq_true. apply step_with_state. rewrite H. by destruct state.
  - apply moving_execute. intros m m' _. destruct (mp_policy m); [apply kept_policy|]. intros [= <-]. reflexivity.
Qed.
Lemma abandon_moving id code : moving R anywhere (abandon_without_release env id code).
Proof. unfold abandon_without_release. moving. apply lease_moving. intros row H. apply step_with_state, is_current_moves; auto. Qed.
Lemma release_failure_moving id code : moving R anywhere (record_release_failure env id code).
Proof.
  unfold record_release_failure. moving. apply lease_moving. intros row H%bool_decide_eq_true.
  apply step_with_state. by rewrite H.
Qed.
#[local] Hint Resolve mark_moving finish_moving abandon_moving release_failure_moving : moving.

End Statements.
#[local] Hint Resolve ask_moving open_moving wall_moving monotonic_moving reset_moving attempt_started_moving error_moving
  due_moving failure_moving mark_moving finish_moving abandon_moving release_failure_moving : moving.

(** A call of the router *)
Lemma moved_called m call :
  (mapper_ok m -> calls_ok (call :: mp_calls m)) -> moved m (called call m).
Proof.
  intros Hc. split; [|apply rtc_refl|by exists [call]]. intros Hok. pose proof (Hc Hok). destruct Hok as [Hr ? ? ?].
  split; try done. intros row Hrow. destruct (Hr row Hrow) as (? & c & Hin & ? & ?). split; [done|]. exists c.
  split_and!; try done. change (call :: mp_calls m) with ([call] ++ mp_calls m). cbn [mp_calls called].
  change (call :: mp_calls m) with ([call] ++ mp_calls m). rewrite made_app. apply elem_of_app. by right.
Qed.
Lemma release_call_moving d : moving moved (holding d) (tx_write (called (CalledRelease d))).
Proof. apply moving_write. intros m Hm. apply moved_called. intros [? ? ? ?]. by split. Qed.
Lemma release_moving current : moving moved (holding (sm_material current)) (release_current env current).
Proof. unfold release_current. moving. apply release_call_moving. Qed.

(** A mapping that was made becomes the current lease. *)
Definition given (c : CreatedMapping) : Mapper -> Prop := fun m => c ∈ made (mp_calls m).
#[local] Instance given_stable c : Stable moved (given c).
Proof. intros m m' [_ _ [new E]] H. unfold given. rewrite E, made_app. apply elem_of_app. by right. Qed.
Lemma current_none l : List.filter (fun row => is_current (le_state row)) l = [] ->
  Forall (fun r => is_current (le_state r) = false) l.
Proof. induction l as [|r l IH]; [done|]. cbn. destruct (is_current (le_state r)) eqn:E; [done|]. eauto. Qed.
Lemma insert_moved db row m m' c :
  insert_lease db row m = Ok m' -> le_state row = LeaseActive -> given c m -> made_ok c -> row_of c row -> moved m m'.
Proof.
  unfold insert_lease. intros H Ha Hg Hc Hrow. inv_ok. rewrite Ha in H3. cbn in H3. apply bool_decide_eq_true in H3.
  split; [|cbn; apply rtc_once, table_insert; [by apply current_none|done]|by exists []].
  intros [Hr Ho ? ?]. split; try done; cbn.
  - intros x [Hx|Hx%list_elem_of_singleton]%elem_of_app; [by apply Hr|]. subst x. split; [done|]. by exists c.
  - unfold current_rows in *. cbn. rewrite current_app, H3. cbn. rewrite Ha. cbn. lia.
Qed.
Lemma persist_moving target created predecessor :
  made_ok created -> moving moved (given created) (persist_mapping env target created predecessor).
Proof.
  intros Hc. unfold persist_mapping. moving_step; [moving|]. moving_step; [moving|]. moving_step; [moving|].
  intros m Hm. tx_step. tx_step. destruct (present_or _ _) as [expires|] eqn:Ee; [|reflexivity].
  apply present_or_Ok, checked_add_Some in Ee as [-> _].
  revert m Hm. match goal with |- forall m, _ -> after ?op m _ => change (moving moved (given created) op) end.
  moving_step; [moving|]. moving_step. moving_step.
  - destruct predecessor; [|moving]. apply moving_weaken, lease_moving. intros row H%bool_decide_eq_true.
    apply step_with_state. by rewrite H.
  - intros m Hm. tx_step. tx_step. destruct (source_wire (cm_source created)) as [source|] eqn:Es; [|reflexivity].
    revert m Hm. match goal with |- forall m, _ -> after ?op m _ => change (moving moved (given created) op) end. moving_step.
    + apply moving_execute. intros m m' Hm H. eapply insert_moved; try done. unfold row_of. cbn. split_and!; try done. lia.
    + apply moving_weaken, moving_execute. intros m m' _. destruct (mp_policy m); [apply update_policy_moved|].
      intros [= <-]. reflexivity.
Qed.

(** ** The supervisor *)

Lemma array_of_Ok size message o o' : array_of size message o = Ok o' -> o' = o.
Proof. unfold array_of. destruct o; [intros H; inv_ok; done|by intros [= <-]]. Qed.
Lemma parse_wire source wire source' : source_wire source = Ok wire -> parse_source wire = Ok source' -> source' = source.
Proof. destruct source; intros [= <-]; vm_compute; congruence. Qed.
Lemma stored_owned c row stored : row_of c row -> stored_mapping row = Ok stored -> owned c (sm_material stored).
Proof.
  intros (Hs & Hi & _ & He & Hn & Hd & _ & Hf & _). unfold stored_mapping. intros H. inv_ok.
  repeat match goal with
  | E : array_of _ _ _ = Ok _ |- _ => apply array_of_Ok in E; subst
  | E : try_from _ _ = Some _ |- _ => apply try_from_Some in E as [-> ?]
  | E : parse_source _ = Ok _ |- _ => apply (parse_wire _ _ _ Hs) in E; subst
  end.
  unfold owned. cbn. split_and!; try done.
Qed.
Lemma stored_fields row stored : stored_mapping row = Ok stored ->
  sm_mapping_id stored = le_mapping_id row /\ sm_releasing stored = bool_decide (le_state row = LeaseReleasing) /\
  sm_lease_expires_at stored = le_lease_expires_at row /\ sm_lease_started_at stored = le_lease_started_at row.
Proof. unfold stored_mapping. intros H. inv_ok. done. Qed.
Lemma current_loaded m current : load_current_mapping m = Ok (Some current) ->
  exists row rest, current_rows m = row :: rest /\ stored_mapping row = Ok current.
Proof.
  unfold load_current_mapping. destruct (current_rows m) as [|row rest]; [done|]. cbn. intros H. inv_ok.
  by exists row, rest.
Qed.
Lemma loaded_ours m current : mapper_ok m -> load_current_mapping m = Ok (Some current) -> holding (sm_material current) m.
Proof.
  intros Hok (row & rest & Er & Hs)%current_loaded.
  assert (row ∈ mp_leases m) as Hin.
  { assert (row ∈ current_rows m) as H by (rewrite Er; left).
    unfold current_rows in H. rewrite list_elem_of_In, filter_In, <- list_elem_of_In in H. tauto. }
  destruct (mk_rows _ Hok row Hin) as (_ & c & Hc & _ & Hrow). exists c. split; [done|]. by eapply stored_owned.
Qed.

Context {Laws : forall k, BackendLaws (mw_backend (env k))}.

Definition sound_with (P : Mapper -> Prop) : Mapper -> Prop := fun m => mapper_ok m /\ P m.
#[local] Instance mapper_ok_stable : Stable moved mapper_ok.
Proof. intros m m' H. apply H. Qed.

Lemma given_called m call c : (exists d, call = CalledRenew d (Some c)) \/ (exists r, call = CalledCreate r (Some c)) ->
  given c (called call m).
Proof. unfold given, made. intros [[d ->]|[r ->]]; cbn; left. Qed.

Lemma moving_ask {A} P `{!Stable moved P} (f : MappingAnswer -> Mapping A) :
  (forall k, moving moved P (f (env k))) -> moving moved P (ask_mapping env ≫= f).
Proof.
  intros H m Hm. tx_step. change (after (f (env (mp_asked m))) (answered m) (fun _ m' => moved m m')).
  pose proof (kept_answered (R:=moved) m) as M. eapply after_mono; [apply H; by eapply (stable (R:=moved))|]. intros r m' Hm'. by etrans.
Qed.
Lemma moving_called {A} (P Q : Mapper -> Prop) call (op : Mapping A) :
  (forall m, P m -> calls_ok (mp_calls m) -> calls_ok (call :: mp_calls m)) -> (forall m, P m -> Q (called call m)) ->
  moving moved Q op -> moving moved P (_ ← tx_write (called call); op).
Proof.
  intros Hc Hq H m Hm. tx_step. tx_step. assert (moved m (called call m)) as M.
  { apply moved_called. intros Hok. apply Hc; [done|]. apply Hok. }
  eapply after_mono; [apply H; by apply Hq|]. intros r m' Hm'. by etrans.
Qed.

Lemma renew_moving target current : moving moved (holding (sm_material current)) (renew_current env target current).
Proof.
  unfold renew_current. moving_step; [moving|]. moving_step; [moving|]. moving_step; [moving|]. moving_step; [moving|].
  apply moving_ask; [apply _|]. intros k. cbv zeta.
  destruct (mb_renew (mw_backend (env k)) (sm_material current)) as [created|code] eqn:E.
  - eapply (moving_called _ (given created)); [by split|intros; apply given_called; eauto|].
    moving. apply persist_moving. by eapply renew_made.
  - eapply (moving_called _ anywhere); [by split|done|]. moving.
Qed.
Lemma create_moving target node_id : moving moved anywhere (create_mapping env target node_id).
Proof.
  unfold create_mapping. moving_step; [moving|]. moving_step; [moving|]. apply moving_ask; [apply _|]. intros k. cbv zeta.
  destruct (mb_create (mw_backend (env k)) _) as [created|code] eqn:E.
  - eapply (moving_called _ (given created)); [done|intros; apply given_called; eauto|].
    moving; [apply persist_moving; by eapply create_made|].
    apply moving_write. intros m Hm. apply moved_called. intros Hok. split; [|apply Hok]. exists created. by split.
  - eapply (moving_called _ anywhere); [done|done|]. moving.
Qed.

(** The current mapping of a sound state is this node's. *)
Definition holds_current (current : option StoredMapping) (m : Mapper) : Prop :=
  forall mapping, current = Some mapping -> holding (sm_material mapping) m.
#[local] Instance holds_current_stable current : Stable moved (holds_current current).
Proof. intros m m' M H mapping E. eapply ours_moved; [done|by apply H]. Qed.
Lemma load_result m : after (load_supervision_state env) m (fun r m' => m' = answered m /\
  forall policy current node_id, r = Ok (policy, current, node_id) ->
    load_policy m = Ok policy /\ load_current_mapping m = Ok current).
Proof.
  unfold load_supervision_state, after, mbind, tx_bind, ask_mapping, tx_lift, tx_query.
  destruct (ensure _ _); [|done]. change (load_policy (answered m)) with (load_policy m).
  change (load_current_mapping (answered m)) with (load_current_mapping m).
  destruct (load_policy m) as [policy|]; [|done]. destruct (load_current_mapping m) as [current|]; [|done].
  case_match; [|done]. split; [done|]. intros p c n [= <- <- <-]. done.
Qed.
Lemma load_spec {A} (f : _ -> Mapping A) :
  (forall policy current node_id, moving moved (holds_current current) (f (policy, current, node_id))) ->
  moving moved mapper_ok (load_supervision_state env ≫= f).
Proof.
  intros Hf m Hm. tx_step. eapply after_mono; [apply load_result|]. intros [[[policy current] node_id]|e] m' [-> Hl].
  2: apply kept_answered.
  destruct (Hl _ _ _ eq_refl) as [_ Hc]. pose proof (kept_answered (R:=moved) m) as M.
  eapply after_mono; [apply Hf|intros r m' Hm'; by etrans].
  intros mapping ->. eapply ours_moved; [exact M|]. by apply loaded_ours.
Qed.
Lemma drop_foreign_moving current : moving moved (holds_current current) (drop_foreign env current).
Proof. unfold drop_foreign. moving. Qed.
Lemma drop_foreign_sub current m :
  after (drop_foreign env current) m (fun r _ => forall kept, r = Ok kept -> kept = current \/ kept = None).
Proof.
  unfold drop_foreign. destruct current as [mapping|]; [|tx_step; naive_solver].
  unfold after, mbind, tx_bind, ask_mapping. destruct (mb_topology_matches _ _); [cbn; naive_solver|].
  destruct (abandon_without_release _ _ _ _) as [[[]|] m']; cbn; naive_solver.
Qed.
Lemma drop_unwanted_moving policy target current :
  moving moved (holds_current current) (drop_unwanted env policy target current).
Proof.
  unfold drop_unwanted. destruct current as [mapping|]; [|moving]. moving_step; [moving|]. moving_step; [moving|].
  moving_step; [moving|]. moving_step; [moving|]. moving_step; [|moving].
  intros m Hm. apply release_moving. by apply Hm.
Qed.
Lemma drop_unwanted_sub policy target current m :
  after (drop_unwanted env policy target current) m
    (fun r _ => forall kept, r = Ok (Some kept) -> kept = current \/ kept = None).
Proof.
  unfold drop_unwanted. destruct current as [mapping|]; [|tx_step; naive_solver].
  unfold after, mbind at 1, tx_bind at 1. match goal with |- context [match ?x with _ => _ end] => destruct x as [[must|e] m1] end; [|done].
  destruct must; [|cbn; naive_solver]. cbn [negb]. unfold mbind at 1, tx_bind at 1.
  match goal with |- context [match ?x with _ => _ end] => destruct x as [[wait|e] m2] end; [|done].
  destruct wait; [cbn; naive_solver|]. unfold mbind, tx_bind. destruct (release_current _ _ _) as [[[]|] m3]; cbn; naive_solver.
Qed.
Lemma holds_sub current kept m : holds_current current m -> kept = current \/ kept = None -> holds_current kept m.
Proof. intros H [->| ->]; [done|by intros mapping]. Qed.
Lemma reconcile_moving target : moving moved mapper_ok (reconcile env target).
Proof.
  apply load_spec. intros policy loaded node_id m Hm. tx_step.
  eapply after_mono; [apply after_both; [by apply drop_foreign_moving|apply drop_foreign_sub]|].
  intros [current|e] m1 [M1 S1]; [|done].
  assert (holds_current current m1) as H1 by (eapply holds_sub; [by eapply (stable (R:=moved))|by apply S1]).
  tx_step. eapply after_mono; [apply after_both; [by apply drop_unwanted_moving|apply drop_unwanted_sub]|].
  intros [[kept|]|e] m2 [M2 S2]; [|tx_step; by etrans|by etrans].
  assert (holds_current kept m2) as H2 by (eapply holds_sub; [by eapply (stable (R:=moved))|by apply S2]).
  eapply after_mono; [|intros r m3 M3; do 2 (etrans; [eassumption|]); exact M3].
  revert m2 M2 S2 H2. intros m2 _ _. revert m2.
  match goal with |- forall m, _ -> after ?op m _ => change (moving moved (holds_current kept) op) end.
  destruct (if np_enabled policy then target else None) as [t|]; [|moving]. moving_step; [moving|].
  moving_step; [moving|]. moving_step; [moving|]. moving_step; [moving|].
  destruct kept as [mapping|]; [|apply moving_weaken, create_moving].
  intros m2 H2. apply renew_moving. by apply H2.
Qed.
Lemma shutdown_moving : moving moved mapper_ok (shutdown env).
Proof.
  apply load_spec. intros policy [mapping|] node_id; [|moving]. moving_step; [moving|]. moving_step; [moving|].
  moving_step; [|moving]. intros m Hm. apply release_moving. by apply Hm.
Qed.
End Operations.
#[export] Hint Resolve ask_moving open_moving wall_moving monotonic_moving reset_moving attempt_started_moving error_moving
  due_moving failure_moving mark_moving finish_moving abandon_moving release_failure_moving : moving.
