(* ===== verification/RouterProtocolFacts.v ===== *)
(** * Facts on the router protocols

    [SystemMappingBackend] keeps what the supervisor relies on, whatever the
    crates and the router answer; entries of the router are removed only after
    they were seen to be this node's; and what [create] reports when it fails. *)
From S2P Require Import Prelude Text Clock ProtoTypes ProtoAuth ProtoNode ProtoTelemetry NodeHostDb NodeHostRuntime Transaction NodePolicy.
From S2P Require Import NodeTelemetryFacts RouterProtocol RouterMapping RouterMappingFacts.
Open Scope Z_scope.

Section Facts.
Context `{Sha : Sha256} `{Ids : UuidText} (env : nat -> RouterAnswer).

(** ** What is made may be published *)

(** From any state, a mapping that comes out is one that may be published. *)
Definition making (op : Asking CreatedMapping) : Prop := forall s, after op s (fun r _ => forall c, r = Ok c -> made_ok c).
Lemma making_bind {A} (op : Asking A) f : (forall a, making (f a)) -> making (op ≫= f).
Proof. intros H s. tx_step. apply after_any. intros [a|e] s'; [apply H|done]. Qed.
Lemma making_err e : making (tx_lift (Err e)).
Proof. by intros s c. Qed.
Lemma making_if (b : bool) x y : making x -> making y -> making (if b then x else y).
Proof. by destruct b. Qed.

Lemma build_making mapping source internal external nonce fingerprint :
  making (build_crab_mapping env mapping source internal external nonce fingerprint).
Proof.
  unfold build_crab_mapping. destruct (negb _ || negb _) eqn:E; [apply making_bind; intros; apply making_err|].
  apply orb_false_iff in E as [Hl%negb_false_iff Ha%negb_false_iff]. intros s c [= <-]. by split.
Qed.
Lemma create_pcp_making route port nonce ip external : making (create_pcp env route port nonce ip external).
Proof.
  unfold create_pcp. do 2 (apply making_bind; intros ?). case_match; [apply build_making|].
  apply making_bind. intros. apply making_err.
Qed.
Lemma create_nat_pmp_making route port external known : making (create_nat_pmp env route port external known).
Proof. unfold create_nat_pmp. do 3 (apply making_bind; intros ?). apply build_making. Qed.

Lemma external_address_public s : after (upnp_external_address env) s
  (fun r _ => forall address, r = Ok address -> is_publishable_external_address address = true).
Proof.
  unfold upnp_external_address. tx_step. apply after_any. intros [a|e] s'; [|done].
  tx_step. tx_step. destruct (ok_or _ _) as [address|]; [|done]. tx_step. tx_step.
  destruct (ensure _ _) as [[]|] eqn:E; [|done]. apply ensure_Ok in E. tx_step. by intros ? [= <-].
Qed.
Lemma making_external f :
  (forall address, is_publishable_external_address address = true -> making (f address)) ->
  making (upnp_external_address env ≫= f).
Proof.
  intros H s. tx_step. eapply after_mono; [apply external_address_public|]. intros [address|e] s' Ha; [|done].
  by apply H, Ha.
Qed.
Lemma create_upnp_making route internal external description : making (create_upnp env route internal external description).
Proof.
  unfold create_upnp. apply making_bind. intros gateway. apply making_external. intros address Ha.
  do 3 (apply making_bind; intros ?). case_match; [|apply making_err..].
  apply making_if; [apply making_bind; intros; apply making_err|].
  destruct (valid_finite_lifetime lease_seconds) eqn:El; [|apply making_bind; intros; apply making_err].
  intros s c [= <-]. by split.
Qed.
Lemma renew_upnp_making mapping : making (renew_upnp env mapping).
Proof.
  unfold renew_upnp. do 4 (apply making_bind; intros ?). apply making_external. intros address Ha.
  do 6 (apply making_bind; intros ?). intros s. tx_step. tx_step. destruct (ensure _ _) as [[]|] eqn:E; [|done].
  apply ensure_Ok in E. tx_step. intros c [= <-]. by split.
Qed.
Lemma making_attempt {A} (op : Asking A) (f : result MappingFailureCode A -> Asking CreatedMapping) (Q : A -> Prop) :
  (forall s, after op s (fun r _ => forall a, r = Ok a -> Q a)) ->
  (forall a, Q a -> making (f (Ok a))) -> (forall e, making (f (Err e))) -> making (attempt_tx op ≫= f).
Proof.
  intros H Ho He s. tx_step. tx_step. eapply after_mono; [apply H|]. intros [a|e] s' Ha; [by apply Ho, Ha|apply He].
Qed.
Lemma making_ret c : made_ok c -> making (mret c).
Proof. intros H s c' [= <-]. done. Qed.
Lemma create_making request : making (create env request).
Proof.
  unfold create. do 3 (apply making_bind; intros ?).
  eapply making_attempt; [apply create_pcp_making|intros; by apply making_ret|]. intros pcp_code.
  eapply making_attempt; [apply create_nat_pmp_making|intros; by apply making_ret|]. intros nat_pmp_code.
  apply making_bind. intros drawn.
  eapply making_attempt; [apply create_upnp_making|intros; by apply making_ret|]. intros. apply making_err.
Qed.
Lemma renew_making mapping : making (renew env mapping).
Proof.
  unfold renew. destruct (dm_source mapping); try apply making_err.
  - do 4 (apply making_bind; intros ?). apply create_pcp_making.
  - do 4 (apply making_bind; intros ?). apply create_nat_pmp_making.
  - apply renew_upnp_making.
Qed.

(** [SystemMappingBackend], called when [k] answers have been given *)
Definition system_backend (k : nat) : MappingBackend :=
  let run {A} (op : Asking A) := (op (mkRouterState k [])).1 in
  mkBackend (fun mapping => match run (topology_matches env mapping) with Ok b => b | Err _ => false end)
    (fun request => run (create env request)) (fun mapping => run (renew env mapping))
    (fun mapping => run (release env mapping)).
#[export] Instance system_backend_laws k : BackendLaws (system_backend k).
Proof.
  split.
  - intros r c. apply (create_making r (mkRouterState k [])).
  - intros m c. apply (renew_making m (mkRouterState k [])).
Qed.

(** ** What is removed *)

(** The router gave this mapping in answer to a request. *)
Definition granted (m : PortMapping) (log : list RouterCall) : Prop :=
  (exists port nonce ip external, AskPcp port nonce ip external (Ok m) ∈ log) \/
  exists port external, AskNatPmp port external (Ok m) ∈ log.
(** What has to come before a call that removes something: an UPnP entry was read
    that is ours, a mapping that is dropped was granted before, and what is dropped
    by port is the stored mapping. *)
Definition justified (own : Z -> UpnpEntry -> Prop) (stored : option DurableMapping) (call : RouterCall)
    (before : list RouterCall) : Prop :=
  match call with
  | AskRemove port => exists index entry, AskEntry index (EntryIs entry) ∈ before /\ own port entry
  | AskDrop m => granted m before
  | AskDropPcp port nonce => exists d, stored = Some d /\ dm_source d = EsPcp /\ port = dm_internal_port d /\
      nonce_from_bytes <$> dm_pcp_nonce d = Some nonce
  | AskDropNatPmp port => exists d, stored = Some d /\ dm_source d = EsNatPmp /\ port = dm_internal_port d
  | _ => True
  end.
Definition removals_proven (own : Z -> UpnpEntry -> Prop) (stored : option DurableMapping) (log : list RouterCall) : Prop :=
  forall l1 call l2, log = l1 ++ call :: l2 -> justified own stored call l2.
Lemma removals_proven_cons own stored call log :
  justified own stored call log -> removals_proven own stored log -> removals_proven own stored (call :: log).
Proof. intros Hc H [|x l1] c l2 E; injection E as -> E; [by rewrite <- E|]. by eapply H. Qed.
Lemma justified_later own stored call c log : justified own stored call log -> justified own stored call (c :: log).
Proof.
  destruct call; cbn; try done.
  - intros (i & e & He & Ho). exists i, e. split; [by right|done].
  - intros [(p & n & i & x & H)|(p & x & H)]; [left; exists p, n, i, x|right; exists p, x]; by right.
Qed.
(** The log since a point *)
Definition since (L : list RouterCall) (P : list RouterCall -> Prop) (s : RouterState) : Prop :=
  exists new, rs_log s = new ++ L /\ P new.
Definition is_removal (call : RouterCall) : bool :=
  match call with AskRemove _ | AskDrop _ | AskDropPcp _ _ | AskDropNatPmp _ => true | _ => false end.

(** Facts that any call but a removal keeps *)
Class Calm (J : list RouterCall -> Prop) : Prop :=
  calm_call call log : is_removal call = false -> J log -> J (call :: log).
#[local] Instance removals_calm own stored : Calm (removals_proven own stored).
Proof. intros call log Hc H. apply removals_proven_cons; [|done]. by destruct call. Qed.
#[local] Instance justified_calm own stored call : Calm (justified own stored call).
Proof. intros c log _ H. by apply justified_later. Qed.

Definition calm {A} (op : Asking A) : Prop :=
  forall J, Calm J -> forall L s, since L J s -> after op s (fun _ s' => since L J s').
Lemma calm_binding {A B} (op : Asking A) (f : A -> Asking B) : calm op -> (forall a, calm (f a)) -> calm (op ≫= f).
Proof.
  intros H1 H2 J HJ L s Hs. tx_step. eapply after_mono; [by apply H1|]. intros [a|e] s' Hs'; [by apply H2|done].
Qed.
Lemma calm_pure {A} (op : Asking A) : (forall s, (op s).2 = s) -> calm op.
Proof. intros H J HJ L s Hs. unfold after. by rewrite H. Qed.
Lemma calm_asking call : (forall a, is_removal (call a) = false) -> calm (ask_router env call).
Proof.
  intros Hc J HJ L s (new & E & Hn). exists (call (env (rs_asked s)) :: new). cbn. rewrite E. split; [done|]. by apply HJ.
Qed.
Lemma calm_if {A} (b : bool) (x y : Asking A) : calm x -> calm y -> calm (if b then x else y).
Proof. by destruct b. Qed.
Ltac calm_step :=
  match goal with
  | |- calm (mbind _ _) => apply calm_binding; [|intros ?]
  | |- calm (mret _) => by apply calm_pure
  | |- calm (tx_lift _) => by apply calm_pure
  | |- calm (ask_router _ _) => by apply calm_asking
  | |- calm (if _ then _ else _) => apply calm_if
  | |- calm (match ?x with _ => _ end) => destruct x
  end.
Ltac calm := repeat (cbv zeta; first [calm_step | solve [auto with calm]]).

Lemma calm_bounded call : (forall a, is_removal (call a) = false) -> calm (bounded env call).
Proof. intros H. unfold bounded. calm_step; [by apply calm_asking|calm]. Qed.
Lemma calm_route : calm (discover_default_route env).
Proof. unfold discover_default_route. calm. Qed.
Lemma calm_mapping_route mapping : calm (mapping_route env mapping).
Proof. unfold mapping_route. calm_step; [calm|]. calm_step; [calm|]. calm_step; [calm|]. calm_step; [apply calm_route|calm]. Qed.
Lemma calm_gateway route : calm (discover_upnp_gateway env route).
Proof. unfold discover_upnp_gateway. calm_step; [by apply calm_bounded|calm]. Qed.
Lemma calm_address : calm (upnp_external_address env).
Proof. unfold upnp_external_address. calm_step; [by apply calm_bounded|calm]. Qed.
Lemma calm_inspect index rounds port client internal description foreign :
  calm (inspect_from env index rounds port client internal description foreign).
Proof.
  revert index foreign. induction rounds as [|rounds IH]; intros index foreign; cbn [inspect_from]; [calm|].
  calm_step; [by apply calm_bounded|]. calm; apply IH.
Qed.

(** An entry that is this node's *)
Definition our_entry (client : Ipv4Addr) (internal_port : Z) (description : string) (port : Z) (e : UpnpEntry) : Prop :=
  ue_tcp e = true /\ ue_external_port e = port /\ ue_description e = description /\ ue_internal_port e = internal_port /\
  parse_ip (as_bytes (ue_internal_client e)) = Some (ip_v4 client).
Lemma inspect_seen stored index rounds port client internal description foreign L s :
  since L (fun _ => True) s ->
  after (inspect_from env index rounds port client internal description foreign) s (fun r s' =>
    forall lease, r = Ok (Owned lease) ->
      since L (justified (our_entry client internal description) stored (AskRemove port)) s').
Proof.
  revert index foreign s. induction rounds as [|rounds IH]; intros index foreign s (new & E & _); cbn [inspect_from].
  { destruct foreign; by tx_step. }
  tx_step. unfold bounded. tx_step. unfold after at 1, ask_router. cbn [fst snd]. tx_step. tx_step.
  destruct (ensure _ _) as [[]|]; [|done]. tx_step. set (a := env (rs_asked s)).
  set (s1 := mkRouterState _ _). assert (since L (fun _ => True) s1) as H1.
  { exists (AskEntry index (ra_entry a) :: new). cbn. by rewrite E. }
  destruct (ra_entry a) as [entry| |] eqn:Ee; [|by destruct foreign; tx_step|by tx_step]. cbv zeta.
  destruct (negb (ue_tcp entry) || negb (ue_external_port entry =? port)) eqn:Ep; [by apply IH|].
  destruct (entry_matches port client internal description entry) eqn:Em; [|by apply IH]. tx_step.
  intros lease _. exists (AskEntry index (EntryIs entry) :: new). cbn. split; [by rewrite E|].
  exists index, entry. split; [left|]. apply orb_false_iff in Ep as [Ht%negb_false_iff Hp%negb_false_iff%Z.eqb_eq].
  unfold entry_matches in Em. rewrite !andb_true_iff, !bool_decide_eq_true, Z.eqb_eq in Em. by destruct Em as [[[[? ?] ?] ?] ?].
Qed.
(** A removal that was justified *)
Lemma removal_asked own stored call L s :
  since L (removals_proven own stored) s -> since L (justified own stored call) s ->
  after (ask_router env (fun _ => call)) s (fun _ s' => since L (removals_proven own stored) s').
Proof.
  intros (new & E & H) (new' & E' & Hs). rewrite E in E'. apply app_inv_tail in E' as <-.
  exists (call :: new). cbn. split; [by rewrite E|]. by apply removals_proven_cons.
Qed.
Lemma removal_since own stored call L s :
  since L (removals_proven own stored) s -> since L (justified own stored call) s ->
  after (bounded env (fun _ => call)) s (fun _ s' => since L (removals_proven own stored) s').
Proof.
  intros H1 H2. unfold bounded. tx_step. eapply after_mono; [by apply removal_asked|].
  intros [a|e] s' Hs; [|done]. tx_step. tx_step. by destruct (ensure _ _) as [[]|].
Qed.

(** Inspecting, then acting on what was found *)
Lemma inspect_proven own stored port client internal description L s :
  (forall e, our_entry client internal description port e -> own port e) -> since L (removals_proven own stored) s ->
  after (inspect_upnp_ownership env port client internal description) s (fun r s' =>
    since L (removals_proven own stored) s' /\
    forall lease, r = Ok (Owned lease) -> since L (justified own stored (AskRemove port)) s').
Proof.
  intros Ho Hs. apply after_both; [by apply calm_inspect; [apply _|]|].
  eapply after_mono; [apply (inspect_seen stored _ _ _ _ _ _ _ L); destruct Hs as (new & ? & _); by exists new|].
  intros r s' H lease Er. destruct (H lease Er) as (new & ? & i & e & He & Hn). exists new. split; [done|].
  exists i, e. by auto.
Qed.

(** Whatever is removed was justified. *)
Definition proving {A} (own : Z -> UpnpEntry -> Prop) (stored : option DurableMapping) (op : Asking A) : Prop :=
  forall L s, since L (removals_proven own stored) s -> after op s (fun _ s' => since L (removals_proven own stored) s').
Lemma calm_proving {A} own stored (op : Asking A) : calm op -> proving own stored op.
Proof. intros H L s. apply H, _. Qed.
Lemma proving_bind {A B} own stored (op : Asking A) (f : A -> Asking B) :
  proving own stored op -> (forall a, proving own stored (f a)) -> proving own stored (op ≫= f).
Proof. intros H1 H2 L s Hs. tx_step. eapply after_mono; [by apply H1|]. intros [a|e] s' Hs'; [by apply H2|done]. Qed.
Lemma proving_attempt {A} own stored (op : Asking A) : proving own stored op -> proving own stored (attempt_tx op).
Proof. intros H L s Hs. apply after_attempt. by apply H. Qed.
Lemma proving_lift {A B} own stored (r : result MappingFailureCode A) (f : A -> Asking B) :
  (forall a, r = Ok a -> proving own stored (f a)) -> proving own stored (tx_lift r ≫= f).
Proof. intros H L s Hs. tx_step. tx_step. destruct r as [a|e]; [|done]. by apply (H a). Qed.

Definition released_entry (mapping : DurableMapping) (port : Z) (e : UpnpEntry) : Prop :=
  port = dm_external_port mapping /\ dm_upnp_description mapping = Some (ue_description e) /\
  ue_tcp e = true /\ ue_external_port e = port /\ ue_internal_port e = dm_internal_port mapping.
Lemma release_upnp_proving mapping stored : proving (released_entry mapping) stored (release_upnp env mapping).
Proof.
  unfold release_upnp. apply proving_bind; [apply calm_proving, calm_mapping_route|intros route].
  apply proving_lift. intros description Ed%ok_or_Ok.
  apply proving_bind; [apply calm_proving, calm_gateway|intros gateway]. apply proving_bind; [by apply calm_proving, calm_pure|intros _].
  intros L s Hs. tx_step. eapply after_mono; [apply (inspect_proven (released_entry mapping)); [|exact Hs]|].
  - intros e (? & ? & <- & ? & _). by split_and!.
  - intros [[lease| |]|e] s' [H1 H2]; [|by tx_step|by tx_step|done].
    tx_step. eapply after_mono; [by apply removal_since; [|by eapply H2]|]. by intros [a|e] s'' H''.
Qed.
(** A drop of the stored mapping *)
Lemma drop_proving own stored call (f : RouterAnswer -> Asking unit) :
  (forall log, justified own stored call log) -> (forall a, calm (f a)) -> proving own stored (bounded env (fun _ => call) ≫= f).
Proof.
  intros Hj Hf. apply proving_bind; [|intros a; by apply calm_proving].
  intros L s Hs. apply removal_since; [done|]. destruct Hs as (new & E & _). by exists new.
Qed.
Lemma release_proving mapping : proving (released_entry mapping) (Some mapping) (release env mapping).
Proof.
  unfold release. destruct (dm_source mapping) eqn:Hsource; try (by apply calm_proving, calm_pure).
  - unfold release_pcp. apply proving_bind; [apply calm_proving, calm_mapping_route|intros _].
    apply proving_lift. intros nonce Hn%ok_or_Ok. apply proving_lift. unfold nonzero. intros port Hp. inv_ok.
    apply drop_proving; [|intros a; calm]. intros log. by exists mapping.
  - unfold release_nat_pmp. apply proving_bind; [apply calm_proving, calm_mapping_route|intros _].
    apply proving_lift. unfold nonzero. intros port Hp. inv_ok.
    apply drop_proving; [|intros a; calm]. intros log. by exists mapping.
  - apply release_upnp_proving.
Qed.

Definition created_entry (internal_port : Z) (description : string) (port : Z) (e : UpnpEntry) : Prop :=
  ue_description e = description /\ ue_tcp e = true /\ ue_external_port e = port /\ ue_internal_port e = internal_port.
Lemma cleanup_proven own stored port intended L s :
  since L (removals_proven own stored) s -> since L (justified own stored (AskRemove port)) s ->
  after (code ← upnp_cleanup_failure_or env port intended; tx_lift (Err code) : Asking CreatedMapping) s
    (fun _ s' => since L (removals_proven own stored) s').
Proof.
  intros H1 H2. tx_step. unfold upnp_cleanup_failure_or. tx_step.
  eapply after_mono; [by apply removal_since|]. by intros [a|e] s' H'.
Qed.
Lemma create_upnp_proving own stored route internal external description :
  (forall port e, created_entry internal description port e -> own port e) ->
  proving own stored (create_upnp env route internal external description).
Proof.
  intros Hown. unfold create_upnp. apply proving_bind; [apply calm_proving, calm_gateway|intros gateway].
  apply proving_bind; [apply calm_proving, calm_address|intros address].
  apply proving_bind; [by apply calm_proving, calm_bounded|intros a].
  apply proving_bind.
  { apply calm_proving. calm. by apply calm_bounded. }
  intros port L s Hs. tx_step.
  eapply (after_mono _ _ (fun r s' => since L (removals_proven own stored) s' /\
    forall lease, r = Ok (Owned lease) -> since L (justified own stored (AskRemove port)) s')).
  - pose proof (inspect_proven own stored port (ro_client route) internal description L s) as H.
    unfold after in *. destruct (inspect_upnp_ownership _ _ _ _ _ s) as [[owned|[]] s'].
    all: cbn [fst snd] in *; destruct H as [H1 H2]; [by intros e (? & ? & ? & ? & _); apply Hown|exact Hs|split; done].
  - intros [[lease| |]|e] s' [H1 H2]; [|by tx_step|by tx_step|done].
    destruct (lease =? 0); [by apply cleanup_proven; [|by eapply H2]|].
    destruct (valid_finite_lifetime lease); [by tx_step|by apply cleanup_proven; [|by eapply H2]].
Qed.

(** A mapping the router gave may be dropped again. *)
Definition from_grant {A} own stored (m : PortMapping) (op : Asking A) : Prop :=
  forall L s, since L (removals_proven own stored) s -> since L (granted m) s ->
    after op s (fun _ s' => since L (removals_proven own stored) s').
Lemma drop_granted {A} own stored m intended :
  from_grant own stored m (code ← cleanup_failure_or env m intended; tx_lift (Err code) : Asking A).
Proof.
  intros L s H1 H2. tx_step. unfold cleanup_failure_or. tx_step.
  eapply after_mono; [by apply (removal_asked own stored (AskDrop m))|]. intros [a|e] s' H'; [|done]. tx_step. by tx_step.
Qed.
Lemma build_granted own stored m source internal external nonce fingerprint :
  from_grant own stored m (build_crab_mapping env m source internal external nonce fingerprint).
Proof.
  intros L s H1 H2. unfold build_crab_mapping. cbv zeta. destruct (_ || _); [by apply drop_granted|by tx_step].
Qed.
(** A request, and what is done with the mapping it was answered with *)
Lemma grant_proving {A} own stored (call : RouterAnswer -> RouterCall) (answer : RouterAnswer -> result MappingFailureCode PortMapping)
    (f : PortMapping -> Asking A) :
  (forall a, is_removal (call a) = false) ->
  (forall a m log, answer a = Ok m -> granted m (call a :: log)) -> (forall m, from_grant own stored m (f m)) ->
  proving own stored (a ← bounded env call; mapping ← tx_lift (answer a); f mapping).
Proof.
  intros Hc Hg Hf L s (new & E & Hn). tx_step. unfold bounded. tx_step. unfold after at 1, ask_router. cbn [fst snd].
  set (a := env (rs_asked s)). assert (removals_proven own stored (call a :: new)) as Hp.
  { apply removals_proven_cons; [|done]. specialize (Hc a). by destruct (call a). }
  assert (since L (removals_proven own stored) (mkRouterState (S (rs_asked s)) (call a :: rs_log s))) as Hs'
    by (exists (call a :: new); cbn; by rewrite E).
  tx_step. tx_step. destruct (ensure _ _) as [[]|]; [|done]. tx_step. tx_step. tx_step.
  destruct (answer a) as [m|e] eqn:Ea; [|done]. apply Hf; [done|]. exists (call a :: new). cbn. rewrite E. split; [done|]. by apply Hg.
Qed.
Lemma create_pcp_proving own stored route port nonce ip external :
  proving own stored (create_pcp env route port nonce ip external).
Proof.
  unfold create_pcp. apply (grant_proving own stored _ (fun a => map_err classify_pcp_failure (ra_pcp a))); [done| |].
  - intros a m log H%map_err_Ok. left. exists port, nonce, ip, external. rewrite H. left.
  - intros m. destruct (pm_type m); [apply build_granted|apply drop_granted].
Qed.
Lemma create_nat_pmp_proving own stored route port external known :
  proving own stored (create_nat_pmp env route port external known).
Proof.
  unfold create_nat_pmp. apply (grant_proving own stored _ (fun a => map_err classify_nat_pmp_failure (ra_nat_pmp a))); [done| |].
  - intros a m log H%map_err_Ok. right. exists port, external. rewrite H. left.
  - intros m L s H1 H2. tx_step. destruct known as [address|]; [tx_step; by apply build_granted|].
    tx_step. pose proof (calm_asking (fun _ => AskExternalAddress) (fun _ => eq_refl)) as Hc.
    eapply after_mono; [apply after_both; [by apply (Hc (removals_proven own stored) _)|
      by apply (Hc (justified own stored (AskDrop m)) _)]|].
    intros [a|e] s' [H1' H2']; [|done].
    assert (forall code, after (code ← cleanup_failure_or env m code; tx_lift (Err code) : Asking Ipv4Addr) s'
      (fun r s'' => match r with
        | Ok address => after (build_crab_mapping env m EsNatPmp (ip_v4 (ro_client route)) (ip_v4 address) None
            (ro_topology_fingerprint route)) s'' (fun _ s3 => since L (removals_proven own stored) s3)
        | Err _ => since L (removals_proven own stored) s''
        end)) as Hdrop.
    { intros code. pose proof (drop_granted (A := Ipv4Addr) own stored m code L s' H1' H2') as H. unfold after in *.
      unfold mbind, tx_bind, cleanup_failure_or, ask_router, tx_lift, mret, tx_ret in *. cbn in *. exact H. }
    destruct (ra_in_time a); [|by apply Hdrop]. destruct (ra_external_address a); [|by apply Hdrop].
    tx_step. by apply build_granted.
Qed.

Definition requested_entry (request : MappingRequest) (port : Z) (e : UpnpEntry) : Prop :=
  exists token, created_entry (mr_internal_port request)
    (mapping_description_with_token (mr_node_id request) (mr_revision request) token) port e.
Lemma create_proving request : proving (requested_entry request) None (create env request).
Proof.
  unfold create. apply proving_bind; [apply calm_proving, calm_route|intros route].
  apply proving_bind; [by apply calm_proving, calm_pure|intros port]. apply proving_bind; [by apply calm_proving, calm_asking|intros drawn].
  apply proving_bind; [apply proving_attempt, create_pcp_proving|intros pcp].
  destruct pcp; [by apply calm_proving, calm_pure|].
  apply proving_bind; [apply proving_attempt, create_nat_pmp_proving|intros nat_pmp].
  destruct nat_pmp; [by apply calm_proving, calm_pure|].
  apply proving_bind; [by apply calm_proving, calm_asking|intros token]. cbv zeta.
  apply proving_bind; [|intros []; by apply calm_proving, calm_pure].
  apply proving_attempt, create_upnp_proving. intros q entry He. by exists (ra_token token).
Qed.
(** A renewal removes nothing but a mapping that was its own answer. *)
Lemma renew_proving mapping : proving (fun _ _ => False) None (renew env mapping).
Proof.
  unfold renew. destruct (dm_source mapping); try (by apply calm_proving, calm_pure).
  - apply proving_bind; [apply calm_proving, calm_mapping_route|intros route].
    do 3 (apply proving_bind; [by apply calm_proving, calm_pure|intros ?]). apply create_pcp_proving.
  - apply proving_bind; [by apply calm_proving, calm_pure|intros ?].
    apply proving_bind; [apply calm_proving, calm_mapping_route|intros route].
    do 2 (apply proving_bind; [by apply calm_proving, calm_pure|intros ?]). apply create_nat_pmp_proving.
  - apply calm_proving. unfold renew_upnp. calm_step; [apply calm_mapping_route|]. calm_step; [calm|]. calm_step; [apply calm_gateway|].
    calm_step; [calm|]. calm_step; [apply calm_address|]. cbv zeta. calm_step; [apply calm_inspect|]. calm_step; [calm|].
    calm_step; [by apply calm_bounded|]. calm_step; [calm|]. calm_step; [apply calm_inspect|]. calm.
Qed.

(** ** What a failed [create] reports *)

Lemma select_failure_known failures : select_failure failures <> ReleaseFailed.
Proof.
  unfold select_failure. destruct (List.find _ preferred_failures) as [code|] eqn:E; [|done].
  apply List.find_some in E as [Hin _]. cbn in *. intros ->. repeat destruct Hin as [Hin|Hin]; done.
Qed.
(** Reports of failure, apart from one *)
Definition reporting {A} (op : Asking A) : Prop := forall s, after op s (fun r _ => r <> Err ReleaseFailed).
Lemma reporting_bind {A B} (op : Asking A) (f : A -> Asking B) :
  reporting op -> (forall a, reporting (f a)) -> reporting (op ≫= f).
Proof.
  intros H1 H2 s. tx_step. eapply after_mono; [apply H1|]. intros [a|e] s' He; [apply H2|].
  intros [= ->]. by apply He.
Qed.
Lemma reporting_ok_or {A} (o : option A) e : e <> ReleaseFailed -> reporting (tx_lift (ok_or o e)).
Proof. intros He s. apply after_lift. destruct o; cbn; congruence. Qed.
Lemma reporting_ensure b e : e <> ReleaseFailed -> reporting (tx_lift (ensure b e)).
Proof. intros He s. apply after_lift. destruct b; cbn; congruence. Qed.
Lemma reporting_ask call : reporting (ask_router env call).
Proof. done. Qed.
Lemma reporting_ret {A} (a : A) : reporting (mret a).
Proof. done. Qed.
Lemma reporting_attempt {A} (op : Asking A) : reporting (attempt_tx op).
Proof. intros s. apply after_attempt, after_any. done. Qed.
Lemma create_reporting request : reporting (create env request).
Proof.
  unfold create. apply reporting_bind.
  { unfold discover_default_route. apply reporting_bind; [apply reporting_ask|intros a].
    apply reporting_bind; [by apply reporting_ok_or|intros interface]. apply reporting_bind; [by apply reporting_ensure|intros _].
    apply reporting_bind; [by apply reporting_ok_or|intros device]. apply reporting_bind; [by apply reporting_ok_or|intros gateway].
    apply reporting_bind; [by apply reporting_ok_or|intros network]. apply reporting_ret. }
  intros route. apply reporting_bind; [intros s; unfold nonzero; by destruct (negb _)|intros port].
  apply reporting_bind; [apply reporting_ask|intros drawn].
  apply reporting_bind; [apply reporting_attempt|intros [mapping|pcp]]; [apply reporting_ret|].
  apply reporting_bind; [apply reporting_attempt|intros [mapping|nat_pmp]]; [apply reporting_ret|].
  apply reporting_bind; [apply reporting_ask|intros token]. cbv zeta.
  apply reporting_bind; [apply reporting_attempt|intros [mapping|upnp]]; [apply reporting_ret|].
  intros s. apply after_lift. intros [= E]. by eapply select_failure_known.
Qed.
End Facts.
