(* ===== verification/RouterTheorems.v ===== *)
(** * The router mapping keeps its promises

    Runs of the supervisor over any router and any clock: what is advertised,
    what is touched on the router, how leases end, and two ways in which the
    supervisor does not do what it should. *)
From S2P Require Import Prelude Text Clock ProtoTypes ProtoInstances ProtoAuth ProtoTranscript ProtoNode ProtoNodeFacts ProtoTelemetry.
From S2P Require Import NodeHostDb NodeHostRuntime NodeHostFacts Transaction NodePolicy NodePolicyFacts NodeTelemetryFacts PolicyTheorems.
From S2P Require Import RouterProtocol RouterMapping RouterMappingFacts RouterProtocolFacts.
From stdpp Require Import sorting.
Open Scope Z_scope.

(** ** Runs *)

(** What migrations 9 and 10 leave *)
Definition initial_mapper : Mapper := mkMapper (Some (mkNetworkPolicy false None None None)) [] 0 None 0 [].

Section Runs.
Context `{Ids : UuidText}.

(** An operation, with an outside whose router protocols keep their contract; a
    restart of the service forgets the backoff *)
Inductive mapper_step (m : Mapper) : Mapper -> Prop :=
| step_reconcile env target : (forall k, BackendLaws (mw_backend (env k))) -> mapper_step m (reconcile env target m).2
| step_shutdown env : (forall k, BackendLaws (mw_backend (env k))) -> mapper_step m (shutdown env m).2
| step_bootstrap env enabled : mapper_step m (configure_bootstrap_policy env enabled m).2
| step_restart : mapper_step m (set_backoff 0 None m).
Definition mapper_reaches (m : Mapper) : Prop := rtc mapper_step initial_mapper m.

Lemma initial_ok : mapper_ok initial_mapper.
Proof. split; cbn; try done; [by intros row ?%elem_of_nil|lia|]. intros policy [= <-]. done. Qed.
Lemma mapper_step_moved m m' : mapper_ok m -> mapper_step m m' -> moved m m'.
Proof.
  intros Hok [env target H|env H|env enabled|].
  - by apply reconcile_moving.
  - by apply shutdown_moving.
  - by apply (bootstrap_moving env (R:=moved)).
  - by apply (backoff_moving (R:=moved) (fun _ => 0) (fun _ => None) m).
Qed.
Lemma mapper_steps_moved m m' : mapper_ok m -> rtc mapper_step m m' -> moved m m'.
Proof.
  intros Hok H. induction H as [m|m n m' S _ IH]; [reflexivity|]. pose proof (mapper_step_moved _ _ Hok S) as M.
  etrans; [exact M|]. by apply IH, M.
Qed.
Lemma reaches_ok m : mapper_reaches m -> mapper_ok m.
Proof. intros H. apply (mapper_steps_moved initial_mapper m initial_ok H), initial_ok. Qed.

(** ** Leases *)

Lemma table_step_ended l l' row : table_step l l' -> row ∈ l -> is_current (le_state row) = false -> row ∈ l'.
Proof.
  intros [l1 old new l2 [Hm _]|l1 new _ _] Hr Hc; [|apply elem_of_app; by left].
  apply elem_of_app in Hr as [Hr|Hr]; [apply elem_of_app; by left|]. apply elem_of_app. right.
  apply elem_of_cons in Hr as [->|Hr]; [|by right]. by destruct (le_state old), (le_state new).
Qed.

(** C32: A lease has one life. Whatever the router, the clocks and SQLite do, a run
    changes the table of leases only by steps of the lifecycle: a new lease starts
    active, and only when no other is active or being released; a lease moves from
    active to releasing, released or abandoned and from releasing to released or
    abandoned, its ports, addresses and ownership material never change, and once it
    has ended its row stays as it is. *)
Theorem lease_lifecycle m m' :
  mapper_reaches m -> rtc mapper_step m m' ->
  rtc table_step (mp_leases m) (mp_leases m') /\
  (length (current_rows m') <= 1)%nat /\
  forall row, row ∈ mp_leases m -> is_current (le_state row) = false -> row ∈ mp_leases m'.
Proof.
  intros Hm%reaches_ok H. pose proof (mapper_steps_moved _ _ Hm H) as M. split; [apply M|]. split; [apply mk_one; by apply M|].
  destruct M as [_ T _]. induction T as [l|l l1 l2 S _ IH]; [done|]. intros row Hr Hc. apply IH; [|done].
  by eapply table_step_ended.
Qed.

(** ** Withdrawal *)

Lemma current_inactive m : load_current_mapping m = Ok None -> inactive m.
Proof.
  unfold load_current_mapping, inactive. destruct (current_rows m) as [|row rest] eqn:E; cbn; [|destruct (stored_mapping row); done].
  intros _. apply current_none in E. eapply Forall_impl; [done|]. intros row H Ha. cbn in H. by rewrite Ha in H.
Qed.
Lemma others_ended l1 row l2 :
  (length (List.filter (fun row => is_current (le_state row)) (l1 ++ row :: l2)) <= 1)%nat -> is_current (le_state row) = true ->
  Forall (fun r => le_state r <> LeaseActive) l1 /\ Forall (fun r => le_state r <> LeaseActive) l2.
Proof.
  rewrite current_app, length_app. cbn. intros H Hc. rewrite Hc in H. cbn in H.
  split; (eapply Forall_impl; [apply current_none, length_zero_iff_nil; lia|]); intros r Hr Ha; cbn in Hr; by rewrite Ha in Hr.
Qed.
Lemma current_updated missing id f m m' :
  mapper_ok m -> (forall row, is_current (le_state row) = true -> le_state (f row) <> LeaseActive) ->
  update_lease missing id is_current f m = Ok m' -> inactive m'.
Proof.
  intros Hok Hf (l1 & row & l2 & E & _ & Hc & _ & ->)%update_lease_Ok. unfold inactive. cbn.
  pose proof (mk_one _ Hok) as H1. unfold current_rows in H1. rewrite E in H1.
  destruct (others_ended _ _ _ H1 Hc). apply Forall_app; split; [done|]. apply Forall_cons; split; [|done]. by apply Hf.
Qed.
Lemma loaded_releasing m mapping :
  mapper_ok m -> load_current_mapping m = Ok (Some mapping) -> sm_releasing mapping = true -> inactive m.
Proof.
  intros Hok (row & rest & Er & Hs)%current_loaded Hr. apply stored_fields in Hs as (_ & Hs & _). rewrite Hr in Hs.
  symmetry in Hs. apply bool_decide_eq_true in Hs. pose proof (mk_one _ Hok) as H1.
  apply Forall_forall. intros x Hx E. assert (x ∈ current_rows m) as Hin.
  { unfold current_rows. rewrite list_elem_of_In, filter_In, <- list_elem_of_In, E. done. }
  rewrite Er in *. destruct rest; [|cbn in H1; lia]. apply list_elem_of_singleton in Hin as ->. congruence.
Qed.

(** Success means that no lease is left active *)
Definition withdraws {A} (op : Mapping A) (m : Mapper) : Prop := after op m (fun r m' => forall a, r = Ok a -> inactive m').
Lemma withdraws_bind {A B} (op : Mapping A) (f : A -> Mapping B) m :
  withdraws op m -> (forall a, moving stays_inactive anywhere (f a)) -> withdraws (op ≫= f) m.
Proof.
  intros H Hf. unfold withdraws in *. tx_step. eapply after_mono; [exact H|]. intros [a|e] m' Hm; [|done].
  eapply after_mono; [by apply Hf|]. intros r m'' Hs b _. by eapply Hs, Hm.
Qed.
Lemma withdraws_update env (g : Z -> Mapper -> host_result Mapper) m :
  (forall now m', g now (answered m) = Ok m' -> inactive m') -> withdraws (now ← open_now env; tx_execute (g now)) m.
Proof.
  intros H. unfold withdraws, open_now, after, mbind, tx_bind, ask_mapping, tx_lift.
  destruct (ensure _ _); [|done]. destruct (unix_seconds _) as [now|]; [|done]. cbn. unfold tx_execute.
  destruct (g now (answered m)) eqn:E; [|done]. cbn. intros ? _. by eapply H.
Qed.
Lemma release_withdraws env current m : mapper_ok m -> withdraws (release_current env current) m.
Proof.
  intros Hok. unfold release_current. apply withdraws_bind.
  - apply withdraws_update. intros now m'. apply current_updated; [|done]. by apply (kept_answered (R:=moved)).
  - intros _. moving. apply moving_write. intros m0 _ Hi0. exact Hi0.
Qed.
Lemma abandon_withdraws env id code m : mapper_ok m -> withdraws (abandon_without_release env id code) m.
Proof.
  intros Hok. apply withdraws_update. intros now m'. apply current_updated; [|done]. by apply (kept_answered (R:=moved)).
Qed.
Lemma withdraws_ask {A} env (f : MappingAnswer -> Mapping A) m :
  withdraws (f (env (mp_asked m))) (answered m) -> withdraws (ask_mapping env ≫= f) m.
Proof. done. Qed.
Lemma withdraws_ret {A B} (a : A) (f : A -> Mapping B) m : withdraws (f a) m -> withdraws (mret a ≫= f) m.
Proof. done. Qed.
Lemma drop_unwanted_withdraws env policy target mapping m :
  mapper_ok m -> load_current_mapping m = Ok (Some mapping) -> np_enabled policy = false \/ target = None ->
  withdraws (drop_unwanted env policy target (Some mapping)) m.
Proof.
  intros Hok Hl Hgone. unfold drop_unwanted.
  replace (sm_releasing mapping || negb (np_enabled policy) || negb (fits target mapping)) with true
    by (destruct Hgone as [->| ->]; cbn; by rewrite ?orb_true_r).
  destruct (sm_releasing mapping) eqn:Er.
  - unfold withdraws. pose proof (loaded_releasing m mapping Hok Hl Er) as Hi. eapply after_mono.
    + match goal with |- after ?op m _ => assert (moving stays_inactive anywhere op) as H; [|by apply H] end.
      moving. unfold release_current. moving. apply moving_write. intros m0 _ Hi0. exact Hi0.
    + intros r m' Hs a _. by apply Hs.
  - do 2 (apply withdraws_ret; cbn [negb]). apply withdraws_bind; [|intros ?; moving]. by apply release_withdraws.
Qed.
Lemma withdraws_load {A} env (f : _ -> Mapping A) m :
  (forall policy current node_id, load_policy m = Ok policy -> load_current_mapping m = Ok current ->
    withdraws (f (policy, current, node_id)) (answered m)) ->
  withdraws (load_supervision_state env ≫= f) m.
Proof.
  intros H. unfold withdraws in *. tx_step. eapply after_mono; [apply load_result|].
  intros [[[policy current] node_id]|e] m' [-> Hl]; [|done]. destruct (Hl _ _ _ eq_refl). by apply H.
Qed.
Lemma drop_foreign_withdraws env mapping m : mapper_ok m ->
  after (drop_foreign env (Some mapping)) m (fun r m' => forall kept, r = Ok kept ->
    (kept = Some mapping /\ m' = answered m) \/ (kept = None /\ inactive m')).
Proof.
  intros Hok. unfold drop_foreign. apply after_bind.
  cbn [ask_mapping after fst snd]. case_match; [intros kept [= <-]; by left|]. apply after_bind.
  eapply after_mono; [apply abandon_withdraws; by apply (kept_answered (R:=moved))|].
  intros [[]|e] m1 H1; [|done]. intros kept [= <-]. right. split; [done|]. by apply (H1 tt).
Qed.
Lemma reconcile_withdraws env target m :
  mapper_ok m -> (forall policy, load_policy m = Ok policy -> np_enabled policy = false \/ target = None) ->
  withdraws (reconcile env target) m.
Proof.
  intros Hok Hgone. apply withdraws_load. intros policy current node_id Hp Hc.
  assert ((if np_enabled policy then target else None) = None) as ->
    by (destruct (Hgone policy Hp) as [->| ->]; [done|by destruct (np_enabled policy)]).
  destruct current as [mapping|].
  2: { do 2 apply withdraws_ret. intros a _. by apply current_inactive. }
  unfold withdraws. apply after_bind. assert (mapper_ok (answered m)) as Hok1 by by apply (kept_answered (R:=moved)).
  eapply after_mono; [by apply drop_foreign_withdraws|]. intros [kept|e] m1 H1; [|done].
  destruct (H1 kept eq_refl) as [[-> ->]|[-> Hi]].
  - apply withdraws_bind; [|intros [kept|]; moving].
    apply drop_unwanted_withdraws; [by apply (kept_answered (R:=moved))|done|by apply Hgone].
  - apply withdraws_ret. intros a _. exact Hi.
Qed.
Lemma shutdown_withdraws env m : mapper_ok m -> withdraws (shutdown env) m.
Proof.
  intros Hok. apply withdraws_load. intros policy [mapping|] node_id _ Hc; [|intros a _; by apply current_inactive].
  apply withdraws_ask. assert (mapper_ok (answered (answered m))) as Hok2 by by do 2 apply (kept_answered (R:=moved)).
  case_match; [by apply abandon_withdraws|]. apply withdraws_bind; [by apply release_withdraws|intros ?; moving].
Qed.

(** ** What is advertised *)

Lemma try_map_Forall2 {E A B} (f : A -> result E B) l k : try_map f l = Ok k -> Forall2 (fun a b => f a = Ok b) l k.
Proof.
  revert k. induction l as [|a l IH]; intros k; cbn; [by intros [= <-]|]. intros H. inv_ok. constructor; [done|]. by apply IH.
Qed.
Lemma candidate_of_lease_Ok row c : candidate_of_lease row = Ok c ->
  ec_mode c = EmDirect /\ parse_source (le_source row) = Ok (ec_source c) /\ ec_address c = le_external_address row /\
  ec_port c = le_external_port row /\ ec_applied_revision c = le_applied_revision row /\
  ec_observed_at c = at_unix (le_lease_started_at row) /\ ec_expires_at c = Some (at_unix (le_lease_expires_at row)) /\
  id_from_str (le_endpoint_id row) = Ok (ec_endpoint_id c).
Proof.
  unfold candidate_of_lease, context, timestamp_from_unix. intros H. inv_ok.
  match goal with E : try_from _ _ = Some _ |- _ => apply try_from_Some in E as [-> _] end.
  match goal with E : positive_new _ = Ok _ |- _ => apply positive_new_Ok in E as [_ ->] end. done.
Qed.
Lemma publishable_probe ip : is_publishable_external_address ip = true ->
  exists octets, ip = V4 octets /\ is_public_probe_ipv4 (ipv4_of octets) = true.
Proof. destruct ip as [octets|]; [|done]. by exists octets. Qed.

(** The rows a heartbeat takes *)
Definition advertised_rows (m : Mapper) (now revision : Z) : list LeaseRow :=
  merge_sort endpoint_order (List.filter (fun row =>
    bool_decide (le_state row = LeaseActive) && (le_applied_revision row =? revision) && (now <? le_lease_expires_at row))
    (mp_leases m)).
Lemma advertised_row m now revision row : row ∈ advertised_rows m now revision <->
  row ∈ mp_leases m /\ le_state row = LeaseActive /\ le_applied_revision row = revision /\ now < le_lease_expires_at row.
Proof.
  unfold advertised_rows. rewrite (merge_sort_Permutation endpoint_order), list_elem_of_In, filter_In, <- list_elem_of_In.
  rewrite !andb_true_iff, bool_decide_eq_true, Z.eqb_eq, Z.ltb_lt. tauto.
Qed.
Lemma advertised_one m now revision : mapper_ok m -> (length (advertised_rows m now revision) <= 1)%nat.
Proof.
  intros Hok. unfold advertised_rows. rewrite (merge_sort_Permutation endpoint_order).
  etrans; [|apply (mk_one _ Hok)]. unfold current_rows.
  induction (mp_leases m) as [|row l IH]; cbn; [done|].
  destruct (bool_decide (le_state row = LeaseActive)) eqn:E; cbn.
  - apply bool_decide_eq_true in E. rewrite E. cbn. destruct ((_ =? _) && _); cbn; lia.
  - destruct (is_current (le_state row)); cbn; lia.
Qed.

Context `{Cal : Calendar} `{Day : DayFields} `{Json : PolicyJson}.

Lemma candidates_split db tables o m revision l :
  load_heartbeat_candidates db tables o m (Some revision) = Ok l ->
  exists manual mapped, load_manual_candidate db tables o revision = Ok manual /\
    l = match manual with Some c => [c] | None => [] end ++ mapped /\
    (mapped = [] \/ exists policy now, mp_policy m = Some policy /\ np_enabled policy = true /\ unix_seconds (ot_wall o) = Ok now /\
       Forall2 (fun row c => candidate_of_lease row = Ok c) (advertised_rows m now revision) mapped).
Proof.
  unfold load_heartbeat_candidates. intros H. inv_ok. exists x. destruct (np_enabled x0) eqn:Ee; cbn in H1.
  - inv_ok. eexists. split; [done|]. split; [done|]. right. exists x0, x1. apply try_map_Forall2 in H2.
    unfold load_policy in H0. inv_ok. by split_and!.
  - injection H1 as <-. exists []. split; [done|]. split; [by rewrite app_nil_r|by left].
Qed.

(** A mapped endpoint of a heartbeat *)
Record publishable (m : Mapper) (o : Outside) (revision : Z) (c : EndpointCandidate) : Prop := mkPublishable {
  pb_consent : exists policy, mp_policy m = Some policy /\ np_enabled policy = true /\ is_Some (np_consented_at policy);
  pb_mode : ec_mode c = EmDirect;
  pb_source : ec_source c ∈ [EsPcp; EsNatPmp; EsUpnp];
  pb_revision : ec_applied_revision c = revision;
  pb_port : 1 <= ec_port c <= 65535;
  pb_address : exists octets, ec_address c = ip_to_string (V4 octets) /\ is_public_probe_ipv4 (ipv4_of octets) = true;
  pb_lease : exists started expires, ec_observed_at c = at_unix started /\ ec_expires_at c = Some (at_unix expires) /\
    0 < expires - started <= 86400 /\ ot_wall o / NANOS < expires;
}.
Lemma row_publishable m o revision row c now :
  mapper_ok m -> (exists policy, mp_policy m = Some policy /\ np_enabled policy = true) -> unix_seconds (ot_wall o) = Ok now ->
  row ∈ advertised_rows m now revision -> candidate_of_lease row = Ok c -> publishable m o revision c.
Proof.
  intros Hok (policy & Hp & He) Hn (Hin & Hs & Hrev & Hexp)%advertised_row Hc.
  destruct (mk_rows _ Hok row Hin) as (Hrok & created & _ & [Hlife Haddr] & Hof).
  apply candidate_of_lease_Ok in Hc as (Hmode & Hsrc & Ha & Hport & Hr & Hob & Hex & _).
  destruct Hof as (Hw & _ & Hea & _ & _ & _ & _ & _ & Hlt). split.
  - exists policy. split_and!; [done..|by apply (mk_consent _ Hok)].
  - done.
  - rewrite (parse_wire _ _ _ Hw Hsrc). destruct (cm_source created); cbn in Hw; try done; set_solver.
  - congruence.
  - rewrite Hport. unfold lease_row_ok in Hrok. rewrite !andb_true_iff, !Z.leb_le in Hrok. intuition lia.
  - destruct (publishable_probe _ Haddr) as (octets & E & ?). exists octets. by rewrite Ha, Hea, E.
  - exists (le_lease_started_at row), (le_lease_expires_at row). split; [done|]. split; [done|].
    unfold valid_finite_lifetime, MAX_ACCEPTED_LEASE_SECONDS in Hlife. apply andb_true_iff in Hlife as [?%Z.ltb_lt ?%Z.leb_le].
    split; [lia|]. unfold unix_seconds in Hn. inv_ok. lia.
Qed.
(** What [load_heartbeat_candidates] offers: the provider's endpoint, and at most one mapping *)
Lemma candidates_publishable db tables o m revision l :
  mapper_ok m -> load_heartbeat_candidates db tables o m (Some revision) = Ok l ->
  exists manual mapped, load_manual_candidate db tables o revision = Ok manual /\
    l = match manual with Some c => [c] | None => [] end ++ mapped /\ (length mapped <= 1)%nat /\
    Forall (publishable m o revision) mapped.
Proof.
  intros Hok (manual & mapped & Hm & -> & Hmapped)%candidates_split. exists manual, mapped.
  split; [done|]. split; [done|]. destruct Hmapped as [->|(policy & now & Hp & He & Hn & Hall)]; [split; [cbn; lia|by constructor]|].
  pose proof (Forall2_length _ _ _ Hall) as Hl. pose proof (advertised_one m now revision Hok). split; [lia|].
  apply Forall_forall. intros c (i & Hi)%list_elem_of_lookup. destruct (Forall2_lookup_r _ _ _ _ _ Hall Hi) as (row & Hrow & Hc).
  apply list_elem_of_lookup_2 in Hrow. eapply row_publishable; eauto.
Qed.

(** C20: What the router's mapping adds to a heartbeat is safe to publish: at most
    one endpoint, only while the provider's recorded consent stands, for the
    revision that is applied, at an address of the public IPv4 space that the
    controller's probe accepts, and with a lease of at most a day that has not
    expired. *)
Theorem router_endpoint_publishable db tables o m revision l :
  mapper_reaches m -> load_heartbeat_candidates db tables o m (Some revision) = Ok l ->
  exists manual mapped, load_manual_candidate db tables o revision = Ok manual /\
    l = match manual with Some c => [c] | None => [] end ++ mapped /\ (length mapped <= 1)%nat /\
    Forall (publishable m o revision) mapped.
Proof. intros Hok%reaches_ok. by apply candidates_publishable. Qed.

(** An operation that withdraws leaves no active lease *)
Lemma run_withdraws env target m m' :
  mapper_reaches m ->
  (reconcile env target m = (Ok tt, m') /\ (target = None \/ np_enabled <$> mp_policy m = Some false)) \/
  shutdown env m = (Ok tt, m') ->
  inactive m'.
Proof.
  intros Hok%reaches_ok [[E Hgone]|E].
  - assert (withdraws (reconcile env target) m) as H; [|unfold withdraws, after in H; rewrite E in H; by apply (H tt)].
    apply reconcile_withdraws; [done|]. unfold load_policy. intros policy Hp. inv_ok.
    destruct Hgone as [->|H]; [by right|left]. rewrite Hp in H. by injection H.
  - pose proof (shutdown_withdraws env m Hok) as H. unfold withdraws, after in H. rewrite E in H. by apply (H tt).
Qed.
Lemma inactive_candidates m db tables o revision l :
  inactive m -> load_heartbeat_candidates db tables o m (Some revision) = Ok l ->
  exists manual, load_manual_candidate db tables o revision = Ok manual /\ l = match manual with Some c => [c] | None => [] end.
Proof.
  intros Hi (manual & mapped & Hm & -> & Hmapped)%candidates_split.
  exists manual. split; [done|]. destruct Hmapped as [->|(policy & now & _ & _ & _ & Hall)]; [apply app_nil_r|].
  replace (advertised_rows m now revision) with (@nil LeaseRow) in Hall; [inversion Hall; apply app_nil_r|].
  destruct (advertised_rows m now revision) as [|row rest] eqn:E; [done|]. exfalso.
  assert (row ∈ advertised_rows m now revision) as (Hin & Ha & _)%advertised_row by (rewrite E; left).
  unfold inactive in Hi. rewrite Forall_forall in Hi. by eapply Hi.
Qed.
End Runs.

(** ** What is touched on the router *)

Section Touched.
Context `{Ids : UuidText} `{Sha : Sha256}.

Lemma calls_ok_split later d c earlier :
  calls_ok (later ++ CalledRelease d :: earlier) \/ calls_ok (later ++ CalledRenew d c :: earlier) -> ours earlier d.
Proof. induction later as [|[] later IH]; cbn; tauto. Qed.
Lemma since_start P k : P [] -> since [] P (mkRouterState k []).
Proof. by exists []. Qed.
Lemma since_log P s : since [] P s -> P (rs_log s).
Proof. intros (new & -> & H). by rewrite app_nil_r. Qed.
Lemma nothing_removed own stored : removals_proven own stored [].
Proof. by intros [|? ?]. Qed.

(** C21: Only mappings of this node are touched. The supervisor renews and releases
    only what an earlier call made, by the stored proof of ownership. On the router,
    an UPnP entry is removed only after the same call read that entry under its port
    with this node's description, protocol and internal port; a PCP or NAT-PMP
    mapping is dropped only if the router gave it in answer to the same call, or, by
    a release, under the internal port and the nonce of the mapping to be released.
    A renewal removes no UPnP entry, and drops no mapping but one it was itself
    given. *)
Theorem only_owned_mappings_touched m env k :
  mapper_reaches m ->
  (forall later earlier d c,
     mp_calls m = later ++ CalledRelease d :: earlier \/ mp_calls m = later ++ CalledRenew d c :: earlier -> ours earlier d) /\
  (forall d, removals_proven (released_entry d) (Some d) (rs_log (release env d (mkRouterState k [])).2)) /\
  (forall request, removals_proven (requested_entry request) None (rs_log (create env request (mkRouterState k [])).2)) /\
  (forall d, removals_proven (fun _ _ => False) None (rs_log (renew env d (mkRouterState k [])).2)).
Proof.
  intros Hok%reaches_ok. split_and!.
  - intros later earlier d c H. eapply (calls_ok_split later d c). pose proof (mk_calls _ Hok) as Hc.
    destruct H as [E|E]; rewrite E in Hc; auto.
  - intros d. apply since_log. by apply release_proving, since_start, nothing_removed.
  - intros request. apply since_log. by apply create_proving, since_start, nothing_removed.
  - intros d. apply since_log. by apply renew_proving, since_start, nothing_removed.
Qed.
End Touched.

(** ** Failures that are not told *)

Section Reports.
Context `{Ids : UuidText} `{Sha : Sha256}.

(** A router that maps the port at a private address and does not drop the mapping *)
Definition home_interface : Interface :=
  mkInterface 2 "eth0" true true false false false
    (Some (mkGatewayDevice [mkIpv4 192 168 1 1] (replicate 6 "007"%byte)))
    [mkNetwork (mkIpv4 192 168 1 20) 24 (fun a => (oct0 a =? 192) && (oct1 a =? 168) && (oct2 a =? 1))].
Definition pcp_mapping (external : IpAddr) : PortMapping :=
  mkPortMapping (V4 [192; 168; 1; 1]) 443 443 3600 7 (TypePcp [1; 2; 3] external).
Definition pcp_router (external : IpAddr) (dropped : bool) : RouterAnswer :=
  mkRouterAnswer true true (Some home_interface) [1; 2; 3] (replicate 8 "001"%byte) (Ok (pcp_mapping external)) (Err NpTimeout)
    (Err NpTimeout) dropped (Err NoResponseWithinTimeout) None (Err ApRequest) (Err AaRequest) EntryFailed RemoveFailed.
Definition sample_request : MappingRequest := mkRequest (sample_uuid 1) 1 443.

(** [create] never says that it left a mapping behind. No answer of the router
    makes it report the code [mapping_release_failed], on which automatic attempts
    are to stop: [select_failure] does not know that code. A router that maps the
    port at a private address and does not drop the mapping is reported as a
    timeout, and is asked again. *)
Theorem cleanup_failure_unreported env request s :
  (create env request s).1 <> Err ReleaseFailed /\
  let '(r, s') := create (fun _ => pcp_router (V4 [10; 0; 0; 1]) false) sample_request (mkRouterState 0 []) in
  r = Err Timeout /\ AskDrop (pcp_mapping (V4 [10; 0; 0; 1])) ∈ rs_log s'.
Proof. split; [apply create_reporting|]. vm_compute. split; [done|]. set_solver. Qed.

(** Cycles, shutdowns and restarts, with nobody setting the node up again *)
Inductive cycle_step (m : Mapper) : Mapper -> Prop :=
| cycle_reconcile env target : cycle_step m (reconcile env target m).2
| cycle_shutdown env : cycle_step m (shutdown env m).2
| cycle_restart : cycle_step m (set_backoff 0 None m).
Definition same_tables (m m' : Mapper) : Prop :=
  mp_policy m' = mp_policy m /\ mp_leases m' = mp_leases m /\ mp_calls m' = mp_calls m.
Definition stopped (m : Mapper) : Prop :=
  (exists policy, mp_policy m = Some policy /\ np_last_error_code policy = Some (failure_as_str ReleaseFailed)) /\ current_rows m = [].
Lemma after_load {A} env (f : _ -> Mapping A) m (Q : host_result A -> Mapper -> Prop) :
  (forall e, Q (Err e) (answered m)) ->
  (forall policy current node_id, load_policy m = Ok policy -> load_current_mapping m = Ok current ->
    after (f (policy, current, node_id)) (answered m) Q) ->
  after (load_supervision_state env ≫= f) m Q.
Proof.
  intros He H. tx_step. eapply after_mono; [apply load_result|].
  intros [[[policy current] node_id]|e] m' [-> Hl]; [|done]. destruct (Hl _ _ _ eq_refl). by apply H.
Qed.
Lemma stopped_current m current : stopped m -> load_current_mapping m = Ok current -> current = None.
Proof. unfold load_current_mapping. intros [_ ->] [= <-]. done. Qed.
Lemma stopped_step m m' : stopped m -> cycle_step m m' -> same_tables m m'.
Proof.
  intros Hs [env target|env|].
  - apply (after_load env _ m (fun _ m' => same_tables m m')); [done|]. intros policy current node_id Hp Hc.
    apply (stopped_current _ _ Hs) in Hc as ->. cbn [drop_foreign drop_unwanted].
    destruct Hs as [(policy' & Ep & He) _]. unfold load_policy in Hp. rewrite Ep in Hp. injection Hp as <-.
    apply after_bind, after_ret, after_bind, after_ret. case_match; [|done].
    rewrite (bool_decide_eq_true_2 _ eq_refl), (bool_decide_eq_true_2 _ He). done.
  - apply (after_load env _ m (fun _ m' => same_tables m m')); [done|]. intros policy current node_id _ Hc.
    by apply (stopped_current _ _ Hs) in Hc as ->.
  - done.
Qed.
Lemma stopped_same m m' : stopped m -> same_tables m m' -> stopped m'.
Proof. unfold stopped, current_rows. by intros [? ?] (-> & -> & _). Qed.

(** After a release that failed nothing is asked of the router any more. When
    the last failure is [mapping_release_failed] and no lease is current, no number
    of cycles, shutdowns and restarts asks the router for anything or changes the
    policy or the leases; once the node is set up again, the failure is forgotten. *)
Theorem release_failure_stops_mapping m m' env enabled m'' :
  stopped m -> rtc cycle_step m m' ->
  same_tables m m' /\
  (configure_bootstrap_policy env enabled m' = (Ok tt, m'') ->
   exists policy, mp_policy m'' = Some policy /\ np_last_error_code policy = None /\ np_enabled policy = enabled).
Proof.
  intros Hs Hrun. split.
  - revert Hs. induction Hrun as [m|m n m' S _ IH]; [done|]. intros Hs. pose proof (stopped_step _ _ Hs S) as Hn.
    destruct (IH (stopped_same _ _ Hs Hn)) as (E1 & E2 & E3). destruct Hn as (F1 & F2 & F3). unfold same_tables. by rewrite E1, E2, E3.
  - unfold configure_bootstrap_policy, open_now, mbind, tx_bind, ask_mapping, tx_lift, tx_execute. destruct (ensure _ _); [|done].
    destruct (unix_seconds _) as [now|]; [|done]. cbn [fst snd]. destruct (update_policy _ _) as [m1|] eqn:E; [|done].
    intros [= <-]. unfold update_policy in E. destruct (mp_policy (answered m')); [|done]. inv_ok. eexists. split; [reflexivity|]. done.
Qed.
End Reports.

(** ** Witnesses *)

#[local] Instance sample_json : PolicyJson := one_policy_json sample_policy.

(** A home router that speaks PCP, at a public address; one that keeps its mappings;
    and another network *)
Definition rendered_db : Db := set_rendered {[ 1 := mkRendered EmptyString EmptyString EmptyString ]} applied_db.
Definition at_home (router : RouterAnswer) (seconds : Z) (k : nat) : MappingAnswer :=
  mkMappingAnswer true rendered_db (Some (uuid_to_string (sample_uuid 1))) (seconds * NANOS) seconds (sample_uuid 5) (sample_uuid 6)
    (system_backend (fun _ => router) 0).
Definition good_router : RouterAnswer := pcp_router (V4 [8; 8; 4; 4]) true.
Definition stubborn_router : RouterAnswer := pcp_router (V4 [8; 8; 4; 4]) false.
Definition no_router : RouterAnswer :=
  mkRouterAnswer true true None [] [] (Err PcpTimeout) (Err NpTimeout) (Err NpTimeout) false (Err NoResponseWithinTimeout) None
    (Err ApRequest) (Err AaRequest) EntryFailed RemoveFailed.
Definition consented : Mapper := (configure_bootstrap_policy (at_home good_router 1784507000) true initial_mapper).2.
Definition mapped : Mapper := (reconcile (at_home good_router 1784507300) (Some (mkMappingTarget 1 443)) consented).2.
Lemma consented_reached : mapper_reaches consented.
Proof. eapply rtc_once, step_bootstrap. Qed.
Lemma mapped_reached : mapper_reaches mapped.
Proof. eapply rtc_r; [exact consented_reached|]. apply step_reconcile. intros k. apply system_backend_laws. Qed.

(** The release fails, then the network changes. *)
Definition kept_mapping : Mapper := (reconcile (at_home stubborn_router 1784507500) None mapped).2.
Definition moved_away : Mapper := (reconcile (at_home no_router 1784507600) None kept_mapping).2.
Lemma kept_step : mapper_step mapped kept_mapping.
Proof. apply step_reconcile. intros k. apply system_backend_laws. Qed.
Lemma moved_away_run : rtc mapper_step mapped moved_away.
Proof. eapply rtc_l; [exact kept_step|]. apply rtc_once, step_reconcile. intros k. apply system_backend_laws. Qed.
Lemma lease_lifecycle_witness :
  rtc table_step (mp_leases mapped) (mp_leases moved_away) /\ (length (current_rows moved_away) <= 1)%nat.
Proof.
  destruct (lease_lifecycle mapped moved_away mapped_reached moved_away_run) as (T & L & _). exact (conj T L).
Defined.

Definition offered (r : host_result (list EndpointCandidate)) : list EndpointCandidate := match r with Ok l => l | Err _ => [] end.
Lemma offered_run r : offered r <> [] -> r = Ok (offered r).
Proof. by destruct r. Qed.
Definition heartbeat_endpoints (m : Mapper) : host_result (list EndpointCandidate) :=
  load_heartbeat_candidates applied_db (Some forwarded) in_july m (Some 1).
Lemma mapped_offered : heartbeat_endpoints mapped = Ok (offered (heartbeat_endpoints mapped)).
Proof. apply offered_run. vm_compute. discriminate. Qed.
Lemma router_endpoint_publishable_witness :
  length (offered (heartbeat_endpoints mapped)) = 2%nat /\
  exists manual mapped_endpoints, load_manual_candidate applied_db (Some forwarded) in_july 1 = Ok manual /\
    offered (heartbeat_endpoints mapped) = match manual with Some c => [c] | None => [] end ++ mapped_endpoints /\
    (length mapped_endpoints <= 1)%nat.
Proof.
  split; [vm_compute; reflexivity|].
  destruct (router_endpoint_publishable applied_db (Some forwarded) in_july mapped 1 _ mapped_reached mapped_offered)
    as (manual & l & Hm & E & L & _). exists manual, l. exact (conj Hm (conj E L)).
Defined.

Lemma paused_run : reconcile (at_home stubborn_router 1784507500) None mapped = (Ok tt, kept_mapping).
Proof. vm_compute. reflexivity. Qed.
Lemma kept_calls : exists d, mp_calls kept_mapping = [] ++ CalledRelease d :: mp_calls mapped.
Proof. eexists. vm_compute. reflexivity. Qed.
Lemma only_owned_mappings_touched_witness : exists d, CalledRelease d ∈ mp_calls kept_mapping /\ ours (mp_calls mapped) d.
Proof.
  destruct kept_calls as [d E]. exists d. split; [rewrite E; left|].
  exact (proj1 (only_owned_mappings_touched kept_mapping (fun _ => good_router) 0 (rtc_r _ _ _ mapped_reached kept_step))
    [] (mp_calls mapped) d None (or_introl E)).
Defined.

Lemma moved_away_stopped : stopped moved_away.
Proof. split; [eexists; split|]; vm_compute; reflexivity. Qed.
Lemma release_failure_stops_mapping_witness :
  same_tables moved_away (reconcile (at_home good_router 1784600000) (Some (mkMappingTarget 1 443)) moved_away).2.
Proof.
  exact (proj1 (release_failure_stops_mapping moved_away _ (at_home good_router 0) true moved_away moved_away_stopped
    (rtc_once _ _ (cycle_reconcile moved_away (at_home good_router 1784600000) (Some (mkMappingTarget 1 443)))))).
Defined.
