(* ===== verification/NodeHeartbeat.v ===== *)
(** * Heartbeats of a node host

    [src/node-host/src/sync.rs] (building and sending a heartbeat),
    [controller_status.rs] (the controller's signed answer) and the registration
    of [lib.rs]. A heartbeat reads the tables of the other components: the
    revisions, the provider's policy, the router's leases and the telemetry. What
    the controller returns is an answer of the outside; [serde_json] on heartbeats
    and on their answers is a parameter. *)
From S2P Require Import Prelude Text Clock ProtoTypes ProtoAuth ProtoNode ProtoSigned NodeHostDb NodeHostSync Transaction.
From S2P Require Import NodePolicy NodeTelemetry RouterProtocol RouterMapping.
Open Scope Z_scope.

(** ** The registration *)

(** [RegistrationRecord], the row of [enrollment_registration] *)
Record RegistrationRecord : Type := mkRegistrationRecord {
  rg_invitation_id : string;
  rg_network_id : string;
  rg_node_id : string;
  rg_controller_instance_id : string;
  rg_controller_fingerprint : string;
  rg_controller_signing_public_key : string;
  rg_credential_key_id : string;
  rg_credential_mode : string;
  rg_credential_expires_at : string;
}.
(** [SignedNodeHeartbeatStatus] *)
Record SignedNodeHeartbeatStatus : Type := mkSignedStatus { ss_document : NodeHeartbeatStatus; ss_signature : string }.

(** [serde_json] *)
Class HeartbeatJson : Type := {
  heartbeat_to_vec : NodeHeartbeat -> option (list byte);
  status_from_slice : list byte -> option SignedNodeHeartbeatStatus;
  status_to_string : SignedNodeHeartbeatStatus -> option string;
  status_from_str : string -> option SignedNodeHeartbeatStatus;
}.
(** What the code relies on: an answer it wrote is read back *)
Class HeartbeatJsonLaws (J : HeartbeatJson) : Prop := {
  status_read_back e s : status_to_string e = Some s -> status_from_str s = Some e;
}.

(** ** State *)

(** [StoredControllerStatus], the row of [controller_status_state] *)
Record StatusRow : Type := mkStatusRow {
  cs_schema_version : Z;
  cs_heartbeat_generation : Z;
  cs_node_id : string;
  cs_controller_instance_id : string;
  cs_signing_key_id : string;
  cs_observed_at : string;
  cs_envelope_json : string;
  cs_envelope_digest : string;
  cs_transcript_digest : string;
}.
(** The constraints of its table; digests have the form [digest_from_bytes] gives *)
Definition status_row_ok (r : StatusRow) : bool :=
  (cs_schema_version r =? 1) && (0 <? cs_heartbeat_generation r) && text_within 36 36 (cs_node_id r)
  && text_within 36 36 (cs_controller_instance_id r) && text_within 36 36 (cs_signing_key_id r)
  && text_within 20 64 (cs_observed_at r) && text_within 2 65536 (cs_envelope_json r).

(** [control_sync_state] and [controller_status_state]; [bt_sent] is not stored: the
    heartbeats whose request was made, the last first *)
Record Beat : Type := mkBeat {
  bt_generation : Z;
  bt_last_heartbeat_at : option Z;
  bt_status : option StatusRow;
  bt_sent : list NodeHeartbeat;
}.
Definition set_generation g b := mkBeat g (bt_last_heartbeat_at b) (bt_status b) (bt_sent b).
Definition set_heartbeat_at at_ b := mkBeat (bt_generation b) (Some at_) (bt_status b) (bt_sent b).
Definition set_status_row row b := mkBeat (bt_generation b) (bt_last_heartbeat_at b) (Some row) (bt_sent b).
Definition sent h b := mkBeat (bt_generation b) (bt_last_heartbeat_at b) (bt_status b) (h :: bt_sent b).
(** Migrations 3, 8 and 11 *)
Definition initial_beat : Beat := mkBeat 0 None None [].

(** What the other components have stored *)
Record HostTables : Type := mkHostTables {
  ht_db : Db;
  ht_provider : option Provider;
  ht_mapper : Mapper;
  ht_telemetry : option Telemetry;
}.
(** [RuntimeHeartbeatSnapshot] *)
Record RuntimeHeartbeatSnapshot : Type := mkSnapshot {
  rh_runtime_state : NodeRuntimeState;
  rh_relay_candidate : option EndpointCandidate;
}.
(** What the outside answers while one heartbeat is sent: whether SQLite works for
    each statement, the clock at each reading, and the controller *)
Record BeatAnswer : Type := mkBeatAnswer {
  ba_update_works : bool;
  ba_select_works : bool;
  ba_policy : Outside;
  ba_candidates : Outside;
  ba_requested : host_result unit;
  ba_status : Z;
  ba_is_json : bool;
  ba_body : host_result (list byte);
  ba_stored : Outside;
}.

Section Heartbeat.
Context `{U : UuidText} `{R : Rfc3339} `{B : Base64} `{Sha : Sha256} `{Ed : Ed25519}.
Context `{Cal : Calendar} `{Day : DayFields} `{PJson : PolicyJson} `{HJson : HeartbeatJson}.

(** [load_sync_registration], with the identity of the credential *)
Definition load_sync_registration (registration : option RegistrationRecord) (now : OffsetDateTime)
    : host_result (SyncRegistration * NodeKeyId) :=
  registration ← present_or "node host is not enrolled" registration;
  _ ← ensure (bool_decide (rg_credential_mode registration = "signedRequest"%string))
        (Bail "node host credential mode is not supported for outbound sync");
  credential_expires_at ← map_err (fun _ => Wrap "stored credential expiry is invalid" System)
                            (timestamp_from_str (rg_credential_expires_at registration));
  _ ← ensure (negb (time_le credential_expires_at now)) (Bail "node host credential has expired");
  network ← map_err (fun _ => Wrap "stored network ID is invalid" System) (id_from_str (rg_network_id registration));
  node ← map_err (fun _ => Wrap "stored node ID is invalid" System) (id_from_str (rg_node_id registration));
  controller ← map_err (fun _ => Wrap "stored controller instance ID is invalid" System)
                 (id_from_str (rg_controller_instance_id registration));
  public_key ← map_err (fun _ => Wrap "stored controller signing public key is invalid" System)
                 (fixed_base64url 32 (rg_controller_signing_public_key registration));
  key ← map_err (fun _ => Wrap "stored credential key ID is invalid" System) (id_from_str (rg_credential_key_id registration));
  Ok (mkRegistration network node controller public_key, key).

(** ** The controller's answer *)

(** [ControllerTrust] *)
Record ControllerTrust : Type := mkTrust {
  ct_node_id : NodeId;
  ct_controller_instance_id : ControllerInstanceId;
  ct_signing_public_key : string;
}.
Definition registration_trust (r : SyncRegistration) : ControllerTrust :=
  mkTrust (sg_node r) (sg_controller_instance r) (sg_controller_signing_public_key r).

(** [verify_envelope] *)
Definition verify_envelope (trust : ControllerTrust) (heartbeat_generation : Z) (envelope : SignedNodeHeartbeatStatus)
    : host_result (list byte) :=
  _ ← validated "controller heartbeat status document failed validation"
        (status_validate_for (ss_document envelope) (ct_node_id trust) heartbeat_generation (ct_controller_instance_id trust));
  expected_signing_key_id ← map_err (fun _ => Wrap "pinned controller signing public key is invalid" System)
                              (ed25519_signing_key_id (ct_signing_public_key trust));
  _ ← ensure (bool_decide (hs_signing_key_id (ss_document envelope) = expected_signing_key_id))
        (Bail "controller heartbeat status signing key identity is invalid");
  _ ← map_err (fun _ => Wrap "controller heartbeat status signature is invalid" System)
        (verify_node_heartbeat_status_signature (ss_document envelope) (ss_signature envelope) (ct_signing_public_key trust));
  map_err (fun _ => Wrap "controller heartbeat status transcript is invalid" System)
    (node_heartbeat_status_transcript (ss_document envelope)).

(** The row of an answer *)
Definition status_row (document : NodeHeartbeatStatus) (envelope_json : string) (transcript : list byte) : StatusRow :=
  mkStatusRow (hs_schema_version document) (hs_heartbeat_generation document) (uuid_to_string (hs_node_id document))
    (uuid_to_string (hs_controller_instance_id document)) (uuid_to_string (hs_signing_key_id document))
    (rfc3339_format (hs_observed_at document)) envelope_json (protocol_digest (as_bytes envelope_json))
    (protocol_digest transcript).

(** [controller_status::persist_verified] *)
Definition store_status (row : StatusRow) (b : Beat) : host_result Beat :=
  _ ← ensure (status_row_ok row) Sqlite;
  _ ← ensure (negb (some_and (bt_status b) (fun stored => cs_heartbeat_generation row <? cs_heartbeat_generation stored)))
        (Bail "controller heartbeat status changed during persistence");
  Ok (set_status_row row b).
Definition persist_verified (registration : SyncRegistration) (o : Outside) (heartbeat_generation : Z) (body : list byte)
    : Tx Beat HostError unit :=
  envelope ← tx_lift (ok_or (status_from_slice body) (Wrap "controller returned invalid heartbeat-status JSON" Serde));
  transcript ← tx_lift (verify_envelope (registration_trust registration) heartbeat_generation envelope);
  envelope_json ← tx_lift (ok_or (status_to_string envelope) (Wrap "failed to encode controller status artifact" Serde));
  now ← tx_lift (unix_seconds (ot_wall o));
  transaction Sqlite (ot_database o)
    (previous_generation ← tx_read (fun b => cs_heartbeat_generation <$> bt_status b);
     _ ← tx_lift (ensure (negb (some_and previous_generation (fun previous => heartbeat_generation <? previous)))
           (Bail "controller heartbeat status generation regressed"));
     _ ← tx_execute (store_status (status_row (ss_document envelope) envelope_json transcript));
     tx_write (set_heartbeat_at now)).

(** [controller_status::verify_stored] *)
Definition verify_stored (trust : ControllerTrust) (stored : StatusRow) : host_result NodeHeartbeatStatus :=
  _ ← ensure (bool_decide (protocol_digest (as_bytes (cs_envelope_json stored)) = cs_envelope_digest stored))
        (Bail "stored controller status artifact digest is invalid");
  envelope ← ok_or (status_from_str (cs_envelope_json stored)) (Wrap "stored controller status artifact is invalid" Serde);
  canonical_envelope ← ok_or (status_to_string envelope) (Wrap "stored controller status cannot be encoded" Serde);
  _ ← ensure (bool_decide (canonical_envelope = cs_envelope_json stored))
        (Bail "stored controller status artifact is not canonical");
  heartbeat_generation ← map_err (fun _ => Wrap "stored controller status generation is invalid" System)
                           (non_negative_new (cs_heartbeat_generation stored));
  transcript ← context "stored controller status failed verification" (verify_envelope trust heartbeat_generation envelope);
  let document := ss_document envelope in
  _ ← ensure (negb (negb (cs_schema_version stored =? hs_schema_version document)
                    || negb (bool_decide (cs_node_id stored = uuid_to_string (hs_node_id document)))
                    || negb (bool_decide (cs_controller_instance_id stored = uuid_to_string (hs_controller_instance_id document)))
                    || negb (bool_decide (cs_signing_key_id stored = uuid_to_string (hs_signing_key_id document)))
                    || negb (bool_decide (cs_observed_at stored = rfc3339_format (hs_observed_at document)))
                    || negb (bool_decide (protocol_digest transcript = cs_transcript_digest stored))))
        (Bail "stored controller status metadata is inconsistent");
  Ok document.
(** [controller_status::load_verified]; a database without the table is [None] *)
Definition load_verified (table : option (option StatusRow)) (user_version : Z) (registration : option RegistrationRecord)
    : host_result (option NodeHeartbeatStatus) :=
  match table with
  | None => _ ← ensure (user_version <? 11) (Bail "verified controller status table is missing"); Ok None
  | Some None => Ok None
  | Some (Some stored) =>
      registration ← present_or "stored controller status has no enrollment registration" registration;
      node_id ← map_err (fun _ => Wrap "stored node ID is invalid" System) (id_from_str (rg_node_id registration));
      controller ← map_err (fun _ => Wrap "stored controller instance ID is invalid" System)
                     (id_from_str (rg_controller_instance_id registration));
      public_key ← map_err (fun _ => Wrap "stored controller signing public key is invalid" System)
                     (fixed_base64url 32 (rg_controller_signing_public_key registration));
      document ← verify_stored (mkTrust node_id controller public_key) stored;
      Ok (Some document)
  end.

(** ** The heartbeat *)

(** [configured_xray_version] *)
Definition configured_xray_version (db : Db) : option string := rt_version <$> runtime db.

(** [current_heartbeat_with_relay] *)
Definition current_heartbeat_with_relay (t : HostTables) (policy_clock candidates_clock : Outside) (desired_revision_cursor : Z)
    (runtime_state : NodeRuntimeState) (heartbeat_generation : Z) (relay_candidate : option EndpointCandidate)
    : host_result NodeHeartbeat :=
  advertising ← allows_advertising (ht_db t) (ht_provider t) (now_utc policy_clock);
  let runtime_state := if advertising : bool then runtime_state else RunProviderPaused in
  revisions ← load_progress (ht_db t) desired_revision_cursor;
  let serving := bool_decide (runtime_state = RunServing) in
  endpoints ← (if serving then
                 load_heartbeat_candidates (ht_db t) (ht_provider t) candidates_clock (ht_mapper t) (applied_revision revisions)
               else Ok []);
  endpoints ← match (if serving then relay_candidate else None) with
              | Some candidate =>
                  _ ← ensure (bool_decide (Some (ec_applied_revision candidate) = applied_revision revisions))
                        (Bail "relay candidate revision does not match the active Xray revision");
                  Ok (endpoints ++ [candidate])
              | None => Ok endpoints
              end;
  telemetry_cursor ← highest_sequence (ht_telemetry t);
  let heartbeat := mkHeartbeat heartbeat_generation CARGO_PKG_VERSION (configured_xray_version (ht_db t)) runtime_state revisions
                     (bool_decide (runtime_state = RunProviderPaused)) endpoints telemetry_cursor in
  _ ← validated "generated node heartbeat is invalid" (heartbeat_validate heartbeat);
  Ok heartbeat.

(** [allocate_heartbeat_generation] *)
Definition allocate_heartbeat_generation (update_works select_works : bool) : Tx Beat HostError Z :=
  _ ← tx_execute (fun b =>
        _ ← ensure update_works Sqlite;
        _ ← ensure (bt_generation b <? i64_max) (Bail "heartbeat generation is exhausted or sync state is missing");
        Ok (set_generation (bt_generation b + 1) b));
  _ ← tx_lift (ensure select_works Sqlite);
  value ← tx_read bt_generation;
  tx_lift (map_err (fun _ => Wrap "stored heartbeat generation is invalid" System) (non_negative_new value)).

(** [persist_heartbeat_success] *)
Definition persist_heartbeat_success (o : Outside) : Tx Beat HostError unit :=
  now ← tx_lift (unix_seconds (ot_wall o));
  _ ← tx_lift (ensure (ot_database o) Sqlite);
  tx_write (set_heartbeat_at now).

(** [send_heartbeat] *)
Definition send_heartbeat (registration : SyncRegistration) (t : HostTables) (desired_revision_cursor : Z)
    (snapshot : RuntimeHeartbeatSnapshot) (a : BeatAnswer) : Tx Beat HostError unit :=
  heartbeat_generation ← allocate_heartbeat_generation (ba_update_works a) (ba_select_works a);
  heartbeat ← tx_lift (current_heartbeat_with_relay t (ba_policy a) (ba_candidates a) desired_revision_cursor
                (rh_runtime_state snapshot) heartbeat_generation (rh_relay_candidate snapshot));
  _ ← tx_lift (ok_or (heartbeat_to_vec heartbeat) (Wrap "failed to serialize node heartbeat" Serde));
  _ ← tx_write (sent heartbeat);
  _ ← tx_lift (context "controller heartbeat request failed" (ba_requested a));
  body ← tx_lift (ba_body a);
  _ ← tx_lift (ensure ((200 <=? ba_status a) && (ba_status a <? 300)) (Bail "controller rejected heartbeat"));
  if ba_status a =? 204 then
    if bool_decide (body = []) then persist_heartbeat_success (ba_stored a)
    else tx_lift (Err (Bail "controller returned a body with no heartbeat status"))
  else if ba_status a =? 200 then
    if ba_is_json a then persist_verified registration (ba_stored a) heartbeat_generation body
    else tx_lift (Err (Bail "controller heartbeat-status response is not JSON"))
  else tx_lift (Err (Bail "controller returned unexpected heartbeat success status")).
End Heartbeat.
