(* ===== verification/HeartbeatTheorems.v ===== *)
(** * What a node's heartbeats say

    A heartbeat brings the components of a node together: the revision that is
    active, the provider's policy, the router's lease and the relay's candidate.
    These theorems say when endpoints are offered at all, that a generation
    names one heartbeat, that the controller's answer is stored only when it is
    verified and is then always read back, and a configuration in which no
    heartbeat is sent any more. *)
From S2P Require Import Prelude Text Clock ProtoTypes ProtoInstances ProtoAuth ProtoTranscript ProtoNode ProtoNodeFacts ProtoSigned ProtoTelemetry.
From S2P Require Import NodeHostDb NodeHostRuntime NodeHostFacts NodeHostSync NodeHostSamples Transaction NodePolicy NodePolicyFacts NodeTelemetry NodeTelemetryFacts.
From Stdlib Require Import Sorting.Sorted.
From S2P Require Import PolicyTheorems RouterProtocol RouterMapping RouterMappingFacts RouterProtocolFacts RouterTheorems NodeHeartbeat.
Open Scope Z_scope.

Section Theorems.
Context `{U : UuidText} `{R : Rfc3339} `{B : Base64} `{Sha : Sha256} `{Ed : Ed25519}.
Context `{Cal : Calendar} `{Day : DayFields} `{PJson : PolicyJson} `{HJson : HeartbeatJson}.

(** ** Endpoints *)

(** The parts of a heartbeat *)
Lemma heartbeat_parts t po co cursor state generation relay h :
  current_heartbeat_with_relay t po co cursor state generation relay = Ok h ->
  hb_generation h = generation /\ heartbeat_validate h = Ok tt /\ load_progress (ht_db t) cursor = Ok (hb_revisions h) /\
  exists advertising, allows_advertising (ht_db t) (ht_provider t) (now_utc po) = Ok advertising /\
    hb_state h = (if advertising : bool then state else RunProviderPaused) /\
    (hb_state h = RunServing -> exists l,
       load_heartbeat_candidates (ht_db t) (ht_provider t) co (ht_mapper t) (applied_revision (hb_revisions h)) = Ok l /\
       hb_endpoints h = l ++ match relay with Some c => [c] | None => [] end) /\
    (hb_state h <> RunServing -> hb_endpoints h = []).
Proof.
  unfold current_heartbeat_with_relay, validated. cbv zeta. intros H. inv_ok. cbn [hb_generation hb_revisions hb_state hb_endpoints].
  split; [done|]. split; [done|]. split; [done|]. exists x. split; [done|]. split; [done|]. split.
  - intros E. rewrite (bool_decide_eq_true_2 _ E) in *. exists x1. split; [done|].
    destruct relay; inv_ok; [done|by rewrite app_nil_r].
  - intros E. rewrite (bool_decide_eq_false_2 _ E) in *. by inv_ok.
Qed.
Lemma progress_applied db cursor p revision :
  load_progress db cursor = Ok p -> applied_revision p = Some revision -> ac_applied_revision (active db) = Some revision.
Proof.
  unfold load_progress, optional_revision. intros H. inv_ok. cbn. intros ->. clear -H3.
  destruct (ac_applied_revision (active db)) as [r|]; cbn in *; [|done]. destruct (r =? 0); [done|]. inv_ok.
  match goal with E : positive_new _ = Ok _ |- _ => apply positive_new_Ok in E as [_ ->] end. done.
Qed.
Lemma advertising_open db tables now p :
  allows_advertising db tables now = Ok true -> tables = Some p ->
  provider_open p (to_unix now).
Proof.
  intros H ->. cbn in H. inv_ok. apply bool_decide_eq_true in H0. by eapply status_open.
Qed.
Lemma validated_endpoints h : heartbeat_validate h = Ok tt ->
  Forall (fun c => Some (ec_applied_revision c) = applied_revision (hb_revisions h)) (hb_endpoints h).
Proof.
  unfold heartbeat_validate. intros H. validates in H. destruct_and? H. eapply Forall_impl; [eassumption|].
  intros c Hc. validates in Hc. tauto.
Qed.

(** C9: A node offers endpoints only when it should. A heartbeat is valid by the
    protocol's own rules; it has endpoints only while the node serves, the provider
    has not paused it, and at the effective time, the later of now and the latest
    time the tables have seen, the schedule is open and the cap of that month is not
    used up; then they are the provider's own endpoint, at most one mapping at a public address
    whose lease runs, and the relay's candidate, all of the revision that is
    active. *)
Theorem heartbeat_endpoints_safe t po co cursor state generation relay h :
  mapper_reaches (ht_mapper t) ->
  current_heartbeat_with_relay t po co cursor state generation relay = Ok h ->
  heartbeat_validate h = Ok tt /\ hb_generation h = generation /\
  (hb_endpoints h <> [] ->
    state = RunServing /\ hb_state h = RunServing /\
    (forall p, ht_provider t = Some p -> provider_open p (ot_wall po / NANOS)) /\
    exists revision manual mapped, ac_applied_revision (active (ht_db t)) = Some revision /\
      Forall (fun c => ec_applied_revision c = revision) (hb_endpoints h) /\
      load_manual_candidate (ht_db t) (ht_provider t) co revision = Ok manual /\
      hb_endpoints h = match manual with Some c => [c] | None => [] end ++ mapped ++ match relay with Some c => [c] | None => [] end /\
      (length mapped <= 1)%nat /\ Forall (publishable (ht_mapper t) co revision) mapped).
Proof.
  intros Hok%reaches_ok (Hg & Hv & Hp & advertising & Ha & Hst & Hs & Hn)%heartbeat_parts. split; [done|]. split; [done|]. intros He.
  destruct (decide (hb_state h = RunServing)) as [E|E]; [|by destruct He; apply Hn].
  destruct advertising; [|by rewrite E in Hst]. split; [congruence|]. split; [done|].
  split; [intros p Hpr; by apply (advertising_open _ _ (now_utc po) p Ha)|].
  destruct (Hs E) as (l & Hl & El). pose proof (validated_endpoints h Hv) as Hrev.
  destruct (applied_revision (hb_revisions h)) as [revision|] eqn:Er.
  2: { exfalso. destruct (hb_endpoints h); [done|]. by apply Forall_cons in Hrev as [? _]. }
  destruct (candidates_publishable _ _ _ _ _ _ Hok Hl) as (manual & mapped & Hm & -> & Hlen & Hpub).
  exists revision, manual, mapped. split; [by eapply progress_applied|]. split.
  { eapply Forall_impl; [exact Hrev|]. intros c Hc. by injection Hc. }
  by rewrite <- app_assoc in El.
Qed.

(** C33: A paused node withdraws its endpoint. A cycle without a target, or with the
    provider's consent gone, and a shutdown, end well only when no lease is active
    any more, whether or not the router removed its entry; a heartbeat built from
    the tables after that offers no direct endpoint but the one the provider set by
    hand: its endpoints are that one, if any, and the relay's candidate, if there is
    one. *)
Theorem withdrawn_when_paused env target m m' :
  mapper_reaches m ->
  (reconcile env target m = (Ok tt, m') /\ (target = None \/ np_enabled <$> mp_policy m = Some false)) \/
  shutdown env m = (Ok tt, m') ->
  Forall (fun row => le_state row <> LeaseActive) (mp_leases m') /\
  forall t po co cursor state generation relay h,
    ht_mapper t = m' -> current_heartbeat_with_relay t po co cursor state generation relay = Ok h -> hb_endpoints h <> [] ->
    exists revision manual, ac_applied_revision (active (ht_db t)) = Some revision /\
      load_manual_candidate (ht_db t) (ht_provider t) co revision = Ok manual /\
      hb_endpoints h = match manual with Some c => [c] | None => [] end ++ match relay with Some c => [c] | None => [] end.
Proof.
  intros Hm Hrun. pose proof (run_withdraws _ _ _ _ Hm Hrun) as Hi. split; [exact Hi|].
  intros t po co cursor state generation relay h Et (_ & Hv & Hp & _ & _ & _ & Hs & Hn)%heartbeat_parts He.
  destruct (decide (hb_state h = RunServing)) as [E|E]; [|by destruct He; apply Hn].
  destruct (Hs E) as (l & Hl & El). pose proof (validated_endpoints h Hv) as Hrev.
  destruct (applied_revision (hb_revisions h)) as [revision|] eqn:Er.
  2: { exfalso. destruct (hb_endpoints h); [done|]. by apply Forall_cons in Hrev as [? _]. }
  rewrite Et in Hl. destruct (inactive_candidates _ _ _ _ _ _ Hi Hl) as (manual & Hmanual & ->).
  exists revision, manual. split; [by eapply progress_applied|done].
Qed.

(** ** Two endpoints at one address *)

Lemma validated_unique h : heartbeat_validate h = Ok tt -> NoDup (candidate_key <$> hb_endpoints h).
Proof. unfold heartbeat_validate. intros H. unfold unique in H. validates in H. tauto. Qed.
Lemma applied_progress db cursor p revision :
  load_progress db cursor = Ok p -> ac_applied_revision (active db) = Some revision -> 0 < revision ->
  applied_revision p = Some revision.
Proof.
  unfold load_progress, optional_revision. intros H Ha Hr. inv_ok. rewrite Ha in *. cbn in *.
  destruct (revision =? 0) eqn:E; [lia|]. inv_ok.
  match goal with E : positive_new _ = Ok _ |- _ => apply positive_new_Ok in E as [_ ->] end. done.
Qed.

(** C37: A router mapping at the address and port the provider forwards by hand
    silences a serving node. Two endpoints of one mode, address, port and revision
    make the heartbeat invalid, so that while both are offered, the node serves and the
    policy allows advertising, every attempt to send a heartbeat fails before any
    request is made: the controller hears nothing of the node. *)
Theorem same_endpoint_stops_heartbeat registration t cursor relay a b revision l i j c c' :
  allows_advertising (ht_db t) (ht_provider t) (now_utc (ba_policy a)) = Ok true ->
  ac_applied_revision (active (ht_db t)) = Some revision -> 0 < revision ->
  load_heartbeat_candidates (ht_db t) (ht_provider t) (ba_candidates a) (ht_mapper t) (Some revision) = Ok l ->
  l !! i = Some c -> l !! j = Some c' -> i <> j -> candidate_key c = candidate_key c' ->
  let '(r, b') := send_heartbeat registration t cursor (mkSnapshot RunServing relay) a b in
  is_ok r = false /\ bt_sent b' = bt_sent b /\ bt_last_heartbeat_at b' = bt_last_heartbeat_at b.
Proof.
  intros Had Hap Hpos Hl Hi Hj Hij Hk.
  assert (forall generation h, current_heartbeat_with_relay t (ba_policy a) (ba_candidates a) cursor RunServing generation relay <> Ok h) as Hno.
  { intros generation h (_ & Hv & Hp & advertising & Ha & Hst & Hs & _)%heartbeat_parts. rewrite Had in Ha. injection Ha as <-.
    destruct (Hs Hst) as (l' & Hl' & El). rewrite (applied_progress _ _ _ _ Hp Hap Hpos), Hl in Hl'. injection Hl' as <-.
    pose proof (validated_unique h Hv) as Hu. rewrite El, fmap_app in Hu. apply NoDup_app in Hu as [Hu _].
    apply Hij, (NoDup_lookup _ i j (candidate_key c) Hu); rewrite list_lookup_fmap; [by rewrite Hi|by rewrite Hj, Hk]. }
  unfold send_heartbeat, allocate_heartbeat_generation, mbind, tx_bind, tx_execute, tx_lift, tx_read, mret, tx_ret.
  destruct (ba_update_works a); [|done]. destruct (bt_generation b <? i64_max); [|done]. destruct (ba_select_works a); [|done]. cbn.
  destruct (map_err _ _) as [generation|]; [|done]. destruct (current_heartbeat_with_relay _ _ _ _ _ _ _) as [h|] eqn:E; [|done].
  by apply Hno in E.
Qed.

(** ** Runs *)

Section Runs.
Context (registration : SyncRegistration).

(** Heartbeats are sent one after the other, whatever the tables hold and whatever
    the controller, SQLite and the clock answer; each may end at any point. *)
Inductive beat_step (b : Beat) : Beat -> Prop :=
| beat_send t cursor snapshot a : beat_step b (send_heartbeat registration t cursor snapshot a b).2.
Definition beat_reaches (b : Beat) : Prop := rtc beat_step initial_beat b.

(** An answer that was verified, and the row it gives *)
Definition verified (e : SignedNodeHeartbeatStatus) (row : StatusRow) : Prop :=
  exists json transcript, status_to_string e = Some json /\ 0 < hs_heartbeat_generation (ss_document e) /\
    verify_envelope (registration_trust registration) (hs_heartbeat_generation (ss_document e)) e = Ok transcript /\
    row = status_row (ss_document e) json transcript.
Record beat_ok (b : Beat) : Prop := {
  bk_sorted : StronglySorted Z.gt (hb_generation <$> bt_sent b);
  bk_range : Forall (fun h => 0 < hb_generation h <= bt_generation b) (bt_sent b);
  bk_generation : 0 <= bt_generation b;
  bk_status row : bt_status b = Some row -> exists e, verified e row /\
    exists h, h ∈ bt_sent b /\ hb_generation h = hs_heartbeat_generation (ss_document e);
}.
Lemma initial_beat_ok : beat_ok initial_beat.
Proof. split; cbn; [constructor|constructor|done|done]. Qed.

Lemma verify_envelope_generation trust generation e transcript :
  verify_envelope trust generation e = Ok transcript -> hs_heartbeat_generation (ss_document e) = generation.
Proof.
  unfold verify_envelope, validated. intros H. inv_ok. unfold status_validate_for in H. validates in H. tauto.
Qed.
(** What storing an answer leaves *)
Lemma persist_status_spec o generation body b :
  after (persist_verified registration o generation body) b (fun _ b' => b' = b \/
    exists e row now, verified e row /\ hs_heartbeat_generation (ss_document e) = generation /\
      b' = set_heartbeat_at now (set_status_row row b)).
Proof.
  unfold persist_verified. tx_step. tx_step. destruct (ok_or _ _) as [e|]; [|by left].
  tx_step. tx_step. destruct (verify_envelope _ _ _) as [transcript|] eqn:Ev; [|by left].
  tx_step. tx_step. destruct (ok_or _ _) as [json|] eqn:Ej; [|by left]. apply ok_or_Ok in Ej.
  tx_step. tx_step. destruct (unix_seconds _) as [now|]; [|by left].
  apply after_transaction; [by left|]. intros [] b'. unfold mbind, tx_bind, tx_read, tx_lift, tx_execute, tx_write.
  destruct (ensure _ _); [|done]. destruct (store_status _ _) as [b1|] eqn:Es; [|done]. intros [= <-]. right.
  pose proof (verify_envelope_generation _ _ _ _ Ev) as <-. unfold store_status in Es. inv_ok.
  eexists e, _, now. split; [|done]. exists json, transcript. split_and!; try done.
  unfold status_row_ok in *. rewrite !andb_true_iff in *. cbn in *. by destruct_and!; apply Z.ltb_lt.
Qed.
(** The tables after a generation was allocated *)
Lemma allocate_spec u v b :
  after (allocate_heartbeat_generation u v) b (fun r b' =>
    (b' = b \/ b' = set_generation (bt_generation b + 1) b) /\
    forall generation, r = Ok generation -> b' = set_generation (bt_generation b + 1) b /\ generation = bt_generation b + 1).
Proof.
  unfold allocate_heartbeat_generation, after, mbind, tx_bind, tx_execute, tx_lift, tx_read. destruct u; cbn; [|by split; [left|]].
  destruct (bt_generation b <? i64_max); cbn; [|by split; [left|]]. destruct v; cbn; [|by split; [right|]].
  unfold non_negative_new. destruct (0 <=? bt_generation b + 1); cbn; (split; [by right|]); [|done]. by intros generation [= <-].
Qed.
Lemma generation_ok b : beat_ok b -> beat_ok (set_generation (bt_generation b + 1) b).
Proof.
  intros [Hs Hr Hg Hst]. split; cbn; [done| |lia|done]. eapply Forall_impl; [exact Hr|]. cbn. lia.
Qed.
Lemma sent_ok b h : beat_ok b -> hb_generation h = bt_generation b + 1 -> beat_ok (sent h (set_generation (bt_generation b + 1) b)).
Proof.
  intros Hok Eh. pose proof (generation_ok b Hok) as [Hs Hr Hg Hst]. pose proof (bk_generation _ Hok). split; cbn in *.
  - constructor; [done|]. apply List.Forall_forall. intros g Hin%list_elem_of_In.
    apply list_elem_of_fmap in Hin as (h' & -> & Hin). pose proof (bk_range _ Hok) as Hr'. rewrite Forall_forall in Hr'.
    specialize (Hr' h' Hin). lia.
  - constructor; [lia|done].
  - lia.
  - intros row Hrow. destruct (Hst row Hrow) as (e & He & h' & Hin & E). exists e. split; [done|]. exists h'. split; [by right|done].
Qed.
Lemma stored_ok b e row now : beat_ok b -> verified e row ->
  (exists h, h ∈ bt_sent b /\ hb_generation h = hs_heartbeat_generation (ss_document e)) ->
  beat_ok (set_heartbeat_at now (set_status_row row b)).
Proof. intros [Hs Hr Hg Hst] He Hh. split; try done. cbn. intros row' [= <-]. by exists e. Qed.
Lemma heartbeat_at_ok b now : beat_ok b -> beat_ok (set_heartbeat_at now b).
Proof. by intros [? ? ? ?]. Qed.

Lemma send_ok t cursor snapshot a b : beat_ok b -> beat_ok (send_heartbeat registration t cursor snapshot a b).2.
Proof.
  intros Hok. apply (after_bind _ _ b (fun _ => beat_ok)). eapply after_mono; [apply allocate_spec|].
  intros [generation|e] b1 [Hb1 Hg].
  2: { destruct Hb1 as [->| ->]; [done|by apply generation_ok]. }
  destruct (Hg _ eq_refl) as [-> ->]. pose proof (generation_ok b Hok) as Hok1. tx_step. tx_step.
  destruct (current_heartbeat_with_relay _ _ _ _ _ _ _) as [h|] eqn:Eh; [|done]. apply heartbeat_parts in Eh as (Eg & _).
  tx_step. tx_step. destruct (ok_or _ _); [|done]. tx_step. tx_step. pose proof (sent_ok b h Hok Eg) as Hok2.
  tx_step. tx_step. destruct (context _ _); [|done]. tx_step. tx_step. destruct (ba_body a) as [body|]; [|done].
  tx_step. tx_step. destruct (ensure _ _); [|done]. destruct (ba_status a =? 204).
  { case_match; [|by tx_step]. unfold persist_heartbeat_success. tx_step. tx_step. destruct (unix_seconds _); [|done].
    tx_step. tx_step. destruct (ensure _ _); [|done]. tx_step. by apply heartbeat_at_ok. }
  destruct (ba_status a =? 200); [|by tx_step]. destruct (ba_is_json a); [|by tx_step].
  eapply after_mono; [apply persist_status_spec|]. intros r b' [->|(e & row & now & He & E & ->)]; [done|].
  eapply stored_ok; [done..|]. exists h. split; [left|congruence].
Qed.
Lemma beat_steps_ok b b' : beat_ok b -> rtc beat_step b b' -> beat_ok b'.
Proof. intros Hok H. induction H as [b|b1 b2 b3 [t cursor snapshot a] _ IH]; [done|]. by apply IH, send_ok. Qed.

(** C35: A generation names one heartbeat. Over any sequence of attempts, with any
    of them failing at any point, the heartbeats that were handed to the network
    carry strictly increasing generations. *)
Theorem generations_never_reused b i j h h' :
  beat_reaches b -> bt_sent b !! i = Some h -> bt_sent b !! j = Some h' -> (i < j)%nat ->
  0 < hb_generation h' < hb_generation h /\ hb_generation h <= bt_generation b.
Proof.
  intros Hb Hi Hj Hij. apply (beat_steps_ok _ _ initial_beat_ok) in Hb as [Hs Hr _ _]. rewrite Forall_lookup in Hr.
  pose proof (Hr _ _ Hi). pose proof (Hr _ _ Hj). enough (hb_generation h > hb_generation h') by lia. clear -Hs Hi Hj Hij.
  revert i j Hi Hj Hij. induction (bt_sent b) as [|x l IH]; [done|]. cbn in Hs. apply StronglySorted_inv in Hs as [Hs Hx].
  intros [|i] [|j] Hi Hj Hij; cbn in *; try lia; [|by eapply (IH Hs); eauto; lia]. injection Hi as ->.
  rewrite List.Forall_forall in Hx. apply Hx, list_elem_of_In, list_elem_of_fmap. exists h'. split; [done|].
  by eapply list_elem_of_lookup_2.
Qed.

(** A row that was written is read back. *)
Lemma verify_stored_row `{!HeartbeatJsonLaws HJson} e row : verified e row ->
  verify_stored (registration_trust registration) row = Ok (ss_document e).
Proof.
  intros (json & transcript & Ej & Hg & Ev & ->). unfold verify_stored. cbn [status_row cs_envelope_json cs_envelope_digest
    cs_heartbeat_generation cs_schema_version cs_node_id cs_controller_instance_id cs_signing_key_id cs_observed_at cs_transcript_digest].
  rewrite (status_read_back e json Ej). rewrite !(bool_decide_eq_true_2 _ eq_refl). cbn [ok_or mbind result_bind ensure].
  rewrite Ej. cbn [ok_or mbind result_bind]. rewrite (bool_decide_eq_true_2 _ eq_refl). cbn.
  unfold non_negative_new. rewrite (proj2 (Z.leb_le 0 _)) by lia. cbn. rewrite Ev. cbn. rewrite Z.eqb_refl. repeat rewrite (bool_decide_eq_true_2 _ eq_refl). done.
Qed.
Lemma registration_load rec now key row e user_version `{!HeartbeatJsonLaws HJson} :
  load_sync_registration (Some rec) now = Ok (registration, key) -> verified e row ->
  load_verified (Some (Some row)) user_version (Some rec) = Ok (Some (ss_document e)).
Proof.
  intros H He. unfold load_sync_registration in H. cbn [present_or ok_or mbind result_bind] in H. inv_ok.
  unfold load_verified. cbn [present_or ok_or mbind result_bind].
  repeat match goal with E : _ = Ok _ |- _ => rewrite E; cbn [map_err mbind result_bind]; clear E end.
  match goal with |- context [mkTrust ?n ?c ?k] => replace (mkTrust n c k) with (registration_trust registration) by (by match goal with E : _ = registration |- _ => rewrite <- E end) end.
  by rewrite (verify_stored_row e row He).
Qed.

(** C34: What the node keeps of the controller's answers is verified and can always
    be read. In every state the stored answer loads without error; it is bound to
    this node and this controller, its signature verifies under the key pinned at
    enrollment, and its generation is that of a heartbeat this node has sent. *)
Theorem controller_status_verified rec now key b user_version `{!HeartbeatJsonLaws HJson} :
  load_sync_registration (Some rec) now = Ok (registration, key) -> beat_reaches b ->
  exists answer, load_verified (Some (bt_status b)) user_version (Some rec) = Ok answer /\
    (answer = None <-> bt_status b = None) /\
    forall document, answer = Some document ->
      hs_node_id document = sg_node registration /\ hs_controller_instance_id document = sg_controller_instance registration /\
      (exists signature, verify_node_heartbeat_status_signature document signature
         (sg_controller_signing_public_key registration) = Ok tt) /\
      exists h, h ∈ bt_sent b /\ hb_generation h = hs_heartbeat_generation document.
Proof.
  intros Hreg Hb. apply (beat_steps_ok _ _ initial_beat_ok) in Hb. destruct (bt_status b) as [row|] eqn:Es; [|by exists None].
  destruct (bk_status _ Hb row Es) as (e & He & Hh). exists (Some (ss_document e)).
  split; [by eapply registration_load|]. split; [done|]. intros document [= <-].
  destruct He as (json & transcript & _ & _ & Ev & _). unfold verify_envelope, validated in Ev. inv_ok.
  unfold status_validate_for in *. validates in H. split_and!; [tauto..|by eexists|done].
Qed.
End Runs.
End Theorems.

(** ** Witnesses *)

#[local] Instance sample_json : PolicyJson := one_policy_json sample_policy.

(** The controller's answer to heartbeat 1, under the key of the sample registration *)
Definition first_status : NodeHeartbeatStatus :=
  ProtoNode.mkStatus 1 (sample_uuid 2) 1 (mkTime 0 0) LcActive [mkEndpointStatus (sample_uuid 4) RdChecking None None]
    sample_signing_key_id (sample_uuid 8).
Definition first_answer : SignedNodeHeartbeatStatus :=
  mkSignedStatus first_status
    match node_heartbeat_status_transcript first_status with
    | Ok t => base64_encode (be_bytes 64 (byte_sum t))
    | Err _ => EmptyString
    end.
#[local] Instance lifecycle_eq_dec : EqDecision NodeLifecycleState.
Proof. solve_decision. Defined.
#[local] Instance readiness_eq_dec : EqDecision EndpointReadiness.
Proof. solve_decision. Defined.
#[local] Instance endpoint_status_eq_dec : EqDecision NodeEndpointStatus.
Proof. solve_decision. Defined.
#[local] Instance status_eq_dec : EqDecision NodeHeartbeatStatus.
Proof. solve_decision. Defined.
#[local] Instance signed_status_eq_dec : EqDecision SignedNodeHeartbeatStatus.
Proof. solve_decision. Defined.
(** [serde_json], on that answer *)
#[local] Instance answer_json : HeartbeatJson := {
  heartbeat_to_vec _ := Some [];
  status_from_slice body := if bool_decide (body = as_bytes "{}") then Some first_answer else None;
  status_to_string e := if bool_decide (e = first_answer) then Some "{}"%string else None;
  status_from_str s := if bool_decide (s = "{}"%string) then Some first_answer else None;
}.
#[local] Instance answer_laws : HeartbeatJsonLaws answer_json.
Proof.
  split. intros e s. cbn -[first_answer]. case_bool_decide as E; [|done]. intros [= <-]. by rewrite E.
Qed.
Definition sample_record : RegistrationRecord :=
  mkRegistrationRecord EmptyString (uuid_to_string (sample_uuid 1)) (uuid_to_string (sample_uuid 2)) (uuid_to_string (sample_uuid 8))
    EmptyString sample_key (uuid_to_string (sample_uuid 7)) "signedRequest" (rfc3339_format (mkTime 1000 0)).

(** Revision 1 was received, validated and applied *)
Definition serving_db : Db :=
  let row := mkResultRow EmptyString EmptyString None in
  set_cursor 1 (set_results {[ (1, RsReceived) := row; (1, RsValidated) := row; (1, RsApplied) := row ]} rendered_db).
Lemma serving_applied : ac_applied_revision (active serving_db) = Some 1.
Proof. vm_compute. reflexivity. Qed.
Definition serving (provider : Provider) : HostTables := mkHostTables serving_db (Some provider) mapped None.
Definition answers : BeatAnswer := mkBeatAnswer true true in_july in_july (Ok tt) 200 true (Ok (as_bytes "{}")) in_july.

Definition offered_of (r : host_result NodeHeartbeat) : option NodeHeartbeat := match r with Ok h => Some h | Err _ => None end.
Lemma offered_of_run r : is_Some (offered_of r) -> exists h, r = Ok h /\ offered_of r = Some h.
Proof. destruct r as [h|]; [by exists h|by intros [? ?]]. Qed.
Definition served : host_result NodeHeartbeat :=
  current_heartbeat_with_relay (serving forwarded) in_july in_july 1 RunServing 1 None.
Lemma served_offers : (fun h => length (hb_endpoints h)) <$> offered_of served = Some 2%nat.
Proof. vm_compute. reflexivity. Qed.
Lemma heartbeat_endpoints_safe_witness : exists h, served = Ok h /\ length (hb_endpoints h) = 2%nat /\ hb_state h = RunServing.
Proof.
  destruct (offered_of_run served) as (h & E & Eo); [destruct (offered_of served) eqn:E; [done|]; pose proof served_offers as H; by rewrite E in H|].
  pose proof served_offers as H. rewrite Eo in H. injection H as H. exists h. split; [exact E|]. split; [exact H|].
  destruct (heartbeat_endpoints_safe (serving forwarded) in_july in_july 1 RunServing 1 None h mapped_reached E) as (_ & _ & Hs).
  destruct Hs as (_ & Hs & _); [intros E0; by rewrite E0 in H|exact Hs].
Defined.

(** The lease is being released, which the router refuses: the forwarded endpoint is left. *)
Definition withdrawn : HostTables := mkHostTables serving_db (Some forwarded) kept_mapping None.
Definition after_pause : host_result NodeHeartbeat := current_heartbeat_with_relay withdrawn in_july in_july 1 RunServing 1 None.
Lemma after_pause_offers : (fun h => length (hb_endpoints h)) <$> offered_of after_pause = Some 1%nat.
Proof. vm_compute. reflexivity. Qed.
Lemma withdrawn_when_paused_witness : exists h manual, after_pause = Ok h /\
  load_manual_candidate serving_db (Some forwarded) in_july 1 = Ok (Some manual) /\ hb_endpoints h = [manual].
Proof.
  pose proof after_pause_offers as H. destruct (offered_of_run after_pause) as (h & E & Eo); [destruct (offered_of after_pause) eqn:E0; [done|discriminate H]|].
  rewrite Eo in H. injection H as H.
  destruct (withdrawn_when_paused (at_home stubborn_router 1784507500) None mapped kept_mapping mapped_reached
    (or_introl (conj paused_run (or_introl eq_refl)))) as [_ Hh].
  destruct (Hh withdrawn in_july in_july 1 RunServing 1 None h eq_refl E) as (revision & manual & Er & Hm & El).
  { intros E0. rewrite E0 in H. discriminate H. }
  pose proof (eq_trans (eq_sym Er) serving_applied) as Hr. injection Hr as ->. rewrite El in H. destruct manual as [c|]; [|discriminate H].
  exists h, c. split; [exact E|]. split; [exact Hm|exact El].
Defined.

(** The provider forwards port 443 of the public address by hand, and the router maps it too. *)
Definition clashing : Provider :=
  (configure_manual_endpoint applied_db
     (fun revision => Ok (NodeHostDb.mkCandidate revision EmptyString EmptyString EmptyString [] 443 None))
     in_july (sample_uuid 9) (mkManualInput "8.8.4.4" 443 443 3600) sample_provider).2.
Definition clash_list : list EndpointCandidate :=
  offered (load_heartbeat_candidates (ht_db (serving clashing)) (ht_provider (serving clashing)) (ba_candidates answers)
    (ht_mapper (serving clashing)) (Some 1)).
Lemma clash_loaded : load_heartbeat_candidates (ht_db (serving clashing)) (ht_provider (serving clashing)) (ba_candidates answers)
  (ht_mapper (serving clashing)) (Some 1) = Ok clash_list.
Proof. apply offered_run. vm_compute. discriminate. Qed.
Lemma clash_keys : candidate_key <$> clash_list = [(EmDirect, "8.8.4.4"%string, 443, 1); (EmDirect, "8.8.4.4"%string, 443, 1)].
Proof. vm_compute. reflexivity. Qed.
Lemma clash_open :
  allows_advertising (ht_db (serving clashing)) (ht_provider (serving clashing)) (now_utc (ba_policy answers)) = Ok true.
Proof. vm_compute. reflexivity. Qed.
Lemma clash_applied : ac_applied_revision (active (ht_db (serving clashing))) = Some 1.
Proof. vm_compute. reflexivity. Qed.
Lemma same_endpoint_stops_heartbeat_witness :
  let '(r, b) := send_heartbeat sample_registration (serving clashing) 1 (mkSnapshot RunServing None) answers initial_beat in
  is_ok r = false /\ bt_sent b = bt_sent initial_beat /\ bt_last_heartbeat_at b = bt_last_heartbeat_at initial_beat.
Proof.
  pose proof clash_keys as K. destruct clash_list as [|c [|c' [|? ?]]] eqn:El; [discriminate K..| |discriminate K].
  assert (candidate_key c = candidate_key c') as Hk by (injection K; intros; unfold candidate_key; congruence).
  assert (0 < 1) as H01 by lia. assert (0%nat <> 1%nat) as Hij by lia.
  pose proof (same_endpoint_stops_heartbeat sample_registration (serving clashing) 1 None answers initial_beat 1 [c; c'] 0 1 c c'
    clash_open clash_applied H01 (eq_trans clash_loaded (f_equal Ok El)) eq_refl eq_refl Hij Hk) as P.
  exact P.
Defined.

(** Two heartbeats, of which the first is answered *)
Definition answered_once : Beat := (send_heartbeat sample_registration (serving forwarded) 1 (mkSnapshot RunServing None) answers initial_beat).2.
Definition unanswered : BeatAnswer := mkBeatAnswer true true in_july in_july (Err System) 0 false (Ok []) in_july.
Definition sent_twice : Beat := (send_heartbeat sample_registration (serving forwarded) 1 (mkSnapshot RunServing None) unanswered answered_once).2.
Lemma once_reached : beat_reaches sample_registration answered_once.
Proof. apply rtc_once, beat_send. Qed.
Lemma twice_reached : beat_reaches sample_registration sent_twice.
Proof. eapply rtc_r; [exact once_reached|]. apply beat_send. Qed.
Lemma twice_sent : exists h h', bt_sent sent_twice !! 0%nat = Some h /\ bt_sent sent_twice !! 1%nat = Some h'.
Proof. eexists _, _. vm_compute. split; reflexivity. Qed.
Lemma generations_never_reused_witness :
  exists h h', bt_sent sent_twice !! 0%nat = Some h /\ bt_sent sent_twice !! 1%nat = Some h' /\ hb_generation h' < hb_generation h.
Proof.
  destruct twice_sent as (h & h' & E & E'). exists h, h'. split; [exact E|]. split; [exact E'|].
  destruct (generations_never_reused sample_registration sent_twice 0 1 h h' twice_reached E E') as [[_ H] _]; [lia|exact H].
Defined.
Lemma sample_record_loads : load_sync_registration (Some sample_record) (mkTime 0 0) = Ok (sample_registration, sample_uuid 7).
Proof. vm_compute. reflexivity. Qed.
Lemma once_stored : bool_decide (is_Some (bt_status answered_once)) = true.
Proof. vm_compute. reflexivity. Qed.
Lemma controller_status_verified_witness :
  exists document, load_verified (Some (bt_status answered_once)) 17 (Some sample_record) = Ok (Some document) /\
    hs_node_id document = sample_uuid 2.
Proof.
  destruct (controller_status_verified sample_registration sample_record (mkTime 0 0) (sample_uuid 7) answered_once 17
    sample_record_loads once_reached) as ([document|] & E & N & H).
  - exists document. split; [exact E|]. exact (proj1 (H document eq_refl)).
  - exfalso. pose proof once_stored as S. rewrite (proj1 N eq_refl) in S. discriminate S.
Defined.
