(* ===== verification/ControlNodes.v ===== *)
(** * Nodes at the controller

    [src/control-server/src/db.rs]: who may call for a node and that no call is
    repeated, the heartbeat with its endpoint candidates and signed answer, and
    the results of revisions with what they do to the progress of the node and to
    its members' credentials. The tables are those of migrations 1 to 10 and 16;
    the database holds one network (its singleton index), so keys leave it out.
    Identities and enumerations are stored as the text that names them, and are
    kept here as what that text names. *)
From S2P Require Import Prelude Text Clock ProtoTypes ProtoAuth ProtoNode ProtoSigned ProtoTelemetry NodeHostDb Transaction.
From S2P Require Import NodePolicy NodeTelemetry ControlTelemetry RouterMapping NodeHeartbeat.
From stdpp Require Import sorting.
Open Scope Z_scope.

Definition NODE_REQUEST_CLOCK_SKEW_SECONDS : Z := 300.

(** ** Tables *)

(** [networks], what of it these operations read *)
Record NetworkRow : Type := mkNetworkRow {
  nw_network_id : string;
  nw_active : bool;
  nw_controller_epoch : string;
}.

(** [nodes], what of it these operations read or write; [nd_reality] are
    [reality_public_key] and [reality_short_id] *)
Record NodeRow : Type := mkNodeRow {
  nd_status : NodeStatus;
  nd_agent_version : string;
  nd_xray_version : option string;
  nd_runtime_state : option NodeRuntimeState;
  nd_provider_paused : bool;
  nd_last_seen_at : option Z;
  nd_desired : option Z;
  nd_reported_desired : option Z;
  nd_received : option Z;
  nd_validated : option Z;
  nd_applied : option Z;
  nd_telemetry_cursor : Z;
  nd_heartbeat_generation : Z;
  nd_heartbeat_sha256 : option (list byte);
  nd_updated_at : Z;
  nd_reality : option string * option string;
}.
Definition positive_if_any (o : option Z) : bool := match o with Some z => 0 <? z | None => true end.
Definition node_row_ok (r : NodeRow) : bool :=
  positive_if_any (nd_desired r) && positive_if_any (nd_reported_desired r) && positive_if_any (nd_received r)
  && positive_if_any (nd_validated r) && positive_if_any (nd_applied r) && (0 <=? nd_telemetry_cursor r)
  && (0 <=? nd_heartbeat_generation r).

(** [node_auth_credentials] *)
Record AuthCredentialRow : Type := mkAuthCredential {
  au_node_id : NodeId;
  au_identity_public_key : string;
  au_not_before : Z;
  au_expires_at : Z;
  au_revoked_at : option Z;
}.
(** [node_request_nonces] *)
Record NonceRow : Type := mkNonceRow { no_request_timestamp : Z; no_expires_at : Z; no_created_at : Z }.

(** [config_revisions], what of it these operations read *)
Record RevisionRow : Type := mkRevisionRow {
  rv_node_id : NodeId;
  rv_schema_version : Z;
  rv_artifact_json : string;
}.
(** [node_revision_results] *)
Record StoredRevisionResult : Type := mkStoredResult {
  sr_state_rank : Z;
  sr_result_json : string;
  sr_config_digest : option string;
  sr_rollback_revision : option Z;
  sr_created_at : Z;
}.

(** [node_endpoint_candidates] *)
Record CandidateRow : Type := mkCandidateRow {
  ca_mode : EndpointMode;
  ca_source : EndpointSource;
  ca_address : string;
  ca_port : Z;
  ca_applied_revision : Z;
  ca_observed_at : Z;
  ca_expires_at : option Z;
  ca_last_report_generation : Z;
  ca_first_reported_at : Z;
  ca_last_reported_at : Z;
  ca_withdrawn_at : option Z;
  ca_verification_generation : Z;
}.
Definition candidate_row_ok (r : CandidateRow) : bool :=
  text_within 1 253 (ca_address r) && (1 <=? ca_port r) && (ca_port r <=? 65535) && (0 <? ca_applied_revision r)
  && (0 <? ca_last_report_generation r) && (0 <? ca_verification_generation r)
  && source_matches_mode (ca_mode r) (ca_source r)
  && (bool_decide (ca_source r = EsManual) || present (ca_expires_at r))
  && match ca_expires_at r with Some e => ca_observed_at r <? e | None => true end.
(** The columns of the index [node_endpoint_candidates_current_address] *)
Definition row_address (r : CandidateRow) : EndpointMode * string * Z * Z :=
  (ca_mode r, ca_address r, ca_port r, ca_applied_revision r).

(** [node_endpoint_verifications] *)
Inductive VerificationStatus : Type := VsPending | VsVerified | VsFailed | VsWithdrawn.
#[export] Instance VerificationStatus_eq_dec : EqDecision VerificationStatus.
Proof. solve_decision. Defined.
Record VerificationRow : Type := mkVerificationRow {
  ve_status : VerificationStatus;
  ve_probe_attempts : Z;
  ve_last_probe_at : option Z;
  ve_last_success_at : option Z;
  ve_latency_ms : option Z;
  ve_error_code : option string;
  ve_expires_at : option Z;
  ve_updated_at : Z;
}.
(** [endpoint_probe_attempts] *)
Inductive ProbePhase : Type := PhTcp | PhProtocol.
#[export] Instance ProbePhase_eq_dec : EqDecision ProbePhase.
Proof. solve_decision. Defined.
Inductive AttemptStatus : Type := AtClaimed | AtSucceeded | AtFailed | AtCancelled | AtExpired.
#[export] Instance AttemptStatus_eq_dec : EqDecision AttemptStatus.
Proof. solve_decision. Defined.
Record AttemptRow : Type := mkAttemptRow {
  at_probe_id : Uuid;
  at_node_id : NodeId;
  at_endpoint_id : EndpointId;
  at_phase : ProbePhase;
  at_status : AttemptStatus;
  at_runner_id : Uuid;
  at_claim_token_sha256 : list byte;
  at_candidate_generation : Z;
  at_address : string;
  at_port : Z;
  at_applied_revision : Z;
  at_started_at : Z;
  at_claim_expires_at : Z;
  at_completed_at : option Z;
  at_resolved_address : option string;
  at_latency_ms : option Z;
  at_result_code : option string;
}.
Definition attempt_row_ok (a : AttemptRow) : bool :=
  (0 <? at_candidate_generation a) && text_within 1 253 (at_address a) && (1 <=? at_port a) && (at_port a <=? 65535)
  && (0 <? at_applied_revision a) && (at_started_at a <? at_claim_expires_at a)
  && match at_completed_at a with Some t => at_started_at a <=? t | None => true end
  && match at_resolved_address a with Some s => text_within 2 45 s | None => true end
  && match at_latency_ms a with Some ms => 0 <=? ms | None => true end
  && match at_result_code a with Some s => text_within 1 64 s | None => true end
  && match at_status a with
     | AtClaimed => negb (present (at_completed_at a)) && negb (present (at_resolved_address a))
                    && negb (present (at_latency_ms a)) && negb (present (at_result_code a))
     | AtSucceeded => present (at_completed_at a) && present (at_resolved_address a) && present (at_latency_ms a)
                      && bool_decide (at_result_code a = Some match at_phase a with
                           | PhTcp => "direct_tcp_connected"%string
                           | PhProtocol => "direct_protocol_connected"%string
                           end)
     | AtFailed => present (at_completed_at a) && present (at_result_code a)
     | AtCancelled => present (at_completed_at a) && negb (present (at_resolved_address a)) && negb (present (at_latency_ms a))
                      && bool_decide (at_result_code a = Some "candidate_changed"%string)
     | AtExpired => present (at_completed_at a) && negb (present (at_resolved_address a)) && negb (present (at_latency_ms a))
                    && bool_decide (at_result_code a = Some "claim_expired"%string)
     end.

(** [endpoint_canary_credentials], what of it these operations read *)
Record CanaryRow : Type := mkCanaryRow { cy_vless_uuid : string; cy_active : bool }.

(** [user_node_credentials], what of it these operations read or write, with the
    status of the assignment and of the user each row belongs to *)
Inductive CredentialStatus : Type := CrPending | CrActive | CrRetiring | CrRevoked.
#[export] Instance CredentialStatus_eq_dec : EqDecision CredentialStatus.
Proof. solve_decision. Defined.
Record MemberCredentialRow : Type := mkMemberCredential {
  mc_node_id : NodeId;
  mc_status : CredentialStatus;
  mc_created_at : Z;
  mc_activated_at : option Z;
  mc_retire_after : option Z;
  mc_revoked_at : option Z;
  mc_assignment_enabled : bool;
  mc_account_active : bool;
}.
Definition member_credential_ok (r : MemberCredentialRow) : bool :=
  match mc_status r with
  | CrPending => negb (present (mc_activated_at r)) && negb (present (mc_retire_after r)) && negb (present (mc_revoked_at r))
  | CrActive => present (mc_activated_at r) && negb (present (mc_retire_after r)) && negb (present (mc_revoked_at r))
  | CrRetiring => present (mc_activated_at r) && present (mc_retire_after r) && negb (present (mc_revoked_at r))
  | CrRevoked => negb (present (mc_retire_after r)) && present (mc_revoked_at r)
  end
  && match mc_activated_at r with Some a => mc_created_at r <=? a | None => true end
  && match mc_retire_after r, mc_activated_at r with Some t, Some a => a <? t | _, _ => true end
  && match mc_revoked_at r with Some t => mc_created_at r <=? t | None => true end
  && match mc_activated_at r, mc_revoked_at r with Some a, Some t => a <=? t | _, _ => true end.

(** The entries of [audit_events] these operations write *)
Inductive AuditEvent : Type :=
| MemberCredentialsReconciled (node_id : NodeId) (activated applied_revision policy_violations revoked : Z)
| RevisionFailed (node_id : NodeId) (revision : Z) (error_code : option ApiErrorCode) (rollback_revision : option Z)
    (state : RevisionResultState).

(** [fl_targets] is [node_revision_targets], [fl_snapshots] and
    [fl_snapshot_credentials] are the two tables of member snapshots,
    [fl_revision_canaries] is [node_revision_canary_credentials].
    [fl_attempts] has the last inserted row first: their identities only grow
    and no row is deleted. *)
Record Fleet : Type := mkFleet {
  fl_network : option NetworkRow;
  fl_nodes : gmap NodeId NodeRow;
  fl_auth : gmap NodeKeyId AuthCredentialRow;
  fl_nonces : gmap (NodeId * NodeKeyId * list byte) NonceRow;
  fl_revisions : gmap Z RevisionRow;
  fl_targets : gset (NodeId * Z);
  fl_results : gmap (NodeId * Z * RevisionResultState) StoredRevisionResult;
  fl_candidates : gmap (NodeId * EndpointId) CandidateRow;
  fl_verifications : gmap (NodeId * EndpointId) VerificationRow;
  fl_attempts : list AttemptRow;
  fl_snapshots : gset (NodeId * Z);
  fl_snapshot_credentials : gset (NodeId * Z * CredentialId);
  fl_members : gmap CredentialId MemberCredentialRow;
  fl_canaries : gmap (NodeId * CredentialId) CanaryRow;
  fl_revision_canaries : gmap (NodeId * Z) CredentialId;
  fl_audit : list (Z * AuditEvent);
}.
Definition set_nodes x c := mkFleet (fl_network c) x (fl_auth c) (fl_nonces c) (fl_revisions c) (fl_targets c) (fl_results c)
  (fl_candidates c) (fl_verifications c) (fl_attempts c) (fl_snapshots c) (fl_snapshot_credentials c) (fl_members c) (fl_canaries c)
  (fl_revision_canaries c) (fl_audit c).
Definition set_nonces x c := mkFleet (fl_network c) (fl_nodes c) (fl_auth c) x (fl_revisions c) (fl_targets c) (fl_results c)
  (fl_candidates c) (fl_verifications c) (fl_attempts c) (fl_snapshots c) (fl_snapshot_credentials c) (fl_members c) (fl_canaries c)
  (fl_revision_canaries c) (fl_audit c).
Definition set_revision_results x c := mkFleet (fl_network c) (fl_nodes c) (fl_auth c) (fl_nonces c) (fl_revisions c) (fl_targets c) x
  (fl_candidates c) (fl_verifications c) (fl_attempts c) (fl_snapshots c) (fl_snapshot_credentials c) (fl_members c) (fl_canaries c)
  (fl_revision_canaries c) (fl_audit c).
Definition set_candidates x c := mkFleet (fl_network c) (fl_nodes c) (fl_auth c) (fl_nonces c) (fl_revisions c) (fl_targets c)
  (fl_results c) x (fl_verifications c) (fl_attempts c) (fl_snapshots c) (fl_snapshot_credentials c) (fl_members c) (fl_canaries c)
  (fl_revision_canaries c) (fl_audit c).
Definition set_verifications x c := mkFleet (fl_network c) (fl_nodes c) (fl_auth c) (fl_nonces c) (fl_revisions c) (fl_targets c)
  (fl_results c) (fl_candidates c) x (fl_attempts c) (fl_snapshots c) (fl_snapshot_credentials c) (fl_members c) (fl_canaries c)
  (fl_revision_canaries c) (fl_audit c).
Definition set_attempts x c := mkFleet (fl_network c) (fl_nodes c) (fl_auth c) (fl_nonces c) (fl_revisions c) (fl_targets c)
  (fl_results c) (fl_candidates c) (fl_verifications c) x (fl_snapshots c) (fl_snapshot_credentials c) (fl_members c) (fl_canaries c)
  (fl_revision_canaries c) (fl_audit c).
Definition set_members x c := mkFleet (fl_network c) (fl_nodes c) (fl_auth c) (fl_nonces c) (fl_revisions c) (fl_targets c)
  (fl_results c) (fl_candidates c) (fl_verifications c) (fl_attempts c) (fl_snapshots c) (fl_snapshot_credentials c) x (fl_canaries c)
  (fl_revision_canaries c) (fl_audit c).
Definition insert_audit_event now event c := mkFleet (fl_network c) (fl_nodes c) (fl_auth c) (fl_nonces c) (fl_revisions c)
  (fl_targets c) (fl_results c) (fl_candidates c) (fl_verifications c) (fl_attempts c) (fl_snapshots c)
  (fl_snapshot_credentials c) (fl_members c) (fl_canaries c)
  (fl_revision_canaries c) (fl_audit c ++ [(now, event)]).

(** [UPDATE table SET .. WHERE ..] *)
Definition update_where `{Countable K} {A} (selected : K -> A -> bool) (f : A -> A) (table : gmap K A) : gmap K A :=
  map_imap (fun k a => Some (if selected k a then f a else a)) table.

(** [sort_by_key(|endpoint| endpoint.endpoint_id)] *)
Definition endpoint_order (a b : NodeEndpointStatus) : Prop :=
  be_value (uuid_bytes (es_endpoint_id a)) <= be_value (uuid_bytes (es_endpoint_id b)).
#[export] Instance endpoint_order_dec : RelDecision endpoint_order.
Proof. intros a b. unfold endpoint_order. apply _. Defined.

(** ** Parameters *)

(** [json_type] and [json_extract] of SQLite at [$.document.xray.publicPort]: the
    number there, when it is an integer; [json_extract] at
    [$.document.xray.serverNames[0]] *)
Class ArtifactJson : Type := {
  public_port_of : string -> option Z;
  server_name_of : string -> option string;
}.

(** [ed25519_dalek::SigningKey] of the controller: its public key and [sign] *)
Class ControllerKey : Type := {
  controller_public_bytes : list byte;
  controller_sign : list byte -> list byte;
}.
Class ControllerKeyLaws `{Ed : Ed25519} (K : ControllerKey) : Prop := {
  controller_public_length : zlen controller_public_bytes = 32;
  controller_public_valid : verifying_key controller_public_bytes = true;
  controller_signature_length m : zlen (controller_sign m) = 64;
  controller_signature_verifies m : ed25519_verify controller_public_bytes m (controller_sign m) = true;
}.

Section Fleet.
Context `{U : UuidText} `{R : Rfc3339} `{B : Base64} `{Sha : Sha256} `{Ed : Ed25519}.
Context `{HJson : HeartbeatJson} `{RJson : NodeJson} `{AJson : ArtifactJson} `{Key : ControllerKey}.
Variable ed25519_verify_strict : list byte -> list byte -> list byte -> bool.
Abbreviation Handling := (Tx Fleet DatabaseError).
Abbreviation db_result := (result DatabaseError).

(** [load_network] *)
Definition load_fleet_network (c : Fleet) : db_result NetworkRow := ok_or (fl_network c) NetworkMissing.
(** [timestamp] *)
Definition control_timestamp (value : Z) : db_result OffsetDateTime :=
  map_err (fun _ => CtlTimestampRange) (from_unix_timestamp value).
Definition serves (s : NodeStatus) : bool := match s with NodePending | NodeActive => true | _ => false end.
(** [UPDATE nodes SET .. WHERE node_id = ..] *)
Definition update_node (node_id : NodeId) (f : NodeRow -> NodeRow) (c : Fleet) : db_result Fleet :=
  match fl_nodes c !! node_id with
  | Some row => _ ← ensure (node_row_ok (f row)) CtlSqlite; Ok (set_nodes (<[node_id := f row]> (fl_nodes c)) c)
  | None => Ok c
  end.
(** [UPDATE endpoint_probe_attempts SET status, completed_at, resolved_address,
    latency_ms, result_code WHERE ..]; every use selects claimed rows, as the
    trigger [endpoint_probe_attempts_terminal_transition] wants *)
Definition finished (status : AttemptStatus) (now : Z) (resolved_address : option string) (latency_ms : option Z)
    (result_code : string) (a : AttemptRow) : AttemptRow :=
  mkAttemptRow (at_probe_id a) (at_node_id a) (at_endpoint_id a) (at_phase a) status (at_runner_id a) (at_claim_token_sha256 a)
    (at_candidate_generation a) (at_address a) (at_port a) (at_applied_revision a) (at_started_at a) (at_claim_expires_at a)
    (Some now) resolved_address latency_ms (Some result_code).
Definition update_attempts (selected : AttemptRow -> bool) (f : AttemptRow -> AttemptRow) (c : Fleet) : db_result Fleet :=
  _ ← ensure (forallb (fun a => negb (selected a) || attempt_row_ok (f a)) (fl_attempts c)) CtlSqlite;
  Ok (set_attempts (map (fun a => if selected a then f a else a) (fl_attempts c)) c).

(** ** Calls of nodes *)

(** [AuthenticatedNode] *)
Record AuthenticatedNode : Type := mkAuthenticated { an_node_id : NodeId; an_key_id : NodeKeyId }.

(** [authenticate_node_request] *)
Definition authenticate_node_request (o : Outside) (headers : NodeRequestAuthHeaders) (input : NodeRequestSigningInput)
    : Handling AuthenticatedNode :=
  now ← tx_lift (control_seconds (ot_wall o));
  let request_timestamp := to_unix (ah_timestamp headers) in
  _ ← tx_lift (ensure (Z.abs (now - request_timestamp) <=? NODE_REQUEST_CLOCK_SKEW_SECONDS) NodeRequestClockSkew);
  transaction CtlSqlite (ot_database o)
    (_ ← tx_write (fun c => set_nonces (filter (fun row => now <= no_expires_at row.2) (fl_nonces c)) c);
     network ← tx_query load_fleet_network;
     credential ← tx_query (fun c => ok_or
       (node ← fl_nodes c !! ah_node_id headers;
        credential ← fl_auth c !! ah_key_id headers;
        if bool_decide (au_node_id credential = ah_node_id headers) then Some (nd_status node, credential) else None)
       NodeAuthenticationFailed);
     let '(node_status, credential) := credential in
     _ ← tx_lift (ensure (negb (match node_status with NodeDisabled | NodeWithdrawn => true | _ => false end
                                || present (au_revoked_at credential))) NodeRevoked);
     _ ← tx_lift (ensure (negb ((now <? au_not_before credential) || (au_expires_at credential <=? now)))
           NodeAuthenticationFailed);
     controller_instance_id ← tx_lift (map_err (fun _ => StoredProtocolValue) (id_from_str (nw_controller_epoch network)));
     public_key ← tx_lift (map_err (fun _ => StoredProtocolValue) (fixed_base64url 32 (au_identity_public_key credential)));
     _ ← tx_lift (map_err (fun _ => InvalidNodeRequestSignature)
           (verify_node_request_signature ed25519_verify_strict public_key headers input controller_instance_id));
     expires_at ← tx_lift (ok_or (checked_add i64_max request_timestamp NODE_REQUEST_CLOCK_SKEW_SECONDS) TimestampOverflow);
     let nonce := (ah_node_id headers, ah_key_id headers, sha256 (as_bytes (ah_nonce headers))) in
     _ ← tx_execute (fun c => match fl_nonces c !! nonce with
           | Some _ => Err NodeRequestNonceReplayed
           | None => Ok (set_nonces (<[nonce := mkNonceRow request_timestamp expires_at now]> (fl_nonces c)) c)
           end);
     mret (mkAuthenticated (ah_node_id headers) (ah_key_id headers))).

(** ** Reported progress *)

(** [ensure_monotonic_cursor] *)
Definition ensure_monotonic_cursor (previous reported : option Z) : db_result unit :=
  ensure (negb match previous, reported with
               | Some _, None => true
               | Some previous, Some reported => reported <? previous
               | None, _ => false
               end) NodeProgressRegressed.

(** [validate_reported_desired_revision] *)
Definition validate_reported_desired_revision (node_id : NodeId) (target previous_reported reported : option Z) (c : Fleet)
    : db_result unit :=
  _ ← ensure_monotonic_cursor previous_reported reported;
  match reported with
  | None => Ok tt
  | Some reported =>
      _ ← ensure (negb match target with Some target => target <? reported | None => true end) NodeProgressConflict;
      ensure (bool_decide ((node_id, reported) ∈ fl_targets c)) NodeProgressConflict
  end.

(** [ensure_authoritative_progress] *)
Definition ensure_authoritative_progress (progress : option Z * option Z) : db_result unit :=
  let '(authoritative, reported) := progress in
  if bool_decide (authoritative = reported) then Ok tt
  else match authoritative, reported with
       | Some _, None => Err NodeProgressRegressed
       | Some authoritative, Some reported =>
           if reported <? authoritative then Err NodeProgressRegressed else Err NodeProgressConflict
       | _, _ => Err NodeProgressConflict
       end.

(** [validate_reported_progress] *)
Definition validate_reported_progress (node_id : NodeId) (heartbeat : NodeHeartbeat) (c : Fleet) : db_result unit :=
  previous ← ok_or (fl_nodes c !! node_id) NodeRevoked;
  _ ← ensure (serves (nd_status previous)) NodeRevoked;
  let revisions := hb_revisions heartbeat in
  _ ← validate_reported_desired_revision node_id (nd_desired previous) (nd_reported_desired previous)
        (desired_revision revisions) c;
  _ ← try_for_each ensure_authoritative_progress
        [(nd_received previous, received_revision revisions);
         (nd_validated previous, validated_revision revisions);
         (nd_applied previous, applied_revision revisions)];
  ensure (negb (hb_telemetry_cursor heartbeat <? nd_telemetry_cursor previous)) NodeProgressRegressed.

(** ** Endpoint candidates *)

(** The row of [config_revisions] for a node, and the public port it gives *)
Definition revision_of (node_id : NodeId) (revision : Z) (c : Fleet) : option RevisionRow :=
  row ← fl_revisions c !! revision; if bool_decide (rv_node_id row = node_id) then Some row else None.
Definition revision_port (row : RevisionRow) : option Z :=
  if rv_schema_version row =? 2 then public_port_of (rv_artifact_json row) else None.

(** [validate_endpoint_candidate_revision] *)
Definition validate_endpoint_candidate_revision (node_id : NodeId) (candidate : EndpointCandidate) (c : Fleet)
    : db_result unit :=
  if negb (bool_decide (ec_mode candidate = EmDirect)) then Ok tt
  else
    let public_port := row ← revision_of node_id (ec_applied_revision candidate) c; revision_port row in
    ensure (bool_decide (public_port = Some (ec_port candidate))) EndpointCandidateRevisionConflict.

(** [PreparedEndpointCandidate]: the times in seconds *)
Record PreparedEndpointCandidate : Type := mkPrepared {
  pr_candidate : EndpointCandidate;
  pr_observed_at : Z;
  pr_expires_at : option Z;
}.
Definition prepared (candidate : EndpointCandidate) : PreparedEndpointCandidate :=
  mkPrepared candidate (to_unix (ec_observed_at candidate)) (to_unix <$> ec_expires_at candidate).

(** The index [node_endpoint_candidates_current_address]: another current
    candidate of the node has this address *)
Definition address_taken (node_id : NodeId) (endpoint_id : EndpointId) (address : EndpointMode * string * Z * Z) (c : Fleet) : bool :=
  negb (bool_decide (map_Forall (fun key row => key.1 = node_id -> key.2 <> endpoint_id ->
    ca_withdrawn_at row = None -> row_address row <> address) (fl_candidates c))).

(** [refresh_endpoint_candidate] *)
Definition row_unchanged (p : PreparedEndpointCandidate) (row : CandidateRow) : bool :=
  let candidate := pr_candidate p in
  bool_decide (ca_mode row = ec_mode candidate) && bool_decide (ca_source row = ec_source candidate)
  && bool_decide (ca_address row = ec_address candidate) && (ca_port row =? ec_port candidate)
  && (ca_applied_revision row =? ec_applied_revision candidate) && (ca_observed_at row =? pr_observed_at p)
  && bool_decide (ca_expires_at row = pr_expires_at p).
Definition refreshed (report_generation now : Z) (row : CandidateRow) : CandidateRow :=
  mkCandidateRow (ca_mode row) (ca_source row) (ca_address row) (ca_port row) (ca_applied_revision row) (ca_observed_at row)
    (ca_expires_at row) report_generation (ca_first_reported_at row) now None
    (if present (ca_withdrawn_at row) then report_generation else ca_verification_generation row).
Definition cancel_claims (node_id : NodeId) (endpoint_id : EndpointId) (now : Z) : Fleet -> db_result Fleet :=
  update_attempts
    (fun a => bool_decide (at_node_id a = node_id) && bool_decide (at_endpoint_id a = endpoint_id)
              && bool_decide (at_status a = AtClaimed))
    (finished AtCancelled now None None "candidate_changed").
Definition reset_verification (node_id : NodeId) (endpoint_id : EndpointId) (now : Z) (c : Fleet) : Fleet :=
  set_verifications (update_where
    (fun key row => bool_decide (key = (node_id, endpoint_id)) && bool_decide (ve_status row = VsWithdrawn))
    (fun _ => mkVerificationRow VsPending 0 None None None None None now) (fl_verifications c)) c.
Definition refresh_endpoint_candidate (node_id : NodeId) (p : PreparedEndpointCandidate) (report_generation now : Z)
    : Handling bool :=
  let endpoint_id := ec_endpoint_id (pr_candidate p) in
  stored ← tx_read (fun c => fl_candidates c !! (node_id, endpoint_id));
  match stored with
  | None => mret false
  | Some row =>
      _ ← tx_lift (ensure (row_unchanged p row) EndpointCandidateConflict);
      _ ← tx_execute (fun c =>
            _ ← ensure (candidate_row_ok (refreshed report_generation now row)
                        && negb (address_taken node_id endpoint_id (row_address row) c)) CtlSqlite;
            Ok (set_candidates (<[(node_id, endpoint_id) := refreshed report_generation now row]> (fl_candidates c)) c));
      _ ← (if present (ca_withdrawn_at row) then
             _ ← tx_execute (cancel_claims node_id endpoint_id now);
             tx_write (reset_verification node_id endpoint_id now)
           else mret tt);
      mret true
  end.

(** [withdraw_missing_candidates] *)
Definition withdrawn_row (now : Z) (row : CandidateRow) : CandidateRow :=
  mkCandidateRow (ca_mode row) (ca_source row) (ca_address row) (ca_port row) (ca_applied_revision row) (ca_observed_at row)
    (ca_expires_at row) (ca_last_report_generation row) (ca_first_reported_at row) (ca_last_reported_at row) (Some now)
    (ca_verification_generation row).
Definition verification_withdrawn (now : Z) (v : VerificationRow) : VerificationRow :=
  mkVerificationRow VsWithdrawn (ve_probe_attempts v) (ve_last_probe_at v) (ve_last_success_at v) (ve_latency_ms v)
    (ve_error_code v) (ve_expires_at v) now.
Definition withdraw_missing_candidates (node_id : NodeId) (report_generation now : Z) : Handling unit :=
  _ ← tx_write (fun c => set_candidates (update_where
        (fun key row => bool_decide (key.1 = node_id) && negb (present (ca_withdrawn_at row))
                        && (ca_last_report_generation row <? report_generation))
        (withdrawn_row now) (fl_candidates c)) c);
  tx_write (fun c => set_verifications (update_where
    (fun key v => bool_decide (key.1 = node_id) && negb (bool_decide (ve_status v = VsWithdrawn))
                  && some_and (fl_candidates c !! key) (fun row => present (ca_withdrawn_at row)))
    (verification_withdrawn now) (fl_verifications c)) c).

(** [insert_endpoint_candidate] *)
Definition new_row (p : PreparedEndpointCandidate) (report_generation now : Z) : CandidateRow :=
  let candidate := pr_candidate p in
  mkCandidateRow (ec_mode candidate) (ec_source candidate) (ec_address candidate) (ec_port candidate)
    (ec_applied_revision candidate) (pr_observed_at p) (pr_expires_at p) report_generation now now None report_generation.
Definition insert_endpoint_candidate (node_id : NodeId) (p : PreparedEndpointCandidate) (report_generation now : Z)
    : Handling unit :=
  let key := (node_id, ec_endpoint_id (pr_candidate p)) in
  let row := new_row p report_generation now in
  _ ← tx_execute (fun c =>
        _ ← ensure (candidate_row_ok row && bool_decide (fl_candidates c !! key = None)
                    && bool_decide ((node_id, ca_applied_revision row) ∈ fl_targets c)
                    && negb (address_taken node_id key.2 (row_address row) c)) CtlSqlite;
        Ok (set_candidates (<[key := row]> (fl_candidates c)) c));
  tx_execute (fun c =>
    _ ← ensure (bool_decide (fl_verifications c !! key = None)) CtlSqlite;
    Ok (set_verifications (<[key := mkVerificationRow VsPending 0 None None None None None now]> (fl_verifications c)) c)).

(** [record_endpoint_candidates] *)
Definition refresh_or_defer (node_id : NodeId) (report_generation now : Z) (new_candidates : list PreparedEndpointCandidate)
    (candidate : EndpointCandidate) : Handling (list PreparedEndpointCandidate) :=
  _ ← tx_query (validate_endpoint_candidate_revision node_id candidate);
  known ← refresh_endpoint_candidate node_id (prepared candidate) report_generation now;
  mret (if known : bool then new_candidates else new_candidates ++ [prepared candidate]).
Definition record_endpoint_candidates (node_id : NodeId) (heartbeat : NodeHeartbeat) (report_generation now : Z)
    : Handling unit :=
  new_candidates ← tx_fold (refresh_or_defer node_id report_generation now) [] (hb_endpoints heartbeat);
  _ ← withdraw_missing_candidates node_id report_generation now;
  tx_for_each (fun p => insert_endpoint_candidate node_id p report_generation now) new_candidates.

(** ** The signed answer *)

(** [StoredNodeEndpointStatus]: a current candidate with its verification and the
    last attempt to reach it by TCP *)
Record StoredNodeEndpointStatus : Type := mkStoredEndpoint {
  se_endpoint_id : EndpointId;
  se_candidate : CandidateRow;
  se_verification : VerificationRow;
  se_attempt : option AttemptRow;
}.
Definition latest_tcp_attempt (node_id : NodeId) (endpoint_id : EndpointId) (c : Fleet) : option AttemptRow :=
  List.find (fun a => bool_decide (at_node_id a = node_id) && bool_decide (at_endpoint_id a = endpoint_id)
                      && bool_decide (at_phase a = PhTcp)) (fl_attempts c).
Definition stored_endpoint (node_id : NodeId) (c : Fleet) (entry : (NodeId * EndpointId) * CandidateRow)
    : option StoredNodeEndpointStatus :=
  let '(key, row) := entry in
  if bool_decide (key.1 = node_id) && negb (present (ca_withdrawn_at row)) then
    v ← fl_verifications c !! key;
    Some (mkStoredEndpoint key.2 row v (latest_tcp_attempt node_id key.2 c))
  else None.
Definition stored_endpoints (node_id : NodeId) (c : Fleet) : list StoredNodeEndpointStatus :=
  omap (stored_endpoint node_id c) (map_to_list (fl_candidates c)).

(** [decode_node_endpoint_status] *)
Definition attempt_readiness (stored : StoredNodeEndpointStatus) (now : Z)
    : db_result (EndpointReadiness * option OffsetDateTime * option string) :=
  match se_attempt stored with
  | None => Ok (RdPending, None, None)
  | Some a =>
      let attempt_is_current := ca_verification_generation (se_candidate stored) <=? at_candidate_generation a in
      match at_status a with
      | AtClaimed =>
          if (at_candidate_generation a =? ca_last_report_generation (se_candidate stored)) && (now <? at_claim_expires_at a)
          then Ok (RdChecking, None, None) else Ok (RdPending, None, None)
      | AtCancelled | AtExpired => Ok (RdPending, None, None)
      | AtSucceeded =>
          if attempt_is_current then
            completed ← ok_or (at_completed_at a) StoredProtocolValue;
            checked ← control_timestamp completed;
            Ok (RdTcpReachable, Some checked, None)
          else Ok (RdPending, None, None)
      | AtFailed =>
          if attempt_is_current then
            completed ← ok_or (at_completed_at a) StoredProtocolValue;
            checked ← control_timestamp completed;
            code ← ok_or (at_result_code a) StoredProtocolValue;
            Ok (RdTcpUnreachable, Some checked, Some code)
          else Ok (RdPending, None, None)
      end
  end.
Definition decode_node_endpoint_status (now : Z) (stored : StoredNodeEndpointStatus) : db_result NodeEndpointStatus :=
  verification_is_current ← match ve_status (se_verification stored) with
                            | VsVerified => Ok (some_and (ve_expires_at (se_verification stored)) (fun e => now <? e))
                            | VsPending | VsFailed => Ok false
                            | VsWithdrawn => Err StoredProtocolValue
                            end;
  if verification_is_current : bool then
    probed ← ok_or (ve_last_probe_at (se_verification stored)) StoredProtocolValue;
    checked ← control_timestamp probed;
    Ok (mkEndpointStatus (se_endpoint_id stored) RdVerified (Some checked) None)
  else
    status ← attempt_readiness stored now;
    let '(readiness, last_checked_at, error_code) := status in
    Ok (mkEndpointStatus (se_endpoint_id stored) readiness last_checked_at error_code).

(** [ControllerIdentity::public_key] and [sign] *)
Definition identity_public_key : string := base64_encode controller_public_bytes.
Definition identity_sign (message : list byte) : db_result string :=
  map_err (fun _ => CtlIdentity) (fixed_base64url 64 (base64_encode (controller_sign message))).
(** [controller_signing_key_id] *)
Definition controller_signing_key_id : db_result SigningKeyId :=
  map_err (fun _ => CtlDesiredState) (ed25519_signing_key_id identity_public_key).

(** [build_signed_node_heartbeat_status] *)
Definition build_signed_node_heartbeat_status (network : NetworkRow) (node_id : NodeId) (heartbeat_generation : Z)
    (status : NodeStatus) (now : Z) (c : Fleet) : db_result SignedNodeHeartbeatStatus :=
  lifecycle ← match status with
              | NodePending => Ok LcPending
              | NodeActive => Ok LcActive
              | _ => Err StoredProtocolValue
              end;
  endpoints ← mapM (M := db_result) (decode_node_endpoint_status now) (stored_endpoints node_id c);
  let endpoints := merge_sort endpoint_order endpoints in
  controller_instance_id ← map_err (fun _ => StoredProtocolValue) (id_from_str (nw_controller_epoch network));
  observed_at ← control_timestamp now;
  signing_key_id ← controller_signing_key_id;
  let document := ProtoNode.mkStatus 1 node_id heartbeat_generation observed_at lifecycle endpoints signing_key_id
                    controller_instance_id in
  transcript ← map_err (fun _ => StoredProtocolValue) (node_heartbeat_status_transcript document);
  signature ← identity_sign transcript;
  Ok (mkSignedStatus document signature).

(** ** Heartbeats *)

Definition heard (heartbeat : NodeHeartbeat) (digest : list byte) (now : Z) (row : NodeRow) : NodeRow :=
  mkNodeRow (nd_status row) (hb_agent_version heartbeat) (hb_xray_version heartbeat) (Some (hb_state heartbeat))
    (hb_provider_paused heartbeat) (Some now) (nd_desired row) (desired_revision (hb_revisions heartbeat)) (nd_received row)
    (nd_validated row) (nd_applied row) (hb_telemetry_cursor heartbeat) (hb_generation heartbeat) (Some digest) now
    (nd_reality row).

(** [record_heartbeat] *)
Definition record_heartbeat (o : Outside) (node_id : NodeId) (heartbeat : NodeHeartbeat) : Handling SignedNodeHeartbeatStatus :=
  _ ← tx_lift (map_err ProtocolValidation (heartbeat_validate heartbeat));
  heartbeat_json ← tx_lift (ok_or (heartbeat_to_vec heartbeat) CtlJson);
  let heartbeat_digest := sha256 heartbeat_json in
  now ← tx_lift (control_seconds (ot_wall o));
  transaction CtlSqlite (ot_database o)
    (network ← tx_query load_fleet_network;
     previous ← tx_query (fun c => ok_or (fl_nodes c !! node_id) NodeRevoked);
     _ ← tx_lift (ensure (serves (nd_status previous)) NodeRevoked);
     let answer := tx_query (build_signed_node_heartbeat_status network node_id (hb_generation heartbeat)
                     (nd_status previous) now) in
     match hb_generation heartbeat ?= nd_heartbeat_generation previous with
     | Lt => tx_lift (Err NodeHeartbeatStale)
     | Eq =>
         if bool_decide (nd_heartbeat_sha256 previous = Some heartbeat_digest) then answer
         else tx_lift (Err NodeHeartbeatConflict)
     | Gt =>
         _ ← tx_query (validate_reported_progress node_id heartbeat);
         _ ← tx_execute (update_node node_id (heard heartbeat heartbeat_digest now));
         _ ← record_endpoint_candidates node_id heartbeat (hb_generation heartbeat) now;
         answer
     end).

(** ** Results of revisions *)

(** [validate_result_target] *)
Definition validate_result_target (node_id : NodeId) (revision : Z) (c : Fleet) : db_result unit :=
  row ← ok_or (fl_nodes c !! node_id) NodeRevoked;
  _ ← ensure (serves (nd_status row)) NodeRevoked;
  _ ← ensure (negb (some_and (nd_desired row) (fun target => target <? revision))) RevisionResultConflict;
  ensure (bool_decide ((node_id, revision) ∈ fl_targets c)) RevisionTargetNotFound.

(** [parse_stored_revision_result]; [revision_result_rank] is [rank] *)
Definition parse_stored_revision_result (revision : Z) (state : RevisionResultState) (stored : StoredRevisionResult)
    : db_result RevisionResult :=
  result ← ok_or (report_from_str (sr_result_json stored)) StoredRevisionResultCorrupt;
  _ ← map_err (fun _ => StoredRevisionResultCorrupt) (result_validate result revision);
  _ ← ensure (bool_decide (rr_state result = state) && (rank (rr_state result) =? sr_state_rank stored)
              && bool_decide (rr_config_digest result = sr_config_digest stored)
              && bool_decide (rr_rollback_revision result = sr_rollback_revision stored)) StoredRevisionResultCorrupt;
  Ok result.
(** [load_revision_result_state] *)
Definition load_revision_result_state (node_id : NodeId) (revision : Z) (state : RevisionResultState) (c : Fleet)
    : db_result (option RevisionResult) :=
  match fl_results c !! (node_id, revision, state) with
  | Some stored => result ← parse_stored_revision_result revision state stored; Ok (Some result)
  | None => Ok None
  end.
(** [load_latest_revision_result]: of the highest rank; in one rank the index has
    the states in the order of their names *)
Definition states_by_rank : list RevisionResultState := [RsApplied; RsRejected; RsRolledBack; RsValidated; RsReceived].
Definition latest_state (node_id : NodeId) (revision : Z) (c : Fleet) : option RevisionResultState :=
  List.find (fun state => present (fl_results c !! (node_id, revision, state))) states_by_rank.
Definition load_latest_revision_result (node_id : NodeId) (revision : Z) (c : Fleet) : db_result (option RevisionResult) :=
  match latest_state node_id revision c with
  | Some state => load_revision_result_state node_id revision state c
  | None => Ok None
  end.

(** [validate_result_dependencies] *)
Definition validate_result_dependencies (node_id : NodeId) (revision : Z) (result : RevisionResult) (c : Fleet)
    : db_result unit :=
  _ ← match rr_state result with
      | RsApplied | RsRolledBack =>
          validated ← load_revision_result_state node_id revision RsValidated c;
          validated ← ok_or validated RevisionResultConflict;
          ensure (negb (bool_decide (rr_state result = RsApplied)
                        && negb (bool_decide (rr_config_digest validated = rr_config_digest result)))) RevisionResultConflict
      | _ => Ok tt
      end;
  match rr_state result with
  | RsRolledBack =>
      rollback ← ok_or (rr_rollback_revision result) RevisionResultConflict;
      applied ← load_revision_result_state node_id rollback RsApplied c;
      applied ← ok_or applied RevisionResultConflict;
      ensure (bool_decide (rr_config_digest applied = rr_config_digest result)) RevisionResultConflict
  | _ => Ok tt
  end.

(** [append_revision_result] *)
Definition append_revision_result (node_id : NodeId) (revision : Z) (result : RevisionResult) (now : Z) (c : Fleet)
    : db_result Fleet :=
  json ← ok_or (report_to_string result) CtlJson;
  let key := (node_id, revision, rr_state result) in
  _ ← ensure ((0 <? revision) && text_within 2 8192 json
              && match rr_rollback_revision result with Some r => (0 <? r) && (r <? revision) | None => true end
              && bool_decide (fl_results c !! key = None) && bool_decide ((node_id, revision) ∈ fl_targets c)) CtlSqlite;
  Ok (set_revision_results (<[key := mkStoredResult (rank (rr_state result)) json (rr_config_digest result)
        (rr_rollback_revision result) now]> (fl_results c)) c).

(** [update_revision_progress_cache] *)
Definition raise_to (revision : Z) (before : option Z) : option Z := Some (Z.max (default 0 before) revision).
Definition received_up_to (revision now : Z) (row : NodeRow) : NodeRow :=
  mkNodeRow (nd_status row) (nd_agent_version row) (nd_xray_version row) (nd_runtime_state row) (nd_provider_paused row)
    (nd_last_seen_at row) (nd_desired row) (raise_to revision (nd_reported_desired row)) (raise_to revision (nd_received row))
    (nd_validated row) (nd_applied row) (nd_telemetry_cursor row) (nd_heartbeat_generation row) (nd_heartbeat_sha256 row) now
    (nd_reality row).
Definition set_validated (f : option Z -> option Z) (row : NodeRow) : NodeRow :=
  mkNodeRow (nd_status row) (nd_agent_version row) (nd_xray_version row) (nd_runtime_state row) (nd_provider_paused row)
    (nd_last_seen_at row) (nd_desired row) (nd_reported_desired row) (nd_received row) (f (nd_validated row)) (nd_applied row)
    (nd_telemetry_cursor row) (nd_heartbeat_generation row) (nd_heartbeat_sha256 row) (nd_updated_at row)
    (nd_reality row).
Definition set_applied (f : option Z -> option Z) (row : NodeRow) : NodeRow :=
  mkNodeRow (nd_status row) (nd_agent_version row) (nd_xray_version row) (nd_runtime_state row) (nd_provider_paused row)
    (nd_last_seen_at row) (nd_desired row) (nd_reported_desired row) (nd_received row) (nd_validated row) (f (nd_applied row))
    (nd_telemetry_cursor row) (nd_heartbeat_generation row) (nd_heartbeat_sha256 row) (nd_updated_at row)
    (nd_reality row).
Definition update_revision_progress_cache (node_id : NodeId) (revision : Z) (result : RevisionResult) (now : Z)
    : Handling unit :=
  _ ← tx_execute (update_node node_id (received_up_to revision now));
  _ ← match rr_state result with
      | RsValidated | RsApplied | RsRolledBack => tx_execute (update_node node_id (set_validated (raise_to revision)))
      | _ => mret tt
      end;
  match rr_state result with
  | RsApplied => tx_execute (update_node node_id (set_applied (raise_to revision)))
  | RsRolledBack =>
      rollback ← tx_lift (ok_or (rr_rollback_revision result) RevisionResultConflict);
      tx_execute (update_node node_id (set_applied (fun _ => Some rollback)))
  | _ => mret tt
  end.

(** [reconcile_applied_member_credentials] *)
Definition activated_row (now : Z) (r : MemberCredentialRow) : MemberCredentialRow :=
  mkMemberCredential (mc_node_id r) CrActive (mc_created_at r) (Some (default now (mc_activated_at r))) (mc_retire_after r)
    (mc_revoked_at r) (mc_assignment_enabled r) (mc_account_active r).
Definition revoked_row (now : Z) (r : MemberCredentialRow) : MemberCredentialRow :=
  mkMemberCredential (mc_node_id r) CrRevoked (mc_created_at r) (mc_activated_at r) None (Some now)
    (mc_assignment_enabled r) (mc_account_active r).
Definition update_members (selected : CredentialId -> MemberCredentialRow -> bool) (f : MemberCredentialRow -> MemberCredentialRow)
    : Handling Z :=
  count ← tx_read (fun c => Z.of_nat (size (filter (fun row => selected row.1 row.2 = true) (fl_members c))));
  _ ← tx_execute (fun c =>
        _ ← ensure (bool_decide (map_Forall (fun k r => selected k r = true -> member_credential_ok (f r) = true)
              (fl_members c))) CtlSqlite;
        Ok (set_members (update_where selected f (fl_members c)) c));
  mret count.
Definition in_snapshot (node_id : NodeId) (revision : Z) (c : Fleet) (credential_id : CredentialId) : bool :=
  bool_decide ((node_id, revision, credential_id) ∈ fl_snapshot_credentials c).
Definition policy_violations (node_id : NodeId) (revision : Z) (c : Fleet) : Z :=
  Z.of_nat (size (filter (fun row => in_snapshot node_id revision c row.1
    && negb (bool_decide (mc_status row.2 = CrActive) && mc_assignment_enabled row.2 && mc_account_active row.2) = true)
    (fl_members c))).
Definition reconcile_applied_member_credentials (node_id : NodeId) (now : Z) : Handling unit :=
  applied_revision ← tx_query (fun c => row ← ok_or (fl_nodes c !! node_id) CtlSqlite; ok_or (nd_applied row) RevisionResultConflict);
  c ← tx_read id;
  if negb (bool_decide ((node_id, applied_revision) ∈ fl_snapshots c)) then mret tt
  else
    activated ← update_members (fun id r => bool_decide (mc_node_id r = node_id) && bool_decide (mc_status r = CrPending)
                  && in_snapshot node_id applied_revision c id) (activated_row now);
    revoked ← update_members (fun id r => bool_decide (mc_node_id r = node_id)
                && bool_decide (mc_status r ∈ [CrActive; CrRetiring])
                && negb (in_snapshot node_id applied_revision c id)) (revoked_row now);
    violations ← tx_read (policy_violations node_id applied_revision);
    tx_write (insert_audit_event now (MemberCredentialsReconciled node_id activated applied_revision violations revoked)).

(** [record_revision_result] *)
Definition record_revision_result (o : Outside) (node_id : NodeId) (revision : Z) (result : RevisionResult) : Handling unit :=
  _ ← tx_lift (map_err ProtocolValidation (result_validate result revision));
  now ← tx_lift (control_seconds (ot_wall o));
  transaction CtlSqlite (ot_database o)
    (_ ← tx_query load_fleet_network;
     _ ← tx_query (validate_result_target node_id revision);
     previous ← tx_query (load_latest_revision_result node_id revision);
     _ ← tx_lift (map_err (fun _ => RevisionResultConflict) (validate_transition_from result previous));
     if bool_decide (previous = Some result) then mret tt
     else
       _ ← tx_query (validate_result_dependencies node_id revision result);
       _ ← tx_execute (append_revision_result node_id revision result now);
       _ ← update_revision_progress_cache node_id revision result now;
       _ ← match rr_state result with
           | RsApplied | RsRolledBack => reconcile_applied_member_credentials node_id now
           | _ => mret tt
           end;
       match rr_state result with
       | RsRejected | RsRolledBack =>
           tx_write (insert_audit_event now (RevisionFailed node_id revision (rr_error_code result)
             (rr_rollback_revision result) (rr_state result)))
       | _ => mret tt
       end).
End Fleet.
