(* ===== verification/ControlProbes.v ===== *)
(** * Endpoint probes at the controller

    [src/control-server/src/db.rs] with the jobs, results and schedules of
    [probe.rs] and [protocol_canary.rs]: claiming an endpoint that is due, first
    for a TCP connection and then for a connection through the proxy, and
    recording what the probe found. Only the second kind verifies an endpoint.
    Durations are in nanoseconds. The probe itself, the fresh identity and the
    fresh token of a claim come from the outside. *)
From S2P Require Import Prelude Text ProtoTypes ProtoAuth ProtoNode ProtoSigned ProtoTelemetry NodeHostDb Transaction NodePolicy.
From S2P Require Import NodeHostRuntime ControlTelemetry RouterMapping ControlNodes.
From stdpp Require Import sorting.
Open Scope Z_scope.

(** [ProbeSchedule], and what [claim_protocol_canary] reads of
    [ProtocolCanaryLoopOptions] *)
Record ProbeSchedule : Type := mkSchedule {
  ps_claim_lease : Z;
  ps_success_interval : Z;
  ps_failure_interval : Z;
  ps_node_online_window : Z;
}.
(** [TcpProbeLoopOptions::default] and [ProtocolCanaryLoopOptions::default] *)
Definition default_tcp_schedule : ProbeSchedule := mkSchedule (30 * NANOS) (15 * 60 * NANOS) (30 * NANOS) (90 * NANOS).
Definition default_canary_schedule : ProbeSchedule := mkSchedule (30 * NANOS) (10 * 60 * NANOS) (30 * NANOS) (90 * NANOS).

(** [TcpProbeJob] *)
Record TcpProbeJob : Type := mkTcpJob {
  tj_probe_id : Uuid;
  tj_runner_id : Uuid;
  tj_network_id : NetworkId;
  tj_node_id : NodeId;
  tj_endpoint_id : EndpointId;
  tj_address : string;
  tj_port : Z;
  tj_applied_revision : Z;
  tj_candidate_generation : Z;
  tj_claim_expires_at : Z;
  tj_claim_token : list byte;
}.
(** [ProtocolCanaryJob]; [pj_shape] are the fields it shares with the other *)
Record ProtocolCanaryJob : Type := mkCanaryJob {
  pj_shape : TcpProbeJob;
  pj_resolved_address : IpAddr;
  pj_vless_uuid : string;
  pj_reality_public_key : string;
  pj_reality_short_id : string;
  pj_server_name : string;
}.
(** [TcpProbeErrorCode], [ProtocolCanaryErrorCode] and their [as_str] *)
Inductive TcpProbeErrorCode : Type :=
| TargetNotPublic | NoSupportedAddress | DnsFailed | DnsTimeout | TooManyAddresses | TcpUnreachable | TcpTimeout | ExecutorFailed.
Definition tcp_code_as_str (code : TcpProbeErrorCode) : string :=
  match code with
  | TargetNotPublic => "direct_target_not_public"
  | NoSupportedAddress => "direct_no_supported_address"
  | DnsFailed => "direct_dns_failed"
  | DnsTimeout => "direct_dns_timeout"
  | TooManyAddresses => "direct_dns_too_many_addresses"
  | TcpUnreachable => "direct_tcp_unreachable"
  | TcpTimeout => "direct_tcp_timeout"
  | ExecutorFailed => "direct_probe_executor_failed"
  end.
Inductive ProtocolCanaryErrorCode : Type :=
| BinaryInvalid | ClientStartFailed | ClientUnhealthy | VlessRealityHandshakeFailed | TimedOut.
Definition canary_code_as_str (code : ProtocolCanaryErrorCode) : string :=
  match code with
  | BinaryInvalid => "protocol_binary_invalid"
  | ClientStartFailed => "protocol_client_start_failed"
  | ClientUnhealthy => "protocol_client_unhealthy"
  | VlessRealityHandshakeFailed => "protocol_vless_reality_failed"
  | TimedOut => "protocol_timeout"
  end.
(** [TcpProbeResult], [ProtocolCanaryResult], [TcpProbeCompletion] *)
Inductive TcpProbeResult : Type :=
| TcpConnected (resolved_address : IpAddr) (latency : Z)
| TcpFailed (code : TcpProbeErrorCode) (resolved_address : option IpAddr) (latency : option Z).
Inductive ProtocolCanaryResult : Type :=
| CanaryConnected (latency : Z)
| CanaryFailed (code : ProtocolCanaryErrorCode).
Inductive TcpProbeCompletion : Type := Recorded | AlreadyRecorded | CandidateChanged | ClaimExpired.

(** What is new in a claim *)
Record FreshClaim : Type := mkFresh { fr_probe_id : Uuid; fr_claim_token : list byte }.

(** [ProbeTerminalResult] *)
Record ProbeTerminalResult : Type := mkTerminal {
  te_status : AttemptStatus;
  te_resolved_address : option string;
  te_latency_ms : option Z;
  te_result_code : string;
}.
(** [ProbeTerminalResult::expired] and [candidate_changed] *)
Definition terminal_expired : ProbeTerminalResult := mkTerminal AtExpired None None "claim_expired".
Definition terminal_changed : ProbeTerminalResult := mkTerminal AtCancelled None None "candidate_changed".

Section Probes.
Context `{U : UuidText} `{Sha : Sha256} `{AJson : ArtifactJson}.
Abbreviation Handling := (Tx Fleet DatabaseError).
Abbreviation db_result := (result DatabaseError).
Abbreviation Entry := ((NodeId * EndpointId) * CandidateRow)%type.

(** [probe_duration_seconds], [probe_duration_millis] *)
Definition probe_duration_seconds (duration : Z) : db_result Z :=
  _ ← ensure (duration / NANOS <=? i64_max) InvalidProbeSchedule;
  _ ← ensure (negb (duration / NANOS =? 0)) InvalidProbeSchedule;
  Ok (duration / NANOS).
Definition probe_duration_millis (duration : Z) : db_result Z :=
  _ ← ensure (duration / 1000000 <=? i64_max) ProbeResultOverflow; Ok (duration / 1000000).

(** ** Claims *)

(** [expire_stale_probe_claims] *)
Definition expire_stale_probe_claims (now : Z) : Fleet -> db_result Fleet :=
  update_attempts (fun a => bool_decide (at_status a = AtClaimed) && (at_claim_expires_at a <=? now))
    (finished AtExpired now None None "claim_expired").

(** The endpoint goes where the revision says: its public port, or the relay *)
Definition offered_by_revision (node_id : NodeId) (row : CandidateRow) (c : Fleet) : bool :=
  match revision_of node_id (ca_applied_revision row) c with
  | Some revision =>
      (bool_decide (ca_mode row = EmDirect) && bool_decide (revision_port revision = Some (ca_port row)))
      || (bool_decide (ca_mode row = EmRelay) && bool_decide (ca_source row = EsRelay))
  | None => false
  end.
(** The candidate is current at a time *)
Definition row_current (t : Z) (row : CandidateRow) : bool :=
  negb (present (ca_withdrawn_at row)) && match ca_expires_at row with Some e => t <? e | None => true end.
Definition verification_current (key : NodeId * EndpointId) (c : Fleet) : bool :=
  some_and (fl_verifications c !! key) (fun v => negb (bool_decide (ve_status v = VsWithdrawn))).
(** The node serves the revision and reported the candidate last *)
Definition node_serves (row : CandidateRow) (n : NodeRow) : bool :=
  bool_decide (nd_status n = NodeActive) && bool_decide (nd_runtime_state n = Some RunServing) && negb (nd_provider_paused n)
  && bool_decide (nd_applied n = Some (ca_applied_revision row))
  && (nd_heartbeat_generation n =? ca_last_report_generation row).
Definition seen_since (cutoff : Z) (n : NodeRow) : bool := some_and (nd_last_seen_at n) (fun seen => cutoff <=? seen).
Definition unclaimed (node_id : NodeId) (c : Fleet) : bool :=
  forallb (fun a => negb (bool_decide (at_node_id a = node_id) && bool_decide (at_status a = AtClaimed))) (fl_attempts c).

(** The attempts of a phase since the candidate was last new, and the order and
    time of the next one; the identity of a row is its place in the table *)
Definition attempt_of (phase : ProbePhase) (entry : Entry) (a : AttemptRow) : bool :=
  bool_decide (at_node_id a = entry.1.1) && bool_decide (at_endpoint_id a = entry.1.2) && bool_decide (at_phase a = phase)
  && (ca_verification_generation entry.2 <=? at_candidate_generation a).
Fixpoint last_attempt_id (selected : AttemptRow -> bool) (attempts : list AttemptRow) : Z :=
  match attempts with
  | [] => 0
  | a :: rest => if selected a then zlen attempts else last_attempt_id selected rest
  end.
Definition next_attempt_at (phase : ProbePhase) (success_interval failure_interval : Z) (entry : Entry) (c : Fleet) : Z :=
  match List.find (attempt_of phase entry) (fl_attempts c) with
  | Some a => at_started_at a + (if bool_decide (at_status a = AtSucceeded) then success_interval else failure_interval)
  | None => 0
  end.
Definition probe_order (phase : ProbePhase) (c : Fleet) (a b : Entry) : Prop :=
  let rank (e : Entry) := (last_attempt_id (attempt_of phase e) (fl_attempts c), ca_first_reported_at e.2, be_value (uuid_bytes e.1.2)) in
  (rank a).1.1 < (rank b).1.1 \/ ((rank a).1.1 = (rank b).1.1 /\
    ((rank a).1.2 < (rank b).1.2 \/ ((rank a).1.2 = (rank b).1.2 /\ (rank a).2 <= (rank b).2))).
#[local] Instance probe_order_dec phase c : RelDecision (probe_order phase c).
Proof. intros a b. unfold probe_order. apply _. Defined.
(** [ORDER BY .. LIMIT 1]; between endpoints of equal rank SQL leaves the choice open *)
Definition first_due (phase : ProbePhase) (due : Entry -> bool) (c : Fleet) : option Entry :=
  hd_error (merge_sort (probe_order phase c) (List.filter due (map_to_list (fl_candidates c)))).

(** [SELECT_DUE_TCP_PROBE_SQL] *)
Definition tcp_due (online_cutoff claim_expires_at success_interval failure_interval now : Z) (c : Fleet) (entry : Entry) : bool :=
  let '((node_id, endpoint_id), row) := entry in
  some_and (fl_network c) nw_active
  && some_and (fl_nodes c !! node_id) (fun n => node_serves row n && seen_since online_cutoff n)
  && offered_by_revision node_id row c && row_current claim_expires_at row && verification_current (node_id, endpoint_id) c
  && unclaimed node_id c && (next_attempt_at PhTcp success_interval failure_interval entry c <=? now).

(** [decode_probe_candidate]; [u16::try_from] *)
Definition u16_of (z : Z) : db_result Z := _ ← ensure ((0 <=? z) && (z <=? 65535)) StoredProtocolValue; Ok z.
Definition network_identity (c : Fleet) : db_result NetworkId :=
  network ← ok_or (fl_network c) CtlSqlite;
  map_err (fun _ => StoredProtocolValue) (id_from_str (nw_network_id network)).
Definition decode_probe_candidate (c : Fleet) (entry : Entry) : db_result (NetworkId * Z * Z) :=
  _ ← ensure (negb (ca_last_report_generation entry.2 <=? 0)) StoredProtocolValue;
  network_id ← network_identity c;
  port ← u16_of (ca_port entry.2);
  applied_revision ← map_err (fun _ => StoredProtocolValue) (positive_new (ca_applied_revision entry.2));
  Ok (network_id, port, applied_revision).
(** [select_due_tcp_probe] *)
Definition select_due_tcp_probe (online_cutoff claim_expires_at success_interval failure_interval now : Z) (c : Fleet)
    : db_result (option (Entry * (NetworkId * Z * Z))) :=
  match first_due PhTcp (tcp_due online_cutoff claim_expires_at success_interval failure_interval now c) c with
  | Some entry => decoded ← decode_probe_candidate c entry; Ok (Some (entry, decoded))
  | None => Ok None
  end.

(** [insert_tcp_probe_claim], and the same statement for the other phase *)
Definition claim_row (phase : ProbePhase) (job : TcpProbeJob) (now : Z) : AttemptRow :=
  mkAttemptRow (tj_probe_id job) (tj_node_id job) (tj_endpoint_id job) phase AtClaimed (tj_runner_id job)
    (sha256 (tj_claim_token job)) (tj_candidate_generation job) (tj_address job) (tj_port job) (tj_applied_revision job) now
    (tj_claim_expires_at job) None None None None.
Definition insert_claim (phase : ProbePhase) (job : TcpProbeJob) (now : Z) (c : Fleet) : db_result Fleet :=
  let row := claim_row phase job now in
  _ ← ensure (attempt_row_ok row && unclaimed (tj_node_id job) c
              && forallb (fun a => negb (bool_decide (at_probe_id a = tj_probe_id job))) (fl_attempts c)
              && bool_decide (is_Some (fl_candidates c !! (tj_node_id job, tj_endpoint_id job)))) CtlSqlite;
  Ok (set_attempts (row :: fl_attempts c) c).

(** [claim_tcp_probe] *)
Definition claim_tcp_probe (o : Outside) (fresh : FreshClaim) (runner_id : Uuid) (schedule : ProbeSchedule)
    : Handling (option TcpProbeJob) :=
  now ← tx_lift (control_seconds (ot_wall o));
  lease ← tx_lift (probe_duration_seconds (ps_claim_lease schedule));
  claim_expires_at ← tx_lift (ok_or (checked_add i64_max now lease) TimestampOverflow);
  window ← tx_lift (probe_duration_seconds (ps_node_online_window schedule));
  let online_cutoff := now - window in
  transaction CtlSqlite (ot_database o)
    (_ ← tx_execute (expire_stale_probe_claims now);
     success_interval ← tx_lift (probe_duration_seconds (ps_success_interval schedule));
     failure_interval ← tx_lift (probe_duration_seconds (ps_failure_interval schedule));
     selected ← tx_query (select_due_tcp_probe online_cutoff claim_expires_at success_interval failure_interval now);
     match selected with
     | None => mret None
     | Some (entry, (network_id, port, applied_revision)) =>
         let job := mkTcpJob (fr_probe_id fresh) runner_id network_id entry.1.1 entry.1.2 (ca_address entry.2) port
                      applied_revision (ca_last_report_generation entry.2) claim_expires_at (fr_claim_token fresh) in
         _ ← tx_execute (insert_claim PhTcp job now);
         mret (Some job)
     end).

(** The credential of the canary in a revision, when it is active *)
Definition canary_of (node_id : NodeId) (revision : Z) (c : Fleet) : option CanaryRow :=
  credential_id ← fl_revision_canaries c !! (node_id, revision);
  row ← fl_canaries c !! (node_id, credential_id);
  if cy_active row then Some row else None.
(** The last TCP connection to the endpoint as it is *)
Definition preflight_of (entry : Entry) (a : AttemptRow) : bool :=
  attempt_of PhTcp entry a && bool_decide (at_status a = AtSucceeded) && (at_applied_revision a =? ca_applied_revision entry.2)
  && bool_decide (at_address a = ca_address entry.2) && (at_port a =? ca_port entry.2).
(** The [WHERE] of [claim_protocol_canary] *)
Definition canary_due (online_cutoff tcp_cutoff success_interval failure_interval now : Z) (c : Fleet) (entry : Entry) : bool :=
  let '((node_id, endpoint_id), row) := entry in
  some_and (fl_nodes c !! node_id) (fun n => node_serves row n && seen_since online_cutoff n)
  && bool_decide (is_Some (revision_of node_id (ca_applied_revision row) c))
  && bool_decide (is_Some (canary_of node_id (ca_applied_revision row) c))
  && some_and (List.find (preflight_of entry) (fl_attempts c)) (fun tcp =>
       some_and (at_completed_at tcp) (fun completed => tcp_cutoff <=? completed) && present (at_resolved_address tcp))
  && verification_current (node_id, endpoint_id) c && row_current now row && unclaimed node_id c
  && (next_attempt_at PhProtocol success_interval failure_interval entry c <=? now).
(** The other columns of the row; [NULL] in one of them is an error of SQLite *)
Definition canary_columns (c : Fleet) (entry : Entry) : db_result (string * string * string * string * string) :=
  let '((node_id, endpoint_id), row) := entry in
  resolved_address ← ok_or (tcp ← List.find (preflight_of entry) (fl_attempts c); at_resolved_address tcp) CtlSqlite;
  canary ← ok_or (canary_of node_id (ca_applied_revision row) c) CtlSqlite;
  node ← ok_or (fl_nodes c !! node_id) CtlSqlite;
  reality_public_key ← ok_or (nd_reality node).1 CtlSqlite;
  reality_short_id ← ok_or (nd_reality node).2 CtlSqlite;
  server_name ← ok_or (revision ← revision_of node_id (ca_applied_revision row) c; server_name_of (rv_artifact_json revision)) CtlSqlite;
  Ok (resolved_address, cy_vless_uuid canary, reality_public_key, reality_short_id, server_name).

(** [claim_protocol_canary] *)
Definition claim_protocol_canary (o : Outside) (fresh : FreshClaim) (runner_id : Uuid) (options : ProbeSchedule)
    : Handling (option ProtocolCanaryJob) :=
  now ← tx_lift (control_seconds (ot_wall o));
  lease ← tx_lift (probe_duration_seconds (ps_claim_lease options));
  claim_expires_at ← tx_lift (ok_or (checked_add i64_max now lease) TimestampOverflow);
  window ← tx_lift (probe_duration_seconds (ps_node_online_window options));
  let online_cutoff := now - window in
  success_interval ← tx_lift (probe_duration_seconds (ps_success_interval options));
  let tcp_cutoff := now - success_interval in
  failure_interval ← tx_lift (probe_duration_seconds (ps_failure_interval options));
  transaction CtlSqlite (ot_database o)
    (_ ← tx_execute (expire_stale_probe_claims now);
     c ← tx_read id;
     match first_due PhProtocol (canary_due online_cutoff tcp_cutoff success_interval failure_interval now c) c with
     | None => mret None
     | Some entry =>
         columns ← tx_query (fun c => canary_columns c entry);
         let '(resolved_address, vless_uuid, reality_public_key, reality_short_id, server_name) := columns in
         network_id ← tx_query network_identity;
         port ← tx_lift (u16_of (ca_port entry.2));
         applied_revision ← tx_lift (map_err (fun _ => StoredProtocolValue) (positive_new (ca_applied_revision entry.2)));
         resolved_address ← tx_lift (ok_or (parse_ip (as_bytes resolved_address)) StoredProtocolValue);
         let shape := mkTcpJob (fr_probe_id fresh) runner_id network_id entry.1.1 entry.1.2 (ca_address entry.2) port
                        applied_revision (ca_last_report_generation entry.2) claim_expires_at (fr_claim_token fresh) in
         _ ← tx_execute (insert_claim PhProtocol shape now);
         mret (Some (mkCanaryJob shape resolved_address vless_uuid reality_public_key reality_short_id server_name))
     end).

(** ** Completion *)

(** [load_probe_claim], [load_protocol_claim] *)
Definition load_claim (job : TcpProbeJob) (c : Fleet) : db_result AttemptRow :=
  ok_or (List.find (fun a => bool_decide (at_probe_id a = tj_probe_id job)) (fl_attempts c)) ProbeClaimNotFound.
(** [StoredProbeClaim::authenticates], [authenticates_protocol] *)
Definition claim_authenticates (phase : ProbePhase) (job : TcpProbeJob) (a : AttemptRow) : bool :=
  bool_decide (at_claim_token_sha256 a = sha256 (tj_claim_token job)) && bool_decide (at_node_id a = tj_node_id job)
  && bool_decide (at_endpoint_id a = tj_endpoint_id job) && bool_decide (at_phase a = phase)
  && bool_decide (at_runner_id a = tj_runner_id job) && (at_candidate_generation a =? tj_candidate_generation job)
  && bool_decide (at_address a = tj_address job) && (at_port a =? tj_port job)
  && (at_applied_revision a =? tj_applied_revision job) && (at_claim_expires_at a =? tj_claim_expires_at job).
(** [probe_candidate_is_current] *)
Definition probe_candidate_is_current (job : TcpProbeJob) (now : Z) (c : Fleet) : bool :=
  let key := (tj_node_id job, tj_endpoint_id job) in
  some_and (fl_candidates c !! key) (fun row =>
    bool_decide (ca_address row = tj_address job) && (ca_port row =? tj_port job)
    && (ca_applied_revision row =? tj_applied_revision job) && (ca_last_report_generation row =? tj_candidate_generation job)
    && offered_by_revision (tj_node_id job) row c && row_current now row && verification_current key c
    && some_and (fl_nodes c !! tj_node_id job) (node_serves row)).
(** [protocol_canary_credential_is_current] *)
Definition protocol_canary_credential_is_current (job : ProtocolCanaryJob) (c : Fleet) : bool :=
  some_and (canary_of (tj_node_id (pj_shape job)) (tj_applied_revision (pj_shape job)) c)
    (fun row => bool_decide (cy_vless_uuid row = pj_vless_uuid job)).

(** [finish_probe_attempt], [finish_protocol_attempt]; [probe_id] is unique *)
Definition finish_attempt (job : TcpProbeJob) (result : ProbeTerminalResult) (now : Z) (c : Fleet) : db_result Fleet :=
  let selected a := bool_decide (at_probe_id a = tj_probe_id job) && bool_decide (at_status a = AtClaimed) in
  c' ← update_attempts selected (finished (te_status result) now (te_resolved_address result) (te_latency_ms result)
         (te_result_code result)) c;
  _ ← ensure (zlen (List.filter selected (fl_attempts c)) =? 1) ProbeClaimConflict;
  Ok c'.

(** [prepare_probe_result] *)
Definition prepare_probe_result (result : TcpProbeResult) : db_result ProbeTerminalResult :=
  match result with
  | TcpConnected resolved_address latency =>
      ms ← probe_duration_millis latency;
      Ok (mkTerminal AtSucceeded (Some (ip_to_string resolved_address)) (Some ms) "direct_tcp_connected")
  | TcpFailed code resolved_address latency =>
      ms ← match latency with Some l => ms ← probe_duration_millis l; Ok (Some ms) | None => Ok None end;
      Ok (mkTerminal AtFailed (ip_to_string <$> resolved_address) ms (tcp_code_as_str code))
  end.
(** What [complete_protocol_canary] makes of its result *)
Definition prepare_canary_result (job : ProtocolCanaryJob) (result : ProtocolCanaryResult) : db_result ProbeTerminalResult :=
  match result with
  | CanaryConnected latency =>
      ms ← probe_duration_millis latency;
      Ok (mkTerminal AtSucceeded (Some (ip_to_string (pj_resolved_address job))) (Some ms) "direct_protocol_connected")
  | CanaryFailed code =>
      Ok (mkTerminal AtFailed (Some (ip_to_string (pj_resolved_address job))) None (canary_code_as_str code))
  end.

(** The constraints of [node_endpoint_verifications] *)
Definition verification_row_ok (v : VerificationRow) : bool :=
  (0 <=? ve_probe_attempts v)
  && match ve_latency_ms v with Some ms => 0 <=? ms | None => true end
  && match ve_last_success_at v with Some s => some_and (ve_last_probe_at v) (fun p => s <=? p) | None => true end
  && match ve_expires_at v with Some e => some_and (ve_last_success_at v) (fun s => s <? e) | None => true end
  && match ve_status v with
     | VsPending => (ve_probe_attempts v =? 0) && negb (present (ve_last_probe_at v)) && negb (present (ve_last_success_at v))
                    && negb (present (ve_latency_ms v)) && negb (present (ve_error_code v)) && negb (present (ve_expires_at v))
     | VsVerified => (0 <? ve_probe_attempts v) && present (ve_last_probe_at v) && present (ve_last_success_at v)
                     && present (ve_latency_ms v) && negb (present (ve_error_code v)) && present (ve_expires_at v)
     | VsFailed => (0 <? ve_probe_attempts v) && present (ve_last_probe_at v) && present (ve_error_code v)
     | VsWithdrawn => true
     end.
(** [update_protocol_verification] *)
Definition verification_after (result : ProbeTerminalResult) (now expires_at : Z) (v : VerificationRow) : VerificationRow :=
  if bool_decide (te_status result = AtSucceeded) then
    mkVerificationRow VsVerified (ve_probe_attempts v + 1) (Some now) (Some now) (te_latency_ms result) None (Some expires_at) now
  else
    mkVerificationRow VsFailed (ve_probe_attempts v + 1) (Some now) (ve_last_success_at v) None (Some (te_result_code result))
      None now.
Definition update_protocol_verification (job : TcpProbeJob) (result : ProbeTerminalResult) (now : Z) (c : Fleet) : db_result Fleet :=
  let key := (tj_node_id job, tj_endpoint_id job) in
  verification_expires_at ← ok_or (checked_add i64_max now (15 * 60)) TimestampOverflow;
  v ← ok_or (fl_verifications c !! key) ProbeClaimConflict;
  _ ← ensure (negb (bool_decide (ve_status v = VsWithdrawn))) ProbeClaimConflict;
  let v' := verification_after result now verification_expires_at v in
  _ ← ensure (verification_row_ok v') CtlSqlite;
  Ok (set_verifications (<[key := v']> (fl_verifications c)) c).

(** What [complete_tcp_probe] and [complete_protocol_canary] have in common:
    [current] is whether the endpoint is still the one of the job, [record] what is
    done when it is *)
Definition complete_claim (phase : ProbePhase) (job : TcpProbeJob) (now : Z) (current : Fleet -> bool) (record : Handling unit)
    : Handling TcpProbeCompletion :=
  stored ← tx_query (load_claim job);
  _ ← tx_lift (ensure (claim_authenticates phase job stored) ProbeClaimConflict);
  if negb (bool_decide (at_status stored = AtClaimed)) then mret AlreadyRecorded
  else if at_claim_expires_at stored <=? now then
    _ ← tx_execute (finish_attempt job terminal_expired now); mret ClaimExpired
  else
    is_current ← tx_read current;
    if negb is_current then _ ← tx_execute (finish_attempt job terminal_changed now); mret CandidateChanged
    else _ ← record; mret Recorded.

(** [complete_tcp_probe] *)
Definition complete_tcp_probe (o : Outside) (job : TcpProbeJob) (result : TcpProbeResult) : Handling TcpProbeCompletion :=
  now ← tx_lift (control_seconds (ot_wall o));
  transaction CtlSqlite (ot_database o)
    (complete_claim PhTcp job now (probe_candidate_is_current job now)
       (terminal ← tx_lift (prepare_probe_result result);
        tx_execute (finish_attempt job terminal now))).

(** [complete_protocol_canary] *)
Definition complete_protocol_canary (o : Outside) (job : ProtocolCanaryJob) (result : ProtocolCanaryResult)
    : Handling TcpProbeCompletion :=
  now ← tx_lift (control_seconds (ot_wall o));
  transaction CtlSqlite (ot_database o)
    (complete_claim PhProtocol (pj_shape job) now
       (fun c => probe_candidate_is_current (pj_shape job) now c && protocol_canary_credential_is_current job c)
       (terminal ← tx_lift (prepare_canary_result job result);
        _ ← tx_execute (finish_attempt (pj_shape job) terminal now);
        tx_execute (update_protocol_verification (pj_shape job) terminal now))).
End Probes.
