(* ===== verification/ControlNodeFacts.v ===== *)
(** * What the controller's operations on nodes keep

    The tables of nodes as the operations of [ControlNodes.v] and [ControlProbes.v]
    change them: what a heartbeat does to the candidates, as one function of the
    report; the relation every operation keeps between the tables before and
    after it; and the invariant of the tables. *)
From S2P Require Import Prelude Text Clock ProtoTypes ProtoAuth ProtoNode ProtoNodeFacts ProtoSigned ProtoTelemetry NodeHostDb NodeHostRuntime Transaction.
From S2P Require Import NodePolicy NodeTelemetry ControlTelemetry RouterMapping NodeHeartbeat ControlNodes ControlProbes.
From stdpp Require Import sorting.
Open Scope Z_scope.

Lemma lookup_update_where `{Countable K} {A} (selected : K -> A -> bool) (f : A -> A) (m : gmap K A) k :
  update_where selected f m !! k = (fun a => if selected k a then f a else a) <$> m !! k.
Proof. unfold update_where. rewrite map_lookup_imap. by destruct (m !! k). Qed.

Ltac units := repeat match goal with x : () |- _ => destruct x end.

(** ** Attempts *)

(** A row stays as it is once it is finished *)
Definition attempt_step (a a' : AttemptRow) : Prop :=
  a' = a \/ (at_status a = AtClaimed /\ exists st now r l code, a' = finished st now r l code a).
Definition attempts_step (l l' : list AttemptRow) : Prop :=
  exists new old, l' = new ++ old /\ Forall2 attempt_step l old.

#[export] Instance attempt_step_trans : Transitive attempt_step.
Proof.
  intros a b c. intros [->|(Ha & st & now & r & l & code & ->)]; [done|]. intros [->|(_ & st' & now' & r' & l' & code' & ->)]; right; split; eauto 7.
Qed.
#[export] Instance attempts_step_preorder : PreOrder attempts_step.
Proof.
  split.
  - intros l. exists [], l. split; [done|]. apply Forall_Forall2_diag, Forall_true. by left.
  - intros l1 l2 l3 (n & o & -> & Ho) (n' & o' & -> & Ho').
    apply Forall2_app_inv_l in Ho' as (n2 & o2 & Hn & Ho2 & ->). exists (n' ++ n2), o2. split; [by rewrite app_assoc|].
    by etrans.
Qed.
Lemma attempts_kept l l' a : attempts_step l l' -> a ∈ l -> at_status a <> AtClaimed -> a ∈ l'.
Proof.
  intros (n & o & -> & Ho) Ha Hs. apply list_elem_of_lookup in Ha as [i Hi].
  destruct (Forall2_lookup_l _ _ _ _ _ Ho Hi) as (a' & Hi' & [->|[E _]]); [|done].
  apply elem_of_app. right. by eapply list_elem_of_lookup_2.
Qed.
Lemma update_attempts_run selected f c c' :
  update_attempts selected f c = Ok c' -> (forall a, selected a = true -> attempt_step a (f a)) ->
  attempts_step (fl_attempts c) (fl_attempts c') /\ c' = set_attempts (fl_attempts c') c.
Proof.
  unfold update_attempts. intros H Hf. tx_inv. split; [|done]. exists [], (map (fun a => if selected a then f a else a) (fl_attempts c)).
  split; [done|]. cbn. apply Forall2_fmap_r, Forall_Forall2_diag, Forall_true. intros a.
  change (attempt_step a (if selected a then f a else a)). destruct (selected a) eqn:E; [by apply Hf|by left].
Qed.
Lemma claimed_finished st now r l code a : at_status a = AtClaimed -> attempt_step a (finished st now r l code a).
Proof. right. split; [done|]. by eexists _, _, _, _, _. Qed.

(** ** What a heartbeat does to the candidates *)

Definition only_endpoints (c c' : Fleet) : Prop :=
  c' = set_attempts (fl_attempts c') (set_verifications (fl_verifications c') (set_candidates (fl_candidates c') c)).
#[export] Instance only_endpoints_preorder : PreOrder only_endpoints.
Proof.
  split; [by intros []|]. unfold only_endpoints. intros c1 c2 c3 E1 E2. rewrite E2 at 1. rewrite E1. done.
Qed.

Definition pending_at (now : Z) : VerificationRow := mkVerificationRow VsPending 0 None None None None None now.
Definition candidate_of (e : EndpointId) (l : list EndpointCandidate) : option EndpointCandidate :=
  List.find (fun candidate => bool_decide (ec_endpoint_id candidate = e)) l.

(** The candidate the report leaves for an identity, from the one there was: it
    is refreshed or new when it is reported, and withdrawn otherwise *)
Definition reported_row (endpoints : list EndpointCandidate) (g now : Z) (e : EndpointId) (old : option CandidateRow)
    : option CandidateRow :=
  match candidate_of e endpoints with
  | Some candidate => Some match old with
                           | Some row => refreshed g now row
                           | None => new_row (prepared candidate) g now
                           end
  | None => (fun row => if negb (present (ca_withdrawn_at row)) && (ca_last_report_generation row <? g)
                        then withdrawn_row now row else row) <$> old
  end.
(** The verification beside it *)
Definition reported_verification (endpoints : list EndpointCandidate) (g now : Z) (e : EndpointId) (old : option CandidateRow)
    (v : option VerificationRow) : option VerificationRow :=
  match candidate_of e endpoints, old with
  | Some _, None => Some (pending_at now)
  | Some _, Some row =>
      (fun v => if present (ca_withdrawn_at row) && bool_decide (ve_status v = VsWithdrawn) then pending_at now else v) <$> v
  | None, _ =>
      (fun v => if negb (bool_decide (ve_status v = VsWithdrawn))
                   && some_and (reported_row endpoints g now e old) (fun row => present (ca_withdrawn_at row))
                then verification_withdrawn now v else v) <$> v
  end.

Lemma candidate_of_app e l l' :
  candidate_of e (l ++ l') = match candidate_of e l with Some x => Some x | None => candidate_of e l' end.
Proof. induction l as [|x l IH]; [done|]. cbn. by case_bool_decide. Qed.
Lemma candidate_of_Some e l candidate : candidate_of e l = Some candidate -> candidate ∈ l /\ ec_endpoint_id candidate = e.
Proof. intros H. apply find_some in H as [Hin He]. by apply list_elem_of_In in Hin; apply bool_decide_eq_true in He. Qed.
Lemma candidate_of_None e l : candidate_of e l = None <-> e ∉ ec_endpoint_id <$> l.
Proof.
  split.
  - intros H (x & -> & Hx)%list_elem_of_fmap. apply list_elem_of_In, (find_none _ _ H x) in Hx.
    by apply bool_decide_eq_false in Hx.
  - intros H. destruct (candidate_of e l) as [x|] eqn:E; [|done]. apply candidate_of_Some in E as [Hx <-].
    destruct H. by apply list_elem_of_fmap_2.
Qed.
Lemma candidate_of_In l candidate : NoDup (ec_endpoint_id <$> l) -> candidate ∈ l ->
  candidate_of (ec_endpoint_id candidate) l = Some candidate.
Proof.
  intros Hn Hc. apply list_elem_of_split in Hc as (l1 & l2 & ->). rewrite candidate_of_app. rewrite fmap_app in Hn.
  apply NoDup_app in Hn as (_ & Hd & _). assert (candidate_of (ec_endpoint_id candidate) l1 = None) as ->.
  { apply candidate_of_None. intros H. apply (Hd _ H). cbn. by left. }
  cbn. by rewrite bool_decide_eq_true_2.
Qed.

Section Heartbeat.
Context `{U : UuidText} `{R : Rfc3339} `{B : Base64} `{Sha : Sha256} `{Ed : Ed25519}.
Context `{HJson : HeartbeatJson} `{RJson : NodeJson} `{AJson : ArtifactJson} `{Key : ControllerKey}.
Variables (node_id : NodeId) (g now : Z).
Implicit Types c : Fleet.

Lemma cancel_claims_run e c c' :
  cancel_claims node_id e now c = Ok c' -> attempts_step (fl_attempts c) (fl_attempts c') /\ c' = set_attempts (fl_attempts c') c.
Proof.
  intros H. eapply update_attempts_run; [exact H|]. intros a Ha. cbv beta in Ha. rewrite !andb_true_iff, !bool_decide_eq_true in Ha.
  apply claimed_finished, Ha.
Qed.
Lemma refresh_run p known c c' :
  refresh_endpoint_candidate node_id p g now c = (Ok known, c') ->
  only_endpoints c c' /\ attempts_step (fl_attempts c) (fl_attempts c') /\
  match fl_candidates c !! (node_id, ec_endpoint_id (pr_candidate p)) with
  | None => known = false /\ c' = c
  | Some row =>
      known = true /\ row_unchanged p row = true /\
      fl_candidates c' = <[(node_id, ec_endpoint_id (pr_candidate p)) := refreshed g now row]> (fl_candidates c) /\
      fl_verifications c' = (if present (ca_withdrawn_at row) then
        fl_verifications (reset_verification node_id (ec_endpoint_id (pr_candidate p)) now c) else fl_verifications c)
  end.
Proof.
  unfold refresh_endpoint_candidate. cbv zeta. intros H. tx_inv.
  destruct (fl_candidates _ !! _) as [row|]; tx_inv; [|by split_and!; reflexivity].
  destruct (present (ca_withdrawn_at row)); tx_inv; [|by split_and!; reflexivity || done].
  match goal with E : cancel_claims _ _ _ _ = _ |- _ => apply cancel_claims_run in E as [? ->] end.
  split_and!; reflexivity || done.
Qed.

(** The first loop of [record_endpoint_candidates], after some candidates *)
Definition reset_row (row : CandidateRow) (v : VerificationRow) : VerificationRow :=
  if present (ca_withdrawn_at row) && bool_decide (ve_status v = VsWithdrawn) then pending_at now else v.
Record refreshing (c0 : Fleet) (done : list EndpointCandidate) (news : list PreparedEndpointCandidate) (c : Fleet) : Prop := {
  rf_only : only_endpoints c0 c;
  rf_attempts : attempts_step (fl_attempts c0) (fl_attempts c);
  rf_news : news = prepared <$> filter (fun candidate => fl_candidates c0 !! (node_id, ec_endpoint_id candidate) = None) done;
  rf_valid candidate : candidate ∈ done -> validate_endpoint_candidate_revision node_id candidate c0 = Ok tt;
  rf_unchanged candidate row : candidate ∈ done -> fl_candidates c0 !! (node_id, ec_endpoint_id candidate) = Some row ->
    row_unchanged (prepared candidate) row = true;
  rf_others key : key.1 <> node_id ->
    fl_candidates c !! key = fl_candidates c0 !! key /\ fl_verifications c !! key = fl_verifications c0 !! key;
  rf_rows e : fl_candidates c !! (node_id, e) =
    (if present (candidate_of e done) then refreshed g now else id) <$> fl_candidates c0 !! (node_id, e);
  rf_verifications e : fl_verifications c !! (node_id, e) =
    match candidate_of e done, fl_candidates c0 !! (node_id, e) with
    | Some _, Some row => reset_row row <$> fl_verifications c0 !! (node_id, e)
    | _, _ => fl_verifications c0 !! (node_id, e)
    end;
}.
Lemma refreshing_start c0 : refreshing c0 [] [] c0.
Proof.
  split; [reflexivity|reflexivity|done|intros ? H; inversion H|intros ?? H; inversion H|done| |done].
  intros e. cbn. by destruct (_ !! _).
Qed.
Lemma candidate_of_snoc e l a : candidate_of e (l ++ [a]) =
  match candidate_of e l with Some x => Some x | None => if bool_decide (ec_endpoint_id a = e) then Some a else None end.
Proof. by rewrite candidate_of_app. Qed.
Lemma revision_valid_same c c' candidate : fl_revisions c' = fl_revisions c ->
  validate_endpoint_candidate_revision node_id candidate c' = validate_endpoint_candidate_revision node_id candidate c.
Proof. intros E. unfold validate_endpoint_candidate_revision, revision_of. by rewrite E. Qed.
(** Row by row *)
Lemma refresh_lookup p known c c' key :
  refresh_endpoint_candidate node_id p g now c = (Ok known, c') ->
  fl_candidates c' !! key =
    (if decide (key = (node_id, ec_endpoint_id (pr_candidate p))) then refreshed g now else id) <$> fl_candidates c !! key /\
  fl_verifications c' !! key =
    match fl_candidates c !! key with
    | Some row => (if decide (key = (node_id, ec_endpoint_id (pr_candidate p))) then reset_row row else id) <$> fl_verifications c !! key
    | None => fl_verifications c !! key
    end.
Proof.
  intros (_ & _ & H)%refresh_run. assert (forall A (o : option A), o = id <$> o) as Eid by (by intros ? []).
  destruct (decide (key = _)) as [->|Hne]; destruct (fl_candidates c !! (node_id, _)) as [row|] eqn:E0.
  - destruct H as (_ & _ & -> & ->). rewrite lookup_insert_eq. split; [done|]. unfold reset_row.
    destruct (present _); cbn; [|apply Eid]. rewrite lookup_update_where. by rewrite bool_decide_eq_true_2.
  - destruct H as [_ ->]. by rewrite E0.
  - destruct H as (_ & _ & -> & ->). rewrite lookup_insert_ne by done. split; [apply Eid|].
    assert (forall v : option VerificationRow, match fl_candidates c !! key with Some _ => id <$> v | None => v end = v) as ->
      by (intros []; by destruct (fl_candidates c !! key)).
    destruct (present _); [|done]. cbn. rewrite lookup_update_where, bool_decide_eq_false_2 by done. by destruct (_ !! _).
  - destruct H as [_ ->]. split; [apply Eid|]. destruct (fl_candidates c !! key); [apply Eid|done].
Qed.
Lemma refreshing_step c0 done a news c news' c' :
  ec_endpoint_id a ∉ ec_endpoint_id <$> done -> refreshing c0 done news c ->
  refresh_or_defer node_id g now news a c = (Ok news', c') -> refreshing c0 (done ++ [a]) news' c'.
Proof.
  intros Ha [Ho Hat Hn Hv Hu Hk Hr Hs] H. apply candidate_of_None in Ha. unfold refresh_or_defer in H. tx_inv.
  match goal with E : refresh_endpoint_candidate _ _ _ _ _ = _ |- _ =>
    pose proof (fun key => refresh_lookup _ _ _ _ key E) as L; apply refresh_run in E as (Ho' & Hat' & Hrun) end.
  cbn [pr_candidate prepared] in *. rewrite (Hr (ec_endpoint_id a)), Ha in Hrun. cbn [present] in Hrun.
  assert (fl_revisions c = fl_revisions c0) as Er by (by rewrite Ho).
  units. split; [by etrans|by etrans|..].
  - rewrite filter_app, fmap_app. destruct (fl_candidates c0 !! _) as [row|] eqn:E0; cbn in Hrun; destruct Hrun as [-> _].
    + rewrite filter_cons_False by (by rewrite E0). by rewrite filter_nil, app_nil_r.
    + rewrite filter_cons_True by done. by rewrite filter_nil.
  - intros candidate [Hin| ->%list_elem_of_singleton]%elem_of_app; [by apply Hv|]. by rewrite <- (revision_valid_same c0 c).
  - intros candidate row [Hin| ->%list_elem_of_singleton]%elem_of_app E0; [by eapply Hu|]. rewrite E0 in Hrun. by destruct Hrun as (_ & Hrun & _).
  - intros key Hkey. destruct (Hk key Hkey) as [<- <-]. destruct (L key) as [-> ->]. destruct (decide (key = _)) as [->|_]; [done|].
    destruct (fl_candidates c !! key), (fl_verifications c !! key); done.
  - intros e. rewrite candidate_of_snoc. destruct (L (node_id, e)) as [-> _]. rewrite (Hr e).
    destruct (decide (ec_endpoint_id a = e)) as [<-|Hne].
    + rewrite Ha, bool_decide_eq_true_2 by done. destruct (decide _); [|done]. by destruct (fl_candidates c0 !! (node_id, ec_endpoint_id a)).
    + rewrite (bool_decide_eq_false_2 (ec_endpoint_id a = e)) by done. destruct (decide _) as [[= ->]|_]; [done|].
      destruct (candidate_of e done); by destruct (fl_candidates c0 !! (node_id, e)).
  - intros e. rewrite candidate_of_snoc. destruct (L (node_id, e)) as [_ ->]. rewrite (Hr e), (Hs e).
    destruct (decide (ec_endpoint_id a = e)) as [<-|Hne].
    + rewrite Ha, bool_decide_eq_true_2 by done. destruct (decide _); [|done]. by destruct (fl_candidates c0 !! _).
    + rewrite (bool_decide_eq_false_2 (ec_endpoint_id a = e)) by done. destruct (decide _) as [[= ->]|_]; [done|].
      destruct (candidate_of e done), (fl_candidates c0 !! (node_id, e)), (fl_verifications c0 !! (node_id, e)); done.
Qed.
Lemma refresh_all_run l news c0 c :
  NoDup (ec_endpoint_id <$> l) -> tx_fold (refresh_or_defer node_id g now) [] l c0 = (Ok news, c) -> refreshing c0 l news c.
Proof.
  intros Hn H. apply (run_fold _ (refreshing c0) _ _ _ _ _ H); [apply refreshing_start|].
  intros d a rest acc s acc' s' -> Hd Hr. eapply refreshing_step; [|exact Hd|exact Hr].
  rewrite fmap_app in Hn. apply NoDup_app in Hn as (_ & Hn & _). intros Hin. apply (Hn _ Hin). cbn. by left.
Qed.

(** [withdraw_missing_candidates], row by row *)
Definition missed (row : CandidateRow) : CandidateRow :=
  if negb (present (ca_withdrawn_at row)) && (ca_last_report_generation row <? g) then withdrawn_row now row else row.
Definition verification_missed (row : option CandidateRow) (v : VerificationRow) : VerificationRow :=
  if negb (bool_decide (ve_status v = VsWithdrawn)) && some_and row (fun row => present (ca_withdrawn_at row))
  then verification_withdrawn now v else v.
Lemma withdraw_run u c c' :
  withdraw_missing_candidates node_id g now c = (Ok u, c') ->
  only_endpoints c c' /\ fl_attempts c' = fl_attempts c /\
  (forall key, key.1 <> node_id ->
     fl_candidates c' !! key = fl_candidates c !! key /\ fl_verifications c' !! key = fl_verifications c !! key) /\
  forall e, fl_candidates c' !! (node_id, e) = missed <$> fl_candidates c !! (node_id, e) /\
    fl_verifications c' !! (node_id, e) = verification_missed (missed <$> fl_candidates c !! (node_id, e)) <$> fl_verifications c !! (node_id, e).
Proof.
  unfold withdraw_missing_candidates. intros H. tx_inv. split; [done|]. split; [done|]. cbn. split.
  - intros key Hkey. rewrite !lookup_update_where. rewrite (bool_decide_eq_false_2 (key.1 = node_id)) by done.
    split; [by destruct (fl_candidates c !! key)|by destruct (fl_verifications c !! key)].
  - intros e. rewrite !lookup_update_where. cbn. by rewrite (bool_decide_eq_true_2 (node_id = node_id)).
Qed.

(** The second loop of [record_endpoint_candidates] *)
Record inserting (c0 : Fleet) (done : list EndpointCandidate) (c : Fleet) : Prop := {
  is_only : only_endpoints c0 c;
  is_attempts : fl_attempts c = fl_attempts c0;
  is_others key : key.1 <> node_id ->
    fl_candidates c !! key = fl_candidates c0 !! key /\ fl_verifications c !! key = fl_verifications c0 !! key;
  is_rows e : fl_candidates c !! (node_id, e) =
    match candidate_of e done with Some candidate => Some (new_row (prepared candidate) g now) | None => fl_candidates c0 !! (node_id, e) end;
  is_verifications e : fl_verifications c !! (node_id, e) =
    match candidate_of e done with Some _ => Some (pending_at now) | None => fl_verifications c0 !! (node_id, e) end;
}.
Lemma inserting_step c0 done a u c c' :
  inserting c0 done c -> insert_endpoint_candidate node_id (prepared a) g now c = (Ok u, c') -> inserting c0 (done ++ [a]) c'.
Proof.
  intros [Ho Ha Hk Hr Hv] H. unfold insert_endpoint_candidate in H. cbv zeta in H. tx_inv. cbn in *.
  repeat match goal with E : _ && _ = true |- _ => apply andb_true_iff in E as [? ?] end.
  repeat match goal with E : bool_decide _ = true |- _ => apply bool_decide_eq_true in E end.
  assert (candidate_of (ec_endpoint_id a) done = None) as Hnone.
  { destruct (candidate_of (ec_endpoint_id a) done) eqn:E; [|done]. specialize (Hr (ec_endpoint_id a)). rewrite E in Hr. congruence. }
  split; cbn; [by rewrite Ho|done|..].
  - intros key Hkey. rewrite !lookup_insert_ne by (by intros <-). by apply Hk.
  - intros e. rewrite candidate_of_snoc. destruct (decide (ec_endpoint_id a = e)) as [<-|Hne].
    + by rewrite lookup_insert_eq, Hnone, bool_decide_eq_true_2.
    + rewrite lookup_insert_ne by (by intros [=]). rewrite Hr, bool_decide_eq_false_2 by done. by destruct (candidate_of e done).
  - intros e. rewrite candidate_of_snoc. destruct (decide (ec_endpoint_id a = e)) as [<-|Hne].
    + by rewrite lookup_insert_eq, Hnone, bool_decide_eq_true_2.
    + rewrite lookup_insert_ne by (by intros [=]). rewrite Hv, bool_decide_eq_false_2 by done. by destruct (candidate_of e done).
Qed.
Lemma insert_all_run l u c0 c :
  tx_for_each (fun p => insert_endpoint_candidate node_id p g now) (prepared <$> l) c0 = (Ok u, c) -> inserting c0 l c.
Proof.
  intros H. assert (tx_for_each (fun a => insert_endpoint_candidate node_id (prepared a) g now) l c0 = (Ok u, c)) as H'.
  { revert c0 H. induction l as [|a l IH]; [done|]. intros c0 H. cbn [tx_for_each fmap list_fmap] in *.
    apply run_bind in H as (x & c1 & E & H). unfold mbind, tx_bind. rewrite E. by apply IH. }
  apply (run_for_each _ (inserting c0) _ _ _ _ H').
  - by split.
  - intros d a rest s u' s' _ Hd Hr. by eapply inserting_step.
Qed.
Lemma candidate_of_filter (P : EndpointCandidate -> Prop) `{!forall x, Decision (P x)} (Q : EndpointId -> Prop)
    `{!forall e, Decision (Q e)} e l :
  (forall x, P x <-> Q (ec_endpoint_id x)) -> candidate_of e (filter P l) = if decide (Q e) then candidate_of e l else None.
Proof.
  intros HPQ. induction l as [|x l IH]; [by destruct (decide _)|]. rewrite filter_cons. cbn.
  destruct (decide (ec_endpoint_id x = e)) as [<-|Hne].
  - rewrite bool_decide_eq_true_2 by done. destruct (decide (P x)) as [Hp|Hp]; rewrite HPQ in Hp; cbn.
    + rewrite bool_decide_eq_true_2 by done. by rewrite decide_True.
    + by rewrite IH, !decide_False.
  - rewrite bool_decide_eq_false_2 by done. destruct (decide (P x)); cbn; [by rewrite bool_decide_eq_false_2|done].
Qed.

(** The report as a whole *)
Lemma report_run endpoints u c c' h :
  hb_endpoints h = endpoints -> NoDup (ec_endpoint_id <$> endpoints) ->
  record_endpoint_candidates node_id h g now c = (Ok u, c') ->
  only_endpoints c c' /\ attempts_step (fl_attempts c) (fl_attempts c') /\
  (forall candidate, candidate ∈ endpoints -> validate_endpoint_candidate_revision node_id candidate c = Ok tt /\
     forall row, fl_candidates c !! (node_id, ec_endpoint_id candidate) = Some row -> row_unchanged (prepared candidate) row = true) /\
  (forall key, key.1 <> node_id ->
     fl_candidates c' !! key = fl_candidates c !! key /\ fl_verifications c' !! key = fl_verifications c !! key) /\
  forall e, fl_candidates c' !! (node_id, e) = reported_row endpoints g now e (fl_candidates c !! (node_id, e)) /\
    fl_verifications c' !! (node_id, e) =
      reported_verification endpoints g now e (fl_candidates c !! (node_id, e)) (fl_verifications c !! (node_id, e)).
Proof.
  intros <- Hn H. unfold record_endpoint_candidates in H. tx_inv.
  match goal with E : tx_fold _ _ _ _ = _ |- _ => apply refresh_all_run in E as [Ho Hat -> Hv Hu Hk Hr Hs]; [|done] end.
  match goal with E : withdraw_missing_candidates _ _ _ _ = _ |- _ => apply withdraw_run in E as (Ho2 & Hat2 & Hk2 & L2) end.
  apply insert_all_run in H as [Ho3 Hat3 Hk3 Hr3 Hs3].
  split; [by etrans; [exact Ho|etrans; [exact Ho2|exact Ho3]]|]. split; [by rewrite Hat3, Hat2|].
  split; [intros candidate Hc; split; [by apply Hv|by intros row; apply Hu]|].
  split; [intros key Hkey; destruct (Hk key Hkey) as [<- <-], (Hk2 key Hkey) as [<- <-]; by apply Hk3|].
  intros e. rewrite Hr3, Hs3. destruct (L2 e) as [-> ->]. rewrite Hr, Hs.
  rewrite !(candidate_of_filter _ (fun e => fl_candidates c !! (node_id, e) = None)) by done.
  unfold reported_verification, reported_row, reset_row, verification_missed, missed. cbn.
  destruct (candidate_of e (hb_endpoints h)), (fl_candidates c !! (node_id, e)) as [row|], (fl_verifications c !! (node_id, e)) as [v|];
    cbn; rewrite ?Z.ltb_irrefl, ?andb_false_r; try done; by destruct (decide _).
Qed.
End Heartbeat.

(** ** The operations, when they succeed *)

(** The tables the invariant is about *)
Definition same_tables (c c' : Fleet) : Prop :=
  fl_nodes c' = fl_nodes c /\ fl_nonces c' = fl_nonces c /\ fl_results c' = fl_results c /\ fl_candidates c' = fl_candidates c /\
  fl_verifications c' = fl_verifications c /\ fl_attempts c' = fl_attempts c.
#[export] Instance same_tables_preorder : PreOrder same_tables.
Proof. split; [by intros c|]. unfold same_tables. intros c1 c2 c3. intuition congruence. Qed.

(** The row of a node after the result of a revision *)
Definition progressed (revision now : Z) (result : RevisionResult) (row : NodeRow) : NodeRow :=
  let row := received_up_to revision now row in
  let row := match rr_state result with
             | RsValidated | RsApplied | RsRolledBack => set_validated (raise_to revision) row
             | _ => row
             end in
  match rr_state result with
  | RsApplied => set_applied (raise_to revision) row
  | RsRolledBack => set_applied (fun _ => rr_rollback_revision result) row
  | _ => row
  end.

Section Operations.
Context `{U : UuidText} `{R : Rfc3339} `{B : Base64} `{Sha : Sha256} `{Ed : Ed25519}.
Context `{HJson : HeartbeatJson} `{RJson : NodeJson} `{AJson : ArtifactJson} `{Key : ControllerKey}.
Implicit Types (c : Fleet) (o : Outside).

Lemma update_node_run n f row c c' :
  update_node n f c = Ok c' -> fl_nodes c !! n = Some row -> c' = set_nodes (<[n := f row]> (fl_nodes c)) c.
Proof. unfold update_node. intros H E. rewrite E in H. by tx_inv. Qed.

(** [record_heartbeat] *)
Lemma heartbeat_run o n h answer c c' :
  record_heartbeat o n h c = (Ok answer, c') ->
  heartbeat_validate h = Ok tt /\
  exists json now network previous, heartbeat_to_vec h = Some json /\ control_seconds (ot_wall o) = Ok now /\
    fl_network c = Some network /\ fl_nodes c !! n = Some previous /\ serves (nd_status previous) = true /\
    build_signed_node_heartbeat_status network n (hb_generation h) (nd_status previous) now c' = Ok answer /\
    ((hb_generation h = nd_heartbeat_generation previous /\ nd_heartbeat_sha256 previous = Some (sha256 json) /\ c' = c) \/
     (nd_heartbeat_generation previous < hb_generation h /\ validate_reported_progress n h c = Ok tt /\
      record_endpoint_candidates n h (hb_generation h) now
        (set_nodes (<[n := heard h (sha256 json) now previous]> (fl_nodes c)) c) = (Ok tt, c'))).
Proof.
  unfold record_heartbeat. intros H. tx_inv. unfold load_fleet_network in *. tx_inv. units. split; [done|].
  eexists _, _, _, _. do 5 (split; [eassumption|]).
  match type of H with (match ?g ?= ?p with Eq => _ | Lt => _ | Gt => _ end) _ = _ => destruct (Z.compare_spec g p) as [E|E|E] end.
  - case_bool_decide; tx_inv. split; [done|]. by left.
  - by tx_inv.
  - tx_inv. units. split; [done|]. right. split; [done|]. split; [done|].
    match goal with E : update_node _ _ _ = _ |- _ => eapply update_node_run in E; [|done]; by subst end.
Qed.

(** [record_revision_result] *)
Lemma cache_run n revision result now row u c c' :
  update_revision_progress_cache n revision result now c = (Ok u, c') -> fl_nodes c !! n = Some row ->
  c' = set_nodes (<[n := progressed revision now result row]> (fl_nodes c)) c.
Proof.
  unfold update_revision_progress_cache, progressed. intros H E. tx_inv.
  match goal with E' : update_node _ (received_up_to _ _) _ = _ |- _ => eapply update_node_run in E'; [|done]; subst end.
  assert (forall f g c', update_node n f (set_nodes (<[n := g]> (fl_nodes c)) c) = Ok c' -> c' = set_nodes (<[n := f g]> (fl_nodes c)) c) as Step.
  { intros f g c0 H0. eapply update_node_run in H0; [|apply lookup_insert_eq]. rewrite H0. cbn. by rewrite insert_insert_eq. }
  destruct (rr_state result); tx_inv;
    repeat match goal with E' : update_node _ _ _ = _ |- _ => apply Step in E'; subst end; try done.
  by match goal with E' : _ = Some _ |- _ => rewrite E' end.
Qed.
Lemma update_members_run selected f count c c' :
  update_members selected f c = (Ok count, c') -> c' = set_members (update_where selected f (fl_members c)) c.
Proof. unfold update_members. intros H. by tx_inv. Qed.
Lemma reconcile_run n now u c c' : reconcile_applied_member_credentials n now c = (Ok u, c') -> same_tables c c'.
Proof.
  unfold reconcile_applied_member_credentials. intros H. tx_inv. case_match; tx_inv; [done|].
  repeat match goal with E : update_members _ _ _ = _ |- _ => apply update_members_run in E; subst end. done.
Qed.
Lemma reconcile_if state n now u c c' :
  (match state with RsApplied | RsRolledBack => reconcile_applied_member_credentials n now | _ => mret tt end) c = (Ok u, c') ->
  same_tables c c'.
Proof. destruct state; intros H; tx_inv; reflexivity || by eapply reconcile_run. Qed.
Lemma audit_if state now event u c c' :
  (match state with RsRejected | RsRolledBack => tx_write (insert_audit_event now event) | _ => mret tt end : Tx Fleet DatabaseError unit) c
    = (Ok u, c') -> same_tables c c'.
Proof. destruct state; intros H; tx_inv; reflexivity || done. Qed.
Lemma result_run o n revision result u c c' :
  record_revision_result o n revision result c = (Ok u, c') ->
  result_validate result revision = Ok tt /\ validate_result_target n revision c = Ok tt /\
  exists previous, load_latest_revision_result n revision c = Ok previous /\ validate_transition_from result previous = Ok tt /\
  ((previous = Some result /\ c' = c) \/
   exists now stored row, control_seconds (ot_wall o) = Ok now /\ validate_result_dependencies n revision result c = Ok tt /\
     fl_results c !! (n, revision, rr_state result) = None /\ fl_nodes c !! n = Some row /\
     0 < revision /\ positive_if_any (rr_rollback_revision result) = true /\
     same_tables (set_nodes (<[n := progressed revision now result row]> (fl_nodes c))
       (set_revision_results (<[(n, revision, rr_state result) := stored]> (fl_results c)) c)) c').
Proof.
  unfold record_revision_result. intros H. tx_inv. unfold load_fleet_network in *. tx_inv. units. split; [done|]. split; [done|].
  eexists. split; [eassumption|]. split; [eassumption|]. case_bool_decide; tx_inv; units; [by left|]. right.
  match goal with E : validate_result_target _ _ _ = _ |- _ => unfold validate_result_target in E end.
  match goal with E : append_revision_result _ _ _ _ _ = _ |- _ => unfold append_revision_result in E end. tx_inv.
  repeat match goal with E : _ && _ = true |- _ => apply andb_true_iff in E as [? ?] end.
  match goal with E : update_revision_progress_cache _ _ _ _ _ = _ |- _ => eapply cache_run in E; [|eassumption]; subst end.
  eexists _, _, _. split; [done|]. split; [done|]. split; [by eapply bool_decide_eq_true|]. split; [done|]. split; [lia|].
  split; [destruct (rr_rollback_revision result); cbn in *; by repeat match goal with E : _ && _ = true |- _ => apply andb_true_iff in E as [? ?] end|].
  etrans; [by eapply reconcile_if|by eapply audit_if].
Qed.

(** ** Probes *)

Definition only_attempts (c c' : Fleet) : Prop :=
  attempts_step (fl_attempts c) (fl_attempts c') /\ c' = set_attempts (fl_attempts c') c.
#[local] Instance only_attempts_preorder : PreOrder only_attempts.
Proof.
  split; [intros c; split; [reflexivity|by destruct c]|]. intros c1 c2 c3 [A1 E1] [A2 E2]. split; [by etrans|]. rewrite E2 at 1. by rewrite E1.
Qed.
Lemma expire_run now c c' : expire_stale_probe_claims now c = Ok c' -> only_attempts c c'.
Proof.
  intros H. eapply update_attempts_run; [exact H|]. intros a Ha. cbv beta in Ha. apply andb_true_iff in Ha as [Ha _].
  by apply claimed_finished; apply bool_decide_eq_true in Ha.
Qed.
Lemma insert_claim_run phase job now c c' : insert_claim phase job now c = Ok c' -> only_attempts c c'.
Proof.
  unfold insert_claim. intros H. tx_inv. split; [|done]. exists [claim_row phase job now], (fl_attempts c). split; [done|].
  apply Forall_Forall2_diag, Forall_true. by left.
Qed.
Lemma finish_run job t now c c' :
  finish_attempt job t now c = Ok c' -> only_attempts c c' /\
  forall a, a ∈ fl_attempts c -> at_probe_id a = tj_probe_id job -> at_status a = AtClaimed ->
    finished (te_status t) now (te_resolved_address t) (te_latency_ms t) (te_result_code t) a ∈ fl_attempts c'.
Proof.
  unfold finish_attempt. intros H. tx_inv. split.
  - eapply update_attempts_run; [eassumption|]. intros a Ha. cbv beta in Ha. apply andb_true_iff in Ha as [_ Ha].
    by apply claimed_finished; apply bool_decide_eq_true in Ha.
  - intros a Ha Hp Hs. match goal with E : update_attempts _ _ _ = _ |- _ => unfold update_attempts in E end. tx_inv. cbn.
    apply list_elem_of_fmap. exists a. split; [|done]. by rewrite !bool_decide_eq_true_2.
Qed.
Lemma claim_tcp_run o fresh runner schedule r c c' : claim_tcp_probe o fresh runner schedule c = (Ok r, c') -> only_attempts c c'.
Proof.
  unfold claim_tcp_probe. cbv zeta. intros H. tx_inv. etrans; [by eapply expire_run|].
  match type of H with (match ?o with Some _ => _ | None => _ end) _ = _ => destruct o as [[entry [[network port] revision]]|] end; tx_inv;
    [by eapply insert_claim_run|reflexivity].
Qed.
Lemma claim_canary_run o fresh runner options r c c' : claim_protocol_canary o fresh runner options c = (Ok r, c') -> only_attempts c c'.
Proof.
  unfold claim_protocol_canary. cbv zeta. intros H. tx_inv. etrans; [by eapply expire_run|].
  match type of H with (match ?o with Some _ => _ | None => _ end) _ = _ => destruct o as [entry|] end; tx_inv; [|reflexivity].
  match goal with p : string * string * string * string * string |- _ => destruct p as [[[[? ?] ?] ?] ?] end. tx_inv. by eapply insert_claim_run.
Qed.
(** A claim that is completed: it is found as the job has it, and it is settled
    without the result, or with it when the endpoint is current *)
Lemma complete_run phase job now current record r c c' :
  complete_claim phase job now current record c = (Ok r, c') -> only_attempts c c' \/
  (r = Recorded /\ current c = true /\ record c = (Ok tt, c') /\
   exists a, a ∈ fl_attempts c /\ at_probe_id a = tj_probe_id job /\ at_status a = AtClaimed /\ claim_authenticates phase job a = true).
Proof.
  unfold complete_claim, load_claim. intros H. tx_inv.
  match goal with E : List.find _ _ = Some ?a |- _ => apply find_some in E as [Ha Hp] end.
  apply list_elem_of_In in Ha. apply bool_decide_eq_true in Hp.
  case_bool_decide; cbn [negb] in H; tx_inv; [|left; reflexivity]. case_match; tx_inv; [left; by eapply finish_run|].
  case_match; tx_inv; [left; by eapply finish_run|]. right. units. split; [done|]. split; [by apply negb_false_iff|]. split; [done|]. by eexists.
Qed.
Lemma complete_tcp_run o job result r c c' : complete_tcp_probe o job result c = (Ok r, c') -> only_attempts c c'.
Proof.
  unfold complete_tcp_probe. intros H. tx_inv. apply complete_run in H as [?|(_ & _ & H & _)]; [done|]. tx_inv. by eapply finish_run.
Qed.
(** A canary that connected through the endpoint as the candidate has it, since the
    candidate was last new *)
Definition canary_passed (attempts : list AttemptRow) (key : NodeId * EndpointId) (row : CandidateRow) (s : Z) : Prop :=
  exists a, a ∈ attempts /\ at_node_id a = key.1 /\ at_endpoint_id a = key.2 /\ at_phase a = PhProtocol /\ at_status a = AtSucceeded /\
    at_address a = ca_address row /\ at_port a = ca_port row /\ at_applied_revision a = ca_applied_revision row /\
    ca_verification_generation row <= at_candidate_generation a /\ at_completed_at a = Some s.
Lemma canary_passed_later l l' key row row' s :
  attempts_step l l' -> ca_address row' = ca_address row -> ca_port row' = ca_port row ->
  ca_applied_revision row' = ca_applied_revision row -> ca_verification_generation row' = ca_verification_generation row ->
  canary_passed l key row s -> canary_passed l' key row' s.
Proof.
  intros Hl Ea Ep Er Eg (a & Ha & H1 & H2 & H3 & Hs & H4 & H5 & H6 & H7 & H8). exists a. rewrite Ea, Ep, Er, Eg. split_and!; try done.
  eapply attempts_kept; [done|done|]. by rewrite Hs.
Qed.
Lemma claim_authenticates_fields phase job a : claim_authenticates phase job a = true ->
  at_node_id a = tj_node_id job /\ at_endpoint_id a = tj_endpoint_id job /\ at_phase a = phase /\
  at_candidate_generation a = tj_candidate_generation job /\ at_address a = tj_address job /\ at_port a = tj_port job /\
  at_applied_revision a = tj_applied_revision job.
Proof. unfold claim_authenticates. rewrite !andb_true_iff, !bool_decide_eq_true, !Z.eqb_eq. tauto. Qed.
Lemma current_fields job now c : probe_candidate_is_current job now c = true ->
  exists row, fl_candidates c !! (tj_node_id job, tj_endpoint_id job) = Some row /\ ca_address row = tj_address job /\
    ca_port row = tj_port job /\ ca_applied_revision row = tj_applied_revision job /\
    ca_last_report_generation row = tj_candidate_generation job /\ ca_withdrawn_at row = None.
Proof.
  unfold probe_candidate_is_current. destruct (fl_candidates c !! _) as [row|]; [|done]. cbn. unfold row_current.
  rewrite !andb_true_iff, !bool_decide_eq_true, !Z.eqb_eq. intros H. exists row. destruct (ca_withdrawn_at row); [|tauto].
  exfalso. cbn in H. destruct H as [[[_ [H _]] _] _]. done.
Qed.
Lemma complete_canary_run o job result r c c' :
  complete_protocol_canary o job result c = (Ok r, c') -> only_attempts c c' \/
  let key := (tj_node_id (pj_shape job), tj_endpoint_id (pj_shape job)) in
  exists now t row v, control_seconds (ot_wall o) = Ok now /\ fl_candidates c !! key = Some row /\ ca_withdrawn_at row = None /\
    fl_verifications c !! key = Some v /\ ve_status v <> VsWithdrawn /\ attempts_step (fl_attempts c) (fl_attempts c') /\
    c' = set_verifications (<[key := verification_after t now (now + 900) v]> (fl_verifications c)) (set_attempts (fl_attempts c') c) /\
    (te_status t = AtSucceeded -> ca_verification_generation row <= ca_last_report_generation row ->
     canary_passed (fl_attempts c') key row now).
Proof.
  unfold complete_protocol_canary. intros H. tx_inv. apply complete_run in H as [?|(_ & Hc & H & a & Ha & Hp & Hs & Hau)]; [by left|]. right.
  tx_inv. apply andb_true_iff in Hc as [(row & Hrow & Ead & Epo & Ere & Ege & Hwi)%current_fields _].
  apply claim_authenticates_fields in Hau as (A1 & A2 & A3 & A4 & A5 & A6 & A7).
  match goal with E : finish_attempt _ _ _ _ = _ |- _ => apply finish_run in E as [[Hst Hset] Hfin] end. rewrite Hset in H.
  unfold update_protocol_verification in H. tx_inv.
  match goal with E : checked_add _ _ _ = _ |- _ => unfold checked_add in E end. case_match; simplify_eq.
  eexists _, _, row, _. split; [done|]. split; [done|]. split; [done|]. split; [eassumption|].
  split; [match goal with E : negb (bool_decide _) = true |- _ => by apply negb_true_iff, bool_decide_eq_false in E end|].
  split; [done|]. split; [done|]. intros Ht Hg. specialize (Hfin a Ha Hp Hs). cbn. eexists. split; [exact Hfin|]. cbn.
  rewrite A1, A2, A3, A4, A5, A6, A7, Ead, Epo, Ere, Ht. split_and!; (done || lia).
Qed.
End Operations.
