(* ===== verification/ControlNodeInvariant.v ===== *)
(** * The invariant of the controller's tables of nodes

    Every run of the operations of [ControlNodes.v] and [ControlProbes.v], between
    which the rest of the controller does what it does to the same tables, keeps
    the candidates, their verifications, the probes, the journal of results and
    the progress of each node consistent. *)
From S2P Require Import Prelude Text Clock ProtoTypes ProtoAuth ProtoNode ProtoNodeFacts ProtoSigned ProtoTelemetry NodeHostDb NodeHostRuntime Transaction.
From S2P Require Import NodePolicy NodeTelemetry ControlTelemetry RouterMapping NodeHeartbeat ControlNodes ControlProbes ControlNodeFacts.
Open Scope Z_scope.

(** The progress of a node is that of its journal of results *)
Record journal_ok (c : Fleet) (n : NodeId) (row : NodeRow) : Prop := {
  jo_received r : nd_received row = Some r -> exists st, is_Some (fl_results c !! (n, r, st));
  jo_received_all r st : is_Some (fl_results c !! (n, r, st)) -> exists m, nd_received row = Some m /\ r <= m;
  jo_validated r : nd_validated row = Some r -> is_Some (fl_results c !! (n, r, RsValidated));
  jo_validated_all r : is_Some (fl_results c !! (n, r, RsValidated)) -> exists m, nd_validated row = Some m /\ r <= m;
  jo_applied r : nd_applied row = Some r -> is_Some (fl_results c !! (n, r, RsApplied));
}.
Record fleet_ok (c : Fleet) : Prop := {
  fk_node n e row : fl_candidates c !! (n, e) = Some row ->
    exists nr, fl_nodes c !! n = Some nr /\ ca_last_report_generation row <= nd_heartbeat_generation nr;
  fk_generation key row : fl_candidates c !! key = Some row -> ca_verification_generation row <= ca_last_report_generation row;
  fk_verification key row : fl_candidates c !! key = Some row ->
    exists v, fl_verifications c !! key = Some v /\ (ve_status v = VsWithdrawn <-> is_Some (ca_withdrawn_at row));
  fk_candidate key v : fl_verifications c !! key = Some v -> is_Some (fl_candidates c !! key);
  fk_verified key row v : fl_candidates c !! key = Some row -> fl_verifications c !! key = Some v -> ve_status v = VsVerified ->
    exists s, canary_passed (fl_attempts c) key row s /\ ve_last_probe_at v = Some s /\ ve_expires_at v = Some (s + 900);
  fk_known n r st : is_Some (fl_results c !! (n, r, st)) -> is_Some (fl_nodes c !! n);
  fk_applied n r : is_Some (fl_results c !! (n, r, RsApplied)) -> is_Some (fl_results c !! (n, r, RsValidated));
  fk_journal n row : fl_nodes c !! n = Some row -> journal_ok c n row;
}.

(** What the rest of the controller does to these tables: enrollment adds nodes,
    publishing and administration change columns of [nodes] that are not part of
    its progress, and the rotation of a canary makes verifications pending *)
Record elsewhere (c c' : Fleet) : Prop := {
  ew_nonces : fl_nonces c' = fl_nonces c;
  ew_results : fl_results c' = fl_results c;
  ew_candidates : fl_candidates c' = fl_candidates c;
  ew_attempts : fl_attempts c' = fl_attempts c;
  ew_nodes n row : fl_nodes c !! n = Some row -> exists row', fl_nodes c' !! n = Some row' /\
    nd_heartbeat_generation row' = nd_heartbeat_generation row /\ nd_received row' = nd_received row /\
    nd_validated row' = nd_validated row /\ nd_applied row' = nd_applied row;
  ew_new n row : fl_nodes c !! n = None -> fl_nodes c' !! n = Some row ->
    nd_received row = None /\ nd_validated row = None /\ nd_applied row = None;
  ew_verifications key : fl_verifications c' !! key = fl_verifications c !! key \/
    exists v now, fl_verifications c !! key = Some v /\ ve_status v <> VsWithdrawn /\ fl_verifications c' !! key = Some (pending_at now);
}.

Section Invariant.
Context `{U : UuidText} `{R : Rfc3339} `{B : Base64} `{Sha : Sha256} `{Ed : Ed25519}.
Context `{HJson : HeartbeatJson} `{RJson : NodeJson} `{AJson : ArtifactJson} `{Key : ControllerKey}.
Variable ed25519_verify_strict : list byte -> list byte -> list byte -> bool.
Implicit Types c : Fleet.

(** A step of the controller: a call that is authenticated, or another operation *)
Inductive quiet_step (c : Fleet) : Fleet -> Prop :=
| step_heartbeat o n h : quiet_step c (record_heartbeat o n h c).2
| step_result o n revision result : quiet_step c (record_revision_result o n revision result c).2
| step_claim_tcp o fresh runner schedule : quiet_step c (claim_tcp_probe o fresh runner schedule c).2
| step_claim_canary o fresh runner options : quiet_step c (claim_protocol_canary o fresh runner options c).2
| step_complete_tcp o job result : quiet_step c (complete_tcp_probe o job result c).2
| step_complete_canary o job result : quiet_step c (complete_protocol_canary o job result c).2
| step_elsewhere c' : elsewhere c c' -> quiet_step c c'.
Inductive fleet_step (c : Fleet) : Fleet -> Prop :=
| step_authenticate o headers input : fleet_step c (authenticate_node_request ed25519_verify_strict o headers input c).2
| step_quiet c' : quiet_step c c' -> fleet_step c c'.
(** Before the first node *)
Definition fresh_fleet (c : Fleet) : Prop :=
  fl_nodes c = ∅ /\ fl_nonces c = ∅ /\ fl_results c = ∅ /\ fl_candidates c = ∅ /\ fl_verifications c = ∅ /\ fl_attempts c = [].
Definition fleet_reaches (c : Fleet) : Prop := exists c0, fresh_fleet c0 /\ rtc fleet_step c0 c.

Lemma fresh_fleet_ok c : fresh_fleet c -> fleet_ok c.
Proof.
  intros (En & _ & Er & Ec & Ev & _). split; rewrite ?En, ?Er, ?Ec, ?Ev; intros *; rewrite lookup_empty; done || by intros [? ?].
Qed.

(** A call that fails leaves the tables alone *)
Lemma failed_calls c :
  (forall o h i e c', authenticate_node_request ed25519_verify_strict o h i c = (Err e, c') -> c' = c) /\
  (forall o n h e c', record_heartbeat o n h c = (Err e, c') -> c' = c) /\
  (forall o n r result e c', record_revision_result o n r result c = (Err e, c') -> c' = c) /\
  (forall o f r s e c', claim_tcp_probe o f r s c = (Err e, c') -> c' = c) /\
  (forall o f r s e c', claim_protocol_canary o f r s c = (Err e, c') -> c' = c) /\
  (forall o j r e c', complete_tcp_probe o j r c = (Err e, c') -> c' = c) /\
  (forall o j r e c', complete_protocol_canary o j r c = (Err e, c') -> c' = c).
Proof.
  unfold authenticate_node_request, record_heartbeat, record_revision_result, claim_tcp_probe, claim_protocol_canary,
    complete_tcp_probe, complete_protocol_canary. cbv zeta. split_and!; fails_cleanly.
Qed.

Lemma same_tables_ok c c' : same_tables c c' -> fleet_ok c -> fleet_ok c'.
Proof.
  intros (En & _ & Er & Ec & Ev & Ea) [H1 H2 H3 H4 H5 H6 H7 H8].
  split; rewrite ?En, ?Er, ?Ec, ?Ev, ?Ea; try done. intros n row Hn. destruct (H8 n row Hn). split; by rewrite Er.
Qed.
Lemma nonces_ok nonces c : fleet_ok c -> fleet_ok (set_nonces nonces c).
Proof. intros [H1 H2 H3 H4 H5 H6 H7 H8]. split; cbn; try done. intros n row Hn. by destruct (H8 n row Hn). Qed.
Lemma only_attempts_ok c c' : only_attempts c c' -> fleet_ok c -> fleet_ok c'.
Proof.
  intros [Hst ->] [H1 H2 H3 H4 H5 H6 H7 H8]. split; cbn; try done.
  - intros key row v Hr Hv Hs. destruct (H5 key row v Hr Hv Hs) as (s & Hp & ?). exists s. split; [|done]. by eapply canary_passed_later.
  - intros n row Hn. by destruct (H8 n row Hn).
Qed.
Lemma authenticate_run o headers input a c c' :
  authenticate_node_request ed25519_verify_strict o headers input c = (Ok a, c') -> c' = set_nonces (fl_nonces c') c.
Proof.
  unfold authenticate_node_request. cbv zeta. intros H. tx_inv. destruct x5 as [status credential]. tx_inv.
  match goal with E : (match ?o with Some _ => _ | None => _ end) = Ok _ |- _ => destruct o; [done|] end. by tx_inv.
Qed.

(** The candidates and verifications a report leaves are consistent when those
    before it are *)
Lemma reported_row_ok endpoints g now e old v :
  (forall row, old = Some row -> ca_last_report_generation row <= g /\ ca_verification_generation row <= ca_last_report_generation row /\
     exists v0, v = Some v0 /\ (ve_status v0 = VsWithdrawn <-> is_Some (ca_withdrawn_at row))) ->
  forall row, reported_row endpoints g now e old = Some row ->
    ca_last_report_generation row <= g /\ ca_verification_generation row <= ca_last_report_generation row /\
    exists v', reported_verification endpoints g now e old v = Some v' /\ (ve_status v' = VsWithdrawn <-> is_Some (ca_withdrawn_at row)) /\
      (ve_status v' = VsVerified -> v = Some v' /\ exists row0, old = Some row0 /\ ca_address row = ca_address row0 /\
         ca_port row = ca_port row0 /\ ca_applied_revision row = ca_applied_revision row0 /\
         ca_verification_generation row = ca_verification_generation row0).
Proof.
  intros Hold row. unfold reported_verification, reported_row. destruct (candidate_of e endpoints) as [candidate|].
  - intros [= <-]. destruct old as [row0|]; cbn [ca_last_report_generation ca_verification_generation ca_withdrawn_at refreshed new_row].
    2: { split; [lia|]. split; [lia|]. eexists. split; [done|]. split; [split; [done|by intros [? ?]]|done]. }
    destruct (Hold row0 eq_refl) as (Hg & Hvg & v0 & -> & Hw). split; [lia|]. split; [by destruct (present _); lia|].
    cbn. eexists. split; [done|]. destruct (ca_withdrawn_at row0) as [t|] eqn:Et; cbn [present andb].
    + rewrite bool_decide_eq_true_2 by (by apply Hw). split; [split; [done|by intros [? ?]]|done].
    + split; [split; [intros H; by apply Hw in H as [? ?]|by intros [? ?]]|]. intros Hv. split; [done|]. by eexists.
  - destruct old as [row0|]; [|done]. intros [= <-]. destruct (Hold row0 eq_refl) as (Hg & Hvg & v0 & -> & Hw).
    destruct (ca_withdrawn_at row0) as [t|] eqn:Et; cbn [present andb negb].
    + split; [done|]. split; [done|]. cbn. rewrite Et. cbn. rewrite (bool_decide_eq_true_2 (ve_status v0 = _)) by (by apply Hw).
      cbn. eexists. split; [done|]. rewrite Hw. split; [done|]. intros E. exfalso. assert (ve_status v0 = VsWithdrawn) by (by apply Hw). congruence.
    + assert (ve_status v0 <> VsWithdrawn) as Hn by (intros H; by apply Hw in H as [? ?]).
      cbn. rewrite ?Et. cbn. destruct (ca_last_report_generation row0 <? g); cbn; rewrite ?Et, (bool_decide_eq_false_2 (ve_status v0 = _)) by done; cbn;
        (split; [lia|]; split; [lia|]; eexists; split; [done|]; rewrite ?Et; cbn).
      * split; [split; [by eexists|done]|done].
      * split; [split; [done|by intros [? ?]]|]. intros _. split; [done|]. by eexists.
Qed.
Lemma validated_ids_unique h : heartbeat_validate h = Ok tt -> NoDup (ec_endpoint_id <$> hb_endpoints h).
Proof.
  unfold heartbeat_validate, unique. intros H. inv_ok.
  repeat match goal with E : bool_decide (NoDup _) = true |- _ => apply bool_decide_eq_true in E end. done.
Qed.
(** What a row of a candidate has beside it after an operation *)
Definition row_backed (c c' : Fleet) (key : NodeId * EndpointId) (row : CandidateRow) : Prop :=
  ca_verification_generation row <= ca_last_report_generation row /\
  exists v, fl_verifications c' !! key = Some v /\ (ve_status v = VsWithdrawn <-> is_Some (ca_withdrawn_at row)) /\
    (ve_status v = VsVerified -> fl_verifications c !! key = Some v /\ exists row0, fl_candidates c !! key = Some row0 /\
       ca_address row = ca_address row0 /\ ca_port row = ca_port row0 /\ ca_applied_revision row = ca_applied_revision row0 /\
       ca_verification_generation row = ca_verification_generation row0).
Lemma report_backed n h now u c1 c c' previous :
  fleet_ok c -> fl_nodes c !! n = Some previous -> nd_heartbeat_generation previous < hb_generation h ->
  NoDup (ec_endpoint_id <$> hb_endpoints h) -> fl_candidates c1 = fl_candidates c -> fl_verifications c1 = fl_verifications c ->
  record_endpoint_candidates n h (hb_generation h) now c1 = (Ok u, c') ->
  (forall key row, fl_candidates c' !! key = Some row -> row_backed c c' key row /\
     if decide (key.1 = n) then ca_last_report_generation row <= hb_generation h else fl_candidates c !! key = Some row) /\
  forall key, is_Some (fl_verifications c' !! key) -> is_Some (fl_candidates c' !! key).
Proof.
  intros [H1 H2 H3 H4 _ _ _ _] Hn Hg Hnd Ec Ev (_ & _ & _ & Hk & L)%(report_run n _ _ (hb_endpoints h)); [|done|done].
  rewrite Ec, Ev in *. split.
  - intros [m e] row Hrow. unfold row_backed. cbn [fst]. destruct (decide (m = n)) as [->|Hne].
    + destruct (L e) as [Er ->]. rewrite Er in Hrow. apply reported_row_ok with (v := fl_verifications c !! (n, e)) in Hrow; [tauto|].
      intros row0 E0. destruct (H1 _ _ _ E0) as (nr & En0 & Hle). rewrite Hn in En0. injection En0 as <-.
      split; [lia|]. split; [by apply (H2 (n, e))|]. by apply H3.
    + destruct (Hk (m, e) Hne) as [Er ->]. rewrite Er in Hrow. split; [|done]. split; [by apply (H2 (m, e))|].
      destruct (H3 _ _ Hrow) as (v & Hv & Hw). exists v. split; [done|]. split; [done|]. intros _. split; [done|]. by exists row.
  - intros [m e] [v Hv]. destruct (decide (m = n)) as [->|Hne].
    + destruct (L e) as [-> Ev']. rewrite Ev' in Hv. revert Hv. unfold reported_verification, reported_row.
      destruct (candidate_of e _); [by eexists|]. destruct (fl_verifications c !! (n, e)) as [v0|] eqn:Ev0; [|done]. intros _.
      destruct (H4 _ _ Ev0) as [? ->]. by eexists.
    + destruct (Hk (m, e) Hne) as [-> Ev']. apply (H4 (m, e) v). by rewrite <- Ev'.
Qed.
(** The columns of a node the journal is about *)
Definition same_progress (row row' : NodeRow) : Prop :=
  nd_received row' = nd_received row /\ nd_validated row' = nd_validated row /\ nd_applied row' = nd_applied row.
Lemma same_progress_journal c c' n row row' : fl_results c' = fl_results c -> same_progress row row' ->
  journal_ok c n row -> journal_ok c' n row'.
Proof. intros Er (E1 & E2 & E3) []. split; by rewrite ?Er, ?E1, ?E2, ?E3. Qed.
Lemma backed_verified c c' key row v :
  fleet_ok c -> attempts_step (fl_attempts c) (fl_attempts c') -> row_backed c c' key row -> fl_verifications c' !! key = Some v ->
  ve_status v = VsVerified ->
  exists s, canary_passed (fl_attempts c') key row s /\ ve_last_probe_at v = Some s /\ ve_expires_at v = Some (s + 900).
Proof.
  intros Hok Hat (_ & v' & Hv' & _ & Hver) Hv Hs. rewrite Hv in Hv'. injection Hv' as <-.
  destruct (Hver Hs) as (Ev0 & row0 & Er0 & ? & ? & ? & ?). destruct (fk_verified _ Hok _ _ _ Er0 Ev0 Hs) as (s & Hp & ?).
  exists s. split; [|done]. by eapply canary_passed_later.
Qed.
Lemma heartbeat_ok o n h answer c c' : record_heartbeat o n h c = (Ok answer, c') -> fleet_ok c -> fleet_ok c'.
Proof.
  intros (Hval & json & now & network & previous & _ & _ & _ & Hn & _ & _ & [(_ & _ & ->)|(Hg & _ & Hr)])%heartbeat_run Hok; [done|].
  pose proof Hr as Hb. apply (report_backed n h now _ _ c _ previous) in Hb as [Rows Hcand]; [|done|done|done|by apply validated_ids_unique|done|done].
  apply (report_run n _ _ (hb_endpoints h)) in Hr as (Ho & Hat & _); [|done|by apply validated_ids_unique]. cbn in Hat.
  assert (fl_nodes c' = <[n := heard h (sha256 json) now previous]> (fl_nodes c)) as En by (by rewrite Ho).
  assert (fl_results c' = fl_results c) as Er by (by rewrite Ho).
  pose proof Hok as [H1 _ _ _ _ H6 H7 H8]. split; rewrite ?En, ?Er; try done.
  - intros m e row Hrow. destruct (Rows _ _ Hrow) as [_ Hm]. cbn in Hm. destruct (decide (m = n)) as [->|Hne].
    + rewrite lookup_insert_eq. by eexists.
    + rewrite lookup_insert_ne by done. by apply (H1 m e).
  - intros key row Hrow. by destruct (Rows _ _ Hrow) as [[? _] _].
  - intros key row Hrow. destruct (Rows _ _ Hrow) as [(_ & v & ? & ? & _) _]. by exists v.
  - intros key v Hv. by apply Hcand; eexists.
  - intros key row v Hrow Hv Hs. destruct (Rows _ _ Hrow) as [Hb _]. by eapply backed_verified.
  - intros m r st Hm. destruct (decide (m = n)) as [->|Hne]; [by rewrite lookup_insert_eq; eexists|].
    rewrite lookup_insert_ne by done. by eapply H6.
  - intros m row Hm. destruct (decide (m = n)) as [->|Hne].
    + rewrite lookup_insert_eq in Hm. injection Hm as <-. eapply same_progress_journal; [exact Er| |by apply H8]. done.
    + rewrite lookup_insert_ne in Hm by done. eapply same_progress_journal; [exact Er| |by apply H8]. done.
Qed.

Lemma canary_ok o job result r c c' : complete_protocol_canary o job result c = (Ok r, c') -> fleet_ok c -> fleet_ok c'.
Proof.
  intros [H|(now & t & row & v & _ & Hrow & Hw & Hv & Hvs & Hat & -> & Hp)]%complete_canary_run Hok; [by eapply only_attempts_ok|].
  cbn in Hat, Hp |- *. set (key := (tj_node_id (pj_shape job), tj_endpoint_id (pj_shape job))) in *.
  set (v' := verification_after t now (now + 900) v) in *. assert (ve_status v' <> VsWithdrawn) as Hv' by (subst v'; unfold verification_after; by case_bool_decide).
  pose proof Hok as [H1 H2 H3 H4 H5 H6 H7 H8]. split; cbn; try done.
  - intros k rw Hk. destruct (decide (k = key)) as [->|Hne]; [|by rewrite lookup_insert_ne; [apply H3|]].
    rewrite lookup_insert_eq. exists v'. split; [done|]. split; [done|]. rewrite Hrow in Hk. injection Hk as <-. rewrite Hw. by intros [? ?].
  - intros k vk Hk. destruct (decide (k = key)) as [->|Hne]; [by rewrite Hrow; eexists|]. rewrite lookup_insert_ne in Hk by done. by eapply H4.
  - intros k rw vk Hk Hvk Hs. destruct (decide (k = key)) as [->|Hne].
    + rewrite lookup_insert_eq in Hvk. injection Hvk as <-. rewrite Hrow in Hk. injection Hk as <-. exists now.
      subst v'. unfold verification_after in *. case_bool_decide as Ht; [|done]. split; [|done]. apply Hp; [done|]. by apply (H2 key).
    + rewrite lookup_insert_ne in Hvk by done. destruct (H5 _ _ _ Hk Hvk Hs) as (s & Hps & ?). exists s. split; [|done]. by eapply canary_passed_later.
  - intros n nr Hn. eapply same_progress_journal; [|split_and!; reflexivity|by apply H8]. done.
Qed.

(** [max(COALESCE(before, 0), revision)] *)
Lemma raise_to_cases revision before : 0 < revision ->
  exists m, raise_to revision before = Some m /\ revision <= m /\ (forall b, before = Some b -> b <= m) /\ (m = revision \/ before = Some m).
Proof.
  intros Hr. unfold raise_to. eexists. split; [done|]. destruct before as [b|]; cbn; (split; [lia|]); split.
  - intros ? [= <-]. lia.
  - destruct (Z.max_spec b revision) as [[_ ->]|[_ ->]]; auto.
  - done.
  - left. lia.
Qed.
Lemma loaded_result n revision st c r : load_revision_result_state n revision st c = Ok (Some r) -> is_Some (fl_results c !! (n, revision, st)).
Proof. unfold load_revision_result_state. destruct (fl_results c !! _); [by eexists|]. by intros [=]. Qed.
(** A result that is applied or rolled back follows its validation, a rollback
    goes to a revision that was applied *)
Lemma dependencies_run n revision result c : validate_result_dependencies n revision result c = Ok tt ->
  (rr_state result = RsApplied \/ rr_state result = RsRolledBack -> is_Some (fl_results c !! (n, revision, RsValidated))) /\
  (rr_state result = RsRolledBack -> exists rollback, rr_rollback_revision result = Some rollback /\
     is_Some (fl_results c !! (n, rollback, RsApplied))).
Proof.
  unfold validate_result_dependencies. intros H. destruct (rr_state result); tx_inv; subst; (split; [intros [?|?]|intros ?]; try done);
    try (eexists; split; [eassumption|]); eapply loaded_result; eassumption.
Qed.
(** The journal with one more result, and the progress that goes with it *)
Lemma progressed_journal revision now result row c c' n stored :
  0 < revision -> validate_result_dependencies n revision result c = Ok tt ->
  fl_results c' = <[(n, revision, rr_state result) := stored]> (fl_results c) ->
  journal_ok c n row -> journal_ok c' n (progressed revision now result row).
Proof.
  intros Hr [Hval Hroll]%dependencies_run Er [J1 J2 J3 J4 J5].
  destruct (raise_to_cases revision (nd_received row) Hr) as (mr & Emr & Hmr & Hmr' & Cmr).
  destruct (raise_to_cases revision (nd_validated row) Hr) as (mv & Emv & Hmv & Hmv' & Cmv).
  assert (forall k, is_Some (fl_results c !! k) -> is_Some (fl_results c' !! k)) as Keep.
  { intros k Hk. rewrite Er, lookup_insert_is_Some'. by right. }
  assert (is_Some (fl_results c' !! (n, revision, rr_state result))) as New by (rewrite Er, lookup_insert_eq; by eexists).
  assert (forall r st, is_Some (fl_results c' !! (n, r, st)) -> (r = revision /\ st = rr_state result) \/ is_Some (fl_results c !! (n, r, st))) as Old.
  { intros r st. rewrite Er, lookup_insert_is_Some'. intros [[=]|?]; [by left|by right]. }
  assert (nd_received (progressed revision now result row) = Some mr) as Ercv by (unfold progressed; by destruct (rr_state result)).
  split.
  - intros r. rewrite Ercv. intros [= <-]. destruct Cmr as [->|E]; [by exists (rr_state result)|]. destruct (J1 _ E) as [st ?]. eauto.
  - intros r st [[-> _]|H]%Old; rewrite Ercv; [by exists mr|]. destruct (J2 _ _ H) as (m & E & ?). exists mr. split; [done|]. specialize (Hmr' _ E). lia.
  - intros r E. unfold progressed in E. destruct (rr_state result) eqn:Es; cbn in E; rewrite ?Emv in E; try (by apply Keep, J3);
      injection E as <-; destruct Cmv as [->|E]; (done || by apply Keep, J3) || (apply Keep; auto).
  - intros r H. unfold progressed. destruct (Old _ _ H) as [[-> Es]|H0].
    + rewrite <- Es. cbn. rewrite Emv. by exists mv.
    + destruct (J4 _ H0) as (m & E & Hle). specialize (Hmv' _ E). destruct (rr_state result); cbn; rewrite ?Emv, ?E; eexists; (split; [reflexivity|lia]).
  - intros r E. unfold progressed in E. destruct (rr_state result) eqn:Es; cbn in E; try (by apply Keep, J5).
    + destruct (raise_to_cases revision (nd_applied row) Hr) as (ma & Ema & _ & _ & Cma). rewrite Ema in E. injection E as <-.
      destruct Cma as [->|E]; [done|by apply Keep, J5].
    + destruct Hroll as (rollback & E' & ?); [done|]. rewrite E in E'. injection E' as <-. by apply Keep.
Qed.
Lemma progressed_generation revision now result row :
  nd_heartbeat_generation (progressed revision now result row) = nd_heartbeat_generation row.
Proof. unfold progressed. by destruct (rr_state result). Qed.
Lemma result_ok o n revision result u c c' : record_revision_result o n revision result c = (Ok u, c') -> fleet_ok c -> fleet_ok c'.
Proof.
  intros (_ & _ & previous & _ & _ & [[_ ->]|(now & stored & row & _ & Hdep & _ & Hn & Hr & _ & Hs)])%result_run Hok; [done|].
  eapply same_tables_ok; [exact Hs|]. clear Hs c'. pose proof Hok as [H1 H2 H3 H4 H5 H6 H7 H8]. split; cbn; try done.
  - intros m e rw Hrw. destruct (H1 _ _ _ Hrw) as (nr & Hm & ?). destruct (decide (m = n)) as [->|Hne].
    + rewrite lookup_insert_eq. rewrite Hn in Hm. injection Hm as <-. eexists. split; [done|]. by rewrite progressed_generation.
    + rewrite lookup_insert_ne by done. by exists nr.
  - intros m r st. rewrite !lookup_insert_is_Some'. intros [[= <- _ _]|H]; [by left|]. right. by eapply H6.
  - intros m r. rewrite !lookup_insert_is_Some'. intros [[= <- <- Es]|H]; right; [|by apply H7].
    apply dependencies_run in Hdep as [Hdep _]. apply Hdep. by left.
  - intros m rw Hm. destruct (decide (m = n)) as [->|Hne].
    + rewrite lookup_insert_eq in Hm. injection Hm as <-. eapply progressed_journal; [done|done|done|by apply H8].
    + rewrite lookup_insert_ne in Hm by done. destruct (H8 _ _ Hm) as [J1 J2 J3 J4 J5].
      split; cbn; intros *; rewrite ?lookup_insert_ne by (by intros [= <-]); eauto.
      intros E. destruct (J1 _ E) as [st Hst]. exists st. by rewrite lookup_insert_ne by (by intros [= <-]).
Qed.
Lemma elsewhere_ok c c' : elsewhere c c' -> fleet_ok c -> fleet_ok c'.
Proof.
  intros [_ Er Ec Ea En Enew Ev] [H1 H2 H3 H4 H5 H6 H7 H8]. split; rewrite ?Er, ?Ec, ?Ea; try done.
  - intros n e row Hrow. destruct (H1 _ _ _ Hrow) as (nr & Hn & ?). destruct (En _ _ Hn) as (nr' & ? & Eg & _). exists nr'. by rewrite Eg.
  - intros key row Hrow. destruct (H3 _ _ Hrow) as (v & Hv & Hw). destruct (Ev key) as [->|(v0 & now & Hv0 & Hs & ->)]; [by exists v|].
    rewrite Hv in Hv0. injection Hv0 as <-. eexists. split; [done|]. cbn. split; [done|]. intros H. by apply Hw in H.
  - intros key v Hv. destruct (Ev key) as [E|(v0 & now & Hv0 & _)]; [rewrite E in Hv|]; by eapply H4.
  - intros key row v Hrow Hv Hs. destruct (Ev key) as [E|(v0 & now & Hv0 & _ & E)]; rewrite E in Hv; [by apply H5|]. by injection Hv as <-.
  - intros n r st H. destruct (H6 _ _ _ H) as [row Hn]. destruct (En _ _ Hn) as (row' & ? & _). by eexists.
  - intros n row' Hn'. destruct (fl_nodes c !! n) as [row|] eqn:Hn.
    + destruct (En _ _ Hn) as (row1 & E & _ & E1 & E2 & E3). rewrite Hn' in E. injection E as <-.
      eapply same_progress_journal; [exact Er| |by apply H8]. done.
    + destruct (Enew _ _ Hn Hn') as (E1 & E2 & E3). assert (forall r st, ~ is_Some (fl_results c !! (n, r, st))) as None_.
      { intros r st H. destruct (H6 _ _ _ H) as [? ?]. congruence. }
      split; rewrite ?Er, ?E1, ?E2, ?E3; try done; intros; exfalso; by eapply None_.
Qed.

(** What a step that is not rejected does *)
Lemma quiet_step_cases c c' : quiet_step c c' ->
  c' = c \/ (exists o n h a, record_heartbeat o n h c = (Ok a, c')) \/
  (exists o n r result u, record_revision_result o n r result c = (Ok u, c')) \/
  only_attempts c c' \/ (exists o j r a, complete_protocol_canary o j r c = (Ok a, c')) \/ elsewhere c c'.
Proof.
  pose proof (failed_calls c) as (_ & F2 & F3 & F4 & F5 & F6 & F7). intros Hstep.
  destruct Hstep as [o n h|o n r result|o f r s|o f r s|o j r|o j r|c' H]; [..|tauto];
    match goal with |- (?m c).2 = _ \/ _ => destruct (m c) as [[a|e] c1] eqn:E; cbn end.
  - right; left. by eexists _, _, _, _.
  - left. by eapply F2.
  - right; right; left. by eexists _, _, _, _, _.
  - left. by eapply F3.
  - do 3 right; left. by eapply claim_tcp_run.
  - left. by eapply F4.
  - do 3 right; left. by eapply claim_canary_run.
  - left. by eapply F5.
  - do 3 right; left. by eapply complete_tcp_run.
  - left. by eapply F6.
  - do 4 right; left. by eexists _, _, _, _.
  - left. by eapply F7.
Qed.
Lemma quiet_step_nonces c c' : quiet_step c c' -> fl_nonces c' = fl_nonces c.
Proof.
  intros [->|[(o & n & h & a & H)|[(o & n & r & result & u & H)|[[_ ->]|[(o & j & r & a & H)|[]]]]]]%quiet_step_cases; try done.
  - apply heartbeat_run in H as (Hval & json & now & network & previous & _ & _ & _ & _ & _ & _ & [(_ & _ & ->)|(_ & _ & Hr)]); [done|].
    apply (report_run n _ _ (hb_endpoints h)) in Hr as (-> & _); [done|done|by apply validated_ids_unique].
  - apply result_run in H as (_ & _ & p & _ & _ & [[_ ->]|(now & stored & row & _ & _ & _ & _ & _ & _ & Hs)]); [done|].
    destruct Hs as (_ & -> & _). done.
  - apply complete_canary_run in H as [[_ ->]|(now & t & row & v & _ & _ & _ & _ & _ & _ & -> & _)]; done.
Qed.

(** Every state the tables reach is consistent *)
Lemma fleet_step_ok c c' : fleet_step c c' -> fleet_ok c -> fleet_ok c'.
Proof.
  intros [o h i|c1 H] Hok.
  - destruct (authenticate_node_request _ o h i c) as [[a|e] c1] eqn:E; cbn.
    + apply authenticate_run in E as ->. by apply nonces_ok.
    + by rewrite (proj1 (failed_calls c) _ _ _ _ _ E).
  - apply quiet_step_cases in H as [->|[(o & n & h & a & H)|[(o & n & r & result & u & H)|[H|[(o & j & r & a & H)|H]]]]];
      [done|by eapply heartbeat_ok|by eapply result_ok|by eapply only_attempts_ok|by eapply canary_ok|by eapply elsewhere_ok].
Qed.
Lemma fleet_reaches_ok c : fleet_reaches c -> fleet_ok c.
Proof.
  intros (c0 & H0 & H). apply fresh_fleet_ok in H0. induction H as [|c1 c2 c3 H12 _ IH]; [done|]. by eapply IH, fleet_step_ok.
Qed.
End Invariant.
