(* ===== verification/ControlNodeTheorems.v ===== *)
(** * What the controller promises about its nodes

    Requests are authentic and accepted once; the candidates of a node are those of
    its last heartbeat, and its answer is one the node accepts; an endpoint is
    called verified only when a canary went through it; the progress of a node is
    what it reported, and the credentials of its members follow it. *)
From S2P Require Import Prelude Text Clock ProtoTypes ProtoInstances ProtoAuth ProtoTranscript ProtoNode ProtoNodeFacts ProtoSigned ProtoTelemetry.
From S2P Require Import NodeHostDb NodeHostRuntime NodeHostSync NodeHostSamples Transaction NodePolicy NodeTelemetry ControlTelemetry RouterMapping NodeHeartbeat.
From S2P Require Import ControlNodes ControlProbes ControlNodeFacts ControlNodeInvariant.
From stdpp Require Import sorting.
Open Scope Z_scope.

Section Theorems.
Context `{U : UuidText} `{R : Rfc3339} `{B : Base64} `{Sha : Sha256} `{Ed : Ed25519}.
Context `{HJson : HeartbeatJson} `{RJson : NodeJson} `{AJson : ArtifactJson} `{Key : ControllerKey}.
Variable ed25519_verify_strict : list byte -> list byte -> list byte -> bool.
Implicit Types c : Fleet.

(** ** Requests *)

(** A request the controller accepted, with the clock and the tables at the time *)
Record Accepted : Type := mkAccepted {
  ap_outside : Outside;
  ap_fleet : Fleet;
  ap_headers : NodeRequestAuthHeaders;
  ap_input : NodeRequestSigningInput;
}.
(** What a sender cannot change without signing anew *)
Definition request_identity (a : Accepted) : NodeId * NodeKeyId * Z * string :=
  (ah_node_id (ap_headers a), ah_key_id (ap_headers a), to_unix (ah_timestamp (ap_headers a)), ah_nonce (ap_headers a)).
(** The node is served, the credential is its own, valid and not revoked, the clock
    is near, and the signature is that of the credential's key for this controller *)
Definition authentic (a : Accepted) : Prop :=
  let h := ap_headers a in
  exists now network node credential controller,
    control_seconds (ot_wall (ap_outside a)) = Ok now /\ Z.abs (now - to_unix (ah_timestamp h)) <= NODE_REQUEST_CLOCK_SKEW_SECONDS /\
    fl_network (ap_fleet a) = Some network /\ id_from_str (nw_controller_epoch network) = Ok controller /\
    fl_nodes (ap_fleet a) !! ah_node_id h = Some node /\ serves (nd_status node) = true /\
    fl_auth (ap_fleet a) !! ah_key_id h = Some credential /\ au_node_id credential = ah_node_id h /\
    au_revoked_at credential = None /\ au_not_before credential <= now < au_expires_at credential /\
    verify_node_request_signature ed25519_verify_strict (au_identity_public_key credential) h (ap_input a) controller = Ok tt.

(** The controller at work: the clock so far, what was accepted, the last first *)
Inductive serving : Z -> list Accepted -> Fleet -> Prop :=
| serving_start wall c : serving wall [] c
| serving_request wall log c o headers input : serving wall log c -> wall <= ot_wall o ->
    serving (ot_wall o)
      (if is_ok (authenticate_node_request ed25519_verify_strict o headers input c).1 then mkAccepted o c headers input :: log else log)
      (authenticate_node_request ed25519_verify_strict o headers input c).2
| serving_quiet wall log c c' : serving wall log c -> quiet_step c c' -> serving wall log c'.

Definition nonce_key (h : NodeRequestAuthHeaders) : NodeId * NodeKeyId * list byte :=
  (ah_node_id h, ah_key_id h, sha256 (as_bytes (ah_nonce h))).
Definition unexpired (now : Z) (nonces : gmap (NodeId * NodeKeyId * list byte) NonceRow) : gmap (NodeId * NodeKeyId * list byte) NonceRow :=
  filter (fun row => now <= no_expires_at row.2) nonces.
Lemma authenticate_spec o headers input a c c' :
  authenticate_node_request ed25519_verify_strict o headers input c = (Ok a, c') ->
  authentic (mkAccepted o c headers input) /\
  exists now, control_seconds (ot_wall o) = Ok now /\ now <= to_unix (ah_timestamp headers) + 300 /\
    unexpired now (fl_nonces c) !! nonce_key headers = None /\
    fl_nonces c' = <[nonce_key headers := mkNonceRow (to_unix (ah_timestamp headers)) (to_unix (ah_timestamp headers) + 300) now]>
                     (unexpired now (fl_nonces c)).
Proof.
  unfold authenticate_node_request. cbv zeta. intros H. tx_inv. destruct x5 as [status credential]. tx_inv.
  unfold load_fleet_network, fixed_base64url, NODE_REQUEST_CLOCK_SKEW_SECONDS in *. tx_inv. units.
  match goal with E : (match ?o with Some _ => _ | None => _ end) = Ok _ |- _ => destruct o eqn:En; [done|] end. tx_inv.
  match goal with E : mbind _ _ = Some _ |- _ => apply bind_Some in E as (node & Hn & E); apply bind_Some in E as (cr & Hc & E) end.
  case_bool_decide as Hid; simplify_eq. unfold checked_add in *. case_match; simplify_eq.
  split; [|by eexists; split_and!; [eassumption|lia|exact En|]].
  eexists _, _, node, credential, _. unfold NODE_REQUEST_CLOCK_SKEW_SECONDS. split_and!; try eassumption; cbn in *; try lia.
  - by destruct (nd_status node).
  - by destruct (nd_status node), (au_revoked_at credential).
Qed.
(** What was accepted is remembered until its time is over *)
Definition remembered (wall : Z) (c : Fleet) (a : Accepted) : Prop :=
  let h := ap_headers a in
  (exists row, fl_nonces c !! nonce_key h = Some row /\ no_expires_at row = to_unix (ah_timestamp h) + 300) \/
  to_unix (ah_timestamp h) + 300 < wall / NANOS.
Lemma control_seconds_Ok wall now : control_seconds wall = Ok now -> now = wall / NANOS.
Proof. unfold control_seconds. intros H. by inv_ok. Qed.
Lemma seconds_mono wall wall' : wall <= wall' -> wall / NANOS <= wall' / NANOS.
Proof. intros H. unfold NANOS. apply Z.div_le_mono; lia. Qed.
Lemma remembered_later wall o c headers input a c' entry :
  authenticate_node_request ed25519_verify_strict o headers input c = (Ok a, c') -> wall <= ot_wall o ->
  remembered wall c entry -> remembered (ot_wall o) c' entry.
Proof.
  intros (_ & now & Hnow & _ & Hfree & E)%authenticate_spec Hwall [(row & Hrow & Hexp)|H].
  - apply control_seconds_Ok in Hnow as ->. destruct (decide (ot_wall o / NANOS <= no_expires_at row)) as [Hle|Hgt]; [|right; lia].
    left. exists row. split; [|done]. rewrite E. apply lookup_insert_Some. right.
    assert (unexpired (ot_wall o / NANOS) (fl_nonces c) !! nonce_key (ap_headers entry) = Some row) as Hk by (by apply map_lookup_filter_Some).
    split; [|done]. intros Ek. rewrite Ek in Hfree. congruence.
  - right. apply seconds_mono in Hwall. lia.
Qed.
Lemma serving_ok wall log c :
  serving wall log c -> NoDup (request_identity <$> log) /\ Forall authentic log /\ Forall (remembered wall c) log.
Proof.
  induction 1 as [wall c|wall log c o headers input _ (IH1 & IH2 & IH3) Hwall|wall log c c' _ (IH1 & IH2 & IH3) Hq].
  - split; [apply NoDup_nil_2|by split; constructor].
  - destruct (authenticate_node_request _ o headers input c) as [[a|e] c'] eqn:E; cbn.
    + assert (Forall (remembered (ot_wall o) c') log) as Hlater by (eapply Forall_impl; [exact IH3|]; intros ?; by eapply remembered_later).
      apply authenticate_spec in E as (Hau & now & Hnow & Hts & Hfree & E). split; [|split; constructor; try done].
      * constructor; [|done]. intros (a' & Eid & Ha')%list_elem_of_fmap. unfold request_identity in Eid. cbn in Eid. injection Eid as E1 E2 E3 E4.
        apply control_seconds_Ok in Hnow as ->. rewrite Forall_forall in IH3. destruct (IH3 a' Ha') as [(row & Hrow & Hexp)|Hold].
        -- assert (unexpired (ot_wall o / NANOS) (fl_nonces c) !! nonce_key headers = Some row); [|congruence].
           apply map_lookup_filter_Some. split; [unfold nonce_key in *; by rewrite E1, E2, E4|cbn; lia].
        -- apply seconds_mono in Hwall. lia.
      * left. eexists. split; [rewrite E; apply lookup_insert_eq|done].
    + rewrite (proj1 (failed_calls ed25519_verify_strict c) _ _ _ _ _ E). split; [done|]. split; [done|].
      eapply Forall_impl; [exact IH3|]. intros x [H|H]; [by left|right]. apply seconds_mono in Hwall. lia.
  - apply (quiet_step_nonces ed25519_verify_strict) in Hq. split; [done|]. split; [done|]. eapply Forall_impl; [exact IH3|]. unfold remembered. by rewrite Hq.
Qed.

(** C10: Node requests are authentic and accepted once. Whatever the controller is
    asked in between, while its clock is not set back: each request it accepted
    was signed, for this controller, by the key of a valid credential of a node it
    serves, with a time no more than 300 seconds away; and no two accepted
    requests have the same node, credential, time and nonce. *)
Theorem requests_accepted_once wall log c : serving wall log c -> Forall authentic log /\ NoDup (request_identity <$> log).
Proof. intros (? & ? & _)%serving_ok. done. Qed.

(** ** Candidates *)

(** The row is that of the candidate, reported with a generation *)
Definition describes (g : Z) (candidate : EndpointCandidate) (row : CandidateRow) : Prop :=
  row_unchanged (prepared candidate) row = true /\ ca_last_report_generation row = g.
Lemma row_unchanged_new candidate g now : row_unchanged (prepared candidate) (new_row (prepared candidate) g now) = true.
Proof. unfold row_unchanged. cbn. by rewrite !bool_decide_eq_true_2, !Z.eqb_refl. Qed.
(** The current candidates of the node after a new heartbeat *)
Lemma candidates_after o n h answer c c' previous :
  fleet_ok c -> record_heartbeat o n h c = (Ok answer, c') -> fl_nodes c !! n = Some previous ->
  nd_heartbeat_generation previous < hb_generation h ->
  (forall e row, fl_candidates c' !! (n, e) = Some row -> ca_withdrawn_at row = None ->
     exists candidate, candidate ∈ hb_endpoints h /\ ec_endpoint_id candidate = e /\ describes (hb_generation h) candidate row) /\
  (forall candidate, candidate ∈ hb_endpoints h -> exists row, fl_candidates c' !! (n, ec_endpoint_id candidate) = Some row /\
     ca_withdrawn_at row = None /\ describes (hb_generation h) candidate row) /\
  forall key, key.1 <> n -> fl_candidates c' !! key = fl_candidates c !! key.
Proof.
  intros Hok (Hval & json & now & network & p & _ & _ & _ & Hn & _ & _ & Hcase)%heartbeat_run Hn' Hg. simplify_eq.
  destruct Hcase as [(E & _)|(_ & _ & Hr)]; [lia|]. apply validated_ids_unique in Hval as Hnd.
  apply (report_run n _ _ (hb_endpoints h)) in Hr as (_ & _ & Hun & Hk & L); [|done|done]. cbn [fl_candidates fl_verifications set_nodes] in *.
  assert (forall candidate, candidate ∈ hb_endpoints h -> exists row, fl_candidates c' !! (n, ec_endpoint_id candidate) = Some row /\
     ca_withdrawn_at row = None /\ describes (hb_generation h) candidate row) as Hin.
  { intros candidate Hc. destruct (L (ec_endpoint_id candidate)) as [-> _]. unfold reported_row. rewrite (candidate_of_In _ _ Hnd Hc).
    eexists. split; [done|]. destruct (fl_candidates c !! _) as [row|] eqn:E; (split; [done|]; split; [|done]); [|apply row_unchanged_new].
    exact (proj2 (Hun candidate Hc) row E). }
  split; [|split; [done|intros key Hkey; apply (Hk key Hkey)]].
  intros e row Hrow Hw. destruct (candidate_of e (hb_endpoints h)) as [candidate|] eqn:Ec.
  - apply candidate_of_Some in Ec as [Hc <-]. exists candidate. destruct (Hin candidate Hc) as (row' & E & _ & Hd). by simplify_eq.
  - exfalso. destruct (L e) as [E _]. rewrite E in Hrow. unfold reported_row in Hrow. rewrite Ec in Hrow.
    destruct (fl_candidates c !! (n, e)) as [row0|] eqn:E0; [|done]. cbn in Hrow. injection Hrow as <-.
    destruct (fk_node _ Hok _ _ _ E0) as (nr & En & Hle). simplify_eq.
    destruct (ca_withdrawn_at row0) eqn:Ew; cbn in Hw; [congruence|].
    rewrite (proj2 (Z.ltb_lt _ _)) in Hw by lia. done.
Qed.

(** C12: The controller's candidates of a node are those of its last heartbeat. After
    a new heartbeat is accepted, the candidates of that node that are not withdrawn
    are exactly the endpoints it lists, each with the address, port, revision and
    times reported; the candidates of other nodes are as they were. *)
Theorem candidates_follow_heartbeat o n h answer c c' previous :
  fleet_reaches ed25519_verify_strict c -> record_heartbeat o n h c = (Ok answer, c') -> fl_nodes c !! n = Some previous ->
  nd_heartbeat_generation previous < hb_generation h ->
  (forall e row, fl_candidates c' !! (n, e) = Some row -> ca_withdrawn_at row = None ->
     exists candidate, candidate ∈ hb_endpoints h /\ ec_endpoint_id candidate = e /\ describes (hb_generation h) candidate row) /\
  (forall candidate, candidate ∈ hb_endpoints h -> exists row, fl_candidates c' !! (n, ec_endpoint_id candidate) = Some row /\
     ca_withdrawn_at row = None /\ describes (hb_generation h) candidate row) /\
  forall key, key.1 <> n -> fl_candidates c' !! key = fl_candidates c !! key.
Proof. intros Hc%fleet_reaches_ok. by apply candidates_after. Qed.

(** ** Progress *)

(** C17: The progress the controller keeps of a node is that of its journal of
    results. The revision received is the last one with any result and the revision
    validated the last one with that result; the revision applied has the result
    that it was applied. So applied <= validated <= received, and each is recorded
    when a later one is. *)
Theorem progress_is_journal c n row : fleet_reaches ed25519_verify_strict c -> fl_nodes c !! n = Some row ->
  journal_ok c n row /\
  (forall a, nd_applied row = Some a -> exists v, nd_validated row = Some v /\ a <= v) /\
  (forall v, nd_validated row = Some v -> exists r, nd_received row = Some r /\ v <= r).
Proof.
  intros Hc%fleet_reaches_ok Hn. pose proof (fk_journal _ Hc _ _ Hn) as J. split; [done|]. split.
  - intros a Ha%(jo_applied _ _ _ J). by apply (jo_validated_all _ _ _ J), (fk_applied _ Hc).
  - intros v Hv%(jo_validated _ _ _ J). by eapply (jo_received_all _ _ _ J).
Qed.

(** ** Answers *)

(** The parts of an answer *)
Lemma answer_parts network n g status now answer c :
  build_signed_node_heartbeat_status network n g status now c = Ok answer ->
  exists l transcript, mapM (M := result DatabaseError) (decode_node_endpoint_status now) (stored_endpoints n c) = Ok l /\
    hs_endpoints (ss_document answer) = merge_sort endpoint_order l /\
    hs_node_id (ss_document answer) = n /\ hs_heartbeat_generation (ss_document answer) = g /\
    id_from_str (nw_controller_epoch network) = Ok (hs_controller_instance_id (ss_document answer)) /\
    ed25519_signing_key_id identity_public_key = Ok (hs_signing_key_id (ss_document answer)) /\
    node_heartbeat_status_transcript (ss_document answer) = Ok transcript /\
    ss_signature answer = base64_encode (controller_sign transcript).
Proof.
  unfold build_signed_node_heartbeat_status, controller_signing_key_id, identity_sign, fixed_base64url. cbv zeta. intros H. inv_ok.
  eexists _, _. split; [eassumption|]. cbn. by split_and!.
Qed.
Lemma stored_endpoint_spec n c stored : stored ∈ stored_endpoints n c <->
  fl_candidates c !! (n, se_endpoint_id stored) = Some (se_candidate stored) /\ ca_withdrawn_at (se_candidate stored) = None /\
  fl_verifications c !! (n, se_endpoint_id stored) = Some (se_verification stored) /\
  se_attempt stored = latest_tcp_attempt n (se_endpoint_id stored) c.
Proof.
  unfold stored_endpoints. rewrite list_elem_of_omap. split.
  - intros ([[m e] row] & Hin & H). apply elem_of_map_to_list in Hin. cbn in H. case_bool_decide; [|done]. subst m. cbn in H.
    destruct (ca_withdrawn_at row) eqn:Ew; [done|]. cbn in H. apply bind_Some in H as (v & Hv & [= <-]). done.
  - intros (Hr & Hw & Hv & Ha). exists ((n, se_endpoint_id stored), se_candidate stored). split; [by apply elem_of_map_to_list|]. cbn.
    rewrite bool_decide_eq_true_2, Hw by done. cbn. rewrite Hv. cbn. destruct stored; cbn in *. by subst.
Qed.
Lemma decode_id now stored e : decode_node_endpoint_status now stored = Ok e -> es_endpoint_id e = se_endpoint_id stored.
Proof.
  unfold decode_node_endpoint_status. intros H. inv_ok. destruct x; inv_ok; [done|]. by destruct x as [[? ?] ?]; inv_ok.
Qed.
Lemma decode_verified now stored e : decode_node_endpoint_status now stored = Ok e -> es_readiness e = RdVerified ->
  ve_status (se_verification stored) = VsVerified /\ exists t, ve_expires_at (se_verification stored) = Some t /\ now < t.
Proof.
  unfold decode_node_endpoint_status, attempt_readiness. intros H Hr. inv_ok. destruct x; inv_ok.
  - destruct (ve_status _); inv_ok; try done. split; [done|]. destruct (ve_expires_at _) as [t|]; [|done]. exists t. split; [done|]. by apply Z.ltb_lt.
  - exfalso. repeat case_match; inv_ok; simplify_eq; done.
Qed.

(** C11: An endpoint is called verified only when a connection through it was made.
    When the controller answers a node that an endpoint is verified, the endpoint
    is a current candidate of that node, and a canary connected through the proxy
    at the address, port and revision of the candidate, less than 15 minutes ago
    and not before the candidate was last new. A TCP connection is never enough. *)
Theorem verified_means_probed o n h answer c c' e :
  fleet_reaches ed25519_verify_strict c -> record_heartbeat o n h c = (Ok answer, c') ->
  e ∈ hs_endpoints (ss_document answer) -> es_readiness e = RdVerified ->
  exists now row s, control_seconds (ot_wall o) = Ok now /\ fl_candidates c' !! (n, es_endpoint_id e) = Some row /\
    ca_withdrawn_at row = None /\ canary_passed (fl_attempts c') (n, es_endpoint_id e) row s /\ now < s + 900.
Proof.
  intros Hc%fleet_reaches_ok H He Hr. pose proof (heartbeat_ok _ _ _ _ _ _ H Hc) as Hc'.
  apply heartbeat_run in H as (_ & json & now & network & previous & _ & Hnow & _ & _ & _ & Hb & _).
  apply answer_parts in Hb as (l & transcript & Hl & El & _). rewrite El, merge_sort_Permutation in He.
  apply mapM_Ok in Hl. apply list_elem_of_lookup in He as [i Hi]. destruct (Forall2_lookup_r _ _ _ _ _ Hl Hi) as (stored & Hst & Hd).
  apply list_elem_of_lookup_2, stored_endpoint_spec in Hst as (Hrow & Hw & Hv & _). rewrite (decode_id _ _ _ Hd).
  destruct (decode_verified _ _ _ Hd Hr) as (Hs & t & Et & Ht). destruct (fk_verified _ Hc' _ _ _ Hrow Hv Hs) as (s & Hp & _ & Es).
  rewrite Et in Es. injection Es as ->. by exists now, (se_candidate stored), s.
Qed.

Lemma decode_encoded `{!Base64Laws B} {E} (e : E) bytes length : zlen bytes = length ->
  signed_decode_exact e (base64_encode bytes) length = Ok bytes.
Proof. intros Hl. unfold signed_decode_exact. rewrite base64_decode_encode. cbn. by rewrite Hl, Z.eqb_refl. Qed.
(** What the controller signs, a node that trusts its key accepts *)
Lemma answer_verifies `{!Base64Laws B} `{!ControllerKeyLaws Key} network n g status now answer c controller :
  build_signed_node_heartbeat_status network n g status now c = Ok answer ->
  id_from_str (nw_controller_epoch network) = Ok controller ->
  exists transcript, verify_envelope (mkTrust n controller identity_public_key) g answer = Ok transcript.
Proof.
  intros (l & transcript & _ & _ & En & Eg & Ec & Ek & Et & Es)%answer_parts Hcontroller. exists transcript.
  rewrite Hcontroller in Ec. injection Ec as ->. unfold verify_envelope, validated. cbn [ct_node_id ct_controller_instance_id ct_signing_public_key].
  pose proof Et as Et'. unfold node_heartbeat_status_transcript in Et'. apply bind_Ok in Et' as (u & Hval & _). apply map_err_Ok in Hval. destruct u.
  rewrite En, Eg in Hval. rewrite Hval. cbn. rewrite Ek. cbn. rewrite bool_decide_eq_true_2 by done. cbn.
  assert (verify_node_heartbeat_status_signature (ss_document answer) (ss_signature answer) identity_public_key = Ok tt) as ->; [|by rewrite Et].
  unfold verify_node_heartbeat_status_signature, identity_public_key. rewrite Es.
  rewrite !decode_encoded by (apply controller_public_length || apply controller_signature_length). cbn.
  rewrite controller_public_valid. cbn. rewrite Et. cbn. by rewrite controller_signature_verifies.
Qed.
Lemma answer_identities now l k : Forall2 (fun a b => decode_node_endpoint_status now a = Ok b) l k ->
  es_endpoint_id <$> k = se_endpoint_id <$> l.
Proof. induction 1 as [|a b l k Hab _ IH]; [done|]. cbn. by rewrite (decode_id _ _ _ Hab), IH. Qed.
Lemma stored_identities_unique n c : NoDup (se_endpoint_id <$> stored_endpoints n c).
Proof.
  unfold stored_endpoints. pose proof (NoDup_fst_map_to_list (fl_candidates c)) as Hn. revert Hn.
  induction (map_to_list (fl_candidates c)) as [|[[m e] row] l IH]; intros Hn; [apply NoDup_nil_2|]. inversion Hn as [|? ? Hni Hn']; subst.
  cbn. case_bool_decide; [|by apply IH]. subst m. cbn. destruct (ca_withdrawn_at row); [by apply IH|]. cbn.
  destruct (fl_verifications c !! (n, e)); cbn; [|by apply IH]. constructor; [|by apply IH].
  intros (st & -> & ([[m' e'] row'] & Hin & Hs)%list_elem_of_omap)%list_elem_of_fmap. apply Hni. cbn in Hs.
  case_bool_decide; [|done]. subst m'. destruct (ca_withdrawn_at row'); [done|]. cbn in Hs. apply bind_Some in Hs as (v' & _ & [= <-]). cbn.
  by apply (list_elem_of_fmap_2 fst) in Hin.
Qed.

(** The candidates of a node change only with its generation, which never falls *)
Definition candidates_held (n : NodeId) (c c' : Fleet) : Prop :=
  forall row, fl_nodes c !! n = Some row -> exists row', fl_nodes c' !! n = Some row' /\
    nd_heartbeat_generation row <= nd_heartbeat_generation row' /\
    (nd_heartbeat_generation row' = nd_heartbeat_generation row -> forall e, fl_candidates c' !! (n, e) = fl_candidates c !! (n, e)).
#[local] Instance held_preorder n : PreOrder (candidates_held n).
Proof.
  split.
  - intros c row Hrow. exists row. by split_and!.
  - intros c1 c2 c3 H12 H23 row Hrow. destruct (H12 _ Hrow) as (row2 & E2 & G2 & C2). destruct (H23 _ E2) as (row3 & E3 & G3 & C3).
    exists row3. split; [done|]. split; [lia|]. intros Eg e. rewrite C3, C2 by lia. done.
Qed.
Lemma held_same n c c' : fl_nodes c' = fl_nodes c -> fl_candidates c' = fl_candidates c -> candidates_held n c c'.
Proof. intros En Ec row Hrow. exists row. rewrite En, Ec. by split_and!. Qed.
Lemma heartbeat_held o m h a c c' n : record_heartbeat o m h c = (Ok a, c') -> candidates_held n c c'.
Proof.
  intros (Hval & json & now & network & previous & _ & _ & _ & Hn & _ & _ & [(_ & _ & ->)|(Hg & _ & Hr)])%heartbeat_run; [reflexivity|].
  apply (report_run m _ _ (hb_endpoints h)) in Hr as (Ho & _ & _ & Hk & _); [|done|by apply validated_ids_unique].
  assert (fl_nodes c' = <[m := heard h (sha256 json) now previous]> (fl_nodes c)) as En by (by rewrite Ho).
  intros row Hrow. rewrite En. destruct (decide (n = m)) as [->|Hne].
  - rewrite lookup_insert_eq. rewrite Hn in Hrow. injection Hrow as <-. eexists. split; [done|]. cbn. split; [lia|]. lia.
  - rewrite lookup_insert_ne by done. exists row. split; [done|]. split; [done|]. intros _ e. by apply Hk.
Qed.
Lemma result_held o m r result u c c' n : record_revision_result o m r result c = (Ok u, c') -> candidates_held n c c'.
Proof.
  intros (_ & _ & p & _ & _ & [[_ ->]|(now & stored & row & _ & _ & _ & Hn & _ & _ & Hs)])%result_run; [reflexivity|].
  destruct Hs as (En & _ & _ & Ec & _). intros row0 Hrow. rewrite En, Ec. cbn. destruct (decide (n = m)) as [->|Hne].
  - rewrite lookup_insert_eq. rewrite Hn in Hrow. injection Hrow as <-. eexists. split; [done|]. rewrite progressed_generation. by split.
  - rewrite lookup_insert_ne by done. exists row0. by split_and!.
Qed.
Lemma step_held c c' n : fleet_step ed25519_verify_strict c c' -> candidates_held n c c'.
Proof.
  intros [o h i|c1 H].
  - destruct (authenticate_node_request _ o h i c) as [[a|e] c1] eqn:E; cbn.
    + apply authenticate_run in E as ->. by apply held_same.
    + by rewrite (proj1 (failed_calls ed25519_verify_strict c) _ _ _ _ _ E).
  - apply (quiet_step_cases ed25519_verify_strict) in H as [->|[(o & m & h & a & H)|[(o & m & r & result & u & H)|[[_ ->]|[(o & j & r & a & H)|H]]]]].
    + reflexivity.
    + by eapply heartbeat_held.
    + by eapply result_held.
    + by apply held_same.
    + apply complete_canary_run in H as [[_ ->]|(now & t & row & v & _ & _ & _ & _ & _ & _ & -> & _)]; by apply held_same.
    + intros row Hrow. destruct (ew_nodes _ _ H _ _ Hrow) as (row' & E & Eg & _). exists row'. split; [done|]. split; [lia|].
      intros _ e. by rewrite (ew_candidates _ _ H).
Qed.

(** The controller took this heartbeat of the node as a new one, and went on from there *)
Definition delivered (n : NodeId) (h : NodeHeartbeat) (c : Fleet) : Prop :=
  exists o answer c0 c1 previous, fleet_reaches ed25519_verify_strict c0 /\ record_heartbeat o n h c0 = (Ok answer, c1) /\
    fl_nodes c0 !! n = Some previous /\ nd_heartbeat_generation previous < hb_generation h /\ rtc (fleet_step ed25519_verify_strict) c1 c.
(** The current candidates of the node are the endpoints of the heartbeat *)
Definition lists_endpoints (n : NodeId) (h : NodeHeartbeat) (c : Fleet) : Prop :=
  (forall e row, fl_candidates c !! (n, e) = Some row -> ca_withdrawn_at row = None ->
     exists candidate, candidate ∈ hb_endpoints h /\ ec_endpoint_id candidate = e) /\
  forall candidate, candidate ∈ hb_endpoints h -> exists row, fl_candidates c !! (n, ec_endpoint_id candidate) = Some row /\
     ca_withdrawn_at row = None.
Lemma new_lists o n h answer c c' previous :
  fleet_ok c -> record_heartbeat o n h c = (Ok answer, c') -> fl_nodes c !! n = Some previous ->
  nd_heartbeat_generation previous < hb_generation h -> lists_endpoints n h c'.
Proof.
  intros Hc H Hn Hg. destruct (candidates_after _ _ _ _ _ _ _ Hc H Hn Hg) as (Hcur & Hin & _). split.
  - intros e row Hr Hw. destruct (Hcur e row Hr Hw) as (candidate & ? & ? & _). by exists candidate.
  - intros candidate Hca. destruct (Hin candidate Hca) as (row & ? & ? & _). by exists row.
Qed.
Lemma heartbeat_generation_kept o n h answer c c' previous :
  record_heartbeat o n h c = (Ok answer, c') -> fl_nodes c !! n = Some previous -> nd_heartbeat_generation previous < hb_generation h ->
  exists row, fl_nodes c' !! n = Some row /\ nd_heartbeat_generation row = hb_generation h.
Proof.
  intros (Hval & json & now & network & p & _ & _ & _ & Hn & _ & _ & [(E & _)|(_ & _ & Hr)])%heartbeat_run Hn' Hg; simplify_eq; [lia|].
  apply (report_run n _ _ (hb_endpoints h)) in Hr as (Ho & _); [|done|by apply validated_ids_unique].
  rewrite Ho. cbn. rewrite lookup_insert_eq. by eexists.
Qed.
Lemma repeat_lists n h c row : delivered n h c -> fl_nodes c !! n = Some row -> nd_heartbeat_generation row = hb_generation h ->
  lists_endpoints n h c.
Proof.
  intros (o & answer & c0 & c1 & previous & H0%fleet_reaches_ok & H & Hn & Hg & Hrun) Hrow Eg.
  pose proof (new_lists _ _ _ _ _ _ _ H0 H Hn Hg) as [L1 L2].
  destruct (heartbeat_generation_kept _ _ _ _ _ _ _ H Hn Hg) as (row1 & E1 & Eg1).
  assert (candidates_held n c1 c) as Hheld.
  { clear -Hrun. induction Hrun as [|x y z S _ IH]; [reflexivity|]. etrans; [by apply step_held|done]. }
  destruct (Hheld _ E1) as (row' & E' & _ & Hsame). rewrite Hrow in E'. injection E' as <-.
  split; intros *; rewrite Hsame by congruence; eauto.
Qed.
Lemma answer_lists n h c network g status now answer :
  fleet_ok c -> heartbeat_validate h = Ok tt -> lists_endpoints n h c ->
  build_signed_node_heartbeat_status network n g status now c = Ok answer ->
  es_endpoint_id <$> hs_endpoints (ss_document answer) ≡ₚ ec_endpoint_id <$> hb_endpoints h.
Proof.
  intros Hok Hval [Hcur Hin] (l & transcript & Hl%mapM_Ok & -> & _)%answer_parts.
  rewrite merge_sort_Permutation, (answer_identities _ _ _ Hl). apply NoDup_Permutation; [apply stored_identities_unique|by apply validated_ids_unique|].
  intros e. rewrite !list_elem_of_fmap. split.
  - intros (st & -> & (Hr & Hw & _)%stored_endpoint_spec). destruct (Hcur _ _ Hr Hw) as (candidate & ? & ?). by exists candidate.
  - intros (candidate & -> & Hca). destruct (Hin _ Hca) as (row & Hr & Hw). destruct (fk_verification _ Hok _ _ Hr) as (v & Hv & _).
    exists (mkStoredEndpoint (ec_endpoint_id candidate) row v (latest_tcp_attempt n (ec_endpoint_id candidate) c)).
    split; [done|]. by apply stored_endpoint_spec.
Qed.

(** C18: Controller and node agree on a heartbeat. The answer to any heartbeat the
    controller accepts passes the node's verification, under the key and the
    controller identity it was enrolled with, for the generation it sent. And when
    the heartbeat is new, or repeats one the controller took before, whatever it
    did in between, the answer has exactly one status for each endpoint of the
    heartbeat. *)
Theorem heartbeat_round_trip `{!Base64Laws B} `{!ControllerKeyLaws Key} o n h answer c c' previous network controller :
  fleet_reaches ed25519_verify_strict c -> record_heartbeat o n h c = (Ok answer, c') -> fl_nodes c !! n = Some previous ->
  fl_network c = Some network -> id_from_str (nw_controller_epoch network) = Ok controller ->
  (exists transcript, verify_envelope (mkTrust n controller identity_public_key) (hb_generation h) answer = Ok transcript) /\
  (nd_heartbeat_generation previous < hb_generation h \/ delivered n h c ->
   es_endpoint_id <$> hs_endpoints (ss_document answer) ≡ₚ ec_endpoint_id <$> hb_endpoints h).
Proof.
  intros Hc%fleet_reaches_ok H Hn Hnet Hid. pose proof (heartbeat_ok _ _ _ _ _ _ H Hc) as Hc'. pose proof H as Hrun.
  apply heartbeat_run in H as (Hval & json & now & nw & p & _ & _ & Hnw & Hp & _ & Hb & Hcase).
  rewrite Hnet in Hnw. injection Hnw as <-. rewrite Hn in Hp. injection Hp as <-.
  split; [by eapply answer_verifies|]. intros Hold. eapply answer_lists; [done|done| |done].
  destruct Hcase as [(E & _ & ->)|(Hg & _)]; [|by apply (new_lists o n h answer c c' previous)].
  destruct Hold as [?|Hold]; [lia|]. by eapply repeat_lists.
Qed.

(** C38: The controller refuses a new heartbeat, one of a later generation, with
    everything else it says, when one of its direct endpoints has another port than
    the public port of the revision the endpoint is reported for: nothing is
    recorded. *)
Theorem foreign_port_refused o n h c previous candidate :
  fl_nodes c !! n = Some previous -> nd_heartbeat_generation previous < hb_generation h -> candidate ∈ hb_endpoints h ->
  ec_mode candidate = EmDirect ->
  (forall row, revision_of n (ec_applied_revision candidate) c = Some row -> revision_port row <> Some (ec_port candidate)) ->
  exists e, record_heartbeat o n h c = (Err e, c).
Proof.
  intros Hn Hg Hin Hm Hport. destruct (record_heartbeat o n h c) as [[answer|e] c'] eqn:H.
  - exfalso. apply heartbeat_run in H as (Hval & json & now & network & p & _ & _ & _ & Hn' & _ & _ & Hcase). simplify_eq.
    destruct Hcase as [(E & _)|(_ & _ & Hr)]; [lia|].
    apply (report_run n _ _ (hb_endpoints h)) in Hr as (_ & _ & Hun & _); [|done|by apply validated_ids_unique].
    destruct (Hun candidate Hin) as [Hv _]. unfold validate_endpoint_candidate_revision in Hv. rewrite Hm, bool_decide_eq_true_2 in Hv by done. cbn [negb] in Hv. inv_ok.
    apply bool_decide_eq_true in Hv. apply bind_Some in Hv as (row & Hr & E). by eapply Hport.
  - exists e. by rewrite (proj1 (proj2 (failed_calls ed25519_verify_strict c)) _ _ _ _ _ H).
Qed.

(** ** Probes *)

Lemma find_map {A} (p : A -> bool) (f : A -> A) l : (forall a, p (f a) = p a) -> List.find p (map f l) = f <$> List.find p l.
Proof. intros Hp. induction l as [|a l IH]; [done|]. cbn. rewrite Hp. by destruct (p a). Qed.
(** Expiring claims leaves the other attempts where they are *)
Lemma expire_finds now c c' p a :
  expire_stale_probe_claims now c = Ok c' -> List.find p (fl_attempts c) = Some a -> at_status a = AtSucceeded ->
  (forall x, at_status x = AtClaimed -> p (finished AtExpired now None None "claim_expired" x) = p x) ->
  List.find p (fl_attempts c') = Some a.
Proof.
  unfold expire_stale_probe_claims, update_attempts. intros H Hf Hs Hp. inv_ok. cbn. rewrite find_map, Hf.
  - cbn. by rewrite Hs.
  - intros x. destruct (bool_decide (at_status x = AtClaimed)) eqn:E; [|done]. apply bool_decide_eq_true in E.
    cbn. destruct (_ <=? _); [by apply Hp|done].
Qed.
Lemma first_due_spec phase due c entry : first_due phase due c = Some entry -> due entry = true /\ fl_candidates c !! entry.1 = Some entry.2.
Proof.
  unfold first_due. intros H. assert (entry ∈ List.filter due (map_to_list (fl_candidates c))) as Hin.
  { rewrite <- (merge_sort_Permutation (probe_order phase c)). destruct (merge_sort _ _); [done|]. injection H as ->. by left. }
  apply list_elem_of_In, filter_In in Hin as [Hin Hdue]. split; [done|]. apply elem_of_map_to_list. apply list_elem_of_In in Hin. by destruct entry.
Qed.

(** The endpoint a canary is claimed for was due *)
Lemma canary_claimed o fresh runner options c job c' row :
  claim_protocol_canary o fresh runner options c = (Ok (Some job), c') ->
  fl_candidates c !! (tj_node_id (pj_shape job), tj_endpoint_id (pj_shape job)) = Some row ->
  exists now cutoff success failure c1, control_seconds (ot_wall o) = Ok now /\
    probe_duration_seconds (ps_success_interval options) = Ok success /\ expire_stale_probe_claims now c = Ok c1 /\
    canary_due cutoff (now - success) success failure now c1 ((tj_node_id (pj_shape job), tj_endpoint_id (pj_shape job)), row) = true.
Proof.
  unfold claim_protocol_canary. cbv zeta. intros H Hrow. tx_inv.
  match type of H with (match ?o with Some _ => _ | None => _ end) _ = _ => destruct o as [found|] eqn:Ef end; tx_inv.
  match goal with p : string * string * string * string * string |- _ => destruct p as [[[[? ?] ?] ?] ?] end. tx_inv. cbn in *.
  eexists _, _, _, _, _. do 3 (split; [eassumption|]). apply first_due_spec in Ef as [Hdue Hfound].
  match goal with E : expire_stale_probe_claims _ _ = _ |- _ => apply expire_run in E as [_ E']; rewrite E' in Hfound end. cbn in Hfound.
  destruct found as [[n e] row']. cbn in *. rewrite Hrow in Hfound. injection Hfound as <-. exact Hdue.
Qed.

(** C39: A canary that passed is not repeated on a TCP preflight from before it.
    Whatever the schedule: when an endpoint is claimed for a canary and its last
    canary passed, then the success interval has passed since that canary was
    started, and has not been exceeded since the TCP connection the claim relies on
    was completed. So that connection was completed no earlier than the canary was
    started, and in the very second of its start only if the claim is made exactly
    the interval after it. *)
Theorem canary_awaits_preflight o fresh runner options c job c' row a tcp :
  claim_protocol_canary o fresh runner options c = (Ok (Some job), c') ->
  let entry := ((tj_node_id (pj_shape job), tj_endpoint_id (pj_shape job)), row) in
  fl_candidates c !! entry.1 = Some row ->
  List.find (attempt_of PhProtocol entry) (fl_attempts c) = Some a -> at_status a = AtSucceeded ->
  List.find (preflight_of entry) (fl_attempts c) = Some tcp ->
  exists completed now interval, at_completed_at tcp = Some completed /\ control_seconds (ot_wall o) = Ok now /\
    probe_duration_seconds (ps_success_interval options) = Ok interval /\
    at_started_at a + interval <= now <= completed + interval /\ at_started_at a <= completed /\
    (at_started_at a = completed -> now = at_started_at a + interval).
Proof.
  intros H entry Hrow Ha Hs Htcp. assert (at_status tcp = AtSucceeded) as Hts.
  { apply find_some in Htcp as [_ Hp]. unfold preflight_of in Hp. rewrite !andb_true_iff in Hp. destruct Hp as [[[[_ Hp] _] _] _]. by apply bool_decide_eq_true in Hp. }
  destruct (canary_claimed _ _ _ _ _ _ _ _ H Hrow) as (now & cutoff & success & failure & c1 & Hnow & Hsuccess & E & Hdue).
  pose proof (expire_finds now c c1 _ _ E Ha Hs (fun x _ => eq_refl)) as Ha1.
  assert (List.find (preflight_of entry) (fl_attempts c1) = Some tcp) as Htcp1.
  { apply (expire_finds now c c1 _ _ E Htcp Hts). intros x Hx. unfold preflight_of. rewrite Hx. cbn. by rewrite !andb_false_r. }
  unfold canary_due in Hdue. rewrite !andb_true_iff in Hdue. destruct Hdue as [[[[[[[_ _] _] Hpre] _] _] _] Hnext].
  fold entry in Hpre, Hnext. rewrite Htcp1 in Hpre. cbn in Hpre. apply andb_true_iff in Hpre as [Hpre _].
  destruct (at_completed_at tcp) as [completed|]; [|done]. exists completed, now, success. do 3 (split; [done|]). cbn in Hpre.
  unfold next_attempt_at in Hnext. rewrite Ha1, Hs, bool_decide_eq_true_2 in Hnext by done. lia.
Qed.

(** ** Members *)

(** The status of a credential of the node once a revision is applied: a credential
    of the revision becomes active, one that it leaves out is revoked *)
Definition settled (listed : bool) (status : CredentialStatus) : CredentialStatus :=
  match status with
  | CrPending => if listed then CrActive else CrPending
  | CrActive | CrRetiring => if listed then status else CrRevoked
  | CrRevoked => CrRevoked
  end.
Lemma reconcile_credentials_spec n now u c c' row r :
  reconcile_applied_member_credentials n now c = (Ok u, c') -> fl_nodes c !! n = Some row -> nd_applied row = Some r ->
  (n, r) ∈ fl_snapshots c ->
  forall k m, fl_members c !! k = Some m -> exists m', fl_members c' !! k = Some m' /\
    if decide (mc_node_id m = n) then mc_status m' = settled (in_snapshot n r c k) (mc_status m) else m' = m.
Proof.
  unfold reconcile_applied_member_credentials. intros H Hn Ha Hs k m Hm. tx_inv. unfold id in H. simplify_eq.
  rewrite bool_decide_eq_true_2 in H by done. cbn [negb] in H. tx_inv.
  repeat match goal with E : update_members _ _ _ = _ |- _ => apply update_members_run in E; subst end. cbn.
  rewrite !lookup_update_where, Hm. cbn. eexists. split; [done|].
  destruct (decide (mc_node_id m = n)) as [Hid|Hne].
  - destruct (mc_status m) eqn:Es, (in_snapshot n _ c k); cbn; repeat (case_bool_decide; cbn in *; rewrite ?Es in *; try done); set_solver.
  - rewrite !(bool_decide_eq_false_2 (mc_node_id m = n)) by done. done.
Qed.

Lemma latest_stored n revision result c :
  load_latest_revision_result n revision c = Ok (Some result) -> is_Some (fl_results c !! (n, revision, rr_state result)).
Proof.
  unfold load_latest_revision_result. destruct (latest_state n revision c) as [state|]; [|done]. unfold load_revision_result_state.
  destruct (fl_results c !! (n, revision, state)) as [stored|] eqn:E; [|done]. unfold parse_stored_revision_result. intros H. inv_ok.
  repeat match goal with E : _ && _ = true |- _ => apply andb_true_iff in E as [? ?] end.
  match goal with E : bool_decide (rr_state _ = _) = true |- _ => apply bool_decide_eq_true in E as -> end. by rewrite E.
Qed.
(** The tables when the members are reconciled: only the node and its journal have changed *)
Lemma result_reconciles o n revision result u c c' :
  record_revision_result o n revision result c = (Ok u, c') -> rr_state result = RsApplied \/ rr_state result = RsRolledBack ->
  fl_results c !! (n, revision, rr_state result) = None ->
  exists now c1 c2 v, reconcile_applied_member_credentials n now c1 = (Ok v, c2) /\ fl_members c1 = fl_members c /\
    fl_snapshots c1 = fl_snapshots c /\ fl_snapshot_credentials c1 = fl_snapshot_credentials c /\
    fl_nodes c2 = fl_nodes c1 /\ fl_nodes c' = fl_nodes c2 /\ fl_members c' = fl_members c2.
Proof.
  intros H Hst Hfree. unfold record_revision_result in H. tx_inv. unfold load_fleet_network in *. tx_inv.
  case_bool_decide as Hp; tx_inv; [exfalso; subst; match goal with E : load_latest_revision_result _ _ _ = _ |- _ => apply latest_stored in E as [? ?] end; congruence|].
  match goal with E : validate_result_target _ _ _ = _ |- _ => unfold validate_result_target in E end.
  match goal with E : append_revision_result _ _ _ _ _ = _ |- _ => unfold append_revision_result in E end. tx_inv.
  match goal with E : update_revision_progress_cache _ _ _ _ _ = _ |- _ => eapply cache_run in E; [|eassumption]; subst end.
  destruct Hst as [E|E]; rewrite E in *; tx_inv;
    match goal with E' : reconcile_applied_member_credentials _ _ _ = _ |- _ => pose proof E' as (En & _)%reconcile_run;
      eexists _, _, _, _; split; [exact E'|by split_and!] end.
Qed.

(** C19: The credentials of members follow the revision a node applies. When a new
    result says that a revision was applied or rolled back, and the revision the
    node then runs has a list of members: each pending credential on the list
    becomes active, each active or retiring one that is not on it is revoked, and
    no other credential, and none of another node, changes its status. *)
Theorem members_follow_revision o n revision result u c c' row r :
  record_revision_result o n revision result c = (Ok u, c') ->
  rr_state result = RsApplied \/ rr_state result = RsRolledBack ->
  fl_results c !! (n, revision, rr_state result) = None ->
  fl_nodes c' !! n = Some row -> nd_applied row = Some r -> (n, r) ∈ fl_snapshots c ->
  forall k m, fl_members c !! k = Some m -> exists m', fl_members c' !! k = Some m' /\
    if decide (mc_node_id m = n) then mc_status m' = settled (in_snapshot n r c k) (mc_status m) else m' = m.
Proof.
  intros H Hst Hfree Hn' Ha Hs k m Hm.
  destruct (result_reconciles _ _ _ _ _ _ _ H Hst Hfree) as (now & c1 & c2 & v & Hr & Em & Es & Ec & En1 & En2 & Em').
  rewrite En2, En1 in Hn'. rewrite Em'. rewrite <- Em in Hm. rewrite <- Es in Hs.
  destruct (reconcile_credentials_spec _ _ _ _ _ _ _ Hr Hn' Ha Hs _ _ Hm) as (m' & Hm' & H'). exists m'. split; [done|].
  unfold in_snapshot in *. by rewrite Ec in H'.
Qed.
End Theorems.

(** ** Witnesses *)

#[local] Instance short_json : HeartbeatJson := {
  heartbeat_to_vec h := Some (be_bytes 8 (hb_generation h));
  status_from_slice _ := None;
  status_to_string _ := None;
  status_from_str _ := None;
}.
#[local] Instance one_port : ArtifactJson := { public_port_of _ := Some 443; server_name_of _ := Some "example.com"%string }.
#[local] Instance sum_key : ControllerKey := {
  controller_public_bytes := replicate 32 x01;
  controller_sign m := be_bytes 64 (byte_sum m);
}.
#[local] Instance sum_key_laws : ControllerKeyLaws sum_key.
Proof.
  split; [done|done|intros m; unfold zlen, controller_sign, sum_key; by rewrite length_be_bytes|]. intros m. cbn. by apply bool_decide_eq_true.
Qed.
Definition any_signature : list byte -> list byte -> list byte -> bool := fun _ _ _ => true.

(** A network with one node, its key, a signed revision, a canary and two members *)
Definition the_node : NodeId := sample_uuid 2.
Definition the_key : NodeKeyId := sample_uuid 7.
Definition the_endpoint : EndpointId := sample_uuid 4.
Definition at_second (s : Z) : Outside := mkOutside true (s * NANOS).
Definition empty_fleet : Fleet :=
  mkFleet (Some (mkNetworkRow (uuid_to_string (sample_uuid 1)) true (uuid_to_string (sample_uuid 8)))) ∅ ∅ ∅ ∅ ∅ ∅ ∅ ∅ [] ∅ ∅ ∅ ∅ ∅ [].
Definition enrolled_fleet : Fleet :=
  mkFleet (fl_network empty_fleet)
    {[the_node := mkNodeRow NodeActive "1.0.0" None None false None (Some 1) None None None None 0 0 None 0
       (Some "key"%string, Some "00"%string)]}
    {[the_key := mkAuthCredential the_node sample_key 0 100000 None]} ∅
    {[1 := mkRevisionRow the_node 2 "{}"]} {[(the_node, 1)]} ∅ ∅ ∅ [] {[(the_node, 1)]} {[(the_node, 1, sample_uuid 20)]}
    {[sample_uuid 20 := mkMemberCredential the_node CrPending 0 None None None true true;
      sample_uuid 21 := mkMemberCredential the_node CrActive 0 (Some 1) None None true true]}
    {[(the_node, sample_uuid 30) := mkCanaryRow "vless" true]} {[(the_node, 1) := sample_uuid 30]} [].
Definition reported (state : RevisionResultState) : RevisionResult :=
  mkResult state (match state with RsReceived => None | _ => Some "d"%string end) (mkTime 0 0) (mkTime 0 0) None None.
Definition reports (state : RevisionResultState) (c : Fleet) : Fleet :=
  (record_revision_result (at_second 1000) the_node 1 (reported state) c).2.
Definition validated_fleet : Fleet := reports RsValidated (reports RsReceived enrolled_fleet).
Definition applied_fleet : Fleet := reports RsApplied validated_fleet.

(** A heartbeat with one endpoint; the endpoint is probed, and the next heartbeat
    is answered that it is verified *)
Definition listed_endpoint (port : Z) : EndpointCandidate :=
  ProtoNode.mkCandidate the_endpoint EmDirect EsManual "8.8.4.4" port 1 (mkTime 0 0) None.
Definition beats (g port : Z) : NodeHeartbeat :=
  mkHeartbeat g "1.0.0" (Some "1.8.0"%string) RunServing (mkProgress (Some 1) (Some 1) (Some 1) (Some 1)) false [listed_endpoint port] 0.
Definition beat_fleet : Fleet := (record_heartbeat (at_second 1010) the_node (beats 1 443) applied_fleet).2.
Definition first_fresh : FreshClaim := mkFresh (sample_uuid 40) [x01].
Definition second_fresh : FreshClaim := mkFresh (sample_uuid 41) [x02].
Definition job_of {A} (r : result DatabaseError (option A)) : option A := match r with Ok j => j | Err _ => None end.
Definition tcp_claim := claim_tcp_probe (at_second 1011) first_fresh (sample_uuid 50) default_tcp_schedule beat_fleet.
Definition tcp_fleet : Fleet :=
  match job_of tcp_claim.1 with
  | Some job => (complete_tcp_probe (at_second 1012) job (TcpConnected (V4 [8; 8; 4; 4]) 1000000) tcp_claim.2).2
  | None => tcp_claim.2
  end.
Definition canary_claim := claim_protocol_canary (at_second 1013) second_fresh (sample_uuid 51) default_canary_schedule tcp_fleet.
Definition verified_fleet : Fleet :=
  match job_of canary_claim.1 with
  | Some job => (complete_protocol_canary (at_second 1014) job (CanaryConnected 1000000) canary_claim.2).2
  | None => canary_claim.2
  end.
Definition second_beat := record_heartbeat (at_second 1040) the_node (beats 2 443) verified_fleet.

Lemma enrolled_elsewhere : elsewhere empty_fleet enrolled_fleet.
Proof.
  split; try reflexivity.
  - intros n row H. cbn in H. by rewrite lookup_empty in H.
  - intros n row _ H. cbn in H. apply lookup_singleton_Some in H as [_ <-]. done.
  - intros key. by left.
Qed.
Lemma reports_step state c : fleet_step any_signature c (reports state c).
Proof. apply step_quiet, step_result. Qed.
Lemma applied_reached : fleet_reaches any_signature applied_fleet.
Proof.
  exists empty_fleet. split; [by split_and!|]. eapply rtc_l; [apply step_quiet, step_elsewhere, enrolled_elsewhere|].
  eapply rtc_l; [exact (reports_step RsReceived _)|]. eapply rtc_l; [exact (reports_step RsValidated _)|]. apply rtc_once. exact (reports_step RsApplied _).
Qed.
Lemma beat_run : rtc (fleet_step any_signature) beat_fleet verified_fleet.
Proof.
  eapply rtc_l; [eapply step_quiet, (step_claim_tcp _ (at_second 1011) first_fresh (sample_uuid 50) default_tcp_schedule)|]. fold tcp_claim.
  transitivity tcp_fleet.
  { unfold tcp_fleet. destruct (job_of tcp_claim.1) as [job|]; [|reflexivity]. apply rtc_once, step_quiet, step_complete_tcp. }
  eapply rtc_l; [eapply step_quiet, (step_claim_canary _ (at_second 1013) second_fresh (sample_uuid 51) default_canary_schedule)|]. fold canary_claim.
  unfold verified_fleet. destruct (job_of canary_claim.1) as [job|]; [|reflexivity]. apply rtc_once, step_quiet, step_complete_canary.
Qed.
Lemma verified_reached : fleet_reaches any_signature verified_fleet.
Proof.
  destruct applied_reached as (c0 & H0 & H). exists c0. split; [done|]. etrans; [exact H|]. clear.
  eapply rtc_l; [eapply step_quiet, (step_heartbeat _ (at_second 1010) the_node (beats 1 443))|]. exact beat_run.
Qed.
Lemma second_beat_verified :
  (fun answer => (fun e => (es_endpoint_id e, readiness_as_str (es_readiness e))) <$> hs_endpoints (ss_document answer))
    <$> match second_beat.1 with Ok a => Some a | Err _ => None end = Some [(the_endpoint, "verified"%string)].
Proof. vm_compute. reflexivity. Qed.
Lemma run_succeeds {A} (p : result DatabaseError A * Fleet) : is_ok p.1 = true -> exists a, p = (Ok a, p.2).
Proof. destruct p as [[a|e] c]; [by exists a|done]. Qed.
Lemma second_beat_runs : is_ok second_beat.1 = true.
Proof. vm_compute. reflexivity. Qed.
Lemma verified_generation : nd_heartbeat_generation <$> fl_nodes verified_fleet !! the_node = Some 1.
Proof. vm_compute. reflexivity. Qed.
Lemma candidates_follow_heartbeat_witness :
  exists row, fl_candidates second_beat.2 !! (the_node, the_endpoint) = Some row /\ ca_withdrawn_at row = None /\
    describes 2 (listed_endpoint 443) row.
Proof.
  destruct (run_succeeds second_beat second_beat_runs) as [answer E].
  destruct (proj1 (fmap_Some _ _ _) verified_generation) as (previous & Hn & Hg).
  assert (nd_heartbeat_generation previous < hb_generation (beats 2 443)) as Hlt by (rewrite <- Hg; cbn; lia).
  destruct (candidates_follow_heartbeat any_signature (at_second 1040) the_node (beats 2 443) answer verified_fleet second_beat.2 previous
    verified_reached E Hn Hlt) as (_ & H & _).
  apply (H (listed_endpoint 443)). by left.
Defined.
Lemma verified_means_probed_witness :
  exists now row s, control_seconds (ot_wall (at_second 1040)) = Ok now /\
    fl_candidates second_beat.2 !! (the_node, the_endpoint) = Some row /\ ca_withdrawn_at row = None /\
    canary_passed (fl_attempts second_beat.2) (the_node, the_endpoint) row s /\ now < s + 900.
Proof.
  destruct (run_succeeds second_beat second_beat_runs) as [answer E]. pose proof second_beat_verified as V. rewrite E in V. cbn [fst fmap option_fmap option_map] in V.
  destruct (hs_endpoints (ss_document answer)) as [|e [|? ?]] eqn:El; [discriminate V| |discriminate V]. injection V as Hid Hr.
  assert (e ∈ hs_endpoints (ss_document answer)) as Hin by (rewrite El; left).
  assert (es_readiness e = RdVerified) as Hv by (destruct (es_readiness e); [discriminate Hr..|reflexivity]).
  pose proof (verified_means_probed any_signature (at_second 1040) the_node (beats 2 443) answer verified_fleet second_beat.2 e
    verified_reached E Hin Hv) as P. rewrite Hid in P. exact P.
Defined.
Lemma network_kept : nw_controller_epoch <$> fl_network verified_fleet = Some (uuid_to_string (sample_uuid 8)).
Proof. vm_compute. reflexivity. Qed.
Lemma applied_generation : nd_heartbeat_generation <$> fl_nodes applied_fleet !! the_node = Some 0.
Proof. vm_compute. reflexivity. Qed.
Lemma first_beat_runs : is_ok (record_heartbeat (at_second 1010) the_node (beats 1 443) applied_fleet).1 = true.
Proof. vm_compute. reflexivity. Qed.
Lemma first_delivered : delivered any_signature the_node (beats 1 443) verified_fleet.
Proof.
  destruct (run_succeeds _ first_beat_runs) as [answer E]. destruct (proj1 (fmap_Some _ _ _) applied_generation) as (previous & Hn & Hg).
  exists (at_second 1010), answer, applied_fleet, beat_fleet, previous. split; [exact applied_reached|]. split; [exact E|].
  split; [exact Hn|]. split; [rewrite <- Hg; cbn; lia|exact beat_run].
Qed.
(** The node repeats its first heartbeat, after the endpoint was probed *)
Definition repeated_beat := record_heartbeat (at_second 1040) the_node (beats 1 443) verified_fleet.
Lemma repeated_beat_runs : is_ok repeated_beat.1 = true.
Proof. vm_compute. reflexivity. Qed.
Lemma heartbeat_round_trip_witness :
  exists answer transcript, repeated_beat.1 = Ok answer /\
    verify_envelope (mkTrust the_node (sample_uuid 8) identity_public_key) 1 answer = Ok transcript /\
    es_endpoint_id <$> hs_endpoints (ss_document answer) ≡ₚ [the_endpoint].
Proof.
  destruct (run_succeeds repeated_beat repeated_beat_runs) as [answer E].
  destruct (proj1 (fmap_Some _ _ _) verified_generation) as (previous & Hn & _).
  destruct (proj1 (fmap_Some _ _ _) network_kept) as (network & Hw & He).
  assert (id_from_str (nw_controller_epoch network) = Ok (sample_uuid 8)) as Hid by (rewrite <- He; vm_compute; reflexivity).
  destruct (heartbeat_round_trip any_signature (at_second 1040) the_node (beats 1 443) answer verified_fleet repeated_beat.2 previous network (sample_uuid 8)
    verified_reached E Hn Hw Hid) as ((transcript & H) & P).
  exists answer, transcript. split; [by rewrite E|]. split; [exact H|exact (P (or_intror first_delivered))].
Defined.
Lemma verified_progress : (fun row => (nd_received row, nd_validated row, nd_applied row)) <$> fl_nodes verified_fleet !! the_node
  = Some (Some 1, Some 1, Some 1).
Proof. vm_compute. reflexivity. Qed.
Lemma progress_is_journal_witness : exists row, fl_nodes verified_fleet !! the_node = Some row /\ journal_ok verified_fleet the_node row /\
  nd_applied row = Some 1 /\ exists v, nd_validated row = Some v /\ 1 <= v.
Proof.
  destruct (proj1 (fmap_Some _ _ _) verified_progress) as (row & Hn & [= _ _ Ha]). exists row. split; [exact Hn|].
  destruct (progress_is_journal any_signature verified_fleet the_node row verified_reached Hn) as (J & H & _).
  split; [exact J|]. split; [exact (eq_sym Ha)|]. exact (H 1 (eq_sym Ha)).
Defined.
(** The router gave port 40001 *)
Lemma foreign_port_refused_witness : exists e, record_heartbeat (at_second 1040) the_node (beats 2 40001) verified_fleet = (Err e, verified_fleet).
Proof.
  destruct (proj1 (fmap_Some _ _ _) verified_generation) as (previous & Hn & Hg).
  apply (foreign_port_refused any_signature (at_second 1040) the_node (beats 2 40001) verified_fleet previous (listed_endpoint 40001)); [exact Hn| | | |].
  - rewrite <- Hg. cbn. lia.
  - cbn. left.
  - reflexivity.
  - intros row _. unfold revision_port. destruct (rv_schema_version row =? 2); discriminate.
Defined.

(** A quarter of an hour later: the endpoint is due again *)
Definition later_beat : Fleet := (record_heartbeat (at_second 1905) the_node (beats 2 443) verified_fleet).2.
Definition third_fresh : FreshClaim := mkFresh (sample_uuid 42) [x03].
Definition fourth_fresh : FreshClaim := mkFresh (sample_uuid 43) [x04].
Definition later_claim := claim_tcp_probe (at_second 1915) third_fresh (sample_uuid 50) default_tcp_schedule later_beat.
Definition later_tcp : Fleet :=
  match job_of later_claim.1 with
  | Some job => (complete_tcp_probe (at_second 1916) job (TcpConnected (V4 [8; 8; 4; 4]) 1000000) later_claim.2).2
  | None => later_claim.2
  end.
Definition later_canary := claim_protocol_canary (at_second 1917) fourth_fresh (sample_uuid 51) default_canary_schedule later_tcp.
Lemma later_job : (fun job => (tj_node_id (pj_shape job), tj_endpoint_id (pj_shape job))) <$> job_of later_canary.1 = Some (the_node, the_endpoint).
Proof. vm_compute. reflexivity. Qed.
Lemma later_attempts :
  (row ← fl_candidates later_tcp !! (the_node, the_endpoint);
   a ← List.find (attempt_of PhProtocol ((the_node, the_endpoint), row)) (fl_attempts later_tcp);
   tcp ← List.find (preflight_of ((the_node, the_endpoint), row)) (fl_attempts later_tcp);
   Some (at_started_at a, bool_decide (at_status a = AtSucceeded), at_completed_at tcp)) = Some (1013, true, Some 1916).
Proof. vm_compute. reflexivity. Qed.
Lemma job_of_Some {A} (p : result DatabaseError (option A) * Fleet) job : job_of p.1 = Some job -> p = (Ok (Some job), p.2).
Proof. destruct p as [[[j|]|e] c]; cbn; intros H; [by injection H as ->|done..]. Qed.
Lemma canary_awaits_preflight_witness :
  exists job a tcp completed, later_canary.1 = Ok (Some job) /\ a ∈ fl_attempts later_tcp /\ at_started_at a = 1013 /\
    at_completed_at tcp = Some completed /\ at_started_at a <= completed.
Proof.
  destruct (proj1 (fmap_Some _ _ _) later_job) as (job & Hj & [= En Ee]). pose proof (job_of_Some later_canary job Hj) as E.
  pose proof later_attempts as L. unfold later_canary in *. clear Hj. rewrite En, Ee in L. revert L E. generalize later_tcp. intros c L E.
  apply bind_Some in L as (row & Hrow & L). apply bind_Some in L as (a & Ha & L). apply bind_Some in L as (tcp & Ht & [= Es Hs _]).
  apply bool_decide_eq_true in Hs.
  destruct (canary_awaits_preflight (at_second 1917) fourth_fresh (sample_uuid 51) default_canary_schedule c job _ row a tcp E Hrow Ha Hs Ht)
    as (completed & now & interval & Ec & _ & _ & _ & Hle & _).
  exists job, a, tcp, completed. split; [by rewrite E|]. split; [by apply find_some in Ha as [Ha _]; apply list_elem_of_In|].
  split; [exact Es|]. split; [exact Ec|exact Hle].
Defined.

(** Revision 1 is applied: it lists the first member and not the second *)
Definition applying := record_revision_result (at_second 1000) the_node 1 (reported RsApplied) validated_fleet.
Lemma applying_runs : is_ok applying.1 = true.
Proof. vm_compute. reflexivity. Qed.
Lemma applying_row : nd_applied <$> fl_nodes applying.2 !! the_node = Some (Some 1).
Proof. vm_compute. reflexivity. Qed.
Lemma not_yet_applied : fl_results validated_fleet !! (the_node, 1, rr_state (reported RsApplied)) = None.
Proof. vm_compute. reflexivity. Qed.
Lemma revision_has_members : (the_node, 1) ∈ fl_snapshots validated_fleet.
Proof. apply (bool_decide_unpack _). vm_compute. exact I. Qed.
Lemma second_member : (fun m => (mc_node_id m, mc_status m)) <$> fl_members validated_fleet !! sample_uuid 21 = Some (the_node, CrActive).
Proof. vm_compute. reflexivity. Qed.
Lemma second_unlisted : in_snapshot the_node 1 validated_fleet (sample_uuid 21) = false.
Proof. vm_compute. reflexivity. Qed.
Lemma members_follow_revision_witness :
  exists m', fl_members applying.2 !! sample_uuid 21 = Some m' /\ mc_status m' = CrRevoked.
Proof.
  destruct (run_succeeds applying applying_runs) as [u E]. destruct (proj1 (fmap_Some _ _ _) applying_row) as (row & Hn & Ha).
  destruct (proj1 (fmap_Some _ _ _) second_member) as (m & Hm' & [= Hnode Hst]).
  destruct (members_follow_revision (at_second 1000) the_node 1 (reported RsApplied) u validated_fleet applying.2 row 1
    E (or_introl eq_refl) not_yet_applied Hn (eq_sym Ha) revision_has_members (sample_uuid 21) m Hm') as (m' & E' & H).
  exists m'. split; [exact E'|]. destruct (decide (mc_node_id m = the_node)) as [_|Hne]; [|by destruct Hne].
  rewrite H, second_unlisted, <- Hst. reflexivity.
Defined.

(** A request that arrives twice, and then one with another nonce *)
Definition signed_at (s : Z) (nonce : byte) : NodeRequestAuthHeaders :=
  mkAuthHeaders the_node the_key (mkTime (s * NANOS) 0) (base64_encode (replicate 16 nonce)) (base64_encode (replicate 64 x04)).
Definition asks (s : Z) (nonce : byte) (c : Fleet) :=
  authenticate_node_request any_signature (at_second s) (signed_at 1000 nonce) sample_request c.
Definition asked_once : Fleet := (asks 1000 x03 enrolled_fleet).2.
Definition asked_again : Fleet := (asks 1010 x03 asked_once).2.
Lemma asked_verdicts :
  (is_ok (asks 1000 x03 enrolled_fleet).1, is_ok (asks 1010 x03 asked_once).1, is_ok (asks 1020 x05 asked_again).1) = (true, false, true).
Proof. vm_compute. reflexivity. Qed.
Definition accepted_log : list Accepted :=
  [mkAccepted (at_second 1020) asked_again (signed_at 1000 x05) sample_request;
   mkAccepted (at_second 1000) enrolled_fleet (signed_at 1000 x03) sample_request].
Lemma asks_serving s nonce wall log c accepted : serving any_signature wall log c -> wall <= s * NANOS ->
  is_ok (asks s nonce c).1 = accepted ->
  serving any_signature (s * NANOS) (if accepted then mkAccepted (at_second s) c (signed_at 1000 nonce) sample_request :: log else log) (asks s nonce c).2.
Proof. intros H Hw <-. exact (serving_request any_signature wall log c (at_second s) (signed_at 1000 nonce) sample_request H Hw). Qed.
Lemma accepted_serving : serving any_signature (1020 * NANOS) accepted_log (asks 1020 x05 asked_again).2.
Proof.
  pose proof asked_verdicts as V. apply pair_eq in V as [V V3]. apply pair_eq in V as [V1 V2]. unfold NANOS.
  pose proof (asks_serving 1000 x03 0 [] enrolled_fleet true (serving_start _ 0 enrolled_fleet) ltac:(unfold NANOS; lia) V1) as S1.
  pose proof (asks_serving 1010 x03 _ _ asked_once false S1 ltac:(unfold NANOS; lia) V2) as S2.
  exact (asks_serving 1020 x05 _ _ asked_again true S2 ltac:(unfold NANOS; lia) V3).
Qed.
Lemma requests_accepted_once_witness : Forall (authentic any_signature) accepted_log /\ NoDup (request_identity <$> accepted_log).
Proof. exact (requests_accepted_once any_signature (1020 * NANOS) accepted_log (asks 1020 x05 asked_again).2 accepted_serving). Defined.
